(* ===== verification/_CoqProject ===== *)
-Q . S2P
Prelude.v
Ring.v
Memory.v
KString.v
Kernel.v
Spinlock.v
Boot.v
Io.v
Lapic.v
Mp.v
Cprintf.v
Ioapic.v
Kalloc.v
Vm.v
Paging.v
Uvm.v
Proc.v
Rand.v
Sched.v
Sleeplock.v
Observe.v
Bio.v
Cache.v
Ide.v
Log.v
Crash.v
Fs.v
Volume.v
Content.v
Dirs.v
FileCrash.v
Pipe.v
File.v
Fork.v
Args.v
Sysproc.v
Exec.v
Bootmain.v
Sysfile.v
Syscall.v
Console.v
Kbd.v
Screen.v
Trap.v
Main.v
Asm.v
Typed.v
TypedFs.v
TypedSys.v
User.v
System.v
Sh.v
Grep.v
Utils.v
Umalloc.v
Usertests.v
Mkfs.v
Integration.v
