(* ===== verification/Prelude.v ===== *)
(** * Verification of an xv6 system with lottery and priority scheduling

    The program is xv6 for the x86, a small Unix with a kernel, a shell, user
    programs and the tool that builds its file system image, changed to
    schedule by LOTTERY (a random ticket) or by PRIORITY (quanta in proportion
    to priorities), with system calls to set tickets and priorities, to wait
    with times ([wait2]), to trace calls and to count context switches.

    ** How the code is modelled

    This is a shallow embedding.  A C [int] is a [Z] brought back to 32 bits at
    every store (but for the few counters named at the end); a pointer to an
    element of a kernel table is its index; other memory is a map from
    addresses to bytes (Memory.v).

    Kernel code is a function of the monad [M] of Kernel.v: it takes the
    record [kernel] of all global variables, the registers of the CPUs and the
    history of device accesses, and gives an [outcome]: a result with a new
    state ([Ret]), a panic, a spin on a lock another CPU holds, a sleep from
    which the budget of context switches does not bring it back ([Blocked]), a
    CPU exception ([Fault]) or a loop that is not over when its iterations are
    used up ([Diverge]).  An index outside an array of the kernel gives a
    [Fault] with the name of the array ([put_slot], [elem_at], [in_array] of
    Kernel.v), on a read and on a write; the offsets inside a disk block, which
    the code computes modulo its size, are not checked in this way.  Where a process gives up the CPU ([swtch]) the others
    run: [interfere], of the class [Machine], is what they do to the state.

    User code (User.v) is a tree of system calls, [prog]; [safe] says that a
    program never faults and never runs out of fuel, whatever the calls reply,
    and [run] executes it against a given system.

    ** Files

    - Prelude.v: integers, lists, tactics, hint databases.  Ring.v: doubly
      linked lists in arrays.  Memory.v: bytes and words in memory.
    - KString.v: string.c.
    - Kernel.v: the headers (param.h, mmu.h, memlayout.h, proc.h, spinlock.h,
      sleeplock.h, buf.h, fs.h, file.h), the global state, the monad, and a
      program logic for it ([wp]: the program returns, and its result and final
      state satisfy a condition).
    - Spinlock.v: spinlock.c and [mycpu], [cpuid], [myproc] of proc.c.
      Boot.v: a concrete machine on which the witnesses evaluate.
    - Io.v: the port and register accesses of x86.h.  What a device answers is
      a function of the history (class [Ports]).
    - Lapic.v: lapic.c.  Mp.v: mp.c.  Ioapic.v: ioapic.c and picirq.c.
      Ide.v: ide.c, and the protocol of a drive ([drive_step], [ide_law]): what
      it answers is assumed only as long as registers and commands are written
      when it is ready, and data are transferred after a command and a report
      that it is ready.  Kbd.v: kbd.c and uart.c.
    - Cprintf.v and Console.v: console.c over the sequence of characters
      written.  Screen.v: [consputc] with the serial port and the screen.
    - Kalloc.v: kalloc.c.  Vm.v: vm.c.  Paging.v and Uvm.v: the theorems on
      vm.c, against the translation that the hardware does.
    - Proc.v, Sched.v, Fork.v: proc.c; its schedulers are in Sched.v, and what
      creates and ends processes in Fork.v.  Rand.v: rand.c.
    - Sleeplock.v: sleeplock.c.  Observe.v: the parts of the state that locks
      and sleeping leave alone.  Bio.v: bio.c over the class [BlockDriver], and memide.c as an
      instance of it; Cache.v: the theorems on bio.c.
    - Log.v: log.c.  Crash.v: the theorems on it.
    - Fs.v: fs.c over the class [DevOps] of device files.  The theorems on it:
      Volume.v says what the blocks of a disk mean (bitmap, inodes, the bytes
      of a file), without the kernel; Content.v proves what the operations do
      to that meaning; Dirs.v does so for directories; FileCrash.v joins
      Content.v with Crash.v.
    - Pipe.v: pipe.c.  File.v: file.c.
    - Args.v and Syscall.v: syscall.c.  Sysproc.v: sysproc.c.  Sysfile.v:
      sysfile.c.  Exec.v: exec.c.
    - Trap.v: trap.c over the class [Interrupts] of the drivers' handlers.
    - Main.v: main.c, with the instances of the classes that it puts together.
      Bootmain.v: bootmain.c, the loader.
    - Asm.v: swtch.S, trapasm.S, vectors.pl, bootasm.S, entry.S, entryother.S,
      initcode.S and asm.h, as lists of instructions for an interpreter of the
      part of the x86 they use; sign.pl.
    - Typed.v, TypedFs.v, TypedSys.v: the type invariant of the kernel, and
      that every system call and interrupt keeps it.
    - User.v: ulib.c, printf.c, the calls of user.h.  System.v: usys.S, and
      programs that run on the kernel of the files above.  Sh.v: sh.c.
      Grep.v: grep.c.  Umalloc.v: umalloc.c.  Utils.v: the other user
      programs, one module each.  Usertests.v: usertests.c.
    - Mkfs.v: mkfs.c.  Integration.v: user programs on the whole kernel, with
      the file system image that the model of mkfs.c builds.

    Operations carry the names of the C functions.  A part of a long function
    that is a definition of its own (a loop body, a branch) says so in its
    comment.

    ** What the theorems show

    - Files and crashes.  Cache.v: the buffer cache is transparent.  Content.v:
      [readi], [writei], [itrunc], [balloc] and [bfree] do to the bytes of
      files what their names say, and nothing to other files.  Dirs.v: a name
      that was linked is found.  Crash.v: a commit is atomic wherever the
      machine stops; FileCrash.v: therefore a write to a file is, in a
      transaction of its own and on the disk of memide.c.  Ide.v: the driver
      keeps to the protocol of the drive and serves requests in order.  Mkfs.v: the image is the file system
      of the inputs, as the functions of Fs.v read it.
    - Address spaces.  Paging.v: the hardware translates as [mappages] was
      told, with the permissions that the entries of the directory and of the
      table both give.  Uvm.v: [deallocuvm] undoes [allocuvm]; after [copyuvm] parent and
      child hold the same bytes in pages that neither shares with the other.
      Kalloc.v: the page allocator is a stack.
    - Assembly.  Asm.v: [swtch] and the trap path restore what they saved, a
      new process starts in user mode, the boot code reaches [bootmain] and
      [main].  Bootmain.v: the loader puts the segments of the kernel in place.
    - Scheduling.  Sched.v: what a round of each scheduler dispatches, with
      which state of the CPU, for how many ticks, and with which odds.
      Rand.v: range and uniformity of the draws, and the recurrence of the
      generator.
    - Processes.  Proc.v: no wakeup is lost; [kill] and the quanta.  Fork.v:
      the first stack of a process, unique pids, and the state in which [exit]
      leaves the table.  Pipe.v: a pipe is a queue, and both ends together
      transmit a stream.  Trap.v: what a clock tick does, and the deadlock of
      the tick lock and the table lock.  Spinlock.v: the discipline of locks
      and of nested disabling of interrupts.
    - The whole kernel.  TypedSys.v: every system call keeps the type
      invariant, and no index leaves its array but in two places that are
      named.  System.v: so do programs, whatever they call.  Integration.v
      runs tests of usertests.c on the kernel, as examples.
    - Console.  Screen.v: the screen is a terminal that shows the end of what
      was written.  KString.v and Cprintf.v: copies and printing.
    - User side.  Sh.v: the parser understands what is written and the child
      terminates on any line.  Umalloc.v: [malloc] and [free].  Grep.v: the
      matcher decides its patterns, and what [grep] prints.  Utils.v: [cat]
      and [wc].
    - Devices, without being listed among the main properties: Lapic.v (the
      clock), Mp.v (an unknown entry), Ioapic.v (the routing), Kbd.v (the
      decoding of keys).

    ** Bounds and fuel

    Loops over tables and lists run over them.  Other loops of the kernel have
    the number of iterations that their data allow and one or two more: [NBUF]
    for the buffer list, the number of pages or blocks for loops over sizes,
    the length for paths.  [Diverge] at such a bound means that the C loop
    goes on for ever or that its data are malformed; the theorems conclude a
    [Ret], so for them the bounds suffice.  Loops without a bound take one:
    the draws of [random_at_most] (the theorem on a round names running out of
    them as the other outcome), the rounds of [scheduler], the polls of a
    device ([POLLS]), the budget of switches of [sleep].  The interpreter of
    Asm.v takes the number of instructions: the theorems give it, and for the
    wait loops of the boot sector it follows from how long the keyboard
    controller is busy.  User programs that read until the end of their input
    take fuel; the theorems say how much suffices, for the shell's parser it
    is computed from the line and proved enough for every line.

    ** Not modelled

    - The wrap at 32 bits of counters that the code keeps far below it: the
      nesting of [pushcli], the references of an inode, the system
      calls outstanding in the log and the number of its blocks are unbounded.
    - kernel.ld and the Makefile.  Addresses of labels and linked code are
      fields of the classes [Machine] and [Others], and a parameter of Asm.v.
    - The interleaving of CPUs inside an operation: another CPU appears as the
      holder of a lock, as [interfere] at a switch, or, in Trap.v and Proc.v,
      as a second run from the state in between.
    - In the C code, the stack of the machine, except where code writes to it
      by hand (Fork.v, Asm.v); the caches; memory ordering. *)

From Stdlib Require Export ZArith Lia Bool.
From stdpp Require Export base list option strings decidable numbers.

Declare Scope xv6_scope.
Delimit Scope xv6_scope with xv6.

Create HintDb xv6 discriminated.
Create Rewrite HintDb ints.

(** ** Machine integers

    A C [uint] is a [Z] in [[0, 2^32)]; a C [int] is a [Z] in
    [[-2^31, 2^31)].  [u32], [s32] and the narrower ones bring a [Z] back to
    the range of its type; every store to a field of that type goes through
    one of them, so overflow wraps as it does on the machine. *)

Definition u8 (x : Z) : Z := x mod 2 ^ 8.
Definition u16 (x : Z) : Z := x mod 2 ^ 16.
Definition u32 (x : Z) : Z := x mod 2 ^ 32.
Definition s16 (x : Z) : Z := (x + 2 ^ 15) mod 2 ^ 16 - 2 ^ 15.
Definition s32 (x : Z) : Z := (x + 2 ^ 31) mod 2 ^ 32 - 2 ^ 31.

(** The truth value of a C condition, and a C condition as an [int]. *)
Definition truthy (x : Z) : bool := negb (x =? 0)%Z.
Definition b2z (b : bool) : Z := if b then 1 else 0.

(** The characters of a string constant. *)
Definition chars (s : string) : list Z :=
  (fun c => Z.of_N (Ascii.N_of_ascii c)) <$> String.list_ascii_of_string s.

Open Scope Z_scope.

Lemma u8_range x : 0 <= u8 x < 256.
Proof. unfold u8. apply Z.mod_pos_bound. lia. Qed.

Lemma u32_range x : 0 <= u32 x < 2 ^ 32.
Proof. unfold u32. apply Z.mod_pos_bound. lia. Qed.

Lemma s32_range x : - 2 ^ 31 <= s32 x < 2 ^ 31.
Proof.
  unfold s32. pose proof (Z.mod_pos_bound (x + 2 ^ 31) (2 ^ 32)). lia.
Qed.

Lemma u8_small x : 0 <= x < 256 -> u8 x = x.
Proof. intros. unfold u8. rewrite Z.mod_small; lia. Qed.

Lemma u32_small x : 0 <= x < 2 ^ 32 -> u32 x = x.
Proof. intros. unfold u32. rewrite Z.mod_small; lia. Qed.

Lemma s32_small x : - 2 ^ 31 <= x < 2 ^ 31 -> s32 x = x.
Proof. intros. unfold s32. rewrite Z.mod_small; lia. Qed.

Lemma u32_idemp x : u32 (u32 x) = u32 x.
Proof. apply u32_small, u32_range. Qed.

Lemma s32_idemp x : s32 (s32 x) = s32 x.
Proof. apply s32_small, s32_range. Qed.

(** [u32] is a ring homomorphism: the wrap of intermediate results of an
    unsigned expression can be left to the end. *)
Lemma u32_add x y : u32 (u32 x + y) = u32 (x + y).
Proof. unfold u32. rewrite Z.add_mod_idemp_l; lia. Qed.

Lemma u32_add_r x y : u32 (x + u32 y) = u32 (x + y).
Proof. unfold u32. rewrite Z.add_mod_idemp_r; lia. Qed.

Lemma u32_sub x y : u32 (u32 x - y) = u32 (x - y).
Proof. unfold u32. rewrite Zminus_mod_idemp_l; lia. Qed.

Lemma u32_sub_r x y : u32 (x - u32 y) = u32 (x - y).
Proof. unfold u32. rewrite Zminus_mod_idemp_r; lia. Qed.

Lemma s32_sub x y : s32 (s32 x - y) = s32 (x - y).
Proof.
  unfold s32.
  replace ((x + 2 ^ 31) mod 2 ^ 32 - 2 ^ 31 - y + 2 ^ 31) with ((x + 2 ^ 31) mod 2 ^ 32 - y) by lia.
  rewrite Zminus_mod_idemp_l. do 2 f_equal. lia.
Qed.

Lemma s32_add x y : s32 (s32 x + y) = s32 (x + y).
Proof. rewrite <- (Z.sub_opp_r (s32 x)), s32_sub. f_equal. lia. Qed.

#[export] Hint Rewrite s32_sub s32_add u32_add u32_add_r u32_sub u32_sub_r u32_idemp s32_idemp : ints.
#[export] Hint Resolve u8_range u32_range s32_range : xv6.

Lemma truthy_b2z b : truthy (b2z b) = b.
Proof. by destruct b. Qed.

Lemma truthy_spec x : truthy x = true <-> x <> 0.
Proof. unfold truthy. rewrite negb_true_iff, Z.eqb_neq. done. Qed.

Lemma land_bit x j : 0 <= j -> truthy (Z.land x (Z.shiftl 1 j)) = Z.testbit x j.
Proof.
  intros Hj. assert (E : Z.land x (Z.shiftl 1 j) = if Z.testbit x j then 2 ^ j else 0).
  { apply Z.bits_inj'. intros i Hi. rewrite Z.land_spec, Z.shiftl_1_l, Z.pow2_bits_eqb by lia.
    destruct (Z.eqb_spec j i) as [->|].
    - rewrite andb_true_r. destruct (Z.testbit x i); [by rewrite Z.pow2_bits_true|by rewrite Z.testbit_0_l].
    - rewrite andb_false_r. destruct (Z.testbit x j); [by rewrite Z.pow2_bits_false|by rewrite Z.testbit_0_l]. }
  rewrite E. destruct (Z.testbit x j); [|done]. apply truthy_spec. lia.
Qed.

(** ** Case analysis on the boolean comparisons of the code *)

Ltac case_bool :=
  match goal with
  | |- context [Z.eqb ?a ?b] => destruct (Z.eqb_spec a b)
  | |- context [Z.ltb ?a ?b] => destruct (Z.ltb_spec a b)
  | |- context [Z.leb ?a ?b] => destruct (Z.leb_spec a b)
  | |- context [Nat.eqb ?a ?b] => destruct (Nat.eqb_spec a b)
  | H : context [Z.eqb ?a ?b] |- _ => destruct (Z.eqb_spec a b)
  | H : context [Z.ltb ?a ?b] |- _ => destruct (Z.ltb_spec a b)
  | H : context [Z.leb ?a ?b] |- _ => destruct (Z.leb_spec a b)
  | H : context [Nat.eqb ?a ?b] |- _ => destruct (Nat.eqb_spec a b)
  end.

(** ** Sums and the first index with a property *)

Fixpoint zsum (l : list Z) : Z :=
  match l with
  | [] => 0
  | x :: l => x + zsum l
  end.

Lemma zsum_app l1 l2 : zsum (l1 ++ l2) = zsum l1 + zsum l2.
Proof. induction l1; simpl; lia. Qed.

Lemma zsum_nonneg l : Forall (fun x => 0 <= x) l -> 0 <= zsum l.
Proof. induction 1; simpl; lia. Qed.

Lemma zsum_take_le (l : list Z) n :
  Forall (fun x => 0 <= x) l -> zsum (take n l) <= zsum l.
Proof.
  intros H. rewrite <- (take_drop n l) at 2. rewrite zsum_app.
  pose proof (zsum_nonneg (drop n l) (Forall_drop _ _ _ H)). lia.
Qed.

Lemma zsum_elem_le x (l : list Z) : x ∈ l -> Forall (fun x => 0 <= x) l -> x <= zsum l.
Proof.
  intros Hx. induction l as [|y l IH]; intros Hl; [by apply not_elem_of_nil in Hx|].
  apply list.Forall_cons in Hl as [Hy Hl]. pose proof (zsum_nonneg l Hl). simpl.
  apply elem_of_cons in Hx as [->|Hx]; [lia|]. specialize (IH Hx Hl). lia.
Qed.

Lemma zsum_take_S (l : list Z) n x :
  l !! n = Some x -> zsum (take (S n) l) = zsum (take n l) + x.
Proof. intros H. rewrite (take_S_r _ _ _ H), zsum_app. simpl. lia. Qed.

(** ** Updating every slot of a table in index order

    The kernel walks its tables with [for(p = t; p < &t[N]; p++)]; when the
    body only writes slot [p] from the old contents of slot [p], the walk is
    a map. *)

Section table.
Context {A : Type}.
Implicit Types (f : A -> A) (t : list A).

Definition walk f (idx : list nat) t : list A :=
  foldl (fun t i => alter f i t) t idx.

Lemma walk_length f idx t : length (walk f idx t) = length t.
Proof.
  unfold walk. revert t. induction idx as [|i idx IH]; intros t; [done|].
  simpl. rewrite IH. by rewrite length_alter.
Qed.

Lemma walk_lookup_in f idx t i :
  NoDup idx -> i ∈ idx -> walk f idx t !! i = f <$> t !! i.
Proof.
  unfold walk. revert t. induction idx as [|j idx IH]; intros t Hnd Hin.
  { by apply not_elem_of_nil in Hin. }
  pose proof (NoDup_cons_1_1 _ _ Hnd) as Hj. apply NoDup_cons_1_2 in Hnd. simpl.
  apply elem_of_cons in Hin as [->|Hin].
  - clear IH. assert (forall t, foldl (fun t i => alter f i t) t idx !! j = t !! j) as ->.
    + clear Hnd. induction idx as [|x idx IH']; intros t'; [done|]. simpl.
      apply not_elem_of_cons in Hj as [? ?].
      rewrite IH' by done. by rewrite list_lookup_alter_ne.
    + by rewrite list_lookup_alter_eq.
  - rewrite IH by done. rewrite list_lookup_alter_ne; [done|]. congruence.
Qed.

Lemma walk_seq f t : walk f (seq 0 (length t)) t = f <$> t.
Proof.
  apply list_eq. intros i. rewrite list_lookup_fmap.
  destruct (decide (i < length t)%nat) as [Hi|Hi].
  - apply walk_lookup_in; [apply NoDup_seq | apply elem_of_seq; lia].
  - rewrite !lookup_ge_None_2; [done | lia | rewrite walk_length; lia].
Qed.
End table.

(** ** The first slot of a table with a property *)

Section find_index.
Context {A : Type}.
Implicit Types (p : A -> bool) (l : list A).

Fixpoint find_index p l : option nat :=
  match l with
  | [] => None
  | x :: l => if p x then Some 0%nat else S <$> find_index p l
  end.

Lemma find_index_Some p l i :
  find_index p l = Some i <->
  (exists x, l !! i = Some x /\ p x = true) /\
  (forall j y, (j < i)%nat -> l !! j = Some y -> p y = false).
Proof.
  revert i. induction l as [|x l IH]; intros i; simpl.
  { split; [done | intros [(y & Hy & _) _]; done]. }
  destruct (p x) eqn:Hp.
  - split.
    + intros [= <-]. split; [by exists x | lia].
    + intros [(y & Hy & Hpy) Hfst]. destruct i as [|i]; [done|].
      exfalso. specialize (Hfst 0%nat x). rewrite Hp in Hfst. by discriminate Hfst; [lia|].
  - split.
    + intros (i' & Hi' & ->)%fmap_Some. apply IH in Hi' as [Hx Hfst].
      split; [done|]. intros [|j] y Hj Hy; simplify_eq/=; [done|]. apply (Hfst j); [lia | done].
    + intros [(y & Hy & Hpy) Hfst]. destruct i as [|i]; simpl in Hy; [congruence|].
      apply fmap_Some. exists i. split; [|done]. apply IH. split; [by exists y|].
      intros j z Hj Hz. apply (Hfst (S j)); [lia | done].
Qed.

Lemma find_index_None p l :
  find_index p l = None <-> Forall (fun x => p x = false) l.
Proof.
  induction l as [|x l IH]; simpl; [by split|].
  rewrite list.Forall_cons. destruct (p x); [by split; [|intros []]|].
  rewrite <- IH. destruct (find_index p l); simpl; split; (done || by intros [_ ?]).
Qed.

Lemma find_index_lt p l i : find_index p l = Some i -> (i < length l)%nat.
Proof. intros [(x & Hx & _) _]%find_index_Some. by eapply lookup_lt_Some. Qed.
End find_index.

(** ** Counting the numbers of an interval *)

Section filter.
Context {A : Type} (P : A -> Prop) `{Hdec : forall x, Decision (P x)}.

Lemma filter_all (l : list A) : (forall x, x ∈ l -> P x) -> filter P l = l.
Proof.
  induction l as [|x l IH]; intros HP; [done|]. rewrite filter_cons_True by (apply HP; left).
  f_equal. apply IH. intros y Hy. apply HP. by right.
Qed.

Lemma filter_none (l : list A) : (forall x, x ∈ l -> ~ P x) -> filter P l = [].
Proof.
  induction l as [|x l IH]; intros HP; [done|]. rewrite filter_cons_False by (apply HP; left).
  apply IH. intros y Hy. apply HP. by right.
Qed.
End filter.

Lemma filter_interval (P : Z -> Prop) `{forall x, Decision (P x)} n lo hi :
  0 <= lo <= hi -> hi <= n -> (forall w, 0 <= w < n -> P w <-> lo <= w < hi) ->
  Z.of_nat (length (filter P (seqZ 0 n))) = hi - lo.
Proof.
  intros Hlo Hhi HP.
  replace n with (lo + ((hi - lo) + (n - hi))) by lia.
  rewrite seqZ_app, (seqZ_app (0 + lo)), !list.filter_app, !length_app by lia.
  rewrite (filter_none _ (seqZ 0 lo)), (filter_all _ (seqZ (0 + lo) _)), (filter_none _ (seqZ (0 + lo + _) _)).
  - rewrite length_seqZ. simpl. lia.
  - intros w Hw%elem_of_seqZ. rewrite HP; lia.
  - intros w Hw%elem_of_seqZ. rewrite HP; lia.
  - intros w Hw%elem_of_seqZ. rewrite HP; lia.
Qed.

(** ** Updates of one slot *)

Section alter.
Context {A : Type}.
Implicit Types (f g : A -> A) (l : list A).

Lemma list_alter_twice f g i l : alter f i (alter g i l) = alter (fun x => f (g x)) i l.
Proof. revert i. induction l as [|x l IH]; intros [|i]; f_equal/=; auto. Qed.

Lemma list_alter_same f i l :
  (forall x, l !! i = Some x -> f x = x) -> alter f i l = l.
Proof.
  revert i. induction l as [|x l IH]; intros [|i] H; f_equal/=; auto.
Qed.

Lemma list_alter_swap f g i j l :
  i <> j -> alter f i (alter g j l) = alter g j (alter f i l).
Proof.
  revert i j. induction l as [|x l IH]; intros [|i] [|j] ?; f_equal/=; auto; lia.
Qed.

Lemma list_alter_insert f i l x : l !! i = Some x -> alter f i l = <[i := f x]> l.
Proof.
  revert i. induction l as [|y l IH]; intros [|i] Hi; simplify_eq/=; [done|]. f_equal/=. by apply IH.
Qed.

Lemma list_lookup_alter_cases f i j l x :
  alter f i l !! j = Some x ->
  (i = j /\ exists y, l !! j = Some y /\ x = f y) \/ (i <> j /\ l !! j = Some x).
Proof.
  destruct (decide (i = j)) as [->|Hne].
  - rewrite list_lookup_alter_eq. intros (y & Hy & ->)%fmap_Some. left. eauto.
  - rewrite list_lookup_alter_ne by done. auto.
Qed.
End alter.

(** ** Bitwise operations on 32-bit words *)

Lemma word_bits x : 0 <= x < 2 ^ 32 <-> (0 <= x /\ forall i, 32 <= i -> Z.testbit x i = false).
Proof.
  split.
  - intros [H0 H]. split; [done|]. intros i Hi.
    destruct (Z.eq_dec x 0) as [->|]; [apply Z.bits_0|].
    apply Z.bits_above_log2; [done|].
    apply Z.lt_le_trans with 32; [|done]. apply Z.log2_lt_pow2; lia.
  - intros [H0 H]. split; [done|].
    destruct (Z.eq_dec x 0) as [->|]; [lia|].
    apply Z.log2_lt_pow2; [lia|].
    destruct (Z.lt_ge_cases (Z.log2 x) 32) as [|Hge]; [done|].
    specialize (H _ Hge). rewrite Z.bit_log2 in H by lia. done.
Qed.

Lemma lxor_word x y : 0 <= x < 2 ^ 32 -> 0 <= y < 2 ^ 32 -> 0 <= Z.lxor x y < 2 ^ 32.
Proof.
  rewrite !word_bits. intros [? Hx] [? Hy]. split; [by apply Z.lxor_nonneg|].
  intros i Hi. by rewrite Z.lxor_spec, Hx, Hy.
Qed.

Lemma lor_word x y : 0 <= x < 2 ^ 32 -> 0 <= y < 2 ^ 32 -> 0 <= Z.lor x y < 2 ^ 32.
Proof.
  rewrite !word_bits. intros [? Hx] [? Hy]. split; [by apply Z.lor_nonneg|].
  intros i Hi. by rewrite Z.lor_spec, Hx, Hy.
Qed.

Lemma land_word x y : 0 <= x < 2 ^ 32 -> 0 <= Z.land x y < 2 ^ 32.
Proof.
  rewrite !word_bits. intros [? Hx]. split; [apply Z.land_nonneg; by left|].
  intros i Hi. by rewrite Z.land_spec, Hx.
Qed.

Lemma land_word_r x y : 0 <= y < 2 ^ 32 -> 0 <= Z.land x y < 2 ^ 32.
Proof. rewrite Z.land_comm. apply land_word. Qed.

Lemma shiftr_word x n : 0 <= n -> 0 <= x < 2 ^ 32 -> 0 <= Z.shiftr x n < 2 ^ 32.
Proof.
  rewrite !word_bits. intros Hn [? Hx]. split; [by apply Z.shiftr_nonneg|].
  intros i Hi. rewrite Z.shiftr_spec by lia. apply Hx. lia.
Qed.

#[export] Hint Resolve lxor_word lor_word land_word shiftr_word : xv6.
