(* ===== verification/Ring.v ===== *)
(** Doubly linked lists in an array, as pure functions from index to index:
    [nx] and [pv] are the two links, [linked nx pv x l z] says that the nodes
    of [l] lie, in this order, between [x] and [z].  The buffer cache (bio.c)
    keeps such a list with [x = z], a ring through the head. *)

From S2P Require Import Prelude.

Definition fn_set (i v : nat) (f : nat -> nat) : nat -> nat := fun j => if decide (j = i) then v else f j.

Lemma fn_set_eq i v f : fn_set i v f i = v.
Proof. unfold fn_set. by rewrite decide_True. Qed.

Lemma fn_set_ne i j v f : j <> i -> fn_set i v f j = f j.
Proof. intros. unfold fn_set. by rewrite decide_False. Qed.

Lemma fn_set_cong i v f g j : f j = g j -> fn_set i v f j = fn_set i v g j.
Proof. unfold fn_set. by case_decide. Qed.

Fixpoint linked (nx pv : nat -> nat) (x : nat) (l : list nat) (z : nat) : Prop :=
  match l with
  | [] => nx x = z /\ pv z = x
  | y :: l => nx x = y /\ pv y = x /\ linked nx pv y l z
  end.

Section linked.
Implicit Types (nx pv : nat -> nat) (l : list nat).

Lemma linked_app nx pv x l1 y l2 z :
  linked nx pv x (l1 ++ y :: l2) z <-> linked nx pv x l1 y /\ linked nx pv y l2 z.
Proof. revert x. induction l1 as [|w l1 IH]; intros x; simpl; [tauto|]. rewrite IH. tauto. Qed.

Lemma linked_ext nx pv nx' pv' x l z :
  (forall i, i = x \/ i ∈ l -> nx' i = nx i) -> (forall i, i = z \/ i ∈ l -> pv' i = pv i) ->
  linked nx pv x l z -> linked nx' pv' x l z.
Proof.
  revert x. induction l as [|y l IH]; intros x Hn Hp; simpl.
  - intros [Hx Hz]. split; [rewrite Hn | rewrite Hp]; auto.
  - intros (Hx & Hy & Hl). rewrite Hn by auto. rewrite Hp by (right; left). split_and!; [done..|].
    apply IH; [| |done]; intros i Hi; [apply Hn | apply Hp]; rewrite elem_of_cons; naive_solver.
Qed.

(** Read backwards, the list is linked the other way round. *)
Lemma linked_rev nx pv x l z : linked nx pv x l z -> linked pv nx z (rev l) x.
Proof.
  revert x. induction l as [|y l IH]; intros x; simpl; [tauto|].
  intros (Hx & Hy & Hl). apply linked_app. simpl. auto.
Qed.

(** The last node before the end. *)
Fixpoint last_of (x : nat) l : nat :=
  match l with
  | [] => x
  | y :: l => last_of y l
  end.

Lemma last_of_in x l : last_of x l = x \/ last_of x l ∈ l.
Proof.
  revert x. induction l as [|y l IH]; intros x; simpl; [auto|]. right.
  destruct (IH y) as [->|]; [left | by right].
Qed.

Lemma linked_pv nx pv x l z : linked nx pv x l z -> pv z = last_of x l.
Proof. revert x. induction l as [|y l IH]; intros x; simpl; [tauto|]. intros (_ & _ & Hl). by apply IH. Qed.

(** A list that ended at [b] is made to end at [z]. *)
Lemma linked_retarget nx pv x l b z :
  NoDup l -> x ∉ l -> z ∉ l -> linked nx pv x l b ->
  linked (fn_set (last_of x l) z nx) (fn_set z (last_of x l) pv) x l z.
Proof.
  revert x. induction l as [|y l IH]; intros x Hnd Hx Hz; simpl.
  - intros _. by rewrite !fn_set_eq.
  - intros (Hn & Hp & Hl). apply list.NoDup_cons in Hnd as [Hy Hnd].
    apply not_elem_of_cons in Hx as [Hxy Hx]. apply not_elem_of_cons in Hz as [Hzy Hz].
    split_and!; [| |by apply IH].
    + rewrite fn_set_ne; [done|]. destruct (last_of_in y l) as [->|Hin]; [done|]. intros ->. done.
    + by rewrite fn_set_ne.
Qed.

(** [b->next->prev = b->prev; b->prev->next = b->next] takes [b] out. *)
Lemma linked_unlink nx pv x l1 b l2 z :
  NoDup (l1 ++ b :: l2) -> x ∉ l1 ++ b :: l2 -> z ∉ l1 ++ b :: l2 ->
  linked nx pv x (l1 ++ b :: l2) z ->
  linked (fn_set (pv b) (nx b) nx) (fn_set (nx b) (pv b) pv) x (l1 ++ l2) z.
Proof.
  intros Hnd Hx Hz [H1 H2]%linked_app. pose proof (linked_pv _ _ _ _ _ H1) as Hpb.
  apply list.NoDup_app in Hnd as (Hnd1 & Hd & [Hb Hnd2]%list.NoDup_cons).
  rewrite not_elem_of_app, not_elem_of_cons in Hx, Hz. destruct l2 as [|d l2].
  - destruct H2 as [Hnb _]. rewrite app_nil_r, Hnb, Hpb. apply (linked_retarget nx pv x l1 b z); naive_solver.
  - destruct H2 as (Hnb & Hpd & H2). apply list.NoDup_cons in Hnd2 as [Hdl Hnd2].
    rewrite not_elem_of_cons in Hx, Hz. assert (d ∉ l1) as Hd1.
    { intros Hin. apply (Hd d Hin). right. left. }
    rewrite Hnb, Hpb. apply linked_app. split; [apply (linked_retarget nx pv x l1 b d); naive_solver|].
    apply (linked_ext nx pv); [| |done].
    + intros i Hi. apply fn_set_ne. intros ->. destruct (last_of_in x l1) as [E|Hin].
      * rewrite E in Hi. naive_solver.
      * destruct Hi as [E|Hi]; [by rewrite E in Hin|]. apply (Hd _ Hin). by do 2 right.
    + intros i Hi. apply fn_set_ne. naive_solver.
Qed.

(** [b->next = x->next; b->prev = x; x->next->prev = b; x->next = b] puts [b]
    in behind [x]. *)
Lemma linked_insert nx pv x b l z :
  NoDup l -> x ∉ l -> z ∉ l -> b ∉ l -> b <> x -> b <> z ->
  linked nx pv x l z ->
  linked (fn_set x b (fn_set b (nx x) nx)) (fn_set (nx x) b (fn_set b x pv)) x (b :: l) z.
Proof.
  intros Hnd Hx Hz Hb Hbx Hbz Hl. simpl. rewrite fn_set_eq.
  destruct l as [|y l]; simpl in *.
  - destruct Hl as [-> _]. rewrite fn_set_eq, fn_set_ne, fn_set_eq, fn_set_ne, fn_set_eq by done. done.
  - destruct Hl as (-> & Hpy & Hl). rewrite not_elem_of_cons in Hx, Hz, Hb. apply list.NoDup_cons in Hnd as [Hy Hnd].
    rewrite (fn_set_ne y b) by naive_solver. rewrite fn_set_eq.
    rewrite (fn_set_ne x b) by done. rewrite !fn_set_eq. split_and!; [done..|].
    apply (linked_ext nx pv); [| |done].
    + intros i Hi. rewrite !fn_set_ne by naive_solver. done.
    + intros i Hi. rewrite !fn_set_ne by naive_solver. done.
Qed.
End linked.
