(* ===== verification/Memory.v ===== *)
(** Byte-addressed memory as the kernel sees it: a total map from kernel
    virtual addresses to bytes, with the little-endian word accesses of the
    x86 and the string instructions of x86.h ([stosb], [stosl]). *)

From S2P Require Import Prelude.

Abbreviation memory := (Z -> Z) (only parsing).

Definition mem_ok (m : memory) : Prop := forall a, 0 <= m a < 256.

(** [*(uchar* )a = v] *)
Definition store8 (a v : Z) (m : memory) : memory :=
  fun x => if x =? a then u8 v else m x.

(** [*(ushort* )a] and [*(uint* )a] *)
Definition load16 (m : memory) (a : Z) : Z := m a + 2 ^ 8 * m (a + 1).
Definition load32 (m : memory) (a : Z) : Z :=
  m a + 2 ^ 8 * m (a + 1) + 2 ^ 16 * m (a + 2) + 2 ^ 24 * m (a + 3).

Definition store16 (a v : Z) (m : memory) : memory :=
  store8 (a + 1) (v / 2 ^ 8) (store8 a v m).
Definition store32 (a v : Z) (m : memory) : memory :=
  store8 (a + 3) (v / 2 ^ 24)
    (store8 (a + 2) (v / 2 ^ 16) (store8 (a + 1) (v / 2 ^ 8) (store8 a v m))).

(** [rep stosb]: [cnt] bytes at [addr] set to the low byte of [data]. *)
Definition stosb (addr data cnt : Z) (m : memory) : memory :=
  fun x => if (addr <=? x) && (x <? addr + cnt) then u8 data else m x.

(** [rep stosl]: [cnt] words at [addr] set to [data]. *)
Definition stosl (addr data cnt : Z) (m : memory) : memory :=
  fun x => if (addr <=? x) && (x <? addr + 4 * cnt)
           then u8 (data / 2 ^ (8 * ((x - addr) mod 4))) else m x.

(** Copying [n] bytes between ranges that are read before they are written. *)
Definition copy_bytes (dst src n : Z) (m : memory) : memory :=
  fun x => if (dst <=? x) && (x <? dst + n) then m (src + (x - dst)) else m x.

Lemma store8_eq a v m : store8 a v m a = u8 v.
Proof. unfold store8. by rewrite Z.eqb_refl. Qed.

Lemma store8_ne a v m x : x <> a -> store8 a v m x = m x.
Proof. intros. unfold store8. by destruct (Z.eqb_spec x a). Qed.

Lemma store8_ok a v m : mem_ok m -> mem_ok (store8 a v m).
Proof. intros H x. unfold store8. case_bool; [apply u8_range | apply H]. Qed.

Lemma store32_ok a v m : mem_ok m -> mem_ok (store32 a v m).
Proof. intros. unfold store32. by repeat apply store8_ok. Qed.

Lemma store16_ok a v m : mem_ok m -> mem_ok (store16 a v m).
Proof. intros. unfold store16. by repeat apply store8_ok. Qed.

Lemma stosl_ok a v n m : mem_ok m -> mem_ok (stosl a v n m).
Proof. intros H x. unfold stosl. case_match; [apply u8_range | apply H]. Qed.

Lemma stosb_ok a v n m : mem_ok m -> mem_ok (stosb a v n m).
Proof. intros H x. unfold stosb. case_match; [apply u8_range | apply H]. Qed.

Lemma copy_bytes_ok d s n m : mem_ok m -> mem_ok (copy_bytes d s n m).
Proof. intros H x. unfold copy_bytes. case_match; apply H. Qed.

#[export] Hint Resolve store8_ok store32_ok stosb_ok copy_bytes_ok : xv6.

(** A word store only touches its four bytes. *)
Lemma store32_other a v m x : x < a \/ a + 4 <= x -> store32 a v m x = m x.
Proof. intros. unfold store32. rewrite !store8_ne by lia. done. Qed.

Lemma load32_ext m1 m2 a :
  (forall x, a <= x < a + 4 -> m1 x = m2 x) -> load32 m1 a = load32 m2 a.
Proof. intros H. unfold load32. rewrite !H by lia. done. Qed.

(** Storing a word and loading it back gives its low 32 bits. *)
Lemma load32_store32 a v m : load32 (store32 a v m) a = u32 v.
Proof.
  unfold load32, store32.
  repeat first [rewrite store8_eq | rewrite store8_ne by lia].
  unfold u8, u32. Z.div_mod_to_equations. lia.
Qed.

Lemma load32_store32_ne a b v m :
  b + 4 <= a \/ a + 4 <= b -> load32 (store32 a v m) b = load32 m b.
Proof. intros. apply load32_ext. intros. apply store32_other. lia. Qed.

Lemma load32_range m a : mem_ok m -> 0 <= load32 m a < 2 ^ 32.
Proof.
  intros H. unfold load32.
  pose proof (H a). pose proof (H (a + 1)). pose proof (H (a + 2)). pose proof (H (a + 3)). lia.
Qed.

Lemma stosb_in a v n m x : a <= x < a + n -> stosb a v n m x = u8 v.
Proof. intros. unfold stosb. destruct (Z.leb_spec a x), (Z.ltb_spec x (a + n)); simpl; lia. Qed.

Lemma stosb_out a v n m x : x < a \/ a + n <= x -> stosb a v n m x = m x.
Proof. intros. unfold stosb. destruct (Z.leb_spec a x), (Z.ltb_spec x (a + n)); simpl; lia || done. Qed.

Lemma copy_bytes_in d s n m x : d <= x < d + n -> copy_bytes d s n m x = m (s + (x - d)).
Proof. intros. unfold copy_bytes. destruct (Z.leb_spec d x), (Z.ltb_spec x (d + n)); simpl; lia || done. Qed.

Lemma copy_bytes_out d s n m x : x < d \/ d + n <= x -> copy_bytes d s n m x = m x.
Proof. intros. unfold copy_bytes. destruct (Z.leb_spec d x), (Z.ltb_spec x (d + n)); simpl; lia || done. Qed.

Lemma load32_zeroed a b n m : a <= b -> b + 4 <= a + n -> load32 (stosb a 0 n m) b = 0.
Proof. intros. unfold load32. rewrite !stosb_in by lia. done. Qed.

Lemma load32_stosb_ne a b v n m :
  b + 4 <= a \/ a + n <= b -> load32 (stosb a v n m) b = load32 m b.
Proof. intros. apply load32_ext. intros. apply stosb_out. lia. Qed.
