(* ===== verification/KString.v ===== *)
(** string.c: the memory and string routines of the kernel, over memory.
    Loops that count an [n] down recur on [n]; [strlen], whose loop is bounded
    by the string alone, carries fuel. *)

From S2P Require Import Prelude Memory.

Definition memset (dst c n : Z) (m : memory) : memory :=
  if (dst mod 4 =? 0) && (n mod 4 =? 0) then
    let c := Z.land c 0xFF in
    stosl dst (Z.lor (Z.lor (Z.lor (Z.shiftl c 24) (Z.shiftl c 16)) (Z.shiftl c 8)) c) (n / 4) m
  else stosb dst c n m.

Fixpoint memcmp (v1 v2 : Z) (n : nat) (m : memory) : Z :=
  match n with
  | O => 0
  | S n => if negb (m v1 =? m v2) then m v1 - m v2 else memcmp (v1 + 1) (v2 + 1) n m
  end.

(** [while(n-- > 0) *d++ = *s++;] and [while(n-- > 0) *--d = *--s;] *)
Fixpoint move_up (d s : Z) (n : nat) (m : memory) : memory :=
  match n with
  | O => m
  | S n => move_up (d + 1) (s + 1) n (store8 d (m s) m)
  end.

Fixpoint move_down (d s : Z) (n : nat) (m : memory) : memory :=
  match n with
  | O => m
  | S n => move_down (d - 1) (s - 1) n (store8 (d - 1) (m (s - 1)) m)
  end.

Definition memmove (dst src n : Z) (m : memory) : memory :=
  if (src <? dst) && (dst <? src + n)
  then move_down (dst + n) (src + n) (Z.to_nat n) m
  else move_up dst src (Z.to_nat n) m.

Definition memcpy (dst src n : Z) (m : memory) : memory := memmove dst src n m.

Fixpoint strncmp (p q : Z) (n : nat) (m : memory) : Z :=
  match n with
  | O => 0
  | S n' => if truthy (m p) && (m p =? m q) then strncmp (p + 1) (q + 1) n' m
            else m p - m q
  end.

Fixpoint zero_fill (s : Z) (n : nat) (m : memory) : memory :=
  match n with
  | O => m
  | S n => zero_fill (s + 1) n (store8 s 0 m)
  end.

Fixpoint strncpy_loop (s t : Z) (n : nat) (m : memory) : memory :=
  match n with
  | O => m
  | S n => let b := m t in
           let m := store8 s b m in
           if truthy b then strncpy_loop (s + 1) (t + 1) n m else zero_fill (s + 1) n m
  end.

Definition strncpy (s t n : Z) (m : memory) : memory := strncpy_loop s t (Z.to_nat n) m.

(** The loop of [safestrcpy] gives back where it stopped writing. *)
Fixpoint safestrcpy_loop (s t : Z) (n : nat) (m : memory) : Z * memory :=
  match n with
  | O => (s, m)
  | S n => let b := m t in
           let m := store8 s b m in
           if truthy b then safestrcpy_loop (s + 1) (t + 1) n m else (s + 1, m)
  end.

Definition safestrcpy (s t n : Z) (m : memory) : memory :=
  if n <=? 0 then m
  else let '(s, m) := safestrcpy_loop s t (Z.to_nat (n - 1)) m in store8 s 0 m.

Fixpoint strlen (fuel : nat) (s : Z) (m : memory) : option Z :=
  match fuel with
  | O => None
  | S fuel => if truthy (m s) then (fun n => n + 1) <$> strlen fuel (s + 1) m else Some 0
  end.

(** The routines on two strings that are not in kernel memory (a path of the
    process, an array inside a struct): the strings are laid out in a memory of
    their own, the first at 0 and the second at [SBASE]. *)
Definition SBASE : Z := 2 ^ 16.
Definition strings_mem (s t : list Z) : memory := fun x =>
  if x <? 0 then 0
  else if x <? SBASE then nth (Z.to_nat x) s 0
  else nth (Z.to_nat (x - SBASE)) t 0.
Definition read_mem (m : memory) (a : Z) (n : nat) : list Z :=
  (fun i => m (a + Z.of_nat i)) <$> seq 0 n.

Definition strncmp_l (s t : list Z) (n : nat) : Z := strncmp 0 SBASE n (strings_mem s t).
Definition strncpy_l (dst src : list Z) (n : Z) : list Z :=
  read_mem (strncpy 0 SBASE n (strings_mem dst src)) 0 (length dst).
Definition safestrcpy_l (dst src : list Z) (n : Z) : list Z :=
  read_mem (safestrcpy 0 SBASE n (strings_mem dst src)) 0 (length dst).

(** ** memset *)

Lemma memset_byte c i :
  0 <= i < 4 -> 0 <= c < 256 ->
  u8 (Z.lor (Z.lor (Z.lor (Z.shiftl c 24) (Z.shiftl c 16)) (Z.shiftl c 8)) c / 2 ^ (8 * i)) = c.
Proof.
  intros Hi Hc. unfold u8. rewrite <- Z.shiftr_div_pow2 by lia.
  apply Z.bits_inj'. intros j Hj.
  rewrite <- Z.land_ones by lia. rewrite Z.land_spec, Z.testbit_ones_nonneg by lia.
  rewrite Z.shiftr_spec by lia. rewrite !Z.lor_spec.
  assert (forall j, 8 <= j -> Z.testbit c j = false) as Hhi.
  { intros j' Hj'. destruct (Z.eq_dec c 0) as [->|]; [apply Z.bits_0|].
    apply Z.bits_above_log2; [lia|]. apply Z.lt_le_trans with 8; [|done].
    apply Z.log2_lt_pow2; lia. }
  rewrite !Z.shiftl_spec by lia.
  destruct (Z.ltb_spec j 8).
  - rewrite andb_true_r.
    assert (i = 0 \/ i = 1 \/ i = 2 \/ i = 3) as [->|[->|[->| ->]]] by lia.
    + rewrite !(Z.testbit_neg_r c (_ - _)) by lia. simpl. f_equal. lia.
    + rewrite (Z.testbit_neg_r c (_ - 24)), (Z.testbit_neg_r c (_ - 16)) by lia.
      rewrite (Hhi (j + 8 * 1)) by lia. simpl. rewrite orb_false_r. f_equal. lia.
    + rewrite (Z.testbit_neg_r c (_ - 24)) by lia.
      rewrite (Hhi (j + 8 * 2)), (Hhi (j + 8 * 2 - 8)) by lia. simpl. rewrite !orb_false_r. f_equal. lia.
    + rewrite (Hhi (j + 8 * 3)), (Hhi (j + 8 * 3 - 8)), (Hhi (j + 8 * 3 - 16)) by lia.
      rewrite !orb_false_r. f_equal. lia.
  - rewrite andb_false_r. symmetry. apply Hhi. lia.
Qed.

(** Both ways of filling store the low byte of [c] in every byte. *)
Lemma memset_eq dst c n m : 0 <= n -> forall x, memset dst c n m x = stosb dst c n m x.
Proof.
  intros Hn x. unfold memset.
  destruct (Z.eqb_spec (dst mod 4) 0) as [Hd|]; [|done].
  destruct (Z.eqb_spec (n mod 4) 0) as [Hn4|]; [|done]. simpl.
  unfold stosl, stosb. replace (4 * (n / 4)) with n by (pose proof (Z.div_mod n 4); lia).
  destruct ((dst <=? x) && (x <? dst + n)); [|done].
  rewrite memset_byte.
  - unfold u8. change 255 with (Z.ones 8). by rewrite Z.land_ones by lia.
  - apply Z.mod_pos_bound. lia.
  - change 255 with (Z.ones 8). rewrite Z.land_ones by lia. apply (Z.mod_pos_bound c 256). lia.
Qed.

(** ** memmove *)

Lemma move_up_eq n d s m :
  mem_ok m -> (d <= s \/ s + Z.of_nat n <= d) ->
  forall x, move_up d s n m x = copy_bytes d s (Z.of_nat n) m x.
Proof.
  revert d s m. induction n as [|n IH]; intros d s m Hm Hov x.
  { rewrite copy_bytes_out; [done | lia]. }
  simpl move_up. rewrite IH; [|auto with xv6|lia].
  destruct (Z.lt_ge_cases x (d + 1)), (Z.lt_ge_cases x (d + 1 + Z.of_nat n)).
  - rewrite copy_bytes_out by lia. destruct (Z.eq_dec x d) as [->|].
    + rewrite store8_eq, copy_bytes_in by lia. rewrite u8_small by apply Hm. f_equal. lia.
    + rewrite store8_ne, copy_bytes_out by lia. done.
  - lia.
  - rewrite !copy_bytes_in by lia. rewrite store8_ne by lia. f_equal. lia.
  - rewrite !copy_bytes_out by lia. rewrite store8_ne by lia. done.
Qed.

Lemma move_down_eq n d s m :
  mem_ok m -> s <= d ->
  forall x, move_down d s n m x = copy_bytes (d - Z.of_nat n) (s - Z.of_nat n) (Z.of_nat n) m x.
Proof.
  revert d s m. induction n as [|n IH]; intros d s m Hm Hov x.
  { rewrite copy_bytes_out; [done | lia]. }
  simpl move_down. rewrite IH; [|auto with xv6|lia].
  destruct (Z.eq_dec x (d - 1)) as [->|Hne].
  - rewrite copy_bytes_out by lia. rewrite store8_eq, copy_bytes_in by lia.
    rewrite u8_small by apply Hm. f_equal. lia.
  - destruct (Z.lt_ge_cases x (d - Z.of_nat (S n))), (Z.lt_ge_cases x d).
    + rewrite !copy_bytes_out by lia. by rewrite store8_ne.
    + lia.
    + rewrite !copy_bytes_in by lia. rewrite store8_ne by lia. f_equal. lia.
    + rewrite !copy_bytes_out by lia. by rewrite store8_ne.
Qed.

Lemma memmove_eq dst src n m :
  mem_ok m -> 0 <= n -> forall x, memmove dst src n m x = copy_bytes dst src n m x.
Proof.
  intros Hm Hn x. unfold memmove.
  destruct (Z.ltb_spec src dst), (Z.ltb_spec dst (src + n)); simpl;
    rewrite ?move_down_eq, ?move_up_eq by (done || lia); rewrite ?Z2Nat.id by done;
    rewrite ?Z.add_simpl_r; done.
Qed.

Lemma memset_ok a v n m : mem_ok m -> mem_ok (memset a v n m).
Proof. intros H. unfold memset. case_match; [by apply stosl_ok | by apply stosb_ok]. Qed.

Lemma memmove_ok d s n m : 0 <= n -> mem_ok m -> mem_ok (memmove d s n m).
Proof. intros Hn Hm x. rewrite memmove_eq by done. by apply copy_bytes_ok. Qed.

(** ** Strings

    [cstr m t len]: a string of [len] bytes lies at [t], with its nul. *)

Definition cstr (m : memory) (t len : Z) : Prop :=
  0 <= len /\ (forall i, 0 <= i < len -> m (t + i) <> 0) /\ m (t + len) = 0.

Lemma cstr_tail m t len : cstr m t len -> 0 < len -> cstr m (t + 1) (len - 1).
Proof.
  intros (Hl & Hnz & Hz) Hpos. split_and!; [lia| |].
  - intros i Hi. rewrite <- Z.add_assoc. apply Hnz. lia.
  - rewrite <- Hz. f_equal. lia.
Qed.

Lemma cstr_frame m m' t len :
  (forall x, t <= x <= t + len -> m' x = m x) -> cstr m t len -> cstr m' t len.
Proof.
  intros Heq (Hl & Hnz & Hz). split_and!; [done| |].
  - intros i Hi. rewrite Heq by lia. by apply Hnz.
  - by rewrite Heq by lia.
Qed.

Lemma strlen_eq fuel s m len :
  cstr m s len -> len < Z.of_nat fuel -> strlen fuel s m = Some len.
Proof.
  revert s len. induction fuel as [|fuel IH]; intros s len Hs Hf.
  { destruct Hs. lia. }
  pose proof Hs as (Hl & Hnz & Hz). simpl. destruct (Z.eq_dec len 0) as [->|].
  - rewrite Z.add_0_r in Hz. by rewrite Hz.
  - assert (truthy (m s) = true) as ->.
    { apply truthy_spec. specialize (Hnz 0). rewrite Z.add_0_r in Hnz. apply Hnz. lia. }
    rewrite (IH (s + 1) (len - 1)); [simpl; f_equal; lia | apply cstr_tail; [done | lia] | lia].
Qed.

Lemma zero_fill_eq n s m x : zero_fill s n m x = stosb s 0 (Z.of_nat n) m x.
Proof.
  revert s m. induction n as [|n IH]; intros s m; simpl zero_fill.
  { rewrite stosb_out; [done | lia]. }
  rewrite IH. destruct (Z.lt_ge_cases x s), (Z.lt_ge_cases x (s + Z.of_nat (S n))).
  - rewrite !stosb_out by lia. by rewrite store8_ne by lia.
  - lia.
  - destruct (Z.eq_dec x s) as [->|].
    + rewrite stosb_out, stosb_in by lia. by rewrite store8_eq.
    + by rewrite !stosb_in by lia.
  - rewrite !stosb_out by lia. by rewrite store8_ne by lia.
Qed.

(** [strncpy] writes the string cut at [n] and fills up with nuls. *)
Lemma strncpy_loop_eq n s t m len :
  mem_ok m -> cstr m t len -> (t + len < s \/ s + Z.of_nat n <= t) ->
  forall x, strncpy_loop s t n m x =
    if (s <=? x) && (x <? s + Z.of_nat n)
    then (if x - s <? len then m (t + (x - s)) else 0) else m x.
Proof.
  revert s t m len. induction n as [|n IH]; intros s t m len Hm Hs Hov x.
  { destruct (Z.leb_spec s x), (Z.ltb_spec x (s + Z.of_nat 0)); simpl; done || lia. }
  pose proof Hs as (Hl & Hnz & Hz). simpl strncpy_loop.
  destruct (truthy (m t)) eqn:Et.
  - assert (len <> 0) as Hlen.
    { intros ->. rewrite Z.add_0_r in Hz. by rewrite Hz in Et. }
    rewrite (IH _ _ _ (len - 1)); [|auto with xv6| |lia].
    2:{ apply (cstr_frame m); [|apply cstr_tail; [done | lia]].
        intros y Hy. apply store8_ne. lia. }
    destruct (Z.leb_spec (s + 1) x), (Z.ltb_spec x (s + 1 + Z.of_nat n)); simpl.
    + destruct (Z.leb_spec s x), (Z.ltb_spec x (s + Z.of_nat (S n))); try lia. simpl.
      destruct (Z.ltb_spec (x - (s + 1)) (len - 1)), (Z.ltb_spec (x - s) len); try lia.
      rewrite store8_ne by lia. f_equal. lia.
    + destruct (Z.leb_spec s x), (Z.ltb_spec x (s + Z.of_nat (S n))); try lia; simpl;
        by rewrite store8_ne by lia.
    + destruct (Z.eq_dec x s) as [->|].
      * rewrite store8_eq, u8_small by apply Hm.
        destruct (Z.leb_spec s s), (Z.ltb_spec s (s + Z.of_nat (S n))); try lia. simpl.
        destruct (Z.ltb_spec (s - s) len); [|lia]. f_equal. lia.
      * destruct (Z.leb_spec s x); [lia|]. by rewrite store8_ne.
    + destruct (Z.leb_spec s x), (Z.ltb_spec x (s + Z.of_nat (S n))); lia.
  - apply negb_false_iff, Z.eqb_eq in Et.
    assert (len = 0) as ->.
    { destruct (Z.eq_dec len 0); [done|]. specialize (Hnz 0 ltac:(lia)).
      rewrite Z.add_0_r in Hnz. done. }
    rewrite zero_fill_eq, Et. unfold stosb, store8.
    destruct (Z.leb_spec s x), (Z.ltb_spec x (s + Z.of_nat (S n)));
    destruct (Z.leb_spec (s + 1) x), (Z.ltb_spec x (s + 1 + Z.of_nat n));
    destruct (Z.eqb_spec x s); destruct (Z.ltb_spec (x - s) 0); simpl; try lia; done.
Qed.

Lemma safestrcpy_loop_eq n s t m len s' m' :
  mem_ok m -> cstr m t len -> (t + len < s \/ s + Z.of_nat n <= t) ->
  safestrcpy_loop s t n m = (s', m') ->
  let len' := Z.min len (Z.of_nat n) in
  s + len' <= s' <= s + Z.of_nat n /\ (s' = s + len' \/ (s' = s + len' + 1 /\ len < Z.of_nat n)) /\
  (forall i, 0 <= i < len' -> m' (s + i) = m (t + i)) /\
  (len < Z.of_nat n -> m' (s + len) = 0) /\
  (forall x, x < s \/ s + Z.of_nat n <= x -> m' x = m x).
Proof.
  revert s t m len s' m'. induction n as [|n IH]; intros s t m len s' m' Hm Hs Hov Hrun len'.
  { simpl in Hrun. destruct Hs. simplify_eq. unfold len'. split_and!; lia || done. }
  pose proof Hs as (Hl & Hnz & Hz). simpl in Hrun.
  destruct (truthy (m t)) eqn:Et.
  - assert (len <> 0) as Hlen.
    { intros ->. rewrite Z.add_0_r in Hz. by rewrite Hz in Et. }
    edestruct (IH (s + 1) (t + 1) (store8 s (m t) m) (len - 1)) as (Hr & Hcase & Hcopy & Hnul & Hfr);
      [auto with xv6 | | lia | exact Hrun |].
    { apply (cstr_frame m); [|apply cstr_tail; [done | lia]].
      intros y Hy. apply store8_ne. lia. }
    unfold len'. split_and!; try lia.
    + intros i Hi. destruct (Z.eq_dec i 0) as [->|].
      * rewrite !Z.add_0_r, Hfr, store8_eq by lia. apply u8_small, Hm.
      * replace (s + i) with (s + 1 + (i - 1)) by lia. rewrite Hcopy by lia.
        rewrite store8_ne by lia. f_equal. lia.
    + intros Hlt. replace (s + len) with (s + 1 + (len - 1)) by lia. apply Hnul. lia.
    + intros x Hx. rewrite Hfr by lia. apply store8_ne. lia.
  - apply negb_false_iff, Z.eqb_eq in Et.
    assert (len = 0) as ->.
    { destruct (Z.eq_dec len 0); [done|]. specialize (Hnz 0 ltac:(lia)).
      rewrite Z.add_0_r in Hnz. done. }
    simplify_eq. unfold len'. split_and!; try lia.
    + intros _. by rewrite Z.add_0_r, store8_eq, Et.
    + intros x Hx. apply store8_ne. lia.
Qed.

(** [safestrcpy] copies as much as fits and always leaves a terminated string. *)
Lemma safestrcpy_eq s t n m len :
  mem_ok m -> 0 < n -> cstr m t len -> (t + len < s \/ s + n <= t) ->
  let len' := Z.min len (n - 1) in
  let m' := safestrcpy s t n m in
  cstr m' s len' /\ (forall i, 0 <= i < len' -> m' (s + i) = m (t + i)) /\
  (forall x, x < s \/ s + n <= x -> m' x = m x).
Proof.
  intros Hm Hn Hs Hov len' m'. unfold m', safestrcpy.
  rewrite (proj2 (Z.leb_gt _ _)) by lia.
  destruct (safestrcpy_loop s t (Z.to_nat (n - 1)) m) as [s1 m1] eqn:Hrun.
  pose proof Hs as (Hl & Hnz & Hz).
  apply (safestrcpy_loop_eq _ _ _ _ len) in Hrun as (Hr & Hcase & Hcopy & Hnul & Hfr); try done; [|lia].
  rewrite Z2Nat.id in * by lia. fold len' in Hr, Hcase, Hcopy.
  assert (forall i, 0 <= i < len' -> store8 s1 0 m1 (s + i) = m (t + i)) as Hc.
  { intros i Hi. rewrite store8_ne by lia. by apply Hcopy. }
  split_and!; [split_and!|done|].
  - lia.
  - intros i Hi. rewrite Hc by lia. apply Hnz. lia.
  - destruct Hcase as [->|[-> Hlt]]; [by rewrite store8_eq|].
    rewrite store8_ne by lia. replace len' with len by lia. by apply Hnul.
  - intros x Hx. rewrite store8_ne by lia. apply Hfr. lia.
Qed.

(** [strncmp] is zero exactly when the strings agree on their first [n] bytes,
    up to the end of the first. *)
Lemma strncmp_zero n p q m :
  strncmp p q n m = 0 <->
  (forall i, 0 <= i < Z.of_nat n -> (forall j, 0 <= j < i -> m (p + j) <> 0) -> m (p + i) = m (q + i)).
Proof.
  revert p q. induction n as [|n IH]; intros p q; simpl strncmp; [split; [lia | done]|].
  destruct (truthy (m p)) eqn:Et; simpl.
  - apply truthy_spec in Et. destruct (Z.eqb_spec (m p) (m q)) as [E|E].
    + rewrite IH. split; intros H.
      * intros i Hi Hpre. destruct (Z.eq_dec i 0) as [->|]; [by rewrite !Z.add_0_r|].
        replace (p + i) with (p + 1 + (i - 1)) by lia. replace (q + i) with (q + 1 + (i - 1)) by lia.
        apply H; [lia|]. intros j Hj. rewrite <- Z.add_assoc. apply Hpre. lia.
      * intros i Hi Hpre. rewrite <- !Z.add_assoc. apply H; [lia|]. intros j Hj.
        destruct (Z.eq_dec j 0) as [->|]; [by rewrite Z.add_0_r|].
        replace (p + j) with (p + 1 + (j - 1)) by lia. apply Hpre. lia.
    + split; [lia|]. intros H. specialize (H 0 ltac:(lia) ltac:(lia)). rewrite !Z.add_0_r in H. lia.
  - apply negb_false_iff, Z.eqb_eq in Et. split.
    + intros H i Hi Hpre. destruct (Z.eq_dec i 0) as [->|]; [rewrite !Z.add_0_r; lia|].
      exfalso. apply (Hpre 0); [lia|]. by rewrite Z.add_0_r.
    + intros H. specialize (H 0 ltac:(lia) ltac:(lia)). rewrite !Z.add_0_r in H. lia.
Qed.

(** ** The properties *)

(** [memmove] copies [n] bytes as they were before the call, whether or not
    the two ranges overlap, and writes nothing else. *)
Theorem memmove_overlap dst src n m :
  mem_ok m -> 0 <= n ->
  (forall i, 0 <= i < n -> memmove dst src n m (dst + i) = m (src + i)) /\
  (forall x, x < dst \/ dst + n <= x -> memmove dst src n m x = m x).
Proof.
  intros Hm Hn. split.
  - intros i Hi. rewrite memmove_eq, copy_bytes_in by (done || lia). f_equal. lia.
  - intros x Hx. rewrite memmove_eq by done. by apply copy_bytes_out.
Qed.

Lemma memmove_overlap_witness :
  (forall i, 0 <= i < 8 -> memmove 2 0 8 (fun x => x mod 256) (2 + i) = (0 + i) mod 256) /\
  (forall x, x < 2 \/ 2 + 8 <= x -> memmove 2 0 8 (fun x => x mod 256) x = x mod 256).
Proof. apply (memmove_overlap 2 0 8 (fun x => x mod 256)); [intros x; apply Z.mod_pos_bound; lia | lia]. Defined.

(** [safestrcpy] copies as much of the string as fits in [n] bytes with a nul
    and always leaves a terminated string, and it writes nothing outside the
    [n] bytes. *)
Theorem safestrcpy_terminated s t n m len :
  mem_ok m -> 0 < n -> cstr m t len -> (t + len < s \/ s + n <= t) ->
  cstr (safestrcpy s t n m) s (Z.min len (n - 1)) /\
  (forall i, 0 <= i < Z.min len (n - 1) -> safestrcpy s t n m (s + i) = m (t + i)) /\
  (forall x, x < s \/ s + n <= x -> safestrcpy s t n m x = m x).
Proof. apply safestrcpy_eq. Qed.

Lemma strings_mem_ok s t :
  Forall (fun b => 0 <= b < 256) s -> Forall (fun b => 0 <= b < 256) t -> mem_ok (strings_mem s t).
Proof.
  assert (forall l n, Forall (fun b => 0 <= b < 256) l -> 0 <= nth n l 0 < 256) as Hnth.
  { intros l n Hl. revert n. induction Hl as [|b l Hb Hl IH]; intros [|n]; simpl; try lia; auto. }
  intros Hs Ht x. unfold strings_mem. destruct (x <? 0); [lia|]. destruct (x <? SBASE); auto.
Qed.

Lemma strings_mem_cstr s t :
  Forall (fun b => b <> 0) t -> cstr (strings_mem s t) SBASE (Z.of_nat (length t)).
Proof.
  intros Ht. assert (forall i, 0 <= i -> strings_mem s t (SBASE + i) = nth (Z.to_nat i) t 0) as Hm.
  { intros i Hi. unfold strings_mem. unfold SBASE.
    destruct (Z.ltb_spec (2 ^ 16 + i) 0), (Z.ltb_spec (2 ^ 16 + i) (2 ^ 16)); try lia.
    f_equal. lia. }
  split_and!; [lia | |].
  - intros i Hi. rewrite Hm by lia.
    apply (proj1 (List.Forall_forall _ _) Ht), nth_In. lia.
  - rewrite Hm by lia. apply nth_overflow. lia.
Qed.

Lemma safestrcpy_terminated_witness :
  let m := strings_mem [] (chars "a_long_program_name") in
  cstr (safestrcpy 0 SBASE 16 m) 0 15 /\ safestrcpy 0 SBASE 16 m (0 + 14) = 95.
Proof.
  intros m.
  destruct (safestrcpy_terminated 0 SBASE 16 m 19) as (Hc & Hi & _).
  - apply strings_mem_ok; [constructor|]. repeat (apply list.Forall_cons; split; [by vm_compute|]). constructor.
  - lia.
  - apply strings_mem_cstr. repeat (apply list.Forall_cons; split; [by vm_compute|]). constructor.
  - unfold SBASE. lia.
  - split; [exact Hc|]. rewrite Hi by lia. reflexivity.
Defined.
