(* ===== verification/Kernel.v ===== *)
(** The kernel's data: the constants of param.h, memlayout.h and mmu.h, the
    structs of mmu.h, proc.h, spinlock.h, sleeplock.h, buf.h, fs.h, file.h,
    log.c, pipe.c and console.c, the global variables of the kernel as one
    record, and the monad its code runs in. *)

From S2P Require Import Prelude Memory.

(** ** param.h, memlayout.h, mmu.h *)

Definition NPROC : nat := 64.
Definition KSTACKSIZE : Z := 4096.
Definition NCPU : nat := 8.
Definition NOFILE : nat := 16.
Definition NFILE : nat := 100.
Definition NINODE : nat := 50.
Definition NDEV : nat := 10.
Definition ROOTDEV : Z := 1.
Definition MAXARG : Z := 32.
Definition MAXOPBLOCKS : Z := 10.
Definition LOGSIZE : Z := MAXOPBLOCKS * 3.
Definition NBUF : nat := 30.
Definition FSSIZE : Z := 1000.
Definition INTERV : Z := 5.

Definition EXTMEM : Z := 0x100000.
Definition PHYSTOP : Z := 0xE000000.
Definition DEVSPACE : Z := 0xFE000000.
Definition KERNBASE : Z := 0x80000000.
Definition KERNLINK : Z := KERNBASE + EXTMEM.
Definition V2P (a : Z) : Z := u32 (a - KERNBASE).
Definition P2V (a : Z) : Z := u32 (a + KERNBASE).

Definition PGSIZE : Z := 4096.
Definition PGROUNDUP (sz : Z) : Z := Z.land (u32 (sz + PGSIZE - 1)) (Z.lnot (PGSIZE - 1)).
Definition PGROUNDDOWN (a : Z) : Z := Z.land a (Z.lnot (PGSIZE - 1)).

(** ** Names of locks and sleep channels

    A lock or a channel is an address in the code; here it is the name of the
    object at that address. *)

Inductive slid := SLinode (i : nat) | SLbuf (i : nat).

Inductive lockid :=
| L_ptable | L_ticks | L_kmem | L_ftable | L_icache | L_bcache | L_log | L_cons | L_ide
| L_pipe (a : Z)
| L_sleep (s : slid).

Inductive chan :=
| CNull
| CProc (i : nat)
| CTicks
| CLog
| CInput
| CBuf (i : nat)
| CSleeplock (s : slid)
| CPipeRead (a : Z)
| CPipeWrite (a : Z).

#[export] Instance slid_eq_dec : EqDecision slid.
Proof. solve_decision. Defined.
#[export] Instance lockid_eq_dec : EqDecision lockid.
Proof. solve_decision. Defined.
#[export] Instance chan_eq_dec : EqDecision chan.
Proof. solve_decision. Defined.

(** ** spinlock.h and sleeplock.h

    [pcs], the call stack recorded for debugging, is not kept. *)

Record spinlock := Spinlock {
  lk_locked : Z;
  lk_name : string;
  lk_cpu : option nat;
}.

Record sleeplock := Sleeplock {
  sl_locked : Z;
  sl_name : string;
  sl_pid : Z;
}.

(** ** proc.h *)

Inductive procstate := UNUSED | EMBRYO | SLEEPING | RUNNABLE | RUNNING | ZOMBIE.

#[export] Instance procstate_eq_dec : EqDecision procstate.
Proof. solve_decision. Defined.

(** ** mmu.h: segment and gate descriptors, by their bit fields *)

Record segdesc := Segdesc {
  lim_15_0 : Z;
  base_15_0 : Z;
  base_23_16 : Z;
  sd_type : Z;
  sd_s : Z;
  sd_dpl : Z;
  sd_p : Z;
  lim_19_16 : Z;
  avl : Z;
  rsv1 : Z;
  db : Z;
  g : Z;
  base_31_24 : Z;
}.

Definition upd_lim_15_0 (h : Z -> Z) (r : segdesc) : segdesc :=
  Segdesc (h (r.(lim_15_0))) r.(base_15_0) r.(base_23_16) r.(sd_type) r.(sd_s)
    r.(sd_dpl) r.(sd_p) r.(lim_19_16) r.(avl) r.(rsv1) r.(db) r.(g) r.(base_31_24).
Definition upd_base_15_0 (h : Z -> Z) (r : segdesc) : segdesc :=
  Segdesc r.(lim_15_0) (h (r.(base_15_0))) r.(base_23_16) r.(sd_type) r.(sd_s)
    r.(sd_dpl) r.(sd_p) r.(lim_19_16) r.(avl) r.(rsv1) r.(db) r.(g) r.(base_31_24).
Definition upd_base_23_16 (h : Z -> Z) (r : segdesc) : segdesc :=
  Segdesc r.(lim_15_0) r.(base_15_0) (h (r.(base_23_16))) r.(sd_type) r.(sd_s)
    r.(sd_dpl) r.(sd_p) r.(lim_19_16) r.(avl) r.(rsv1) r.(db) r.(g) r.(base_31_24).
Definition upd_sd_type (h : Z -> Z) (r : segdesc) : segdesc :=
  Segdesc r.(lim_15_0) r.(base_15_0) r.(base_23_16) (h (r.(sd_type))) r.(sd_s)
    r.(sd_dpl) r.(sd_p) r.(lim_19_16) r.(avl) r.(rsv1) r.(db) r.(g) r.(base_31_24).
Definition upd_sd_s (h : Z -> Z) (r : segdesc) : segdesc :=
  Segdesc r.(lim_15_0) r.(base_15_0) r.(base_23_16) r.(sd_type) (h (r.(sd_s)))
    r.(sd_dpl) r.(sd_p) r.(lim_19_16) r.(avl) r.(rsv1) r.(db) r.(g) r.(base_31_24).
Definition upd_sd_dpl (h : Z -> Z) (r : segdesc) : segdesc :=
  Segdesc r.(lim_15_0) r.(base_15_0) r.(base_23_16) r.(sd_type) r.(sd_s)
    (h (r.(sd_dpl))) r.(sd_p) r.(lim_19_16) r.(avl) r.(rsv1) r.(db) r.(g)
    r.(base_31_24).
Definition upd_sd_p (h : Z -> Z) (r : segdesc) : segdesc :=
  Segdesc r.(lim_15_0) r.(base_15_0) r.(base_23_16) r.(sd_type) r.(sd_s) r.(sd_dpl)
    (h (r.(sd_p))) r.(lim_19_16) r.(avl) r.(rsv1) r.(db) r.(g) r.(base_31_24).
Definition upd_lim_19_16 (h : Z -> Z) (r : segdesc) : segdesc :=
  Segdesc r.(lim_15_0) r.(base_15_0) r.(base_23_16) r.(sd_type) r.(sd_s) r.(sd_dpl)
    r.(sd_p) (h (r.(lim_19_16))) r.(avl) r.(rsv1) r.(db) r.(g) r.(base_31_24).
Definition upd_avl (h : Z -> Z) (r : segdesc) : segdesc :=
  Segdesc r.(lim_15_0) r.(base_15_0) r.(base_23_16) r.(sd_type) r.(sd_s) r.(sd_dpl)
    r.(sd_p) r.(lim_19_16) (h (r.(avl))) r.(rsv1) r.(db) r.(g) r.(base_31_24).
Definition upd_rsv1 (h : Z -> Z) (r : segdesc) : segdesc :=
  Segdesc r.(lim_15_0) r.(base_15_0) r.(base_23_16) r.(sd_type) r.(sd_s) r.(sd_dpl)
    r.(sd_p) r.(lim_19_16) r.(avl) (h (r.(rsv1))) r.(db) r.(g) r.(base_31_24).
Definition upd_db (h : Z -> Z) (r : segdesc) : segdesc :=
  Segdesc r.(lim_15_0) r.(base_15_0) r.(base_23_16) r.(sd_type) r.(sd_s) r.(sd_dpl)
    r.(sd_p) r.(lim_19_16) r.(avl) r.(rsv1) (h (r.(db))) r.(g) r.(base_31_24).
Definition upd_g (h : Z -> Z) (r : segdesc) : segdesc :=
  Segdesc r.(lim_15_0) r.(base_15_0) r.(base_23_16) r.(sd_type) r.(sd_s) r.(sd_dpl)
    r.(sd_p) r.(lim_19_16) r.(avl) r.(rsv1) r.(db) (h (r.(g))) r.(base_31_24).
Definition upd_base_31_24 (h : Z -> Z) (r : segdesc) : segdesc :=
  Segdesc r.(lim_15_0) r.(base_15_0) r.(base_23_16) r.(sd_type) r.(sd_s) r.(sd_dpl)
    r.(sd_p) r.(lim_19_16) r.(avl) r.(rsv1) r.(db) r.(g) (h (r.(base_31_24))).

Record gatedesc := Gatedesc {
  off_15_0 : Z;
  gd_cs : Z;
  gd_args : Z;
  gd_rsv1 : Z;
  gd_type : Z;
  gd_s : Z;
  gd_dpl : Z;
  gd_p : Z;
  off_31_16 : Z;
}.

Definition upd_off_15_0 (h : Z -> Z) (r : gatedesc) : gatedesc :=
  Gatedesc (h (r.(off_15_0))) r.(gd_cs) r.(gd_args) r.(gd_rsv1) r.(gd_type) r.(gd_s)
    r.(gd_dpl) r.(gd_p) r.(off_31_16).
Definition upd_gd_cs (h : Z -> Z) (r : gatedesc) : gatedesc :=
  Gatedesc r.(off_15_0) (h (r.(gd_cs))) r.(gd_args) r.(gd_rsv1) r.(gd_type) r.(gd_s)
    r.(gd_dpl) r.(gd_p) r.(off_31_16).
Definition upd_gd_args (h : Z -> Z) (r : gatedesc) : gatedesc :=
  Gatedesc r.(off_15_0) r.(gd_cs) (h (r.(gd_args))) r.(gd_rsv1) r.(gd_type) r.(gd_s)
    r.(gd_dpl) r.(gd_p) r.(off_31_16).
Definition upd_gd_rsv1 (h : Z -> Z) (r : gatedesc) : gatedesc :=
  Gatedesc r.(off_15_0) r.(gd_cs) r.(gd_args) (h (r.(gd_rsv1))) r.(gd_type) r.(gd_s)
    r.(gd_dpl) r.(gd_p) r.(off_31_16).
Definition upd_gd_type (h : Z -> Z) (r : gatedesc) : gatedesc :=
  Gatedesc r.(off_15_0) r.(gd_cs) r.(gd_args) r.(gd_rsv1) (h (r.(gd_type))) r.(gd_s)
    r.(gd_dpl) r.(gd_p) r.(off_31_16).
Definition upd_gd_s (h : Z -> Z) (r : gatedesc) : gatedesc :=
  Gatedesc r.(off_15_0) r.(gd_cs) r.(gd_args) r.(gd_rsv1) r.(gd_type) (h (r.(gd_s)))
    r.(gd_dpl) r.(gd_p) r.(off_31_16).
Definition upd_gd_dpl (h : Z -> Z) (r : gatedesc) : gatedesc :=
  Gatedesc r.(off_15_0) r.(gd_cs) r.(gd_args) r.(gd_rsv1) r.(gd_type) r.(gd_s)
    (h (r.(gd_dpl))) r.(gd_p) r.(off_31_16).
Definition upd_gd_p (h : Z -> Z) (r : gatedesc) : gatedesc :=
  Gatedesc r.(off_15_0) r.(gd_cs) r.(gd_args) r.(gd_rsv1) r.(gd_type) r.(gd_s)
    r.(gd_dpl) (h (r.(gd_p))) r.(off_31_16).
Definition upd_off_31_16 (h : Z -> Z) (r : gatedesc) : gatedesc :=
  Gatedesc r.(off_15_0) r.(gd_cs) r.(gd_args) r.(gd_rsv1) r.(gd_type) r.(gd_s)
    r.(gd_dpl) r.(gd_p) (h (r.(off_31_16))).

(** Per-CPU state ([struct cpu]); of the task state segment, the fields the
    kernel writes. *)
Record cpu := Cpu {
  apicid : Z;
  ts_ss0 : Z;
  ts_esp0 : Z;
  ts_iomb : Z;
  gdt : list segdesc;
  started : Z;
  ncli : Z;
  intena : bool;
  c_proc : option nat;
}.

Definition upd_apicid (h : Z -> Z) (r : cpu) : cpu :=
  Cpu (h (r.(apicid))) r.(ts_ss0) r.(ts_esp0) r.(ts_iomb) r.(gdt) r.(started) r.(ncli)
    r.(intena) r.(c_proc).
Definition upd_ts_ss0 (h : Z -> Z) (r : cpu) : cpu :=
  Cpu r.(apicid) (h (r.(ts_ss0))) r.(ts_esp0) r.(ts_iomb) r.(gdt) r.(started) r.(ncli)
    r.(intena) r.(c_proc).
Definition upd_ts_esp0 (h : Z -> Z) (r : cpu) : cpu :=
  Cpu r.(apicid) r.(ts_ss0) (h (r.(ts_esp0))) r.(ts_iomb) r.(gdt) r.(started) r.(ncli)
    r.(intena) r.(c_proc).
Definition upd_ts_iomb (h : Z -> Z) (r : cpu) : cpu :=
  Cpu r.(apicid) r.(ts_ss0) r.(ts_esp0) (h (r.(ts_iomb))) r.(gdt) r.(started) r.(ncli)
    r.(intena) r.(c_proc).
Definition upd_gdt (h : list segdesc -> list segdesc) (r : cpu) : cpu :=
  Cpu r.(apicid) r.(ts_ss0) r.(ts_esp0) r.(ts_iomb) (h (r.(gdt))) r.(started) r.(ncli)
    r.(intena) r.(c_proc).
Definition upd_started (h : Z -> Z) (r : cpu) : cpu :=
  Cpu r.(apicid) r.(ts_ss0) r.(ts_esp0) r.(ts_iomb) r.(gdt) (h (r.(started))) r.(ncli)
    r.(intena) r.(c_proc).
Definition upd_ncli (h : Z -> Z) (r : cpu) : cpu :=
  Cpu r.(apicid) r.(ts_ss0) r.(ts_esp0) r.(ts_iomb) r.(gdt) r.(started) (h (r.(ncli)))
    r.(intena) r.(c_proc).
Definition upd_intena (h : bool -> bool) (r : cpu) : cpu :=
  Cpu r.(apicid) r.(ts_ss0) r.(ts_esp0) r.(ts_iomb) r.(gdt) r.(started) r.(ncli)
    (h (r.(intena))) r.(c_proc).
Definition upd_c_proc (h : option nat -> option nat) (r : cpu) : cpu :=
  Cpu r.(apicid) r.(ts_ss0) r.(ts_esp0) r.(ts_iomb) r.(gdt) r.(started) r.(ncli)
    r.(intena) (h (r.(c_proc))).

(** The registers of the CPU that executes: local APIC id, the interrupt flag
    of EFLAGS, CR2, CR3, the task register, the CPU whose [gdt] is loaded and
    the limit of the loaded [idt]. *)
Record hwregs := Hwregs {
  lapicid : Z;
  eflags_if : bool;
  cr2 : Z;
  cr3 : Z;
  tr : Z;
  gdtr : option nat;
  idtr : Z;
}.

Definition upd_lapicid (h : Z -> Z) (r : hwregs) : hwregs :=
  Hwregs (h (r.(lapicid))) r.(eflags_if) r.(cr2) r.(cr3) r.(tr) r.(gdtr) r.(idtr).
Definition upd_eflags_if (h : bool -> bool) (r : hwregs) : hwregs :=
  Hwregs r.(lapicid) (h (r.(eflags_if))) r.(cr2) r.(cr3) r.(tr) r.(gdtr) r.(idtr).
Definition upd_cr2 (h : Z -> Z) (r : hwregs) : hwregs :=
  Hwregs r.(lapicid) r.(eflags_if) (h (r.(cr2))) r.(cr3) r.(tr) r.(gdtr) r.(idtr).
Definition upd_cr3 (h : Z -> Z) (r : hwregs) : hwregs :=
  Hwregs r.(lapicid) r.(eflags_if) r.(cr2) (h (r.(cr3))) r.(tr) r.(gdtr) r.(idtr).
Definition upd_tr (h : Z -> Z) (r : hwregs) : hwregs :=
  Hwregs r.(lapicid) r.(eflags_if) r.(cr2) r.(cr3) (h (r.(tr))) r.(gdtr) r.(idtr).
Definition upd_gdtr (h : option nat -> option nat) (r : hwregs) : hwregs :=
  Hwregs r.(lapicid) r.(eflags_if) r.(cr2) r.(cr3) r.(tr) (h (r.(gdtr))) r.(idtr).
Definition upd_idtr (h : Z -> Z) (r : hwregs) : hwregs :=
  Hwregs r.(lapicid) r.(eflags_if) r.(cr2) r.(cr3) r.(tr) r.(gdtr) (h (r.(idtr))).

(** Per-process state ([struct proc]).  Pointers to other processes are slots
    of the table, [kstack], [pgdir], [tf] and [context] are addresses. *)
Record proc := Proc {
  sz : Z;
  pgdir : Z;
  kstack : Z;
  state : procstate;
  pid : Z;
  parent : option nat;
  tf : Z;
  context : Z;
  chan_ : chan;
  killed : Z;
  ofile : list (option nat);
  cwd : option nat;
  name : list Z;
  traceflag : Z;
  counter : Z;
  timeslice : Z;
  tickets : Z;
  retime : Z;
  stime : Z;
  rutime : Z;
  ctime : Z;
  total_time : Z;
  max_time : Z;
  init_time : Z;
  priority : Z;
}.

Definition upd_sz (h : Z -> Z) (r : proc) : proc :=
  Proc (h (r.(sz))) r.(pgdir) r.(kstack) r.(state) r.(pid) r.(parent) r.(tf)
    r.(context) r.(chan_) r.(killed) r.(ofile) r.(cwd) r.(name) r.(traceflag)
    r.(counter) r.(timeslice) r.(tickets) r.(retime) r.(stime) r.(rutime) r.(ctime)
    r.(total_time) r.(max_time) r.(init_time) r.(priority).
Definition upd_pgdir (h : Z -> Z) (r : proc) : proc :=
  Proc r.(sz) (h (r.(pgdir))) r.(kstack) r.(state) r.(pid) r.(parent) r.(tf)
    r.(context) r.(chan_) r.(killed) r.(ofile) r.(cwd) r.(name) r.(traceflag)
    r.(counter) r.(timeslice) r.(tickets) r.(retime) r.(stime) r.(rutime) r.(ctime)
    r.(total_time) r.(max_time) r.(init_time) r.(priority).
Definition upd_kstack (h : Z -> Z) (r : proc) : proc :=
  Proc r.(sz) r.(pgdir) (h (r.(kstack))) r.(state) r.(pid) r.(parent) r.(tf)
    r.(context) r.(chan_) r.(killed) r.(ofile) r.(cwd) r.(name) r.(traceflag)
    r.(counter) r.(timeslice) r.(tickets) r.(retime) r.(stime) r.(rutime) r.(ctime)
    r.(total_time) r.(max_time) r.(init_time) r.(priority).
Definition upd_state (h : procstate -> procstate) (r : proc) : proc :=
  Proc r.(sz) r.(pgdir) r.(kstack) (h (r.(state))) r.(pid) r.(parent) r.(tf)
    r.(context) r.(chan_) r.(killed) r.(ofile) r.(cwd) r.(name) r.(traceflag)
    r.(counter) r.(timeslice) r.(tickets) r.(retime) r.(stime) r.(rutime) r.(ctime)
    r.(total_time) r.(max_time) r.(init_time) r.(priority).
Definition upd_pid (h : Z -> Z) (r : proc) : proc :=
  Proc r.(sz) r.(pgdir) r.(kstack) r.(state) (h (r.(pid))) r.(parent) r.(tf)
    r.(context) r.(chan_) r.(killed) r.(ofile) r.(cwd) r.(name) r.(traceflag)
    r.(counter) r.(timeslice) r.(tickets) r.(retime) r.(stime) r.(rutime) r.(ctime)
    r.(total_time) r.(max_time) r.(init_time) r.(priority).
Definition upd_parent (h : option nat -> option nat) (r : proc) : proc :=
  Proc r.(sz) r.(pgdir) r.(kstack) r.(state) r.(pid) (h (r.(parent))) r.(tf)
    r.(context) r.(chan_) r.(killed) r.(ofile) r.(cwd) r.(name) r.(traceflag)
    r.(counter) r.(timeslice) r.(tickets) r.(retime) r.(stime) r.(rutime) r.(ctime)
    r.(total_time) r.(max_time) r.(init_time) r.(priority).
Definition upd_tf (h : Z -> Z) (r : proc) : proc :=
  Proc r.(sz) r.(pgdir) r.(kstack) r.(state) r.(pid) r.(parent) (h (r.(tf)))
    r.(context) r.(chan_) r.(killed) r.(ofile) r.(cwd) r.(name) r.(traceflag)
    r.(counter) r.(timeslice) r.(tickets) r.(retime) r.(stime) r.(rutime) r.(ctime)
    r.(total_time) r.(max_time) r.(init_time) r.(priority).
Definition upd_context (h : Z -> Z) (r : proc) : proc :=
  Proc r.(sz) r.(pgdir) r.(kstack) r.(state) r.(pid) r.(parent) r.(tf)
    (h (r.(context))) r.(chan_) r.(killed) r.(ofile) r.(cwd) r.(name) r.(traceflag)
    r.(counter) r.(timeslice) r.(tickets) r.(retime) r.(stime) r.(rutime) r.(ctime)
    r.(total_time) r.(max_time) r.(init_time) r.(priority).
Definition upd_chan_ (h : chan -> chan) (r : proc) : proc :=
  Proc r.(sz) r.(pgdir) r.(kstack) r.(state) r.(pid) r.(parent) r.(tf) r.(context)
    (h (r.(chan_))) r.(killed) r.(ofile) r.(cwd) r.(name) r.(traceflag) r.(counter)
    r.(timeslice) r.(tickets) r.(retime) r.(stime) r.(rutime) r.(ctime) r.(total_time)
    r.(max_time) r.(init_time) r.(priority).
Definition upd_killed (h : Z -> Z) (r : proc) : proc :=
  Proc r.(sz) r.(pgdir) r.(kstack) r.(state) r.(pid) r.(parent) r.(tf) r.(context)
    r.(chan_) (h (r.(killed))) r.(ofile) r.(cwd) r.(name) r.(traceflag) r.(counter)
    r.(timeslice) r.(tickets) r.(retime) r.(stime) r.(rutime) r.(ctime) r.(total_time)
    r.(max_time) r.(init_time) r.(priority).
Definition upd_ofile (h : list (option nat) -> list (option nat)) (r : proc) : proc :=
  Proc r.(sz) r.(pgdir) r.(kstack) r.(state) r.(pid) r.(parent) r.(tf) r.(context)
    r.(chan_) r.(killed) (h (r.(ofile))) r.(cwd) r.(name) r.(traceflag) r.(counter)
    r.(timeslice) r.(tickets) r.(retime) r.(stime) r.(rutime) r.(ctime) r.(total_time)
    r.(max_time) r.(init_time) r.(priority).
Definition upd_cwd (h : option nat -> option nat) (r : proc) : proc :=
  Proc r.(sz) r.(pgdir) r.(kstack) r.(state) r.(pid) r.(parent) r.(tf) r.(context)
    r.(chan_) r.(killed) r.(ofile) (h (r.(cwd))) r.(name) r.(traceflag) r.(counter)
    r.(timeslice) r.(tickets) r.(retime) r.(stime) r.(rutime) r.(ctime) r.(total_time)
    r.(max_time) r.(init_time) r.(priority).
Definition upd_name (h : list Z -> list Z) (r : proc) : proc :=
  Proc r.(sz) r.(pgdir) r.(kstack) r.(state) r.(pid) r.(parent) r.(tf) r.(context)
    r.(chan_) r.(killed) r.(ofile) r.(cwd) (h (r.(name))) r.(traceflag) r.(counter)
    r.(timeslice) r.(tickets) r.(retime) r.(stime) r.(rutime) r.(ctime) r.(total_time)
    r.(max_time) r.(init_time) r.(priority).
Definition upd_traceflag (h : Z -> Z) (r : proc) : proc :=
  Proc r.(sz) r.(pgdir) r.(kstack) r.(state) r.(pid) r.(parent) r.(tf) r.(context)
    r.(chan_) r.(killed) r.(ofile) r.(cwd) r.(name) (h (r.(traceflag))) r.(counter)
    r.(timeslice) r.(tickets) r.(retime) r.(stime) r.(rutime) r.(ctime) r.(total_time)
    r.(max_time) r.(init_time) r.(priority).
Definition upd_counter (h : Z -> Z) (r : proc) : proc :=
  Proc r.(sz) r.(pgdir) r.(kstack) r.(state) r.(pid) r.(parent) r.(tf) r.(context)
    r.(chan_) r.(killed) r.(ofile) r.(cwd) r.(name) r.(traceflag) (h (r.(counter)))
    r.(timeslice) r.(tickets) r.(retime) r.(stime) r.(rutime) r.(ctime) r.(total_time)
    r.(max_time) r.(init_time) r.(priority).
Definition upd_timeslice (h : Z -> Z) (r : proc) : proc :=
  Proc r.(sz) r.(pgdir) r.(kstack) r.(state) r.(pid) r.(parent) r.(tf) r.(context)
    r.(chan_) r.(killed) r.(ofile) r.(cwd) r.(name) r.(traceflag) r.(counter)
    (h (r.(timeslice))) r.(tickets) r.(retime) r.(stime) r.(rutime) r.(ctime)
    r.(total_time) r.(max_time) r.(init_time) r.(priority).
Definition upd_tickets (h : Z -> Z) (r : proc) : proc :=
  Proc r.(sz) r.(pgdir) r.(kstack) r.(state) r.(pid) r.(parent) r.(tf) r.(context)
    r.(chan_) r.(killed) r.(ofile) r.(cwd) r.(name) r.(traceflag) r.(counter)
    r.(timeslice) (h (r.(tickets))) r.(retime) r.(stime) r.(rutime) r.(ctime)
    r.(total_time) r.(max_time) r.(init_time) r.(priority).
Definition upd_retime (h : Z -> Z) (r : proc) : proc :=
  Proc r.(sz) r.(pgdir) r.(kstack) r.(state) r.(pid) r.(parent) r.(tf) r.(context)
    r.(chan_) r.(killed) r.(ofile) r.(cwd) r.(name) r.(traceflag) r.(counter)
    r.(timeslice) r.(tickets) (h (r.(retime))) r.(stime) r.(rutime) r.(ctime)
    r.(total_time) r.(max_time) r.(init_time) r.(priority).
Definition upd_stime (h : Z -> Z) (r : proc) : proc :=
  Proc r.(sz) r.(pgdir) r.(kstack) r.(state) r.(pid) r.(parent) r.(tf) r.(context)
    r.(chan_) r.(killed) r.(ofile) r.(cwd) r.(name) r.(traceflag) r.(counter)
    r.(timeslice) r.(tickets) r.(retime) (h (r.(stime))) r.(rutime) r.(ctime)
    r.(total_time) r.(max_time) r.(init_time) r.(priority).
Definition upd_rutime (h : Z -> Z) (r : proc) : proc :=
  Proc r.(sz) r.(pgdir) r.(kstack) r.(state) r.(pid) r.(parent) r.(tf) r.(context)
    r.(chan_) r.(killed) r.(ofile) r.(cwd) r.(name) r.(traceflag) r.(counter)
    r.(timeslice) r.(tickets) r.(retime) r.(stime) (h (r.(rutime))) r.(ctime)
    r.(total_time) r.(max_time) r.(init_time) r.(priority).
Definition upd_ctime (h : Z -> Z) (r : proc) : proc :=
  Proc r.(sz) r.(pgdir) r.(kstack) r.(state) r.(pid) r.(parent) r.(tf) r.(context)
    r.(chan_) r.(killed) r.(ofile) r.(cwd) r.(name) r.(traceflag) r.(counter)
    r.(timeslice) r.(tickets) r.(retime) r.(stime) r.(rutime) (h (r.(ctime)))
    r.(total_time) r.(max_time) r.(init_time) r.(priority).
Definition upd_total_time (h : Z -> Z) (r : proc) : proc :=
  Proc r.(sz) r.(pgdir) r.(kstack) r.(state) r.(pid) r.(parent) r.(tf) r.(context)
    r.(chan_) r.(killed) r.(ofile) r.(cwd) r.(name) r.(traceflag) r.(counter)
    r.(timeslice) r.(tickets) r.(retime) r.(stime) r.(rutime) r.(ctime)
    (h (r.(total_time))) r.(max_time) r.(init_time) r.(priority).
Definition upd_max_time (h : Z -> Z) (r : proc) : proc :=
  Proc r.(sz) r.(pgdir) r.(kstack) r.(state) r.(pid) r.(parent) r.(tf) r.(context)
    r.(chan_) r.(killed) r.(ofile) r.(cwd) r.(name) r.(traceflag) r.(counter)
    r.(timeslice) r.(tickets) r.(retime) r.(stime) r.(rutime) r.(ctime) r.(total_time)
    (h (r.(max_time))) r.(init_time) r.(priority).
Definition upd_init_time (h : Z -> Z) (r : proc) : proc :=
  Proc r.(sz) r.(pgdir) r.(kstack) r.(state) r.(pid) r.(parent) r.(tf) r.(context)
    r.(chan_) r.(killed) r.(ofile) r.(cwd) r.(name) r.(traceflag) r.(counter)
    r.(timeslice) r.(tickets) r.(retime) r.(stime) r.(rutime) r.(ctime) r.(total_time)
    r.(max_time) (h (r.(init_time))) r.(priority).
Definition upd_priority (h : Z -> Z) (r : proc) : proc :=
  Proc r.(sz) r.(pgdir) r.(kstack) r.(state) r.(pid) r.(parent) r.(tf) r.(context)
    r.(chan_) r.(killed) r.(ofile) r.(cwd) r.(name) r.(traceflag) r.(counter)
    r.(timeslice) r.(tickets) r.(retime) r.(stime) r.(rutime) r.(ctime) r.(total_time)
    r.(max_time) r.(init_time) (h (r.(priority))).

(** ** file.h and pipe.c *)

Inductive ftype := FD_NONE | FD_PIPE | FD_INODE.

#[export] Instance ftype_eq_dec : EqDecision ftype.
Proof. solve_decision. Defined.

Record file := File {
  f_type : ftype;
  f_ref : Z;
  f_readable : Z;
  f_writable : Z;
  f_pipe : Z;
  f_ip : option nat;
  f_off : Z;
}.

Definition upd_f_type (h : ftype -> ftype) (r : file) : file :=
  File (h (r.(f_type))) r.(f_ref) r.(f_readable) r.(f_writable) r.(f_pipe) r.(f_ip)
    r.(f_off).
Definition upd_f_ref (h : Z -> Z) (r : file) : file :=
  File r.(f_type) (h (r.(f_ref))) r.(f_readable) r.(f_writable) r.(f_pipe) r.(f_ip)
    r.(f_off).
Definition upd_f_readable (h : Z -> Z) (r : file) : file :=
  File r.(f_type) r.(f_ref) (h (r.(f_readable))) r.(f_writable) r.(f_pipe) r.(f_ip)
    r.(f_off).
Definition upd_f_writable (h : Z -> Z) (r : file) : file :=
  File r.(f_type) r.(f_ref) r.(f_readable) (h (r.(f_writable))) r.(f_pipe) r.(f_ip)
    r.(f_off).
Definition upd_f_pipe (h : Z -> Z) (r : file) : file :=
  File r.(f_type) r.(f_ref) r.(f_readable) r.(f_writable) (h (r.(f_pipe))) r.(f_ip)
    r.(f_off).
Definition upd_f_ip (h : option nat -> option nat) (r : file) : file :=
  File r.(f_type) r.(f_ref) r.(f_readable) r.(f_writable) r.(f_pipe) (h (r.(f_ip)))
    r.(f_off).
Definition upd_f_off (h : Z -> Z) (r : file) : file :=
  File r.(f_type) r.(f_ref) r.(f_readable) r.(f_writable) r.(f_pipe) r.(f_ip)
    (h (r.(f_off))).

Definition PIPESIZE : Z := 512.

Record pipe := Pipe {
  data : list Z;
  nread : Z;
  nwrite : Z;
  readopen : Z;
  writeopen : Z;
}.

Definition upd_data (h : list Z -> list Z) (r : pipe) : pipe :=
  Pipe (h (r.(data))) r.(nread) r.(nwrite) r.(readopen) r.(writeopen).
Definition upd_nread (h : Z -> Z) (r : pipe) : pipe :=
  Pipe r.(data) (h (r.(nread))) r.(nwrite) r.(readopen) r.(writeopen).
Definition upd_nwrite (h : Z -> Z) (r : pipe) : pipe :=
  Pipe r.(data) r.(nread) (h (r.(nwrite))) r.(readopen) r.(writeopen).
Definition upd_readopen (h : Z -> Z) (r : pipe) : pipe :=
  Pipe r.(data) r.(nread) r.(nwrite) (h (r.(readopen))) r.(writeopen).
Definition upd_writeopen (h : Z -> Z) (r : pipe) : pipe :=
  Pipe r.(data) r.(nread) r.(nwrite) r.(readopen) (h (r.(writeopen))).

(** ** buf.h, fs.h, file.h, log.c, console.c

    A pointer to a buffer is its slot; the list head [bcache.head] is the slot
    after the last buffer. *)

Record buf := Buf {
  b_flags : Z;
  b_dev : Z;
  b_blockno : Z;
  b_refcnt : Z;
  b_prev : nat;
  b_next : nat;
  b_qnext : option nat;
  b_data : list Z;
}.

Definition upd_b_flags (h : Z -> Z) (r : buf) : buf :=
  Buf (h (r.(b_flags))) r.(b_dev) r.(b_blockno) r.(b_refcnt) r.(b_prev) r.(b_next)
    r.(b_qnext) r.(b_data).
Definition upd_b_dev (h : Z -> Z) (r : buf) : buf :=
  Buf r.(b_flags) (h (r.(b_dev))) r.(b_blockno) r.(b_refcnt) r.(b_prev) r.(b_next)
    r.(b_qnext) r.(b_data).
Definition upd_b_blockno (h : Z -> Z) (r : buf) : buf :=
  Buf r.(b_flags) r.(b_dev) (h (r.(b_blockno))) r.(b_refcnt) r.(b_prev) r.(b_next)
    r.(b_qnext) r.(b_data).
Definition upd_b_refcnt (h : Z -> Z) (r : buf) : buf :=
  Buf r.(b_flags) r.(b_dev) r.(b_blockno) (h (r.(b_refcnt))) r.(b_prev) r.(b_next)
    r.(b_qnext) r.(b_data).
Definition upd_b_prev (h : nat -> nat) (r : buf) : buf :=
  Buf r.(b_flags) r.(b_dev) r.(b_blockno) r.(b_refcnt) (h (r.(b_prev))) r.(b_next)
    r.(b_qnext) r.(b_data).
Definition upd_b_next (h : nat -> nat) (r : buf) : buf :=
  Buf r.(b_flags) r.(b_dev) r.(b_blockno) r.(b_refcnt) r.(b_prev) (h (r.(b_next)))
    r.(b_qnext) r.(b_data).
Definition upd_b_qnext (h : option nat -> option nat) (r : buf) : buf :=
  Buf r.(b_flags) r.(b_dev) r.(b_blockno) r.(b_refcnt) r.(b_prev) r.(b_next)
    (h (r.(b_qnext))) r.(b_data).
Definition upd_b_data (h : list Z -> list Z) (r : buf) : buf :=
  Buf r.(b_flags) r.(b_dev) r.(b_blockno) r.(b_refcnt) r.(b_prev) r.(b_next)
    r.(b_qnext) (h (r.(b_data))).

Record superblock := Superblock {
  sb_size : Z;
  sb_nblocks : Z;
  sb_ninodes : Z;
  sb_nlog : Z;
  sb_logstart : Z;
  sb_inodestart : Z;
  sb_bmapstart : Z;
}.

Definition upd_sb_size (h : Z -> Z) (r : superblock) : superblock :=
  Superblock (h (r.(sb_size))) r.(sb_nblocks) r.(sb_ninodes) r.(sb_nlog)
    r.(sb_logstart) r.(sb_inodestart) r.(sb_bmapstart).
Definition upd_sb_nblocks (h : Z -> Z) (r : superblock) : superblock :=
  Superblock r.(sb_size) (h (r.(sb_nblocks))) r.(sb_ninodes) r.(sb_nlog)
    r.(sb_logstart) r.(sb_inodestart) r.(sb_bmapstart).
Definition upd_sb_ninodes (h : Z -> Z) (r : superblock) : superblock :=
  Superblock r.(sb_size) r.(sb_nblocks) (h (r.(sb_ninodes))) r.(sb_nlog)
    r.(sb_logstart) r.(sb_inodestart) r.(sb_bmapstart).
Definition upd_sb_nlog (h : Z -> Z) (r : superblock) : superblock :=
  Superblock r.(sb_size) r.(sb_nblocks) r.(sb_ninodes) (h (r.(sb_nlog)))
    r.(sb_logstart) r.(sb_inodestart) r.(sb_bmapstart).
Definition upd_sb_logstart (h : Z -> Z) (r : superblock) : superblock :=
  Superblock r.(sb_size) r.(sb_nblocks) r.(sb_ninodes) r.(sb_nlog)
    (h (r.(sb_logstart))) r.(sb_inodestart) r.(sb_bmapstart).
Definition upd_sb_inodestart (h : Z -> Z) (r : superblock) : superblock :=
  Superblock r.(sb_size) r.(sb_nblocks) r.(sb_ninodes) r.(sb_nlog) r.(sb_logstart)
    (h (r.(sb_inodestart))) r.(sb_bmapstart).
Definition upd_sb_bmapstart (h : Z -> Z) (r : superblock) : superblock :=
  Superblock r.(sb_size) r.(sb_nblocks) r.(sb_ninodes) r.(sb_nlog) r.(sb_logstart)
    r.(sb_inodestart) (h (r.(sb_bmapstart))).

Record inode := Inode {
  i_dev : Z;
  i_inum : Z;
  i_ref : Z;
  i_valid : Z;
  i_type : Z;
  i_major : Z;
  i_minor : Z;
  i_nlink : Z;
  i_size : Z;
  i_addrs : list Z;
}.

Definition upd_i_dev (h : Z -> Z) (r : inode) : inode :=
  Inode (h (r.(i_dev))) r.(i_inum) r.(i_ref) r.(i_valid) r.(i_type) r.(i_major)
    r.(i_minor) r.(i_nlink) r.(i_size) r.(i_addrs).
Definition upd_i_inum (h : Z -> Z) (r : inode) : inode :=
  Inode r.(i_dev) (h (r.(i_inum))) r.(i_ref) r.(i_valid) r.(i_type) r.(i_major)
    r.(i_minor) r.(i_nlink) r.(i_size) r.(i_addrs).
Definition upd_i_ref (h : Z -> Z) (r : inode) : inode :=
  Inode r.(i_dev) r.(i_inum) (h (r.(i_ref))) r.(i_valid) r.(i_type) r.(i_major)
    r.(i_minor) r.(i_nlink) r.(i_size) r.(i_addrs).
Definition upd_i_valid (h : Z -> Z) (r : inode) : inode :=
  Inode r.(i_dev) r.(i_inum) r.(i_ref) (h (r.(i_valid))) r.(i_type) r.(i_major)
    r.(i_minor) r.(i_nlink) r.(i_size) r.(i_addrs).
Definition upd_i_type (h : Z -> Z) (r : inode) : inode :=
  Inode r.(i_dev) r.(i_inum) r.(i_ref) r.(i_valid) (h (r.(i_type))) r.(i_major)
    r.(i_minor) r.(i_nlink) r.(i_size) r.(i_addrs).
Definition upd_i_major (h : Z -> Z) (r : inode) : inode :=
  Inode r.(i_dev) r.(i_inum) r.(i_ref) r.(i_valid) r.(i_type) (h (r.(i_major)))
    r.(i_minor) r.(i_nlink) r.(i_size) r.(i_addrs).
Definition upd_i_minor (h : Z -> Z) (r : inode) : inode :=
  Inode r.(i_dev) r.(i_inum) r.(i_ref) r.(i_valid) r.(i_type) r.(i_major)
    (h (r.(i_minor))) r.(i_nlink) r.(i_size) r.(i_addrs).
Definition upd_i_nlink (h : Z -> Z) (r : inode) : inode :=
  Inode r.(i_dev) r.(i_inum) r.(i_ref) r.(i_valid) r.(i_type) r.(i_major) r.(i_minor)
    (h (r.(i_nlink))) r.(i_size) r.(i_addrs).
Definition upd_i_size (h : Z -> Z) (r : inode) : inode :=
  Inode r.(i_dev) r.(i_inum) r.(i_ref) r.(i_valid) r.(i_type) r.(i_major) r.(i_minor)
    r.(i_nlink) (h (r.(i_size))) r.(i_addrs).
Definition upd_i_addrs (h : list Z -> list Z) (r : inode) : inode :=
  Inode r.(i_dev) r.(i_inum) r.(i_ref) r.(i_valid) r.(i_type) r.(i_major) r.(i_minor)
    r.(i_nlink) r.(i_size) (h (r.(i_addrs))).

Record log := Log {
  l_start : Z;
  l_size : Z;
  l_outstanding : Z;
  l_committing : Z;
  l_dev : Z;
  lh_n : Z;
  lh_block : list Z;
}.

Definition upd_l_start (h : Z -> Z) (r : log) : log :=
  Log (h (r.(l_start))) r.(l_size) r.(l_outstanding) r.(l_committing) r.(l_dev)
    r.(lh_n) r.(lh_block).
Definition upd_l_size (h : Z -> Z) (r : log) : log :=
  Log r.(l_start) (h (r.(l_size))) r.(l_outstanding) r.(l_committing) r.(l_dev)
    r.(lh_n) r.(lh_block).
Definition upd_l_outstanding (h : Z -> Z) (r : log) : log :=
  Log r.(l_start) r.(l_size) (h (r.(l_outstanding))) r.(l_committing) r.(l_dev)
    r.(lh_n) r.(lh_block).
Definition upd_l_committing (h : Z -> Z) (r : log) : log :=
  Log r.(l_start) r.(l_size) r.(l_outstanding) (h (r.(l_committing))) r.(l_dev)
    r.(lh_n) r.(lh_block).
Definition upd_l_dev (h : Z -> Z) (r : log) : log :=
  Log r.(l_start) r.(l_size) r.(l_outstanding) r.(l_committing) (h (r.(l_dev)))
    r.(lh_n) r.(lh_block).
Definition upd_lh_n (h : Z -> Z) (r : log) : log :=
  Log r.(l_start) r.(l_size) r.(l_outstanding) r.(l_committing) r.(l_dev)
    (h (r.(lh_n))) r.(lh_block).
Definition upd_lh_block (h : list Z -> list Z) (r : log) : log :=
  Log r.(l_start) r.(l_size) r.(l_outstanding) r.(l_committing) r.(l_dev) r.(lh_n)
    (h (r.(lh_block))).

Record inputbuf := Inputbuf {
  in_buf : list Z;
  in_r : Z;
  in_w : Z;
  in_e : Z;
}.

Definition upd_in_buf (h : list Z -> list Z) (r : inputbuf) : inputbuf :=
  Inputbuf (h (r.(in_buf))) r.(in_r) r.(in_w) r.(in_e).
Definition upd_in_r (h : Z -> Z) (r : inputbuf) : inputbuf :=
  Inputbuf r.(in_buf) (h (r.(in_r))) r.(in_w) r.(in_e).
Definition upd_in_w (h : Z -> Z) (r : inputbuf) : inputbuf :=
  Inputbuf r.(in_buf) r.(in_r) (h (r.(in_w))) r.(in_e).
Definition upd_in_e (h : Z -> Z) (r : inputbuf) : inputbuf :=
  Inputbuf r.(in_buf) r.(in_r) r.(in_w) (h (r.(in_e))).

(** The drivers that [devsw] may point to. *)
Inductive devid := DEV_console.

(** The accesses of the kernel to devices, in order: ports, strings of bytes
    through a port, and registers mapped into memory. *)
Inductive ioevent :=
| EOut (port v : Z)
| EIn (port v : Z)
| EOutS (port : Z) (bs : list Z)
| EInS (port : Z) (bs : list Z)
| EWrite (addr v : Z)
| ERead (addr v : Z).

(** ** The global variables

    One field per global of the kernel; [hw] is the CPU that executes, [pipes]
    the typed view of the pages that hold a [struct pipe], [disk] the blocks of
    the disk, [console] the characters sent to the console so far, [ioevents] the
    other accesses to devices.  Two fields are not variables of the code:
    [dwrites] lists the block writes that reached the disk, and [budget] is the
    number of context switches the run may still make. *)
Record kernel := Kernel {
  hw : hwregs;
  cpus : list cpu;
  ncpu : nat;
  locks : lockid -> spinlock;
  sleeplocks : slid -> sleeplock;
  ptable : list proc;
  nextpid : Z;
  initproc : option nat;
  proc_quantum : Z;
  forkret_first : Z;
  ticks : Z;
  mem : Z -> Z;
  use_lock : Z;
  freelist : Z;
  kpgdir : Z;
  mt : list Z;
  mti : Z;
  ftable : list file;
  pipes : Z -> pipe;
  bcache : list buf;
  klog : log;
  sb : superblock;
  icache : list inode;
  devsw : list (option devid);
  disk : Z -> list Z;
  disksize : Z;
  dwrites : list (Z * list Z);
  idequeue : option nat;
  havedisk1 : Z;
  cons_locking : Z;
  panicked : Z;
  input : inputbuf;
  console : list Z;
  idt : list gatedesc;
  lapic : Z;
  ioapicid : Z;
  uart : Z;
  kbdshift : Z;
  ioevents : list ioevent;
  budget : nat;
}.

Definition upd_hw (h : hwregs -> hwregs) (r : kernel) : kernel :=
  Kernel (h (r.(hw))) r.(cpus) r.(ncpu) r.(locks) r.(sleeplocks) r.(ptable)
    r.(nextpid) r.(initproc) r.(proc_quantum) r.(forkret_first) r.(ticks) r.(mem)
    r.(use_lock) r.(freelist) r.(kpgdir) r.(mt) r.(mti) r.(ftable) r.(pipes)
    r.(bcache) r.(klog) r.(sb) r.(icache) r.(devsw) r.(disk) r.(disksize) r.(dwrites)
    r.(idequeue) r.(havedisk1) r.(cons_locking) r.(panicked) r.(input) r.(console)
    r.(idt) r.(lapic) r.(ioapicid) r.(uart) r.(kbdshift) r.(ioevents) r.(budget).
Definition upd_cpus (h : list cpu -> list cpu) (r : kernel) : kernel :=
  Kernel r.(hw) (h (r.(cpus))) r.(ncpu) r.(locks) r.(sleeplocks) r.(ptable)
    r.(nextpid) r.(initproc) r.(proc_quantum) r.(forkret_first) r.(ticks) r.(mem)
    r.(use_lock) r.(freelist) r.(kpgdir) r.(mt) r.(mti) r.(ftable) r.(pipes)
    r.(bcache) r.(klog) r.(sb) r.(icache) r.(devsw) r.(disk) r.(disksize) r.(dwrites)
    r.(idequeue) r.(havedisk1) r.(cons_locking) r.(panicked) r.(input) r.(console)
    r.(idt) r.(lapic) r.(ioapicid) r.(uart) r.(kbdshift) r.(ioevents) r.(budget).
Definition upd_ncpu (h : nat -> nat) (r : kernel) : kernel :=
  Kernel r.(hw) r.(cpus) (h (r.(ncpu))) r.(locks) r.(sleeplocks) r.(ptable)
    r.(nextpid) r.(initproc) r.(proc_quantum) r.(forkret_first) r.(ticks) r.(mem)
    r.(use_lock) r.(freelist) r.(kpgdir) r.(mt) r.(mti) r.(ftable) r.(pipes)
    r.(bcache) r.(klog) r.(sb) r.(icache) r.(devsw) r.(disk) r.(disksize) r.(dwrites)
    r.(idequeue) r.(havedisk1) r.(cons_locking) r.(panicked) r.(input) r.(console)
    r.(idt) r.(lapic) r.(ioapicid) r.(uart) r.(kbdshift) r.(ioevents) r.(budget).
Definition upd_locks (h : (lockid -> spinlock) -> (lockid -> spinlock)) (r : kernel) : kernel :=
  Kernel r.(hw) r.(cpus) r.(ncpu) (h (r.(locks))) r.(sleeplocks) r.(ptable)
    r.(nextpid) r.(initproc) r.(proc_quantum) r.(forkret_first) r.(ticks) r.(mem)
    r.(use_lock) r.(freelist) r.(kpgdir) r.(mt) r.(mti) r.(ftable) r.(pipes)
    r.(bcache) r.(klog) r.(sb) r.(icache) r.(devsw) r.(disk) r.(disksize) r.(dwrites)
    r.(idequeue) r.(havedisk1) r.(cons_locking) r.(panicked) r.(input) r.(console)
    r.(idt) r.(lapic) r.(ioapicid) r.(uart) r.(kbdshift) r.(ioevents) r.(budget).
Definition upd_sleeplocks (h : (slid -> sleeplock) -> (slid -> sleeplock)) (r : kernel) : kernel :=
  Kernel r.(hw) r.(cpus) r.(ncpu) r.(locks) (h (r.(sleeplocks))) r.(ptable)
    r.(nextpid) r.(initproc) r.(proc_quantum) r.(forkret_first) r.(ticks) r.(mem)
    r.(use_lock) r.(freelist) r.(kpgdir) r.(mt) r.(mti) r.(ftable) r.(pipes)
    r.(bcache) r.(klog) r.(sb) r.(icache) r.(devsw) r.(disk) r.(disksize) r.(dwrites)
    r.(idequeue) r.(havedisk1) r.(cons_locking) r.(panicked) r.(input) r.(console)
    r.(idt) r.(lapic) r.(ioapicid) r.(uart) r.(kbdshift) r.(ioevents) r.(budget).
Definition upd_ptable (h : list proc -> list proc) (r : kernel) : kernel :=
  Kernel r.(hw) r.(cpus) r.(ncpu) r.(locks) r.(sleeplocks) (h (r.(ptable)))
    r.(nextpid) r.(initproc) r.(proc_quantum) r.(forkret_first) r.(ticks) r.(mem)
    r.(use_lock) r.(freelist) r.(kpgdir) r.(mt) r.(mti) r.(ftable) r.(pipes)
    r.(bcache) r.(klog) r.(sb) r.(icache) r.(devsw) r.(disk) r.(disksize) r.(dwrites)
    r.(idequeue) r.(havedisk1) r.(cons_locking) r.(panicked) r.(input) r.(console)
    r.(idt) r.(lapic) r.(ioapicid) r.(uart) r.(kbdshift) r.(ioevents) r.(budget).
Definition upd_nextpid (h : Z -> Z) (r : kernel) : kernel :=
  Kernel r.(hw) r.(cpus) r.(ncpu) r.(locks) r.(sleeplocks) r.(ptable) (h (r.(nextpid))) r.(initproc) r.(proc_quantum) r.(forkret_first) r.(ticks) r.(mem)
    r.(use_lock) r.(freelist) r.(kpgdir) r.(mt) r.(mti) r.(ftable) r.(pipes)
    r.(bcache) r.(klog) r.(sb) r.(icache) r.(devsw) r.(disk) r.(disksize) r.(dwrites)
    r.(idequeue) r.(havedisk1) r.(cons_locking) r.(panicked) r.(input) r.(console)
    r.(idt) r.(lapic) r.(ioapicid) r.(uart) r.(kbdshift) r.(ioevents) r.(budget).
Definition upd_initproc (h : option nat -> option nat) (r : kernel) : kernel :=
  Kernel r.(hw) r.(cpus) r.(ncpu) r.(locks) r.(sleeplocks) r.(ptable) r.(nextpid) (h (r.(initproc))) r.(proc_quantum) r.(forkret_first) r.(ticks) r.(mem) r.(use_lock)
    r.(freelist) r.(kpgdir) r.(mt) r.(mti) r.(ftable) r.(pipes) r.(bcache) r.(klog)
    r.(sb) r.(icache) r.(devsw) r.(disk) r.(disksize) r.(dwrites) r.(idequeue)
    r.(havedisk1) r.(cons_locking) r.(panicked) r.(input) r.(console) r.(idt)
    r.(lapic) r.(ioapicid) r.(uart) r.(kbdshift) r.(ioevents) r.(budget).
Definition upd_proc_quantum (h : Z -> Z) (r : kernel) : kernel :=
  Kernel r.(hw) r.(cpus) r.(ncpu) r.(locks) r.(sleeplocks) r.(ptable) r.(nextpid)
    r.(initproc) (h (r.(proc_quantum))) r.(forkret_first) r.(ticks) r.(mem)
    r.(use_lock) r.(freelist) r.(kpgdir) r.(mt) r.(mti) r.(ftable) r.(pipes)
    r.(bcache) r.(klog) r.(sb) r.(icache) r.(devsw) r.(disk) r.(disksize) r.(dwrites)
    r.(idequeue) r.(havedisk1) r.(cons_locking) r.(panicked) r.(input) r.(console)
    r.(idt) r.(lapic) r.(ioapicid) r.(uart) r.(kbdshift) r.(ioevents) r.(budget).
Definition upd_forkret_first (h : Z -> Z) (r : kernel) : kernel :=
  Kernel r.(hw) r.(cpus) r.(ncpu) r.(locks) r.(sleeplocks) r.(ptable) r.(nextpid)
    r.(initproc) r.(proc_quantum) (h (r.(forkret_first))) r.(ticks) r.(mem)
    r.(use_lock) r.(freelist) r.(kpgdir) r.(mt) r.(mti) r.(ftable) r.(pipes)
    r.(bcache) r.(klog) r.(sb) r.(icache) r.(devsw) r.(disk) r.(disksize) r.(dwrites)
    r.(idequeue) r.(havedisk1) r.(cons_locking) r.(panicked) r.(input) r.(console)
    r.(idt) r.(lapic) r.(ioapicid) r.(uart) r.(kbdshift) r.(ioevents) r.(budget).
Definition upd_ticks (h : Z -> Z) (r : kernel) : kernel :=
  Kernel r.(hw) r.(cpus) r.(ncpu) r.(locks) r.(sleeplocks) r.(ptable) r.(nextpid)
    r.(initproc) r.(proc_quantum) r.(forkret_first) (h (r.(ticks))) r.(mem)
    r.(use_lock) r.(freelist) r.(kpgdir) r.(mt) r.(mti) r.(ftable) r.(pipes)
    r.(bcache) r.(klog) r.(sb) r.(icache) r.(devsw) r.(disk) r.(disksize) r.(dwrites)
    r.(idequeue) r.(havedisk1) r.(cons_locking) r.(panicked) r.(input) r.(console)
    r.(idt) r.(lapic) r.(ioapicid) r.(uart) r.(kbdshift) r.(ioevents) r.(budget).
Definition upd_mem (h : (Z -> Z) -> (Z -> Z)) (r : kernel) : kernel :=
  Kernel r.(hw) r.(cpus) r.(ncpu) r.(locks) r.(sleeplocks) r.(ptable) r.(nextpid)
    r.(initproc) r.(proc_quantum) r.(forkret_first) r.(ticks) (h (r.(mem)))
    r.(use_lock) r.(freelist) r.(kpgdir) r.(mt) r.(mti) r.(ftable) r.(pipes)
    r.(bcache) r.(klog) r.(sb) r.(icache) r.(devsw) r.(disk) r.(disksize) r.(dwrites)
    r.(idequeue) r.(havedisk1) r.(cons_locking) r.(panicked) r.(input) r.(console)
    r.(idt) r.(lapic) r.(ioapicid) r.(uart) r.(kbdshift) r.(ioevents) r.(budget).
Definition upd_use_lock (h : Z -> Z) (r : kernel) : kernel :=
  Kernel r.(hw) r.(cpus) r.(ncpu) r.(locks) r.(sleeplocks) r.(ptable) r.(nextpid)
    r.(initproc) r.(proc_quantum) r.(forkret_first) r.(ticks) r.(mem) (h (r.(use_lock))) r.(freelist) r.(kpgdir) r.(mt) r.(mti) r.(ftable) r.(pipes)
    r.(bcache) r.(klog) r.(sb) r.(icache) r.(devsw) r.(disk) r.(disksize) r.(dwrites)
    r.(idequeue) r.(havedisk1) r.(cons_locking) r.(panicked) r.(input) r.(console)
    r.(idt) r.(lapic) r.(ioapicid) r.(uart) r.(kbdshift) r.(ioevents) r.(budget).
Definition upd_freelist (h : Z -> Z) (r : kernel) : kernel :=
  Kernel r.(hw) r.(cpus) r.(ncpu) r.(locks) r.(sleeplocks) r.(ptable) r.(nextpid)
    r.(initproc) r.(proc_quantum) r.(forkret_first) r.(ticks) r.(mem) r.(use_lock) (h (r.(freelist))) r.(kpgdir) r.(mt) r.(mti) r.(ftable) r.(pipes) r.(bcache) r.(klog)
    r.(sb) r.(icache) r.(devsw) r.(disk) r.(disksize) r.(dwrites) r.(idequeue)
    r.(havedisk1) r.(cons_locking) r.(panicked) r.(input) r.(console) r.(idt)
    r.(lapic) r.(ioapicid) r.(uart) r.(kbdshift) r.(ioevents) r.(budget).
Definition upd_kpgdir (h : Z -> Z) (r : kernel) : kernel :=
  Kernel r.(hw) r.(cpus) r.(ncpu) r.(locks) r.(sleeplocks) r.(ptable) r.(nextpid)
    r.(initproc) r.(proc_quantum) r.(forkret_first) r.(ticks) r.(mem) r.(use_lock)
    r.(freelist) (h (r.(kpgdir))) r.(mt) r.(mti) r.(ftable) r.(pipes) r.(bcache)
    r.(klog) r.(sb) r.(icache) r.(devsw) r.(disk) r.(disksize) r.(dwrites)
    r.(idequeue) r.(havedisk1) r.(cons_locking) r.(panicked) r.(input) r.(console)
    r.(idt) r.(lapic) r.(ioapicid) r.(uart) r.(kbdshift) r.(ioevents) r.(budget).
Definition upd_mt (h : list Z -> list Z) (r : kernel) : kernel :=
  Kernel r.(hw) r.(cpus) r.(ncpu) r.(locks) r.(sleeplocks) r.(ptable) r.(nextpid)
    r.(initproc) r.(proc_quantum) r.(forkret_first) r.(ticks) r.(mem) r.(use_lock)
    r.(freelist) r.(kpgdir) (h (r.(mt))) r.(mti) r.(ftable) r.(pipes) r.(bcache)
    r.(klog) r.(sb) r.(icache) r.(devsw) r.(disk) r.(disksize) r.(dwrites)
    r.(idequeue) r.(havedisk1) r.(cons_locking) r.(panicked) r.(input) r.(console)
    r.(idt) r.(lapic) r.(ioapicid) r.(uart) r.(kbdshift) r.(ioevents) r.(budget).
Definition upd_mti (h : Z -> Z) (r : kernel) : kernel :=
  Kernel r.(hw) r.(cpus) r.(ncpu) r.(locks) r.(sleeplocks) r.(ptable) r.(nextpid)
    r.(initproc) r.(proc_quantum) r.(forkret_first) r.(ticks) r.(mem) r.(use_lock)
    r.(freelist) r.(kpgdir) r.(mt) (h (r.(mti))) r.(ftable) r.(pipes) r.(bcache)
    r.(klog) r.(sb) r.(icache) r.(devsw) r.(disk) r.(disksize) r.(dwrites)
    r.(idequeue) r.(havedisk1) r.(cons_locking) r.(panicked) r.(input) r.(console)
    r.(idt) r.(lapic) r.(ioapicid) r.(uart) r.(kbdshift) r.(ioevents) r.(budget).
Definition upd_ftable (h : list file -> list file) (r : kernel) : kernel :=
  Kernel r.(hw) r.(cpus) r.(ncpu) r.(locks) r.(sleeplocks) r.(ptable) r.(nextpid)
    r.(initproc) r.(proc_quantum) r.(forkret_first) r.(ticks) r.(mem) r.(use_lock)
    r.(freelist) r.(kpgdir) r.(mt) r.(mti) (h (r.(ftable))) r.(pipes) r.(bcache)
    r.(klog) r.(sb) r.(icache) r.(devsw) r.(disk) r.(disksize) r.(dwrites)
    r.(idequeue) r.(havedisk1) r.(cons_locking) r.(panicked) r.(input) r.(console)
    r.(idt) r.(lapic) r.(ioapicid) r.(uart) r.(kbdshift) r.(ioevents) r.(budget).
Definition upd_pipes (h : (Z -> pipe) -> (Z -> pipe)) (r : kernel) : kernel :=
  Kernel r.(hw) r.(cpus) r.(ncpu) r.(locks) r.(sleeplocks) r.(ptable) r.(nextpid)
    r.(initproc) r.(proc_quantum) r.(forkret_first) r.(ticks) r.(mem) r.(use_lock)
    r.(freelist) r.(kpgdir) r.(mt) r.(mti) r.(ftable) (h (r.(pipes))) r.(bcache)
    r.(klog) r.(sb) r.(icache) r.(devsw) r.(disk) r.(disksize) r.(dwrites)
    r.(idequeue) r.(havedisk1) r.(cons_locking) r.(panicked) r.(input) r.(console)
    r.(idt) r.(lapic) r.(ioapicid) r.(uart) r.(kbdshift) r.(ioevents) r.(budget).
Definition upd_bcache (h : list buf -> list buf) (r : kernel) : kernel :=
  Kernel r.(hw) r.(cpus) r.(ncpu) r.(locks) r.(sleeplocks) r.(ptable) r.(nextpid)
    r.(initproc) r.(proc_quantum) r.(forkret_first) r.(ticks) r.(mem) r.(use_lock)
    r.(freelist) r.(kpgdir) r.(mt) r.(mti) r.(ftable) r.(pipes) (h (r.(bcache)))
    r.(klog) r.(sb) r.(icache) r.(devsw) r.(disk) r.(disksize) r.(dwrites)
    r.(idequeue) r.(havedisk1) r.(cons_locking) r.(panicked) r.(input) r.(console)
    r.(idt) r.(lapic) r.(ioapicid) r.(uart) r.(kbdshift) r.(ioevents) r.(budget).
Definition upd_klog (h : log -> log) (r : kernel) : kernel :=
  Kernel r.(hw) r.(cpus) r.(ncpu) r.(locks) r.(sleeplocks) r.(ptable) r.(nextpid)
    r.(initproc) r.(proc_quantum) r.(forkret_first) r.(ticks) r.(mem) r.(use_lock)
    r.(freelist) r.(kpgdir) r.(mt) r.(mti) r.(ftable) r.(pipes) r.(bcache) (h (r.(klog))) r.(sb) r.(icache) r.(devsw) r.(disk) r.(disksize) r.(dwrites)
    r.(idequeue) r.(havedisk1) r.(cons_locking) r.(panicked) r.(input) r.(console)
    r.(idt) r.(lapic) r.(ioapicid) r.(uart) r.(kbdshift) r.(ioevents) r.(budget).
Definition upd_sb (h : superblock -> superblock) (r : kernel) : kernel :=
  Kernel r.(hw) r.(cpus) r.(ncpu) r.(locks) r.(sleeplocks) r.(ptable) r.(nextpid)
    r.(initproc) r.(proc_quantum) r.(forkret_first) r.(ticks) r.(mem) r.(use_lock)
    r.(freelist) r.(kpgdir) r.(mt) r.(mti) r.(ftable) r.(pipes) r.(bcache) r.(klog) (h (r.(sb))) r.(icache) r.(devsw) r.(disk) r.(disksize) r.(dwrites) r.(idequeue)
    r.(havedisk1) r.(cons_locking) r.(panicked) r.(input) r.(console) r.(idt)
    r.(lapic) r.(ioapicid) r.(uart) r.(kbdshift) r.(ioevents) r.(budget).
Definition upd_icache (h : list inode -> list inode) (r : kernel) : kernel :=
  Kernel r.(hw) r.(cpus) r.(ncpu) r.(locks) r.(sleeplocks) r.(ptable) r.(nextpid)
    r.(initproc) r.(proc_quantum) r.(forkret_first) r.(ticks) r.(mem) r.(use_lock)
    r.(freelist) r.(kpgdir) r.(mt) r.(mti) r.(ftable) r.(pipes) r.(bcache) r.(klog)
    r.(sb) (h (r.(icache))) r.(devsw) r.(disk) r.(disksize) r.(dwrites) r.(idequeue)
    r.(havedisk1) r.(cons_locking) r.(panicked) r.(input) r.(console) r.(idt)
    r.(lapic) r.(ioapicid) r.(uart) r.(kbdshift) r.(ioevents) r.(budget).
Definition upd_devsw (h : list (option devid) -> list (option devid)) (r : kernel) : kernel :=
  Kernel r.(hw) r.(cpus) r.(ncpu) r.(locks) r.(sleeplocks) r.(ptable) r.(nextpid)
    r.(initproc) r.(proc_quantum) r.(forkret_first) r.(ticks) r.(mem) r.(use_lock)
    r.(freelist) r.(kpgdir) r.(mt) r.(mti) r.(ftable) r.(pipes) r.(bcache) r.(klog)
    r.(sb) r.(icache) (h (r.(devsw))) r.(disk) r.(disksize) r.(dwrites) r.(idequeue)
    r.(havedisk1) r.(cons_locking) r.(panicked) r.(input) r.(console) r.(idt)
    r.(lapic) r.(ioapicid) r.(uart) r.(kbdshift) r.(ioevents) r.(budget).
Definition upd_disk (h : (Z -> list Z) -> (Z -> list Z)) (r : kernel) : kernel :=
  Kernel r.(hw) r.(cpus) r.(ncpu) r.(locks) r.(sleeplocks) r.(ptable) r.(nextpid)
    r.(initproc) r.(proc_quantum) r.(forkret_first) r.(ticks) r.(mem) r.(use_lock)
    r.(freelist) r.(kpgdir) r.(mt) r.(mti) r.(ftable) r.(pipes) r.(bcache) r.(klog)
    r.(sb) r.(icache) r.(devsw) (h (r.(disk))) r.(disksize) r.(dwrites) r.(idequeue)
    r.(havedisk1) r.(cons_locking) r.(panicked) r.(input) r.(console) r.(idt)
    r.(lapic) r.(ioapicid) r.(uart) r.(kbdshift) r.(ioevents) r.(budget).
Definition upd_disksize (h : Z -> Z) (r : kernel) : kernel :=
  Kernel r.(hw) r.(cpus) r.(ncpu) r.(locks) r.(sleeplocks) r.(ptable) r.(nextpid)
    r.(initproc) r.(proc_quantum) r.(forkret_first) r.(ticks) r.(mem) r.(use_lock)
    r.(freelist) r.(kpgdir) r.(mt) r.(mti) r.(ftable) r.(pipes) r.(bcache) r.(klog)
    r.(sb) r.(icache) r.(devsw) r.(disk) (h (r.(disksize))) r.(dwrites) r.(idequeue)
    r.(havedisk1) r.(cons_locking) r.(panicked) r.(input) r.(console) r.(idt)
    r.(lapic) r.(ioapicid) r.(uart) r.(kbdshift) r.(ioevents) r.(budget).
Definition upd_dwrites (h : list (Z * list Z) -> list (Z * list Z)) (r : kernel) : kernel :=
  Kernel r.(hw) r.(cpus) r.(ncpu) r.(locks) r.(sleeplocks) r.(ptable) r.(nextpid)
    r.(initproc) r.(proc_quantum) r.(forkret_first) r.(ticks) r.(mem) r.(use_lock)
    r.(freelist) r.(kpgdir) r.(mt) r.(mti) r.(ftable) r.(pipes) r.(bcache) r.(klog)
    r.(sb) r.(icache) r.(devsw) r.(disk) r.(disksize) (h (r.(dwrites))) r.(idequeue)
    r.(havedisk1) r.(cons_locking) r.(panicked) r.(input) r.(console) r.(idt)
    r.(lapic) r.(ioapicid) r.(uart) r.(kbdshift) r.(ioevents) r.(budget).
Definition upd_idequeue (h : option nat -> option nat) (r : kernel) : kernel :=
  Kernel r.(hw) r.(cpus) r.(ncpu) r.(locks) r.(sleeplocks) r.(ptable) r.(nextpid)
    r.(initproc) r.(proc_quantum) r.(forkret_first) r.(ticks) r.(mem) r.(use_lock)
    r.(freelist) r.(kpgdir) r.(mt) r.(mti) r.(ftable) r.(pipes) r.(bcache) r.(klog)
    r.(sb) r.(icache) r.(devsw) r.(disk) r.(disksize) r.(dwrites) (h (r.(idequeue)))
    r.(havedisk1) r.(cons_locking) r.(panicked) r.(input) r.(console) r.(idt)
    r.(lapic) r.(ioapicid) r.(uart) r.(kbdshift) r.(ioevents) r.(budget).
Definition upd_havedisk1 (h : Z -> Z) (r : kernel) : kernel :=
  Kernel r.(hw) r.(cpus) r.(ncpu) r.(locks) r.(sleeplocks) r.(ptable) r.(nextpid)
    r.(initproc) r.(proc_quantum) r.(forkret_first) r.(ticks) r.(mem) r.(use_lock)
    r.(freelist) r.(kpgdir) r.(mt) r.(mti) r.(ftable) r.(pipes) r.(bcache) r.(klog)
    r.(sb) r.(icache) r.(devsw) r.(disk) r.(disksize) r.(dwrites) r.(idequeue) (h (r.(havedisk1))) r.(cons_locking) r.(panicked) r.(input) r.(console) r.(idt)
    r.(lapic) r.(ioapicid) r.(uart) r.(kbdshift) r.(ioevents) r.(budget).
Definition upd_cons_locking (h : Z -> Z) (r : kernel) : kernel :=
  Kernel r.(hw) r.(cpus) r.(ncpu) r.(locks) r.(sleeplocks) r.(ptable) r.(nextpid)
    r.(initproc) r.(proc_quantum) r.(forkret_first) r.(ticks) r.(mem) r.(use_lock)
    r.(freelist) r.(kpgdir) r.(mt) r.(mti) r.(ftable) r.(pipes) r.(bcache) r.(klog)
    r.(sb) r.(icache) r.(devsw) r.(disk) r.(disksize) r.(dwrites) r.(idequeue)
    r.(havedisk1) (h (r.(cons_locking))) r.(panicked) r.(input) r.(console) r.(idt)
    r.(lapic) r.(ioapicid) r.(uart) r.(kbdshift) r.(ioevents) r.(budget).
Definition upd_panicked (h : Z -> Z) (r : kernel) : kernel :=
  Kernel r.(hw) r.(cpus) r.(ncpu) r.(locks) r.(sleeplocks) r.(ptable) r.(nextpid)
    r.(initproc) r.(proc_quantum) r.(forkret_first) r.(ticks) r.(mem) r.(use_lock)
    r.(freelist) r.(kpgdir) r.(mt) r.(mti) r.(ftable) r.(pipes) r.(bcache) r.(klog)
    r.(sb) r.(icache) r.(devsw) r.(disk) r.(disksize) r.(dwrites) r.(idequeue)
    r.(havedisk1) r.(cons_locking) (h (r.(panicked))) r.(input) r.(console) r.(idt)
    r.(lapic) r.(ioapicid) r.(uart) r.(kbdshift) r.(ioevents) r.(budget).
Definition upd_input (h : inputbuf -> inputbuf) (r : kernel) : kernel :=
  Kernel r.(hw) r.(cpus) r.(ncpu) r.(locks) r.(sleeplocks) r.(ptable) r.(nextpid)
    r.(initproc) r.(proc_quantum) r.(forkret_first) r.(ticks) r.(mem) r.(use_lock)
    r.(freelist) r.(kpgdir) r.(mt) r.(mti) r.(ftable) r.(pipes) r.(bcache) r.(klog)
    r.(sb) r.(icache) r.(devsw) r.(disk) r.(disksize) r.(dwrites) r.(idequeue)
    r.(havedisk1) r.(cons_locking) r.(panicked) (h (r.(input))) r.(console) r.(idt)
    r.(lapic) r.(ioapicid) r.(uart) r.(kbdshift) r.(ioevents) r.(budget).
Definition upd_console (h : list Z -> list Z) (r : kernel) : kernel :=
  Kernel r.(hw) r.(cpus) r.(ncpu) r.(locks) r.(sleeplocks) r.(ptable) r.(nextpid)
    r.(initproc) r.(proc_quantum) r.(forkret_first) r.(ticks) r.(mem) r.(use_lock)
    r.(freelist) r.(kpgdir) r.(mt) r.(mti) r.(ftable) r.(pipes) r.(bcache) r.(klog)
    r.(sb) r.(icache) r.(devsw) r.(disk) r.(disksize) r.(dwrites) r.(idequeue)
    r.(havedisk1) r.(cons_locking) r.(panicked) r.(input) (h (r.(console))) r.(idt)
    r.(lapic) r.(ioapicid) r.(uart) r.(kbdshift) r.(ioevents) r.(budget).
Definition upd_idt (h : list gatedesc -> list gatedesc) (r : kernel) : kernel :=
  Kernel r.(hw) r.(cpus) r.(ncpu) r.(locks) r.(sleeplocks) r.(ptable) r.(nextpid)
    r.(initproc) r.(proc_quantum) r.(forkret_first) r.(ticks) r.(mem) r.(use_lock)
    r.(freelist) r.(kpgdir) r.(mt) r.(mti) r.(ftable) r.(pipes) r.(bcache) r.(klog)
    r.(sb) r.(icache) r.(devsw) r.(disk) r.(disksize) r.(dwrites) r.(idequeue)
    r.(havedisk1) r.(cons_locking) r.(panicked) r.(input) r.(console) (h (r.(idt)))
    r.(lapic) r.(ioapicid) r.(uart) r.(kbdshift) r.(ioevents) r.(budget).
Definition upd_lapic (h : Z -> Z) (r : kernel) : kernel :=
  Kernel r.(hw) r.(cpus) r.(ncpu) r.(locks) r.(sleeplocks) r.(ptable) r.(nextpid)
    r.(initproc) r.(proc_quantum) r.(forkret_first) r.(ticks) r.(mem) r.(use_lock)
    r.(freelist) r.(kpgdir) r.(mt) r.(mti) r.(ftable) r.(pipes) r.(bcache) r.(klog)
    r.(sb) r.(icache) r.(devsw) r.(disk) r.(disksize) r.(dwrites) r.(idequeue)
    r.(havedisk1) r.(cons_locking) r.(panicked) r.(input) r.(console) r.(idt) (h (r.(lapic))) r.(ioapicid) r.(uart) r.(kbdshift) r.(ioevents) r.(budget).
Definition upd_ioapicid (h : Z -> Z) (r : kernel) : kernel :=
  Kernel r.(hw) r.(cpus) r.(ncpu) r.(locks) r.(sleeplocks) r.(ptable) r.(nextpid)
    r.(initproc) r.(proc_quantum) r.(forkret_first) r.(ticks) r.(mem) r.(use_lock)
    r.(freelist) r.(kpgdir) r.(mt) r.(mti) r.(ftable) r.(pipes) r.(bcache) r.(klog)
    r.(sb) r.(icache) r.(devsw) r.(disk) r.(disksize) r.(dwrites) r.(idequeue)
    r.(havedisk1) r.(cons_locking) r.(panicked) r.(input) r.(console) r.(idt)
    r.(lapic) (h (r.(ioapicid))) r.(uart) r.(kbdshift) r.(ioevents) r.(budget).
Definition upd_uart (h : Z -> Z) (r : kernel) : kernel :=
  Kernel r.(hw) r.(cpus) r.(ncpu) r.(locks) r.(sleeplocks) r.(ptable) r.(nextpid)
    r.(initproc) r.(proc_quantum) r.(forkret_first) r.(ticks) r.(mem) r.(use_lock)
    r.(freelist) r.(kpgdir) r.(mt) r.(mti) r.(ftable) r.(pipes) r.(bcache) r.(klog)
    r.(sb) r.(icache) r.(devsw) r.(disk) r.(disksize) r.(dwrites) r.(idequeue)
    r.(havedisk1) r.(cons_locking) r.(panicked) r.(input) r.(console) r.(idt)
    r.(lapic) r.(ioapicid) (h (r.(uart))) r.(kbdshift) r.(ioevents) r.(budget).
Definition upd_kbdshift (h : Z -> Z) (r : kernel) : kernel :=
  Kernel r.(hw) r.(cpus) r.(ncpu) r.(locks) r.(sleeplocks) r.(ptable) r.(nextpid)
    r.(initproc) r.(proc_quantum) r.(forkret_first) r.(ticks) r.(mem) r.(use_lock)
    r.(freelist) r.(kpgdir) r.(mt) r.(mti) r.(ftable) r.(pipes) r.(bcache) r.(klog)
    r.(sb) r.(icache) r.(devsw) r.(disk) r.(disksize) r.(dwrites) r.(idequeue)
    r.(havedisk1) r.(cons_locking) r.(panicked) r.(input) r.(console) r.(idt)
    r.(lapic) r.(ioapicid) r.(uart) (h (r.(kbdshift))) r.(ioevents) r.(budget).
Definition upd_ioevents (h : list ioevent -> list ioevent) (r : kernel) : kernel :=
  Kernel r.(hw) r.(cpus) r.(ncpu) r.(locks) r.(sleeplocks) r.(ptable) r.(nextpid)
    r.(initproc) r.(proc_quantum) r.(forkret_first) r.(ticks) r.(mem) r.(use_lock)
    r.(freelist) r.(kpgdir) r.(mt) r.(mti) r.(ftable) r.(pipes) r.(bcache) r.(klog)
    r.(sb) r.(icache) r.(devsw) r.(disk) r.(disksize) r.(dwrites) r.(idequeue)
    r.(havedisk1) r.(cons_locking) r.(panicked) r.(input) r.(console) r.(idt)
    r.(lapic) r.(ioapicid) r.(uart) r.(kbdshift) (h (r.(ioevents))) r.(budget).
Definition upd_budget (h : nat -> nat) (r : kernel) : kernel :=
  Kernel r.(hw) r.(cpus) r.(ncpu) r.(locks) r.(sleeplocks) r.(ptable) r.(nextpid)
    r.(initproc) r.(proc_quantum) r.(forkret_first) r.(ticks) r.(mem) r.(use_lock)
    r.(freelist) r.(kpgdir) r.(mt) r.(mti) r.(ftable) r.(pipes) r.(bcache) r.(klog)
    r.(sb) r.(icache) r.(devsw) r.(disk) r.(disksize) r.(dwrites) r.(idequeue)
    r.(havedisk1) r.(cons_locking) r.(panicked) r.(input) r.(console) r.(idt)
    r.(lapic) r.(ioapicid) r.(uart) r.(kbdshift) r.(ioevents) (h (r.(budget))).

(** Two states with equal fields are equal. *)
Lemma kernel_ext (k1 k2 : kernel) :
  hw k1 = hw k2 ->
  cpus k1 = cpus k2 ->
  ncpu k1 = ncpu k2 ->
  locks k1 = locks k2 ->
  sleeplocks k1 = sleeplocks k2 ->
  ptable k1 = ptable k2 ->
  nextpid k1 = nextpid k2 ->
  initproc k1 = initproc k2 ->
  proc_quantum k1 = proc_quantum k2 ->
  forkret_first k1 = forkret_first k2 ->
  ticks k1 = ticks k2 ->
  mem k1 = mem k2 ->
  use_lock k1 = use_lock k2 ->
  freelist k1 = freelist k2 ->
  kpgdir k1 = kpgdir k2 ->
  mt k1 = mt k2 ->
  mti k1 = mti k2 ->
  ftable k1 = ftable k2 ->
  pipes k1 = pipes k2 ->
  bcache k1 = bcache k2 ->
  klog k1 = klog k2 ->
  sb k1 = sb k2 ->
  icache k1 = icache k2 ->
  devsw k1 = devsw k2 ->
  disk k1 = disk k2 ->
  disksize k1 = disksize k2 ->
  dwrites k1 = dwrites k2 ->
  idequeue k1 = idequeue k2 ->
  havedisk1 k1 = havedisk1 k2 ->
  cons_locking k1 = cons_locking k2 ->
  panicked k1 = panicked k2 ->
  input k1 = input k2 ->
  console k1 = console k2 ->
  idt k1 = idt k2 ->
  lapic k1 = lapic k2 ->
  ioapicid k1 = ioapicid k2 ->
  uart k1 = uart k2 ->
  kbdshift k1 = kbdshift k2 ->
  ioevents k1 = ioevents k2 ->
  budget k1 = budget k2 ->
  k1 = k2.
Proof. destruct k1, k2; simpl; intros; subst; reflexivity. Qed.

(** Simplifies a projection of an updated record, whichever field the update
    touches. *)
Ltac rec_simpl :=
  repeat match goal with
  | |- context [?P (?S ?h ?r)] =>
      first
        [ progress change (P (S h r)) with (P r)
        | progress change (P (S h r)) with (h (P r)) ]
  end; cbv beta.

(** Equality of two states, field by field. *)
Ltac kernel_eq := apply kernel_ext; try reflexivity; rec_simpl.

(** ** The monad of kernel code

    A call returns a value, panics, spins on a lock another CPU holds, is
    still asleep when the budget of context switches is used up, takes a CPU
    exception (an address out of range, a division by zero), or has a loop
    that goes on after the iterations its definition allows. *)

Inductive outcome (A : Type) : Type :=
| Ret (a : A) (k : kernel)
| Panic (msg : string) (k : kernel)
| Spin (l : lockid) (k : kernel)
| Blocked (k : kernel)
| Fault (msg : string) (k : kernel)
| Diverge (k : kernel).
Arguments Ret {A} a k.
Arguments Panic {A} msg k.
Arguments Spin {A} l k.
Arguments Blocked {A} k.
Arguments Fault {A} msg k.
Arguments Diverge {A} k.

Definition M (A : Type) : Type := kernel -> outcome A.

Definition ret {A} (a : A) : M A := fun k => Ret a k.
Definition bind {A B} (m : M A) (f : A -> M B) : M B := fun k =>
  match m k with
  | Ret a k' => f a k'
  | Panic s k' => Panic s k'
  | Spin l k' => Spin l k'
  | Blocked k' => Blocked k'
  | Fault s k' => Fault s k'
  | Diverge k' => Diverge k'
  end.
Definition panic {A} (msg : string) : M A := fun k => Panic msg k.
Definition fault {A} (msg : string) : M A := fun k => Fault msg k.
Definition gets {A} (f : kernel -> A) : M A := fun k => Ret (f k) k.
Definition modify (f : kernel -> kernel) : M unit := fun k => Ret tt (f k).

Notation "'let*' x ':=' m 'in' f" := (bind m (fun x => f))
  (at level 10, x name, m at level 100, f at level 200) : xv6_scope.
Notation "'let*' ' p ':=' m 'in' f" := (bind m (fun x => match x with p => f end))
  (at level 10, p pattern, m at level 100, f at level 200) : xv6_scope.
Notation "m1 ';;' m2" := (bind m1 (fun _ => m2))
  (at level 100, m2 at level 200, right associativity) : xv6_scope.
Open Scope xv6_scope.

Definition when (b : bool) (m : M unit) : M unit := if b then m else ret tt.

(** [for(i ...) body], and the same loop left by a [return] in the body. *)
Fixpoint for_each {I} (l : list I) (body : I -> M unit) : M unit :=
  match l with
  | [] => ret tt
  | i :: l => body i ;; for_each l body
  end.

Fixpoint for_find {I B} (l : list I) (body : I -> M (option B)) : M (option B) :=
  match l with
  | [] => ret None
  | i :: l =>
      let* r := body i in
      match r with
      | Some b => ret (Some b)
      | None => for_find l body
      end
  end.

(** A loop with local variables [s]. *)
Fixpoint for_fold {I S} (l : list I) (body : I -> S -> M S) (s : S) : M S :=
  match l with
  | [] => ret s
  | i :: l => let* s := body i s in for_fold l body s
  end.

(** Both: local variables [s], and a [return] in the body. *)
Fixpoint for_return {I S B} (l : list I) (body : I -> S -> M (S + B)) (s : S) : M (S + B) :=
  match l with
  | [] => ret (inl s)
  | i :: l =>
      let* r := body i s in
      match r with
      | inl s => for_return l body s
      | inr b => ret (inr b)
      end
  end.

(** A loop whose iterations the code does not count: [body] says whether to go
    on with new local variables or to leave the loop with a result. *)
Fixpoint iter {S B} (fuel : nat) (body : S -> M (S + B)) (s : S) : M B :=
  match fuel with
  | O => fun k => Diverge k
  | Datatypes.S fuel =>
      let* r := body s in
      match r with
      | inl s => iter fuel body s
      | inr b => ret b
      end
  end.

(** A loop that sleeps in every iteration but the last cannot go round more
    often than the budget of context switches allows. *)
Definition sleep_loop {B} (body : M (option B)) : M B :=
  let* n := gets budget in
  iter (S n) (fun _ => let* r := body in
                       ret (match r with Some b => inr b | None => inl tt end)) tt.

(** [for(i = 0; i < bound; i++) body] where the code evaluates the bound again
    in every iteration. *)
Definition for_lt (fuel : nat) (bound : M Z) (body : Z -> M unit) : M unit :=
  iter fuel (fun i =>
    let* n := bound in
    if i <? n then body i ;; ret (inl (i + 1)) else ret (inr tt)) 0.

(** Words of kernel memory. *)
Definition ld32 (a : Z) : M Z := gets (fun k => load32 (mem k) a).
Definition st32 (a v : Z) : M unit := modify (upd_mem (store32 a v)).
Definition ld16 (a : Z) : M Z := gets (fun k => load16 (mem k) a).
Definition st16 (a v : Z) : M unit := modify (upd_mem (store16 a v)).

(** A slot of a table; an index outside it is an access outside the array. *)
Definition slot {A} (what : string) (t : kernel -> list A) (i : nat) : M A := fun k =>
  match t k !! i with
  | Some a => Ret a k
  | None => Fault what k
  end.

(** Writing to a slot, likewise. *)
Definition put_slot {A} (what : string) (t : kernel -> list A) (upd : (list A -> list A) -> kernel -> kernel)
    (i : nat) (f : A -> A) : M unit := fun k =>
  match t k !! i with
  | Some _ => Ret tt (upd (alter f i) k)
  | None => Fault what k
  end.

(** An element of an array inside a structure, and the check that a write to it
    stays inside the array. *)
Definition elem_at {A} (what : string) (l : list A) (i : Z) : M A :=
  if i <? 0 then fault what else
  match l !! Z.to_nat i with
  | Some a => ret a
  | None => fault what
  end.
Definition in_array {A} (what : string) (l : list A) (i : Z) : M unit :=
  if (0 <=? i) && (i <? Z.of_nat (length l)) then ret tt else fault what.

Definition get_proc (i : nat) : M proc := slot "ptable.proc" ptable i.
Definition set_proc (i : nat) (f : proc -> proc) : M unit := put_slot "ptable.proc" ptable upd_ptable i f.

Definition procs : list nat := seq 0 NPROC.

(** ** The rest of the machine

    What the code takes from outside: the scheduler the build selects
    ([-D LOTTERY] or [-D PRIORITY]), the addresses the linker assigns (of
    [data], [end], [trapret], [forkret], the task state of each CPU and the
    trap vectors), the binary of initcode.S that is linked in, and
    [interfere], which stands for the other processes and CPUs: it maps the
    state at the [n]-th context switch before the end of the run to the state
    in which the process is next resumed. *)
Inductive scheduler_kind := LOTTERY | PRIORITY.

Class Machine := {
  SCHEDULER : scheduler_kind;
  ld_data : Z;
  ld_end : Z;
  ld_trapret : Z;
  ld_forkret : Z;
  ts_addr : nat -> Z;
  vectors : nat -> Z;
  initcode : list Z;
  interfere : nat -> kernel -> kernel;
}.

(** [swtch(&old, new)]: the others run until this context is resumed. *)
Definition swtch `{Machine} : M unit := fun k =>
  match budget k with
  | O => Blocked k
  | S n => Ret tt (upd_budget (fun _ => n) (interfere n k))
  end.

(** ** Running the monad *)

Lemma bind_Ret {A B} (m : M A) (f : A -> M B) k a k' :
  m k = Ret a k' -> bind m f k = f a k'.
Proof. intros H. unfold bind. by rewrite H. Qed.

Lemma bind_Panic {A B} (m : M A) (f : A -> M B) k s k' :
  m k = Panic s k' -> bind m f k = Panic s k'.
Proof. intros H. unfold bind. by rewrite H. Qed.

Lemma bind_assoc {A B C} (m : M A) (f : A -> M B) (g : B -> M C) k :
  bind (bind m f) g k = bind m (fun a => bind (f a) g) k.
Proof. unfold bind. by destruct (m k). Qed.

Lemma bind_Ret_inv {A B} (m : M A) (f : A -> M B) k b k'' :
  bind m f k = Ret b k'' -> exists a k', m k = Ret a k' /\ f a k' = Ret b k''.
Proof. unfold bind. destruct (m k); naive_solver. Qed.

Lemma slot_eq {A} what (t : kernel -> list A) i k a :
  t k !! i = Some a -> slot what t i k = Ret a k.
Proof. intros H. unfold slot. by rewrite H. Qed.

(** A loop whose body always returns, with its effect given by [step], while
    [ok] holds of the state. *)
Lemma for_each_Ret {I} (body : I -> M unit) (step : I -> kernel -> kernel)
    (ok : kernel -> Prop) l k :
  (forall i k, i ∈ l -> ok k -> body i k = Ret tt (step i k) /\ ok (step i k)) ->
  ok k ->
  for_each l body k = Ret tt (foldl (fun k i => step i k) k l).
Proof.
  revert k. induction l as [|i l IH]; intros k Hbody Hok; [done|]. simpl.
  destruct (Hbody i k) as [Hi Hok']; [left | done |].
  rewrite (bind_Ret _ _ _ _ _ Hi). apply IH; [|done].
  intros j k' Hj. apply Hbody. by right.
Qed.

Lemma for_each_skip {I} (body : I -> M unit) l1 l2 k :
  (forall i, i ∈ l1 -> body i k = Ret tt k) ->
  for_each (l1 ++ l2) body k = for_each l2 body k.
Proof.
  induction l1 as [|i l1 IH]; intros H; [done|]. simpl.
  rewrite (bind_Ret _ _ _ _ _ (H i (list_elem_of_here _ _))).
  apply IH. intros j Hj. apply H. by right.
Qed.

Lemma for_fold_Ret {I S} (body : I -> S -> M S) (step : I -> S -> S) l s k :
  (forall i s, i ∈ l -> body i s k = Ret (step i s) k) ->
  for_fold l body s k = Ret (foldl (fun s i => step i s) s l) k.
Proof.
  revert s. induction l as [|i l IH]; intros s H; [done|]. simpl.
  rewrite (bind_Ret _ _ _ _ _ (H i s (list_elem_of_here _ _))).
  apply IH. intros j s' Hj. apply H. by right.
Qed.

(** A searching loop whose body leaves the state alone until it finds. *)
Lemma for_find_None {I B} (body : I -> M (option B)) l k :
  (forall i, i ∈ l -> body i k = Ret None k) -> for_find l body k = Ret None k.
Proof.
  induction l as [|i l IH]; intros H; [done|]. simpl.
  rewrite (bind_Ret _ _ _ _ _ (H i (list_elem_of_here _ _))).
  apply IH. intros j Hj. apply H. by right.
Qed.

Lemma for_find_app {I B} (body : I -> M (option B)) l1 l2 k :
  (forall i, i ∈ l1 -> body i k = Ret None k) ->
  for_find (l1 ++ l2) body k = for_find l2 body k.
Proof.
  induction l1 as [|i l1 IH]; intros H; [done|]. simpl.
  rewrite (bind_Ret _ _ _ _ _ (H i (list_elem_of_here _ _))).
  apply IH. intros j Hj. apply H. by right.
Qed.

(** The loop [for(i...) if(p(t[i])) return i;] finds the first such slot. *)
Lemma for_find_index {A} (what : string) (t : kernel -> list A) (p : A -> bool) n k :
  (n <= length (t k))%nat ->
  for_find (seq 0 n)
    (fun i => let* a := slot what t i in ret (if p a then Some i else None)) k
  = Ret (find_index p (take n (t k))) k.
Proof.
  set (body := fun i => bind (slot what t i) _).
  enough (forall n j, (j + n <= length (t k))%nat ->
    for_find (seq j n) body k = Ret (Nat.add j <$> find_index p (take n (drop j (t k)))) k) as H.
  { intros Hn. rewrite (H n 0%nat) by lia. rewrite drop_0. by destruct (find_index _ _). }
  clear n. induction n as [|n IH]; intros j Hj; [done|]. simpl seq. simpl for_find.
  destruct (lookup_lt_is_Some_2 (t k) j) as [a Ha]; [lia|].
  rewrite (drop_S _ _ _ Ha). simpl. unfold body at 1.
  erewrite bind_Ret; [|by erewrite bind_Ret; [|by apply slot_eq]].
  destruct (p a); simpl.
  - by rewrite Nat.add_0_r.
  - rewrite IH by lia. destruct (find_index _ _) as [i|]; simpl; [|done].
    by rewrite Nat.add_succ_r.
Qed.

(** ** Symbolic execution

    [mrun] runs the primitive steps at the head of the goal's left-hand side;
    [mcall H] runs a call whose outcome [H] gives. *)

Lemma bind_ret {A B} (a : A) (f : A -> M B) k : bind (ret a) f k = f a k.
Proof. reflexivity. Qed.
Lemma bind_gets {A B} (g : kernel -> A) (f : A -> M B) k : bind (gets g) f k = f (g k) k.
Proof. reflexivity. Qed.
Lemma bind_modify {B} g (f : unit -> M B) k : bind (modify g) f k = f tt (g k).
Proof. reflexivity. Qed.
Lemma bind_when_true {B} m (f : unit -> M B) k : bind (when true m) f k = bind m f k.
Proof. reflexivity. Qed.
Lemma bind_when_false {B} m (f : unit -> M B) k : bind (when false m) f k = f tt k.
Proof. reflexivity. Qed.
Lemma put_slot_eq {A} what (t : kernel -> list A) upd i g k :
  (i < length (t k))%nat -> put_slot what t upd i g k = Ret tt (upd (alter g i) k).
Proof. intros Hi. unfold put_slot. by destruct (lookup_lt_is_Some_2 (t k) i Hi) as [a ->]. Qed.
Lemma bind_put_slot {A B} what (t : kernel -> list A) upd i g (f : unit -> M B) k :
  (i < length (t k))%nat -> bind (put_slot what t upd i g) f k = f tt (upd (alter g i) k).
Proof. intros Hi. by rewrite (bind_Ret _ _ _ _ _ (put_slot_eq what t upd i g k Hi)). Qed.
Lemma set_proc_eq i g k : (i < length (ptable k))%nat -> set_proc i g k = Ret tt (upd_ptable (alter g i) k).
Proof. apply put_slot_eq. Qed.
Lemma bind_set_proc {B} i g (f : unit -> M B) k :
  (i < length (ptable k))%nat -> bind (set_proc i g) f k = f tt (upd_ptable (alter g i) k).
Proof. apply bind_put_slot. Qed.
Lemma elem_at_eq {A} what (l : list A) i a k : 0 <= i -> l !! Z.to_nat i = Some a -> elem_at what l i k = Ret a k.
Proof. intros Hi Ha. unfold elem_at. rewrite (proj2 (Z.ltb_ge _ _) Hi). by rewrite Ha. Qed.
Lemma bind_elem_at {A B} what (l : list A) i a (f : A -> M B) k :
  0 <= i -> l !! Z.to_nat i = Some a -> bind (elem_at what l i) f k = f a k.
Proof. intros Hi Ha. by rewrite (bind_Ret _ _ _ _ _ (elem_at_eq what l i a k Hi Ha)). Qed.
Lemma bind_in_array {A B} what (l : list A) i (f : unit -> M B) k :
  0 <= i < Z.of_nat (length l) -> bind (in_array what l i) f k = f tt k.
Proof.
  intros [H1 H2]. unfold in_array. by rewrite (proj2 (Z.leb_le _ _) H1), (proj2 (Z.ltb_lt _ _) H2).
Qed.
Lemma bind_panic {A B} s (f : A -> M B) k : bind (panic s) f k = Panic s k.
Proof. reflexivity. Qed.

Lemma bind_ld32 {B} a (f : Z -> M B) k : bind (ld32 a) f k = f (load32 (mem k) a) k.
Proof. reflexivity. Qed.
Lemma bind_st32 {B} a v (f : unit -> M B) k : bind (st32 a v) f k = f tt (upd_mem (store32 a v) k).
Proof. reflexivity. Qed.

Definition ptable_ok (k : kernel) : Prop := length (ptable k) = NPROC.

(** An index is inside a table when a slot of the table is known there: no
    update changes the length of a table. *)
Ltac in_table :=
  cbv beta; rec_simpl; rewrite ?length_alter, ?length_insert, ?length_fmap;
  first [assumption | solve [eapply lookup_lt_Some; eassumption] | lia
        | unfold ptable_ok in *; rec_simpl; lia].

Ltac mrun :=
  repeat first
    [ rewrite bind_assoc | rewrite bind_ret | rewrite bind_gets | rewrite bind_modify
    | rewrite bind_when_true | rewrite bind_when_false
    | rewrite bind_set_proc by in_table | rewrite bind_put_slot by in_table
    | rewrite bind_panic | rewrite bind_ld32 | rewrite bind_st32 ];
  cbv beta.

Tactic Notation "mcall" uconstr(H) "by" tactic3(tac) :=
  rewrite ?bind_assoc; erewrite bind_Ret; [| eapply H; tac]; mrun.
Tactic Notation "mcall" uconstr(H) := mcall H by done.

(** A searching loop runs its body on the first slot that satisfies [p] when
    the body does nothing on the others. *)
Lemma for_find_first {A B} (t : kernel -> list A) (p : A -> bool)
    (body : nat -> M (option B)) n k :
  (n <= length (t k))%nat ->
  (forall i a, t k !! i = Some a -> p a = false -> body i k = Ret None k) ->
  for_find (seq 0 n) body k =
    match find_index p (take n (t k)) with
    | Some i =>
        bind (body i) (fun r =>
          match r with
          | Some b => ret (Some b)
          | None => for_find (seq (S i) (n - S i)) body
          end) k
    | None => Ret None k
    end.
Proof.
  intros Hn Hbody. destruct (find_index _ _) as [i|] eqn:Hf.
  - pose proof (find_index_lt _ _ _ Hf) as Hi. rewrite length_take in Hi.
    apply find_index_Some in Hf as [_ Hfst].
    replace (seq 0 n) with (seq 0 i ++ i :: seq (S i) (n - S i)).
    2:{ change (i :: seq (S i) (n - S i)) with (seq i (S (n - S i))).
        rewrite <- seq_app. f_equal. lia. }
    rewrite for_find_app; [done|]. intros j Hj. apply elem_of_seq in Hj.
    destruct (lookup_lt_is_Some_2 (t k) j) as [a Ha]; [lia|].
    apply (Hbody j a Ha). apply (Hfst j); [lia|]. by rewrite lookup_take_lt by lia.
  - apply for_find_None. intros j Hj. apply elem_of_seq in Hj.
    destruct (lookup_lt_is_Some_2 (t k) j) as [a Ha]; [lia|].
    apply (Hbody j a Ha). apply find_index_None in Hf.
    apply (Forall_lookup_1 _ _ j a Hf). by rewrite lookup_take_lt by lia.
Qed.

(** ** Loops over the process table *)

Lemma upd_ptable_twice f g k : upd_ptable f (upd_ptable g k) = upd_ptable (fun t => f (g t)) k.
Proof. reflexivity. Qed.

Lemma upd_ptable_ext f g k : f (ptable k) = g (ptable k) -> upd_ptable f k = upd_ptable g k.
Proof. intros Heq. by kernel_eq. Qed.

(** A walk whose body rewrites each slot with [f] maps [f] over the table. *)
Lemma for_each_procs (body : nat -> M unit) (f : proc -> proc) k :
  (forall i p k', ptable_ok k' -> ptable k' !! i = Some p ->
     body i k' = Ret tt (upd_ptable (alter f i) k')) ->
  ptable_ok k ->
  for_each procs body k = Ret tt (upd_ptable (fmap f) k).
Proof.
  intros Hbody Hk.
  rewrite (for_each_Ret body (fun i => upd_ptable (alter f i)) ptable_ok); [| |done].
  - assert (forall l k, foldl (fun k i => upd_ptable (alter f i) k) k l
                        = upd_ptable (walk f l) k) as ->.
    { clear. induction l as [|i l IH]; intros k; simpl; [by destruct k|].
      rewrite IH. by rewrite upd_ptable_twice. }
    f_equal. apply upd_ptable_ext. unfold procs. rewrite <- Hk. apply walk_seq.
  - intros i k' Hi Hk'. unfold procs in Hi. apply elem_of_seq in Hi.
    destruct (lookup_lt_is_Some_2 (ptable k') i) as [p Hp].
    { unfold ptable_ok in Hk'. lia. }
    split; [by eapply Hbody|]. unfold ptable_ok. rec_simpl. by rewrite length_alter.
Qed.

Lemma get_proc_eq i p k : ptable k !! i = Some p -> get_proc i k = Ret p k.
Proof. apply slot_eq. Qed.

(** A search of the process table. *)
Lemma for_find_procs {B} (p : proc -> bool) (body : nat -> M (option B)) k :
  ptable_ok k ->
  (forall i a, ptable k !! i = Some a -> p a = false -> body i k = Ret None k) ->
  for_find procs body k =
    match find_index p (ptable k) with
    | Some i =>
        bind (body i) (fun r =>
          match r with
          | Some b => ret (Some b)
          | None => for_find (seq (S i) (NPROC - S i)) body
          end) k
    | None => Ret None k
    end.
Proof.
  intros Hk Hbody. unfold procs. rewrite (for_find_first ptable p); [|by rewrite Hk|done].
  by rewrite take_ge by (by rewrite Hk).
Qed.

(** A walk that folds a value over the table. *)
Lemma for_fold_procs {S} (f : proc -> S -> S) s k :
  ptable_ok k ->
  for_fold procs (fun i s => let* p := get_proc i in ret (f p s)) s k =
    Ret (foldl (fun s p => f p s) s (ptable k)) k.
Proof.
  intros Hk. unfold procs. rewrite <- Hk.
  assert (forall n j s, (j + n = length (ptable k))%nat ->
    for_fold (seq j n) (fun i s => let* p := get_proc i in ret (f p s)) s k =
      Ret (foldl (fun s p => f p s) s (drop j (ptable k))) k) as H.
  { induction n as [|n IH]; intros j s' Hj; simpl.
    { rewrite drop_ge by lia. done. }
    destruct (lookup_lt_is_Some_2 (ptable k) j) as [p Hp]; [lia|].
    mcall get_proc_eq. rewrite (drop_S _ _ _ Hp). simpl. apply IH. lia. }
  rewrite H by done. by rewrite drop_0.
Qed.

(** A walk that carries a value [s] and stops at the first slot where [g] gives
    none: the value at the end, or the slot where it stops. *)
Fixpoint scan_table {S} (g : proc -> S -> option S) (s : S) (t : list proc) : S + nat :=
  match t with
  | [] => inl s
  | p :: t =>
      match g p s with
      | Some s => match scan_table g s t with inl s => inl s | inr i => inr (Datatypes.S i) end
      | None => inr 0%nat
      end
  end.

Lemma for_return_scan {S B} (g : proc -> S -> option S) (act : nat -> M B)
    (body : nat -> S -> M (S + B)) s k :
  ptable_ok k ->
  (forall i p s, ptable k !! i = Some p ->
     body i s k = match g p s with
                  | Some s' => Ret (inl s') k
                  | None => bind (act i) (fun b => ret (inr b)) k
                  end) ->
  for_return procs body s k =
    match scan_table g s (ptable k) with
    | inl s' => Ret (inl s') k
    | inr i => bind (act i) (fun b => ret (inr b)) k
    end.
Proof.
  intros Hk Hbody. unfold procs. rewrite <- Hk.
  assert (forall n j s, (j + n = length (ptable k))%nat ->
    for_return (seq j n) body s k =
      match scan_table g s (drop j (ptable k)) with
      | inl s' => Ret (inl s') k
      | inr i => bind (act (j + i)%nat) (fun b => ret (inr b)) k
      end) as H.
  { induction n as [|n IH]; intros j s' Hj; simpl.
    { rewrite drop_ge by lia. done. }
    destruct (lookup_lt_is_Some_2 (ptable k) j) as [p Hp]; [lia|].
    rewrite (drop_S _ _ _ Hp). simpl. unfold bind at 1. rewrite (Hbody j p s' Hp).
    destruct (g p s') as [s''|].
    - rewrite IH by lia. destruct (scan_table g s'' _) as [|i]; [done|].
      by rewrite Nat.add_succ_r.
    - rewrite Nat.add_0_r. unfold bind. by destruct (act j k). }
  rewrite H by done. by rewrite drop_0.
Qed.

(** ** Total correctness

    [wp m Q k]: from [k], [m] returns, and [Q] holds of the result and of the
    state it returns in. *)

Definition wp {A} (m : M A) (Q : A -> kernel -> Prop) (k : kernel) : Prop :=
  exists a k', m k = Ret a k' /\ Q a k'.

Lemma wp_bind {A B} (m : M A) (f : A -> M B) Q k :
  wp m (fun a => wp (f a) Q) k -> wp (bind m f) Q k.
Proof.
  intros (a & k' & Hm & b & k'' & Hf & HQ). exists b, k''. split; [|done]. unfold bind. by rewrite Hm.
Qed.

Lemma wp_mono {A} (m : M A) (Q Q' : A -> kernel -> Prop) k :
  wp m Q k -> (forall a k', Q a k' -> Q' a k') -> wp m Q' k.
Proof. intros (a & k' & Hm & HQ) HQQ'. exists a, k'. auto. Qed.

Lemma wp_Ret {A} (m : M A) Q k a k' : m k = Ret a k' -> Q a k' -> wp m Q k.
Proof. intros. by exists a, k'. Qed.

(** The way most steps are taken: [m] has specification [P], and the rest is
    run from any state [P] describes. *)
Lemma wp_step {A B} (m : M A) (f : A -> M B) P Q k :
  wp m P k -> (forall a k', P a k' -> wp (f a) Q k') -> wp (bind m f) Q k.
Proof. intros Hm Hf. apply wp_bind. by eapply wp_mono. Qed.

Lemma wp_gets {A B} (g : kernel -> A) (f : A -> M B) Q k : wp (f (g k)) Q k -> wp (bind (gets g) f) Q k.
Proof. intros (b & k' & Hf & HQ). by exists b, k'. Qed.

Lemma wp_assoc {A B C} (m : M A) (f : A -> M B) (g : B -> M C) Q k :
  wp (bind (bind m f) g) Q k -> wp (bind m (fun a => bind (f a) g)) Q k.
Proof. unfold wp, bind. destruct (m k); done. Qed.

(** A loop whose measure decreases. *)
Lemma iter_wp {S B} (body : S -> M (S + B)) (I : S -> kernel -> Prop) (mu : S -> nat) (Q : B -> kernel -> Prop) :
  (forall s k, I s k ->
    wp (body s) (fun r k' => match r with inl s' => I s' k' /\ (mu s' < mu s)%nat | inr b => Q b k' end) k) ->
  forall fuel s k, (mu s < fuel)%nat -> I s k -> wp (iter fuel body s) Q k.
Proof.
  intros Hbody. induction fuel as [|fuel IH]; intros s k Hf HI; [lia|]. simpl.
  eapply wp_step; [by apply Hbody|]. intros [s'|b] k' Hr; simpl in Hr.
  - destruct Hr. apply IH; [lia | done].
  - by eapply wp_Ret.
Qed.

(** A search: the elements behind it have been refused. *)
Lemma for_find_wp {X B} (l : list X) (body : X -> M (option B)) (I : list X -> kernel -> Prop)
    (Q : B -> kernel -> Prop) k :
  (forall pre x post k, l = pre ++ x :: post -> I pre k ->
    wp (body x) (fun r k' => match r with Some b => Q b k' | None => I (pre ++ [x]) k' end) k) ->
  I [] k -> wp (for_find l body) (fun r k' => match r with Some b => Q b k' | None => I l k' end) k.
Proof.
  intros Hbody. assert (forall post pre k, l = pre ++ post -> I pre k ->
    wp (for_find post body) (fun r k' => match r with Some b => Q b k' | None => I l k' end) k) as Hgen.
  { induction post as [|x post IH]; intros pre k' -> HI; simpl.
    - apply (wp_Ret _ _ _ None k'); [done|]. by rewrite app_nil_r.
    - eapply wp_step; [by apply (Hbody pre x post)|]. intros [b|] k1 Hr; simpl in Hr.
      + by eapply wp_Ret.
      + apply (IH (pre ++ [x])); [by rewrite <- app_assoc | done]. }
  by apply (Hgen l []).
Qed.

(** A loop that counts to a bound which its body leaves alone. *)
Lemma for_lt_wp fuel (bound : kernel -> Z) body n (I : Z -> kernel -> Prop) k :
  0 <= n -> n < Z.of_nat fuel ->
  (forall i k, I i k -> bound k = n) ->
  (forall i k, 0 <= i < n -> I i k -> wp (body i) (fun _ => I (i + 1)) k) ->
  I 0 k -> wp (for_lt fuel (gets bound) body) (fun _ => I n) k.
Proof.
  intros Hn Hf Hb Hbody HI. unfold for_lt.
  enough (forall fuel i k, 0 <= i <= n -> n - i < Z.of_nat fuel -> I i k ->
    wp (iter fuel (fun i => let* n := gets bound in
      if i <? n then body i ;; ret (inl (i + 1)) else ret (inr tt)) i) (fun _ => I n) k) as Hloop
    by (apply Hloop; done || lia).
  clear k HI fuel Hf. induction fuel as [|fuel IH]; intros i k Hi Hf HI; [lia|]. simpl iter.
  apply wp_bind, wp_gets. rewrite (Hb i k HI). destruct (Z.ltb_spec i n).
  - apply wp_bind. eapply wp_mono; [apply (Hbody i k); [lia | done]|]. intros [] k' HI'.
    apply (wp_Ret _ _ _ (inl (i + 1)) k'); [done|]. apply IH; [lia | lia | done].
  - assert (i = n) as -> by lia. apply (wp_Ret _ _ _ (inr tt) k); [done|]. by apply (wp_Ret _ _ _ tt k).
Qed.

(** A loop over a list: the invariant speaks of what is behind it. *)
Lemma for_each_wp {X} (l : list X) body (I : list X -> kernel -> Prop) k :
  (forall pre x post k, l = pre ++ x :: post -> I pre k -> wp (body x) (fun _ => I (pre ++ [x])) k) ->
  I [] k -> wp (for_each l body) (fun _ => I l) k.
Proof.
  intros Hbody. assert (forall post pre k, l = pre ++ post -> I pre k -> wp (for_each post body) (fun _ => I l) k) as Hgen.
  { induction post as [|x post IH]; intros pre k' -> HI; simpl.
    - apply (wp_Ret _ _ _ tt k'); [done|]. by rewrite app_nil_r.
    - eapply wp_step; [by apply (Hbody pre x post)|]. intros [] k1 HI1. apply (IH (pre ++ [x])); [|done].
      by rewrite <- app_assoc. }
  by apply (Hgen l []).
Qed.
