(* ===== verification/Spinlock.v ===== *)
(** spinlock.c, and the part of proc.c that finds the executing CPU
    ([mycpu], [cpuid], [myproc]): the nesting of [pushcli]/[popcli], and the
    spin locks as seen from the CPU that executes. *)

From Stdlib Require Import FunctionalExtensionality.
From S2P Require Import Prelude Memory Kernel.

(** ** x86.h *)

Definition readeflags : M bool := gets (fun k => eflags_if (hw k)).
Definition cli : M unit := modify (upd_hw (upd_eflags_if (fun _ => false))).
Definition sti : M unit := modify (upd_hw (upd_eflags_if (fun _ => true))).

(** ** proc.c: mycpu, cpuid, myproc *)

Definition get_cpu (i : nat) : M cpu := slot "cpus" cpus i.
Definition set_cpu (i : nat) (f : cpu -> cpu) : M unit := put_slot "cpus" cpus upd_cpus i f.

Definition mycpu : M nat :=
  let* fl := readeflags in
  if fl then panic "mycpu called with interrupts enabled" else
  let* id := gets (fun k => lapicid (hw k)) in
  let* n := gets ncpu in
  let* r := for_find (seq 0 n) (fun i =>
    let* c := get_cpu i in
    ret (if apicid c =? id then Some i else None)) in
  match r with
  | Some i => ret i
  | None => panic "unknown apicid"
  end.

Definition cpuid : M nat := mycpu.

(** ** spinlock.c *)

Definition set_lock (l : lockid) (f : spinlock -> spinlock) : M unit :=
  modify (upd_locks (fun t x => if decide (x = l) then f (t x) else t x)).

Definition initlock (l : lockid) (nm : string) : M unit :=
  set_lock l (fun _ => Spinlock 0 nm None).

Definition pushcli : M unit :=
  let* eflags := readeflags in
  cli ;;
  let* i := mycpu in
  let* c := get_cpu i in
  when (ncli c =? 0) (set_cpu i (upd_intena (fun _ => eflags))) ;;
  set_cpu i (upd_ncli (fun n => n + 1)).

Definition popcli : M unit :=
  let* fl := readeflags in
  if fl then panic "popcli - interruptible" else
  let* i := mycpu in
  set_cpu i (upd_ncli (fun n => n - 1)) ;;
  let* c := get_cpu i in
  if ncli c <? 0 then panic "popcli" else
  when ((ncli c =? 0) && intena c) sti.

Definition holding (l : lockid) : M bool :=
  pushcli ;;
  let* i := mycpu in
  let* lk := gets (fun k => locks k l) in
  let r := truthy (lk_locked lk) && bool_decide (lk_cpu lk = Some i) in
  popcli ;;
  ret r.

(** [while(xchg(&lk->locked, 1) != 0);] either takes the lock at once or spins
    until another CPU releases it. *)
Definition acquire (l : lockid) : M unit :=
  pushcli ;;
  let* h := holding l in
  if h then panic "acquire" else
  let* lk := gets (fun k => locks k l) in
  if truthy (lk_locked lk) then (fun k => Spin l k) else
  set_lock l (fun lk => Spinlock 1 (lk_name lk) (lk_cpu lk)) ;;
  let* i := mycpu in
  set_lock l (fun lk => Spinlock (lk_locked lk) (lk_name lk) (Some i)).

Definition release (l : lockid) : M unit :=
  let* h := holding l in
  if h then
    set_lock l (fun lk => Spinlock (lk_locked lk) (lk_name lk) None) ;;
    set_lock l (fun lk => Spinlock 0 (lk_name lk) (lk_cpu lk)) ;;
    popcli
  else panic "release".

Definition myproc : M (option nat) :=
  pushcli ;;
  let* i := mycpu in
  let* c := get_cpu i in
  popcli ;;
  ret (c_proc c).

(** ** What the operations do to the state

    [curcpu] is the slot [mycpu] finds; [cpu_ok c k] says the CPU that
    executes is registered in slot [c] and that interrupts are off whenever it
    holds the processor ([ncli > 0]). *)

Definition curcpu (k : kernel) : option nat :=
  find_index (fun c => apicid c =? lapicid (hw k)) (take (ncpu k) (cpus k)).

Definition cpu_ok (c : nat) (k : kernel) : Prop :=
  (ncpu k <= length (cpus k))%nat /\
  curcpu k = Some c /\
  exists cp, cpus k !! c = Some cp /\ 0 <= ncli cp /\ (0 < ncli cp -> eflags_if (hw k) = false).

Definition depth (c : nat) (k : kernel) : Z :=
  match cpus k !! c with Some cp => ncli cp | None => 0 end.

Definition lock_free (l : lockid) (k : kernel) : Prop :=
  lk_locked (locks k l) = 0 /\ lk_cpu (locks k l) = None.

Definition lock_mine (l : lockid) (c : nat) (k : kernel) : Prop :=
  lk_locked (locks k l) = 1 /\ lk_cpu (locks k l) = Some c.

Definition upd_lock (l : lockid) (f : spinlock -> spinlock) (k : kernel) : kernel :=
  upd_locks (fun t x => if decide (x = l) then f (t x) else t x) k.

Definition push (c : nat) (k : kernel) : kernel :=
  upd_cpus (alter (fun cp =>
      upd_ncli (fun n => n + 1)
        (if ncli cp =? 0 then upd_intena (fun _ => eflags_if (hw k)) cp else cp)) c)
    (upd_hw (upd_eflags_if (fun _ => false)) k).

Definition pop (c : nat) (k : kernel) : kernel :=
  upd_hw (upd_eflags_if (fun fl =>
      match cpus k !! c with
      | Some cp => if (ncli cp =? 1) && intena cp then true else fl
      | None => fl
      end))
    (upd_cpus (alter (upd_ncli (fun n => n - 1)) c) k).

(** What a balanced section leaves behind: at nesting depth zero the CPU has
    recorded its interrupt flag. *)
Definition touch (c : nat) (k : kernel) : kernel :=
  upd_cpus (alter (fun cp =>
      if ncli cp =? 0 then upd_intena (fun _ => eflags_if (hw k)) cp else cp) c) k.

Definition acq (l : lockid) (c : nat) (k : kernel) : kernel :=
  upd_lock l (fun lk => Spinlock 1 (lk_name lk) (Some c)) (push c k).

Definition rel (l : lockid) (c : nat) (k : kernel) : kernel :=
  pop c (upd_lock l (fun lk => Spinlock 0 (lk_name lk) None) k).

(** ** Running the operations *)

Lemma kernel_eta_hw k fl :
  eflags_if (hw k) = fl -> upd_hw (upd_eflags_if (fun _ => fl)) k = k.
Proof. intros <-. destruct k as [[] ]; reflexivity. Qed.

Lemma mycpu_eq c k :
  (ncpu k <= length (cpus k))%nat -> curcpu k = Some c -> eflags_if (hw k) = false ->
  mycpu k = Ret c k.
Proof.
  intros Hn Hc Hif. unfold mycpu.
  erewrite bind_Ret; [|reflexivity]. cbv beta. rewrite Hif.
  erewrite bind_Ret; [|reflexivity]. erewrite bind_Ret; [|reflexivity].
  erewrite bind_Ret; [|by apply for_find_index].
  unfold curcpu in Hc. by rewrite Hc.
Qed.

(** The executing CPU is found whatever the other fields hold. *)
Lemma curcpu_alter f c k :
  (forall cp, apicid (f cp) = apicid cp) ->
  curcpu (upd_cpus (alter f c) k) = curcpu k.
Proof.
  intros Hf. unfold curcpu. rec_simpl. generalize (ncpu k), (lapicid (hw k)), (cpus k).
  intros n id l. revert n c. induction l as [|x l IH]; intros n c; [done|].
  destruct n as [|n]; [done|]. destruct c as [|c]; simpl.
  - by rewrite Hf.
  - destruct (apicid x =? id); [done|]. f_equal. apply IH.
Qed.

Lemma get_cpu_eq i k c : cpus k !! i = Some c -> get_cpu i k = Ret c k.
Proof. apply slot_eq. Qed.

Lemma cpu_ok_if_off c k : cpu_ok c k -> 0 < depth c k -> eflags_if (hw k) = false.
Proof. intros (_ & _ & cp & Hcp & _ & Hoff). unfold depth. rewrite Hcp. done. Qed.

Lemma cpu_ok_lt c k : cpu_ok c k -> (c < length (cpus k))%nat.
Proof. intros (_ & _ & cp & Hcp & _). by eapply lookup_lt_Some. Qed.

Lemma pushcli_eq c k : cpu_ok c k -> pushcli k = Ret tt (push c k).
Proof.
  intros (Hn & Hc & cp & Hcp & Hncli & Hoff). unfold pushcli, readeflags, cli, set_cpu. mrun.
  mcall mycpu_eq. mcall get_cpu_eq. unfold push.
  destruct (ncli cp =? 0) eqn:H0; mrun; rewrite put_slot_eq by in_table; f_equal; kernel_eq.
  - rewrite list_alter_twice. apply list_alter_ext; [|done].
    intros x Hx. simplify_eq. by rewrite H0.
  - apply list_alter_ext; [|done]. intros x Hx. simplify_eq. by rewrite H0.
Qed.

Lemma popcli_eq c k : cpu_ok c k -> 0 < depth c k -> popcli k = Ret tt (pop c k).
Proof.
  intros Hok Hd. pose proof (cpu_ok_if_off _ _ Hok Hd) as Hif.
  destruct Hok as (Hn & Hc & cp & Hcp & Hncli & Hoff).
  unfold depth in Hd. rewrite Hcp in Hd.
  unfold popcli, readeflags, set_cpu. mrun. rewrite Hif.
  mcall mycpu_eq.
  mcall get_cpu_eq by (rec_simpl; by rewrite list_lookup_alter_eq, Hcp).
  rec_simpl. rewrite (proj2 (Z.ltb_ge _ _)) by lia. unfold pop. rewrite Hcp.
  replace (ncli cp - 1 =? 0) with (ncli cp =? 1) by (repeat case_bool; lia).
  destruct ((ncli cp =? 1) && intena cp); simpl; unfold ret, sti, modify; f_equal; kernel_eq.
  by destruct (hw k).
Qed.

Section cpu.
Context (c : nat).

Lemma push_ok k : cpu_ok c k -> cpu_ok c (push c k).
Proof.
  intros (Hn & Hc & cp & Hcp & Hncli & Hoff). split_and!.
  - unfold push. rec_simpl. by rewrite length_alter.
  - unfold push. rewrite curcpu_alter; [done|]. intros cp'. by destruct (ncli cp' =? 0).
  - unfold push. rec_simpl. rewrite list_lookup_alter_eq, Hcp. simpl.
    eexists. split; [done|]. destruct (ncli cp =? 0); rec_simpl; auto with lia.
Qed.

Lemma push_depth k : cpu_ok c k -> depth c (push c k) = depth c k + 1.
Proof.
  intros (_ & _ & cp & Hcp & _). unfold depth, push. rec_simpl.
  rewrite list_lookup_alter_eq, Hcp. simpl. by destruct (ncli cp =? 0).
Qed.

Lemma pop_ok k : cpu_ok c k -> 0 < depth c k -> cpu_ok c (pop c k).
Proof.
  intros Hok Hd. pose proof (cpu_ok_if_off _ _ Hok Hd) as Hif.
  destruct Hok as (Hn & Hc & cp & Hcp & Hncli & Hoff).
  unfold depth in Hd. rewrite Hcp in Hd. split_and!.
  - unfold pop. rec_simpl. by rewrite length_alter.
  - rewrite <- Hc. apply (curcpu_alter (upd_ncli (fun n => n - 1)) c k). done.
  - unfold pop. rec_simpl. rewrite list_lookup_alter_eq, Hcp. simpl.
    eexists. split; [done|]. rec_simpl. split; [lia|]. intros. rewrite Hif.
    destruct (Z.eqb_spec (ncli cp) 1); [lia | done].
Qed.

Lemma pop_depth k : depth c (pop c k) = if bool_decide (is_Some (cpus k !! c)) then depth c k - 1 else 0.
Proof.
  unfold depth, pop. rec_simpl. rewrite list_lookup_alter_eq.
  destruct (cpus k !! c); simpl; by rewrite ?bool_decide_true, ?bool_decide_false by naive_solver.
Qed.

Lemma touch_ok k : cpu_ok c k -> cpu_ok c (touch c k).
Proof.
  intros (Hn & Hc & cp & Hcp & Hncli & Hoff). split_and!.
  - unfold touch. rec_simpl. by rewrite length_alter.
  - unfold touch. rewrite curcpu_alter; [done|]. intros cp'. by destruct (ncli cp' =? 0).
  - unfold touch. rec_simpl. rewrite list_lookup_alter_eq, Hcp. simpl.
    eexists. split; [done|]. by destruct (ncli cp =? 0).
Qed.

Lemma touch_depth k : depth c (touch c k) = depth c k.
Proof.
  unfold depth, touch. rec_simpl. rewrite list_lookup_alter_eq.
  destruct (cpus k !! c) as [cp|]; simpl; [|done]. by destruct (ncli cp =? 0).
Qed.

Lemma touch_deep k : cpu_ok c k -> 0 < depth c k -> touch c k = k.
Proof.
  intros (_ & _ & cp & Hcp & _) Hd. unfold depth in Hd. rewrite Hcp in Hd.
  unfold touch. kernel_eq. apply list_alter_same. intros x Hx. assert (x = cp) as -> by congruence.
  destruct (Z.eqb_spec (ncli cp) 0); [lia | done].
Qed.

Lemma touch_twice k : touch c (touch c k) = touch c k.
Proof.
  unfold touch. kernel_eq. rewrite list_alter_twice. apply list_alter_ext; [|done].
  intros x Hx. destruct (Z.eqb_spec (ncli x) 0) as [E|E]; simpl; [by rewrite E|].
  by rewrite (proj2 (Z.eqb_neq _ _) E).
Qed.

Lemma pop_push k : cpu_ok c k -> pop c (push c k) = touch c k.
Proof.
  intros (_ & _ & cp & Hcp & Hncli & Hoff). unfold pop, push, touch. kernel_eq.
  - rewrite list_lookup_alter_eq, Hcp. simpl.
    destruct (Z.eqb_spec (ncli cp) 0) as [E|E]; simpl.
    + rewrite E. simpl. destruct k as [[lid fl r t] ]; simpl in *. by destruct fl.
    + destruct (Z.eqb_spec (ncli cp + 1) 1); [lia|]. simpl.
      destruct k as [[lid fl r t] ]; simpl in *. rewrite Hoff by lia. done.
  - rewrite list_alter_twice. apply list_alter_ext; [|done]. intros x Hx.
    destruct (Z.eqb_spec (ncli x) 0) as [E|E]; destruct x; unfold upd_ncli, upd_intena; simpl; f_equal; lia.
Qed.

Lemma holding_eq l k :
  cpu_ok c k ->
  holding l k =
    Ret (truthy (lk_locked (locks k l)) && bool_decide (lk_cpu (locks k l) = Some c))
        (touch c k).
Proof.
  intros Hok. pose proof (push_ok _ Hok) as Hok'. pose proof (push_depth _ Hok) as Hd.
  assert (0 <= depth c k).
  { destruct Hok as (_ & _ & cp & Hcp & ? & _). unfold depth. by rewrite Hcp. }
  unfold holding. mcall pushcli_eq.
  mcall mycpu_eq by (first [apply Hok' | done]).
  mcall popcli_eq by (try done; lia).
  rewrite pop_push by done. done.
Qed.

Lemma myproc_eq k cp :
  cpu_ok c k -> cpus k !! c = Some cp -> myproc k = Ret (c_proc cp) (touch c k).
Proof.
  intros Hok Hcp. pose proof (push_ok _ Hok) as Hok'. pose proof (push_depth _ Hok) as Hd.
  assert (0 <= depth c k).
  { destruct Hok as (_ & _ & cp' & Hcp' & ? & _). unfold depth. by rewrite Hcp'. }
  unfold myproc. mcall pushcli_eq.
  mcall mycpu_eq by (first [apply Hok' | done]).
  mcall get_cpu_eq by (unfold push; rec_simpl; by rewrite list_lookup_alter_eq, Hcp).
  mcall popcli_eq by (try done; lia).
  rewrite pop_push by done. unfold ret. f_equal. by destruct (ncli cp =? 0).
Qed.
End cpu.

(** ** Acquiring and releasing *)

Section spin.
Context (c : nat) (l : lockid).

Lemma acq_ok k : cpu_ok c k -> cpu_ok c (acq l c k).
Proof. intros H. exact (push_ok c k H). Qed.

Lemma acq_depth k : cpu_ok c k -> depth c (acq l c k) = depth c k + 1.
Proof. intros H. exact (push_depth c k H). Qed.

Lemma depth_nonneg k : cpu_ok c k -> 0 <= depth c k.
Proof. intros (_ & _ & cp & Hcp & ? & _). unfold depth. by rewrite Hcp. Qed.

Lemma acq_mine k : lock_mine l c (acq l c k).
Proof. unfold lock_mine, acq, upd_lock. rec_simpl. by rewrite decide_True. Qed.

Lemma acquire_eq k : cpu_ok c k -> lock_free l k -> acquire l k = Ret tt (acq l c k).
Proof.
  intros Hok [Hfree Hcpu].
  pose proof (push_ok _ _ Hok) as Hok'. pose proof (push_depth _ _ Hok).
  pose proof (depth_nonneg _ Hok). unfold acquire.
  mcall pushcli_eq. mcall holding_eq.
  change (locks (push c k)) with (locks k). rewrite Hfree. simpl.
  rewrite touch_deep by (done || lia).
  mrun. change (locks (push c k)) with (locks k). rewrite Hfree. simpl.
  unfold set_lock. mrun.
  mcall mycpu_eq by (first [apply Hok' | done]).
  unfold modify, acq, upd_lock. f_equal. kernel_eq.
  extensionality x. by destruct (decide (x = l)).
Qed.

(** Acquiring a lock the CPU already holds is caught. *)
Lemma acquire_held k :
  cpu_ok c k -> lock_mine l c k -> acquire l k = Panic "acquire" (push c k).
Proof.
  intros Hok [Hl Hcpu].
  pose proof (push_ok _ _ Hok) as Hok'. pose proof (push_depth _ _ Hok).
  pose proof (depth_nonneg _ Hok). unfold acquire.
  mcall pushcli_eq. mcall holding_eq.
  change (locks (push c k)) with (locks k). rewrite Hl, Hcpu, bool_decide_true by done.
  simpl. by rewrite touch_deep by (done || lia).
Qed.

Lemma release_eq k :
  cpu_ok c k -> lock_mine l c k -> 0 < depth c k -> release l k = Ret tt (rel l c k).
Proof.
  intros Hok [Hl Hcpu] Hd. unfold release.
  mcall holding_eq. rewrite Hl, Hcpu, bool_decide_true by done. simpl.
  rewrite touch_deep by done. unfold set_lock. mrun.
  rewrite (popcli_eq c) by done. unfold rel, upd_lock. f_equal. f_equal. kernel_eq.
  extensionality x. by destruct (decide (x = l)).
Qed.

Lemma release_not_held k :
  cpu_ok c k -> lk_cpu (locks k l) <> Some c -> release l k = Panic "release" (touch c k).
Proof.
  intros Hok Hcpu. unfold release. mcall holding_eq.
  rewrite bool_decide_false by done. by rewrite andb_false_r.
Qed.

(** A critical section leaves the lock as it was and the CPU as it was, but
    for the recorded interrupt flag. *)
Lemma rel_acq k : cpu_ok c k -> lock_free l k -> rel l c (acq l c k) = touch c k.
Proof.
  intros Hok [Hfree Hcpu]. unfold rel, acq. rewrite <- pop_push by done.
  unfold pop, upd_lock. kernel_eq. extensionality x.
  change (locks (push c k)) with (locks k).
  destruct (decide (x = l)) as [->|]; [|done]. simpl.
  destruct (locks k l); simpl in *; congruence.
Qed.

Lemma rel_free k : lock_free l (rel l c k).
Proof. unfold lock_free, rel, pop, upd_lock. rec_simpl. by rewrite decide_True. Qed.

Lemma rel_ok k : cpu_ok c k -> 0 < depth c k -> cpu_ok c (rel l c k).
Proof. intros Hok Hd. exact (pop_ok c _ Hok Hd). Qed.

Lemma rel_depth k : cpu_ok c k -> depth c (rel l c k) = depth c k - 1.
Proof.
  intros (_ & _ & cp & Hcp & _). unfold rel.
  rewrite pop_depth, bool_decide_true; [done|]. exists cp. exact Hcp.
Qed.

Lemma acq_other l' k : l' <> l -> locks (acq l c k) l' = locks k l'.
Proof. intros. unfold acq, upd_lock. rec_simpl. by rewrite decide_False. Qed.

Lemma rel_other l' k : l' <> l -> locks (rel l c k) l' = locks k l'.
Proof. intros. unfold rel, pop, upd_lock. rec_simpl. by rewrite decide_False. Qed.

(** The process of the CPU does not change. *)
Lemma acq_c_proc k cp :
  cpus k !! c = Some cp ->
  exists cp', cpus (acq l c k) !! c = Some cp' /\ c_proc cp' = c_proc cp /\ ncli cp' = ncli cp + 1.
Proof.
  intros Hcp. unfold acq, upd_lock, push. rec_simpl. rewrite list_lookup_alter_eq, Hcp. simpl.
  eexists. split; [done|]. by destruct (ncli cp =? 0).
Qed.

Lemma rel_c_proc k cp :
  cpus k !! c = Some cp ->
  exists cp', cpus (rel l c k) !! c = Some cp' /\ c_proc cp' = c_proc cp /\ ncli cp' = ncli cp - 1.
Proof.
  intros Hcp. unfold rel, pop, upd_lock. rec_simpl. rewrite list_lookup_alter_eq, Hcp.
  eexists. by split.
Qed.
End spin.

Lemma touch_c_proc c k cp :
  cpus k !! c = Some cp ->
  exists cp', cpus (touch c k) !! c = Some cp' /\ c_proc cp' = c_proc cp /\ ncli cp' = ncli cp.
Proof.
  intros Hcp. unfold touch. rec_simpl. rewrite list_lookup_alter_eq, Hcp. simpl.
  eexists. split; [done|]. by destruct (ncli cp =? 0).
Qed.

#[export] Hint Resolve push_ok pop_ok touch_ok acq_ok acq_mine rel_free : xv6.

(** A critical section whose body [f] touches neither locks nor CPUs. *)
Definition unrelated (f : kernel -> kernel) : Prop :=
  forall k, hw (f k) = hw k /\ cpus (f k) = cpus k /\ ncpu (f k) = ncpu k /\ locks (f k) = locks k.

Section unrelated.
Context (f : kernel -> kernel) (Hf : unrelated f) (c : nat).

Lemma unrelated_ok k : cpu_ok c (f k) <-> cpu_ok c k.
Proof.
  destruct (Hf k) as (Hhw & Hcpus & Hn & _). unfold cpu_ok, curcpu. by rewrite Hhw, Hcpus, Hn.
Qed.

Lemma unrelated_depth k : depth c (f k) = depth c k.
Proof. destruct (Hf k) as (_ & Hcpus & _). unfold depth. by rewrite Hcpus. Qed.

Lemma unrelated_release l k :
  cpu_ok c k -> release l (f (acq l c k)) = Ret tt (rel l c (f (acq l c k))).
Proof.
  intros Hok. pose proof (depth_nonneg _ _ Hok). pose proof (acq_depth c l _ Hok).
  apply release_eq.
  - apply unrelated_ok. by apply acq_ok.
  - unfold lock_mine. destruct (Hf (acq l c k)) as (_ & _ & _ & ->). apply acq_mine.
  - rewrite unrelated_depth. lia.
Qed.
End unrelated.

#[export] Hint Unfold unrelated : xv6.

(** Changes to the CPU's record that leave its identity and its nesting. *)
Section alter_cpu.
Context (f : cpu -> cpu) (Hid : forall cp, apicid (f cp) = apicid cp)
  (Hn : forall cp, ncli (f cp) = ncli cp) (c : nat).

Lemma alter_cpu_ok k : cpu_ok c k -> cpu_ok c (upd_cpus (alter f c) k).
Proof.
  intros (Hlen & Hc & cp & Hcp & Hcli & Hoff). split_and!.
  - rec_simpl. by rewrite length_alter.
  - by rewrite curcpu_alter.
  - rec_simpl. rewrite list_lookup_alter_eq, Hcp. eexists. split; [done|]. by rewrite Hn.
Qed.

Lemma alter_cpu_depth k : depth c (upd_cpus (alter f c) k) = depth c k.
Proof.
  unfold depth. rec_simpl. rewrite list_lookup_alter_eq.
  destruct (cpus k !! c); simpl; [apply Hn | done].
Qed.
End alter_cpu.

Lemma mycpu_deep c k : cpu_ok c k -> 0 < depth c k -> mycpu k = Ret c k.
Proof.
  intros Hok Hd. pose proof (cpu_ok_if_off _ _ Hok Hd). destruct Hok as (? & ? & _).
  by apply mycpu_eq.
Qed.

(** A lock that another CPU holds is waited for. *)
Lemma acquire_spin c l k :
  cpu_ok c k -> lk_locked (locks k l) <> 0 -> lk_cpu (locks k l) <> Some c ->
  acquire l k = Spin l (push c k).
Proof.
  intros Hok Hl Hcpu. pose proof (push_ok _ _ Hok) as Hok'. pose proof (push_depth _ _ Hok).
  pose proof (depth_nonneg _ _ Hok). unfold acquire. mcall pushcli_eq. mcall holding_eq.
  change (locks (push c k)) with (locks k). rewrite bool_decide_false by done.
  rewrite andb_false_r, touch_deep by (done || lia). mrun.
  change (locks (push c k)) with (locks k). by rewrite (proj2 (truthy_spec _) Hl).
Qed.

(** ** The properties *)

(** C38: the discipline of the spin locks, on every branch.  A free lock is taken:
    the CPU owns it, one level deeper, with interrupts off, and no other lock
    has changed.  A lock the CPU already owns is caught by a panic, one that
    another CPU owns is waited for.  Releasing a lock the CPU owns frees it;
    releasing any other is caught by a panic. *)
Theorem spinlock_discipline c l k :
  cpu_ok c k ->
  (lock_free l k -> exists k', acquire l k = Ret tt k' /\ cpu_ok c k' /\ lock_mine l c k' /\
     eflags_if (hw k') = false /\ depth c k' = depth c k + 1 /\
     (forall l', l' <> l -> locks k' l' = locks k l')) /\
  (lock_mine l c k -> exists k', acquire l k = Panic "acquire" k') /\
  (lk_locked (locks k l) <> 0 -> lk_cpu (locks k l) <> Some c -> exists k', acquire l k = Spin l k') /\
  (lock_mine l c k -> 0 < depth c k -> exists k', release l k = Ret tt k' /\ cpu_ok c k' /\
     lock_free l k' /\ depth c k' = depth c k - 1 /\
     (forall l', l' <> l -> locks k' l' = locks k l')) /\
  (lk_cpu (locks k l) <> Some c -> exists k', release l k = Panic "release" k').
Proof.
  intros Hok. pose proof (depth_nonneg _ _ Hok) as Hd. split_and!.
  - intros Hl. exists (acq l c k). split_and!.
    + by apply acquire_eq.
    + by apply acq_ok.
    + apply acq_mine.
    + done.
    + by apply acq_depth.
    + intros l' Hne. by apply acq_other.
  - intros Hl. eexists. by apply (acquire_held c).
  - intros Hl Hcpu. eexists. by apply (acquire_spin c).
  - intros Hl Hpos. exists (rel l c k). split_and!.
    + by apply release_eq.
    + by apply rel_ok.
    + apply rel_free.
    + by apply rel_depth.
    + intros l' Hne. by apply rel_other.
  - intros Hcpu. eexists. by apply (release_not_held c).
Qed.

(** [n] calls in a row. *)
Fixpoint times (n : nat) (m : M unit) : M unit :=
  match n with
  | O => ret tt
  | S n => m ;; times n m
  end.

Fixpoint pushes (n c : nat) (k : kernel) : kernel :=
  match n with
  | O => k
  | S n => push c (pushes n c k)
  end.

Lemma pushes_ok n c k :
  cpu_ok c k -> cpu_ok c (pushes n c k) /\ depth c (pushes n c k) = depth c k + Z.of_nat n.
Proof.
  intros Hok. induction n as [|n [IH Hd]]; simpl pushes; [split; [done | lia]|].
  split; [by apply push_ok | rewrite push_depth by done; lia].
Qed.

Lemma pushes_succ n c k : pushes n c (push c k) = pushes (S n) c k.
Proof. induction n as [|n IH]; [done|]. simpl. by rewrite IH. Qed.

Lemma times_pushcli n c k : cpu_ok c k -> times n pushcli k = Ret tt (pushes n c k).
Proof.
  revert k. induction n as [|n IH]; intros k Hok; [done|]. simpl times. mcall pushcli_eq.
  rewrite IH by (by apply push_ok). by rewrite pushes_succ.
Qed.

Lemma times_popcli m n c k :
  cpu_ok c k -> (m <= n)%nat -> (0 < m)%nat ->
  times m popcli (pushes n c k) =
    Ret tt (if decide (m = n) then touch c k else pushes (n - m) c k).
Proof.
  intros Hok. revert n. induction m as [|m IH]; intros n Hmn Hm; [lia|].
  destruct n as [|n]; [lia|]. simpl times. destruct (pushes_ok n c k Hok) as [Hokn Hdn].
  pose proof (depth_nonneg _ _ Hok).
  mcall popcli_eq by (simpl; first [by apply push_ok | rewrite push_depth by done; lia]).
  simpl pushes. rewrite pop_push by done. destruct m as [|m].
  - unfold times, ret. f_equal. destruct n as [|n]; [done|].
    rewrite decide_False by done. rewrite touch_deep by (done || lia). done.
  - rewrite touch_deep by (done || lia). rewrite IH by lia.
    destruct (decide (S m = n)), (decide (S (S m) = S n)); try lia; done.
Qed.

(** Interrupts stay off from the first of [n] nested [pushcli] to the last
    matching [popcli], and that one restores the interrupt flag the CPU had. *)
Theorem cli_nesting n c k :
  cpu_ok c k -> (0 < n)%nat ->
  exists k1, times n pushcli k = Ret tt k1 /\ depth c k1 = depth c k + Z.of_nat n /\
    eflags_if (hw k1) = false /\
    (forall m, (m < n)%nat -> exists k2, times m popcli k1 = Ret tt k2 /\ eflags_if (hw k2) = false) /\
    exists k3, times n popcli k1 = Ret tt k3 /\ hw k3 = hw k /\ depth c k3 = depth c k.
Proof.
  intros Hok Hn. destruct (pushes_ok n c k Hok) as [Hokn Hdn]. exists (pushes n c k).
  assert (forall m, (0 < m)%nat -> eflags_if (hw (pushes m c k)) = false) as Hoff.
  { intros [|m] Hm; [lia|]. done. }
  split_and!; [by apply times_pushcli | done | by apply Hoff | |].
  - intros [|m] Hm; [eexists; split; [done | by apply Hoff]|].
    eexists. split; [apply times_popcli; [done | lia | lia]|].
    rewrite decide_False by lia. apply Hoff. lia.
  - eexists. split; [by apply times_popcli|]. rewrite decide_True by done.
    split; [done | apply touch_depth].
Qed.
