(* ===== verification/Boot.v ===== *)
(** A concrete machine and a concrete state, for evaluating the definitions:
    one CPU, zeroed tables, every lock free, and nobody else running. *)

From S2P Require Import Prelude Memory Kernel Spinlock.

Definition zero_cpu (id : Z) : cpu :=
  Cpu id 0 0 0 (repeat (Segdesc 0 0 0 0 0 0 0 0 0 0 0 0 0) 6) 0 0 false None.

Definition zero_proc : proc :=
  {| sz := 0; pgdir := 0; kstack := 0; state := UNUSED; pid := 0; parent := None; tf := 0;
     context := 0; chan_ := CNull; killed := 0; ofile := repeat None NOFILE; cwd := None;
     name := repeat 0 16; traceflag := 0; counter := 0; timeslice := 0; tickets := 0;
     retime := 0; stime := 0; rutime := 0; ctime := 0; total_time := 0; max_time := 0;
     init_time := 0; priority := 0 |}.

Definition zero_buf : buf := Buf 0 0 0 0 0 0 None (repeat 0 512).
Definition zero_inode : inode := Inode 0 0 0 0 0 0 0 0 0 (repeat 0 13).
Definition zero_file : file := File FD_NONE 0 0 0 0 None 0.
Definition zero_pipe : pipe := Pipe (repeat 0 512) 0 0 0 0.

(** The state as the C language initialises it, with the CPU found. *)
Definition boot : kernel :=
  {| hw := Hwregs 0 false 0 0 0 None 0; cpus := zero_cpu 0 :: repeat (zero_cpu 0) 7; ncpu := 1;
     locks := fun _ => Spinlock 0 "" None; sleeplocks := fun _ => Sleeplock 0 "" 0;
     ptable := repeat zero_proc NPROC; nextpid := 1; initproc := None; proc_quantum := 0;
     forkret_first := 1; ticks := 0; mem := fun _ => 0; use_lock := 0; freelist := 0;
     kpgdir := 0; mt := repeat 0 624; mti := 625; ftable := repeat zero_file NFILE;
     pipes := fun _ => zero_pipe; bcache := repeat zero_buf 31;
     klog := Log 0 0 0 0 0 0 (repeat 0 30); sb := Superblock 0 0 0 0 0 0 0;
     icache := repeat zero_inode NINODE; devsw := repeat None NDEV;
     disk := fun _ => repeat 0 512; disksize := FSSIZE; dwrites := []; idequeue := None;
     havedisk1 := 0; cons_locking := 0; panicked := 0; input := Inputbuf (repeat 0 128) 0 0 0;
     console := []; idt := repeat (Gatedesc 0 0 0 0 0 0 0 0 0) 256; 
     lapic := 0; ioapicid := 0; uart := 0; kbdshift := 0; ioevents := []; budget := 0 |}.

(** A machine on which a process that gives up the CPU is resumed at once. *)
Definition alone (s : scheduler_kind) : Machine :=
  {| SCHEDULER := s; ld_data := KERNLINK + 0x8000; ld_end := KERNLINK + 0x15000;
     ld_trapret := KERNLINK + 0x5a8f; ld_forkret := KERNLINK + 0x3a60;
     ts_addr := fun c => KERNLINK + 0x12788 + 180 * Z.of_nat c;
     vectors := fun i => KERNLINK + 0x6000 + 12 * Z.of_nat i; initcode := repeat 0x90 44;
     interfere := fun _ k => k |}.

(** The same machine with the others doing [f] meanwhile. *)
Definition among (f : kernel -> kernel) : Machine :=
  {| SCHEDULER := LOTTERY; ld_data := KERNLINK + 0x8000; ld_end := KERNLINK + 0x15000;
     ld_trapret := KERNLINK + 0x5a8f; ld_forkret := KERNLINK + 0x3a60;
     ts_addr := fun c => KERNLINK + 0x12788 + 180 * Z.of_nat c;
     vectors := fun i => KERNLINK + 0x6000 + 12 * Z.of_nat i; initcode := repeat 0x90 44;
     interfere := fun _ k => f k |}.

Lemma boot_cpu_ok : cpu_ok 0 boot.
Proof.
  split_and!; [simpl; lia | reflexivity |]. eexists. split; [reflexivity|]. simpl. lia.
Qed.

Lemma boot_free l : lock_free l boot.
Proof. done. Qed.

(** Process [p] running on CPU 0 at depth [n]. *)
Definition on_cpu (p : nat) (n : Z) (k : kernel) : kernel :=
  upd_cpus (alter (fun cp => upd_ncli (fun _ => n) (upd_c_proc (fun _ => Some p) cp)) 0%nat) k.

Lemma on_cpu_ok p n : 0 <= n -> cpu_ok 0 (on_cpu p n boot).
Proof.
  intros Hn. split_and!; [simpl; lia | reflexivity |]. eexists. split; [reflexivity|]. done.
Qed.

(** *** The properties of the spin locks on this state *)

Lemma spinlock_discipline_witness :
  exists k', acquire L_ptable boot = Ret tt k' /\ lock_mine L_ptable 0 k' /\ eflags_if (hw k') = false.
Proof.
  destruct (spinlock_discipline 0 L_ptable boot boot_cpu_ok) as (Ha & _).
  destruct (Ha (boot_free L_ptable)) as (k' & Hrun & _ & Hm & Hif & _). exists k'. by split_and!.
Defined.

Lemma cli_nesting_witness :
  exists k1, times 3 pushcli (upd_hw (upd_eflags_if (fun _ => true)) boot) = Ret tt k1 /\
    exists k3, times 3 popcli k1 = Ret tt k3 /\ eflags_if (hw k3) = true.
Proof.
  assert (cpu_ok 0 (upd_hw (upd_eflags_if (fun _ => true)) boot)) as Hok.
  { split_and!; [simpl; lia | reflexivity |]. eexists. split; [reflexivity|]. simpl. lia. }
  destruct (cli_nesting 3 0 _ Hok ltac:(lia)) as (k1 & Hrun & _ & _ & _ & k3 & Hrun3 & Hhw & _).
  exists k1. split; [exact Hrun|]. exists k3. split; [exact Hrun3|]. by rewrite Hhw.
Defined.
