(* ===== verification/Io.v ===== *)
(** x86.h, the access of the kernel to devices: ports and registers mapped into
    memory.

    The devices are a parameter, [Ports]: what a read returns is a function of
    the accesses made before, which [ioevents] lists.  A loop that waits for a
    device reads at most [POLLS] times. *)

From S2P Require Import Prelude Memory Kernel.

Class Ports := {
  port_in : list ioevent -> Z -> Z;
  port_ins : list ioevent -> Z -> nat -> list Z;
  reg_in : list ioevent -> Z -> Z;
  POLLS : nat;
}.

Definition event (e : ioevent) : M unit := modify (upd_ioevents (fun l => l ++ [e])).

Definition outb (port v : Z) : M unit := event (EOut port (u8 v)).
Definition outsl (port : Z) (bs : list Z) : M unit := event (EOutS port bs).
Definition reg_write (addr v : Z) : M unit := event (EWrite addr (u32 v)).

(** The kernel after some more accesses. *)
Definition logged (evs : list ioevent) (k : kernel) : kernel := upd_ioevents (fun l => l ++ evs) k.

Lemma logged_logged e1 e2 k : logged e2 (logged e1 k) = logged (e1 ++ e2) k.
Proof. unfold logged. kernel_eq. by rewrite app_assoc. Qed.

Lemma logged_nil k : logged [] k = k.
Proof. unfold logged. kernel_eq. apply app_nil_r. Qed.

Section io.
Context `{Ports}.

Definition inb (port : Z) : M Z :=
  let* h := gets ioevents in
  let v := u8 (port_in h port) in
  event (EIn port v) ;;
  ret v.

(** [insl(port, addr, cnt)] reads [cnt] words. *)
Definition insl (port : Z) (cnt : nat) : M (list Z) :=
  let* h := gets ioevents in
  let bs := port_ins h port (4 * cnt) in
  event (EInS port bs) ;;
  ret bs.

Definition reg_read (addr : Z) : M Z :=
  let* h := gets ioevents in
  let v := u32 (reg_in h addr) in
  event (ERead addr v) ;;
  ret v.

(** Reads until the value satisfies [p]. *)
Definition poll (read : M Z) (p : Z -> bool) : M Z :=
  iter POLLS (fun _ : unit =>
    let* r := read in
    if p r then ret (inr r) else ret (inl tt)) tt.

Lemma inb_eq port k :
  inb port k = Ret (u8 (port_in (ioevents k) port)) (logged [EIn port (u8 (port_in (ioevents k) port))] k).
Proof. reflexivity. Qed.

(** What [n] reads of a port in a row add to the history. *)
Fixpoint reads (port : Z) (n : nat) (h : list ioevent) : list ioevent :=
  match n with
  | O => []
  | S n => let e := EIn port (u8 (port_in h port)) in e :: reads port n (h ++ [e])
  end.

Definition is_read (port : Z) (e : ioevent) : Prop := match e with EIn p _ => p = port | _ => False end.

(** Waiting ends when the device answers as wanted within [POLLS] reads. *)
Lemma poll_inb port p k n :
  (n < POLLS)%nat -> p (u8 (port_in (ioevents k ++ reads port n (ioevents k)) port)) = true ->
  exists evs, let v := u8 (port_in (ioevents k ++ evs) port) in
    poll (inb port) p k = Ret v (logged (evs ++ [EIn port v]) k) /\ p v = true /\ Forall (is_read port) evs.
Proof.
  unfold poll. revert k n. induction POLLS as [|fuel IH]; intros k n Hn Hp; [lia|].
  cbn [iter]. rewrite bind_assoc, (bind_Ret _ _ _ _ _ (inb_eq port k)). set (v := u8 (port_in (ioevents k) port)) in *.
  destruct (p v) eqn:Ev.
  - exists []. rewrite app_nil_r. split_and!; [done|done|constructor].
  - destruct n as [|n]; [simpl in Hp; rewrite app_nil_r in Hp; fold v in Hp; congruence|].
    destruct (IH (logged [EIn port v] k) n) as (evs & E & Hw & HF); [lia| |].
    + change (ioevents (logged [EIn port v] k)) with (ioevents k ++ [EIn port v]). rewrite <- app_assoc. exact Hp.
    + change (ioevents (logged [EIn port v] k)) with (ioevents k ++ [EIn port v]) in E, Hw. rewrite <- app_assoc in E, Hw.
      rewrite bind_ret. exists (EIn port v :: evs). cbv zeta. rewrite E, logged_logged. split_and!; [done..|]. by constructor.
Qed.
End io.
