(* ===== verification/Lapic.v ===== *)
(** lapic.c: the local interrupt controller of each CPU, the start of the other
    CPUs and the clock chip.  [lapic] is the address of the registers, 0 before
    [mpinit] finds them; registers are named by their offset. *)

From S2P Require Import Prelude Memory KString Kernel Spinlock Io.

(** ** Registers and their fields *)

Definition LAPIC_ID : Z := 0x20.
Definition VER : Z := 0x30.
Definition TPR : Z := 0x80.
Definition EOI : Z := 0xB0.
Definition SVR : Z := 0xF0.
Definition ENABLE : Z := 0x100.
Definition ESR : Z := 0x280.
Definition ICRLO : Z := 0x300.
Definition INIT : Z := 0x500.
Definition STARTUP : Z := 0x600.
Definition DELIVS : Z := 0x1000.
Definition ASSERT : Z := 0x4000.
Definition LEVEL : Z := 0x8000.
Definition BCAST : Z := 0x80000.
Definition ICRHI : Z := 0x310.
Definition TIMER : Z := 0x320.
Definition X1 : Z := 0xB.
Definition PERIODIC : Z := 0x20000.
Definition PCINT : Z := 0x340.
Definition LINT0 : Z := 0x350.
Definition LINT1 : Z := 0x360.
Definition ERROR : Z := 0x370.
Definition MASKED : Z := 0x10000.
Definition TICR : Z := 0x380.
Definition TDCR : Z := 0x3E0.

(** traps.h *)
Definition T_IRQ0 : Z := 32.
Definition IRQ_TIMER : Z := 0.
Definition IRQ_KBD : Z := 1.
Definition IRQ_COM1 : Z := 4.
Definition IRQ_IDE : Z := 14.
Definition IRQ_ERROR : Z := 19.
Definition IRQ_SPURIOUS : Z := 31.

(** ** cmos.h, date.h *)

Definition CMOS_PORT : Z := 0x70.
Definition CMOS_RETURN : Z := 0x71.
Definition CMOS_STATA : Z := 0x0a.
Definition CMOS_STATB : Z := 0x0b.
Definition CMOS_UIP : Z := 128.
Definition SECS : Z := 0x00.
Definition MINS : Z := 0x02.
Definition HOURS : Z := 0x04.
Definition DAY : Z := 0x07.
Definition MONTH : Z := 0x08.
Definition YEAR : Z := 0x09.

Record rtcdate := Rtcdate {
  second : Z; minute : Z; hour : Z; day : Z; month : Z; year : Z }.

#[export] Instance rtcdate_eq_dec : EqDecision rtcdate.
Proof. solve_decision. Defined.

Section lapic.
Context `{Ports}.

(** The registers of the local APIC. *)
Definition lapic_reg (index : Z) : M Z :=
  let* l := gets lapic in
  reg_read (u32 (l + index)).

Definition lapicw (index value : Z) : M unit :=
  let* l := gets lapic in
  reg_write (u32 (l + index)) value ;;
  lapic_reg LAPIC_ID ;;
  ret tt.

Definition lapicinit : M unit :=
  let* l := gets lapic in
  if l =? 0 then ret tt else
  lapicw SVR (Z.lor ENABLE (T_IRQ0 + IRQ_SPURIOUS)) ;;
  lapicw TDCR X1 ;;
  lapicw TIMER (Z.lor PERIODIC (T_IRQ0 + IRQ_TIMER)) ;;
  lapicw TICR 10000000 ;;
  lapicw LINT0 MASKED ;;
  lapicw LINT1 MASKED ;;
  let* v := lapic_reg VER in
  when (4 <=? Z.land (Z.shiftr v 16) 0xFF) (lapicw PCINT MASKED) ;;
  lapicw ERROR (T_IRQ0 + IRQ_ERROR) ;;
  lapicw ESR 0 ;;
  lapicw ESR 0 ;;
  lapicw EOI 0 ;;
  lapicw ICRHI 0 ;;
  lapicw ICRLO (Z.lor (Z.lor BCAST INIT) LEVEL) ;;
  poll (lapic_reg ICRLO) (fun r => Z.land r DELIVS =? 0) ;;
  lapicw TPR 0.

(** [lapicid()]: the identification register of a CPU holds its own number in
    the top byte, the field [lapicid] of [hw]. *)
Definition lapic_id : M Z :=
  let* l := gets lapic in
  if l =? 0 then ret 0 else gets (fun k => lapicid (hw k)).

Definition lapiceoi : M unit :=
  let* l := gets lapic in
  when (negb (l =? 0)) (lapicw EOI 0).

Definition microdelay (us : Z) : M unit := ret tt.

(** ** Starting a CPU *)

Definition lapicstartap (apic addr : Z) : M unit :=
  outb CMOS_PORT 0xF ;;
  outb (CMOS_PORT + 1) 0x0A ;;
  let wrv := P2V (Z.lor (Z.shiftl 0x40 4) 0x67) in
  st16 wrv 0 ;;
  st16 (u32 (wrv + 2)) (Z.shiftr addr 4) ;;
  lapicw ICRHI (Z.shiftl apic 24) ;;
  lapicw ICRLO (Z.lor (Z.lor INIT LEVEL) ASSERT) ;;
  microdelay 200 ;;
  lapicw ICRLO (Z.lor INIT LEVEL) ;;
  microdelay 100 ;;
  for_each (seq 0 2) (fun _ =>
    lapicw ICRHI (Z.shiftl apic 24) ;;
    lapicw ICRLO (Z.lor STARTUP (Z.shiftr addr 12)) ;;
    microdelay 200).

(** ** The clock chip *)

Definition cmos_read (reg : Z) : M Z :=
  outb CMOS_PORT reg ;;
  microdelay 200 ;;
  inb CMOS_RETURN.

Definition fill_rtcdate : M rtcdate :=
  let* s := cmos_read SECS in
  let* mi := cmos_read MINS in
  let* h := cmos_read HOURS in
  let* d := cmos_read DAY in
  let* mo := cmos_read MONTH in
  let* y := cmos_read YEAR in
  ret (Rtcdate s mi h d mo y).

Definition CONV (x : Z) : Z := u32 (Z.shiftr x 4 * 10 + Z.land x 0xf).

(** Reads the clock until two readings agree with no update in between. *)
Definition cmostime : M rtcdate :=
  let* sb := cmos_read CMOS_STATB in
  let bcd := Z.land sb (Z.shiftl 1 2) =? 0 in
  let* t1 := iter POLLS (fun _ : unit =>
    let* t1 := fill_rtcdate in
    let* a := cmos_read CMOS_STATA in
    if truthy (Z.land a CMOS_UIP) then ret (inl tt) else
    let* t2 := fill_rtcdate in
    if bool_decide (t1 = t2) then ret (inr t1) else ret (inl tt)) tt in
  let t := if bcd then Rtcdate (CONV (second t1)) (CONV (minute t1)) (CONV (hour t1))
                         (CONV (day t1)) (CONV (month t1)) (CONV (year t1))
           else t1 in
  ret (Rtcdate (second t) (minute t) (hour t) (day t) (month t) (u32 (year t + 2000))).
End lapic.

(** ** The time that [cmostime] reads *)

Definition bcd (x : Z) : Z := 16 * (x / 10) + x mod 10.

(** The registers of a clock chip that shows [t], in binary or in decimal
    digits, and is not about to change. *)
Definition clock_reg (t : rtcdate) (binary : bool) (reg : Z) : Z :=
  let enc x := if binary then x else bcd x in
  if reg =? SECS then enc (second t) else if reg =? MINS then enc (minute t)
  else if reg =? HOURS then enc (hour t) else if reg =? DAY then enc (day t)
  else if reg =? MONTH then enc (month t) else if reg =? YEAR then enc (year t)
  else if reg =? CMOS_STATB then (if binary then 4 else 0) else 0.

Definition two_digits (t : rtcdate) : Prop :=
  Forall (fun x => 0 <= x < 100) [second t; minute t; hour t; day t; month t; year t].

Lemma conv_bcd x : 0 <= x < 100 -> CONV (bcd x) = x.
Proof.
  intros Hx. unfold CONV, bcd. rewrite Z.shiftr_div_pow2 by lia. change 0xf with (Z.ones 4).
  rewrite Z.land_ones by lia. rewrite u32_small; Z.div_mod_to_equations; lia.
Qed.

Section cmos.
Context `{Ports} (t : rtcdate) (binary : bool).
Context (Hclock : forall h reg, u8 (port_in (h ++ [EOut CMOS_PORT reg]) CMOS_RETURN) = clock_reg t binary reg).

Lemma cmos_read_eq reg k : u8 reg = reg ->
  cmos_read reg k = Ret (clock_reg t binary reg) (logged [EOut CMOS_PORT reg; EIn CMOS_RETURN (clock_reg t binary reg)] k).
Proof using Hclock.
  intros Hr. unfold cmos_read, outb, event, microdelay, bind, modify, ret. rewrite inb_eq, Hr. rec_simpl.
  rewrite Hclock. f_equal. unfold logged. kernel_eq. by rewrite <- app_assoc.
Qed.

Lemma fill_rtcdate_eq k : exists evs,
  fill_rtcdate k = Ret (Rtcdate (clock_reg t binary SECS) (clock_reg t binary MINS) (clock_reg t binary HOURS)
    (clock_reg t binary DAY) (clock_reg t binary MONTH) (clock_reg t binary YEAR)) (logged evs k).
Proof using Hclock.
  eexists. unfold fill_rtcdate, bind. do 6 (rewrite cmos_read_eq by done). unfold ret. rewrite !logged_logged. reflexivity.
Qed.

(** The clock is read as it is: binary or decimal, the result is the date it
    shows, with the year counted from 2000; nothing but the ports is touched. *)
Theorem cmostime_reads k :
  two_digits t -> POLLS <> 0%nat ->
  exists evs, cmostime k = Ret (Rtcdate (second t) (minute t) (hour t) (day t) (month t) (year t + 2000)) (logged evs k).
Proof using Hclock.
  intros H2 HP. destruct POLLS as [|n] eqn:EP; [done|]. unfold cmostime. rewrite EP.
  rewrite (bind_Ret _ _ _ _ _ (cmos_read_eq CMOS_STATB k eq_refl)).
  cbn [iter]. set (k1 := logged _ k).
  destruct (fill_rtcdate_eq k1) as [e1 E1].
  destruct (fill_rtcdate_eq (logged [EOut CMOS_PORT CMOS_STATA; EIn CMOS_RETURN 0] (logged e1 k1))) as [e2 E2].
  rewrite !bind_assoc, (bind_Ret _ _ _ _ _ E1), !bind_assoc.
  rewrite (bind_Ret _ _ _ _ _ (cmos_read_eq CMOS_STATA _ eq_refl)).
  change (clock_reg t binary CMOS_STATA) with 0. change (truthy (Z.land 0 CMOS_UIP)) with false. cbv iota.
  rewrite ?bind_assoc, (bind_Ret _ _ _ _ _ E2), bool_decide_true by done. 
  unfold bind, ret. unfold k1. rewrite !logged_logged.
  unfold two_digits in H2. repeat (apply list.Forall_cons in H2 as [? H2]).
  change (clock_reg t binary CMOS_STATB) with (if binary then 4 else 0).
  unfold clock_reg. simpl Z.eqb. cbv iota. destruct binary; eexists.
  - change (Z.land 4 (Z.shiftl 1 2) =? 0) with false. cbv iota. simpl second. 
    cbn [second minute hour day month year]. rewrite u32_small by lia. reflexivity.
  - change (Z.land 0 (Z.shiftl 1 2) =? 0) with true. cbv iota. cbn [second minute hour day month year].
    rewrite !conv_bcd by done. rewrite u32_small by lia. reflexivity.
Qed.
End cmos.
