(* ===== verification/Mp.v ===== *)
(** mp.c, mp.h: the search for the tables in which the firmware describes the
    processors, and the table of CPUs made from them. *)

From S2P Require Import Prelude Memory KString Kernel Spinlock Boot Io Lapic.

(** ** mp.h: sizes and offsets of the structures *)

Definition sizeof_mp : Z := 16.
Definition MP_PHYSADDR : Z := 4.
Definition MP_IMCRP : Z := 12.
Definition sizeof_mpconf : Z := 44.
Definition MPCONF_LENGTH : Z := 4.
Definition MPCONF_VERSION : Z := 6.
Definition MPCONF_LAPICADDR : Z := 36.
Definition sizeof_mpproc : Z := 20.
Definition MPPROC_APICID : Z := 1.
Definition sizeof_mpioapic : Z := 8.
Definition MPIOAPIC_APICNO : Z := 1.

Definition MPPROC : Z := 0.
Definition MPBUS : Z := 1.
Definition MPIOAPIC : Z := 2.
Definition MPIOINTR : Z := 3.
Definition MPLINTR : Z := 4.

(** ** The search *)

(** The bytes are added in an [int] and returned as a [uchar]. *)
Definition sum (m : memory) (addr : Z) (len : nat) : Z :=
  u8 (s32 (zsum ((fun i => m (addr + Z.of_nat i)) <$> seq 0 len))).

(** [memcmp(p, s, strlen(s)) == 0] *)
Definition matches (m : memory) (p : Z) (s : string) : bool :=
  bool_decide (((fun i => m (p + Z.of_nat i)) <$> seq 0 (length (chars s))) = chars s).

Definition mpsearch1 (m : memory) (a : Z) (len : nat) : option Z :=
  let addr := P2V a in
  let places := (fun i => addr + sizeof_mp * Z.of_nat i) <$> seq 0 ((len + 15) / 16) in
  find (fun p => matches m p "_MP_" && (sum m p 16 =? 0)) places.

Definition mpsearch (m : memory) : option Z :=
  let bda := P2V 0x400 in
  let p := Z.shiftl (Z.lor (Z.shiftl (m (bda + 0x0F)) 8) (m (bda + 0x0E))) 4 in
  let last_place := mpsearch1 m 0xF0000 (Z.to_nat 0x10000) in
  if negb (p =? 0) then
    match mpsearch1 m p 1024 with
    | Some mp => Some mp
    | None => last_place
    end
  else
    let p := Z.lor (Z.shiftl (m (bda + 0x14)) 8) (m (bda + 0x13)) * 1024 in
    match mpsearch1 m (u32 (p - 1024)) 1024 with
    | Some mp => Some mp
    | None => last_place
    end.

(** The floating pointer and the configuration table. *)
Definition mpconfig (m : memory) : option (Z * Z) :=
  match mpsearch m with
  | None => None
  | Some mp =>
      if load32 m (mp + MP_PHYSADDR) =? 0 then None else
      let conf := P2V (load32 m (mp + MP_PHYSADDR)) in
      if negb (matches m conf "PCMP") then None else
      let version := m (conf + MPCONF_VERSION) in
      if negb (version =? 1) && negb (version =? 4) then None else
      if negb (sum m conf (Z.to_nat (load16 m (conf + MPCONF_LENGTH))) =? 0) then None else
      Some (mp, conf)
  end.

(** ** mpinit *)

(** One round of the loop over the entries: the next entry, or the same one
    again when its type is not known, for [break] only leaves the [switch]. *)
Definition entry (p : Z) (ismp : bool) : M (Z * bool) :=
  let* m := gets mem in
  if m p =? MPPROC then
    let* n := gets ncpu in
    when (n <? NCPU)%nat (
      set_cpu n (upd_apicid (fun _ => m (p + MPPROC_APICID))) ;;
      modify (upd_ncpu S)) ;;
    ret (p + sizeof_mpproc, ismp)
  else if m p =? MPIOAPIC then
    modify (upd_ioapicid (fun _ => m (p + MPIOAPIC_APICNO))) ;;
    ret (p + sizeof_mpioapic, ismp)
  else if (m p =? MPBUS) || (m p =? MPIOINTR) || (m p =? MPLINTR) then ret (p + 8, ismp)
  else ret (p, false).

(** The table is shorter than 2^16 bytes, and an entry has at least eight. *)
Definition entries (fuel : nat) (p e : Z) : M bool :=
  iter fuel (fun '(p, ismp) =>
    if p <? e then let* r := entry p ismp in ret (inl r) else ret (inr ismp)) (p, true).

Definition MPFUEL : nat := 2 ^ 13.

Section mp.
Context `{Ports}.

Definition mpinit : M unit :=
  let* m := gets mem in
  match mpconfig m with
  | None => panic "Expect to run on an SMP"
  | Some (mp, conf) =>
      modify (upd_lapic (fun _ => load32 m (conf + MPCONF_LAPICADDR))) ;;
      let* ismp := entries (S MPFUEL) (conf + sizeof_mpconf) (conf + load16 m (conf + MPCONF_LENGTH)) in
      if negb ismp then panic "Didn't find a suitable machine" else
      when (negb (m (mp + MP_IMCRP) =? 0)) (
        outb 0x22 0x70 ;;
        let* v := inb 0x23 in
        outb 0x23 (Z.lor v 1))
  end.
End mp.

(** ** Tables of entries *)

Inductive mpentry :=
| Proc (apicid : Z)
| Ioapic (apicno : Z)
| Other (type : Z).

Definition entry_size (x : mpentry) : Z := match x with Proc _ => sizeof_mpproc | _ => 8 end.

(** The entries [l] lie in memory from [p] on. *)
Fixpoint lies (m : memory) (p : Z) (l : list mpentry) : Prop :=
  match l with
  | [] => True
  | x :: l =>
      match x with
      | Proc a => m p = MPPROC /\ m (p + MPPROC_APICID) = a
      | Ioapic a => m p = MPIOAPIC /\ m (p + MPIOAPIC_APICNO) = a
      | Other t => m p = t /\ (t = MPBUS \/ t = MPIOINTR \/ t = MPLINTR)
      end /\ lies m (p + entry_size x) l
  end.

Definition table_end (p : Z) (l : list mpentry) : Z := p + zsum (entry_size <$> l).

(** What an entry does to the table of CPUs. *)
Definition add_entry (x : mpentry) (k : kernel) : kernel :=
  match x with
  | Proc a => if (ncpu k <? NCPU)%nat then upd_ncpu S (upd_cpus (alter (upd_apicid (fun _ => a)) (ncpu k)) k) else k
  | Ioapic a => upd_ioapicid (fun _ => a) k
  | Other _ => k
  end.

Lemma add_entry_cpus x k : length (cpus (add_entry x k)) = length (cpus k).
Proof. unfold add_entry. repeat case_match; rec_simpl; by rewrite ?length_alter. Qed.

Lemma entry_eq m p x l ismp k :
  mem k = m -> length (cpus k) = NCPU -> lies m p (x :: l) ->
  entry p ismp k = Ret (p + entry_size x, ismp) (add_entry x k) /\ mem (add_entry x k) = m.
Proof.
  intros Hm Hcpus [Hx _]. unfold entry. mrun. rewrite Hm. destruct x as [a|a|t].
  - destruct Hx as [-> Ha]. rewrite Z.eqb_refl. mrun. unfold add_entry, when. rewrite Ha.
    destruct (Nat.ltb_spec (ncpu k) NCPU); [|done]. unfold set_cpu. mrun. split; [reflexivity|done].
  - destruct Hx as [-> Ha]. rewrite Ha. done.
  - destruct Hx as [-> Ht]. split; [|done]. by destruct Ht as [->|[->| ->]].
Qed.

Lemma lies_length l p : 8 * Z.of_nat (length l) <= table_end p l - p.
Proof.
  unfold table_end. induction l as [|x l IH]; [simpl; lia|]. rewrite fmap_cons. cbn [length zsum foldr].
  assert (8 <= entry_size x) by (destruct x; unfold entry_size, sizeof_mpproc; lia).
  change (foldr Z.add 0 (entry_size <$> l)) with (zsum (entry_size <$> l)). lia.
Qed.

(** The loop records the processors and the interrupt controller of the table. *)
Lemma entries_eq l fuel p k :
  lies (mem k) p l -> length (cpus k) = NCPU -> (length l < fuel)%nat ->
  entries fuel p (table_end p l) k = Ret true (foldl (fun k x => add_entry x k) k l).
Proof.
  unfold entries. revert fuel p k. induction l as [|x l IH]; intros fuel p k Hl Hcpus Hf.
  - destruct fuel as [|fuel]; [simpl in Hf; lia|]. cbn [iter]. unfold table_end. simpl. rewrite Z.add_0_r, Z.ltb_irrefl. done.
  - destruct fuel as [|fuel]; [simpl in Hf; lia|]. cbn [iter]. pose proof (lies_length (x :: l) p) as Hlen. cbn [length] in Hlen, Hf.
    destruct (Z.ltb_spec p (table_end p (x :: l))) as [_|]; [|lia].
    destruct (entry_eq (mem k) p x l true k eq_refl Hcpus Hl) as [E Hm]. rewrite bind_assoc, (bind_Ret _ _ _ _ _ E). mrun.
    destruct Hl as [_ Hl]. rewrite <- Hm in Hl.
    replace (table_end p (x :: l)) with (table_end (p + entry_size x) l) by (unfold table_end; rewrite fmap_cons; cbn [zsum foldr]; unfold zsum; lia).
    by rewrite IH by (rewrite ?add_entry_cpus; try done; lia).
Qed.

Definition known (t : Z) : bool :=
  (t =? MPPROC) || (t =? MPIOAPIC) || (t =? MPBUS) || (t =? MPIOINTR) || (t =? MPLINTR).

(** An entry of another type: the loop stays at it for ever, and the panic after
    the loop is never reached. *)
Theorem mp_unknown_entry fuel l p e k :
  lies (mem k) p l -> length (cpus k) = NCPU -> table_end p l < e ->
  known (mem k (table_end p l)) = false ->
  exists k', entries fuel p e k = Diverge k'.
Proof.
  intros Hl Hcpus He Hu. unfold entries. generalize true. revert l p k Hl Hcpus He Hu.
  induction fuel as [|fuel IH]; intros l p k Hl Hcpus He Hu ismp; [by eexists|].
  cbn [iter]. pose proof (lies_length l p) as Hlen. destruct (Z.ltb_spec p e); [|lia]. rewrite bind_assoc. destruct l as [|x l].
  - assert (Hp : entry p ismp k = Ret (p, false) k).
    { unfold table_end in Hu. simpl in Hu. rewrite Z.add_0_r in Hu. unfold entry, known in *. mrun.
      destruct (mem k p =? MPPROC), (mem k p =? MPIOAPIC), (mem k p =? MPBUS), (mem k p =? MPIOINTR), (mem k p =? MPLINTR);
        simpl in *; congruence || done. }
    rewrite (bind_Ret _ _ _ _ _ Hp). mrun. by apply (IH []).
  - destruct (entry_eq (mem k) p x l ismp k eq_refl Hcpus Hl) as [E Hm]. rewrite (bind_Ret _ _ _ _ _ E). mrun.
    assert (Ht : table_end (p + entry_size x) l = table_end p (x :: l)) by (unfold table_end; rewrite fmap_cons; cbn [zsum foldr]; unfold zsum; lia).
    destruct Hl as [_ Hl]. apply (IH l); by rewrite ?add_entry_cpus, ?Ht, ?Hm.
Qed.
