(* ===== verification/Cprintf.v ===== *)
(** console.c, output: [consputc], [printint] and [cprintf].  A character sent
    to the console goes to the serial port and to the screen; the model keeps
    the sequence of characters, and Screen.v shows what becomes of it there. *)

From S2P Require Import Prelude Memory Kernel Spinlock Boot.

Definition BACKSPACE : Z := 0x100.

(** After a panic every CPU that prints stops for good. *)
Definition consputc (c : Z) : M unit :=
  let* p := gets panicked in
  if truthy p then cli ;; (fun k => Diverge k)
  else modify (upd_console (fun l => l ++ [c])).

Definition putchars (l : list Z) : M unit := for_each l consputc.

Definition digit (d : Z) : Z := nth (Z.to_nat d) (chars "0123456789abcdef") 0.

(** [do buf[i++] = digits[x % base]; while((x /= base) != 0);]: the digits in
    the order they are stored, lowest first, in the 16 bytes of [buf]. *)
Fixpoint digits_loop (fuel : nat) (x base : Z) : list Z :=
  match fuel with
  | O => []
  | S fuel =>
      let x' := x / base in
      digit (x mod base) :: (if x' =? 0 then [] else digits_loop fuel x' base)
  end.

Definition printint (xx base : Z) (sign : bool) : M unit :=
  let neg := sign && (xx <? 0) in
  let x := if neg then u32 (- xx) else u32 xx in
  let buf := digits_loop 16 x base in
  let buf := if neg then buf ++ chars "-" else buf in
  putchars (rev buf).

(** The variable arguments: machine words, or pointers to strings. *)
Inductive arg := AInt (x : Z) | AStr (s : option (list Z)).

Definition until_nul (s : list Z) : list Z :=
  match find_index (fun c => c =? 0) s with
  | Some i => take i s
  | None => s
  end.

Fixpoint format (fmt : list Z) (args : list arg) : M unit :=
  match fmt with
  | [] => ret tt
  | c :: fmt =>
      if c =? 0 then ret tt else
      if negb (c =? 37) then consputc c ;; format fmt args else
      match fmt with
      | [] => ret tt
      | c :: fmt =>
          if c =? 0 then ret tt else
          if c =? 100 (* d *) then
            match args with
            | AInt x :: args => printint (s32 x) 10 true ;; format fmt args
            | _ => fault "cprintf argument"
            end
          else if (c =? 120) || (c =? 112) (* x, p *) then
            match args with
            | AInt x :: args => printint (s32 x) 16 false ;; format fmt args
            | _ => fault "cprintf argument"
            end
          else if c =? 115 (* s *) then
            match args with
            | AStr s :: args =>
                putchars (until_nul (match s with Some s => s | None => chars "(null)" end)) ;;
                format fmt args
            | _ => fault "cprintf argument"
            end
          else if c =? 37 then consputc 37 ;; format fmt args
          else consputc 37 ;; consputc c ;; format fmt args
      end
  end.

Definition cprintf (fmt : list Z) (args : list arg) : M unit :=
  let* locking := gets cons_locking in
  when (truthy locking) (acquire L_cons) ;;
  format fmt args ;;
  when (truthy locking) (release L_cons).

(** ** What is printed *)

Lemma putchars_eq l k :
  panicked k = 0 -> putchars l k = Ret tt (upd_console (fun s => s ++ l) k).
Proof.
  unfold putchars. revert k. induction l as [|c l IH]; intros k Hp.
  - simpl. unfold ret. f_equal. kernel_eq. by rewrite app_nil_r.
  - simpl. unfold bind at 1, consputc. rewrite bind_gets, Hp. simpl. unfold modify.
    rewrite IH by done. f_equal. kernel_eq. by rewrite <- app_assoc.
Qed.

(** The value of a sequence of digits, highest first. *)
Definition digit_value (c : Z) : Z := if c <? 58 then c - 48 else c - 87.
Definition number (base : Z) (l : list Z) : Z :=
  foldl (fun n c => base * n + digit_value c) 0 l.

Lemma digit_value_digit d : 0 <= d < 16 -> digit_value (digit d) = d.
Proof.
  intros Hd. rewrite <- (Z2Nat.id d) by lia. assert (Z.to_nat d < 16)%nat as Hn by lia.
  generalize dependent (Z.to_nat d). intros n Hn.
  do 16 (destruct n as [|n]; [reflexivity|]). lia.
Qed.

Lemma number_snoc base l c : number base (l ++ [c]) = base * number base l + digit_value c.
Proof. unfold number. by rewrite foldl_app. Qed.

Lemma digits_value fuel x base :
  1 < base <= 16 -> 0 <= x < base ^ Z.of_nat fuel -> (0 < fuel)%nat ->
  number base (rev (digits_loop fuel x base)) = x.
Proof.
  intros Hb. revert x. induction fuel as [|fuel IH]; intros x Hx Hf; [lia|].
  simpl. rewrite number_snoc, digit_value_digit by (pose proof (Z.mod_pos_bound x base); lia).
  destruct (Z.eqb_spec (x / base) 0) as [E|E].
  - simpl. unfold number. simpl. pose proof (Z.div_mod x base). lia.
  - rewrite Nat2Z.inj_succ, Z.pow_succ_r in Hx by lia.
    assert (0 <= x / base < base ^ Z.of_nat fuel) as Hx'.
    { split; [apply Z.div_pos; lia|]. apply Z.div_lt_upper_bound; lia. }
    destruct fuel as [|fuel].
    { simpl in Hx'. lia. }
    rewrite IH by (done || lia). pose proof (Z.div_mod x base). lia.
Qed.

Lemma digits_length fuel x base : (length (digits_loop fuel x base) <= fuel)%nat.
Proof.
  revert x. induction fuel as [|fuel IH]; intros x; simpl; [lia|].
  destruct (_ =? 0); simpl; [lia|]. specialize (IH (x / base)). lia.
Qed.

(** [printint] prints the number in the base asked for: read back, what it
    appended is the number, with a minus sign in front when it is negative and
    [sign] asks for it. *)
Theorem printint_prints xx base sign k :
  panicked k = 0 -> base = 10 \/ base = 16 -> - 2 ^ 31 <= xx < 2 ^ 31 ->
  exists ds,
    printint xx base sign k = Ret tt (upd_console (fun s => s ++ ds) k) /\
    (if sign && (xx <? 0) then exists ds', ds = 45 :: ds' /\ number base ds' = - xx
     else number base ds = u32 xx).
Proof.
  intros Hp Hb Hx. unfold printint. rewrite putchars_eq by done.
  eexists. split; [reflexivity|].
  assert (forall y, 0 <= y < 2 ^ 32 -> number base (rev (digits_loop 16 y base)) = y) as Hv.
  { intros y Hy. apply digits_value; [lia | destruct Hb as [-> | ->]; simpl; lia | lia]. }
  destruct (sign && (xx <? 0)) eqn:E.
  - rewrite rev_app_distr. eexists. split; [reflexivity|].
    apply andb_true_iff in E as [_ E]. apply Z.ltb_lt in E.
    rewrite Hv by apply u32_range. apply u32_small. lia.
  - apply Hv. apply u32_range.
Qed.

Lemma printint_prints_witness :
  exists ds, printint (- 2 ^ 31) 10 true boot = Ret tt (upd_console (fun s => s ++ ds) boot) /\
    exists ds', ds = 45 :: ds' /\ number 10 ds' = 2 ^ 31.
Proof.
  exact (printint_prints (- 2 ^ 31) 10 true boot eq_refl (or_introl eq_refl) ltac:(lia)).
Defined.
