(* ===== verification/Ioapic.v ===== *)
(** picirq.c and ioapic.c: the old interrupt controllers, turned off, and the
    controller that routes the interrupts of the devices to the CPUs. *)

From S2P Require Import Prelude Memory KString Kernel Spinlock Io Lapic Cprintf.

(** ** picirq.c *)

Definition IO_PIC1 : Z := 0x20.
Definition IO_PIC2 : Z := 0xA0.

Definition picinit : M unit :=
  outb (IO_PIC1 + 1) 0xFF ;;
  outb (IO_PIC2 + 1) 0xFF.

(** ** ioapic.c *)

Definition IOAPIC : Z := 0xFEC00000.
Definition REG_ID : Z := 0x00.
Definition REG_VER : Z := 0x01.
Definition REG_TABLE : Z := 0x10.
Definition INT_DISABLED : Z := 0x00010000.

(** Offsets of [reg] and [data] in [struct ioapic]. *)
Definition IOAPIC_REG : Z := IOAPIC.
Definition IOAPIC_DATA : Z := IOAPIC + 16.

Definition ioapicwrite (reg data : Z) : M unit :=
  reg_write IOAPIC_REG reg ;;
  reg_write IOAPIC_DATA data.

Section ioapic.
Context `{Ports}.

Definition ioapicread (reg : Z) : M Z :=
  reg_write IOAPIC_REG reg ;;
  reg_read IOAPIC_DATA.

Definition ioapicinit : M unit :=
  let* v := ioapicread REG_VER in
  let maxintr := Z.land (Z.shiftr v 16) 0xFF in
  let* id := ioapicread REG_ID in
  let id := Z.shiftr id 24 in
  let* want := gets ioapicid in
  when (negb (id =? want))
    (cprintf (chars "ioapicinit: id isn't equal to ioapicid; not a MP" ++ [10]) []) ;;
  for_each (seq 0 (S (Z.to_nat maxintr))) (fun i =>
    ioapicwrite (REG_TABLE + 2 * Z.of_nat i) (Z.lor INT_DISABLED (T_IRQ0 + Z.of_nat i)) ;;
    ioapicwrite (REG_TABLE + 2 * Z.of_nat i + 1) 0).
End ioapic.

Definition ioapicenable (irq cpunum : Z) : M unit :=
  ioapicwrite (REG_TABLE + 2 * irq) (T_IRQ0 + irq) ;;
  ioapicwrite (REG_TABLE + 2 * irq + 1) (Z.shiftl cpunum 24).

(** ** The registers after a history of accesses *)

(** The controller keeps the number of the selected register and the values
    last written to the registers. *)
Definition select (h : list ioevent) (start : Z * (Z -> Z)) : Z * (Z -> Z) :=
  foldl (fun '(sel, regs) e =>
    match e with
    | EWrite a v => if a =? IOAPIC_REG then (v, regs)
                    else if a =? IOAPIC_DATA then (sel, fun r => if r =? sel then v else regs r)
                    else (sel, regs)
    | _ => (sel, regs)
    end) start h.

Definition table (h : list ioevent) : Z -> Z := (select h (0, fun _ => 0)).2.

Definition write_events (reg data : Z) : list ioevent := [EWrite IOAPIC_REG (u32 reg); EWrite IOAPIC_DATA (u32 data)].

Lemma ioapicwrite_eq reg data k :
  ioapicwrite reg data k = Ret tt (upd_ioevents (fun h => h ++ write_events reg data) k).
Proof. unfold ioapicwrite, reg_write, event, bind, modify. f_equal. kernel_eq. by rewrite <- app_assoc. Qed.

Lemma table_write h reg data r :
  table (h ++ write_events reg data) r = if r =? u32 reg then u32 data else table h r.
Proof.
  unfold table, select. rewrite foldl_app. simpl.
  destruct (foldl _ _ h) as [sel regs]. simpl. done.
Qed.

(** [ioapicenable] sets the two words of one interrupt: its vector, not masked,
    and the CPU it goes to; the other interrupts stay as they are. *)
Theorem ioapicenable_routes irq cpunum k :
  0 <= irq < 24 -> 0 <= cpunum < 256 ->
  exists k', ioapicenable irq cpunum k = Ret tt k' /\
    (forall i, 0 <= i < 24 ->
      (table (ioevents k') (REG_TABLE + 2 * i), table (ioevents k') (REG_TABLE + 2 * i + 1)) =
      if i =? irq then (T_IRQ0 + irq, cpunum * 2 ^ 24)
      else (table (ioevents k) (REG_TABLE + 2 * i), table (ioevents k) (REG_TABLE + 2 * i + 1))) /\
    k' = upd_ioevents (fun _ => ioevents k') k.
Proof.
  intros Hi Hc. unfold ioapicenable. rewrite (bind_Ret _ _ _ _ _ (ioapicwrite_eq _ _ _)), ioapicwrite_eq.
  eexists. split; [reflexivity|]. split; [|kernel_eq].
  intros i Hr. rec_simpl. rewrite <- app_assoc, app_assoc, !table_write. unfold REG_TABLE, T_IRQ0.
  rewrite Z.shiftl_mul_pow2 by lia. rewrite !u32_small by lia.
  destruct (Z.eqb_spec i irq) as [->|Hne].
  - rewrite Z.eqb_refl. destruct (Z.eqb_spec (16 + 2 * irq) (16 + 2 * irq + 1)); [lia|]. by rewrite Z.eqb_refl.
  - repeat match goal with |- context [?a =? ?b] => destruct (Z.eqb_spec a b); [lia|] end. done.
Qed.
