(* ===== verification/Kalloc.v ===== *)
(** kalloc.c: the physical page allocator.  Free pages are threaded through
    their first word. *)

From Stdlib Require Import FunctionalExtensionality.
From S2P Require Import Prelude Memory KString Kernel Spinlock Boot.

Section kalloc.
Context `{Machine}.

Definition kfree (v : Z) : M unit :=
  if truthy (v mod PGSIZE) || (v <? ld_end) || (PHYSTOP <=? V2P v) then panic "kfree" else
  modify (upd_mem (memset v 1 PGSIZE)) ;;
  let* ul := gets use_lock in
  when (truthy ul) (acquire L_kmem) ;;
  let* r := gets freelist in
  st32 v r ;;
  modify (upd_freelist (fun _ => v)) ;;
  let* ul := gets use_lock in
  when (truthy ul) (release L_kmem).

Definition kalloc : M Z :=
  let* ul := gets use_lock in
  when (truthy ul) (acquire L_kmem) ;;
  let* r := gets freelist in
  when (truthy r)
    (let* next := ld32 r in modify (upd_freelist (fun _ => next))) ;;
  let* ul := gets use_lock in
  when (truthy ul) (release L_kmem) ;;
  ret r.

(** [for(; p + PGSIZE <= vend; p += PGSIZE) kfree(p);] *)
Definition freerange (vstart vend : Z) : M unit :=
  iter (S (Z.to_nat (vend / PGSIZE))) (fun p =>
    if p + PGSIZE <=? vend then kfree p ;; ret (inl (p + PGSIZE)) else ret (inr tt))
    (PGROUNDUP vstart).

Definition kinit1 (vstart vend : Z) : M unit :=
  initlock L_kmem "kmem" ;;
  modify (upd_use_lock (fun _ => 0)) ;;
  freerange vstart vend.

Definition kinit2 (vstart vend : Z) : M unit :=
  freerange vstart vend ;;
  modify (upd_use_lock (fun _ => 1)).
End kalloc.

(** ** The free list

    [free_list m a l]: the list at [a] in memory [m] consists of the pages
    [l], in this order. *)

Fixpoint free_list (m : memory) (a : Z) (l : list Z) : Prop :=
  match l with
  | [] => a = 0
  | p :: l => a = p /\ free_list m (load32 m p) l
  end.

Section facts.
Context `{Machine}.

(** The pages the allocator manages. *)
Definition page_ok (p : Z) : Prop :=
  0 <= p < 2 ^ 32 /\ p mod PGSIZE = 0 /\ ld_end <= p /\ V2P p < PHYSTOP.

Definition kmem_ok (k : kernel) (l : list Z) : Prop :=
  mem_ok (mem k) /\ free_list (mem k) (freelist k) l /\ NoDup l /\ Forall page_ok l.

(** The allocator's lock can be taken when it is in use. *)
Definition kmem_ready (c : nat) (k : kernel) : Prop :=
  truthy (use_lock k) = true -> cpu_ok c k /\ lock_free L_kmem k.

Definition ktouch (c : nat) (k : kernel) : kernel :=
  if truthy (use_lock k) then touch c k else k.

Lemma page_ok_kern p : page_ok p -> KERNBASE <= p < KERNBASE + PHYSTOP.
Proof.
  intros (Hr & _ & _ & Hp). revert Hp. unfold V2P, KERNBASE, PHYSTOP, u32.
  intros Hp. Z.div_mod_to_equations. lia.
Qed.

Lemma page_ok_nonzero p : page_ok p -> p <> 0.
Proof. intros Hp%page_ok_kern. unfold KERNBASE in Hp. lia. Qed.

(** Different pages do not overlap. *)
Lemma page_disjoint p q :
  p mod PGSIZE = 0 -> q mod PGSIZE = 0 -> p <> q -> p + PGSIZE <= q \/ q + PGSIZE <= p.
Proof. unfold PGSIZE. intros. Z.div_mod_to_equations. lia. Qed.

Lemma free_list_frame m m' a l :
  Forall page_ok l ->
  (forall p x, p ∈ l -> p <= x < p + 4 -> m' x = m x) ->
  free_list m a l -> free_list m' a l.
Proof.
  revert a. induction l as [|p l IH]; intros a Hl Hm; [done|]. intros [-> Hfl].
  apply list.Forall_cons in Hl as [Hp Hl]. split; [done|].
  rewrite (load32_ext m' m p) by (intros; apply (Hm p); [left | done]).
  apply IH; [done | | done]. intros q x Hq. apply Hm. by right.
Qed.

Lemma free_list_unique m a l l' :
  free_list m a l -> free_list m a l' -> Forall page_ok l -> Forall page_ok l' -> l = l'.
Proof.
  revert a l'. induction l as [|p l IH]; intros a [|q l'] Hl Hl' Hok Hok'; [done| | |].
  - destruct Hl' as [-> _]. simpl in Hl. apply list.Forall_cons in Hok' as [Hq _].
    by apply page_ok_nonzero in Hq.
  - destruct Hl as [-> _]. simpl in Hl'. apply list.Forall_cons in Hok as [Hq _].
    by apply page_ok_nonzero in Hq.
  - destruct Hl as [-> Hl], Hl' as [-> Hl'].
    apply list.Forall_cons in Hok as [_ ?]. apply list.Forall_cons in Hok' as [_ ?].
    f_equal. by eapply IH.
Qed.

(** *** kalloc *)

Lemma kalloc_eq c k l :
  kmem_ready c k -> kmem_ok k l ->
  kalloc k =
    match l with
    | [] => Ret 0 (ktouch c k)
    | p :: _ => Ret p (upd_freelist (fun _ => load32 (mem k) p) (ktouch c k))
    end.
Proof.
  intros Hr (_ & Hfl & _ & Hok). unfold kalloc, ktouch. mrun.
  assert (match l with [] => freelist k = 0 | p :: _ => freelist k = p /\ truthy p = true end) as Hhd.
  { destruct l as [|p l]; [done|]. destruct Hfl as [-> _]. split; [done|].
    apply truthy_spec, page_ok_nonzero. by apply list.Forall_cons in Hok as [? _]. }
  destruct (truthy (use_lock k)) eqn:Hul; mrun.
  - destruct (Hr Hul) as [Hc Hl]. mcall (acquire_eq c).
    change (freelist (acq L_kmem c k)) with (freelist k).
    destruct l as [|p l]; [rewrite Hhd; change (truthy 0) with false | destruct Hhd as [-> Hp]; rewrite Hp];
      mrun; [set (f := @id kernel) | set (f := upd_freelist _)];
      match goal with |- context [truthy (use_lock ?k')] =>
        change (use_lock k') with (use_lock k) end; rewrite Hul; mrun;
      mcall (unrelated_release f ltac:(done) c L_kmem k); unfold ret; f_equal;
      rewrite <- (rel_acq c L_kmem k) by done; reflexivity.
  - destruct l as [|p l]; [rewrite Hhd; change (truthy 0) with false | destruct Hhd as [-> Hp]; rewrite Hp];
      mrun; match goal with |- context [truthy (use_lock ?k')] =>
        change (use_lock k') with (use_lock k) end; by rewrite Hul.
Qed.

Lemma kalloc_ok c k p l :
  kmem_ok k (p :: l) -> kmem_ok (upd_freelist (fun _ => load32 (mem k) p) (ktouch c k)) l.
Proof.
  intros (Hm & [_ Hfl] & Hnd & Hok). apply NoDup_cons_1_2 in Hnd.
  apply list.Forall_cons in Hok as [_ Hok].
  assert (mem (ktouch c k) = mem k) as E by (unfold ktouch; by case_match).
  unfold kmem_ok. rec_simpl. rewrite E. by split_and!.
Qed.

(** *** kfree *)

Definition freed (v : Z) (k : kernel) : kernel :=
  upd_freelist (fun _ => v)
    (upd_mem (fun m => store32 v (freelist k) (memset v 1 PGSIZE m)) k).

Lemma kfree_check v :
  0 <= v < 2 ^ 32 ->
  truthy (v mod PGSIZE) || (v <? ld_end) || (PHYSTOP <=? V2P v) = false <-> page_ok v.
Proof.
  intros Hv. unfold page_ok. rewrite !orb_false_iff, Z.ltb_ge, Z.leb_gt.
  unfold truthy. rewrite negb_false_iff, Z.eqb_eq. tauto.
Qed.

(** An address that is not a page of the allocator is refused. *)
Lemma kfree_refuses v k :
  0 <= v < 2 ^ 32 -> ~ page_ok v -> kfree v k = Panic "kfree" k.
Proof.
  intros Hv Hno. unfold kfree.
  destruct (truthy (v mod PGSIZE) || (v <? ld_end) || (PHYSTOP <=? V2P v)) eqn:E; [done|].
  by apply kfree_check in E.
Qed.

Lemma kfree_eq c v k :
  kmem_ready c k -> page_ok v -> kfree v k = Ret tt (freed v (ktouch c k)).
Proof.
  intros Hr Hv. unfold kfree. rewrite (proj2 (kfree_check v ltac:(apply Hv)) Hv). mrun.
  unfold ktouch. change (use_lock (upd_mem _ k)) with (use_lock k).
  destruct (truthy (use_lock k)) eqn:Hul; mrun.
  - destruct (Hr Hul) as [Hc Hl]. mcall (acquire_eq c).
    set (f := fun k' => upd_freelist (fun _ => v) (upd_mem (store32 v (freelist k)) k')).
    change (use_lock _) with (use_lock k). rewrite Hul.
    unfold bind, when. change (upd_freelist _ _) with (f (acq L_kmem c (upd_mem (memset v 1 PGSIZE) k))).
    rewrite (unrelated_release f ltac:(done) c L_kmem (upd_mem (memset v 1 PGSIZE) k)) by done.
    f_equal. transitivity (f (rel L_kmem c (acq L_kmem c (upd_mem (memset v 1 PGSIZE) k)))); [reflexivity|].
    rewrite rel_acq by done. reflexivity.
  - change (use_lock _) with (use_lock k). by rewrite Hul.
Qed.

(** Putting a page on the list that is not on it keeps the list well formed. *)
Lemma freed_ok v k l :
  page_ok v -> v ∉ l -> kmem_ok k l -> kmem_ok (freed v k) (v :: l).
Proof.
  intros Hv Hnew (Hm & Hfl & Hnd & Hok). unfold freed, kmem_ok. rec_simpl.
  assert (mem_ok (memset v 1 PGSIZE (mem k))) as Hm'.
  { intros x. rewrite memset_eq by (unfold PGSIZE; lia). by apply stosb_ok. }
  split_and!.
  - by apply store32_ok.
  - split; [done|]. rewrite load32_store32.
    assert (u32 (freelist k) = freelist k) as ->.
    { apply u32_small. destruct l as [|p l]; [simpl in Hfl; lia|]. destruct Hfl as [-> _].
      apply list.Forall_cons in Hok as [Hp _]. apply Hp. }
    apply (free_list_frame (mem k)); [done | | done].
    intros p x Hp Hx. assert (p <> v) by congruence.
    pose proof (proj1 (list.Forall_forall _ _) Hok p Hp) as (_ & Hpa & _). destruct Hv as (_ & Hva & _).
    destruct (page_disjoint p v) as [|]; try done; unfold PGSIZE in *;
      (rewrite store32_other by lia; rewrite memset_eq by lia; apply stosb_out; lia).
  - by apply NoDup_cons_2.
  - by apply list.Forall_cons.
Qed.

(** Freeing only writes the page that is freed. *)
Lemma freed_mem v k x :
  x < v \/ v + PGSIZE <= x -> mem (freed v k) x = mem k x.
Proof.
  intros Hx. unfold freed. rec_simpl. unfold PGSIZE in *. rewrite store32_other by lia.
  rewrite memset_eq by lia. by apply stosb_out.
Qed.

(** Writes inside a page that is not on the list leave the list as it is. *)
Lemma kmem_ok_frame f v k l :
  page_ok v -> v ∉ l -> mem_ok (f (mem k)) ->
  (forall x, x < v \/ v + PGSIZE <= x -> f (mem k) x = mem k x) ->
  kmem_ok k l -> kmem_ok (upd_mem f k) l.
Proof.
  intros (_ & Hva & _) Hv Hm Hout (_ & Hfl & Hnd & Hok). unfold kmem_ok. rec_simpl. split_and!; try done.
  apply (free_list_frame (mem k)); [done | | done]. intros p x Hp Hx. apply Hout.
  assert (p <> v) by congruence.
  pose proof (proj1 (list.Forall_forall _ _) Hok p Hp) as (_ & Hpa & _).
  destruct (page_disjoint p v) as [|]; try done; unfold PGSIZE in *; lia.
Qed.

(** *** freerange *)

Lemma freed_ready c v k : kmem_ready c k -> kmem_ready c (freed v (ktouch c k)).
Proof.
  unfold kmem_ready, ktouch. intros Hr. destruct (truthy (use_lock k)) eqn:E; intros Hul.
  - destruct (Hr eq_refl) as [Hc Hl]. split; [exact (touch_ok c k Hc) | exact Hl].
  - change (truthy (use_lock k) = true) in Hul. congruence.
Qed.

Lemma ktouch_ok c k l : kmem_ok (ktouch c k) l <-> kmem_ok k l.
Proof. unfold kmem_ok, ktouch. by case_match. Qed.

(** The [n] pages from [p] on. *)
Fixpoint pages (p : Z) (n : nat) : list Z :=
  match n with
  | O => []
  | S n => p :: pages (p + PGSIZE) n
  end.

Lemma pages_ge p n q : q ∈ pages p n -> p <= q.
Proof.
  revert p. induction n as [|n IH]; intros p; simpl; [by intros ?%not_elem_of_nil|].
  intros [->|Hq]%elem_of_cons; [lia|]. apply IH in Hq. unfold PGSIZE in Hq. lia.
Qed.

Lemma freerange_loop c vend fuel n p k l :
  kmem_ready c k -> kmem_ok k l ->
  Forall page_ok (pages p n) -> (forall q, q ∈ pages p n -> q ∉ l) ->
  p + PGSIZE * Z.of_nat n <= vend < p + PGSIZE * Z.of_nat (S n) -> (n < fuel)%nat ->
  exists k',
    iter fuel (fun p => if p + PGSIZE <=? vend then kfree p ;; ret (inl (p + PGSIZE))
                        else ret (inr tt)) p k = Ret tt k' /\
    kmem_ok k' (rev (pages p n) ++ l) /\ kmem_ready c k'.
Proof.
  revert n p k l. induction fuel as [|fuel IH]; intros n p k l Hr Hk Hok Hnew Hend Hf; [lia|].
  simpl iter. destruct n as [|n].
  - rewrite (proj2 (Z.leb_gt _ _)) by lia. mrun. exists k. by split_and!.
  - rewrite (proj2 (Z.leb_le _ _)) by (unfold PGSIZE in *; lia). simpl in Hok, Hnew.
    apply list.Forall_cons in Hok as [Hp Hok].
    mcall (kfree_eq c). assert (p ∉ l) as Hpl by (apply Hnew; left).
    edestruct (IH n (p + PGSIZE) (freed p (ktouch c k)) (p :: l)) as (k' & Hrun & Hk' & Hr');
      [by apply freed_ready | by apply freed_ok, ktouch_ok | done | | unfold PGSIZE in *; lia | lia |].
    { intros q Hq Hql. apply elem_of_cons in Hql as [->|Hql].
      - apply pages_ge in Hq. unfold PGSIZE in Hq. lia.
      - apply (Hnew q); [by right | done]. }
    exists k'. split_and!; [done | | done]. simpl. by rewrite <- app_assoc.
Qed.

(** [freerange] puts every whole page of the range on the free list. *)
Lemma freerange_eq c vstart vend n k l :
  let p := PGROUNDUP vstart in
  kmem_ready c k -> kmem_ok k l ->
  Forall page_ok (pages p n) -> (forall q, q ∈ pages p n -> q ∉ l) -> 0 <= p ->
  p + PGSIZE * Z.of_nat n <= vend < p + PGSIZE * Z.of_nat (S n) ->
  exists k', freerange vstart vend k = Ret tt k' /\
    kmem_ok k' (rev (pages p n) ++ l) /\ kmem_ready c k'.
Proof.
  intros p Hr Hk Hok Hnew Hp Hend. apply freerange_loop; try done.
  enough (Z.of_nat n <= vend / PGSIZE) by lia.
  apply Z.div_le_lower_bound; unfold PGSIZE in *; lia.
Qed.

Lemma kalloc_ready c k a : kmem_ready c k -> kmem_ready c (upd_freelist a (ktouch c k)).
Proof.
  unfold kmem_ready, ktouch. intros Hr. destruct (truthy (use_lock k)) eqn:E; intros Hul.
  - destruct (Hr eq_refl) as [Hc Hl]. split; [exact (touch_ok c k Hc) | exact Hl].
  - change (truthy (use_lock k) = true) in Hul. congruence.
Qed.

Lemma mem_ktouch c k : mem (ktouch c k) = mem k.
Proof. unfold ktouch. by case_match. Qed.

(** ** The properties *)

(** C25: the allocator implements a stack of pages.  [kalloc] takes the page on
    top and changes no memory, or returns 0 when there is none.  [kfree] of a
    page that is not free puts it on top and writes only that page, so a
    [kalloc] that follows gives the same page back; an address that is no page
    of the allocator is refused with a panic.  The free list stays well formed
    throughout. *)
Theorem kmem_refines_stack c k l :
  kmem_ready c k -> kmem_ok k l ->
  (exists k', kalloc k = Ret (match l with [] => 0 | p :: _ => p end) k' /\
     kmem_ready c k' /\ kmem_ok k' (tail l) /\ mem k' = mem k) /\
  (forall v, page_ok v -> v ∉ l -> exists k' k'', kfree v k = Ret tt k' /\
     kmem_ready c k' /\ kmem_ok k' (v :: l) /\
     (forall x, x < v \/ v + PGSIZE <= x -> mem k' x = mem k x) /\
     kalloc k' = Ret v k'' /\ kmem_ok k'' l) /\
  (forall v, 0 <= v < 2 ^ 32 -> ~ page_ok v -> kfree v k = Panic "kfree" k).
Proof.
  intros Hr Hk. split_and!.
  - rewrite (kalloc_eq c k l) by done. destruct l as [|p l].
    + exists (ktouch c k). split_and!; [done | | by apply ktouch_ok | apply mem_ktouch].
      exact (kalloc_ready c k id Hr).
    + eexists. split; [done|]. split_and!; [by apply kalloc_ready | by apply kalloc_ok |].
      exact (mem_ktouch c k).
  - intros v Hv Hnew. exists (freed v (ktouch c k)).
    pose proof (freed_ready c v k Hr) as Hr'.
    pose proof (freed_ok v (ktouch c k) l Hv Hnew (proj2 (ktouch_ok c k l) Hk)) as Hk'.
    eexists. split_and!; [by apply kfree_eq | done | done | | exact (kalloc_eq c _ (v :: l) Hr' Hk') | by apply kalloc_ok].
    intros x Hx. rewrite freed_mem by done. by rewrite mem_ktouch.
  - intros v Hv Hbad. by apply kfree_refuses.
Qed.

(** [freerange] puts every whole page of the range on the free list, each
    once, and nothing else; it ends after as many steps as there are pages. *)
Theorem freerange_adds_pages c vstart vend n k l :
  kmem_ready c k -> kmem_ok k l ->
  Forall page_ok (pages (PGROUNDUP vstart) n) -> (forall q, q ∈ pages (PGROUNDUP vstart) n -> q ∉ l) ->
  0 <= PGROUNDUP vstart ->
  PGROUNDUP vstart + PGSIZE * Z.of_nat n <= vend < PGROUNDUP vstart + PGSIZE * Z.of_nat (S n) ->
  exists k', freerange vstart vend k = Ret tt k' /\ kmem_ok k' (rev (pages (PGROUNDUP vstart) n) ++ l).
Proof.
  intros Hr Hk Hok Hnew Hp Hend.
  destruct (freerange_eq c vstart vend n k l Hr Hk Hok Hnew Hp Hend) as (k' & Hrun & Hk' & _). by exists k'.
Qed.
End facts.

(** *** On the state after start-up *)

Lemma boot_kmem_ok s : @kmem_ok (alone s) boot [].
Proof. split_and!; [intros x; simpl; lia | done | constructor | constructor]. Qed.

Lemma boot_kmem_ready : kmem_ready 0 boot.
Proof. intros Hl. discriminate Hl. Qed.

Lemma kmem_refines_stack_witness :
  exists k' k'', @kfree (alone LOTTERY) 0x80400000 boot = Ret tt k' /\
    kalloc k' = Ret 0x80400000 k''.
Proof.
  destruct (@kmem_refines_stack (alone LOTTERY) 0 boot [] boot_kmem_ready (boot_kmem_ok _)) as (_ & Hf & _).
  destruct (Hf 0x80400000 ltac:(by vm_compute) ltac:(apply not_elem_of_nil))
    as (k' & k'' & Hrun & _ & _ & _ & Hal & _).
  exists k', k''. by split.
Defined.

Lemma freerange_adds_pages_witness :
  exists k', @freerange (alone LOTTERY) 0x80400001 0x80403fff boot = Ret tt k' /\
    @kmem_ok (alone LOTTERY) k' [0x80402000; 0x80401000].
Proof.
  apply (@freerange_adds_pages (alone LOTTERY) 0 0x80400001 0x80403fff 2 boot []);
    [apply boot_kmem_ready | apply boot_kmem_ok | | intros q _; apply not_elem_of_nil | by vm_compute | by vm_compute].
  repeat (apply list.Forall_cons; split; [by vm_compute|]). constructor.
Defined.
