(* ===== verification/Vm.v ===== *)
(** vm.c and the parts of mmu.h it uses: segment descriptors, two-level page
    tables in memory, and the address spaces built from them. *)

From S2P Require Import Prelude Memory KString Kernel Spinlock Cprintf Kalloc.

(** ** mmu.h *)

Definition FL_IF : Z := 0x200.
Definition SEG_KCODE : Z := 1.
Definition SEG_KDATA : Z := 2.
Definition SEG_UCODE : Z := 3.
Definition SEG_UDATA : Z := 4.
Definition SEG_TSS : Z := 5.
Definition DPL_USER : Z := 3.
Definition STA_X : Z := 8.
Definition STA_W : Z := 2.
Definition STA_R : Z := 2.
Definition STS_T32A : Z := 9.

Definition SEG (type base lim dpl : Z) : segdesc :=
  {| lim_15_0 := Z.land (Z.shiftr lim 12) 0xffff; base_15_0 := Z.land base 0xffff;
     base_23_16 := Z.land (Z.shiftr base 16) 0xff; sd_type := type; sd_s := 1;
     sd_dpl := dpl; sd_p := 1; lim_19_16 := Z.shiftr lim 28; avl := 0; rsv1 := 0;
     db := 1; g := 1; base_31_24 := Z.shiftr base 24 |}.

Definition SEG16 (type base lim dpl : Z) : segdesc :=
  {| lim_15_0 := Z.land lim 0xffff; base_15_0 := Z.land base 0xffff;
     base_23_16 := Z.land (Z.shiftr base 16) 0xff; sd_type := type; sd_s := 1;
     sd_dpl := dpl; sd_p := 1; lim_19_16 := Z.shiftr lim 16; avl := 0; rsv1 := 0;
     db := 1; g := 0; base_31_24 := Z.shiftr base 24 |}.

Definition NPDENTRIES : nat := 1024.
Definition PTXSHIFT : Z := 12.
Definition PDXSHIFT : Z := 22.
Definition PDX (va : Z) : Z := Z.land (Z.shiftr (u32 va) PDXSHIFT) 0x3FF.
Definition PTX (va : Z) : Z := Z.land (Z.shiftr (u32 va) PTXSHIFT) 0x3FF.
Definition PGADDR (d t o : Z) : Z :=
  u32 (Z.lor (Z.lor (Z.shiftl d PDXSHIFT) (Z.shiftl t PTXSHIFT)) o).
Definition PTE_P : Z := 1.
Definition PTE_W : Z := 2.
Definition PTE_U : Z := 4.
Definition PTE_ADDR (pte : Z) : Z := Z.land pte (Z.lnot 0xFFF).
Definition PTE_FLAGS (pte : Z) : Z := Z.land pte 0xFFF.

Section vm.
Context `{Machine}.

(** ** Segments and address space switches *)

(** The selector a segment register is loaded with: 16 bits. *)
Definition ltr (sel : Z) : M unit := modify (upd_hw (upd_tr (fun _ => u16 sel))).
Definition lcr3 (v : Z) : M unit := modify (upd_hw (upd_cr3 (fun _ => v))).
Definition lgdt (i : nat) : M unit := modify (upd_hw (upd_gdtr (fun _ => Some i))).

Definition set_gdt (i : nat) (seg : Z) (f : segdesc -> segdesc) : M unit :=
  set_cpu i (upd_gdt (alter f (Z.to_nat seg))).

Definition seginit : M unit :=
  let* c := cpuid in
  set_gdt c SEG_KCODE (fun _ => SEG (Z.lor STA_X STA_R) 0 0xffffffff 0) ;;
  set_gdt c SEG_KDATA (fun _ => SEG STA_W 0 0xffffffff 0) ;;
  set_gdt c SEG_UCODE (fun _ => SEG (Z.lor STA_X STA_R) 0 0xffffffff DPL_USER) ;;
  set_gdt c SEG_UDATA (fun _ => SEG STA_W 0 0xffffffff DPL_USER) ;;
  lgdt c.

Definition switchkvm : M unit :=
  let* p := gets kpgdir in lcr3 (V2P p).

Definition sizeof_ts : Z := 104.

Definition switchuvm (p : option nat) : M unit :=
  match p with
  | None => panic "switchuvm: no process"
  | Some p =>
      let* pr := get_proc p in
      if kstack pr =? 0 then panic "switchuvm: no kstack" else
      if pgdir pr =? 0 then panic "switchuvm: no pgdir" else
      pushcli ;;
      let* c := mycpu in
      set_gdt c SEG_TSS (fun _ => SEG16 STS_T32A (ts_addr c) (sizeof_ts - 1) 0) ;;
      let* c := mycpu in
      set_gdt c SEG_TSS (upd_sd_s (fun _ => 0)) ;;
      let* c := mycpu in
      set_cpu c (upd_ts_ss0 (fun _ => Z.shiftl SEG_KDATA 3)) ;;
      let* c := mycpu in
      set_cpu c (upd_ts_esp0 (fun _ => u32 (kstack pr + KSTACKSIZE))) ;;
      let* c := mycpu in
      set_cpu c (upd_ts_iomb (fun _ => 0xFFFF)) ;;
      ltr (Z.shiftl SEG_TSS 3) ;;
      lcr3 (V2P (pgdir pr)) ;;
      popcli
  end.

(** ** Page tables *)

Definition walkpgdir (pgdir va : Z) (alloc : bool) : M Z :=
  let pde := pgdir + 4 * PDX va in
  let* e := ld32 pde in
  if truthy (Z.land e PTE_P) then ret (P2V (PTE_ADDR e) + 4 * PTX va) else
  if negb alloc then ret 0 else
  let* pgtab := kalloc in
  if pgtab =? 0 then ret 0 else
  modify (upd_mem (memset pgtab 0 PGSIZE)) ;;
  st32 pde (Z.lor (Z.lor (Z.lor (V2P pgtab) PTE_P) PTE_W) PTE_U) ;;
  ret (pgtab + 4 * PTX va).

(** One iteration per page from [a] to [last], both aligned. *)
Definition mappages (pgdir va size pa perm : Z) : M Z :=
  let a := PGROUNDDOWN va in
  let last := PGROUNDDOWN (u32 (va + size - 1)) in
  iter (S (Z.to_nat (u32 (last - a) / PGSIZE))) (fun '(a, pa) =>
    let* pte := walkpgdir pgdir a true in
    if pte =? 0 then ret (inr (-1)) else
    let* e := ld32 pte in
    if truthy (Z.land e PTE_P) then panic "remap" else
    st32 pte (Z.lor (Z.lor pa perm) PTE_P) ;;
    if a =? last then ret (inr 0)
    else ret (inl (u32 (a + PGSIZE), u32 (pa + PGSIZE)))) (a, pa).

Record kmapping := Kmap { virt : Z; phys_start : Z; phys_end : Z; perm : Z }.

Definition kmap : list kmapping :=
  [ Kmap KERNBASE 0 EXTMEM PTE_W;
    Kmap KERNLINK (V2P KERNLINK) (V2P ld_data) 0;
    Kmap ld_data (V2P ld_data) PHYSTOP PTE_W;
    Kmap DEVSPACE DEVSPACE 0 PTE_W ].

(** Every iteration moves [a] up by a page at least, so a loop up to [oldsz]
    runs at most [oldsz / PGSIZE + 1] times. *)
Definition deallocuvm (pgdir oldsz newsz : Z) : M Z :=
  if oldsz <=? newsz then ret oldsz else
  iter (S (S (Z.to_nat (oldsz / PGSIZE)))) (fun a =>
    if a <? oldsz then
      let* pte := walkpgdir pgdir a false in
      if pte =? 0 then ret (inl (u32 (u32 (PGADDR (PDX a + 1) 0 0 - PGSIZE) + PGSIZE))) else
      let* e := ld32 pte in
      when (truthy (Z.land e PTE_P))
        (let pa := PTE_ADDR e in
         if pa =? 0 then panic "kfree" else
         kfree (P2V pa) ;;
         st32 pte 0) ;;
      ret (inl (u32 (a + PGSIZE)))
    else ret (inr newsz)) (PGROUNDUP newsz).

Definition freevm (pgdir : Z) : M unit :=
  if pgdir =? 0 then panic "freevm: no pgdir" else
  let* _ := deallocuvm pgdir KERNBASE 0 in
  for_each (seq 0 NPDENTRIES) (fun i =>
    let* e := ld32 (pgdir + 4 * Z.of_nat i) in
    when (truthy (Z.land e PTE_P)) (kfree (P2V (PTE_ADDR e)))) ;;
  kfree pgdir.

Definition setupkvm : M Z :=
  let* pgdir := kalloc in
  if pgdir =? 0 then ret 0 else
  modify (upd_mem (memset pgdir 0 PGSIZE)) ;;
  if DEVSPACE <? P2V PHYSTOP then panic "PHYSTOP too high" else
  let* r := for_find kmap (fun m =>
    let* r := mappages pgdir (virt m) (u32 (phys_end m - phys_start m)) (phys_start m) (perm m) in
    if r <? 0 then freevm pgdir ;; ret (Some 0) else ret None) in
  match r with
  | Some v => ret v
  | None => ret pgdir
  end.

Definition kvmalloc : M unit :=
  let* p := setupkvm in
  modify (upd_kpgdir (fun _ => p)) ;;
  switchkvm.

(** Bytes that come from outside kernel memory (the linked initcode, a string
    on the stack of the caller) written at [a]. *)
Definition put_bytes (a : Z) (l : list Z) (m : memory) : memory :=
  fun x => match l !! Z.to_nat (x - a) with
           | Some b => if a <=? x then u8 b else m x
           | None => m x
           end.

Definition inituvm (pgdir : Z) (init : list Z) : M unit :=
  if PGSIZE <=? Z.of_nat (length init) then panic "inituvm: more than a page" else
  let* p := kalloc in
  if p =? 0 then fault "inituvm: null page" else
  modify (upd_mem (memset p 0 PGSIZE)) ;;
  let* _ := mappages pgdir 0 PGSIZE (V2P p) (Z.lor PTE_W PTE_U) in
  modify (upd_mem (put_bytes p init)).

Definition allocuvm (pgdir oldsz newsz : Z) : M Z :=
  if KERNBASE <=? newsz then ret 0 else
  if newsz <? oldsz then ret oldsz else
  iter (S (S (Z.to_nat (newsz / PGSIZE)))) (fun a =>
    if a <? newsz then
      let* p := kalloc in
      if p =? 0 then
        cprintf (chars "allocuvm out of memory" ++ [10]) [] ;;
        let* _ := deallocuvm pgdir newsz oldsz in
        ret (inr 0)
      else
      modify (upd_mem (memset p 0 PGSIZE)) ;;
      let* r := mappages pgdir a PGSIZE (V2P p) (Z.lor PTE_W PTE_U) in
      if r <? 0 then
        cprintf (chars "allocuvm out of memory (2)" ++ [10]) [] ;;
        let* _ := deallocuvm pgdir newsz oldsz in
        kfree p ;;
        ret (inr 0)
      else ret (inl (u32 (a + PGSIZE)))
    else ret (inr newsz)) (PGROUNDUP oldsz).

Definition clearpteu (pgdir uva : Z) : M unit :=
  let* pte := walkpgdir pgdir uva false in
  if pte =? 0 then panic "clearpteu" else
  let* e := ld32 pte in
  st32 pte (Z.land e (Z.lnot PTE_U)).

Definition copyuvm (pgdir sz : Z) : M Z :=
  let* d := setupkvm in
  if d =? 0 then ret 0 else
  let bad := freevm d ;; ret (inr 0) in
  iter (S (S (Z.to_nat (sz / PGSIZE)))) (fun i =>
    if i <? sz then
      let* pte := walkpgdir pgdir i false in
      if pte =? 0 then panic "copyuvm: pte should exist" else
      let* e := ld32 pte in
      if negb (truthy (Z.land e PTE_P)) then panic "copyuvm: page not present" else
      let pa := PTE_ADDR e in
      let flags := PTE_FLAGS e in
      let* p := kalloc in
      if p =? 0 then bad else
      modify (upd_mem (memmove p (P2V pa) PGSIZE)) ;;
      let* r := mappages d i PGSIZE (V2P p) flags in
      if r <? 0 then kfree p ;; bad
      else ret (inl (u32 (i + PGSIZE)))
    else ret (inr d)) 0.

(** [uva2ka] dereferences the entry without checking that there is one: with
    no page table for [uva] it reads address 0. *)
Definition uva2ka (pgdir uva : Z) : M Z :=
  let* pte := walkpgdir pgdir uva false in
  if pte =? 0 then fault "uva2ka: null pte" else
  let* e := ld32 pte in
  if Z.land e PTE_P =? 0 then ret 0 else
  if Z.land e PTE_U =? 0 then ret 0 else
  ret (P2V (PTE_ADDR e)).

Definition copyout (pgdir va : Z) (p : list Z) : M Z :=
  iter (S (length p)) (fun '(va, buf) =>
    match buf with
    | [] => ret (inr 0)
    | _ =>
        let va0 := PGROUNDDOWN va in
        let* pa0 := uva2ka pgdir va0 in
        if pa0 =? 0 then ret (inr (-1)) else
        let n := Z.min (PGSIZE - (va - va0)) (Z.of_nat (length buf)) in
        modify (upd_mem (put_bytes (pa0 + (va - va0)) (take (Z.to_nat n) buf))) ;;
        ret (inl (u32 (va0 + PGSIZE), drop (Z.to_nat n) buf))
    end) (va, p).

(** ** User addresses in the kernel

    The kernel reads and writes the memory of the process it runs for through
    the page table in CR3; an address that is not mapped is a page fault,
    and so is a write where the entry of the directory or that of the table
    does not allow it. *)

Definition user_addr (va : Z) (wr : bool) : M Z :=
  let* root := gets (fun k => P2V (cr3 (hw k))) in
  let* pde := ld32 (root + 4 * PDX va) in
  if negb (truthy (Z.land pde PTE_P)) then fault "page fault" else
  let* pte := ld32 (P2V (PTE_ADDR pde) + 4 * PTX va) in
  if negb (truthy (Z.land pte PTE_P)) then fault "page fault" else
  if wr && negb (truthy (Z.land pde PTE_W) && truthy (Z.land pte PTE_W)) then fault "page fault" else
  ret (P2V (PTE_ADDR pte) + va mod PGSIZE).

Definition ldu8 (va : Z) : M Z :=
  let* a := user_addr (u32 va) false in gets (fun k => mem k a).
Definition stu8 (va v : Z) : M unit :=
  let* a := user_addr (u32 va) true in modify (upd_mem (store8 a v)).

Definition ldu32 (va : Z) : M Z :=
  let* b0 := ldu8 va in let* b1 := ldu8 (va + 1) in
  let* b2 := ldu8 (va + 2) in let* b3 := ldu8 (va + 3) in
  ret (b0 + 2 ^ 8 * b1 + 2 ^ 16 * b2 + 2 ^ 24 * b3).
Definition stu32 (va v : Z) : M unit :=
  stu8 va v ;; stu8 (va + 1) (v / 2 ^ 8) ;; stu8 (va + 2) (v / 2 ^ 16) ;; stu8 (va + 3) (v / 2 ^ 24).

(** A buffer of the process: its bytes, and writing bytes to it. *)
Fixpoint ldu_bytes (va : Z) (n : nat) : M (list Z) :=
  match n with
  | O => ret []
  | S n => let* b := ldu8 va in let* l := ldu_bytes (va + 1) n in ret (b :: l)
  end.
Fixpoint stu_bytes (va : Z) (l : list Z) : M unit :=
  match l with
  | [] => ret tt
  | b :: l => stu8 va b ;; stu_bytes (va + 1) l
  end.
End vm.

(** ** Switching address spaces *)

(** The CPU after [switchuvm(p)]: the task state points to the kernel stack of
    the process, CR3 to its page directory. *)
Definition uvm_cpu (ts : Z) (pr : proc) (cp : cpu) : cpu :=
  upd_ts_iomb (fun _ => 0xFFFF)
    (upd_ts_esp0 (fun _ => u32 (kstack pr + KSTACKSIZE))
      (upd_ts_ss0 (fun _ => Z.shiftl SEG_KDATA 3)
        (upd_gdt (alter (fun _ =>
             upd_sd_s (fun _ => 0) (SEG16 STS_T32A ts (sizeof_ts - 1) 0))
           (Z.to_nat SEG_TSS)) cp))).

Definition uvm_hw (pr : proc) (h : hwregs) : hwregs :=
  upd_cr3 (fun _ => V2P (pgdir pr)) (upd_tr (fun _ => u16 (Z.shiftl SEG_TSS 3)) h).

Section switch_facts.
Context `{Machine}.

Definition uvm (c : nat) (pr : proc) (k : kernel) : kernel :=
  upd_hw (uvm_hw pr) (upd_cpus (alter (uvm_cpu (ts_addr c) pr) c) k).

Lemma uvm_ok c pr k : cpu_ok c k -> cpu_ok c (uvm c pr k).
Proof. intros Hok. exact (alter_cpu_ok (uvm_cpu (ts_addr c) pr) ltac:(done) ltac:(done) c k Hok). Qed.

Lemma uvm_depth c pr k : depth c (uvm c pr k) = depth c k.
Proof. exact (alter_cpu_depth (uvm_cpu (ts_addr c) pr) ltac:(done) c k). Qed.

(** Between [pushcli] and [popcli] the CPU's record is changed by [f]. *)
Lemma pop_alter_push c f h k :
  (forall cp, ncli (f cp) = ncli cp) ->
  (forall g cp, f (upd_ncli g cp) = upd_ncli g (f cp)) ->
  (forall h', eflags_if (h h') = eflags_if h') ->
  (forall b h', h (upd_eflags_if (fun _ => b) h') = upd_eflags_if (fun _ => b) (h h')) ->
  cpu_ok c k -> 0 < depth c k ->
  pop c (upd_hw h (upd_cpus (alter f c) (push c k))) = upd_hw h (upd_cpus (alter f c) k).
Proof.
  intros Hn Hf Hh Hh' Hok Hd. pose proof (cpu_ok_if_off _ _ Hok Hd) as Hif.
  destruct Hok as (_ & _ & cp & Hcp & _). unfold depth in Hd. rewrite Hcp in Hd.
  unfold pop, push. kernel_eq.
  - rewrite !list_lookup_alter_eq, Hcp. simpl. rewrite Hn. rec_simpl.
    replace (ncli (if ncli cp =? 0 then _ else cp)) with (ncli cp) by (by case_match).
    rewrite (proj2 (Z.eqb_neq (ncli cp + 1) 1)) by lia. simpl.
    rewrite Hh'. destruct (h (hw k)) eqn:E. specialize (Hh (hw k)). rewrite E in Hh. simpl in Hh.
    unfold upd_eflags_if. simpl. f_equal. congruence.
  - rewrite !list_alter_twice. apply list_alter_ext; [|done]. intros x Hx. simplify_eq.
    rewrite (proj2 (Z.eqb_neq (ncli cp) 0)) by lia. rewrite Hf.
    destruct (f cp); unfold upd_ncli; simpl; f_equal; lia.
Qed.

Lemma switchuvm_eq c i pr k :
  cpu_ok c k -> 0 < depth c k -> ptable k !! i = Some pr ->
  kstack pr <> 0 -> pgdir pr <> 0 ->
  switchuvm (Some i) k = Ret tt (uvm c pr k).
Proof.
  intros Hok Hd Hpr Hks Hpg. unfold switchuvm. mcall get_proc_eq.
  rewrite (proj2 (Z.eqb_neq _ _) Hks), (proj2 (Z.eqb_neq _ _) Hpg).
  mcall (pushcli_eq c). unfold set_gdt, set_cpu.
  assert (Hstep : forall f k', (forall cp, apicid (f cp) = apicid cp) -> (forall cp, ncli (f cp) = ncli cp) ->
    cpu_ok c k' /\ 0 < depth c k' ->
    cpu_ok c (upd_cpus (alter f c) k') /\ 0 < depth c (upd_cpus (alter f c) k')).
  { intros f k' Ha Hn [? ?]. split; [by apply alter_cpu_ok | by rewrite alter_cpu_depth]. }
  assert (cpu_ok c (push c k) /\ 0 < depth c (push c k)) as H0.
  { split; [by apply push_ok | rewrite push_depth by done; lia]. }
  assert (Hmy : forall k', cpu_ok c k' /\ 0 < depth c k' -> mycpu k' = Ret c k').
  { intros k' [? ?]. by apply mycpu_deep. }
  pose proof (cpu_ok_lt _ _ (proj1 H0)) as Hlt.
  do 5 (mcall Hmy by (repeat (apply Hstep; [done | done |]); exact H0)).
  unfold ltr, lcr3. mrun.
  set (k' := upd_hw _ _).
  assert (k' = upd_hw (uvm_hw pr) (upd_cpus (alter (uvm_cpu (ts_addr c) pr) c) (push c k))) as ->.
  { unfold k'. kernel_eq. rewrite !list_alter_twice. apply list_alter_ext; [|done]. intros x Hx.
    destruct x. unfold uvm_cpu, upd_gdt, upd_ts_iomb, upd_ts_esp0, upd_ts_ss0. simpl. f_equal.
    by rewrite list_alter_twice. }
  rewrite (popcli_eq c).
  - unfold uvm. by rewrite pop_alter_push.
  - exact (proj1 (Hstep (uvm_cpu (ts_addr c) pr) (push c k) ltac:(done) ltac:(done) H0)).
  - exact (proj2 (Hstep (uvm_cpu (ts_addr c) pr) (push c k) ltac:(done) ltac:(done) H0)).
Qed.
End switch_facts.
