(* ===== verification/Paging.v ===== *)
(** The page tables of vm.c as address spaces: what [walkpgdir], [mappages],
    [allocuvm] and [copyuvm] do to the translation of addresses that the
    hardware makes with the tables in memory. *)

From Stdlib Require Import FunctionalExtensionality.
From S2P Require Import Prelude Memory KString Kernel Spinlock Boot Kalloc Vm.

(** ** Addresses *)

Lemma PDX_eq va : 0 <= va < 2 ^ 32 -> PDX va = va / 2 ^ 22.
Proof.
  intros Hva. unfold PDX, PDXSHIFT. rewrite u32_small, Z.shiftr_div_pow2 by lia. change 0x3FF with (Z.ones 10).
  rewrite Z.land_ones by lia. apply Z.mod_small. split; [apply Z.div_pos; lia | apply Z.div_lt_upper_bound; lia].
Qed.

Lemma PTX_eq va : 0 <= va < 2 ^ 32 -> PTX va = va / 2 ^ 12 mod 2 ^ 10.
Proof.
  intros Hva. unfold PTX, PTXSHIFT. rewrite u32_small, Z.shiftr_div_pow2 by lia. change 0x3FF with (Z.ones 10).
  by rewrite Z.land_ones by lia.
Qed.

Lemma PDX_next a : 0 <= a -> a + PGSIZE < 2 ^ 32 -> PDX (a + PGSIZE) = PDX a \/ PDX (a + PGSIZE) = PDX a + 1.
Proof. intros Ha He. unfold PGSIZE in *. rewrite !PDX_eq by lia. Z.div_mod_to_equations. lia. Qed.

Lemma PDX_range va : 0 <= PDX va < 1024.
Proof.
  unfold PDX. change 0x3FF with (Z.ones 10). rewrite Z.land_ones by lia. apply Z.mod_pos_bound. lia.
Qed.

Lemma PTX_range va : 0 <= PTX va < 1024.
Proof.
  unfold PTX. change 0x3FF with (Z.ones 10). rewrite Z.land_ones by lia. apply Z.mod_pos_bound. lia.
Qed.

Lemma ldiff_page e : 0 <= e -> Z.land e (Z.lnot 0xFFF) = PGSIZE * (e / PGSIZE).
Proof.
  intros He. change 0xFFF with (Z.ones 12). rewrite <- Z.ldiff_land, Z.ldiff_ones_r by lia.
  rewrite Z.shiftl_mul_pow2, Z.shiftr_div_pow2 by lia. change (2 ^ 12) with PGSIZE. lia.
Qed.

Lemma PTE_ADDR_eq e : 0 <= e -> PTE_ADDR e = PGSIZE * (e / PGSIZE).
Proof. apply ldiff_page. Qed.
Lemma PGROUNDDOWN_eq a : 0 <= a -> PGROUNDDOWN a = PGSIZE * (a / PGSIZE).
Proof. apply ldiff_page. Qed.
Lemma PTE_FLAGS_eq e : PTE_FLAGS e = e mod PGSIZE.
Proof. unfold PTE_FLAGS. change 0xFFF with (Z.ones 12). by rewrite Z.land_ones by lia. Qed.

(** Two addresses with the same indices are on the same page. *)
Lemma same_page a b :
  0 <= a < 2 ^ 32 -> 0 <= b < 2 ^ 32 -> (PDX a = PDX b /\ PTX a = PTX b <-> a / PGSIZE = b / PGSIZE).
Proof.
  intros Ha Hb. rewrite !PDX_eq, !PTX_eq by done. unfold PGSIZE.
  change (2 ^ 22) with (2 ^ 12 * 2 ^ 10). rewrite <- !Z.div_div by lia. change (2 ^ 12) with 4096. change (2 ^ 10) with 1024.
  split; [intros [H1 H2] | intros ->; done].
  rewrite (Z.div_mod (a / 4096) 1024), (Z.div_mod (b / 4096) 1024) by lia. by rewrite H1, H2.
Qed.

Lemma same_PDX a b : 0 <= a < 2 ^ 32 -> 0 <= b < 2 ^ 32 -> a / PGSIZE = b / PGSIZE -> PDX a = PDX b.
Proof. intros Ha Hb E. exact (proj1 (proj2 (same_page a b Ha Hb) E)). Qed.

(** A page address with flags in its low bits. *)
Lemma lor_page q f : 0 <= f < PGSIZE -> Z.lor (PGSIZE * q) f = PGSIZE * q + f.
Proof.
  intros Hf. apply Z.bits_inj'. intros n Hn. unfold PGSIZE in *. rewrite Z.lor_spec.
  replace (4096 * q) with (q * 2 ^ 12) by lia. destruct (Z.lt_ge_cases n 12).
  - rewrite Z.mul_pow2_bits_low by lia. simpl. replace (q * 2 ^ 12 + f) with (f + q * 2 ^ 12) by lia.
    rewrite <- (Z.mod_pow2_bits_low (f + q * 2 ^ 12) 12) by lia. rewrite Z.mod_add by lia.
    by rewrite Z.mod_pow2_bits_low by lia.
  - assert (Z.testbit f n = false) as ->.
    { destruct (Z.eq_dec f 0) as [->|]; [apply Z.testbit_0_l|]. apply Z.bits_above_log2; [lia|].
      apply Z.log2_lt_pow2; [lia|]. apply Z.lt_le_trans with (2 ^ 12); [lia|]. apply Z.pow_le_mono_r; lia. }
    rewrite orb_false_r. rewrite !Z.testbit_odd, !Z.shiftr_div_pow2 by lia. f_equal.
    replace n with (12 + (n - 12)) by lia. rewrite Z.pow_add_r by lia. rewrite <- !Z.div_div by lia. f_equal.
    rewrite Z.div_mul by lia. symmetry. rewrite Z.add_comm, Z.div_add by lia. rewrite Z.div_small by lia. lia.
Qed.

Definition present (e : Z) : bool := truthy (Z.land e PTE_P).

Lemma present_odd e : present e = Z.odd e.
Proof.
  unfold present, truthy, PTE_P. change 1 with (Z.ones 1). rewrite Z.land_ones by lia. change (2 ^ 1) with 2.
  rewrite Zmod_odd. by destruct (Z.odd e).
Qed.

Lemma present_page q f : present (PGSIZE * q + f) = Z.odd f.
Proof. rewrite present_odd, Z.odd_add, Z.odd_mul. change (Z.odd PGSIZE) with false. by rewrite andb_false_l, xorb_false_l. Qed.

(** The flags of an entry that is made present. *)
Lemma flags_range f : 0 <= f < PGSIZE -> 0 <= Z.lor f PTE_P < PGSIZE /\ Z.odd (Z.lor f PTE_P) = true.
Proof.
  intros Hf. split.
  - split; [apply Z.lor_nonneg; unfold PTE_P; lia|]. unfold PGSIZE in *.
    destruct (Z.eq_dec f 0) as [->|]; [done|]. change 4096 with (2 ^ 12) in *.
    assert (0 < Z.lor f PTE_P) by (assert (Z.lor f PTE_P <> 0); [rewrite Z.lor_eq_0_iff; lia | assert (0 <= Z.lor f PTE_P) by (apply Z.lor_nonneg; unfold PTE_P; lia); lia]).
    apply Z.log2_lt_pow2; [done|]. rewrite Z.log2_lor by (unfold PTE_P; lia).
    apply Z.max_lub_lt; [apply Z.log2_lt_pow2; lia | done].
  - rewrite <- Z.bit0_odd, Z.lor_spec. by rewrite orb_true_r.
Qed.

Section paging.
Context `{Machine}.

Lemma page_V2P p : page_ok p -> V2P p = p - KERNBASE /\ exists q, p - KERNBASE = PGSIZE * q /\ 0 <= q /\ PGSIZE * q < PHYSTOP.
Proof.
  intros Hp. pose proof (page_ok_kern p Hp) as Hk. destruct Hp as (Hr & Ha & _). split.
  - unfold V2P. apply u32_small. unfold KERNBASE, PHYSTOP in *. lia.
  - exists ((p - KERNBASE) / PGSIZE). assert ((p - KERNBASE) mod PGSIZE = 0) as E.
    { revert Ha. unfold KERNBASE, PGSIZE. intros. Z.div_mod_to_equations. lia. }
    pose proof (Z.div_mod (p - KERNBASE) PGSIZE ltac:(done)) as D. rewrite E, Z.add_0_r in D.
    split; [done|]. unfold PHYSTOP, KERNBASE, PGSIZE in *. split; [apply Z.div_pos; lia | lia].
Qed.

(** What an entry says of the page it was made for. *)
Lemma entry_page p f :
  page_ok p -> 0 <= f < PGSIZE ->
  P2V (PTE_ADDR (V2P p + f)) = p /\ 0 <= V2P p + f < 2 ^ 32.
Proof.
  intros Hp Hf. destruct (page_V2P p Hp) as (-> & q & Hq & Hq0 & Hqm). rewrite Hq.
  assert (0 <= PGSIZE * q + f < 2 ^ 32) as Hr by (unfold PGSIZE, PHYSTOP in *; lia). split; [|done].
  rewrite PTE_ADDR_eq by lia. replace (PGSIZE * q + f) with (f + q * PGSIZE) by lia. rewrite Z.div_add by done.
  rewrite Z.div_small, Z.add_0_l by done. unfold P2V. rewrite <- Hq. replace (p - KERNBASE + KERNBASE) with p by lia.
  apply u32_small, Hp.
Qed.

(** ** Address spaces *)

(** The entry of the directory with index [i], the page table it points to, and
    the entry of the table for an address: 0 when there is no page table. *)
Definition pde (m : memory) (pd i : Z) : Z := load32 m (pd + 4 * i).

Definition tab (m : memory) (pd i : Z) : option Z :=
  let e := pde m pd i in
  if present e then Some (P2V (PTE_ADDR e)) else None.

Definition pte (m : memory) (pd va : Z) : Z :=
  match tab m pd (PDX va) with
  | Some t => load32 m (t + 4 * PTX va)
  | None => 0
  end.

(** A page directory: its tables are pages of their own, and its entries leave
    the permissions to those of the tables. *)
Record space (m : memory) (pd : Z) : Prop := {
  sp_pd : page_ok pd;
  sp_tab i t : 0 <= i < 1024 -> tab m pd i = Some t -> page_ok t /\ t <> pd;
  sp_inj i j t : 0 <= i < 1024 -> 0 <= j < 1024 -> tab m pd i = Some t -> tab m pd j = Some t -> i = j;
  sp_open i t : 0 <= i < 1024 -> tab m pd i = Some t -> Z.land (pde m pd i) 7 = 7;
}.

Definition owned (m : memory) (pd q : Z) : Prop := q = pd \/ exists i, 0 <= i < 1024 /\ tab m pd i = Some q.

(** The directory and its tables are not free. *)
Record vm_ok (c : nat) (pd : Z) (l : list Z) (k : kernel) : Prop := {
  vm_ready : kmem_ready c k;
  vm_free : kmem_ok k l;
  vm_space : space (mem k) pd;
  vm_used q : owned (mem k) pd q -> q ∉ l;
}.

(** Words in different pages, or at different places of one. *)
Lemma page_words p q i j :
  page_ok p -> page_ok q -> 0 <= i < 1024 -> 0 <= j < 1024 -> p <> q \/ i <> j ->
  p + 4 * i + 4 <= q + 4 * j \/ q + 4 * j + 4 <= p + 4 * i.
Proof.
  intros (_ & Hp & _) (_ & Hq & _) Hi Hj Hne. destruct (Z.eq_dec p q) as [->|Hpq]; [lia|].
  destruct (page_disjoint p q Hp Hq Hpq); unfold PGSIZE in *; lia.
Qed.

Lemma load_zeroed m p q i :
  page_ok p -> page_ok q -> 0 <= i < 1024 ->
  load32 (memset q 0 PGSIZE m) (p + 4 * i) = if p =? q then 0 else load32 m (p + 4 * i).
Proof.
  intros (_ & Hp & _) (_ & Hq & _) Hi.
  rewrite (load32_ext _ (stosb q 0 PGSIZE m)) by (intros; apply memset_eq; done). destruct (Z.eqb_spec p q) as [->|Hne].
  - apply load32_zeroed; unfold PGSIZE; lia.
  - apply load32_stosb_ne. destruct (page_disjoint p q Hp Hq Hne); unfold PGSIZE in *; lia.
Qed.

(** Writing an entry of a table. *)
Lemma pde_set m pd t i j v :
  space m pd -> page_ok t -> t <> pd -> 0 <= i < 1024 -> 0 <= j < 1024 ->
  pde (store32 (t + 4 * j) v m) pd i = pde m pd i.
Proof.
  intros Hs Ht Hne Hi Hj. unfold pde. rewrite load32_store32_ne; [done|].
  destruct (page_words pd t i j (sp_pd _ _ Hs) Ht Hi Hj) as [|]; [left; congruence | lia..].
Qed.

Lemma tab_ext m m' pd i : pde m' pd i = pde m pd i -> tab m' pd i = tab m pd i.
Proof. unfold tab. by intros ->. Qed.

Lemma space_ext m m' pd : (forall i, 0 <= i < 1024 -> pde m' pd i = pde m pd i) -> space m pd -> space m' pd.
Proof.
  intros Ht [Hpd Htab Hinj Hopen]. split; [done | | |].
  - intros i t Hi. rewrite (tab_ext m) by auto. by apply Htab.
  - intros i j t Hi Hj. rewrite !(tab_ext m m') by auto. by apply Hinj.
  - intros i t Hi. rewrite (tab_ext m), Ht by auto. by apply Hopen.
Qed.

Lemma owned_ext m m' pd q : (forall i, 0 <= i < 1024 -> pde m' pd i = pde m pd i) -> owned m' pd q <-> owned m pd q.
Proof.
  intros Ht. unfold owned. split; (intros [->|(i & Hi & E)]; [by left|right; exists i; split; [done|]]).
  - by rewrite <- (tab_ext m m') by auto.
  - by rewrite (tab_ext m m') by auto.
Qed.

Lemma pte_set m pd va t v x :
  space m pd -> 0 <= va < 2 ^ 32 -> 0 <= x < 2 ^ 32 -> tab m pd (PDX va) = Some t ->
  pte (store32 (t + 4 * PTX va) v m) pd x = if x / PGSIZE =? va / PGSIZE then u32 v else pte m pd x.
Proof.
  intros Hs Hva Hx Ht. pose proof (PDX_range va) as Hdv. pose proof (PDX_range x) as Hdx.
  pose proof (PTX_range va) as Htv. pose proof (PTX_range x) as Htx.
  destruct (sp_tab _ _ Hs _ _ Hdv Ht) as [Hp Hne]. unfold pte. rewrite (tab_ext m) by by apply pde_set.
  destruct (Z.eqb_spec (x / PGSIZE) (va / PGSIZE)) as [E|E].
  - apply same_page in E as [-> ->]; [|done..]. rewrite Ht. apply load32_store32.
  - destruct (tab m pd (PDX x)) as [t'|] eqn:Ht'; [|done]. destruct (sp_tab _ _ Hs _ _ Hdx Ht') as [Hp' _].
    apply load32_store32_ne. destruct (page_words t' t (PTX x) (PTX va) Hp' Hp Htx Htv) as [|]; [|lia..].
    destruct (Z.eq_dec t' t) as [->|]; [|by left]. right. intros E2. apply E, same_page; [done..|].
    split; [exact (sp_inj _ _ Hs _ _ _ Hdx Hdv Ht' Ht) | done].
Qed.

(** A new table. *)
Definition with_table (pd i p : Z) (m : memory) : memory :=
  store32 (pd + 4 * i) (V2P p + 7) (memset p 0 PGSIZE m).

Lemma pde_new m pd i p j :
  space m pd -> page_ok p -> p <> pd -> 0 <= i < 1024 -> 0 <= j < 1024 ->
  pde (with_table pd i p m) pd j = if j =? i then V2P p + 7 else pde m pd j.
Proof.
  intros Hs Hp Hne Hi Hj. pose proof (sp_pd _ _ Hs) as Hpd. unfold pde, with_table.
  destruct (entry_page p 7 Hp) as [Ep Er]; [unfold PGSIZE; lia|].
  destruct (Z.eqb_spec j i) as [->|Hji]; [by rewrite load32_store32, u32_small|].
  rewrite load32_store32_ne by (destruct (page_words pd pd j i Hpd Hpd Hj Hi); [by right | lia..]).
  rewrite load_zeroed by done. by destruct (Z.eqb_spec pd p) as [->|].
Qed.

Lemma tab_new m pd i p j :
  space m pd -> page_ok p -> p <> pd -> 0 <= i < 1024 -> 0 <= j < 1024 ->
  tab (with_table pd i p m) pd j = if j =? i then Some p else tab m pd j.
Proof.
  intros Hs Hp Hne Hi Hj. unfold tab. rewrite pde_new by done. destruct (j =? i); [|done].
  destruct (entry_page p 7 Hp) as [Ep Er]; [unfold PGSIZE; lia|]. destruct (page_V2P p Hp) as (E & q & Hq & _).
  rewrite E, Hq, present_page. rewrite <- Hq, <- E. cbn [Z.odd]. by rewrite Ep.
Qed.

Lemma pte_new m pd i p x :
  space m pd -> page_ok p -> ~ owned m pd p -> 0 <= i < 1024 -> tab m pd i = None ->
  pte (with_table pd i p m) pd x = pte m pd x.
Proof.
  intros Hs Hp Hno Hi Hnone. pose proof (sp_pd _ _ Hs) as Hpd. pose proof (PDX_range x) as Hd. pose proof (PTX_range x) as Ht.
  assert (p <> pd) as Hne by (intros ->; apply Hno; by left).
  unfold pte. rewrite tab_new by done. unfold with_table. destruct (Z.eqb_spec (PDX x) i) as [E|E].
  - rewrite E, Hnone. rewrite load32_store32_ne by (destruct (page_words p pd (PTX x) i Hp Hpd Ht Hi); [by left | lia..]).
    rewrite load_zeroed by done. by rewrite Z.eqb_refl.
  - destruct (tab m pd (PDX x)) as [t|] eqn:Et; [|done]. destruct (sp_tab _ _ Hs _ _ Hd Et) as [Hpt Hnt].
    rewrite load32_store32_ne by (destruct (page_words t pd (PTX x) i Hpt Hpd Ht Hi); [by left | lia..]).
    rewrite load_zeroed by done. destruct (Z.eqb_spec t p) as [->|]; [|done].
    exfalso. apply Hno. right. by exists (PDX x).
Qed.

Lemma open_entry p : page_ok p -> Z.land (V2P p + 7) 7 = 7.
Proof.
  intros Hp. destruct (page_V2P p Hp) as (-> & q & -> & _). change 7 with (Z.ones 3) at 2. rewrite Z.land_ones by lia.
  unfold PGSIZE. replace (4096 * q + 7) with (7 + (512 * q) * 2 ^ 3) by lia. by rewrite Z.mod_add.
Qed.

Lemma space_new m pd i p :
  space m pd -> page_ok p -> ~ owned m pd p -> 0 <= i < 1024 -> space (with_table pd i p m) pd.
Proof.
  intros Hs Hp Hno Hi. assert (p <> pd) as Hne by (intros ->; apply Hno; by left). split; [exact (sp_pd _ _ Hs) | | |].
  - intros j t Hj. rewrite tab_new by done. destruct (j =? i); [intros [= <-]; done|]. by apply (sp_tab _ _ Hs).
  - intros j1 j2 t H1 H2. rewrite !tab_new by done. destruct (Z.eqb_spec j1 i) as [->|N1], (Z.eqb_spec j2 i) as [->|N2].
    + done.
    + intros [= <-] E. exfalso. apply Hno. right. by exists j2.
    + intros E [= <-]. exfalso. apply Hno. right. by exists j1.
    + by apply (sp_inj _ _ Hs).
  - intros j t Hj. rewrite tab_new, pde_new by done. destruct (j =? i); [intros _|by apply (sp_open _ _ Hs)].
    by apply open_entry.
Qed.

Lemma tables_owned_new m pd i p q :
  space m pd -> page_ok p -> p <> pd -> 0 <= i < 1024 -> owned (with_table pd i p m) pd q -> owned m pd q \/ q = p.
Proof.
  intros Hs Hp Hne Hi [->|(j & Hj & E)]; [left; by left|]. rewrite tab_new in E by done.
  destruct (j =? i); [simplify_eq; by right|]. left. right. by exists j.
Qed.

(** *** walkpgdir *)

Lemma walkpgdir_found pd va alloc t k :
  tab (mem k) pd (PDX va) = Some t -> walkpgdir pd va alloc k = Ret (t + 4 * PTX va) k.
Proof.
  unfold tab, pde, walkpgdir, present. intros E. mrun. case_match; [|done]. by simplify_eq.
Qed.

Lemma walkpgdir_none pd va k : tab (mem k) pd (PDX va) = None -> walkpgdir pd va false k = Ret 0 k.
Proof. unfold tab, pde, walkpgdir, present. intros E. mrun. by case_match. Qed.

(** The kernel with the first free page taken and the memory changed by [f]. *)
Definition took (c : nat) (p : Z) (f : memory -> memory) (k : kernel) : kernel :=
  upd_mem f (upd_freelist (fun _ => load32 (mem k) p) (ktouch c k)).

Lemma mem_took c p f k : mem (took c p f k) = f (mem k).
Proof. unfold took. rec_simpl. by rewrite mem_ktouch. Qed.

Lemma entry_bits p : page_ok p -> Z.lor (Z.lor (Z.lor (V2P p) PTE_P) PTE_W) PTE_U = V2P p + 7.
Proof.
  intros Hp. destruct (page_V2P p Hp) as (-> & q & -> & _). rewrite <- !Z.lor_assoc. by apply lor_page.
Qed.

Lemma walkpgdir_new c pd va p l k :
  vm_ok c pd (p :: l) k -> tab (mem k) pd (PDX va) = None ->
  walkpgdir pd va true k = Ret (p + 4 * PTX va) (took c p (with_table pd (PDX va) p) k).
Proof.
  intros Hvm E. pose proof (vm_free _ _ _ _ Hvm) as Hk. pose proof Hk as (_ & _ & _ & Hok).
  apply list.Forall_cons in Hok as [Hp _].
  unfold tab, pde in E. unfold walkpgdir. fold (present (load32 (mem k) (pd + 4 * PDX va))) . mrun.
  fold (present (load32 (mem k) (pd + 4 * PDX va))). destruct (present _); [done|]. cbn [negb].
  mcall (kalloc_eq c k (p :: l) (vm_ready _ _ _ _ Hvm) Hk). rewrite (proj2 (Z.eqb_neq _ _) (page_ok_nonzero p Hp)). mrun.
  unfold ret. f_equal. unfold took, with_table. rewrite entry_bits by done. kernel_eq.
Qed.

Lemma walkpgdir_full c pd va k :
  vm_ok c pd [] k -> tab (mem k) pd (PDX va) = None -> walkpgdir pd va true k = Ret 0 (ktouch c k).
Proof.
  intros Hvm E. unfold tab, pde in E. unfold walkpgdir. mrun. fold (present (load32 (mem k) (pd + 4 * PDX va))).
  destruct (present _); [done|]. cbn [negb].
  by mcall (kalloc_eq c k [] (vm_ready _ _ _ _ Hvm) (vm_free _ _ _ _ Hvm)).
Qed.

(** Memory changed in pages that are not free. *)
Lemma kmem_ok_mem f k l :
  mem_ok (f (mem k)) -> (forall p x, p ∈ l -> p <= x < p + 4 -> f (mem k) x = mem k x) -> kmem_ok k l -> kmem_ok (upd_mem f k) l.
Proof.
  intros Hm Hsame (_ & Hfl & Hnd & Hok). unfold kmem_ok. rec_simpl. split_and!; try done.
  by apply (free_list_frame (mem k)).
Qed.

Lemma took_kmem c p f l k :
  kmem_ok k (p :: l) -> mem_ok (f (mem k)) -> (forall q x, q ∈ l -> q <= x < q + 4 -> f (mem k) x = mem k x) ->
  kmem_ok (took c p f k) l.
Proof.
  intros Hk Hm Hsame. unfold took. apply kmem_ok_mem; rec_simpl; rewrite ?mem_ktouch; [done | done|].
  by apply kalloc_ok.
Qed.

Lemma took_ready c p f k : kmem_ready c k -> kmem_ready c (took c p f k).
Proof. intros Hr. exact (kalloc_ready c k _ Hr). Qed.

Lemma ktouch_ready c k : kmem_ready c k -> kmem_ready c (ktouch c k).
Proof. intros Hr. exact (kalloc_ready c k id Hr). Qed.

Lemma ktouch_vm c pd l k : vm_ok c pd l k -> vm_ok c pd l (ktouch c k).
Proof.
  intros [Hr Hk Hs Hu]. split; [by apply ktouch_ready | by apply ktouch_ok | by rewrite mem_ktouch | by rewrite mem_ktouch].
Qed.

Lemma with_table_ok pd i p m : mem_ok m -> mem_ok (with_table pd i p m).
Proof.
  intros Hm. unfold with_table. apply store32_ok. intros x. rewrite memset_eq by done. by apply stosb_ok.
Qed.

Lemma with_table_other pd i p m x :
  page_ok pd -> page_ok p -> 0 <= i < 1024 -> x < p \/ p + PGSIZE <= x -> x < pd \/ pd + PGSIZE <= x ->
  with_table pd i p m x = m x.
Proof.
  intros Hpd Hp Hi Hx1 Hx2. unfold with_table. rewrite store32_other by (unfold PGSIZE in *; lia).
  rewrite memset_eq by done. by apply stosb_out.
Qed.

Lemma walk_vm c pd va p l k :
  vm_ok c pd (p :: l) k -> tab (mem k) pd (PDX va) = None ->
  vm_ok c pd l (took c p (with_table pd (PDX va) p) k).
Proof.
  intros [Hr Hk Hs Hu] E. pose proof Hk as (Hm & _ & Hnd & Hok). pose proof (PDX_range va) as Hd.
  apply list.Forall_cons in Hok as [Hp Hok]. apply list.NoDup_cons in Hnd as [Hpl Hnd].
  assert (~ owned (mem k) pd p) as Hno by (intros Ho; apply (Hu p Ho); constructor).
  assert (p <> pd) as Hne by (intros ->; apply Hno; by left). split.
  - by apply took_ready.
  - apply took_kmem; [done | by apply with_table_ok |]. intros q x Hq Hx.
    pose proof (proj1 (list.Forall_forall _ _) Hok q Hq) as (_ & Hqa & _).
    assert (q <> p) by congruence. assert (q <> pd) by (intros ->; apply (Hu pd); [by left | by right]).
    apply with_table_other; [exact (sp_pd _ _ Hs) | done | done | |].
    + destruct (page_disjoint q p) as [|]; try done; [apply Hp | unfold PGSIZE in *; lia..].
    + destruct (page_disjoint q pd) as [|]; try done; [apply (sp_pd _ _ Hs) | unfold PGSIZE in *; lia..].
  - rewrite mem_took. by apply space_new.
  - intros q. rewrite mem_took. intros Ho Hin. apply tables_owned_new in Ho as [Ho|E2]; try done; [apply (Hu q Ho); by right | by subst q].
Qed.

(** *** mappages *)

(** What working on the tables of [pd] does besides: some of the free pages
    [l] become tables, and only the pages of the directory are written. *)
Record grown (pd : Z) (l l' : list Z) (k k' : kernel) : Prop := {
  gr_free : exists used, l = used ++ l';
  gr_mono q : owned (mem k) pd q -> owned (mem k') pd q;
  gr_new q : owned (mem k') pd q -> owned (mem k) pd q \/ q ∈ l;
  gr_mem x : (forall q, owned (mem k') pd q -> x < q \/ q + PGSIZE <= x) -> mem k' x = mem k x;
  gr_cr3 : cr3 (hw k') = cr3 (hw k);
  gr_ptable : ptable k' = ptable k;
}.

Lemma tables_grown_trans pd l1 l2 l3 k1 k2 k3 :
  grown pd l1 l2 k1 k2 -> grown pd l2 l3 k2 k3 -> grown pd l1 l3 k1 k3.
Proof.
  intros [[u1 ->] Hm1 Hn1 He1 Hc1 Ht1] [[u2 ->] Hm2 Hn2 He2 Hc2 Ht2]. split.
  - exists (u1 ++ u2). by rewrite app_assoc.
  - auto.
  - intros q [[Hq|Hq]%Hn1|Hq]%Hn2; [by left | by right|]. right. apply elem_of_app. by right.
  - intros x Hx. rewrite He2 by done. apply He1. auto.
  - congruence.
  - congruence.
Qed.

Lemma ktouch_frame c k : cr3 (hw (ktouch c k)) = cr3 (hw k) /\ ptable (ktouch c k) = ptable k.
Proof. unfold ktouch. by case_match. Qed.

Lemma grown_touch c pd l k : grown pd l l k (ktouch c k).
Proof.
  destruct (ktouch_frame c k). split; rewrite ?mem_ktouch; try done.
  - by exists [].
  - auto.
Qed.

Lemma grown_table c pd i p l k :
  space (mem k) pd -> page_ok p -> ~ owned (mem k) pd p -> 0 <= i < 1024 -> tab (mem k) pd i = None ->
  grown pd (p :: l) l k (took c p (with_table pd i p) k).
Proof.
  intros Hs Hp Hno Hi Hnone. assert (p <> pd) as Hne by (intros ->; apply Hno; by left).
  destruct (ktouch_frame c k). split; rewrite ?mem_took.
  - by exists [p].
  - intros q [->|(j & Hj & E)]; [by left|]. right. exists j. split; [done|]. rewrite tab_new by done.
    by destruct (Z.eqb_spec j i) as [->|]; [congruence|].
  - intros q [Hq|Hq]%tables_owned_new; try done; [by left | right; subst q; constructor].
  - intros x Hx. apply with_table_other; try done; [exact (sp_pd _ _ Hs)| |apply Hx; by left].
    apply Hx. right. exists i. rewrite tab_new, Z.eqb_refl by done. done.
  - done.
  - done.
Qed.

(** Writing the entry of [va] in its table [t]. *)
Lemma set_entry c pd va t v l k :
  vm_ok c pd l k -> 0 <= va < 2 ^ 32 -> tab (mem k) pd (PDX va) = Some t ->
  vm_ok c pd l (upd_mem (store32 (t + 4 * PTX va) v) k) /\ grown pd l l k (upd_mem (store32 (t + 4 * PTX va) v) k).
Proof.
  intros [Hr Hk Hs Hu] Hva Ht. pose proof (PDX_range va) as Hd. pose proof (PTX_range va) as Hx.
  destruct (sp_tab _ _ Hs _ _ Hd Ht) as [Hp Hne].
  assert (forall i, 0 <= i < 1024 -> pde (store32 (t + 4 * PTX va) v (mem k)) pd i = pde (mem k) pd i) as Htab
    by (intros; by apply pde_set).
  assert (owned (mem k) pd t) as Hown by (right; by exists (PDX va)). split.
  - split; [exact Hr | | by apply (space_ext (mem k)) | intros q Hq; apply Hu; by apply (owned_ext (mem k)) in Hq].
    apply (kmem_ok_frame _ t); [done | by apply Hu | apply store32_ok, Hk | | done].
    intros x Hout. apply store32_other. unfold PGSIZE in *. lia.
  - split; try done.
    + by exists [].
    + intros q. by apply owned_ext.
    + intros q Hq. left. by apply (owned_ext (mem k)) in Hq.
    + intros x Hout. apply store32_other. destruct (Hout t); [by apply (owned_ext (mem k))|..]; unfold PGSIZE in *; lia.
Qed.

(** One page is needed where there is no table. *)
Definition lacks (m : memory) (pd i : Z) : Z := match tab m pd i with Some _ => 0 | None => 1 end.

Lemma lacks_range m pd i : 0 <= lacks m pd i <= 1.
Proof. unfold lacks. case_match; lia. Qed.

(** The table of an address, allocated if need be. *)
Lemma walk_alloc c pd va l k :
  vm_ok c pd l k ->
  (exists t l' k', walkpgdir pd va true k = Ret (t + 4 * PTX va) k' /\ page_ok t /\ tab (mem k') pd (PDX va) = Some t /\
     vm_ok c pd l' k' /\ grown pd l l' k k' /\ (forall x, pte (mem k') pd x = pte (mem k) pd x) /\
     Z.of_nat (length l) <= Z.of_nat (length l') + lacks (mem k) pd (PDX va)) \/
  (l = [] /\ lacks (mem k) pd (PDX va) = 1 /\ walkpgdir pd va true k = Ret 0 (ktouch c k)).
Proof.
  intros Hvm. pose proof (vm_space _ _ _ _ Hvm) as Hs. pose proof (PDX_range va) as Hd.
  destruct (tab (mem k) pd (PDX va)) as [t|] eqn:E.
  { left. exists t, l, k. split_and!; [by apply walkpgdir_found | apply (sp_tab _ _ Hs _ _ Hd E) | done | done | | done|].
    - split; try done; [by exists [] | by left].
    - pose proof (lacks_range (mem k) pd (PDX va)). lia. }
  destruct l as [|p l]; [right; split_and!; [done | unfold lacks; by rewrite E | by apply walkpgdir_full]|]. left.
  pose proof (vm_free _ _ _ _ Hvm) as (_ & _ & _ & Hok). apply list.Forall_cons in Hok as [Hp _].
  assert (~ owned (mem k) pd p) as Hno by (intros Ho; apply (vm_used _ _ _ _ Hvm p Ho); constructor).
  assert (p <> pd) as Hne by (intros ->; apply Hno; by left).
  exists p, l, (took c p (with_table pd (PDX va) p) k). split_and!.
  - by apply (walkpgdir_new c pd va p l k).
  - done.
  - rewrite mem_took, tab_new, Z.eqb_refl by done. done.
  - by apply walk_vm.
  - by apply grown_table.
  - intros x. rewrite mem_took. by apply pte_new.
  - unfold lacks. rewrite E. simpl. lia.
Qed.

(** The entry [mappages] makes for a page. *)
Definition entry (pa perm : Z) : Z := pa + Z.lor perm PTE_P.

(** The entries after the [j] pages from [a] on have been mapped to [pa]. *)
Definition mapping (a pa perm : Z) (j : nat) (old : Z -> Z) (x : Z) : Z :=
  if (a <=? x) && (x <? a + PGSIZE * Z.of_nat j) then entry (pa + (PGSIZE * (x / PGSIZE) - a)) perm else old x.

Lemma entry_bits_perm pa perm :
  0 <= pa -> pa mod PGSIZE = 0 -> 0 <= perm < PGSIZE -> Z.lor (Z.lor pa perm) PTE_P = entry pa perm.
Proof.
  intros Hpa Ha Hperm. rewrite <- Z.lor_assoc. unfold entry.
  replace pa with (PGSIZE * (pa / PGSIZE)) by (pose proof (Z.div_mod pa PGSIZE ltac:(done)); lia).
  apply lor_page. by apply flags_range.
Qed.

Lemma mapping_step a pa perm j old x :
  0 <= x -> a mod PGSIZE = 0 ->
  mapping (a + PGSIZE) (pa + PGSIZE) perm j (fun x => if x / PGSIZE =? a / PGSIZE then entry pa perm else old x) x =
  mapping a pa perm (S j) old x.
Proof.
  intros Hx Ha. unfold mapping. replace (a + PGSIZE * Z.of_nat (S j)) with (a + PGSIZE + PGSIZE * Z.of_nat j) by lia.
  pose proof (Z.div_mod a PGSIZE ltac:(done)) as Da. pose proof (Z.div_mod x PGSIZE ltac:(done)) as Dx.
  pose proof (Z.mod_pos_bound x PGSIZE ltac:(done)) as Bx. assert (0 <= PGSIZE * Z.of_nat j) by (unfold PGSIZE; lia).
  destruct (Z.eqb_spec (x / PGSIZE) (a / PGSIZE)) as [E|E].
  - rewrite (proj2 (Z.leb_gt (a + PGSIZE) x)) by lia. rewrite (proj2 (Z.leb_le a x)) by lia.
    rewrite (proj2 (Z.ltb_lt x (a + PGSIZE + PGSIZE * Z.of_nat j))) by lia. cbn [andb]. f_equal. lia.
  - destruct (Z.leb_spec (a + PGSIZE) x).
    + rewrite (proj2 (Z.leb_le a x)) by lia. destruct (_ <? _); [|done]. cbn [andb]. f_equal. lia.
    + destruct (Z.leb_spec a x); [|done]. exfalso. apply E. unfold PGSIZE in *. Z.div_mod_to_equations. lia.
Qed.

Lemma mapping_0 a pa perm old x : mapping a pa perm 0 old x = old x.
Proof. unfold mapping. destruct (Z.leb_spec a x), (Z.ltb_spec x (a + PGSIZE * Z.of_nat 0)); try done. lia. Qed.

Lemma mapping_ext a pa perm j old old' x : old x = old' x -> mapping a pa perm j old x = mapping a pa perm j old' x.
Proof. unfold mapping. intros ->. done. Qed.

Lemma mappages_loop c pd perm last n a pa l k :
  vm_ok c pd l k -> 0 <= perm < PGSIZE -> (0 < n)%nat -> last = a + PGSIZE * (Z.of_nat n - 1) ->
  0 <= a -> a mod PGSIZE = 0 -> a + PGSIZE * Z.of_nat n <= 2 ^ 32 ->
  0 <= pa -> pa mod PGSIZE = 0 -> pa + PGSIZE * Z.of_nat n <= 2 ^ 32 ->
  (forall x, a <= x < a + PGSIZE * Z.of_nat n -> present (pte (mem k) pd x) = false) ->
  exists r j l' k', iter n (fun '(a, pa) =>
      let* pte := walkpgdir pd a true in
      if pte =? 0 then ret (inr (-1)) else
      let* e := ld32 pte in
      if truthy (Z.land e PTE_P) then panic "remap" else
      st32 pte (Z.lor (Z.lor pa perm) PTE_P) ;;
      if a =? last then ret (inr 0)
      else ret (inl (u32 (a + PGSIZE), u32 (pa + PGSIZE)))) (a, pa) k = Ret r k' /\
    (r = 0 /\ j = n \/ r = -1 /\ (j < n)%nat /\ l' = [] /\
       Z.of_nat (length l) < PDX last - PDX a + lacks (mem k) pd (PDX a)) /\ vm_ok c pd l' k' /\ grown pd l l' k k' /\
    Z.of_nat (length l) <= Z.of_nat (length l') + PDX last - PDX a + lacks (mem k) pd (PDX a) /\
    forall x, 0 <= x < 2 ^ 32 -> pte (mem k') pd x = mapping a pa perm j (pte (mem k) pd) x.
Proof.
  intros Hvm Hperm Hn Hlast. revert a pa l k Hvm Hn Hlast. induction n as [|n IH]; [lia|].
  intros a pa l k Hvm _ Hlast Ha Haa Hae Hpa Hpaa Hpae Hfree. cbn [iter].
  destruct (walk_alloc c pd a l k Hvm) as [(t & l1 & k1 & Hw & Ht & Htab & Hvm1 & Hg1 & Hp1 & Hl1)|(-> & Hlack & Hw)].
  2:{ assert (PDX a <= PDX last) as Hle.
      { rewrite !PDX_eq by (unfold PGSIZE in *; lia). apply Z.div_le_mono; unfold PGSIZE in *; lia. }
      exists (-1), 0%nat, [], (ktouch c k). rewrite bind_assoc, (bind_Ret _ _ _ _ _ Hw). split_and!; [done | | by apply ktouch_vm | apply grown_touch | |].
      - right. split_and!; [done | lia | done | cbn [length]; lia].
      - cbn [length]. lia.
      - intros x Hx. by rewrite mapping_0, mem_ktouch. }
  rewrite bind_assoc, (bind_Ret _ _ _ _ _ Hw).
  pose proof (page_ok_kern t Ht) as Htk. pose proof (PTX_range a).
  rewrite (proj2 (Z.eqb_neq _ 0)) by (unfold KERNBASE in Htk; lia). mrun.
  assert (load32 (mem k1) (t + 4 * PTX a) = pte (mem k) pd a) as ->.
  { rewrite <- Hp1. unfold pte. by rewrite Htab. }
  fold (present (pte (mem k) pd a)). rewrite (Hfree a) by (unfold PGSIZE; lia). mrun.
  destruct (set_entry c pd a t (Z.lor (Z.lor pa perm) PTE_P) l1 k1 Hvm1 ltac:(unfold PGSIZE in *; lia) Htab) as [Hvm2 Hg2].
  pose proof (fun x Hx => pte_set (mem k1) pd a t (Z.lor (Z.lor pa perm) PTE_P) x (vm_space _ _ _ _ Hvm1) ltac:(unfold PGSIZE in *; lia) Hx Htab) as Hp2.
  rewrite entry_bits_perm in * by done. set (k2 := upd_mem _ k1) in *. change (store32 _ _ (mem k1)) with (mem k2) in Hp2.
  assert (u32 (entry pa perm) = entry pa perm) as Ee.
  { apply u32_small. unfold entry. destruct (flags_range perm Hperm). unfold PGSIZE in *. lia. }
  assert (forall x, 0 <= x < 2 ^ 32 -> pte (mem k2) pd x = if x / PGSIZE =? a / PGSIZE then entry pa perm else pte (mem k) pd x) as Hp.
  { intros x Hx. rewrite Hp2, Ee, Hp1 by done. done. }
  destruct (Z.eqb_spec a last) as [E|E].
  - assert (n = 0%nat) as -> by (unfold PGSIZE in *; lia). exists 0, 1%nat, l1, k2. split_and!; [done | by left | done | by eapply tables_grown_trans | rewrite <- E; lia |].
    intros x Hx. rewrite <- mapping_step, mapping_0 by (done || lia). by apply Hp.
  - assert (n <> 0%nat) by (intros ->; apply E; lia). rewrite bind_ret, !u32_small by (unfold PGSIZE in *; lia).
    destruct (IH (a + PGSIZE) (pa + PGSIZE) l1 k2) as (r & j & l' & k' & Hrun & Hr & Hvm' & Hg' & Hl' & Hp');
      [done | lia | lia | unfold PGSIZE in *; lia | | lia | unfold PGSIZE in *; lia | | lia | |].
    { rewrite Z.add_mod, Haa by done. done. }
    { rewrite Z.add_mod, Hpaa by done. done. }
    { intros x Hx. rewrite Hp by (unfold PGSIZE in *; lia). destruct (Z.eqb_spec (x / PGSIZE) (a / PGSIZE)) as [E2|].
      - exfalso. unfold PGSIZE in *. Z.div_mod_to_equations. lia.
      - apply Hfree. unfold PGSIZE in *. lia. }
    assert (PDX (a + PGSIZE) = PDX a /\ lacks (mem k2) pd (PDX (a + PGSIZE)) = 0 \/ PDX (a + PGSIZE) = PDX a + 1) as Hnext.
    { destruct (PDX_next a) as [E2|E2]; [lia | unfold PGSIZE in *; lia | | by right]. left. split; [done|].
      rewrite E2. unfold lacks. assert (tab (mem k2) pd (PDX a) = Some t) as ->; [|done]. rewrite <- Htab.
      destruct (sp_tab _ _ (vm_space _ _ _ _ Hvm1) _ _ (PDX_range a) Htab) as [_ Hne].
      exact (tab_ext _ _ _ _ (pde_set (mem k1) pd t (PDX a) (PTX a) _ (vm_space _ _ _ _ Hvm1) Ht Hne (PDX_range a) (PTX_range a))). }
    pose proof (lacks_range (mem k2) pd (PDX (a + PGSIZE))) as Hlk.
    exists r, (S j), l', k'. split_and!; [exact Hrun | | done | by eapply tables_grown_trans; [eapply tables_grown_trans|] | |].
    + clear -Hr Hl1 Hnext Hlk. destruct Hr as [[-> ->]|(-> & Hj & -> & Hlt)]; [by left | right; split_and!; [done | lia | done | lia]].
    + clear -Hl' Hl1 Hnext Hlk. lia.
    + intros x Hx. rewrite Hp' by done. rewrite <- mapping_step by (done || lia). apply mapping_ext. by apply Hp.
Qed.

(** The pages a range touches. *)
Definition npages (va size : Z) : nat := Z.to_nat ((va + size - 1) / PGSIZE - va / PGSIZE + 1).

Lemma mappages_spec c pd va size pa perm l k :
  let a := PGROUNDDOWN va in
  let n := npages va size in
  vm_ok c pd l k -> 0 <= perm < PGSIZE -> 0 <= va -> 0 < size -> va + size <= 2 ^ 32 ->
  0 <= pa -> pa mod PGSIZE = 0 -> pa + PGSIZE * Z.of_nat n <= 2 ^ 32 ->
  (forall x, a <= x < a + PGSIZE * Z.of_nat n -> present (pte (mem k) pd x) = false) ->
  exists r j l' k', mappages pd va size pa perm k = Ret r k' /\
    (r = 0 /\ j = n \/ r = -1 /\ (j < n)%nat /\ l' = [] /\
       Z.of_nat (length l) < PDX (va + size - 1) - PDX va + lacks (mem k) pd (PDX va)) /\ vm_ok c pd l' k' /\ grown pd l l' k k' /\
    Z.of_nat (length l) <= Z.of_nat (length l') + PDX (va + size - 1) - PDX va + lacks (mem k) pd (PDX va) /\
    forall x, 0 <= x < 2 ^ 32 -> pte (mem k') pd x = mapping a pa perm j (pte (mem k) pd) x.
Proof.
  intros a n Hvm Hperm Hva Hsize Hend Hpa Hpaa Hpae Hfree.
  pose proof (Z.div_le_mono va (va + size - 1) PGSIZE ltac:(done) ltac:(lia)) as Hle.
  pose proof (Z.div_mod va PGSIZE ltac:(done)). pose proof (Z.mod_pos_bound va PGSIZE ltac:(done)).
  pose proof (Z.div_mod (va + size - 1) PGSIZE ltac:(done)). pose proof (Z.mod_pos_bound (va + size - 1) PGSIZE ltac:(done)).
  assert (a = PGSIZE * (va / PGSIZE)) as Ea by by apply PGROUNDDOWN_eq.
  assert (PGROUNDDOWN (u32 (va + size - 1)) = a + PGSIZE * (Z.of_nat n - 1)) as El.
  { rewrite u32_small, PGROUNDDOWN_eq by lia. rewrite Ea. unfold n, npages. rewrite Z2Nat.id by lia. lia. }
  assert (0 <= va / PGSIZE) by (apply Z.div_pos; done).
  assert (a + PGSIZE * Z.of_nat n <= 2 ^ 32) as Hae.
  { rewrite Ea. unfold n, npages. rewrite Z2Nat.id by lia. unfold PGSIZE in *. lia. }
  assert (1 <= n)%nat as Hn by (unfold n, npages; lia). assert (0 <= a) as Ha by (rewrite Ea; by apply Z.mul_nonneg_nonneg).
  unfold mappages. fold a. rewrite El. rewrite (u32_small (a + _ - a)) by (unfold PGSIZE in *; lia).
  replace (a + PGSIZE * (Z.of_nat n - 1) - a) with ((Z.of_nat n - 1) * PGSIZE) by lia. rewrite Z.div_mul by done.
  replace (S (Z.to_nat (Z.of_nat n - 1))) with n by lia.
  destruct (mappages_loop c pd perm (a + PGSIZE * (Z.of_nat n - 1)) n a pa l k) as (r & j & l' & k' & Hrun & Hr & Hvm' & Hg & Hl & Hp);
    try done; [rewrite Ea, Z.mul_comm; apply Z.mod_mul; done|].
  exists r, j, l', k'.
  assert (0 <= PGSIZE * (Z.of_nat n - 1) < PGSIZE * Z.of_nat n) as Hn1 by (clear -Hn; unfold PGSIZE; lia).
  assert (PDX (a + PGSIZE * (Z.of_nat n - 1)) = PDX (va + size - 1)) as Ed.
  { apply same_PDX; [lia..|]. rewrite Ea. unfold n, npages. rewrite Z2Nat.id by lia.
    replace (PGSIZE * (va / PGSIZE) + PGSIZE * ((va + size - 1) / PGSIZE - va / PGSIZE + 1 - 1)) with ((va + size - 1) / PGSIZE * PGSIZE) by lia.
    by rewrite Z.div_mul. }
  assert (PDX a = PDX va) as Ed2.
  { apply same_PDX; [lia..|]. rewrite Ea, Z.mul_comm. by rewrite Z.div_mul. }
  rewrite Ed, Ed2 in Hl, Hr. by split_and!.
Qed.

(** A page that is mapped already is refused before anything changes. *)
Lemma mappages_remap pd va size pa perm k :
  space (mem k) pd -> 0 <= va < 2 ^ 32 -> present (pte (mem k) pd va) = true ->
  mappages pd va size pa perm k = Panic "remap" k.
Proof.
  intros Hs Hva Hpres. assert (PDX (PGROUNDDOWN va) = PDX va /\ PTX (PGROUNDDOWN va) = PTX va) as [Ed Et].
  { pose proof (Z.div_mod va PGSIZE ltac:(done)). pose proof (Z.mod_pos_bound va PGSIZE ltac:(done)).
    pose proof (Z.div_pos va PGSIZE ltac:(lia) ltac:(done)).
    rewrite PGROUNDDOWN_eq by lia. apply same_page; [unfold PGSIZE in *; lia | done|]. rewrite Z.mul_comm. by rewrite Z.div_mul. }
  unfold pte in Hpres. destruct (tab (mem k) pd (PDX va)) as [t|] eqn:E; [|done].
  destruct (sp_tab _ _ Hs _ _ (PDX_range va) E) as [Ht _]. pose proof (page_ok_kern t Ht). pose proof (PTX_range va).
  unfold mappages. cbn [iter]. rewrite bind_assoc, (bind_Ret _ _ _ (t + 4 * PTX va) k).
  2:{ rewrite (walkpgdir_found _ _ _ t); [by rewrite Et | by rewrite Ed]. }
  rewrite (proj2 (Z.eqb_neq _ 0)) by (unfold KERNBASE in *; lia). mrun.
  fold (present (load32 (mem k) (t + 4 * PTX va))). rewrite Hpres. done.
Qed.

(** *** The hardware *)

(** The physical address and what is allowed there: a page may be used by a
    process ([PTE_U]) and written ([PTE_W]) when the entry of the directory and
    that of the table both say so. *)
Definition allowed (d e : Z) : Z := Z.land (PTE_FLAGS e) (Z.lor d (Z.lnot 7)).

Definition translate (m : memory) (pd va : Z) : option (Z * Z) :=
  let e := pte m pd va in
  if present e then Some (PTE_ADDR e + va mod PGSIZE, allowed (pde m pd (PDX va)) e) else None.

Definition writable (flags : Z) : bool := truthy (Z.land flags PTE_W).

Lemma allowed_open d e : Z.land d 7 = 7 -> allowed d e = PTE_FLAGS e.
Proof.
  intros Hd. unfold allowed. assert (Z.lor d (Z.lnot 7) = -1) as ->; [|apply Z.land_m1_r].
  apply Z.bits_inj'. intros n Hn. rewrite Z.lor_spec, Z.lnot_spec, Z.bits_m1 by done.
  apply (f_equal (fun z => Z.testbit z n)) in Hd. rewrite Z.land_spec in Hd.
  by destruct (Z.testbit d n), (Z.testbit 7 n).
Qed.

(** In a directory of [vm.c] the entry of the table decides. *)
Lemma translate_open m pd va :
  space m pd ->
  translate m pd va = let e := pte m pd va in if present e then Some (PTE_ADDR e + va mod PGSIZE, PTE_FLAGS e) else None.
Proof.
  intros Hs. unfold translate. cbv zeta. destruct (present (pte m pd va)) eqn:Hp; [|done].
  rewrite allowed_open; [done|]. unfold pte in Hp. destruct (tab m pd (PDX va)) as [t|] eqn:E; [|done].
  exact (sp_open _ _ Hs _ _ (PDX_range va) E).
Qed.

Lemma allowed_writable d e : writable (allowed d e) = truthy (Z.land d PTE_W) && truthy (Z.land e PTE_W).
Proof.
  unfold writable, allowed, PTE_FLAGS. change PTE_W with (Z.shiftl 1 1). rewrite !land_bit by lia.
  rewrite !Z.land_spec, Z.lor_spec. simpl. rewrite andb_true_r, orb_false_r. apply andb_comm.
Qed.

Lemma user_addr_eq pd va wr k :
  P2V (cr3 (hw k)) = pd -> mem_ok (mem k) ->
  user_addr va wr k =
    match translate (mem k) pd va with
    | Some (pa, flags) => if negb wr || writable flags then Ret (P2V (pa - va mod PGSIZE) + va mod PGSIZE) k else Fault "page fault" k
    | None => Fault "page fault" k
    end.
Proof.
  intros Hcr Hm. unfold user_addr, translate, pte, tab, pde. mrun. rewrite Hcr.
  set (d := load32 (mem k) (pd + 4 * PDX va)). fold (present d). destruct (present d); cbn [negb]; [|done].
  mrun. set (e := load32 (mem k) (P2V (PTE_ADDR d) + 4 * PTX va)). fold (present e). destruct (present e); cbn [negb]; [|done].
  rewrite <- allowed_writable.
  destruct wr, (writable (allowed d e)); cbn [andb negb orb]; try done; unfold ret; do 3 f_equal; lia.
Qed.

Lemma entry_fields pa perm :
  0 <= pa -> pa mod PGSIZE = 0 -> 0 <= perm < PGSIZE ->
  present (entry pa perm) = true /\ PTE_ADDR (entry pa perm) = pa /\ PTE_FLAGS (entry pa perm) = Z.lor perm PTE_P.
Proof.
  intros Hpa Ha Hperm. destruct (flags_range perm Hperm) as [Hf Hodd].
  pose proof (Z.div_mod pa PGSIZE ltac:(done)) as E. rewrite Ha, Z.add_0_r in E. set (q := pa / PGSIZE) in *. clearbody q. subst pa.
  unfold entry. split_and!.
  - by rewrite present_page.
  - rewrite PTE_ADDR_eq by lia. rewrite (Z.mul_comm PGSIZE q), Z.add_comm, Z.div_add by done.
    rewrite (Z.div_small (Z.lor perm PTE_P)) by done. lia.
  - rewrite PTE_FLAGS_eq. rewrite (Z.mul_comm PGSIZE q), Z.add_comm, Z.mod_add by done. by apply Z.mod_small.
Qed.

Lemma translate_mapping m m' pd a pa perm j x :
  space m pd -> space m' pd ->
  0 <= a -> a mod PGSIZE = 0 -> 0 <= pa -> pa mod PGSIZE = 0 -> 0 <= perm < PGSIZE ->
  pte m' pd x = mapping a pa perm j (pte m pd) x ->
  translate m' pd x =
    if (a <=? x) && (x <? a + PGSIZE * Z.of_nat j) then Some (pa + (x - a), Z.lor perm PTE_P) else translate m pd x.
Proof.
  intros Hs Hs' Ha Haa Hpa Hpaa Hperm E. rewrite !translate_open by done. cbv zeta. rewrite E. unfold mapping.
  destruct ((a <=? x) && (x <? a + PGSIZE * Z.of_nat j)) eqn:Hin; [|done].
  apply andb_true_iff in Hin as [H1%Z.leb_le H2%Z.ltb_lt].
  pose proof (Z.div_mod x PGSIZE ltac:(done)) as Dx. pose proof (Z.div_mod a PGSIZE ltac:(done)) as Da.
  pose proof (Z.div_le_mono a x PGSIZE ltac:(done) H1) as Hle.
  destruct (entry_fields (pa + (PGSIZE * (x / PGSIZE) - a)) perm) as (-> & -> & ->); [unfold PGSIZE in *; lia | | done|].
  - rewrite Da, Haa, Z.add_0_r, <- Z.mul_sub_distr_l, Z.mul_comm, Z.mod_add by done. done.
  - do 2 f_equal. lia.
Qed.

(** C16: [mappages] on a range none of whose pages is mapped makes the hardware
    translate the first [j] pages of the range to [pa] on, with the permissions
    given and the present bit, and every other address as before, where the
    hardware allows what the entries of the directory and of the table both
    allow. It returns 0
    when that is the whole range, and -1 only when every free page has become a
    page table and one more was needed. It keeps the directory well formed,
    takes tables from the free list in order, and writes to nothing but the
    pages of the directory. A range whose first page is mapped is refused. *)
Theorem mappages_translates c pd va size pa perm l k :
  let a := PGROUNDDOWN va in
  let n := npages va size in
  vm_ok c pd l k -> 0 <= perm < PGSIZE -> 0 <= va -> 0 < size -> va + size <= 2 ^ 32 ->
  0 <= pa -> pa mod PGSIZE = 0 -> pa + PGSIZE * Z.of_nat n <= 2 ^ 32 ->
  ((forall x, a <= x < a + PGSIZE * Z.of_nat n -> translate (mem k) pd x = None) ->
   exists r j l' k', mappages pd va size pa perm k = Ret r k' /\ vm_ok c pd l' k' /\ grown pd l l' k k' /\
     (r = 0 /\ j = n \/ r = -1 /\ (j < n)%nat /\ l' = [] /\
        Z.of_nat (length l) < PDX (va + size - 1) - PDX va + lacks (mem k) pd (PDX va)) /\
     forall x, 0 <= x < 2 ^ 32 ->
       translate (mem k') pd x =
         if (a <=? x) && (x <? a + PGSIZE * Z.of_nat j) then Some (pa + (x - a), Z.lor perm PTE_P)
         else translate (mem k) pd x) /\
  (translate (mem k) pd va <> None -> mappages pd va size pa perm k = Panic "remap" k).
Proof.
  intros a n Hvm Hperm Hva Hsize Hend Hpa Hpaa Hpae.
  assert (a = PGSIZE * (va / PGSIZE)) as Ea by by apply PGROUNDDOWN_eq.
  assert (0 <= va / PGSIZE) by (apply Z.div_pos; done). split.
  - intros Hfree. destruct (mappages_spec c pd va size pa perm l k) as (r & j & l' & k' & Hrun & Hr & Hvm' & Hg & _ & Hp); try done.
    { intros x Hx. specialize (Hfree x Hx). unfold translate in Hfree. by case_match. }
    exists r, j, l', k'. split_and!; try done. intros x Hx. apply translate_mapping; try done.
    + exact (vm_space _ _ _ _ Hvm).
    + exact (vm_space _ _ _ _ Hvm').
    + unfold a in *. unfold PGSIZE in *. lia.
    + fold a. rewrite Ea, Z.mul_comm. by apply Z.mod_mul.
    + by apply Hp.
  - intros Hmapped. apply mappages_remap; [exact (vm_space _ _ _ _ Hvm) | lia|]. unfold translate in Hmapped. by case_match.
Qed.
End paging.

(** *** On the memory after start-up, with one page free *)

Definition one_free : kernel := upd_freelist (fun _ => 0x80401000) boot.

Lemma one_free_vm : @vm_ok (alone LOTTERY) 0 0x80400000 [0x80401000] one_free.
Proof.
  assert (forall i, tab (mem one_free) 0x80400000 i = None) as Htab by (intros i; by unfold tab).
  split.
  - exact boot_kmem_ready.
  - split_and!; [intros x; simpl; lia | by vm_compute | apply NoDup_singleton | apply list.Forall_singleton; by vm_compute].
  - split; [by vm_compute | | |]; intros *; rewrite Htab; done.
  - intros q [->|(i & _ & E)]; [|by rewrite Htab in E]. by intros ?%list_elem_of_singleton.
Qed.

Lemma mappages_translates_witness :
  exists k', mappages 0x80400000 0x1234 0x2000 0x5000 6 one_free = Ret 0 k' /\
    translate (mem k') 0x80400000 0x3456 = Some (0x7456, 7) /\ translate (mem k') 0x80400000 0x4000 = None.
Proof.
  destruct (@mappages_translates (alone LOTTERY) 0 0x80400000 0x1234 0x2000 0x5000 6 [0x80401000] one_free one_free_vm)
    as [Hmap _]; [by vm_compute..|].
  destruct Hmap as (r & j & l' & k' & Hrun & _ & _ & Hr & Htr); [by intros x _|].
  assert (r = 0 /\ j = 3%nat) as [-> ->].
  { destruct Hr as [[-> ->]|(_ & _ & _ & Hl)].
    - split; reflexivity.
    - exfalso. revert Hl. apply Z.nlt_ge. by vm_compute. }
  exists k'. split_and!; [exact Hrun | by rewrite Htr by lia | by rewrite Htr by lia].
Defined.
