(* ===== verification/Uvm.v ===== *)
(** User memory: what [allocuvm], [deallocuvm], [setupkvm] and [copyuvm] of
    vm.c do to the bytes a process can reach through its page directory. *)

From Stdlib Require Import FunctionalExtensionality.
From S2P Require Import Prelude Memory KString Kernel Spinlock Boot Kalloc Vm Paging.

(** Cases on where an address lies in the memory layout. *)
Ltac layout :=
  unfold DEVSPACE, KERNLINK, EXTMEM, PHYSTOP, KERNBASE in *;
  repeat match goal with
    | |- context [?a <=? ?b] => destruct (Z.leb_spec a b)
    | |- context [?a <? ?b] => destruct (Z.ltb_spec a b)
    end; cbn [andb]; try lia; try done.

Section uvm.
Context `{Machine}.

(** ** The memory of a process *)

(** The page an address is mapped to, as the kernel sees it, and the byte at
    the address. *)
Definition frame (m : memory) (pd x : Z) : Z := P2V (PTE_ADDR (pte m pd x)).

Definition umem (m : memory) (pd x : Z) : option Z :=
  if present (pte m pd x) then Some (m (frame m pd x + x mod PGSIZE)) else None.

(** What the hardware allows at an address. *)
Definition access (m : memory) (pd x : Z) : option Z := snd <$> translate m pd x.

Lemma access_pte c pd l k x :
  vm_ok c pd l k -> access (mem k) pd x = if present (pte (mem k) pd x) then Some (PTE_FLAGS (pte (mem k) pd x)) else None.
Proof.
  intros Hvm. unfold access. rewrite translate_open by exact (vm_space _ _ _ _ Hvm). cbv zeta. by destruct (present _).
Qed.

Lemma umem_present m pd x : umem m pd x <> None -> present (pte m pd x) = true.
Proof. unfold umem. by case_match. Qed.

(** The pages of a process are its own: allocated, not part of the directory,
    and each mapped once. *)
Record user_ok (c : nat) (pd : Z) (l : list Z) (k : kernel) : Prop := {
  us_vm : vm_ok c pd l k;
  us_page x : 0 <= x < KERNBASE -> present (pte (mem k) pd x) = true ->
    page_ok (frame (mem k) pd x) /\ (frame (mem k) pd x ∉ l) /\ ~ owned (mem k) pd (frame (mem k) pd x);
  us_inj x y : 0 <= x < KERNBASE -> 0 <= y < KERNBASE ->
    present (pte (mem k) pd x) = true -> present (pte (mem k) pd y) = true ->
    frame (mem k) pd x = frame (mem k) pd y -> x / PGSIZE = y / PGSIZE;
}.

(** What a load from an address of the process gives. *)
Lemma ldu8_umem va pd k :
  P2V (cr3 (hw k)) = pd -> mem_ok (mem k) -> 0 <= va < 2 ^ 32 ->
  ldu8 va k = match umem (mem k) pd va with Some b => Ret b k | None => Fault "page fault" k end.
Proof.
  intros Hcr Hm Hva. unfold ldu8. rewrite u32_small by done. unfold bind. rewrite (user_addr_eq pd) by done.
  unfold umem, translate, frame. destruct (present (pte (mem k) pd va)); [|done]. cbn [negb orb].
  by rewrite Z.add_simpl_r.
Qed.

(** What a store to an address of the process does. *)
Lemma frame_offset p q o o' :
  page_ok p -> page_ok q -> 0 <= o < PGSIZE -> 0 <= o' < PGSIZE -> p + o = q + o' -> p = q /\ o = o'.
Proof.
  intros (_ & Hp & _) (_ & Hq & _) Ho Ho' E. destruct (Z.eq_dec p q) as [->|Hne]; [split; [done | lia]|].
  destruct (page_disjoint p q Hp Hq Hne); lia.
Qed.

(** ** Taking pages *)

(** Some of the free pages [l] are taken, as tables of [pd] or otherwise, and
    nothing but these pages and those of the directory is written. *)
Record extends (pd : Z) (l l' : list Z) (k k' : kernel) : Prop := {
  ex_free : exists used, l = used ++ l';
  ex_owned q : owned (mem k') pd q -> owned (mem k) pd q \/ q ∈ l;
  ex_mem x : (forall q, owned (mem k) pd q \/ q ∈ l -> x < q \/ q + PGSIZE <= x) -> mem k' x = mem k x;
  ex_cr3 : cr3 (hw k') = cr3 (hw k);
  ex_ptable : ptable k' = ptable k;
}.

Lemma extends_trans pd l1 l2 l3 k1 k2 k3 :
  extends pd l1 l2 k1 k2 -> extends pd l2 l3 k2 k3 -> extends pd l1 l3 k1 k3.
Proof.
  intros [[u1 ->] Hn1 He1 Hc1 Ht1] [[u2 ->] Hn2 He2 Hc2 Ht2]. split.
  - exists (u1 ++ u2). by rewrite app_assoc.
  - intros q [[Hq|Hq]%Hn1|Hq]%Hn2; [by left | by right|]. right. apply elem_of_app. by right.
  - intros x Hx. rewrite He2; [by apply He1|]. intros q [[Hq|Hq]%Hn1|Hq]; apply Hx; [by left | by right|].
    right. apply elem_of_app. by right.
  - congruence.
  - congruence.
Qed.

Lemma extends_refl pd l k : extends pd l l k k.
Proof. split; try done; [by exists [] | by left]. Qed.

Lemma grown_extends pd l l' k k' : grown pd l l' k k' -> extends pd l l' k k'.
Proof. intros [Hl _ Hn He Hc Ht]. split; try done. intros x Hx. apply He. auto. Qed.

Lemma extends_elem pd l l' k k' q : extends pd l l' k k' -> q ∈ l' -> q ∈ l.
Proof. intros [[u ->] _ _ _ _] Hq. apply elem_of_app. by right. Qed.

(** A page that is neither free nor part of the directory keeps its contents. *)
Lemma extends_page pd l l' k k' p x :
  extends pd l l' k k' -> page_ok p -> p ∉ l -> ~ owned (mem k) pd p ->
  Forall page_ok l -> space (mem k) pd -> p <= x < p + PGSIZE -> mem k' x = mem k x.
Proof.
  intros He (_ & Hp & _) Hl Ho Hok Hs Hx. apply (ex_mem _ _ _ _ _ He). intros q Hq.
  assert (q mod PGSIZE = 0) as Hqa.
  { destruct Hq as [[->|(i & Hi & E)]|Hq]; [apply (sp_pd _ _ Hs) | apply (sp_tab _ _ Hs _ _ Hi E)|].
    by apply (proj1 (list.Forall_forall _ _) Hok). }
  assert (q <> p) as Hne by (intros ->; by destruct Hq). destruct (page_disjoint p q Hp Hqa); lia.
Qed.

(** The first free page taken, and written by [f] alone. *)
Definition within (p : Z) (f : memory -> memory) : Prop :=
  forall m, mem_ok m -> mem_ok (f m) /\ forall x, x < p \/ p + PGSIZE <= x -> f m x = m x.

Lemma within_load p f m q i :
  mem_ok m -> page_ok p -> page_ok q -> q <> p -> within p f -> 0 <= i < 1024 -> load32 (f m) (q + 4 * i) = load32 m (q + 4 * i).
Proof.
  intros Hm (_ & Hp & _) (_ & Hq & _) Hne Hf Hi. apply load32_ext. intros x Hx. apply Hf; [done|].
  destruct (page_disjoint q p Hq Hp Hne); unfold PGSIZE in *; lia.
Qed.

Lemma within_pde p f m pd i :
  mem_ok m -> page_ok p -> p <> pd -> within p f -> page_ok pd -> 0 <= i < 1024 -> pde (f m) pd i = pde m pd i.
Proof. intros Hm Hp Hne Hf Hpd Hi. unfold pde. by rewrite (within_load p f). Qed.

Lemma within_tab p f m pd i :
  mem_ok m -> page_ok p -> p <> pd -> within p f -> page_ok pd -> 0 <= i < 1024 -> tab (f m) pd i = tab m pd i.
Proof. intros. by apply tab_ext, (within_pde p). Qed.

Lemma within_pte p f m pd x :
  mem_ok m -> space m pd -> page_ok p -> ~ owned m pd p -> within p f -> pte (f m) pd x = pte m pd x.
Proof.
  intros Hm Hs Hp Ho Hf. pose proof (PDX_range x) as Hd. pose proof (PTX_range x) as Ht.
  assert (p <> pd) as Hne by (intros ->; apply Ho; by left). pose proof (sp_pd _ _ Hs) as Hpd.
  unfold pte. rewrite (within_tab p) by done.
  destruct (tab m pd (PDX x)) as [t|] eqn:E; [|done]. apply (within_load p f); try done.
  - apply (sp_tab _ _ Hs _ _ Hd E).
  - intros ->. apply Ho. right. by exists (PDX x).
Qed.

Lemma within_owned p f m pd q :
  mem_ok m -> space m pd -> page_ok p -> ~ owned m pd p -> within p f -> ~ owned m pd q -> ~ owned (f m) pd q.
Proof.
  intros Hm Hs Hp Ho Hf Hq. assert (p <> pd) as Hne by (intros ->; apply Ho; by left).
  intros Hq'. apply Hq. apply (owned_ext m) in Hq'; [done|]. intros i Hi. apply (within_pde p); try done. apply (sp_pd _ _ Hs).
Qed.

Lemma took_vm c pd p f l k :
  vm_ok c pd (p :: l) k -> within p f -> vm_ok c pd l (took c p f k) /\ extends pd (p :: l) l k (took c p f k).
Proof.
  intros [Hr Hk Hs Hu] Hf. pose proof Hk as (Hm & _ & Hnd & Hok).
  apply list.Forall_cons in Hok as [Hp Hok]. apply list.NoDup_cons in Hnd as [Hpl Hnd].
  assert (~ owned (mem k) pd p) as Hno by (intros Ho; apply (Hu p Ho); constructor).
  assert (p <> pd) as Hne by (intros ->; apply Hno; by left).
  assert (forall i, 0 <= i < 1024 -> pde (f (mem k)) pd i = pde (mem k) pd i) as Htab
    by (intros; apply (within_pde p); try done; apply (sp_pd _ _ Hs)).
  destruct (ktouch_frame c k). split; [split|split]; rewrite ?mem_took.
  - by apply took_ready.
  - apply took_kmem; [done | by apply Hf|]. intros q x Hq Hx. apply Hf; [done|].
    pose proof (proj1 (list.Forall_forall _ _) Hok q Hq) as (_ & Hqa & _).
    destruct (page_disjoint q p) as [|]; try done; [apply Hp | congruence | unfold PGSIZE in *; lia..].
  - by apply (space_ext (mem k)).
  - intros q Hq Hin. apply (owned_ext (mem k)) in Hq; [|done]. apply (Hu q Hq). by right.
  - by exists [p].
  - intros q Hq. left. by apply (owned_ext (mem k)) in Hq.
  - intros x Hx. apply Hf; [done|]. apply Hx. right. constructor.
  - done.
  - done.
Qed.

(** ** Mapping one page *)

Lemma npages_one a : a mod PGSIZE = 0 -> npages a PGSIZE = 1%nat.
Proof. unfold npages, PGSIZE. intros Ha. Z.div_mod_to_equations. lia. Qed.

Lemma page_last a : a mod PGSIZE = 0 -> (a + PGSIZE - 1) / PGSIZE = a / PGSIZE.
Proof. unfold PGSIZE. intros Ha. Z.div_mod_to_equations. lia. Qed.

Lemma page_range a x : a mod PGSIZE = 0 -> (a <= x < a + PGSIZE <-> x / PGSIZE = a / PGSIZE).
Proof. unfold PGSIZE. intros Ha. Z.div_mod_to_equations. lia. Qed.

Lemma page_down a : 0 <= a -> a mod PGSIZE = 0 -> PGROUNDDOWN a = a.
Proof. intros Ha Haa. rewrite PGROUNDDOWN_eq by done. pose proof (Z.div_mod a PGSIZE ltac:(done)). lia. Qed.

Lemma mapping_one a pa perm old x :
  a mod PGSIZE = 0 -> mapping a pa perm 1 old x = if x / PGSIZE =? a / PGSIZE then entry pa perm else old x.
Proof.
  intros Ha. unfold mapping. change (PGSIZE * Z.of_nat 1) with PGSIZE. pose proof (page_range a x Ha) as Hr.
  pose proof (Z.div_mod a PGSIZE ltac:(done)) as Da.
  destruct (Z.eqb_spec (x / PGSIZE) (a / PGSIZE)) as [E|E].
  - destruct (proj2 Hr E) as [H1 H2]. rewrite (proj2 (Z.leb_le _ _) H1), (proj2 (Z.ltb_lt _ _) H2), E. cbn [andb]. f_equal. lia.
  - destruct (Z.leb_spec a x), (Z.ltb_spec x (a + PGSIZE)); try done. by destruct E; apply Hr.
Qed.

Lemma pte_page m pd x y : 0 <= x < 2 ^ 32 -> 0 <= y < 2 ^ 32 -> x / PGSIZE = y / PGSIZE -> pte m pd x = pte m pd y.
Proof. intros Hx Hy E. apply same_page in E as [Ed Et]; [|done..]. unfold pte. by rewrite Ed, Et. Qed.

(** The page table for [a] may need the last free page. *)
Lemma map_one c pd a pa perm l k :
  vm_ok c pd l k -> 0 <= perm < PGSIZE -> 0 <= a -> a mod PGSIZE = 0 -> a + PGSIZE <= 2 ^ 32 ->
  0 <= pa -> pa mod PGSIZE = 0 -> pa + PGSIZE <= 2 ^ 32 -> present (pte (mem k) pd a) = false ->
  exists r l' k', mappages pd a PGSIZE pa perm k = Ret r k' /\ vm_ok c pd l' k' /\ grown pd l l' k k' /\
    (r = 0 /\ Z.of_nat (length l) <= Z.of_nat (length l') + lacks (mem k) pd (PDX a) /\
       (forall x, 0 <= x < 2 ^ 32 -> pte (mem k') pd x = if x / PGSIZE =? a / PGSIZE then entry pa perm else pte (mem k) pd x) \/
     r = -1 /\ l = [] /\ l' = [] /\ lacks (mem k) pd (PDX a) = 1 /\
       (forall x, 0 <= x < 2 ^ 32 -> pte (mem k') pd x = pte (mem k) pd x)).
Proof.
  intros Hvm Hperm Ha Haa Hae Hpa Hpaa Hpae Hnp.
  assert (PDX (a + PGSIZE - 1) = PDX a) as Ed.
  { apply same_PDX; [unfold PGSIZE in *; lia.. | by apply page_last]. }
  destruct (mappages_spec c pd a PGSIZE pa perm l k) as (r & j & l' & k' & Hrun & Hr & Hvm' & Hg & Hl & Hp);
    rewrite ?npages_one, ?page_down in * by done; try done.
  { intros x Hx. rewrite (pte_page _ _ x a); [done | unfold PGSIZE in *; lia.. | apply page_range; [done | lia]]. }
  exists r, l', k'. split_and!; [done | done | done|]. rewrite Ed in *. destruct Hr as [[-> ->]|(-> & Hj & -> & Hlt)].
  - left. split_and!; [done | lia|]. intros x Hx. by rewrite Hp, mapping_one by done.
  - right. pose proof (lacks_range (mem k) pd (PDX a)). replace j with 0%nat in Hp by lia.
    destruct l; [|cbn [length] in Hlt; lia]. split_and!; [done | done | done | cbn [length] in Hlt; lia|].
    intros x Hx. by rewrite Hp, mapping_0 by done.
Qed.

Lemma lacks_present m pd x : present (pte m pd x) = true -> lacks m pd (PDX x) = 0.
Proof. unfold pte, lacks. by destruct (tab m pd (PDX x)). Qed.

Lemma frame_entry p perm : page_ok p -> 0 <= perm < PGSIZE -> P2V (PTE_ADDR (entry (V2P p) perm)) = p.
Proof. intros Hp Hperm. unfold entry. apply entry_page; [done|]. by apply flags_range. Qed.

(** What mapping the page [p], filled by [f], at [a] makes of the directory. *)
Record addpage (c : nat) (pd a p : Z) (f : memory -> memory) (perm : Z) (l l' : list Z) (k k' : kernel) : Prop := {
  ad_vm : vm_ok c pd l' k';
  ad_ext : extends pd (p :: l) l' k k';
  ad_own : page_ok p /\ (p ∉ l') /\ ~ owned (mem k') pd p;
  ad_len : Z.of_nat (length l) <= Z.of_nat (length l') + lacks (mem k) pd (PDX a);
  ad_pte x : 0 <= x < 2 ^ 32 -> pte (mem k') pd x = if x / PGSIZE =? a / PGSIZE then entry (V2P p) perm else pte (mem k) pd x;
  ad_fill x : p <= x < p + PGSIZE -> mem k' x = f (mem k) x;
}.

Lemma vm_first c pd p l k :
  vm_ok c pd (p :: l) k -> page_ok p /\ Forall page_ok l /\ (p ∉ l) /\ ~ owned (mem k) pd p /\ p <> pd.
Proof.
  intros [_ (_ & _ & Hnd & Hok) _ Hu]. apply list.Forall_cons in Hok as [Hp Hok]. apply list.NoDup_cons in Hnd as [Hpl Hnd].
  assert (~ owned (mem k) pd p) as Hno by (intros Ho; apply (Hu p Ho); constructor).
  split_and!; try done. intros ->. apply Hno. by left.
Qed.

Lemma add_page c pd a p f perm l k :
  vm_ok c pd (p :: l) k -> within p f -> 0 <= perm < PGSIZE -> 0 <= a < KERNBASE -> a mod PGSIZE = 0 ->
  present (pte (mem k) pd a) = false -> lacks (mem k) pd (PDX a) <= Z.of_nat (length l) ->
  exists l' k', mappages pd a PGSIZE (V2P p) perm (took c p f k) = Ret 0 k' /\ addpage c pd a p f perm l l' k k'.
Proof.
  intros Hvm Hf Hperm Ha Haa Hnp Hlen. destruct (vm_first _ _ _ _ _ Hvm) as (Hp & Hok & Hpl & Hno & Hne).
  destruct (took_vm c pd p f l k Hvm Hf) as [Hvm1 He1]. pose proof (vm_space _ _ _ _ Hvm) as Hs. pose proof (vm_free _ _ _ _ Hvm) as (Hm & _).
  assert (forall x, pte (f (mem k)) pd x = pte (mem k) pd x) as Hpte by (intros x; by apply (within_pte p)).
  assert (lacks (f (mem k)) pd (PDX a) = lacks (mem k) pd (PDX a)) as Elk.
  { unfold lacks. rewrite (within_tab p); [done | done | done | done | done | apply (sp_pd _ _ Hs) | apply PDX_range]. }
  assert (~ owned (mem (took c p f k)) pd p) as Hno1 by (rewrite mem_took; by apply (within_owned p)).
  destruct (page_V2P p Hp) as (Ev & q & Hq & Hq0 & Hqm).
  destruct (map_one c pd a (V2P p) perm l (took c p f k)) as (r & l' & k' & Hrun & Hvm' & Hg & Hr);
    rewrite ?mem_took, ?Hpte; try done.
  { lia. }
  { unfold PGSIZE, KERNBASE in *. lia. }
  { rewrite Ev, Hq. unfold PGSIZE in *. lia. }
  { rewrite Ev, Hq, Z.mul_comm. by apply Z.mod_mul. }
  { rewrite Ev, Hq. unfold PGSIZE, PHYSTOP in *. lia. }
  rewrite mem_took, Elk in Hr. destruct Hr as [(-> & Hl & Hpt)|(_ & -> & _ & E1 & _)]; [|cbn [length] in Hlen; lia].
  pose proof (grown_extends _ _ _ _ _ Hg) as He2. exists l', k'. split; [done|]. split.
  - done.
  - by eapply extends_trans.
  - split_and!; [done | intros Hin; by apply (extends_elem _ _ _ _ _ _ He2) in Hin |].
    by intros [Ho|Ho]%(ex_owned _ _ _ _ _ He2).
  - done.
  - intros x Hx. rewrite Hpt, Hpte by done. done.
  - intros x Hx. rewrite <- (mem_took c p f k). apply (extends_page pd l l' _ k' p); try done. exact (vm_space _ _ _ _ Hvm1).
Qed.

Lemma frame_page m pd x y :
  0 <= x < 2 ^ 32 -> 0 <= y < 2 ^ 32 -> x / PGSIZE = y / PGSIZE -> frame m pd x = frame m pd y.
Proof. intros Hx Hy E. unfold frame. by rewrite (pte_page m pd x y). Qed.

(** Changes elsewhere do not show in a page of the process. *)
Lemma umem_kept c pd l k m' x :
  user_ok c pd l k -> 0 <= x < KERNBASE -> pte m' pd x = pte (mem k) pd x ->
  (forall y, frame (mem k) pd x <= y < frame (mem k) pd x + PGSIZE -> present (pte (mem k) pd x) = true -> m' y = mem k y) ->
  umem m' pd x = umem (mem k) pd x.
Proof.
  intros Hu Hx E Hm. unfold umem, frame. rewrite E. destruct (present _) eqn:Hp; [|done]. f_equal. apply Hm; [|done].
  pose proof (Z.mod_pos_bound x PGSIZE ltac:(done)). unfold frame. lia.
Qed.

Lemma addpage_user c pd a p f perm l l' k k' :
  user_ok c pd (p :: l) k -> addpage c pd a p f perm l l' k k' -> 0 <= perm < PGSIZE -> 0 <= a < KERNBASE ->
  user_ok c pd l' k' /\
  forall x, 0 <= x < KERNBASE ->
    umem (mem k') pd x = if x / PGSIZE =? a / PGSIZE then Some (f (mem k) (p + x mod PGSIZE)) else umem (mem k) pd x.
Proof.
  intros Hu [Hvm He (Hp & Hpl & Hpo) Hlen Hpte Hfill] Hperm Ha. pose proof (vm_first _ _ _ _ _ (us_vm _ _ _ _ Hu)) as (_ & Hok & Hp0 & Hno & Hne).
  destruct (page_V2P p Hp) as (Ev & q & Hq & Hq0 & _).
  assert (forall x, 0 <= x < KERNBASE -> 0 <= x < 2 ^ 32) as Hk by (unfold KERNBASE; lia).
  destruct (entry_fields (V2P p) perm) as (Epres & _ & _); [rewrite Ev, Hq; unfold PGSIZE; lia | rewrite Ev, Hq, Z.mul_comm; by apply Z.mod_mul | done|].
  assert (forall x, 0 <= x < KERNBASE -> present (pte (mem k') pd x) = true ->
    x / PGSIZE = a / PGSIZE /\ frame (mem k') pd x = p \/
    x / PGSIZE <> a / PGSIZE /\ present (pte (mem k) pd x) = true /\ frame (mem k') pd x = frame (mem k) pd x) as Hcases.
  { intros x Hx. unfold frame. rewrite Hpte by auto. destruct (Z.eqb_spec (x / PGSIZE) (a / PGSIZE)) as [E|E].
    - left. split; [done|]. by apply frame_entry.
    - by right. }
  split; [split|].
  - done.
  - intros x Hx Hpr. destruct (Hcases x Hx Hpr) as [[_ ->]|(_ & Hpr0 & ->)]; [done|].
    destruct (us_page _ _ _ _ Hu x Hx Hpr0) as (H1 & H2 & H3). split_and!; [done | |].
    + intros Hin. by apply (extends_elem _ _ _ _ _ _ He) in Hin.
    + by intros [Ho|Ho]%(ex_owned _ _ _ _ _ He).
  - intros x y Hx Hy Hprx Hpry. destruct (Hcases x Hx Hprx) as [[-> ->]|(_ & Hpx & ->)], (Hcases y Hy Hpry) as [[-> ->]|(_ & Hpy & ->)].
    + done.
    + intros E. destruct (us_page _ _ _ _ Hu y Hy Hpy) as (_ & H2 & _). rewrite <- E in H2. destruct H2. constructor.
    + intros E. destruct (us_page _ _ _ _ Hu x Hx Hpx) as (_ & H2 & _). rewrite E in H2. destruct H2. constructor.
    + by apply (us_inj _ _ _ _ Hu).
  - intros x Hx. destruct (Z.eqb_spec (x / PGSIZE) (a / PGSIZE)) as [E|E].
    + unfold umem, frame. rewrite Hpte, E, Z.eqb_refl by auto. rewrite Epres, frame_entry by done. f_equal. apply Hfill.
      pose proof (Z.mod_pos_bound x PGSIZE ltac:(done)). lia.
    + apply (umem_kept c pd (p :: l)); [done | done | |].
      * rewrite Hpte by auto. by rewrite (proj2 (Z.eqb_neq _ _) E).
      * intros y Hy Hpr. destruct (us_page _ _ _ _ Hu x Hx Hpr) as (H1 & H2 & H3).
        apply (extends_page pd (p :: l) l' k k' (frame (mem k) pd x)); try done; [by apply list.Forall_cons|].
        exact (vm_space _ _ _ _ (us_vm _ _ _ _ Hu)).
Qed.

(** ** Growing *)

Lemma within_memset p v : within p (memset p v PGSIZE).
Proof.
  intros m Hm. split; [intros x; rewrite memset_eq by done; by apply stosb_ok|].
  intros x Hx. rewrite memset_eq by done. by apply stosb_out.
Qed.

Lemma PGROUNDUP_eq a : 0 <= a -> a + PGSIZE <= 2 ^ 32 -> PGROUNDUP a = PGSIZE * ((a + PGSIZE - 1) / PGSIZE).
Proof. intros Ha Hb. unfold PGROUNDUP. rewrite u32_small by (unfold PGSIZE in *; lia). apply ldiff_page. unfold PGSIZE. lia. Qed.

Lemma PGROUNDUP_bounds a : 0 <= a -> a + PGSIZE <= 2 ^ 32 -> a <= PGROUNDUP a < a + PGSIZE /\ PGROUNDUP a mod PGSIZE = 0.
Proof.
  intros Ha Hb. rewrite PGROUNDUP_eq by done. split; [unfold PGSIZE in *; Z.div_mod_to_equations; lia|].
  rewrite Z.mul_comm. by apply Z.mod_mul.
Qed.

(** [x] is in the [n] pages from [a] on. *)
Definition inside (a : Z) (n : nat) (x : Z) : bool := (a <=? x) && (x <? a + PGSIZE * Z.of_nat n).

Lemma inside_spec a n x : inside a n x = true <-> a <= x < a + PGSIZE * Z.of_nat n.
Proof. unfold inside. rewrite andb_true_iff, Z.leb_le, Z.ltb_lt. done. Qed.

Lemma inside_step {A} a n x (u v : A) :
  a mod PGSIZE = 0 ->
  (if inside (a + PGSIZE) n x then u else if x / PGSIZE =? a / PGSIZE then u else v) = if inside a (S n) x then u else v.
Proof.
  intros Ha. pose proof (page_range a x Ha) as Hr. destruct (inside a (S n) x) eqn:E.
  - apply inside_spec in E. destruct (inside (a + PGSIZE) n x) eqn:E2; [done|].
    destruct (Z.eqb_spec (x / PGSIZE) (a / PGSIZE)) as [|Hne]; [done|]. destruct Hne. apply Hr.
    apply not_true_iff_false in E2. rewrite inside_spec in E2. unfold PGSIZE in *. lia.
  - apply not_true_iff_false in E. rewrite inside_spec in E. destruct (inside (a + PGSIZE) n x) eqn:E2.
    + apply inside_spec in E2. unfold PGSIZE in *. lia.
    + destruct (Z.eqb_spec (x / PGSIZE) (a / PGSIZE)) as [Heq|]; [|done]. apply Hr in Heq. unfold PGSIZE in *. lia.
Qed.

Lemma inside_0 {A} a x (u v : A) : (if inside a 0 x then u else v) = v.
Proof. destruct (inside a 0 x) eqn:E; [|done]. apply inside_spec in E. lia. Qed.

(** The pages and the tables that mapping [n] pages from [a] on can take. *)
Definition needs (m : memory) (pd a : Z) (n : nat) : Z :=
  Z.of_nat n + (PDX (a + PGSIZE * Z.of_nat n) - PDX a) + lacks m pd (PDX a).

Lemma needs_bound m pd a n : needs m pd a n <= Z.of_nat n + (PDX (a + PGSIZE * Z.of_nat n) - PDX a) + 1.
Proof. unfold needs. pose proof (lacks_range m pd (PDX a)). lia. Qed.

Lemma needs_step m m' pd a n :
  0 <= a -> a + PGSIZE * Z.of_nat (S n) < 2 ^ 32 -> present (pte m' pd a) = true ->
  1 + needs m' pd (a + PGSIZE) n + lacks m pd (PDX a) <= needs m pd a (S n).
Proof.
  intros Ha Hae Hp. unfold needs. replace (a + PGSIZE * Z.of_nat (S n)) with (a + PGSIZE + PGSIZE * Z.of_nat n) in * by lia.
  pose proof (lacks_range m' pd (PDX (a + PGSIZE))). assert (0 <= PGSIZE * Z.of_nat n) by (unfold PGSIZE; lia).
  destruct (PDX_next a Ha ltac:(lia)) as [E|E]; [|lia].
  rewrite E. rewrite (lacks_present m' pd a Hp). lia.
Qed.

(** The directory [pd] after [n] pages from [a] on have been added, with the
    contents [fill] and the flags of [perm]. *)
Record populated (c : nat) (pd a : Z) (n : nat) (fill : Z -> option Z) (perm : Z -> Z) (l l' : list Z) (k k' : kernel) : Prop := {
  po_user : user_ok c pd l' k';
  po_ext : extends pd l l' k k';
  po_len : Z.of_nat (length l) <= Z.of_nat (length l') + needs (mem k) pd a n;
  po_umem x : 0 <= x < KERNBASE -> umem (mem k') pd x = if inside a n x then fill x else umem (mem k) pd x;
  po_pte x : 0 <= x < 2 ^ 32 -> inside a n x = false -> pte (mem k') pd x = pte (mem k) pd x;
  po_flags x : inside a n x = true -> PTE_FLAGS (pte (mem k') pd x) = perm x;
  po_frame x : inside a n x = true -> frame (mem k') pd x ∈ l;
}.

Lemma populated_0 c pd a fill perm l k : user_ok c pd l k -> populated c pd a 0 fill perm l l k k.
Proof.
  intros Hu. split; try done.
  - apply extends_refl.
  - unfold needs. rewrite Z.mul_0_r, Z.add_0_r. pose proof (lacks_range (mem k) pd (PDX a)). lia.
  - intros x Hx. by rewrite inside_0.
  - intros x E. apply inside_spec in E. lia.
  - intros x E. apply inside_spec in E. lia.
Qed.

(** One page, and then the others. *)
Lemma populated_S c pd a n p f fl l l1 l2 k k1 k2 fill perm :
  user_ok c pd (p :: l) k -> addpage c pd a p f fl l l1 k k1 -> 0 <= fl < PGSIZE ->
  0 <= a -> a mod PGSIZE = 0 -> a + PGSIZE * Z.of_nat (S n) <= KERNBASE ->
  (forall x, a <= x < a + PGSIZE -> fill x = Some (f (mem k) (p + x mod PGSIZE)) /\ perm x = Z.lor fl PTE_P) ->
  populated c pd (a + PGSIZE) n fill perm l1 l2 k1 k2 ->
  populated c pd a (S n) fill perm (p :: l) l2 k k2.
Proof.
  intros Hu Had Hfl Ha Haa Hae Hfill [Hu2 He2 Hl2 Hm2 Hp2 Hf2 Hfr2].
  destruct (addpage_user _ _ _ _ _ _ _ _ _ _ Hu Had Hfl ltac:(unfold PGSIZE, KERNBASE in *; lia)) as [Hu1 Hm1].
  destruct Had as [Hvm1 He1 (Hp & _ & _) Hl1 Hp1 _].
  destruct (page_V2P p Hp) as (Ev & q & Hq & Hq0 & _).
  destruct (entry_fields (V2P p) fl) as (Epres & _ & Efl); [rewrite Ev, Hq; unfold PGSIZE; lia | rewrite Ev, Hq, Z.mul_comm; by apply Z.mod_mul | done|].
  assert (present (pte (mem k1) pd a) = true) as Hpa by (rewrite Hp1, Z.eqb_refl by (unfold PGSIZE, KERNBASE in *; lia); done).
  split.
  - done.
  - by eapply extends_trans.
  - pose proof (needs_step (mem k) (mem k1) pd a n Ha ltac:(unfold KERNBASE in *; lia) Hpa). cbn [length]. lia.
  - intros x Hx. rewrite Hm2, Hm1 by done. rewrite <- (inside_step a n x (fill x)) by done.
    destruct (inside (a + PGSIZE) n x); [done|]. destruct (Z.eqb_spec (x / PGSIZE) (a / PGSIZE)) as [E|]; [|done].
    symmetry. apply Hfill. by apply page_range.
  - intros x Hx Hin. pose proof (inside_step a n x true false Haa) as Hst. rewrite Hin in Hst.
    destruct (inside (a + PGSIZE) n x) eqn:E1; [done|]. rewrite Hp2, Hp1 by done. by destruct (_ =? _).
  - intros x Hin. destruct (inside (a + PGSIZE) n x) eqn:E1; [by apply Hf2|].
    pose proof (inside_step a n x true false Haa) as Hst. rewrite Hin, E1 in Hst. apply inside_spec in Hin.
    rewrite Hp2, Hp1 by (done || unfold KERNBASE, PGSIZE in *; lia).
    destruct (Z.eqb_spec (x / PGSIZE) (a / PGSIZE)) as [E|]; [|done]. rewrite Efl. symmetry. apply Hfill. by apply page_range.
  - intros x Hin. destruct (inside (a + PGSIZE) n x) eqn:E1; [by eapply extends_elem, Hfr2|].
    pose proof (inside_step a n x true false Haa) as Hst. rewrite Hin, E1 in Hst. apply inside_spec in Hin.
    unfold frame. rewrite Hp2, Hp1 by (done || unfold KERNBASE, PGSIZE in *; lia).
    destruct (Z.eqb_spec (x / PGSIZE) (a / PGSIZE)) as [E|]; [|done]. rewrite frame_entry by done. constructor.
Qed.

Lemma kalloc_took c pd p f l k :
  vm_ok c pd (p :: l) k ->
  exists k', kalloc k = Ret p k' /\ upd_mem f k' = took c p f k.
Proof.
  intros Hvm. eexists. split; [exact (kalloc_eq c k (p :: l) (vm_ready _ _ _ _ Hvm) (vm_free _ _ _ _ Hvm))|]. reflexivity.
Qed.

(** A loop that maps one page after the other while there are pages. *)
Section populate.
Variables (c : nat) (pd sz r : Z) (body : Z -> M (Z + Z)) (I : list Z -> kernel -> Prop) (fill : Z -> option Z) (perm : Z -> Z).

Hypothesis I_kept : forall l l' k k', I l k -> vm_ok c pd l k -> vm_ok c pd l' k' -> extends pd l l' k k' -> I l' k'.
Hypothesis body_stop : forall a k, sz <= a -> body a k = Ret (inr r) k.
Hypothesis body_step : forall a p l k,
  I (p :: l) k -> vm_ok c pd (p :: l) k -> 0 <= a < sz -> a mod PGSIZE = 0 ->
  exists f fl, within p f /\ 0 <= fl < PGSIZE /\
    (forall x, a <= x < a + PGSIZE -> fill x = Some (f (mem k) (p + x mod PGSIZE)) /\ perm x = Z.lor fl PTE_P) /\
    forall k', mappages pd a PGSIZE (V2P p) fl (took c p f k) = Ret 0 k' -> body a k = Ret (inl (u32 (a + PGSIZE))) k'.

Lemma populate_loop n fuel a l k :
  user_ok c pd l k -> I l k -> (n < fuel)%nat -> 0 <= a -> a mod PGSIZE = 0 -> a + PGSIZE * Z.of_nat n <= KERNBASE ->
  PGSIZE * (Z.of_nat n - 1) < sz - a <= PGSIZE * Z.of_nat n ->
  (forall x, a <= x < a + PGSIZE * Z.of_nat n -> present (pte (mem k) pd x) = false) ->
  needs (mem k) pd a n <= Z.of_nat (length l) ->
  exists l' k', iter fuel body a k = Ret r k' /\ populated c pd a n fill perm l l' k k' /\ I l' k'.
Proof.
  revert n a l k. induction fuel as [|fuel IH]; intros n a l k Hu HI Hfuel Ha Haa Hae Hsz Hnp Hlen; [lia|]. cbn [iter].
  destruct n as [|n].
  { exists l, k. unfold bind. rewrite body_stop by lia. split_and!; [done | by apply populated_0 | done]. }
  assert (0 <= lacks (mem k) pd (PDX a)) as Hlk by apply lacks_range.
  assert (PDX a <= PDX (a + PGSIZE * Z.of_nat (S n))) as Hmono.
  { rewrite !PDX_eq by (unfold KERNBASE, PGSIZE in *; lia). apply Z.div_le_mono; unfold PGSIZE; lia. }
  destruct l as [|p l]; [unfold needs in Hlen; cbn [length] in Hlen; lia|].
  destruct (body_step a p l k HI (us_vm _ _ _ _ Hu) ltac:(unfold PGSIZE in *; lia) Haa) as (f & fl & Hf & Hfl & Hfill & Hbody).
  destruct (add_page c pd a p f fl l k (us_vm _ _ _ _ Hu) Hf Hfl) as (l1 & k1 & Hrun & Had);
    [unfold PGSIZE, KERNBASE in *; lia | done | apply Hnp; unfold PGSIZE; lia | unfold needs in Hlen; cbn [length] in Hlen; lia|].
  rewrite (bind_Ret _ _ _ _ _ (Hbody _ Hrun)).
  destruct (addpage_user _ _ _ _ _ _ _ _ _ _ Hu Had Hfl ltac:(unfold PGSIZE, KERNBASE in *; lia)) as [Hu1 _].
  assert (forall x, a + PGSIZE <= x < a + PGSIZE + PGSIZE * Z.of_nat n -> present (pte (mem k1) pd x) = false) as Hnp1.
  { intros x Hx. rewrite (ad_pte _ _ _ _ _ _ _ _ _ _ Had) by (unfold KERNBASE, PGSIZE in *; lia).
    destruct (Z.eqb_spec (x / PGSIZE) (a / PGSIZE)) as [E|]; [apply page_range in E; [lia | done]|]. apply Hnp. unfold PGSIZE in *. lia. }
  assert (present (pte (mem k1) pd a) = true) as Hpa.
  { rewrite (ad_pte _ _ _ _ _ _ _ _ _ _ Had), Z.eqb_refl by (unfold KERNBASE, PGSIZE in *; lia).
    destruct (ad_own _ _ _ _ _ _ _ _ _ _ Had) as (Hp & _). destruct (page_V2P p Hp) as (Ev & q & Hq & Hq0 & _).
    apply entry_fields; [rewrite Ev, Hq; unfold PGSIZE; lia | rewrite Ev, Hq, Z.mul_comm; by apply Z.mod_mul | done]. }
  pose proof (needs_step (mem k) (mem k1) pd a n Ha ltac:(unfold KERNBASE in *; lia) Hpa) as Hneed.
  pose proof (ad_len _ _ _ _ _ _ _ _ _ _ Had) as Hl1. cbn [length] in Hlen.
  rewrite u32_small by (unfold KERNBASE, PGSIZE in *; lia).
  destruct (IH n (a + PGSIZE) l1 k1) as (l2 & k2 & Hrun2 & Hpop & HI2); try done.
  - exact (I_kept _ _ _ _ HI (us_vm _ _ _ _ Hu) (ad_vm _ _ _ _ _ _ _ _ _ _ Had) (ad_ext _ _ _ _ _ _ _ _ _ _ Had)).
  - lia.
  - unfold PGSIZE. lia.
  - rewrite Z.add_mod, Haa by done. done.
  - unfold PGSIZE in *. lia.
  - unfold PGSIZE in *. lia.
  - lia.
  - exists l2, k2. split_and!; [done | | done]. by apply (populated_S c pd a n p f fl l l1 l2 k k1 k2).
Qed.
End populate.

Lemma memset_zero p m x : p <= x < p + PGSIZE -> memset p 0 PGSIZE m x = 0.
Proof. intros Hx. rewrite memset_eq by done. by rewrite stosb_in by lia. Qed.

Lemma allocuvm_spec c pd oldsz newsz l k :
  let a := PGROUNDUP oldsz in
  let n := Z.to_nat ((PGROUNDUP newsz - a) / PGSIZE) in
  user_ok c pd l k -> 0 <= oldsz -> oldsz <= newsz -> newsz < KERNBASE ->
  (forall x, a <= x < PGROUNDUP newsz -> present (pte (mem k) pd x) = false) ->
  needs (mem k) pd a n <= Z.of_nat (length l) ->
  exists l' k', allocuvm pd oldsz newsz k = Ret newsz k' /\ populated c pd a n (fun _ => Some 0) (fun _ => 7) l l' k k'.
Proof.
  intros a n Hu Hold Hle Hnew Hnp Hlen.
  destruct (PGROUNDUP_bounds oldsz) as [Ho Hoa]; [lia | unfold KERNBASE, PGSIZE in *; lia|].
  destruct (PGROUNDUP_bounds newsz) as [Hn Hna]; [lia | unfold KERNBASE, PGSIZE in *; lia|]. fold a in Ho, Hoa.
  assert (PGROUNDUP newsz = a + PGSIZE * Z.of_nat n) as En.
  { unfold n. assert (a <= PGROUNDUP newsz). { clearbody a. revert Ho Hoa Hn Hna. unfold PGSIZE. generalize (PGROUNDUP newsz). intros. Z.div_mod_to_equations. lia. }
    assert ((PGROUNDUP newsz - a) mod PGSIZE = 0) as E by (rewrite Zminus_mod, Hna, Hoa; done).
    rewrite Z2Nat.id by (apply Z.div_pos; unfold PGSIZE in *; lia). pose proof (Z.div_mod (PGROUNDUP newsz - a) PGSIZE ltac:(done)). lia. }
  clearbody n. rewrite En in *.
  assert (a + PGSIZE * Z.of_nat n <= KERNBASE) as Hend.
  { clearbody a. revert Hn Hna Hnew. generalize (a + PGSIZE * Z.of_nat n). unfold KERNBASE, PGSIZE. intros. Z.div_mod_to_equations. lia. }
  unfold allocuvm. rewrite (proj2 (Z.leb_gt _ _) Hnew), (proj2 (Z.ltb_ge _ _) Hle).
  fold a. match goal with |- context [iter ?fu ?b a] => set (body := b); set (fuel := fu) end.
  destruct (populate_loop c pd newsz newsz body (fun _ _ => True) (fun _ => Some 0) (fun _ => 7)) with (n := n) (fuel := fuel) (a := a) (l := l) (k := k)
    as (l' & k' & Hrun & Hpop & _); try done.
  - intros a' k' Hge. unfold body. rewrite (proj2 (Z.ltb_ge _ _) Hge). done.
  - intros a' p l' k' _ Hvm Ha' Haa'. exists (memset p 0 PGSIZE), 6. split_and!; [apply within_memset | done | done | |].
    + intros x Hx. pose proof (Z.mod_pos_bound x PGSIZE ltac:(done)). by rewrite memset_zero by lia.
    + intros k1 Hrun. unfold body. rewrite (proj2 (Z.ltb_lt _ _)) by lia. destruct (vm_first _ _ _ _ _ Hvm) as (Hp & _).
      destruct (kalloc_took c pd p (memset p 0 PGSIZE) l' k' Hvm) as (k2 & Hka & Ek2). mcall Hka.
      rewrite (proj2 (Z.eqb_neq _ _) (page_ok_nonzero p Hp)). mrun. rewrite Ek2. by mcall Hrun.
  - unfold fuel. clear -En Hn Hold Ho. unfold PGSIZE in *. Z.div_mod_to_equations. lia.
  - lia.
  - clear -Hn. unfold PGSIZE in *. lia.
  - by exists l', k'.
Qed.

(** ** Shrinking *)

(** The directory [pd] after the pages from [a] to [e] have been given back. *)
Record shrunk (c : nat) (pd a e : Z) (l l' : list Z) (k k' : kernel) : Prop := {
  sh_user : user_ok c pd l' k';
  sh_free q : q ∈ l' <-> q ∈ l \/ exists x, a <= x < e /\ present (pte (mem k) pd x) = true /\ frame (mem k) pd x = q;
  sh_owned q : owned (mem k') pd q <-> owned (mem k) pd q;
  sh_gone x : a <= x < e -> present (pte (mem k') pd x) = false;
  sh_pte x : 0 <= x < 2 ^ 32 -> x < a \/ e <= x -> pte (mem k') pd x = pte (mem k) pd x;
  sh_mem x : (forall q, owned (mem k) pd q \/ (exists y, a <= y < e /\ present (pte (mem k) pd y) = true /\ frame (mem k) pd y = q) ->
      x < q \/ q + PGSIZE <= x) -> mem k' x = mem k x;
  sh_cr3 : cr3 (hw k') = cr3 (hw k);
  sh_ptable : ptable k' = ptable k;
}.

Lemma shrunk_none c pd a e l k :
  user_ok c pd l k -> (forall x, a <= x < e -> present (pte (mem k) pd x) = false) -> shrunk c pd a e l l k k.
Proof.
  intros Hu Hnp. split; try done. intros q. split; [by left|]. intros [Hq|(x & Hx & Hp & _)]; [done|].
  by rewrite Hnp in Hp.
Qed.

Lemma shrunk_empty c pd a b l l' k k' : shrunk c pd a a l l' k k' -> shrunk c pd b b l l' k k'.
Proof.
  intros [Hu Hf Ho Hg Hp Hm Hc Ht]. split; try done.
  - intros q. rewrite Hf. split; intros [Hq|(x & Hx & _)]; [by left | lia | by left | lia].
  - intros; lia.
  - intros x Hx _. apply Hp; [done | lia].
  - intros x Hx. apply Hm. intros q [Hq|(y & Hy & _)]; [apply Hx; by left | lia].
Qed.

Lemma shrunk_trans c pd a b e l1 l2 l3 k1 k2 k3 :
  0 <= a <= b -> b <= e <= 2 ^ 32 ->
  shrunk c pd a b l1 l2 k1 k2 -> shrunk c pd b e l2 l3 k2 k3 -> shrunk c pd a e l1 l3 k1 k3.
Proof.
  intros Hab Hbe [Hu2 Hf2 Ho2 Hg2 Hp2 Hm2 Hc2 Ht2] [Hu3 Hf3 Ho3 Hg3 Hp3 Hm3 Hc3 Ht3].
  assert (forall q, (exists x, b <= x < e /\ present (pte (mem k2) pd x) = true /\ frame (mem k2) pd x = q) <->
    (exists x, b <= x < e /\ present (pte (mem k1) pd x) = true /\ frame (mem k1) pd x = q)) as Hback.
  { intros q. unfold frame. split; intros (x & Hx & H1 & H2); exists x; (split; [done|]);
      rewrite Hp2 in * by lia; done. }
  assert (forall q, (exists x, a <= x < e /\ present (pte (mem k1) pd x) = true /\ frame (mem k1) pd x = q) <->
    (exists x, a <= x < b /\ present (pte (mem k1) pd x) = true /\ frame (mem k1) pd x = q) \/
    (exists x, b <= x < e /\ present (pte (mem k1) pd x) = true /\ frame (mem k1) pd x = q)) as Hsplit.
  { intros q. split.
    - intros (x & Hx & Hx'). destruct (Z.lt_ge_cases x b); [left | right]; exists x; (split; [lia | done]).
    - intros [(x & Hx & Hx')|(x & Hx & Hx')]; exists x; (split; [lia | done]). }
  split; try done.
  - intros q. rewrite Hf3, Hf2, Hback, Hsplit. tauto.
  - intros q. by rewrite Ho3, Ho2.
  - intros x Hx. destruct (Z.lt_ge_cases x b); [|apply Hg3; lia]. rewrite Hp3 by lia. apply Hg2. lia.
  - intros x Hx Hout. rewrite Hp3, Hp2 by lia. done.
  - intros x Hx. rewrite Hm3, Hm2; [done | |]; intros q Hq; apply Hx; rewrite Hsplit.
    + tauto.
    + rewrite Ho2, Hback in Hq. tauto.
  - congruence.
  - congruence.
Qed.

Lemma within_freed v w : within v (fun m => store32 v w (memset v 1 PGSIZE m)).
Proof.
  intros m Hok. destruct (within_memset v 1 m Hok) as [Hm Hout]. split; [by apply store32_ok|].
  intros x Hx. rewrite store32_other by (unfold PGSIZE in *; lia). by apply Hout.
Qed.

Lemma freed_vm c pd v l k :
  vm_ok c pd l k -> page_ok v -> v ∉ l -> ~ owned (mem k) pd v ->
  vm_ok c pd (v :: l) (freed v (ktouch c k)) /\
  (forall i, 0 <= i < 1024 -> pde (mem (freed v (ktouch c k))) pd i = pde (mem k) pd i) /\
  (forall x, pte (mem (freed v (ktouch c k))) pd x = pte (mem k) pd x).
Proof.
  intros [Hr Hk Hs Hu] Hv Hnew Hno. assert (v <> pd) as Hne by (intros ->; apply Hno; by left).
  pose proof (within_freed v (freelist (ktouch c k))) as Hw. pose proof Hk as (Hm & _).
  assert (mem (freed v (ktouch c k)) = store32 v (freelist (ktouch c k)) (memset v 1 PGSIZE (mem k))) as Em.
  { unfold freed. rec_simpl. by rewrite mem_ktouch. }
  assert (forall i, 0 <= i < 1024 -> pde (mem (freed v (ktouch c k))) pd i = pde (mem k) pd i) as Htab.
  { intros i Hi. rewrite Em. by apply (within_pde v _ (mem k) pd i Hm Hv Hne Hw (sp_pd _ _ Hs)). }
  split_and!; [|done|].
  - split; [by apply freed_ready | by apply freed_ok; [..|apply ktouch_ok] | by apply (space_ext (mem k))|].
    intros q Hq. apply (owned_ext (mem k)) in Hq; [|done]. rewrite list.not_elem_of_cons. split; [by intros -> | by apply Hu].
  - intros x. rewrite Em. exact (within_pte v _ (mem k) pd x Hm Hs Hv Hno Hw).
Qed.

(** One page given back. *)
Lemma free_page c pd a t l k :
  user_ok c pd l k -> 0 <= a < KERNBASE -> a mod PGSIZE = 0 ->
  tab (mem k) pd (PDX a) = Some t -> present (pte (mem k) pd a) = true ->
  let v := frame (mem k) pd a in
  exists k1, kfree v k = Ret tt k1 /\
    shrunk c pd a (a + PGSIZE) l (v :: l) k (upd_mem (store32 (t + 4 * PTX a) 0) k1).
Proof.
  intros Hu Ha Haa Ht Hpr v. assert (forall x, 0 <= x < KERNBASE -> 0 <= x < 2 ^ 32) as Hk by (unfold KERNBASE; lia).
  destruct (us_page _ _ _ _ Hu a Ha Hpr) as (Hv & Hnew & Hno). fold v in Hv, Hnew, Hno. pose proof (us_vm _ _ _ _ Hu) as Hvm.
  exists (freed v (ktouch c k)). split; [by apply kfree_eq; [apply Hvm|]|].
  destruct (freed_vm c pd v l k Hvm Hv Hnew Hno) as (Hvm1 & Htab1 & Hpte1).
  assert (tab (mem (freed v (ktouch c k))) pd (PDX a) = Some t) as Ht1 by (rewrite (tab_ext (mem k)) by apply Htab1, PDX_range; done).
  destruct (set_entry c pd a t 0 (v :: l) _ Hvm1 (Hk a Ha) Ht1) as [Hvm2 Hg].
  pose proof (fun x Hx => pte_set _ pd a t 0 x (vm_space _ _ _ _ Hvm1) (Hk a Ha) Hx Ht1) as Hpte2.
  set (k2 := upd_mem _ _) in *. change (store32 _ _ (mem (freed v (ktouch c k)))) with (mem k2) in Hpte2. change (u32 0) with 0 in Hpte2.
  assert (forall q, owned (mem k2) pd q <-> owned (mem k) pd q) as Hown.
  { intros q. transitivity (owned (mem (freed v (ktouch c k))) pd q); [|by apply owned_ext].
    pose proof (vm_space _ _ _ _ Hvm1) as Hs1. destruct (sp_tab _ _ Hs1 _ _ (PDX_range a) Ht1) as [Htp Htne].
    apply owned_ext. intros i Hi. by apply (pde_set _ pd t i (PTX a) 0 Hs1 Htp Htne Hi), PTX_range. }
  assert (forall x, 0 <= x < KERNBASE -> present (pte (mem k2) pd x) = true ->
    x / PGSIZE <> a / PGSIZE /\ present (pte (mem k) pd x) = true /\ frame (mem k2) pd x = frame (mem k) pd x) as Hold.
  { intros x Hx. unfold frame. rewrite Hpte2, Hpte1 by auto. by destruct (Z.eqb_spec (x / PGSIZE) (a / PGSIZE)). }
  split.
  - split; [done | |].
    + intros x Hx Hpx. destruct (Hold x Hx Hpx) as (Hne & Hpx0 & ->). destruct (us_page _ _ _ _ Hu x Hx Hpx0) as (H1 & H2 & H3).
      split_and!; [done | | by rewrite Hown]. rewrite list.not_elem_of_cons. split; [|done].
      intros E. by apply Hne, (us_inj _ _ _ _ Hu).
    + intros x y Hx Hy Hpx Hpy. destruct (Hold x Hx Hpx) as (_ & Hpx0 & ->), (Hold y Hy Hpy) as (_ & Hpy0 & ->).
      by apply (us_inj _ _ _ _ Hu).
  - intros q. rewrite list.elem_of_cons. split; intros [Hq|Hq]; [|by left|by right|].
    + right. exists a. split; [unfold PGSIZE; lia | done].
    + destruct Hq as (x & Hx & _ & E). left. rewrite <- E. apply frame_page; [unfold KERNBASE, PGSIZE in *; lia | auto|].
      by apply page_range.
  - done.
  - intros x Hx. rewrite Hpte2 by (unfold KERNBASE, PGSIZE in *; lia). apply page_range in Hx as ->; [|done]. by rewrite Z.eqb_refl.
  - intros x Hx Hout. rewrite Hpte2, Hpte1 by done. destruct (Z.eqb_spec (x / PGSIZE) (a / PGSIZE)) as [E|]; [|done].
    apply page_range in E; [lia | done].
  - intros x Hx. rewrite (gr_mem _ _ _ _ _ Hg).
    + rewrite freed_mem, mem_ktouch; [done|]. apply Hx. right. exists a. split; [unfold PGSIZE; lia | done].
    + intros q Hq. apply Hx. left. by apply Hown.
  - apply (ktouch_frame c k).
  - apply (ktouch_frame c k).
Qed.

Lemma PGADDR_next a : 0 <= a < KERNBASE -> PGADDR (PDX a + 1) 0 0 = 2 ^ 22 * (a / 2 ^ 22 + 1).
Proof.
  intros Ha. unfold PGADDR, PDXSHIFT, PTXSHIFT. rewrite PDX_eq by (unfold KERNBASE in *; lia).
  rewrite Z.shiftl_0_l, !Z.lor_0_r, Z.shiftl_mul_pow2, u32_small by (unfold KERNBASE in *; Z.div_mod_to_equations; lia). lia.
Qed.

(** Every page in the range of a missing table is absent. *)
Lemma table_gap m pd a x :
  0 <= a < KERNBASE -> tab m pd (PDX a) = None -> a <= x < 2 ^ 22 * (a / 2 ^ 22 + 1) -> present (pte m pd x) = false.
Proof.
  intros Ha Ht Hx. assert (PDX x = PDX a) as E.
  { rewrite !PDX_eq by (unfold KERNBASE in *; Z.div_mod_to_equations; lia). unfold KERNBASE in *. Z.div_mod_to_equations. lia. }
  unfold pte. by rewrite E, Ht.
Qed.

(** The entry of one page cleared, if there is one. *)
Lemma free_entry c pd a t l k :
  KERNBASE < ld_end -> user_ok c pd l k -> 0 <= a < KERNBASE -> a mod PGSIZE = 0 -> tab (mem k) pd (PDX a) = Some t ->
  let e := load32 (mem k) (t + 4 * PTX a) in
  exists l1 k1, when (truthy (Z.land e PTE_P))
      (let pa := PTE_ADDR e in
       if pa =? 0 then panic "kfree" else kfree (P2V pa) ;; st32 (t + 4 * PTX a) 0) k = Ret tt k1 /\
    shrunk c pd a (a + PGSIZE) l l1 k k1.
Proof.
  intros Hend Hu Ha Haa Ht e. assert (pte (mem k) pd a = e) as Ee by (unfold pte; by rewrite Ht).
  fold (present e). rewrite <- Ee. destruct (present (pte (mem k) pd a)) eqn:Hpr; cbn [when].
  - destruct (us_page _ _ _ _ Hu a Ha Hpr) as ((_ & _ & Hlow & _) & _).
    assert (PTE_ADDR (pte (mem k) pd a) <> 0) as Hnz.
    { intros E. unfold frame in Hlow. rewrite E in Hlow. vm_compute (P2V 0) in Hlow. unfold KERNBASE in Hend. lia. }
    destruct (free_page c pd a t l k Hu Ha Haa Ht Hpr) as (k1 & Hrun & Hsh).
    eexists _, _. split; [|exact Hsh]. cbv zeta. rewrite (proj2 (Z.eqb_neq _ _) Hnz). fold (frame (mem k) pd a). by mcall Hrun.
  - exists l, k. split; [done|]. apply shrunk_none; [done|]. intros x Hx.
    rewrite (pte_page _ _ x a); [done | unfold KERNBASE, PGSIZE in *; lia.. | by apply page_range].
Qed.

Lemma deallocuvm_loop c pd oldsz (newsz : Z) fuel a e l k :
  KERNBASE < ld_end ->
  user_ok c pd l k -> (0 < fuel)%nat -> oldsz - a <= PGSIZE * (Z.of_nat fuel - 1) -> 0 <= a -> a mod PGSIZE = 0 -> a <= KERNBASE ->
  oldsz <= e < oldsz + PGSIZE -> e mod PGSIZE = 0 -> e <= KERNBASE ->
  exists l' k', iter fuel (fun a =>
    if a <? oldsz then
      let* pte := walkpgdir pd a false in
      if pte =? 0 then ret (inl (u32 (u32 (PGADDR (PDX a + 1) 0 0 - PGSIZE) + PGSIZE))) else
      let* e := ld32 pte in
      when (truthy (Z.land e PTE_P))
        (let pa := PTE_ADDR e in
         if pa =? 0 then panic "kfree" else
         kfree (P2V pa) ;;
         st32 pte 0) ;;
      ret (inl (u32 (a + PGSIZE)))
    else ret (inr newsz)) a k = Ret newsz k' /\ shrunk c pd a (Z.max a e) l l' k k'.
Proof.
  intros Hend. revert a l k. induction fuel as [|fuel IH]; intros a l k Hu Hf Hfuel Ha Haa Hak He Hea Hek; [lia|]. cbn [iter].
  destruct (Z.ltb_spec a oldsz) as [Hlt|Hge].
  2:{ exists l, k. split; [done|]. apply shrunk_none; [done|]. assert (e <= a); [|lia].
      revert Haa Hea Hge He. unfold PGSIZE. intros. Z.div_mod_to_equations. lia. }
  destruct (tab (mem k) pd (PDX a)) as [t|] eqn:Ht.
  2:{ rewrite bind_assoc, (bind_Ret _ _ _ _ _ (walkpgdir_none pd a k Ht)). rewrite Z.eqb_refl, bind_ret. rewrite PGADDR_next by lia.
      set (b := 2 ^ 22 * (a / 2 ^ 22 + 1)). assert (a + PGSIZE <= b <= KERNBASE /\ b mod PGSIZE = 0) as [Hb Hba].
      { unfold b, KERNBASE, PGSIZE in *. Z.div_mod_to_equations. lia. }
      rewrite (u32_small (b - _)) by (unfold KERNBASE, PGSIZE in *; lia). rewrite Z.sub_add, u32_small by (unfold KERNBASE, PGSIZE in *; lia).
      destruct (IH b l k) as (l' & k' & Hrun & Hsh); try done; [unfold PGSIZE in *; lia..|].
      exists l', k'. split; [exact Hrun|]. rewrite (Z.max_r a e) by lia.
      apply (shrunk_trans c pd a (Z.min b e) e l l l' k k k'); [unfold PGSIZE in *; lia | unfold KERNBASE in *; lia | |].
      - apply shrunk_none; [done|]. intros x Hx. apply (table_gap _ _ a); [lia | done | fold b; lia].
      - destruct (Z.le_ge_cases b e).
        + rewrite Z.min_l, Z.max_r in * by done. done.
        + rewrite Z.min_r by done. rewrite Z.max_l in Hsh by done. by apply (shrunk_empty _ _ b). }
  assert (0 <= a < KERNBASE) as Hau by lia. pose proof (vm_space _ _ _ _ (us_vm _ _ _ _ Hu)) as Hs.
  destruct (sp_tab _ _ Hs _ _ (PDX_range a) Ht) as [Htp _]. pose proof (page_ok_kern t Htp). pose proof (PTX_range a).
  destruct (free_entry c pd a t l k) as (l1 & k1 & Hrun1 & Hsh1); try done.
  rewrite bind_assoc, (bind_Ret _ _ _ _ _ (walkpgdir_found pd a false t k Ht)).
  rewrite (proj2 (Z.eqb_neq _ 0)) by (unfold KERNBASE in *; lia). unfold ld32 at 1. mrun. mcall Hrun1.
  rewrite u32_small by (unfold KERNBASE, PGSIZE in *; lia).
  assert (a + PGSIZE <= e) as Hae.
  { clear -Haa Hea Hlt He. revert Haa Hea Hlt He. unfold PGSIZE. intros. Z.div_mod_to_equations. lia. }
  destruct (IH (a + PGSIZE) l1 k1) as (l' & k' & Hrun & Hsh); try done; [apply Hsh1 | unfold PGSIZE in *; lia..| | lia |].
  { rewrite Z.add_mod, Haa by done. done. }
  exists l', k'. split; [exact Hrun|]. rewrite (Z.max_r a e) by lia. rewrite (Z.max_r (a + PGSIZE) e) in Hsh by done.
  apply (shrunk_trans c pd a (a + PGSIZE) e l l1 l' k k1 k'); [unfold PGSIZE; lia | unfold KERNBASE in *; lia | done | done].
Qed.

Lemma deallocuvm_spec c pd oldsz newsz l k :
  KERNBASE < ld_end -> user_ok c pd l k -> 0 <= newsz -> newsz < oldsz -> oldsz <= KERNBASE ->
  exists l' k', deallocuvm pd oldsz newsz k = Ret newsz k' /\ shrunk c pd (PGROUNDUP newsz) (PGROUNDUP oldsz) l l' k k'.
Proof.
  intros Hend Hu Hnew Hlt Hold.
  destruct (PGROUNDUP_bounds oldsz) as [Ho Hoa]; [lia | unfold KERNBASE, PGSIZE in *; lia|].
  destruct (PGROUNDUP_bounds newsz) as [Hn Hna]; [lia | unfold KERNBASE, PGSIZE in *; lia|].
  unfold deallocuvm. rewrite (proj2 (Z.leb_gt _ _) Hlt). set (a := PGROUNDUP newsz) in *. set (e := PGROUNDUP oldsz) in *. clearbody a e.
  assert (a <= e /\ e <= KERNBASE) as [Hae He].
  { revert Hoa Hna Ho Hn Hold. unfold KERNBASE, PGSIZE. intros. Z.div_mod_to_equations. lia. }
  destruct (deallocuvm_loop c pd oldsz newsz (S (S (Z.to_nat (oldsz / PGSIZE)))) a e l k) as (l' & k' & Hrun & Hsh); try done; [lia | | lia | lia |].
  - unfold PGSIZE in *. Z.div_mod_to_equations. lia.
  - rewrite Z.max_r in Hsh by done. by exists l', k'.
Qed.

(** ** The kernel's part of a directory *)

(** Whole pages mapped, with enough free pages for the tables. *)
Lemma map_region c pd va size pa perm l k :
  vm_ok c pd l k -> 0 <= perm < PGSIZE -> 0 <= va -> va mod PGSIZE = 0 -> 0 < size -> size mod PGSIZE = 0 -> va + size <= 2 ^ 32 ->
  0 <= pa -> pa mod PGSIZE = 0 -> pa + size <= 2 ^ 32 ->
  (forall x, va <= x < va + size -> translate (mem k) pd x = None) ->
  PDX (va + size - 1) - PDX va + lacks (mem k) pd (PDX va) <= Z.of_nat (length l) ->
  exists l' k', mappages pd va size pa perm k = Ret 0 k' /\ vm_ok c pd l' k' /\ grown pd l l' k k' /\
    Z.of_nat (length l) <= Z.of_nat (length l') + PDX (va + size - 1) - PDX va + lacks (mem k) pd (PDX va) /\
    forall x, 0 <= x < 2 ^ 32 -> translate (mem k') pd x =
      if (va <=? x) && (x <? va + size) then Some (pa + (x - va), Z.lor perm PTE_P) else translate (mem k) pd x.
Proof.
  intros Hvm Hperm Hva Hvaa Hsize Hsa Hend Hpa Hpaa Hpae Hfree Hlen.
  assert (PGSIZE * Z.of_nat (npages va size) = size) as En.
  { unfold npages. revert Hvaa Hsa. unfold PGSIZE. intros. Z.div_mod_to_equations. lia. }
  destruct (mappages_spec c pd va size pa perm l k) as (r & j & l' & k' & Hrun & Hr & Hvm' & Hg & Hl & Hp);
    rewrite ?En, ?page_down in * by done; try done.
  { intros x Hx. specialize (Hfree x Hx). unfold translate in Hfree. by case_match. }
  destruct Hr as [[-> ->]|(_ & _ & _ & Hlt)]; [|lia]. exists l', k'. split_and!; try done.
  intros x Hx. rewrite <- En. apply translate_mapping; try done; [exact (vm_space _ _ _ _ Hvm) | exact (vm_space _ _ _ _ Hvm') | by apply Hp].
Qed.

(** How kernel.ld lays the kernel out. *)
Definition linked : Prop :=
  KERNLINK < ld_data /\ ld_data mod PGSIZE = 0 /\ ld_data <= ld_end /\ ld_data < KERNBASE + PHYSTOP.

(** The mappings of memlayout.h that every process has. *)
Definition kernel_map (x : Z) : option (Z * Z) :=
  if x <? KERNBASE then None else
  if x <? KERNLINK then Some (V2P x, Z.lor PTE_W PTE_P) else
  if x <? ld_data then Some (V2P x, PTE_P) else
  if x <? KERNBASE + PHYSTOP then Some (V2P x, Z.lor PTE_W PTE_P) else
  if x <? DEVSPACE then None else Some (x, Z.lor PTE_W PTE_P).

(** A zeroed page is an empty directory. *)
Lemma fresh_dir c p l k :
  kmem_ready c k -> kmem_ok k (p :: l) ->
  vm_ok c p l (took c p (memset p 0 PGSIZE) k) /\
  (forall i, 0 <= i < 1024 -> tab (memset p 0 PGSIZE (mem k)) p i = None).
Proof.
  intros Hr Hk. pose proof Hk as (Hm & _ & Hnd & Hok). apply list.Forall_cons in Hok as [Hp Hok]. apply list.NoDup_cons in Hnd as [Hpl Hnd].
  destruct (within_memset p 0 (mem k) Hm) as [Hw Hout].
  assert (forall i, 0 <= i < 1024 -> tab (memset p 0 PGSIZE (mem k)) p i = None) as Htab.
  { intros i Hi. unfold tab, pde. by rewrite load_zeroed, Z.eqb_refl by done. }
  split; [|done]. split; rewrite ?mem_took.
  - by apply took_ready.
  - apply took_kmem; [done | done|]. intros q x Hq Hx. apply Hout.
    pose proof (proj1 (list.Forall_forall _ _) Hok q Hq) as (_ & Hqa & _).
    destruct (page_disjoint q p) as [|]; try done; [apply Hp | congruence | unfold PGSIZE in *; lia..].
  - split; [done | | |]; intros *; intros; by rewrite Htab in *.
  - intros q [->|(i & Hi & E)]; [done|]. by rewrite Htab in E.
Qed.

(** What [setupkvm] does to the rest: the directory and its tables come from
    the free list, and nothing else is written. *)
Record fresh (d : Z) (l l' : list Z) (k k' : kernel) : Prop := {
  fr_free : exists used, l = used ++ l';
  fr_owned q : owned (mem k') d q -> q ∈ l;
  fr_mem x : (forall q, q ∈ l -> x < q \/ q + PGSIZE <= x) -> mem k' x = mem k x;
  fr_cr3 : cr3 (hw k') = cr3 (hw k);
  fr_ptable : ptable k' = ptable k;
}.

Lemma fresh_grown d l l1 l2 k k1 k2 : fresh d l l1 k k1 -> grown d l1 l2 k1 k2 -> fresh d l l2 k k2.
Proof.
  intros [[u1 ->] Ho1 Hm1 Hc1 Ht1] [[u2 ->] Hmono Hnew Hm2 Hc2 Ht2].
  assert (forall q, owned (mem k2) d q -> q ∈ u1 ++ u2 ++ l2) as Hown.
  { intros q [Hq|Hq]%Hnew; [auto|]. apply elem_of_app. by right. }
  split; try congruence.
  - exists (u1 ++ u2). by rewrite app_assoc.
  - done.
  - intros x Hx. rewrite Hm2 by auto. by apply Hm1.
Qed.

Lemma fresh_took c d l k :
  kmem_ready c k -> kmem_ok k (d :: l) -> fresh d (d :: l) l k (took c d (memset d 0 PGSIZE) k).
Proof.
  intros Hr Hk. destruct (fresh_dir c d l k Hr Hk) as [_ Htab]. destruct (ktouch_frame c k). pose proof Hk as (Hm & _). destruct (within_memset d 0 (mem k) Hm) as [_ Hout].
  split; rewrite ?mem_took; try done.
  - by exists [d].
  - intros q [->|(i & Hi & E)]; [constructor|]. by rewrite Htab in E.
  - intros x Hx. apply Hout. apply Hx. constructor.
Qed.

(** The four entries of kmap. *)
Lemma kmap_regions :
  linked ->
  map (fun m => (virt m, u32 (phys_end m - phys_start m), phys_start m, perm m)) kmap =
    [(KERNBASE, EXTMEM, 0, 2); (KERNLINK, ld_data - KERNLINK, EXTMEM, 0);
     (ld_data, KERNBASE + PHYSTOP - ld_data, ld_data - KERNBASE, 2); (DEVSPACE, 0x2000000, DEVSPACE, 2)].
Proof.
  intros (H1 & H2 & H3 & H4). cbn [kmap map virt phys_start phys_end Vm.perm]. unfold KERNLINK, KERNBASE, EXTMEM, PHYSTOP in *.
  assert (V2P ld_data = ld_data - KERNBASE) as -> by (unfold V2P, KERNBASE; apply u32_small; lia).
  unfold KERNBASE, PTE_W. change (V2P (2147483648 + 1048576)) with 1048576.
  rewrite (u32_small (ld_data - _ - _)), (u32_small (_ - (ld_data - _))) by lia.
  change (u32 (1048576 - 0)) with 1048576. change (u32 (0 - DEVSPACE)) with 0x2000000.
  replace (ld_data - 2147483648 - 1048576) with (ld_data - (2147483648 + 1048576)) by lia.
  by replace (234881024 - (ld_data - 2147483648)) with (2147483648 + 234881024 - ld_data) by lia.
Qed.

Lemma translate_lacks m pd x : translate m pd x <> None -> lacks m pd (PDX x) = 0.
Proof. intros Hx. apply lacks_present. unfold translate in Hx. by case_match. Qed.

Lemma for_find_map {A B C} (h : A -> B) (g : B -> M (option C)) l k : for_find (map h l) g k = for_find l (fun x => g (h x)) k.
Proof. revert k. induction l as [|x l IH]; intros k; [done|]. cbn [map for_find]. unfold bind. destruct (g (h x) k) as [[y|] k'| | | | |]; done. Qed.

Lemma PDX_kernel x : KERNBASE <= x < KERNBASE + PHYSTOP -> PDX x = x / 2 ^ 22 /\ 512 <= PDX x <= 567.
Proof.
  intros Hx. rewrite PDX_eq by layout. split; [done|]. unfold KERNBASE, PHYSTOP in *. Z.div_mod_to_equations. lia.
Qed.

(** The page tables below [KERNBASE + PHYSTOP] and for the devices: 64. *)
Lemma kmap_translates c d l k :
  linked -> vm_ok c d l k -> (forall x, translate (mem k) d x = None) -> 64 <= Z.of_nat (length l) ->
  exists l' k', for_find kmap (fun m =>
      let* r := mappages d (virt m) (u32 (phys_end m - phys_start m)) (phys_start m) (perm m) in
      if r <? 0 then freevm d ;; ret (Some 0) else ret None) k = Ret None k' /\
    vm_ok c d l' k' /\ grown d l l' k k' /\ Z.of_nat (length l) <= Z.of_nat (length l') + 64 /\
    forall x, 0 <= x < 2 ^ 32 -> translate (mem k') d x = kernel_map x.
Proof.
  intros Hlk Hvm0 Ht0 Hlen. pose proof (for_find_map (fun m => (virt m, u32 (phys_end m - phys_start m), phys_start m, perm m))
    (fun '(v, s, p, f) => let* r := mappages d v s p f in if r <? 0 then freevm d ;; ret (Some 0) else ret None) kmap k) as E.
  cbv beta iota in E. rewrite <- E, (kmap_regions Hlk). destruct Hlk as (H1 & H2 & H3 & H4). clear E. cbn [for_find].
  assert (KERNBASE <= ld_data - 1) as Hld by (unfold KERNLINK, EXTMEM in *; lia).
  destruct (PDX_kernel ld_data) as [Ed Bd]; [lia|]. destruct (PDX_kernel (ld_data - 1)) as [Ed' Bd']; [lia|].
  destruct (map_region c d KERNBASE EXTMEM 0 2 l k) as (l1 & k1 & Hrun1 & Hvm1 & Hg1 & Hl1 & Ht1); try done.
  { pose proof (lacks_range (mem k) d (PDX KERNBASE)). change (PDX (KERNBASE + EXTMEM - 1)) with (PDX KERNBASE). lia. }
  mcall Hrun1. change (0 <? 0) with false. mrun.
  change (PDX (KERNBASE + EXTMEM - 1)) with (PDX KERNBASE) in Hl1. pose proof (lacks_range (mem k) d (PDX KERNBASE)).
  assert (lacks (mem k1) d (PDX KERNLINK) = 0) as Hk1.
  { change (PDX KERNLINK) with (PDX KERNBASE). apply translate_lacks. by rewrite Ht1 by done. }
  assert (0 <= PDX (KERNLINK + (ld_data - KERNLINK) - 1) - PDX KERNLINK <= 55) as Hp2.
  { replace (KERNLINK + (ld_data - KERNLINK) - 1) with (ld_data - 1) by lia. change (PDX KERNLINK) with 512. lia. }
  destruct (map_region c d KERNLINK (ld_data - KERNLINK) EXTMEM 0 l1 k1) as (l2 & k2 & Hrun2 & Hvm2 & Hg2 & Hl2 & Ht2); try done.
  { lia. }
  { rewrite Zminus_mod, H2. done. }
  { layout. }
  { layout. }
  { intros x Hx. rewrite Ht1, Ht0 by layout. layout. }
  { lia. }
  rewrite bind_ret. mcall Hrun2. change (0 <? 0) with false. mrun.
  replace (KERNLINK + (ld_data - KERNLINK)) with ld_data in * by lia. rewrite Hk1 in Hl2.
  assert (0 <= PDX (KERNBASE + PHYSTOP - 1) - PDX ld_data + lacks (mem k2) d (PDX ld_data) <= 567 - PDX (ld_data - 1)) as Hp3.
  { change (PDX (KERNBASE + PHYSTOP - 1)) with 567. pose proof (lacks_range (mem k2) d (PDX ld_data)).
    assert (PDX ld_data = PDX (ld_data - 1) \/ PDX ld_data = PDX (ld_data - 1) + 1) as [E|E].
    { rewrite Ed, Ed'. clear. Z.div_mod_to_equations. lia. }
    - assert (lacks (mem k2) d (PDX ld_data) = 0) as ->; [|lia]. rewrite E. apply translate_lacks.
      rewrite Ht2, Ht1 by layout. layout.
    - lia. }
  destruct (map_region c d ld_data (KERNBASE + PHYSTOP - ld_data) (ld_data - KERNBASE) 2 l2 k2) as (l3 & k3 & Hrun3 & Hvm3 & Hg3 & Hl3 & Ht3); try done.
  { layout. }
  { layout. }
  { rewrite Zminus_mod, H2. done. }
  { layout. }
  { layout. }
  { rewrite Zminus_mod, H2. done. }
  { layout. }
  { intros x Hx. rewrite Ht2, Ht1, Ht0 by layout. layout. }
  { replace (ld_data + (KERNBASE + PHYSTOP - ld_data)) with (KERNBASE + PHYSTOP) by lia. change (PDX KERNLINK) with 512 in *. lia. }
  rewrite bind_ret. mcall Hrun3. change (0 <? 0) with false. mrun.
  replace (ld_data + (KERNBASE + PHYSTOP - ld_data)) with (KERNBASE + PHYSTOP) in * by lia. change (PDX KERNLINK) with 512 in *.
  change (PDX (KERNBASE + PHYSTOP - 1)) with 567 in *. pose proof (lacks_range (mem k3) d (PDX DEVSPACE)).
  destruct (map_region c d DEVSPACE 0x2000000 DEVSPACE 2 l3 k3) as (l4 & k4 & Hrun4 & Hvm4 & Hg4 & Hl4 & Ht4); try done.
  { intros x Hx. rewrite Ht3, Ht2, Ht1, Ht0 by layout. layout. }
  { change (PDX (DEVSPACE + 0x2000000 - 1)) with 1023. change (PDX DEVSPACE) with 1016 at 1. lia. }
  rewrite bind_ret. mcall Hrun4. change (0 <? 0) with false. mrun. exists l4, k4.
  change (PDX (DEVSPACE + 0x2000000 - 1)) with 1023 in *. change (PDX DEVSPACE) with 1016 in Hl4 at 1.
  split_and!; [done | done | | lia |].
  { eapply tables_grown_trans; [|exact Hg4]. eapply tables_grown_trans; [|exact Hg3]. by eapply tables_grown_trans. }
  intros x Hx. rewrite Ht4, Ht3, Ht2, Ht1, Ht0 by done. unfold kernel_map, V2P. unfold PTE_W. clear - Hx H1 H2 H3 H4 Hld.
  layout; rewrite ?u32_small by lia; do 2 f_equal; lia.
Qed.

Lemma empty_translate m d x : (forall i, 0 <= i < 1024 -> tab m d i = None) -> translate m d x = None.
Proof. intros Ht. unfold translate, pte. by rewrite Ht by apply PDX_range. Qed.

Lemma setupkvm_spec c d l k :
  linked -> kmem_ready c k -> kmem_ok k (d :: l) -> 64 <= Z.of_nat (length l) ->
  exists l' k', setupkvm k = Ret d k' /\ vm_ok c d l' k' /\ fresh d (d :: l) l' k k' /\
    Z.of_nat (length l) <= Z.of_nat (length l') + 64 /\
    forall x, 0 <= x < 2 ^ 32 -> translate (mem k') d x = kernel_map x.
Proof.
  intros Hlk Hr Hk Hlen. destruct (fresh_dir c d l k Hr Hk) as [Hvm0 Htab]. pose proof (sp_pd _ _ (vm_space _ _ _ _ Hvm0)) as Hd.
  destruct (kmap_translates c d l (took c d (memset d 0 PGSIZE) k)) as (l' & k' & Hrun & Hvm & Hg & Hl & Ht); try done.
  { intros x. rewrite mem_took. by apply empty_translate. }
  exists l', k'. split_and!; [|done | | done | done].
  - unfold setupkvm. mcall (kalloc_eq c k (d :: l) Hr Hk). rewrite (proj2 (Z.eqb_neq _ _) (page_ok_nonzero d Hd)). mrun.
    change (DEVSPACE <? P2V PHYSTOP) with false. cbv iota. fold (took c d (memset d 0 PGSIZE) k). by mcall Hrun.
  - apply (fresh_grown d (d :: l) l l' k (took c d (memset d 0 PGSIZE) k) k'); [by apply fresh_took | done].
Qed.

(** A new directory has no user pages. *)
Lemma kernel_user c d l k :
  vm_ok c d l k -> (forall x, 0 <= x < 2 ^ 32 -> translate (mem k) d x = kernel_map x) ->
  user_ok c d l k /\ forall x, 0 <= x < KERNBASE -> present (pte (mem k) d x) = false.
Proof.
  intros Hvm Ht. assert (forall x, 0 <= x < KERNBASE -> present (pte (mem k) d x) = false) as Hnp.
  { intros x Hx. specialize (Ht x ltac:(unfold KERNBASE in *; lia)). unfold translate, kernel_map in Ht.
    rewrite (proj2 (Z.ltb_lt _ _)) in Ht by lia. by destruct (present _). }
  split; [|done]. split; [done | |]; intros *; intros; by rewrite Hnp in *.
Qed.

(** ** Two address spaces *)

(** The pages a process holds: its directory, its tables and its memory. *)
Definition holds (m : memory) (pd q : Z) : Prop :=
  owned m pd q \/ exists x, 0 <= x < KERNBASE /\ present (pte m pd x) = true /\ frame m pd x = q.

Lemma holds_page c pd l k q : user_ok c pd l k -> holds (mem k) pd q -> page_ok q /\ q ∉ l.
Proof.
  intros Hu [Ho|(x & Hx & Hp & <-)]; [|by destruct (us_page _ _ _ _ Hu x Hx Hp) as (H1 & H2 & _)].
  split; [|exact (vm_used _ _ _ _ (us_vm _ _ _ _ Hu) q Ho)].
  pose proof (vm_space _ _ _ _ (us_vm _ _ _ _ Hu)) as Hs.
  destruct Ho as [->|(i & Hi & E)]; [apply (sp_pd _ _ Hs) | by apply (sp_tab _ _ Hs _ _ Hi E)].
Qed.

(** Memory that agrees on the pages of a directory holds the same tables, and
    memory that agrees on what a process holds is the same to the process. *)
Definition agree (m m' : memory) (P : Z -> Prop) : Prop := forall q x, P q -> q <= x < q + PGSIZE -> m' x = m x.

Lemma agree_pde m m' pd i : agree m m' (owned m pd) -> 0 <= i < 1024 -> pde m' pd i = pde m pd i.
Proof.
  intros Ha Hi. unfold pde. rewrite (load32_ext m' m); [done|]. intros x Hx. apply (Ha pd); [by left | unfold PGSIZE; lia].
Qed.

Lemma agree_pte m m' pd x : agree m m' (owned m pd) -> pte m' pd x = pte m pd x.
Proof.
  intros Ha. pose proof (PDX_range x). pose proof (PTX_range x). unfold pte. rewrite (tab_ext m) by by apply agree_pde.
  destruct (tab m pd (PDX x)) as [t|] eqn:E; [|done]. apply load32_ext. intros y Hy.
  apply (Ha t); [right; by exists (PDX x) | unfold PGSIZE; lia].
Qed.

Lemma agree_umem m m' pd x : agree m m' (holds m pd) -> 0 <= x < KERNBASE -> umem m' pd x = umem m pd x.
Proof.
  intros Ha Hx. assert (pte m' pd x = pte m pd x) as E by (apply agree_pte; intros q y Hq; apply (Ha q); by left).
  unfold umem, frame. rewrite E. destruct (present _) eqn:Hp; [|done]. f_equal.
  pose proof (Z.mod_pos_bound x PGSIZE ltac:(done)). apply (Ha (frame m pd x)); [|unfold frame; lia].
  right. by exists x.
Qed.

(** A process whose pages are left alone while free pages are taken. *)
Lemma held_kept c pd l l' k k' :
  user_ok c pd l k -> kmem_ready c k' -> kmem_ok k' l' -> (forall q, q ∈ l' -> q ∈ l) ->
  agree (mem k) (mem k') (holds (mem k) pd) ->
  user_ok c pd l' k' /\ (forall q, holds (mem k') pd q -> holds (mem k) pd q) /\
  (forall x, pte (mem k') pd x = pte (mem k) pd x) /\
  forall x, 0 <= x < KERNBASE -> umem (mem k') pd x = umem (mem k) pd x.
Proof.
  intros Hu Hr Hk Hl Hag.
  assert (agree (mem k) (mem k') (owned (mem k) pd)) as Hao by (intros q x Hq; apply Hag; by left).
  assert (forall x, pte (mem k') pd x = pte (mem k) pd x) as Hpte by (intros x; by apply agree_pte).
  assert (forall i, 0 <= i < 1024 -> pde (mem k') pd i = pde (mem k) pd i) as Htab by (intros; by apply agree_pde).
  assert (forall q, owned (mem k') pd q <-> owned (mem k) pd q) as Hown by (intros q; by apply owned_ext).
  assert (forall x, frame (mem k') pd x = frame (mem k) pd x) as Hfr by (intros x; unfold frame; by rewrite Hpte).
  split_and!; [split| | done | intros x Hx; by apply agree_umem].
  - split; [done | done | by apply (space_ext (mem k)); [|apply Hu] |].
    intros q Hq%Hown Hin. apply (vm_used _ _ _ _ (us_vm _ _ _ _ Hu) q Hq). auto.
  - intros x Hx. rewrite Hpte, Hfr, Hown. intros Hp. destruct (us_page _ _ _ _ Hu x Hx Hp) as (H1 & H2 & H3).
    split_and!; [done | intros Hin; apply H2; auto | done].
  - intros x y Hx Hy. rewrite !Hpte, !Hfr. by apply (us_inj _ _ _ _ Hu).
  - intros q [Ho|(x & Hx)]; [left; by apply Hown | right; exists x]. by rewrite <- Hpte, <- Hfr.
Qed.

(** While a directory is made, and while another one takes pages. *)
Lemma fresh_agree c pd d l l' k k' :
  user_ok c pd l k -> Forall page_ok l -> fresh d l l' k k' -> agree (mem k) (mem k') (holds (mem k) pd).
Proof.
  intros Hu Hok Hf q x Hq Hx. destruct (holds_page c pd l k q Hu Hq) as [(_ & Hqa & _) Hql].
  apply (fr_mem _ _ _ _ _ Hf). intros p Hp. pose proof (proj1 (list.Forall_forall _ _) Hok p Hp) as (_ & Hpa & _).
  assert (q <> p) as Hne by congruence. destruct (page_disjoint q p Hqa Hpa Hne); lia.
Qed.

Lemma extends_agree c pd d l l' k k' :
  user_ok c pd l k -> vm_ok c d l k -> (forall q, holds (mem k) pd q -> ~ owned (mem k) d q) ->
  extends d l l' k k' -> agree (mem k) (mem k') (holds (mem k) pd).
Proof.
  intros Hu Hd Hap He q x Hq. destruct (holds_page c pd l k q Hu Hq) as [Hqp Hql].
  apply (extends_page d l l'); [done | done | done | by apply Hap | apply Hd | apply Hd].
Qed.

(** *** copyuvm *)

(** The process [pd] as it was in [k0], apart from the pages of [d]. *)
Record parent (c : nat) (pd d : Z) (k0 : kernel) (l : list Z) (k : kernel) : Prop := {
  pa_user : user_ok c pd l k;
  pa_apart q : holds (mem k) pd q -> ~ owned (mem k) d q;
  pa_holds q : holds (mem k) pd q -> holds (mem k0) pd q;
  pa_pte x : pte (mem k) pd x = pte (mem k0) pd x;
  pa_umem x : 0 <= x < KERNBASE -> umem (mem k) pd x = umem (mem k0) pd x;
}.

Lemma parent_kept c pd d k0 l l' k k' :
  parent c pd d k0 l k -> vm_ok c d l k -> vm_ok c d l' k' -> extends d l l' k k' -> parent c pd d k0 l' k'.
Proof.
  intros [Hu Hap Hho Hpte Hum] Hd Hd' He.
  destruct (held_kept c pd l l' k k' Hu) as (Hu' & Hh & Hpte' & Hum'); [apply Hd' | apply Hd' | | by apply (extends_agree c pd d l l') |].
  { intros q. by apply extends_elem with (1 := He). }
  split; [done | | auto | intros x; by rewrite Hpte' | intros x Hx; by rewrite Hum', Hum].
  intros q Hq%Hh [Ho|Ho]%(ex_owned _ _ _ _ _ He); [by apply (Hap q)|]. by destruct (holds_page c pd l k q Hu Hq).
Qed.

Lemma within_memmove p s : within p (memmove p s PGSIZE).
Proof.
  intros m Hm. split; [intros x; rewrite memmove_eq by done; by apply copy_bytes_ok|].
  intros x Hx. rewrite memmove_eq by done. by apply copy_bytes_out.
Qed.

Lemma present_flags e : present e = true -> 0 <= PTE_FLAGS e < PGSIZE /\ Z.lor (PTE_FLAGS e) PTE_P = PTE_FLAGS e.
Proof.
  intros Hp. rewrite PTE_FLAGS_eq. split; [by apply Z.mod_pos_bound|]. rewrite present_odd in Hp.
  apply Z.bits_inj'. intros n Hn. rewrite Z.lor_spec. unfold PTE_P. change PGSIZE with (2 ^ 12).
  destruct (Z.eq_dec n 0) as [->|Hne].
  - rewrite Z.mod_pow2_bits_low by lia. by rewrite Z.bit0_odd, Hp.
  - change 1 with (2 ^ 0). rewrite Z.pow2_bits_false by lia. by rewrite orb_false_r.
Qed.

(** A present entry is found through its table. *)
Lemma walk_present c pd x l k :
  vm_ok c pd l k -> present (pte (mem k) pd x) = true ->
  exists a, walkpgdir pd x false k = Ret a k /\ a <> 0 /\ load32 (mem k) a = pte (mem k) pd x.
Proof.
  intros Hvm Hp. pose proof (PDX_range x) as Hd. pose proof (PTX_range x) as Ht. unfold pte in *.
  destruct (tab (mem k) pd (PDX x)) as [t|] eqn:E; [|done].
  destruct (sp_tab _ _ (vm_space _ _ _ _ Hvm) _ _ Hd E) as [Htp _]. pose proof (page_ok_kern t Htp).
  exists (t + 4 * PTX x). split_and!; [by apply walkpgdir_found | unfold KERNBASE in *; lia | done].
Qed.

(** One page copied. *)
Lemma copy_page c pd d k0 a p l k :
  parent c pd d k0 (p :: l) k -> vm_ok c d (p :: l) k -> 0 <= a < KERNBASE -> a mod PGSIZE = 0 ->
  present (pte (mem k0) pd a) = true ->
  let f := memmove p (frame (mem k0) pd a) PGSIZE in
  forall x, a <= x < a + PGSIZE -> umem (mem k0) pd x = Some (f (mem k) (p + x mod PGSIZE)).
Proof.
  intros [Hu Hap Hho Hpte Hum] Hd Ha Haa Hp f x Hx.
  assert (0 <= x < KERNBASE) as Hxk.
  { revert Ha Haa Hx. unfold KERNBASE, PGSIZE. intros. Z.div_mod_to_equations. lia. }
  apply page_range in Hx; [|done]. pose proof (Z.mod_pos_bound x PGSIZE ltac:(done)) as Hm.
  assert (pte (mem k0) pd x = pte (mem k0) pd a) as E by (apply pte_page; [unfold KERNBASE in *; lia.. | done]).
  unfold f. pose proof (vm_free _ _ _ _ Hd) as (Hmem & _). rewrite memmove_eq, copy_bytes_in by (done || lia).
  rewrite <- Hum by done. unfold umem, frame. rewrite Hpte, E, Hp. do 2 f_equal. lia.
Qed.

(** A round of the loop of [copyuvm]. *)
Lemma copy_round c pd d k0 a p l k k' :
  parent c pd d k0 (p :: l) k -> vm_ok c d (p :: l) k -> present (pte (mem k0) pd a) = true ->
  mappages d a PGSIZE (V2P p) (PTE_FLAGS (pte (mem k0) pd a)) (took c p (memmove p (frame (mem k0) pd a) PGSIZE) k) = Ret 0 k' ->
  forall bad : M (Z + Z),
  (let* pte := walkpgdir pd a false in
   if pte =? 0 then panic "copyuvm: pte should exist" else
   let* e := ld32 pte in
   if negb (truthy (Z.land e PTE_P)) then panic "copyuvm: page not present" else
   let pa := PTE_ADDR e in
   let flags := PTE_FLAGS e in
   let* p := kalloc in
   if p =? 0 then bad else
   modify (upd_mem (memmove p (P2V pa) PGSIZE)) ;;
   let* r := mappages d a PGSIZE (V2P p) flags in
   if r <? 0 then kfree p ;; bad
   else ret (inl (u32 (a + PGSIZE)))) k = Ret (inl (u32 (a + PGSIZE))) k'.
Proof.
  intros Hpa Hda Hp Hrun bad.
  destruct (walk_present c pd a (p :: l) k (us_vm _ _ _ _ (pa_user _ _ _ _ _ _ Hpa))) as (e & Hw & He0 & He); [by rewrite (pa_pte _ _ _ _ _ _ Hpa)|].
  mcall Hw. rewrite (proj2 (Z.eqb_neq _ _) He0). mrun. rewrite He, (pa_pte _ _ _ _ _ _ Hpa). fold (present (pte (mem k0) pd a)).
  rewrite Hp. cbn [negb]. destruct (vm_first _ _ _ _ _ Hda) as (Hpp & _).
  destruct (kalloc_took c d p (memmove p (frame (mem k0) pd a) PGSIZE) l k Hda) as (k3 & Hka & Ek3). mcall Hka.
  rewrite (proj2 (Z.eqb_neq _ _) (page_ok_nonzero p Hpp)). mrun. fold (frame (mem k0) pd a). rewrite Ek3. by mcall Hrun.
Qed.

(** [PGROUNDUP sz] is [n] whole pages. *)
Lemma roundup_pages sz :
  0 <= sz <= KERNBASE -> let n := Z.to_nat (PGROUNDUP sz / PGSIZE) in
  PGROUNDUP sz = PGSIZE * Z.of_nat n /\ sz <= PGROUNDUP sz < sz + PGSIZE /\ PGROUNDUP sz <= KERNBASE.
Proof.
  intros Hsz n. destruct (PGROUNDUP_bounds sz) as [Hb Hba]; [lia | unfold KERNBASE, PGSIZE in *; lia|]. split_and!; try lia.
  - unfold n. rewrite Z2Nat.id by (apply Z.div_pos; unfold PGSIZE in *; lia). pose proof (Z.div_mod (PGROUNDUP sz) PGSIZE ltac:(done)). lia.
  - revert Hb Hba Hsz. unfold KERNBASE, PGSIZE. generalize (PGROUNDUP sz). intros. Z.div_mod_to_equations. lia.
Qed.

(** The pages of [pd] below [sz] copied into the empty directory [d]. *)
Lemma copyuvm_loop c pd sz d n k0 l1 k1 :
  user_ok c d l1 k1 -> parent c pd d k0 l1 k1 -> (forall x, 0 <= x < KERNBASE -> present (pte (mem k1) d x) = false) ->
  0 <= sz <= PGSIZE * Z.of_nat n -> PGSIZE * Z.of_nat n < sz + PGSIZE -> PGSIZE * Z.of_nat n <= KERNBASE ->
  (forall x, 0 <= x < PGSIZE * Z.of_nat n -> present (pte (mem k0) pd x) = true) ->
  setupkvm k0 = Ret d k1 -> d <> 0 -> needs (mem k1) d 0 n <= Z.of_nat (length l1) ->
  exists l2 k2, copyuvm pd sz k0 = Ret d k2 /\
    populated c d 0 n (umem (mem k0) pd) (fun x => PTE_FLAGS (pte (mem k0) pd x)) l1 l2 k1 k2 /\ parent c pd d k0 l2 k2.
Proof.
  intros Hu1 Hpar Hnp1 Hsz Hb Hend Hpr Hrun1 Hd0 Hneed.
  unfold copyuvm. rewrite (bind_Ret _ _ _ _ _ Hrun1), (proj2 (Z.eqb_neq _ _) Hd0). cbv zeta.
  match goal with |- context [iter ?fu ?b 0] => set (body := b); set (fuel := fu) end.
  apply (populate_loop c d sz d body (parent c pd d k0)) with (n := n) (fuel := fuel) (a := 0) (l := l1) (k := k1); try done.
  - intros la lb ka kb. apply parent_kept.
  - intros a k' Hge. unfold body. by rewrite (proj2 (Z.ltb_ge _ _) Hge).
  - intros a p la ka Hpa Hda Ha Haa.
    assert (present (pte (mem k0) pd a) = true) as Hp by (apply Hpr; lia).
    destruct (present_flags _ Hp) as [Hfl Elor]. exists (memmove p (frame (mem k0) pd a) PGSIZE), (PTE_FLAGS (pte (mem k0) pd a)).
    split_and!; [apply within_memmove | apply Hfl | apply Hfl | |].
    + intros x Hx. split; [apply (copy_page c pd d k0 a p la ka); try done; lia|].
      rewrite Elor. f_equal. apply pte_page; [| unfold KERNBASE in *; lia | by apply page_range]. unfold KERNBASE, PGSIZE in *. lia.
    + intros k' Hrun. unfold body. rewrite (proj2 (Z.ltb_lt _ _)) by lia. by apply (copy_round c pd d k0 a p la).
  - unfold fuel. clear -Hb Hsz. unfold PGSIZE in *. Z.div_mod_to_equations. lia.
  - lia.
  - intros x Hx. apply Hnp1. lia.
Qed.

Lemma copyuvm_spec c pd sz d l k :
  let n := Z.to_nat (PGROUNDUP sz / PGSIZE) in
  linked -> user_ok c pd (d :: l) k -> 0 <= sz <= KERNBASE ->
  (forall x, 0 <= x < PGROUNDUP sz -> present (pte (mem k) pd x) = true) ->
  64 + Z.of_nat n + PDX (PGROUNDUP sz) + 1 <= Z.of_nat (length l) ->
  exists l' k', copyuvm pd sz k = Ret d k' /\ user_ok c d l' k' /\ parent c pd d k l' k' /\
    (forall q, holds (mem k') d q -> q ∈ d :: l) /\
    (forall x, 0 <= x < KERNBASE -> umem (mem k') d x = if x <? PGROUNDUP sz then umem (mem k) pd x else None) /\
    (forall x, 0 <= x < PGROUNDUP sz -> PTE_FLAGS (pte (mem k') d x) = PTE_FLAGS (pte (mem k) pd x)) /\
    (forall x, KERNBASE <= x < 2 ^ 32 -> translate (mem k') d x = kernel_map x).
Proof.
  intros n Hlk Hu Hsz Hpr Hlen. pose proof (us_vm _ _ _ _ Hu) as Hvm. destruct (roundup_pages sz Hsz) as (En & Hb & Hend).
  fold n in En. clearbody n. rewrite En in *. pose proof (vm_free _ _ _ _ Hvm) as Hk. pose proof (PDX_range (PGSIZE * Z.of_nat n)).
  pose proof Hk as (_ & _ & _ & Hok). pose proof (proj1 (list.Forall_forall _ _) Hok d ltac:(constructor)) as Hdp.
  destruct (setupkvm_spec c d l k Hlk (vm_ready _ _ _ _ Hvm) Hk ltac:(lia)) as (l1 & k1 & Hrun1 & Hvm1 & Hf1 & Hl1 & Ht1).
  destruct (kernel_user c d l1 k1 Hvm1 Ht1) as [Hu1 Hnp1].
  assert (forall q, q ∈ l1 -> q ∈ d :: l) as Hsub.
  { destruct (fr_free _ _ _ _ _ Hf1) as [u E]. intros q Hq. rewrite E. apply elem_of_app. by right. }
  destruct (held_kept c pd (d :: l) l1 k k1 Hu) as (Hpu & Hph & Hppte & Hpum);
    [apply Hvm1 | apply Hvm1 | done | by apply (fresh_agree c pd d (d :: l) l1) |].
  assert (parent c pd d k l1 k1) as Hpar.
  { split; [done | | done | done | done]. intros q Hq%Hph Ho%(fr_owned _ _ _ _ _ Hf1). by destruct (holds_page c pd (d :: l) k q Hu Hq). }
  destruct (copyuvm_loop c pd sz d n k l1 k1) as (l2 & k2 & Hrun2 & [Hu2 He2 _ Hum2 Hpte2 Hfl2 Hfr2] & Hpar2); try done; [lia | lia | by apply page_ok_nonzero| |].
  { unfold needs. change (PDX 0) with 0. rewrite Z.add_0_l. pose proof (lacks_range (mem k1) d 0). lia. }
  assert (forall x, 0 <= x -> inside 0 n x = (x <? PGSIZE * Z.of_nat n)) as Hin.
  { intros x Hx. unfold inside. by rewrite (proj2 (Z.leb_le _ _) Hx), Z.add_0_l. }
  exists l2, k2. split_and!; try done.
  - intros q [Ho|(x & Hx & Hpx & <-)].
    + apply (ex_owned _ _ _ _ _ He2) in Ho as [Ho|Ho]; [by apply (fr_owned _ _ _ _ _ Hf1) | auto].
    + apply Hsub, Hfr2. destruct (inside 0 n x) eqn:E; [done|].
      rewrite Hpte2 in Hpx by (done || unfold KERNBASE in *; lia). by rewrite Hnp1 in Hpx.
  - intros x Hx. rewrite Hum2, Hin by (done || lia). destruct (x <? _); [done|]. unfold umem. by rewrite Hnp1.
  - intros x Hx. apply Hfl2. rewrite Hin by lia. apply Z.ltb_lt. lia.
  - intros x Hx. rewrite <- Ht1 by (unfold KERNBASE in *; lia).
    rewrite !translate_open by (apply (vm_space _ _ _ _ (us_vm _ _ _ _ Hu2)) || exact (vm_space _ _ _ _ Hvm1)). rewrite Hpte2; [done | unfold KERNBASE in *; lia|].
    rewrite Hin by (unfold KERNBASE in *; lia). apply Z.ltb_ge. lia.
Qed.

(** ** What the process sees *)

(** Between [m] and [m'] only pages of [P] are written. *)
Definition writes_only (P : Z -> Prop) (m m' : memory) : Prop :=
  forall x, (forall q, P q -> x < q \/ q + PGSIZE <= x) -> m' x = m x.

Lemma writes_agree c pd d l l' k m :
  user_ok c pd l k -> user_ok c d l' k -> (forall q, holds (mem k) pd q -> ~ holds (mem k) d q) ->
  writes_only (holds (mem k) pd) (mem k) m -> agree (mem k) m (holds (mem k) d).
Proof.
  intros Hu Hd Hdisj Hw q x Hq Hx. apply Hw. intros p Hp.
  destruct (holds_page c pd l k p Hu Hp) as [(_ & Hpa & _) _]. destruct (holds_page c d l' k q Hd Hq) as [(_ & Hqa & _) _].
  assert (p <> q) as Hne by (intros ->; by apply (Hdisj q)). destruct (page_disjoint p q Hpa Hqa Hne); lia.
Qed.

Lemma shrunk_umem c pd a e l l' k k' x :
  user_ok c pd l k -> shrunk c pd a e l l' k k' -> a mod PGSIZE = 0 -> e mod PGSIZE = 0 -> 0 <= a -> e <= KERNBASE ->
  0 <= x < KERNBASE -> umem (mem k') pd x = if (a <=? x) && (x <? e) then None else umem (mem k) pd x.
Proof.
  intros Hu Hsh Ha He Ha0 Hek Hx. destruct ((a <=? x) && (x <? e)) eqn:E.
  - apply andb_true_iff in E as [H1%Z.leb_le H2%Z.ltb_lt]. unfold umem. by rewrite (sh_gone _ _ _ _ _ _ _ _ Hsh).
  - assert (x < a \/ e <= x) as Hout by (apply andb_false_iff in E as [E%Z.leb_gt|E%Z.ltb_ge]; lia).
    apply (umem_kept c pd l); [done | done | apply (sh_pte _ _ _ _ _ _ _ _ Hsh); [unfold KERNBASE in *; lia | done] |].
    intros y Hy Hp. apply (sh_mem _ _ _ _ _ _ _ _ Hsh). destruct (us_page _ _ _ _ Hu x Hx Hp) as (Hfp & _ & Hno). intros q Hq.
    assert (q mod PGSIZE = 0 /\ q <> frame (mem k) pd x) as [Hqa Hne].
    { destruct Hq as [Ho|(z & Hz & Hpz & <-)].
      - split; [|congruence]. apply (holds_page c pd l k q Hu). by left.
      - split; [apply (us_page _ _ _ _ Hu z); [lia | done]|]. intros Ez. apply (us_inj _ _ _ _ Hu) in Ez; try done; [|lia].
        revert Ha He Ez Hout Hz. unfold PGSIZE. clear. intros. Z.div_mod_to_equations. lia. }
    destruct (page_disjoint q (frame (mem k) pd x) Hqa ltac:(apply Hfp) Hne); lia.
Qed.

(** C17: With enough free pages [allocuvm] grows a process from [oldsz] to
    [newsz]: every byte of the new pages reads zero, the hardware allows the
    process to read and write them, no other byte or permission of the process
    changes, no other page of the machine is written, and its pages stay its
    own. [deallocuvm] then takes the process back to exactly the memory and the
    permissions it had, and every page it was given is free again. *)
Theorem allocuvm_deallocuvm c pd oldsz newsz l k :
  let a := PGROUNDUP oldsz in
  let e := PGROUNDUP newsz in
  KERNBASE < ld_end -> user_ok c pd l k -> 0 <= oldsz -> oldsz < newsz -> newsz < KERNBASE ->
  (forall x, a <= x < e -> umem (mem k) pd x = None) ->
  needs (mem k) pd a (Z.to_nat ((e - a) / PGSIZE)) <= Z.of_nat (length l) ->
  exists l' k' l'' k'',
    allocuvm pd oldsz newsz k = Ret newsz k' /\ user_ok c pd l' k' /\ extends pd l l' k k' /\
    (forall x, 0 <= x < KERNBASE -> umem (mem k') pd x = if (a <=? x) && (x <? e) then Some 0 else umem (mem k) pd x) /\
    (forall x, 0 <= x < 2 ^ 32 -> access (mem k') pd x =
       if (a <=? x) && (x <? e) then Some (Z.lor PTE_P (Z.lor PTE_W PTE_U)) else access (mem k) pd x) /\
    deallocuvm pd newsz oldsz k' = Ret oldsz k'' /\ user_ok c pd l'' k'' /\
    (forall x, 0 <= x < KERNBASE -> umem (mem k'') pd x = umem (mem k) pd x) /\
    (forall x, 0 <= x < 2 ^ 32 -> access (mem k'') pd x = access (mem k) pd x) /\
    forall q, q ∈ l'' <-> q ∈ l' \/ exists x, a <= x < e /\ frame (mem k') pd x = q.
Proof.
  intros a e Hend Hu Hold Hlt Hnew Hfree Hneed.
  destruct (PGROUNDUP_bounds oldsz) as [Ho Hoa]; [lia | unfold KERNBASE, PGSIZE in *; lia|].
  destruct (PGROUNDUP_bounds newsz) as [Hn Hna]; [lia | unfold KERNBASE, PGSIZE in *; lia|]. fold a in Ho, Hoa. fold e in Hn, Hna.
  assert (a <= e /\ e <= KERNBASE) as [Hae Hek].
  { clearbody a e. revert Ho Hoa Hn Hna Hnew. unfold PGSIZE, KERNBASE. intros. Z.div_mod_to_equations. lia. }
  destruct (allocuvm_spec c pd oldsz newsz l k) as (l' & k' & Hrun & [Hu' He' _ Hum' Hpte' Hfl' _]); try done; [lia | |].
  { intros x Hx. specialize (Hfree x Hx). unfold umem in Hfree. by case_match. }
  destruct (deallocuvm_spec c pd newsz oldsz l' k') as (l'' & k'' & Hrun2 & Hsh); try done; [lia|].
  assert (forall x, inside a (Z.to_nat ((e - a) / PGSIZE)) x = (a <=? x) && (x <? e)) as Hin.
  { intros x. unfold inside. rewrite Z2Nat.id by (apply Z.div_pos; unfold PGSIZE; lia). do 2 f_equal.
    assert ((e - a) mod PGSIZE = 0) as E by (by rewrite Zminus_mod, Hna, Hoa).
    pose proof (Z.div_mod (e - a) PGSIZE ltac:(done)). lia. }
  assert (forall x, 0 <= x < KERNBASE -> umem (mem k') pd x = if (a <=? x) && (x <? e) then Some 0 else umem (mem k) pd x) as Hum.
  { intros x Hx. rewrite Hum' by done. fold a e. by rewrite Hin. }
  assert (forall x, 0 <= x < 2 ^ 32 -> access (mem k') pd x =
      if (a <=? x) && (x <? e) then Some (Z.lor PTE_P (Z.lor PTE_W PTE_U)) else access (mem k) pd x) as Hac.
  { intros x Hx. rewrite (access_pte c pd l') by apply Hu'. destruct ((a <=? x) && (x <? e)) eqn:E.
    - rewrite umem_present. { f_equal. apply Hfl'. fold a e. by rewrite Hin, E. }
      pose proof E as [_ ?%Z.ltb_lt]%andb_true_iff. rewrite Hum by lia. by rewrite E.
    - rewrite Hpte', (access_pte c pd l) by (done || apply Hu || by rewrite Hin). done. }
  exists l', k', l'', k''. split_and!; try done; [apply Hsh | | |].
  - intros x Hx. rewrite (shrunk_umem c pd a e l' l'' k' k''), Hum by (done || lia).
    destruct ((a <=? x) && (x <? e)) eqn:E; [|done]. apply andb_true_iff in E as [H1%Z.leb_le H2%Z.ltb_lt]. symmetry. by apply Hfree.
  - intros x Hx. rewrite (access_pte c pd l'') by apply Hsh. destruct ((a <=? x) && (x <? e)) eqn:E.
    + apply andb_true_iff in E as [H1%Z.leb_le H2%Z.ltb_lt]. rewrite (sh_gone _ _ _ _ _ _ _ _ Hsh) by done.
      rewrite (access_pte c pd l) by apply Hu. specialize (Hfree x ltac:(lia)). unfold umem in Hfree. by destruct (present _).
    + assert (x < a \/ e <= x) as Hout by (apply andb_false_iff in E as [E%Z.leb_gt|E%Z.ltb_ge]; lia).
      rewrite (sh_pte _ _ _ _ _ _ _ _ Hsh) by done. rewrite <- (access_pte c pd l'), Hac, E by (done || apply Hu'). done.
  - intros q. rewrite (sh_free _ _ _ _ _ _ _ _ Hsh). fold a e. split; (intros [Hq|(x & Hx & Hq)]; [by left | right; exists x]); [by destruct Hq|].
    split_and!; [lia | lia | | done]. assert (umem (mem k') pd x = Some 0) as Hs.
    { rewrite Hum by lia. by rewrite (proj2 (Z.leb_le _ _)), (proj2 (Z.ltb_lt _ _)) by lia. }
    unfold umem in Hs. by destruct (present _).
Qed.

(** C5: [copyuvm], with which [fork] makes the child's memory, returns a
    directory in which the child reads at every address what the parent reads,
    with the same permissions, and in which the kernel is mapped as for every
    process. The parent's memory is as before. The two hold no page in common,
    so that whatever the child writes to its pages the parent never sees, and
    the other way round. *)
Theorem copyuvm_isolates c pd sz d l k :
  linked -> user_ok c pd (d :: l) k -> 0 <= sz <= KERNBASE ->
  (forall x, 0 <= x < PGROUNDUP sz -> umem (mem k) pd x <> None) ->
  66 + PGROUNDUP sz / PGSIZE + PDX (PGROUNDUP sz) <= Z.of_nat (length (d :: l)) ->
  exists l' k', copyuvm pd sz k = Ret d k' /\ user_ok c d l' k' /\ user_ok c pd l' k' /\
    (forall x, 0 <= x < PGROUNDUP sz ->
       umem (mem k') d x = umem (mem k) pd x /\ access (mem k') d x = access (mem k) pd x) /\
    (forall x, PGROUNDUP sz <= x < KERNBASE -> umem (mem k') d x = None) /\
    (forall x, KERNBASE <= x < 2 ^ 32 -> translate (mem k') d x = kernel_map x) /\
    (forall q, holds (mem k') d q -> ~ holds (mem k') pd q) /\
    (forall m x, 0 <= x < KERNBASE -> writes_only (holds (mem k') d) (mem k') m -> umem m pd x = umem (mem k) pd x) /\
    (forall m x, 0 <= x < KERNBASE -> writes_only (holds (mem k') pd) (mem k') m -> umem m d x = umem (mem k') d x).
Proof.
  intros Hlk Hu Hsz Hpr Hlen. destruct (roundup_pages sz Hsz) as (En & Hb & Hek).
  destruct (copyuvm_spec c pd sz d l k) as (l' & k' & Hrun & Hud & [Hup Hap Hback Hpte Hum] & Hown & Hcopy & Hfl & Hker); try done.
  { intros x Hx. specialize (Hpr x Hx). unfold umem in Hpr. by case_match. }
  { cbn [length] in Hlen. rewrite Z2Nat.id by (apply Z.div_pos; unfold PGSIZE; lia). lia. }
  assert (forall q, holds (mem k') d q -> ~ holds (mem k') pd q) as Hdisj.
  { intros q Hq%Hown Hq'%Hback. by destruct (holds_page c pd (d :: l) k q Hu Hq'). }
  exists l', k'. split_and!; try done.
  - intros x Hx. assert (umem (mem k') d x = umem (mem k) pd x) as E.
    { rewrite Hcopy by lia. by rewrite (proj2 (Z.ltb_lt _ _)) by lia. }
    split; [done|]. rewrite (access_pte c d l'), (access_pte c pd (d :: l)) by (apply Hud || apply Hu).
    rewrite !umem_present, Hfl by (rewrite ?E; auto). done.
  - intros x Hx. rewrite Hcopy by lia. by rewrite (proj2 (Z.ltb_ge _ _)) by lia.
  - intros m x Hx Hw. rewrite <- Hum by done. apply agree_umem; [|done].
    apply (writes_agree c d pd l' l' k'); try done.
  - intros m x Hx Hw. apply agree_umem; [|done]. apply (writes_agree c pd d l' l' k'); try done. intros q Hq Hq'. by apply (Hdisj q).
Qed.
End uvm.

(** *** With 160 pages free after start-up *)

Lemma alone_linked : @linked (alone LOTTERY).
Proof. by vm_compute. Qed.

Lemma pages_ok n p :
  p mod PGSIZE = 0 -> KERNLINK + 0x15000 <= p -> p + PGSIZE * Z.of_nat n <= KERNBASE + PHYSTOP -> Forall (@page_ok (alone LOTTERY)) (pages p n).
Proof.
  revert p. induction n as [|n IH]; intros p Ha Hlo Hhi; [constructor|]. cbn [pages]. apply list.Forall_cons. split.
  - unfold page_ok, V2P. cbn [ld_end alone]. unfold KERNLINK, KERNBASE, EXTMEM, PHYSTOP, PGSIZE in *. rewrite u32_small by lia. lia.
  - apply IH; [rewrite Z.add_mod, Ha; done | unfold PGSIZE; lia | unfold PGSIZE in *; lia].
Qed.

Lemma pages_length p n : length (pages p n) = n.
Proof. revert p. induction n as [|n IH]; intros p; [done|]. cbn [pages length]. by rewrite IH. Qed.

Lemma some_process :
  exists d l k, @user_ok (alone LOTTERY) 0 d l k /\ 95 <= Z.of_nat (length l) /\
    forall x, 0 <= x < KERNBASE -> present (pte (mem k) d x) = false.
Proof.
  destruct (@freerange_eq (alone LOTTERY) 0 0x80400000 (0x80400000 + PGSIZE * 160) 160 boot []) as (k & _ & Hk & Hr);
    [apply boot_kmem_ready | apply boot_kmem_ok | by apply pages_ok | intros; by apply not_elem_of_nil | done | done |].
  destruct (rev (pages (PGROUNDUP 0x80400000) 160) ++ []) as [|d l] eqn:E.
  { apply (f_equal length) in E. rewrite app_nil_r, length_rev, pages_length in E. done. }
  assert (Z.of_nat (length l) = 159) as Hl.
  { apply (f_equal length) in E. rewrite app_nil_r, length_rev, pages_length in E. cbn [length] in E. lia. }
  destruct (@setupkvm_spec (alone LOTTERY) 0 d l k alone_linked Hr Hk ltac:(lia)) as (l1 & k1 & _ & Hvm & _ & Hlen & Ht).
  destruct (@kernel_user (alone LOTTERY) 0 d l1 k1 Hvm Ht) as [Hu Hnp]. exists d, l1, k1. split_and!; [done | lia | done].
Qed.

Lemma allocuvm_deallocuvm_witness :
  exists pd k k' k'', @allocuvm (alone LOTTERY) pd 10 8192 k = Ret 8192 k' /\ umem (mem k') pd 5000 = Some 0 /\
    @deallocuvm (alone LOTTERY) pd 8192 10 k' = Ret 10 k'' /\ umem (mem k'') pd 5000 = None.
Proof.
  destruct some_process as (pd & l & k & Hu & Hl & Hnp).
  assert (forall x, 0 <= x < KERNBASE -> umem (mem k) pd x = None) as Hnone by (intros x Hx; unfold umem; by rewrite Hnp).
  destruct (@allocuvm_deallocuvm (alone LOTTERY) 0 pd 10 8192 l k) as (l' & k' & l'' & k'' & H1 & _ & _ & H2 & _ & H3 & _ & H4 & _ & _); try done.
  - intros x Hx. apply Hnone. destruct (PGROUNDUP_bounds 10), (PGROUNDUP_bounds 8192); try done. unfold PGSIZE, KERNBASE in *. lia.
  - etransitivity; [apply needs_bound|]. etransitivity; [|exact Hl]. by vm_compute.
  - exists pd, k, k', k''. split_and!; [done | by rewrite H2 | done | by rewrite H4, Hnone].
Defined.

Lemma copyuvm_isolates_witness :
  exists pd d k k', @copyuvm (alone LOTTERY) pd 5000 k = Ret d k' /\ umem (mem k') d 6000 = Some 0 /\ umem (mem k') d 8192 = None.
Proof.
  destruct some_process as (pd & l & k & Hu & Hl & Hnp).
  destruct (@allocuvm_spec (alone LOTTERY) 0 pd 0 8192 l k) as (l1 & k1 & _ & [Hu1 _ Hlen Hum _ _ _]); try done.
  { intros x Hx. apply Hnp. destruct (PGROUNDUP_bounds 0), (PGROUNDUP_bounds 8192); try done. unfold PGSIZE, KERNBASE in *. lia. }
  { etransitivity; [apply needs_bound|]. etransitivity; [|exact Hl]. by vm_compute. }
  assert (needs (mem k) pd (PGROUNDUP 0) (Z.to_nat ((PGROUNDUP 8192 - PGROUNDUP 0) / PGSIZE)) <= 3) as Hneed.
  { etransitivity; [apply needs_bound|]. by vm_compute. }
  destruct l1 as [|d l1]; [cbn [length] in Hlen; lia|]. assert (92 <= length (d :: l1))%nat as Hl1 by lia.
  destruct (@copyuvm_isolates (alone LOTTERY) 0 pd 5000 d l1 k1) as (l' & k' & Hrun & _ & _ & Hc & Hn & _); try done.
  { intros x Hx. destruct (PGROUNDUP_bounds 5000); try done. assert (PGROUNDUP 5000 = 8192) as E by (by vm_compute).
    rewrite Hum by (unfold PGSIZE, KERNBASE in *; lia). rewrite (proj2 (inside_spec _ _ _)); [done|]. by rewrite E in Hx. }
  { etransitivity; [|apply inj_le, Hl1]. by vm_compute. }
  exists pd, d, k1, k'. split_and!; [done | | by apply Hn]. destruct (Hc 6000) as [-> _]; [done|]. rewrite Hum by done. done.
Defined.
