(* ===== verification/Proc.v ===== *)
(** proc.c, the part every other component calls: sleeping and waking,
    yielding, killing, the per-tick statistics and the priority settings. *)

From S2P Require Import Prelude Memory Kernel Spinlock Boot.

Section proc.
Context `{Machine}.

(** Dereferencing [myproc()]; a null pointer faults. *)
Definition curproc : M nat :=
  let* p := myproc in
  match p with
  | Some i => ret i
  | None => fault "null process"
  end.

Definition curr_time : M Z :=
  acquire L_ticks ;;
  let* time := gets ticks in
  release L_ticks ;;
  ret (s32 time).

Definition set_max_time : M Z :=
  let* ' (quantum, priority_sum) := for_fold procs (fun i ' (quantum, priority_sum) =>
    let* p := get_proc i in
    ret (if truthy (pid p) then (s32 (quantum + 1), s32 (priority_sum + priority p))
         else (quantum, priority_sum))) (0, 0) in
  for_each procs (fun i =>
    let* p := get_proc i in
    let time := s32 (10000 * priority p) in
    when (truthy (pid p))
      (if (priority_sum =? 0) || ((time =? - 2 ^ 31) && (priority_sum =? -1)) then fault "divide error"
       else set_proc i (upd_max_time (fun _ => s32 (Z.quot time priority_sum))))) ;;
  ret quantum.

Definition countprocs : M unit :=
  acquire L_ptable ;;
  for_each procs (fun i =>
    let* p := get_proc i in
    match state p with
    | RUNNABLE => set_proc i (upd_retime (fun n => s32 (n + 1)))
    | RUNNING => set_proc i (upd_rutime (fun n => s32 (n + 1)))
    | SLEEPING => set_proc i (upd_stime (fun n => s32 (n + 1)))
    | _ => ret tt
    end) ;;
  release L_ptable.

Definition set_priority (pid0 priority0 : Z) : M Z :=
  acquire L_ptable ;;
  let* r := for_find procs (fun i =>
    let* p := get_proc i in
    if pid p =? pid0 then
      set_proc i (upd_priority (fun _ => priority0)) ;;
      ret (Some tt)
    else ret None) in
  release L_ptable ;;
  ret pid0.

Definition sched : M unit :=
  let* p := curproc in
  let* h := holding L_ptable in
  if negb h then panic "sched ptable.lock" else
  let* i := mycpu in
  let* c := get_cpu i in
  if negb (ncli c =? 1) then panic "sched locks" else
  let* pr := get_proc p in
  if bool_decide (state pr = RUNNING) then panic "sched running" else
  let* fl := readeflags in
  if fl then panic "sched interruptible" else
  let* i := mycpu in
  let* c := get_cpu i in
  let intena0 := intena c in
  set_proc p (upd_counter (fun n => s32 (n + 1))) ;;
  swtch ;;
  let* i := mycpu in
  set_cpu i (upd_intena (fun _ => intena0)).

Definition yield : M unit :=
  let* p := curproc in
  acquire L_ptable ;;
  set_proc p (upd_timeslice (fun n => s32 (n - 1))) ;;
  let* pr := get_proc p in
  when (timeslice pr =? 0)
    (set_proc p (upd_state (fun _ => RUNNABLE)) ;; sched) ;;
  release L_ptable.

Definition sys_yield : M Z := yield ;; ret 0.

(** The statements of [sleep] up to the switch, one by one: another CPU may do
    something in between any two of them. *)
Definition sleep_steps (ch : chan) (lk : lockid) (p : nat) : list (M unit) :=
  (if bool_decide (lk <> L_ptable) then [acquire L_ptable; release lk] else []) ++
  [set_proc p (upd_chan_ (fun _ => ch));
   set_proc p (upd_state (fun _ => SLEEPING))].

Definition run_steps (l : list (M unit)) : M unit := for_each l (fun m => m).

Definition sleep (ch : chan) (lk : option lockid) : M unit :=
  let* p := myproc in
  match p with
  | None => panic "sleep"
  | Some p =>
      match lk with
      | None => panic "sleep without lk"
      | Some lk =>
          run_steps (sleep_steps ch lk p) ;;
          sched ;;
          set_proc p (upd_chan_ (fun _ => CNull)) ;;
          when (bool_decide (lk <> L_ptable)) (release L_ptable ;; acquire lk)
      end
  end.

Definition wakeup1 (ch : chan) : M unit :=
  for_each procs (fun i =>
    let* p := get_proc i in
    when (bool_decide (state p = SLEEPING) && bool_decide (chan_ p = ch))
      (set_proc i (upd_state (fun _ => RUNNABLE)))).

Definition wakeup (ch : chan) : M unit :=
  acquire L_ptable ;;
  wakeup1 ch ;;
  release L_ptable.

Definition kill (pid0 : Z) : M Z :=
  acquire L_ptable ;;
  let* r := for_find procs (fun i =>
    let* p := get_proc i in
    if pid p =? pid0 then
      set_proc i (upd_killed (fun _ => 1)) ;;
      when (bool_decide (state p = SLEEPING)) (set_proc i (upd_state (fun _ => RUNNABLE))) ;;
      release L_ptable ;;
      ret (Some 0)
    else ret None) in
  match r with
  | Some v => ret v
  | None => release L_ptable ;; ret (-1)
  end.
End proc.

(** ** What the operations do to the table *)

(** One process under [wakeup1(ch)], [countprocs()] and [kill]. *)
Definition wake (ch : chan) (p : proc) : proc :=
  if bool_decide (state p = SLEEPING) && bool_decide (chan_ p = ch)
  then upd_state (fun _ => RUNNABLE) p else p.

Definition tick (p : proc) : proc :=
  match state p with
  | RUNNABLE => upd_retime (fun n => s32 (n + 1)) p
  | RUNNING => upd_rutime (fun n => s32 (n + 1)) p
  | SLEEPING => upd_stime (fun n => s32 (n + 1)) p
  | _ => p
  end.

Definition kill_proc (p : proc) : proc :=
  let p := upd_killed (fun _ => 1) p in
  if bool_decide (state p = SLEEPING) then upd_state (fun _ => RUNNABLE) p else p.

(** The slot a process id names: the first one that carries it. *)
Definition slot_of_pid (pid0 : Z) (t : list proc) : option nat :=
  find_index (fun p => pid p =? pid0) t.

Definition at_pid (pid0 : Z) (f : proc -> proc) (t : list proc) : list proc :=
  match slot_of_pid pid0 t with
  | Some i => alter f i t
  | None => t
  end.

Lemma upd_ptable_nothing i f p k :
  ptable k !! i = Some p -> f p = p -> upd_ptable (alter f i) k = k.
Proof.
  intros Hp Hf. kernel_eq. apply list_alter_same. intros x Hx. by simplify_eq.
Qed.

(** Leaving the critical section of the table. *)
Lemma rel_ptable g c k :
  cpu_ok c k -> lock_free L_ptable k ->
  rel L_ptable c (upd_ptable g (acq L_ptable c k)) = upd_ptable g (touch c k).
Proof. intros. rewrite <- (rel_acq c L_ptable) by done. reflexivity. Qed.

Lemma release_ptable_eq g c k :
  cpu_ok c k ->
  release L_ptable (upd_ptable g (acq L_ptable c k)) =
    Ret tt (rel L_ptable c (upd_ptable g (acq L_ptable c k))).
Proof.
  intros Hok. pose proof (depth_nonneg _ _ Hok). pose proof (acq_depth c L_ptable _ Hok) as Hd.
  apply release_eq; [exact (acq_ok _ _ _ Hok) | exact (acq_mine _ _ _) |].
  change (0 < depth c (acq L_ptable c k)). lia.
Qed.

Section facts.
Context `{Machine}.
Context (c : nat).

Lemma wakeup1_eq ch k :
  ptable_ok k -> wakeup1 ch k = Ret tt (upd_ptable (fmap (wake ch)) k).
Proof.
  intros Hk. apply for_each_procs; [|done]. intros i p k' Hk' Hp.
  mcall get_proc_eq. unfold wake.
  destruct (bool_decide (state p = SLEEPING) && bool_decide (chan_ p = ch)) eqn:E; simpl.
  - rewrite set_proc_eq by in_table. f_equal. apply upd_ptable_ext. apply list_alter_ext; [|done].
    intros x Hx. simplify_eq. by rewrite E.
  - unfold ret. f_equal. symmetry. eapply upd_ptable_nothing; [done|]. by rewrite E.
Qed.

Lemma wakeup_eq ch k :
  cpu_ok c k -> lock_free L_ptable k -> ptable_ok k ->
  wakeup ch k = Ret tt (upd_ptable (fmap (wake ch)) (touch c k)).
Proof.
  intros Hok Hl Hk. unfold wakeup. mcall (acquire_eq c).
  mcall wakeup1_eq. by rewrite release_ptable_eq, rel_ptable.
Qed.

Lemma countprocs_eq k :
  cpu_ok c k -> lock_free L_ptable k -> ptable_ok k ->
  countprocs k = Ret tt (upd_ptable (fmap tick) (touch c k)).
Proof.
  intros Hok Hl Hk. unfold countprocs. mcall (acquire_eq c).
  erewrite bind_Ret; [by rewrite release_ptable_eq, rel_ptable|].
  apply for_each_procs; [|done]. intros i p k' Hk' Hp.
  mcall get_proc_eq. unfold tick.
  destruct (state p) eqn:E; rewrite ?set_proc_eq by in_table; unfold ret; f_equal;
    try (apply upd_ptable_ext; apply list_alter_ext; [|done]; intros x Hx; simplify_eq; by rewrite E);
    symmetry; eapply upd_ptable_nothing; (done || by rewrite E).
Qed.

Lemma kill_eq pid0 k :
  cpu_ok c k -> lock_free L_ptable k -> ptable_ok k ->
  kill pid0 k =
    Ret (match slot_of_pid pid0 (ptable k) with Some _ => 0 | None => -1 end)
        (upd_ptable (at_pid pid0 kill_proc) (touch c k)).
Proof.
  intros Hok Hl Hk. unfold kill. mcall (acquire_eq c). unfold bind at 1.
  rewrite (for_find_procs (fun p => pid p =? pid0));
    [| done | intros i p Hp Hpid; mcall get_proc_eq; by rewrite Hpid].
  change (ptable (acq L_ptable c k)) with (ptable k). fold (slot_of_pid pid0 (ptable k)).
  destruct (slot_of_pid pid0 (ptable k)) as [i|] eqn:Hi.
  - pose proof Hi as Hi'. apply find_index_Some in Hi' as [(p & Hp & Hpid) _].
    mcall (get_proc_eq i p). rewrite Hpid. mrun.
    assert (upd_ptable (at_pid pid0 kill_proc) (touch c k)
            = upd_ptable (alter kill_proc i) (touch c k)) as ->.
    { apply upd_ptable_ext. unfold at_pid. change (ptable (touch c k)) with (ptable k). by rewrite Hi. }
    destruct (bool_decide (state p = SLEEPING)) eqn:E; mrun;
      rewrite ?upd_ptable_twice; mcall release_ptable_eq; rewrite rel_ptable by done;
      unfold ret; f_equal; apply upd_ptable_ext; rewrite ?list_alter_twice;
      apply list_alter_ext; try done; intros x Hx;
      change (ptable (touch c k)) with (ptable k) in Hx; unfold kill_proc;
      rec_simpl; simplify_eq; by rewrite E.
  - change (acq L_ptable c k) with (upd_ptable id (acq L_ptable c k)) at 1.
    mcall release_ptable_eq. rewrite rel_ptable by done. unfold ret. f_equal.
    apply upd_ptable_ext. unfold at_pid. change (ptable (touch c k)) with (ptable k). by rewrite Hi.
Qed.

Lemma set_priority_eq pid0 pr k :
  cpu_ok c k -> lock_free L_ptable k -> ptable_ok k ->
  set_priority pid0 pr k =
    Ret pid0 (upd_ptable (at_pid pid0 (upd_priority (fun _ => pr))) (touch c k)).
Proof.
  intros Hok Hl Hk. unfold set_priority. mcall (acquire_eq c). unfold bind at 1.
  rewrite (for_find_procs (fun p => pid p =? pid0));
    [| done | intros i p Hp Hpid; mcall get_proc_eq; by rewrite Hpid].
  change (ptable (acq L_ptable c k)) with (ptable k). fold (slot_of_pid pid0 (ptable k)).
  destruct (slot_of_pid pid0 (ptable k)) as [i|] eqn:Hi.
  - pose proof Hi as Hi'. apply find_index_Some in Hi' as [(p & Hp & Hpid) _].
    mcall (get_proc_eq i p). rewrite Hpid. mrun. unfold ret at 1.
    mcall release_ptable_eq. rewrite rel_ptable by done. unfold ret. f_equal.
    apply upd_ptable_ext. unfold at_pid. change (ptable (touch c k)) with (ptable k). by rewrite Hi.
  - change (acq L_ptable c k) with (upd_ptable id (acq L_ptable c k)) at 1.
    mcall release_ptable_eq. rewrite rel_ptable by done. unfold ret. f_equal.
    apply upd_ptable_ext. unfold at_pid. change (ptable (touch c k)) with (ptable k). by rewrite Hi.
Qed.

(** ** Leaving and re-entering the CPU

    [running c p k]: CPU [c] executes process [p] with nothing locked but the
    locks counted by [n].  [switched_out] is what a process leaves behind when
    it calls the scheduler, [resumed] what the scheduler promises when it
    switches back (see Sched.v). *)

Definition running (n : Z) (p : nat) (k : kernel) : Prop :=
  cpu_ok c k /\ ptable_ok k /\
  exists cp, cpus k !! c = Some cp /\ c_proc cp = Some p /\ ncli cp = n.

Lemma running_depth n p k : running n p k -> depth c k = n.
Proof. intros (_ & _ & cp & Hcp & _ & Hn). unfold depth. by rewrite Hcp. Qed.

Lemma curproc_eq n p k : running n p k -> curproc k = Ret p (touch c k).
Proof.
  intros (Hok & _ & cp & Hcp & Hp & _). unfold curproc. mcall (myproc_eq c). by rewrite Hp.
Qed.

Lemma running_acq l n p k : running n p k -> running (n + 1) p (acq l c k).
Proof.
  intros (Hok & Ht & cp & Hcp & Hp & Hn). split_and!; [by apply acq_ok | done |].
  destruct (acq_c_proc c l _ _ Hcp) as (cp' & Hcp' & Hp' & Hn').
  exists cp'. split_and!; [done | congruence | lia].
Qed.

Lemma running_rel l n p k : 0 < n -> running n p k -> running (n - 1) p (rel l c k).
Proof.
  intros Hpos Hr. pose proof (running_depth _ _ _ Hr) as Hd. destruct Hr as (Hok & Ht & cp & Hcp & Hp & Hn).
  split_and!; [apply rel_ok; [done | lia] | done |].
  destruct (rel_c_proc c l _ _ Hcp) as (cp' & Hcp' & Hp' & Hn').
  exists cp'. split_and!; [done | congruence | lia].
Qed.

Lemma running_touch n p k : running n p k -> running n p (touch c k).
Proof.
  intros (Hok & Ht & cp & Hcp & Hp & Hn). split_and!; [by apply touch_ok | done |].
  destruct (touch_c_proc c _ _ Hcp) as (cp' & Hcp' & Hp' & Hn').
  exists cp'. split_and!; [done | congruence | lia].
Qed.

Lemma running_ptable n p k f :
  (forall t, length (f t) = length t) -> running n p k -> running n p (upd_ptable f k).
Proof.
  intros Hf (Hok & Ht & Hcp). split_and!; [done | | done].
  unfold ptable_ok. rec_simpl. by rewrite Hf.
Qed.
End facts.

(** What a process leaves behind when it calls [swtch] in [sched], and what it
    finds when it is resumed, possibly on another CPU. *)
Definition switched_out (c p : nat) (k : kernel) : Prop :=
  running c 1 p k /\ lock_mine L_ptable c k /\
  exists pr, ptable k !! p = Some pr /\ state pr <> RUNNING.

Definition resumed (c p : nat) (k : kernel) : Prop :=
  running c 1 p k /\ lock_mine L_ptable c k.

(** The promise of the scheduler to a process, as an interface: whatever the
    others do, a process that switched out is only ever resumed by a CPU that
    holds the table lock, and no other lock, for it. *)
Class Resumes `{Machine} := {
  resume_cpu : nat -> kernel -> nat;
  resume_ok : forall n c p k,
    switched_out c p k -> resumed (resume_cpu n k) p (interfere n k);
}.

Section switch.
Context `{R : Resumes}.

Definition bump (p : nat) (k : kernel) : kernel :=
  upd_ptable (alter (upd_counter (fun n => s32 (n + 1))) p) k.

Lemma switched_out_bump c p k : switched_out c p k -> switched_out c p (bump p k).
Proof.
  intros (Hr & Hl & pr & Hpr & Hst). split_and!; [|done|].
  - apply running_ptable; [|done]. intros t. apply length_alter.
  - unfold bump. rec_simpl. rewrite list_lookup_alter_eq, Hpr. eexists. split; [done|]. done.
Qed.

(** The state in which [sched] returns when the switch is the one before the
    last [n] of the run. *)
Definition after_switch (n c p : nat) (k : kernel) : kernel :=
  let k' := upd_budget (fun _ => n) (interfere n (bump p k)) in
  upd_cpus (alter (upd_intena (fun _ =>
    match cpus k !! c with Some cp => intena cp | None => false end))
      (resume_cpu n (bump p k))) k'.

Lemma sched_eq c p k :
  switched_out c p k ->
  sched k = match budget k with
            | O => Blocked (bump p k)
            | S n => Ret tt (after_switch n c p k)
            end.
Proof.
  intros Hs. pose proof Hs as (Hr & [Hl Hlc] & pr & Hpr & Hst).
  pose proof Hr as (Hok & Ht & cp & Hcp & Hp & Hn).
  pose proof (running_depth _ _ _ _ Hr) as Hd.
  assert (eflags_if (hw k) = false) as Hif by (apply (cpu_ok_if_off c); [done | lia]).
  unfold sched. mcall (curproc_eq c). rewrite touch_deep by (done || lia).
  mcall (holding_eq c). rewrite Hl, Hlc, bool_decide_true by done. simpl.
  rewrite touch_deep by (done || lia).
  mcall (mycpu_eq c) by (done || apply Hok). mcall get_cpu_eq. rewrite Hn. simpl.
  mcall get_proc_eq. rewrite bool_decide_false by done. unfold readeflags. mrun. rewrite Hif.
  mcall (mycpu_eq c) by (done || apply Hok). mcall get_cpu_eq. fold (bump p k).
  unfold bind at 1, swtch. change (budget (bump p k)) with (budget k).
  destruct (budget k) as [|n]; [done|].
  pose proof (resume_ok n c p _ (switched_out_bump _ _ _ Hs)) as (Hr' & _).
  pose proof Hr' as (Hok' & _). pose proof (running_depth _ _ _ _ Hr') as Hd'.
  mcall (mycpu_eq (resume_cpu n (bump p k))) by
    (first [apply Hok' | apply (cpu_ok_if_off (resume_cpu n (bump p k)) (interfere n (bump p k))); [done | lia]]).
  unfold set_cpu. rewrite put_slot_eq by exact (cpu_ok_lt _ _ Hok'). unfold after_switch. by rewrite Hcp.
Qed.

Lemma resumed_after n c p k :
  switched_out c p k ->
  resumed (resume_cpu n (bump p k)) p (after_switch n c p k).
Proof.
  intros Hs. pose proof (resume_ok n c p _ (switched_out_bump _ _ _ Hs)) as (Hr & Hl).
  split; [|done]. destruct Hr as ((Hn & Hc & Hcp) & Ht & cp & Hcp' & Hp & Hd).
  set (c' := resume_cpu n (bump p k)) in *. set (k' := interfere n (bump p k)) in *.
  assert (forall b cp, apicid (upd_intena (fun _ => b) cp) = apicid cp) as Hap by done.
  assert (exists b, cpus (after_switch n c p k) = alter (upd_intena (fun _ => b)) c' (cpus k')) as [b Hb].
  { eexists. unfold after_switch. rec_simpl. done. }
  split_and!; [split_and!| |].
  - rewrite Hb, length_alter. done.
  - rewrite <- Hc. unfold after_switch. exact (curcpu_alter _ c' k' (Hap _)).
  - rewrite Hb, list_lookup_alter_eq, Hcp'. eexists. split; [done|]. simpl.
    destruct Hcp as (cp2 & Hcp2 & ?). simplify_eq. done.
  - done.
  - rewrite Hb, list_lookup_alter_eq, Hcp'. eexists. by split.
Qed.

(** The state a sleeper hands over: asleep on [ch], its own lock released, the
    table lock held. *)
Definition fall_asleep (ch : chan) (p : nat) (k : kernel) : kernel :=
  upd_ptable (alter (upd_state (fun _ => SLEEPING)) p)
    (upd_ptable (alter (upd_chan_ (fun _ => ch)) p) k).

Definition asleep (ch : chan) (lk : lockid) (c p : nat) (k : kernel) : kernel :=
  fall_asleep ch p (if bool_decide (lk <> L_ptable) then rel lk c (acq L_ptable c k) else k).

(** Back from [sched]: the channel is cleared and the locks are swapped back. *)
Definition awake (ch : chan) (lk : lockid) (c p n : nat) (k : kernel) : outcome unit :=
  let k1 := asleep ch lk c p k in
  let k2 := upd_ptable (alter (upd_chan_ (fun _ => CNull)) p) (after_switch n c p k1) in
  if bool_decide (lk <> L_ptable)
  then acquire lk (rel L_ptable (resume_cpu n (bump p k1)) k2)
  else Ret tt k2.

Lemma fall_asleep_out ch c p k :
  running c 1 p k -> lock_mine L_ptable c k -> (p < NPROC)%nat ->
  switched_out c p (fall_asleep ch p k).
Proof.
  intros Hr Hl Hp. split_and!; [|done|].
  - unfold fall_asleep. do 2 (apply running_ptable; [intros; apply length_alter|]). done.
  - destruct Hr as (_ & Ht & _). unfold ptable_ok in Ht.
    destruct (lookup_lt_is_Some_2 (ptable k) p) as [pr Hpr]; [lia|].
    unfold fall_asleep. rec_simpl. rewrite !list_lookup_alter_eq, Hpr. eexists. by split.
Qed.

Lemma asleep_out ch lk c p k :
  running c 1 p k -> lock_mine lk c k -> (lk = L_ptable \/ lock_free L_ptable k) ->
  (p < NPROC)%nat -> switched_out c p (asleep ch lk c p k).
Proof.
  intros Hr Hlk Hfree Hp. unfold asleep.
  destruct (decide (lk = L_ptable)) as [->|Hne].
  - rewrite bool_decide_false by naive_solver. by apply fall_asleep_out.
  - rewrite bool_decide_true by done. apply fall_asleep_out; [| |done].
    + replace 1 with (1 + 1 - 1) by lia. apply running_rel; [lia|]. by apply running_acq.
    + unfold lock_mine. rewrite rel_other by done. apply acq_mine.
Qed.

Lemma sleep_steps_eq ch lk c p k :
  running c 1 p k -> lock_mine lk c k -> (lk = L_ptable \/ lock_free L_ptable k) -> (p < NPROC)%nat ->
  run_steps (sleep_steps ch lk p) k = Ret tt (asleep ch lk c p k).
Proof.
  intros Hr Hlk Hfree Hp. pose proof (running_depth _ _ _ _ Hr) as Hd. pose proof Hr as (Hok & Ht & _).
  unfold run_steps, sleep_steps, asleep, fall_asleep. destruct (decide (lk = L_ptable)) as [->|Hne].
  - rewrite bool_decide_false by naive_solver. cbn [app for_each]. mrun. done.
  - rewrite bool_decide_true by done. destruct Hfree as [|Hfree]; [done|]. cbn [app for_each].
    mcall (acquire_eq c).
    mcall (release_eq c) by (first [by apply acq_ok | unfold lock_mine; by rewrite acq_other | rewrite acq_depth by done; lia]).
    done.
Qed.

Lemma sleep_eq ch lk c p k :
  running c 1 p k -> lock_mine lk c k -> (lk = L_ptable \/ lock_free L_ptable k) ->
  (p < NPROC)%nat ->
  sleep ch (Some lk) k =
    match budget k with
    | O => Blocked (bump p (asleep ch lk c p k))
    | S n => awake ch lk c p n k
    end.
Proof.
  intros Hr Hlk Hfree Hp. pose proof (asleep_out ch _ _ _ _ Hr Hlk Hfree Hp) as Hs.
  pose proof (running_depth _ _ _ _ Hr) as Hd. pose proof Hr as (Hok & _ & cp & Hcp & Hcproc & _).
  unfold sleep. mcall (myproc_eq c). rewrite Hcproc, touch_deep by (done || lia).
  rewrite (bind_Ret _ _ _ _ _ (sleep_steps_eq ch lk c p k Hr Hlk Hfree Hp)).
  unfold bind at 1. rewrite (sched_eq c p) by done.
  assert (budget (asleep ch lk c p k) = budget k) as ->.
  { unfold asleep. by destruct (bool_decide _). }
  destruct (budget k) as [|n]; [done|].
  pose proof (resumed_after n _ _ _ Hs) as [Hr2 Hl2]. pose proof Hr2 as (_ & Ht2 & _). mrun. unfold awake.
  destruct (bool_decide (lk <> L_ptable)) eqn:E; [|done]. simpl.
  set (k2 := upd_ptable _ _).
  assert (running (resume_cpu n (bump p (asleep ch lk c p k))) 1 p k2) as Hr3.
  { apply running_ptable; [|done]. intros. apply length_alter. }
  rewrite (bind_Ret _ _ _ _ _ (release_eq (resume_cpu n (bump p (asleep ch lk c p k))) _ _
     (proj1 Hr3) Hl2 ltac:(rewrite (running_depth _ _ _ _ Hr3); lia))). done.
Qed.

(** ** Yielding *)

Definition spend (p : nat) (k : kernel) : kernel :=
  upd_ptable (alter (upd_timeslice (fun n => s32 (n - 1))) p) k.

(** While the time slice lasts, [yield] only counts it down. *)
Lemma yield_keep c p pr k :
  running c 0 p k -> lock_free L_ptable k -> ptable k !! p = Some pr ->
  s32 (timeslice pr - 1) <> 0 ->
  yield k = Ret tt (spend p (touch c k)).
Proof.
  intros Hr Hl Hpr Hts. pose proof (running_touch _ _ _ _ Hr) as Hr'.
  pose proof Hr' as (Hok & _). unfold yield. mcall (curproc_eq c).
  mcall (acquire_eq c).
  mcall get_proc_eq by (rec_simpl; by rewrite list_lookup_alter_eq; change (ptable _) with (ptable k); rewrite Hpr).
  simpl. rewrite (proj2 (Z.eqb_neq _ _)) by done. mrun.
  rewrite release_ptable_eq, rel_ptable by done. by rewrite touch_twice.
Qed.

(** When it is used up, the process hands over the CPU, runnable. *)
Lemma yield_switch c p pr k :
  running c 0 p k -> lock_free L_ptable k -> ptable k !! p = Some pr ->
  s32 (timeslice pr - 1) = 0 ->
  let k1 := upd_ptable (alter (upd_state (fun _ => RUNNABLE)) p)
              (spend p (acq L_ptable c (touch c k))) in
  switched_out c p k1 /\
  yield k = match budget k with
            | O => Blocked (bump p k1)
            | S n => Ret tt (rel L_ptable (resume_cpu n (bump p k1)) (after_switch n c p k1))
            end.
Proof.
  intros Hr Hl Hpr Hts k1. pose proof (running_touch _ _ _ _ Hr) as Hr'.
  pose proof (running_acq c L_ptable _ _ _ Hr') as Hr1.
  pose proof Hr' as (Hok & _).
  assert (switched_out c p k1) as Hs.
  { split_and!; [| exact (acq_mine _ _ _) |].
    - do 2 (apply running_ptable; [intros; apply length_alter|]). exact Hr1.
    - unfold k1, spend. rec_simpl. rewrite !list_lookup_alter_eq.
      change (ptable (acq L_ptable c (touch c k))) with (ptable k). rewrite Hpr.
      eexists. by split. }
  split; [done|]. unfold yield. mcall (curproc_eq c). mcall (acquire_eq c).
  mcall get_proc_eq by (rec_simpl; by rewrite list_lookup_alter_eq; change (ptable _) with (ptable k); rewrite Hpr).
  simpl. rewrite Hts. mrun. unfold bind at 1.
  change (upd_ptable _ (upd_ptable _ (acq L_ptable c (touch c k)))) with k1.
  rewrite (sched_eq c p) by done. change (budget k1) with (budget k).
  destruct (budget k) as [|n]; [done|].
  pose proof (resumed_after n _ _ _ Hs) as [Hr2 Hl2].
  apply release_eq; [apply Hr2 | done |]. rewrite (running_depth _ _ _ _ Hr2). lia.
Qed.

(** [n] clock ticks in a row. *)
Fixpoint yields (n : nat) : M unit :=
  match n with
  | O => ret tt
  | S n => yield ;; yields n
  end.

Fixpoint spends (n : nat) (p : nat) (k : kernel) : kernel :=
  match n with
  | O => k
  | S n => spends n p (spend p k)
  end.

Lemma spends_touch n p c k : spends n p (touch c k) = touch c (spends n p k).
Proof. revert k. induction n as [|n IH]; intros k; [done|]. simpl. by rewrite <- IH. Qed.

Lemma spends_slot n p k pr :
  ptable k !! p = Some pr ->
  exists pr', ptable (spends n p k) !! p = Some pr' /\ state pr' = state pr /\
    timeslice pr' = match n with O => timeslice pr | S _ => s32 (timeslice pr - Z.of_nat n) end.
Proof.
  revert k pr. induction n as [|n IH]; intros k pr Hpr; [by exists pr|]. cbn [spends].
  destruct (IH (spend p k) (upd_timeslice (fun n => s32 (n - 1)) pr)) as (pr' & Hp' & Hs & Ht).
  { unfold spend. rec_simpl. by rewrite list_lookup_alter_eq, Hpr. }
  exists pr'. split_and!; [done | done|]. rewrite Ht. rec_simpl. destruct n as [|n]; [done|].
  rewrite s32_sub. f_equal. lia.
Qed.

Lemma yields_keep n c p pr k :
  running c 0 p k -> lock_free L_ptable k -> ptable k !! p = Some pr ->
  (forall i, 0 < i <= Z.of_nat n -> s32 (timeslice pr - i) <> 0) ->
  (0 < n)%nat ->
  yields n k = Ret tt (spends n p (touch c k)).
Proof.
  revert pr k. induction n as [|n IH]; intros pr k Hr Hl Hpr Hts Hn; [lia|]. simpl.
  mcall (yield_keep c p pr) by (first [done | apply Hts; lia]).
  destruct n as [|n]; [done|].
  assert (running c 0 p (spend p (touch c k))) as Hr'.
  { apply running_ptable; [intros; apply length_alter|]. by apply running_touch. }
  rewrite (IH (upd_timeslice (fun n => s32 (n - 1)) pr)); try done; [| | |lia].
  - rewrite spends_touch. f_equal.
    change (spend p (touch c k)) with (touch c (spend p k)). by rewrite !spends_touch, touch_twice.
  - unfold spend. rec_simpl. rewrite list_lookup_alter_eq. change (ptable (touch c k)) with (ptable k). by rewrite Hpr.
  - intros i Hi. rec_simpl. specialize (Hts (i + 1) ltac:(lia)).
    rewrite s32_sub. replace (timeslice pr - 1 - i) with (timeslice pr - (i + 1)) by lia. done.
Qed.
End switch.

(** ** The clock and the quanta *)

Section quanta.
Context `{Machine} (c : nat).

Lemma curr_time_eq k :
  cpu_ok c k -> lock_free L_ticks k -> curr_time k = Ret (s32 (ticks k)) (touch c k).
Proof.
  intros Hok Hl. unfold curr_time. mcall (acquire_eq c).
  mcall (unrelated_release id ltac:(done) c L_ticks k). unfold ret. f_equal. by apply rel_acq.
Qed.

(** The processes that count: those with a process id. *)
Definition counted (p : proc) : bool := truthy (pid p).
Definition weight (p : proc) : Z := if counted p then priority p else 0.
Definition weights (t : list proc) : Z := zsum (weight <$> t).

Definition share (sum : Z) (p : proc) : proc :=
  if counted p then upd_max_time (fun _ => s32 (Z.quot (s32 (10000 * priority p)) sum)) p else p.

Definition add_weight (p : proc) '((q, s) : Z * Z) : Z * Z :=
  if counted p then (s32 (q + 1), s32 (s + priority p)) else (q, s).

Lemma set_max_time_eq k :
  ptable_ok k ->
  let '(q, sum) := foldl (fun s p => add_weight p s) (0, 0) (ptable k) in
  if (sum =? 0) && existsb counted (ptable k)
  then exists k', set_max_time k = Fault "divide error" k'
  else sum <> -1 -> set_max_time k = Ret q (upd_ptable (fmap (share sum)) k).
Proof.
  intros Hk. unfold set_max_time.
  assert ((for_fold procs (fun i ' (quantum, priority_sum) =>
    let* p := get_proc i in
    ret (if truthy (pid p) then (s32 (quantum + 1), s32 (priority_sum + priority p))
         else (quantum, priority_sum))) (0, 0)) k =
    Ret (foldl (fun s p => add_weight p s) (0, 0) (ptable k)) k) as Hf.
  { rewrite <- for_fold_procs by done. unfold procs. generalize (seq 0 NPROC) as l, (0, 0) as s0.
    induction l as [|i l IH]; intros [q0 s0]; [done|]. simpl. unfold bind, get_proc, slot.
    destruct (ptable k !! i); [|done]. apply IH. }
  erewrite bind_Ret; [|exact Hf]. clear Hf.
  destruct (foldl _ _ _) as [q sum]. cbv beta iota.
  destruct (Z.eqb_spec sum 0) as [->|Hsum]; cbn [andb].
  - destruct (find_index counted (ptable k)) as [i|] eqn:Ef.
    + pose proof (find_index_lt _ _ _ Ef) as Hlt. rewrite Hk in Hlt.
      apply find_index_Some in Ef as [(p & Hi & Hp) Hfst].
      rewrite (proj2 (existsb_exists _ _)) by
        (exists p; split; [by eapply list_elem_of_In, list_elem_of_lookup_2 | done]).
      exists k. unfold bind at 1, procs.
      replace (seq 0 NPROC) with (seq 0 i ++ i :: seq (S i) (NPROC - S i)).
      2:{ change (i :: seq (S i) (NPROC - S i)) with (seq i (S (NPROC - S i))).
          rewrite <- seq_app. f_equal. lia. }
      rewrite for_each_skip.
      * simpl. mcall get_proc_eq. unfold counted in Hp. by rewrite Hp.
      * intros j Hj%elem_of_seq. destruct (lookup_lt_is_Some_2 (ptable k) j) as [pj Hpj]; [rewrite Hk; lia|].
        mcall get_proc_eq. specialize (Hfst j pj ltac:(lia) Hpj). unfold counted in Hfst. by rewrite Hfst.
    + apply find_index_None in Ef.
      assert (existsb counted (ptable k) = false) as ->.
      { apply not_true_is_false. intros (p & Hin & Hp)%existsb_exists.
        rewrite List.Forall_forall in Ef. specialize (Ef p Hin). simpl in Ef. congruence. }
      intros _. unfold bind at 1. rewrite <- (app_nil_r procs), for_each_skip.
      * simpl. unfold ret. f_equal. kernel_eq. symmetry. rewrite <- (list_fmap_id (ptable k)) at 2.
        apply list_fmap_ext. intros j p Hj. unfold share.
        pose proof (Forall_lookup_1 _ _ _ _ Ef Hj) as E. simpl in E. by rewrite E.
      * intros j Hj. unfold procs in Hj. apply elem_of_seq in Hj.
        destruct (lookup_lt_is_Some_2 (ptable k) j) as [pj Hpj]; [rewrite Hk; lia|].
        mcall get_proc_eq. pose proof (Forall_lookup_1 _ _ _ _ Ef Hpj) as E. simpl in E.
        unfold counted in E. by rewrite E.
  - intros Hneg. erewrite bind_Ret; [reflexivity|]. apply for_each_procs; [|done]. intros i p k' Hk' Hp.
    mcall get_proc_eq. rewrite (proj2 (Z.eqb_neq sum _) Hneg), andb_false_r. cbn [orb].
    fold (counted p). destruct (counted p) eqn:Ec; simpl.
    + rewrite set_proc_eq by in_table. f_equal. apply upd_ptable_ext. apply list_alter_ext; [|done].
      intros x Hx. assert (x = p) as -> by congruence. unfold share. by rewrite Ec.
    + unfold ret. f_equal. symmetry. eapply upd_ptable_nothing; [done|]. unfold share. by rewrite Ec.
Qed.

(** With non-negative priorities that are not all zero the shares are parts of
    10000: each lies between 0 and 10000, and together they do not exceed it. *)
Lemma add_weight_fold t q s :
  Forall (fun p => 0 <= weight p) t -> 0 <= q -> 0 <= s ->
  q + Z.of_nat (length t) < 2 ^ 31 -> s + weights t < 2 ^ 31 ->
  foldl (fun s p => add_weight p s) (q, s) t =
    (q + Z.of_nat (length (filter (fun p => counted p = true) t)), s + weights t).
Proof.
  revert q s. induction t as [|p t IH]; intros q s Hw Hq Hs Hlen Hsum; simpl.
  { unfold weights. simpl. f_equal; lia. }
  apply list.Forall_cons in Hw as [Hp Hw]. simpl length in Hlen.
  change (weights (p :: t)) with (weight p + weights t) in *.
  assert (0 <= weights t) by (apply zsum_nonneg; by apply Forall_fmap).
  unfold weight, counted in *. rewrite filter_cons.
  destruct (truthy (pid p)) eqn:E.
  - rewrite decide_True by done. rewrite !s32_small by lia.
    rewrite IH by (done || lia). simpl length. f_equal; lia.
  - rewrite decide_False by done. rewrite IH by (done || lia). f_equal; lia.
Qed.

Definition shares (sum : Z) (t : list proc) : Z :=
  zsum ((fun p => if counted p then max_time (share sum p) else 0) <$> t).

Lemma share_bounds sum p :
  0 < sum -> 0 <= weight p <= sum -> weight p <= 214748 -> counted p = true ->
  0 <= max_time (share sum p) <= 10000 /\ max_time (share sum p) * sum <= 10000 * weight p.
Proof.
  intros Hsum Hw Hmax Hc. unfold share, weight in *. rewrite Hc in *. rec_simpl.
  rewrite (s32_small (10000 * priority p)) by lia. rewrite Z.quot_div_nonneg by lia.
  pose proof (Z.div_mod (10000 * priority p) sum ltac:(lia)).
  pose proof (Z.mod_pos_bound (10000 * priority p) sum Hsum).
  assert (0 <= 10000 * priority p / sum <= 10000) by nia.
  rewrite s32_small by lia. nia.
Qed.

Lemma share_exact sum pr :
  0 < sum -> 0 <= pr <= sum -> pr <= 214748 -> s32 (Z.quot (s32 (10000 * pr)) sum) = 10000 * pr / sum.
Proof.
  intros Hs Hp Hmax. rewrite (s32_small (10000 * pr)), Z.quot_div_nonneg by lia. apply s32_small.
  pose proof (Z.div_mod (10000 * pr) sum ltac:(lia)). pose proof (Z.mod_pos_bound (10000 * pr) sum Hs). nia.
Qed.

Lemma share_overflow sum pr :
  0 < sum -> 214748 < pr <= 429496 -> s32 (Z.quot (s32 (10000 * pr)) sum) <= 0.
Proof.
  intros Hs Hp. assert (s32 (10000 * pr) = 10000 * pr - 2 ^ 32) as ->.
  { unfold s32. Z.div_mod_to_equations. lia. }
  replace (10000 * pr - 2 ^ 32) with (- (2 ^ 32 - 10000 * pr)) by lia. rewrite Z.quot_opp_l, Z.quot_div_nonneg by lia.
  assert (0 <= (2 ^ 32 - 10000 * pr) / sum <= 2 ^ 32 - 10000 * pr) as Hq.
  { split; [apply Z.div_pos; lia | apply Z.div_le_upper_bound; nia]. }
  rewrite s32_small by lia. lia.
Qed.

Lemma shares_bound sum t :
  0 < sum -> Forall (fun p => 0 <= weight p <= 214748) t -> weights t <= sum ->
  shares sum t * sum <= 10000 * weights t.
Proof.
  intros Hsum. induction t as [|p t IH]; intros Hw Hle; [unfold shares, weights; simpl; lia|].
  apply list.Forall_cons in Hw as [Hp Hw].
  change (weights (p :: t)) with (weight p + weights t) in *.
  change (shares sum (p :: t)) with ((if counted p then max_time (share sum p) else 0) + shares sum t).
  assert (0 <= weights t).
  { apply zsum_nonneg, Forall_fmap. eapply list.Forall_impl; [exact Hw|]. simpl. lia. }
  specialize (IH Hw ltac:(lia)). destruct (counted p) eqn:Ec.
  - pose proof (share_bounds sum p Hsum ltac:(lia) ltac:(lia) Ec). nia.
  - assert (weight p = 0) by (unfold weight; by rewrite Ec). nia.
Qed.
End quanta.

(** On a machine with nobody else the promise of the scheduler holds. *)
#[export] Instance alone_resumes s : @Resumes (alone s).
Proof.
  refine {| resume_cpu := fun _ k => default 0%nat (curcpu k) |}.
  intros n c p k (Hr & Hl & _). change (interfere n k) with k.
  destruct Hr as ((Hn & Hc & Hcp) & Hk). rewrite Hc. simpl. split; [|done]. by split.
Defined.

(** ** The properties *)

Section properties.
Context `{R : Resumes}.

(** A CPU that means to change what a sleeper waits for, under [lk], and to wake
    it, waits as long as another CPU has [lk] or, with [lk] free, the table
    lock. *)
Lemma waker_spins ch lk c c' k :
  cpu_ok c' k -> c' <> c -> lk <> L_ptable ->
  lock_mine lk c k \/ lock_free lk k /\ lock_mine L_ptable c k ->
  exists l k', (acquire lk ;; wakeup ch) k = Spin l k'.
Proof.
  intros Hok Hc Hne Hl. assert (forall l k, cpu_ok c' k -> lock_mine l c k -> exists k', acquire l k = Spin l k') as Hspin.
  { intros l k1 Hok1 [Hm Hmc]. eexists. apply (acquire_spin c'); [done | lia | congruence]. }
  unfold bind at 1. destruct Hl as [Hl|[Hf Hl]].
  - destruct (Hspin lk k Hok Hl) as [k' ->]. by do 2 eexists.
  - rewrite (acquire_eq c') by done. destruct (Hspin L_ptable (acq lk c' k)) as [k' Hk']; [by apply acq_ok| |].
    + unfold lock_mine. by rewrite acq_other.
    + unfold wakeup, bind. rewrite Hk'. by do 2 eexists.
Qed.

(** Between any two statements of [sleep] before the switch. *)
Lemma sleep_steps_spin ch lk c p n k :
  running c 1 p k -> lock_mine lk c k -> lk <> L_ptable -> lock_free L_ptable k -> (p < NPROC)%nat ->
  exists k', run_steps (take n (sleep_steps ch lk p)) k = Ret tt k' /\
    (lock_mine lk c k' \/ lock_free lk k' /\ lock_mine L_ptable c k').
Proof.
  intros Hr Hlk Hne Hl Hp. pose proof (running_depth _ _ _ _ Hr) as Hd. pose proof Hr as (Hok & Ht & _).
  assert (lock_mine lk c (acq L_ptable c k)) as Hlk1 by (unfold lock_mine; by rewrite acq_other).
  assert (release lk (acq L_ptable c k) = Ret tt (rel lk c (acq L_ptable c k))) as Hrel.
  { apply release_eq; [by apply acq_ok | done | rewrite acq_depth by done; lia]. }
  assert (lock_free lk (rel lk c (acq L_ptable c k)) /\ lock_mine L_ptable c (rel lk c (acq L_ptable c k))) as [Hf Hm].
  { split; [apply (rel_free c lk)|]. unfold lock_mine. rewrite rel_other by done. apply acq_mine. }
  unfold sleep_steps, run_steps. rewrite bool_decide_true by done.
  destruct n as [|[|[|[|n]]]]; cbn [take app for_each].
  - eexists. split; [reflexivity|]. by left.
  - mcall (acquire_eq c). eexists. split; [reflexivity|]. by left.
  - mcall (acquire_eq c). mcall Hrel. eexists. split; [reflexivity|]. by right.
  - mcall (acquire_eq c). mcall Hrel. eexists. split; [reflexivity|]. by right.
  - mcall (acquire_eq c). mcall Hrel. rewrite take_nil. cbn [for_each]. eexists. split; [reflexivity|]. by right.
Qed.

(** C24: no wakeup is lost.  A process that holds [lk] sleeps on [ch].  Between
    any two statements of [sleep] before the switch, another CPU that acquires
    [lk], to change what the process waits for, and calls [wakeup] on [ch]
    waits: for [lk], or for the table lock.  At the switch [lk] is free, the
    table lock held and the process marked asleep on [ch].  When the table lock
    is given back, a [wakeup] finds the process and makes it runnable. *)
Theorem sleep_no_lost_wakeup ch lk c p k :
  running c 1 p k -> lock_mine lk c k -> lk <> L_ptable -> lock_free L_ptable k -> (p < NPROC)%nat ->
  (forall n, exists k', run_steps (take n (sleep_steps ch lk p)) k = Ret tt k' /\
     forall c' h, c' <> c -> cpu_ok c' (upd_hw (fun _ => h) k') ->
       exists l k2, (acquire lk ;; wakeup ch) (upd_hw (fun _ => h) k') = Spin l k2) /\
  exists k1, run_steps (sleep_steps ch lk p) k = Ret tt k1 /\ switched_out c p k1 /\ lock_free lk k1 /\
    (exists pr, ptable k1 !! p = Some pr /\ state pr = SLEEPING /\ chan_ pr = ch) /\
    sleep ch (Some lk) k = match budget k with
                           | O => Blocked (bump p k1)
                           | S n => awake ch lk c p n k
                           end /\
    forall c' k2, cpu_ok c' k2 -> ptable_ok k2 -> lock_free L_ptable k2 ->
      ptable k2 !! p = ptable k1 !! p ->
      exists k3 pr, wakeup ch k2 = Ret tt k3 /\ ptable k3 !! p = Some pr /\ state pr = RUNNABLE.
Proof.
  intros Hr Hlk Hne Hl Hp. split.
  { intros n. destruct (sleep_steps_spin ch lk c p n k) as (k' & Hrun & Hlocks); try done.
    exists k'. split; [done|]. intros c' h Hc' Hok. by apply (waker_spins ch lk c c'). }
  exists (asleep ch lk c p k).
  pose proof (asleep_out ch lk c p k Hr Hlk (or_intror Hl) Hp) as Hs.
  assert (exists pr, ptable (asleep ch lk c p k) !! p = Some pr /\ state pr = SLEEPING /\ chan_ pr = ch)
    as (pr & Hpr & Hst & Hch).
  { destruct Hr as (_ & Hk & _). destruct (lookup_lt_is_Some_2 (ptable k) p) as [pr Hpr]; [by rewrite Hk|].
    unfold asleep, fall_asleep. rewrite bool_decide_true by done. rec_simpl.
    rewrite !list_lookup_alter_eq. change (ptable (rel lk c (acq L_ptable c k))) with (ptable k).
    rewrite Hpr. eexists. by split_and!. }
  split_and!; [apply sleep_steps_eq; auto | done | | by exists pr | apply sleep_eq; auto |].
  - unfold asleep. rewrite bool_decide_true by done. apply (rel_free c lk (acq L_ptable c k)).
  - intros c' k2 Hok Hk2 Hl2 Hsame. rewrite (wakeup_eq c') by done. do 2 eexists. split; [done|].
    rec_simpl. rewrite list_lookup_fmap. change (ptable (touch c' k2)) with (ptable k2).
    rewrite Hsame, Hpr. split; [done|]. unfold wake. by rewrite Hst, Hch, !bool_decide_true by done.
Qed.
End properties.

Section more_properties.
Context (c : nat).

(** [kill] of a pid that a slot carries marks the first such process, makes it
    runnable if it is asleep, and reports 0; of any other pid it reports -1 and
    leaves the table as it is.  In both cases no other slot changes. *)
Theorem kill_marks pid0 k :
  cpu_ok c k -> lock_free L_ptable k -> ptable_ok k ->
  exists r k', kill pid0 k = Ret r k' /\
    (r = 0 <-> exists i p, ptable k !! i = Some p /\ pid p = pid0) /\
    (r <> 0 -> r = -1 /\ ptable k' = ptable k) /\
    (r = 0 -> exists i p p', ptable k !! i = Some p /\ pid p = pid0 /\ ptable k' = <[i := p']> (ptable k) /\
       killed p' = 1 /\ state p' = (if bool_decide (state p = SLEEPING) then RUNNABLE else state p)).
Proof.
  intros Hok Hl Hk. do 2 eexists. split; [by apply kill_eq|]. rec_simpl.
  change (ptable (touch c k)) with (ptable k). unfold at_pid.
  destruct (slot_of_pid pid0 (ptable k)) as [i|] eqn:Hi.
  - apply find_index_Some in Hi as [(p & Hp & Hpid%Z.eqb_eq) _].
    split_and!; [split; [eauto | done] | done |]. intros _. exists i, p, (kill_proc p).
    split_and!; [done | done | by apply list_alter_insert | |];
      unfold kill_proc; rec_simpl; by destruct (bool_decide _).
  - apply find_index_None in Hi. split_and!; [|done..]. split; [done|].
    intros (i & p & Hp & Hpid). pose proof (Forall_lookup_1 _ _ _ _ Hi Hp) as E. simpl in E.
    by apply Z.eqb_neq in E.
Qed.

(** A clock tick adds one to exactly one of the three times of every process
    that is asleep, ready or running, the time of its state, and changes
    nothing else. *)
Theorem countprocs_accounts k :
  cpu_ok c k -> lock_free L_ptable k -> ptable_ok k ->
  exists k', countprocs k = Ret tt k' /\
    forall i p, ptable k !! i = Some p ->
      ptable k' !! i = Some (match state p with
                             | SLEEPING => upd_stime (fun n => s32 (n + 1)) p
                             | RUNNABLE => upd_retime (fun n => s32 (n + 1)) p
                             | RUNNING => upd_rutime (fun n => s32 (n + 1)) p
                             | _ => p
                             end).
Proof.
  intros Hok Hl Hk. eexists. split; [by apply (countprocs_eq c)|]. intros i p Hp. rec_simpl.
  rewrite list_lookup_fmap. change (ptable (touch c k)) with (ptable k). rewrite Hp. simpl.
  unfold tick. by destruct (state p).
Qed.
End more_properties.

(** C39: with priorities that are not negative and whose sum is positive and an
    [int], [set_max_time] returns the number of processes and changes nothing
    but the quanta of processes.  When no priority exceeds 214748, the quantum of
    a process is the part of 10000 that its priority is of the sum, rounded down,
    and together the quanta do not exceed 10000.  Beyond 214748 the product
    10000 * priority is more than an [int] holds, and a process with a priority
    from 214749 to 429496 has a quantum that is not positive. *)
Theorem set_max_time_shares k :
  ptable_ok k -> Forall (fun p => 0 <= weight p) (ptable k) -> 0 < weights (ptable k) < 2 ^ 31 ->
  exists k', set_max_time k = Ret (Z.of_nat (length (filter (fun p => counted p = true) (ptable k)))) k' /\
    (forall i p, ptable k !! i = Some p -> exists t, ptable k' !! i = Some (if counted p then upd_max_time (fun _ => t) p else p) /\
       (counted p = true -> priority p <= 214748 -> t = 10000 * priority p / weights (ptable k)) /\
       (counted p = true -> 214748 < priority p <= 429496 -> t <= 0)) /\
    (Forall (fun p => weight p <= 214748) (ptable k) ->
       zsum ((fun p => if counted p then max_time p else 0) <$> ptable k') <= 10000) /\
    upd_ptable (fun _ => ptable k) k' = k.
Proof.
  intros Hk Hw Hsum. pose proof (set_max_time_eq k Hk) as Hrun.
  rewrite add_weight_fold, !Z.add_0_l in Hrun; [| done | lia | lia | by rewrite Hk | lia].
  rewrite (proj2 (Z.eqb_neq _ 0)) in Hrun by lia. cbn [andb] in Hrun. specialize (Hrun ltac:(lia)).
  eexists. split; [exact Hrun|]. rec_simpl. split_and!; [| |by kernel_eq].
  - intros i p Hp. exists (s32 (Z.quot (s32 (10000 * priority p)) (weights (ptable k)))).
    rewrite list_lookup_fmap, Hp. split_and!; [done | |].
    + intros Hc Hmax. pose proof (Forall_lookup_1 _ _ _ _ Hw Hp) as Hwp. simpl in Hwp.
      assert (weight p <= weights (ptable k)) as Hle.
      { apply zsum_elem_le; [by apply list_elem_of_fmap_2, (list_elem_of_lookup_2 _ i) | by apply Forall_fmap]. }
      unfold weight in Hwp, Hle. rewrite Hc in Hwp, Hle. apply share_exact; lia.
    + intros Hc Hbig. apply share_overflow; lia.
  - intros Hmax. pose proof (shares_bound (weights (ptable k)) (ptable k) ltac:(lia)) as Hb.
    rewrite <- list_fmap_compose. unfold shares in Hb.
    match goal with |- zsum ?l <= _ => assert (zsum l * weights (ptable k) <= 10000 * weights (ptable k)) end; [|nia].
    etransitivity; [|apply Hb; [|lia]].
    + apply Z.eq_le_incl. f_equal. f_equal. apply list_fmap_ext. intros i p _.
      cbn [compose]. assert (counted (share (weights (ptable k)) p) = counted p) as Hc; [|by rewrite Hc].
      unfold share. by destruct (counted p) eqn:Hc.
    + apply Forall_lookup. intros i p Hp. pose proof (Forall_lookup_1 _ _ _ _ Hw Hp). pose proof (Forall_lookup_1 _ _ _ _ Hmax Hp).
      simpl in *. lia.
Qed.

(** When no process has a priority other than 0, and there is a process,
    [set_max_time] divides by zero. *)
Theorem set_max_time_divide_error k :
  ptable_ok k -> Forall (fun p => counted p = true -> priority p = 0) (ptable k) ->
  Exists (fun p => counted p = true) (ptable k) ->
  exists k', set_max_time k = Fault "divide error" k'.
Proof.
  intros Hk Hz Hex. pose proof (set_max_time_eq k Hk) as Hrun.
  assert (Forall (fun p => weight p = 0) (ptable k)) as Hw0.
  { eapply list.Forall_impl; [exact Hz|]. intros p Hp. cbv beta in *. unfold weight.
    destruct (counted p); [by apply Hp | done]. }
  assert (weights (ptable k) = 0) as Hs.
  { clear -Hw0. induction Hw0 as [|p t Hp _ IH]; [done|].
    change (weights (p :: t)) with (weight p + weights t). rewrite Hp, IH. done. }
  rewrite add_weight_fold in Hrun; [| | lia | lia | by rewrite Hk | lia].
  2:{ eapply list.Forall_impl; [exact Hw0|]. simpl. lia. }
  rewrite Hs in Hrun. replace (existsb counted (ptable k)) with true in Hrun; [exact Hrun|].
  symmetry. apply existsb_exists. apply List.Exists_exists in Hex as (p & Hin & Hp). eauto.
Qed.

(** *** The properties on concrete states *)

(** Two CPUs, process 0 running on the first; the registers of the second. *)
Definition two_cpus : kernel :=
  upd_ncpu (fun _ => 2%nat) (upd_cpus (alter (upd_apicid (fun _ => 1)) 1%nat) (on_cpu 0 0 boot)).
Definition second_cpu : hwregs := upd_lapicid (fun _ => 1) (hw boot).

Lemma two_cpus_ok : cpu_ok 0 two_cpus.
Proof.
  split_and!; [by vm_compute; lia | by vm_compute|]. exists (upd_c_proc (fun _ => Some 0%nat) (zero_cpu 0)).
  split; [by vm_compute | by vm_compute].
Qed.

Lemma second_cpu_ok :
  exists k1, run_steps (take 2 (sleep_steps CTicks L_ticks 0)) (acq L_ticks 0 two_cpus) = Ret tt k1 /\
    cpu_ok 1 (upd_hw (fun _ => second_cpu) k1).
Proof.
  exists (rel L_ticks 0 (acq L_ptable 0 (acq L_ticks 0 two_cpus))).
  pose proof (acq_ok 0 L_ticks _ two_cpus_ok) as Hok1. pose proof (acq_ok 0 L_ptable _ Hok1) as Hok2. split.
  - unfold run_steps, sleep_steps. rewrite bool_decide_true by done. cbn [take app for_each]. mcall (acquire_eq 0).
    mcall (release_eq 0) by (first [exact Hok2 | done | by vm_compute]). done.
  - split_and!; [by vm_compute; lia | by vm_compute|]. exists (upd_apicid (fun _ => 1) (zero_cpu 0)).
    split; [by vm_compute | by vm_compute].
Qed.

Lemma sleep_no_lost_wakeup_witness :
  exists k1 k2 l k3, run_steps (take 2 (sleep_steps CTicks L_ticks 0)) (acq L_ticks 0 two_cpus) = Ret tt k1 /\
    (acquire L_ticks ;; wakeup CTicks) (upd_hw (fun _ => second_cpu) k1) = Spin l k3 /\
    @sleep (alone LOTTERY) CTicks (Some L_ticks) (acq L_ticks 0 two_cpus) = Blocked (bump 0 k2).
Proof.
  assert (running 0 0 0 two_cpus) as Hr.
  { split_and!; [exact two_cpus_ok | reflexivity|]. exists (upd_c_proc (fun _ => Some 0%nat) (zero_cpu 0)). by split_and!. }
  destruct (@sleep_no_lost_wakeup (alone LOTTERY) (alone_resumes LOTTERY) CTicks L_ticks 0 0
    (acq L_ticks 0 two_cpus) (running_acq 0 L_ticks 0 0 _ Hr) (acq_mine 0 L_ticks _)
    ltac:(done) (boot_free L_ptable) ltac:(unfold NPROC; lia)) as (Hn & k2 & _ & _ & _ & _ & Hrun & _).
  destruct (Hn 2%nat) as (k1 & H1 & Hspin). destruct second_cpu_ok as (k1' & E & Hok).
  assert (k1' = k1) as -> by congruence.
  destruct (Hspin 1%nat second_cpu ltac:(done) Hok) as (l & k3 & H3). by exists k1, k2, l, k3.
Defined.

(** Three processes with priorities 1, 2 and 1, the last one asleep. *)
Definition trio : kernel :=
  upd_ptable (fun _ =>
    upd_pid (fun _ => 1) (upd_priority (fun _ => 1) (upd_state (fun _ => RUNNING) zero_proc)) ::
    upd_pid (fun _ => 2) (upd_priority (fun _ => 2) (upd_state (fun _ => RUNNABLE) zero_proc)) ::
    upd_pid (fun _ => 3) (upd_priority (fun _ => 1) (upd_state (fun _ => SLEEPING) zero_proc)) ::
    repeat zero_proc 61) boot.

Lemma kill_marks_witness :
  exists r k', kill 3 trio = Ret r k' /\ r = 0.
Proof.
  destruct (kill_marks 0 3 trio boot_cpu_ok (boot_free _) eq_refl) as (r & k' & Hrun & Hr & _).
  exists r, k'. split; [exact Hrun|]. apply Hr. exists 2%nat. eexists. by split.
Defined.

Lemma countprocs_accounts_witness :
  exists k', countprocs trio = Ret tt k' /\ rutime <$> ptable k' !! 0%nat = Some 1 /\
    retime <$> ptable k' !! 1%nat = Some 1 /\ stime <$> ptable k' !! 2%nat = Some 1.
Proof.
  destruct (countprocs_accounts 0 trio boot_cpu_ok (boot_free _) eq_refl) as (k' & Hrun & Ht).
  exists k'. split; [exact Hrun|]. by rewrite (Ht 0%nat _ eq_refl), (Ht 1%nat _ eq_refl), (Ht 2%nat _ eq_refl).
Defined.

Lemma set_max_time_shares_witness :
  exists k', set_max_time trio = Ret 3 k' /\ max_time <$> ptable k' !! 1%nat = Some 5000.
Proof.
  destruct (set_max_time_shares trio eq_refl) as (k' & Hrun & Ht & _).
  - repeat (apply list.Forall_cons; split; [by vm_compute|]). constructor.
  - by vm_compute.
  - exists k'. split; [exact Hrun|]. destruct (Ht 1%nat _ eq_refl) as (t & -> & Hq & _). by rewrite Hq by by vm_compute.
Defined.

Lemma set_max_time_divide_error_witness :
  exists k', set_max_time (upd_ptable (fun _ => upd_pid (fun _ => 1) zero_proc :: repeat zero_proc 63) boot)
    = Fault "divide error" k'.
Proof.
  apply set_max_time_divide_error; [reflexivity | | by constructor].
  repeat (apply list.Forall_cons; split; [by vm_compute|]). constructor.
Defined.
