(* ===== verification/Rand.v ===== *)
(** rand.c: the Mersenne twister the lottery draws from, and
    [random_at_most].  [unsigned long] is 32 bits wide on the target. *)

From S2P Require Import Prelude Memory Kernel Boot.

Definition MT_N : nat := 624.
Definition MT_M : nat := 397.
Definition MATRIX_A : Z := 0x9908b0df.
Definition UPPER_MASK : Z := 0x80000000.
Definition LOWER_MASK : Z := 0x7fffffff.
Definition TEMPERING_MASK_B : Z := 0x9d2c5680.
Definition TEMPERING_MASK_C : Z := 0xefc60000.
Definition TEMPERING_SHIFT_U (y : Z) : Z := Z.shiftr y 11.
Definition TEMPERING_SHIFT_S (y : Z) : Z := u32 (Z.shiftl y 7).
Definition TEMPERING_SHIFT_T (y : Z) : Z := u32 (Z.shiftl y 15).
Definition TEMPERING_SHIFT_L (y : Z) : Z := Z.shiftr y 18.
Definition RAND_MAX : Z := 0x7fffffff.

Definition mt_get (i : nat) : M Z := slot "mt" mt i.

(** [mt[i] = v]; writing past the array is an access outside it. *)
Definition mt_set (i : nat) (v : Z) : M unit := fun k =>
  if (i <? length (mt k))%nat then Ret tt (upd_mt (insert i v) k) else Fault "mt" k.

Definition sgenrand (seed : Z) : M unit :=
  mt_set 0 (Z.land seed 0xffffffff) ;;
  modify (upd_mti (fun _ => 1)) ;;
  for_each (seq 1 (MT_N - 1)) (fun i =>
    let* x := mt_get (i - 1) in
    mt_set i (Z.land (u32 (69069 * x)) 0xffffffff) ;;
    modify (upd_mti (fun n => n + 1))).

Definition mag01 (x : Z) : Z := if x =? 0 then 0 else MATRIX_A.

(** One word of the new state: from words [i], [j] = [i+1] and [m] = [i+M]. *)
Definition mt_word (i j m : nat) : M unit :=
  let* x := mt_get i in
  let* x1 := mt_get j in
  let y := Z.lor (Z.land x UPPER_MASK) (Z.land x1 LOWER_MASK) in
  let* xm := mt_get m in
  mt_set i (Z.lxor (Z.lxor xm (Z.shiftr y 1)) (mag01 (Z.land y 1))).

Definition temper (y : Z) : Z :=
  let y := Z.lxor y (TEMPERING_SHIFT_U y) in
  let y := Z.lxor y (Z.land (TEMPERING_SHIFT_S y) TEMPERING_MASK_B) in
  let y := Z.lxor y (Z.land (TEMPERING_SHIFT_T y) TEMPERING_MASK_C) in
  Z.lxor y (TEMPERING_SHIFT_L y).

(** The three loops of [genrand] that make [N] words at one time. *)
Definition mt_refill : M unit :=
  for_each (seq 0 (MT_N - MT_M)) (fun kk => mt_word kk (kk + 1) (kk + MT_M)) ;;
  for_each (seq (MT_N - MT_M) (MT_M - 1)) (fun kk => mt_word kk (kk + 1) (kk + MT_M - MT_N)) ;;
  mt_word (MT_N - 1) 0 (MT_M - 1).

Definition genrand : M Z :=
  let* i := gets mti in
  when (Z.of_nat MT_N <=? i)
    (when (i =? Z.of_nat MT_N + 1) (sgenrand 4357) ;;
     mt_refill ;;
     modify (upd_mti (fun _ => 0))) ;;
  let* i := gets mti in
  let* y := mt_get (Z.to_nat i) in
  modify (upd_mti (fun n => n + 1)) ;;
  ret (Z.land (temper y) RAND_MAX).

(** [random_at_most]: the draw is repeated until it falls below
    [num_rand - defect]; [fuel] bounds the number of draws. *)
Definition num_bins (max : Z) : Z := u32 (u32 max + 1).
Definition num_rand : Z := u32 (RAND_MAX + 1).
Definition bin_size (max : Z) : Z := num_rand / num_bins max.
Definition defect (max : Z) : Z := num_rand mod num_bins max.
Definition rejects (max x : Z) : bool := u32 (num_rand - defect max) <=? u32 x.

Definition draw (fuel : nat) (max : Z) : M Z :=
  iter fuel (fun _ =>
    let* x := genrand in
    ret (if rejects max x then inl tt else inr x)) tt.

Definition random_at_most (fuel : nat) (max : Z) : M Z :=
  if num_bins max =? 0 then fault "divide error" else
  let* x := draw fuel max in
  if bin_size max =? 0 then fault "divide error" else ret (x / bin_size max).

(** ** The state of the generator *)

Definition mt_ok (k : kernel) : Prop :=
  length (mt k) = MT_N /\ Forall (fun x => 0 <= x < 2 ^ 32) (mt k) /\
  0 <= mti k <= Z.of_nat MT_N + 1.

(** The twist of one word, and the state after the three loops: word [i] is
    made from words [i], [i+1] and [i+M] modulo [N], in place and in order. *)
Definition twist (x x1 xm : Z) : Z :=
  let y := Z.lor (Z.land x UPPER_MASK) (Z.land x1 LOWER_MASK) in
  Z.lxor (Z.lxor xm (Z.shiftr y 1)) (mag01 (Z.land y 1)).

Definition mt_put (l : list Z) (ijm : nat * nat * nat) : list Z :=
  let '(i, j, m) := ijm in <[i := twist (l !!! i) (l !!! j) (l !!! m)]> l.

Definition mt_at (i : nat) : nat * nat * nat :=
  (i, ((i + 1) mod MT_N)%nat, ((i + MT_M) mod MT_N)%nat).

Definition refill (l : list Z) : list Z := foldl mt_put l (mt_at <$> seq 0 MT_N).

Lemma mt_put_length l ijm : length (mt_put l ijm) = length l.
Proof. destruct ijm as [[i j] m]. apply length_insert. Qed.

Lemma twist_range x x1 xm :
  0 <= x < 2 ^ 32 -> 0 <= x1 < 2 ^ 32 -> 0 <= xm < 2 ^ 32 -> 0 <= twist x x1 xm < 2 ^ 32.
Proof.
  intros. unfold twist. apply lxor_word; [|unfold mag01, MATRIX_A; case_match; lia].
  apply lxor_word; [done|]. apply shiftr_word; [lia|]. auto with xv6.
Qed.

Lemma mt_put_range l i j m :
  (i < length l)%nat -> (j < length l)%nat -> (m < length l)%nat ->
  Forall (fun x => 0 <= x < 2 ^ 32) l ->
  Forall (fun x => 0 <= x < 2 ^ 32) (mt_put l (i, j, m)).
Proof.
  intros Hi Hj Hm Hl. apply Forall_insert; [done|].
  apply twist_range; apply (Forall_lookup_total_1 _ _ _ Hl); done.
Qed.

Lemma mt_get_eq i k : (i < length (mt k))%nat -> mt_get i k = Ret (mt k !!! i) k.
Proof. intros Hi. apply slot_eq. by apply list_lookup_lookup_total_lt. Qed.

Lemma mt_word_eq i j m k :
  (i < length (mt k))%nat -> (j < length (mt k))%nat -> (m < length (mt k))%nat ->
  mt_word i j m k = Ret tt (upd_mt (fun l => mt_put l (i, j, m)) k).
Proof.
  intros Hi Hj Hm. unfold mt_word. mcall mt_get_eq. mcall mt_get_eq. mcall mt_get_eq.
  unfold mt_set. rewrite (proj2 (Nat.ltb_lt _ _)) by done. done.
Qed.

Lemma mt_words_eq (f : nat -> nat * nat * nat) l k :
  length (mt k) = MT_N ->
  (forall i, i ∈ l -> let '(a, b, c) := f i in (a < MT_N)%nat /\ (b < MT_N)%nat /\ (c < MT_N)%nat) ->
  for_each l (fun i => let '(a, b, c) := f i in mt_word a b c) k
  = Ret tt (upd_mt (fun t => foldl mt_put t (f <$> l)) k).
Proof.
  revert k. induction l as [|i l IH]; intros k Hk Hf; simpl.
  { unfold ret. f_equal. by destruct k. }
  pose proof (Hf i (list_elem_of_here _ _)) as Hi. destruct (f i) as [[a b] c] eqn:Ei.
  mcall mt_word_eq by (rewrite Hk; apply Hi).
  rewrite IH.
  - f_equal.
  - rec_simpl. by rewrite mt_put_length.
  - intros j Hj. apply Hf. by right.
Qed.

Lemma mt_at_seq :
  (((fun i => (i, i + 1, i + MT_M)) <$> seq 0 (MT_N - MT_M)) ++
   ((fun i => (i, i + 1, i + MT_M - MT_N)) <$> seq (MT_N - MT_M) (MT_M - 1)) ++
   [(MT_N - 1, 0, MT_M - 1)])%nat = mt_at <$> seq 0 MT_N.
Proof. vm_compute. reflexivity. Qed.

Lemma upd_mt_twice f g k : upd_mt f (upd_mt g k) = upd_mt (fun l => f (g l)) k.
Proof. reflexivity. Qed.

Lemma upd_mt_ext f g k : f (mt k) = g (mt k) -> upd_mt f k = upd_mt g k.
Proof. intros Hm. unfold upd_mt. by rewrite Hm. Qed.

Lemma mt_refill_eq k :
  length (mt k) = MT_N -> mt_refill k = Ret tt (upd_mt refill k).
Proof.
  intros Hk. unfold mt_refill.
  erewrite bind_Ret; [|apply (mt_words_eq (fun i => (i, i + 1, i + MT_M)%nat)); [done|]].
  2:{ intros i Hi%elem_of_seq. unfold MT_N, MT_M in *. lia. }
  assert (forall fs l, length (foldl mt_put l fs) = length l) as Hlen.
  { induction fs as [|x fs IH]; intros l; [done|]. simpl. by rewrite IH, mt_put_length. }
  erewrite bind_Ret; [|apply (mt_words_eq (fun i => (i, i + 1, i + MT_M - MT_N)%nat))].
  2:{ rec_simpl. by rewrite Hlen. }
  2:{ intros i Hi%elem_of_seq. unfold MT_N, MT_M in *. lia. }
  rewrite mt_word_eq by (rec_simpl; rewrite !Hlen, Hk; unfold MT_N, MT_M; lia).
  rewrite !upd_mt_twice. apply (f_equal (Ret tt)), upd_mt_ext.
  unfold refill. rewrite <- mt_at_seq, !foldl_app. cbn [foldl]. reflexivity.
Qed.

Lemma words_S l n :
  foldl mt_put l (mt_at <$> seq 0 (S n))
  = mt_put (foldl mt_put l (mt_at <$> seq 0 n)) (mt_at n).
Proof. rewrite seq_S, fmap_app, foldl_app. done. Qed.

(** The words made so far, among those of the old state. *)
Lemma refill_prefix l n :
  length l = MT_N -> (n <= MT_N)%nat ->
  let l' := foldl mt_put l (mt_at <$> seq 0 n) in
  length l' = MT_N /\
  (forall i, (n <= i)%nat -> l' !!! i = l !!! i) /\
  (forall i, (i < n)%nat ->
     l' !!! i = twist (l !!! i)
                  (if decide (i = MT_N - 1)%nat then l' !!! 0%nat else l !!! (i + 1)%nat)
                  (if decide (i < MT_N - MT_M)%nat then l !!! (i + MT_M)%nat
                   else l' !!! (i + MT_M - MT_N)%nat)).
Proof.
  intros Hl. induction n as [|n IH]; intros Hn l'.
  { split_and!; [done | done | lia]. }
  unfold l'. rewrite words_S. clear l'. destruct IH as (Hlen & Hold & Hnew); [lia|].
  set (l1 := foldl mt_put l (mt_at <$> seq 0 n)) in *.
  unfold mt_put, mt_at. split_and!.
  - by rewrite length_insert.
  - intros i Hi. rewrite list_lookup_total_insert_ne by lia. apply Hold. lia.
  - intros i Hi. destruct (decide (i = n)) as [->|Hne].
    + rewrite list_lookup_total_insert_eq by lia. f_equal.
      * apply Hold. lia.
      * case_decide as E.
        -- subst n. rewrite list_lookup_total_insert_ne by (unfold MT_N; lia). done.
        -- rewrite Nat.mod_small by lia. apply Hold. lia.
      * case_decide as E.
        -- rewrite Nat.mod_small by lia. apply Hold. lia.
        -- rewrite list_lookup_total_insert_ne by (unfold MT_N, MT_M in *; lia).
           f_equal. unfold MT_N, MT_M in *.
           replace (n + 397)%nat with (n + 397 - 624 + 1 * 624)%nat at 1 by lia.
           rewrite Nat.Div0.mod_add. apply Nat.mod_small. lia.
    + rewrite list_lookup_total_insert_ne by lia. rewrite Hnew by lia. f_equal.
      * case_decide; [|done]. rewrite list_lookup_total_insert_ne by lia. done.
      * case_decide; [done|]. rewrite list_lookup_total_insert_ne by (unfold MT_N, MT_M in *; lia). done.
Qed.

Lemma refill_spec l :
  length l = MT_N ->
  length (refill l) = MT_N /\
  (forall i, (i < MT_N)%nat ->
     refill l !!! i = twist (l !!! i)
                  (if decide (i = MT_N - 1)%nat then refill l !!! 0%nat else l !!! (i + 1)%nat)
                  (if decide (i < MT_N - MT_M)%nat then l !!! (i + MT_M)%nat
                   else refill l !!! (i + MT_M - MT_N)%nat)).
Proof.
  intros Hl. unfold refill. destruct (refill_prefix l MT_N Hl (le_n _)) as (H1 & _ & H3).
  exact (conj H1 H3).
Qed.

Lemma refill_ok l :
  length l = MT_N -> Forall (fun x => 0 <= x < 2 ^ 32) l ->
  length (refill l) = MT_N /\ Forall (fun x => 0 <= x < 2 ^ 32) (refill l).
Proof.
  intros Hl Hr. unfold refill.
  assert (forall n, (n <= MT_N)%nat ->
    length (foldl mt_put l (mt_at <$> seq 0 n)) = MT_N /\
    Forall (fun x => 0 <= x < 2 ^ 32) (foldl mt_put l (mt_at <$> seq 0 n))) as H; [|by apply H].
  induction n as [|n IH]; intros Hn; [done|].
  destruct IH as [IHl IHr]; [lia|]. rewrite words_S.
  split; [by rewrite mt_put_length|].
  apply (mt_put_range _ n ((n + 1) mod MT_N) ((n + MT_M) mod MT_N)); rewrite ?IHl; try done; try lia; apply Nat.mod_upper_bound; unfold MT_N; lia.
Qed.

(** A state whose generator alone has changed. *)
Definition only_mt (k k' : kernel) : Prop :=
  k' = upd_mt (fun _ => mt k') (upd_mti (fun _ => mti k') k).

Lemma only_mt_trans k1 k2 k3 : only_mt k1 k2 -> only_mt k2 k3 -> only_mt k1 k3.
Proof. unfold only_mt. intros H1 H2. rewrite H2. rewrite H1. reflexivity. Qed.

Lemma only_mt_upd f g k : only_mt k (upd_mti f (upd_mt g k)).
Proof. reflexivity. Qed.

Lemma only_mt_upd_mt g k : only_mt k (upd_mt g k).
Proof. reflexivity. Qed.

Lemma mt_set_eq i v k :
  (i < length (mt k))%nat -> mt_set i v k = Ret tt (upd_mt (insert i v) k).
Proof. intros. unfold mt_set. by rewrite (proj2 (Nat.ltb_lt _ _)). Qed.

(** Seeding fills the array and leaves the index at its end. *)
Lemma sgenrand_ok seed k :
  length (mt k) = MT_N -> Forall (fun x => 0 <= x < 2 ^ 32) (mt k) ->
  exists k', sgenrand seed k = Ret tt k' /\ only_mt k k' /\
    length (mt k') = MT_N /\ Forall (fun x => 0 <= x < 2 ^ 32) (mt k') /\
    mti k' = Z.of_nat MT_N.
Proof.
  intros Hl Hr. unfold sgenrand. mcall mt_set_eq by (rewrite Hl; unfold MT_N; lia).
  set (body := fun i : nat => bind _ _).
  assert (forall n k, (n < MT_N)%nat -> length (mt k) = MT_N ->
    Forall (fun x => 0 <= x < 2 ^ 32) (mt k) -> mti k = 1 ->
    exists k', for_each (seq 1 n) body k = Ret tt k' /\ only_mt k k' /\
      length (mt k') = MT_N /\ Forall (fun x => 0 <= x < 2 ^ 32) (mt k') /\
      mti k' = 1 + Z.of_nat n) as Hloop.
  { clear. intros n k Hn Hl Hr Hi.
    rewrite (for_each_Ret body (fun i k => upd_mti (fun n => n + 1)
      (upd_mt (insert i (Z.land (u32 (69069 * mt k !!! (i - 1)%nat)) 0xffffffff)) k))
      (fun k => length (mt k) = MT_N)); [|clear k Hl Hr Hi|done].
    2:{ intros i k Hi%elem_of_seq Hl. unfold body.
        mcall mt_get_eq by (rewrite Hl; lia). mcall mt_set_eq by (rewrite Hl; lia).
        split; [done|]. rec_simpl. by rewrite length_insert. }
    eexists. split; [done|]. clear body Hn.
    induction n as [|n IH]; [split_and!; try done; by destruct k|].
    rewrite seq_S, foldl_app. destruct IH as (Ho & Hl' & Hr' & Hi').
    set (k' := foldl _ k (seq 1 n)) in *. cbn [foldl]. split_and!.
    - eapply only_mt_trans; [done|]. reflexivity.
    - rec_simpl. by rewrite length_insert.
    - rec_simpl. apply Forall_insert; [done|]. apply land_word. apply u32_range.
    - rec_simpl. lia. }
  edestruct Hloop as (k' & Hk' & Ho & Hl' & Hr' & Hi');
    [| | | | exists k'; split; [exact Hk'|]].
  - unfold MT_N. lia.
  - rec_simpl. by rewrite length_insert.
  - rec_simpl. apply Forall_insert; [done|]. apply land_word_r. lia.
  - done.
  - split_and!; done.
Qed.

Lemma temper_range y : 0 <= y < 2 ^ 32 -> 0 <= temper y < 2 ^ 32.
Proof.
  intros Hy. unfold temper, TEMPERING_SHIFT_U, TEMPERING_SHIFT_S, TEMPERING_SHIFT_T, TEMPERING_SHIFT_L.
  repeat (apply lxor_word || (apply shiftr_word; [lia|]) || apply land_word || apply u32_range || done).
Qed.

Lemma land_rand_max x : 0 <= Z.land x RAND_MAX <= RAND_MAX.
Proof.
  change RAND_MAX with (Z.ones 31). rewrite Z.land_ones by lia.
  change (Z.ones 31) with (2 ^ 31 - 1). pose proof (Z.mod_pos_bound x (2 ^ 31)). lia.
Qed.

(** [genrand] always returns a number in [[0, RAND_MAX]], stays inside its
    array whatever state it is called in, and touches nothing else. *)
Lemma genrand_ok k :
  mt_ok k -> exists r k', genrand k = Ret r k' /\ mt_ok k' /\ only_mt k k' /\ 0 <= r <= RAND_MAX.
Proof.
  intros (Hl & Hr & Hi). unfold genrand. mrun.
  assert (exists k1, when (Z.of_nat MT_N <=? mti k)
      (when (mti k =? Z.of_nat MT_N + 1) (sgenrand 4357) ;;
       mt_refill ;; modify (upd_mti (fun _ => 0))) k = Ret tt k1 /\
      only_mt k k1 /\ length (mt k1) = MT_N /\ Forall (fun x => 0 <= x < 2 ^ 32) (mt k1) /\
      0 <= mti k1 < Z.of_nat MT_N) as (k1 & Hk1 & Ho1 & Hl1 & Hr1 & Hi1).
  { destruct (Z.leb_spec (Z.of_nat MT_N) (mti k)) as [Hge|Hlt]; simpl.
    2:{ exists k. split_and!; try done; try lia. by destruct k. }
    assert (exists k0, when (mti k =? Z.of_nat MT_N + 1) (sgenrand 4357) k = Ret tt k0 /\
      only_mt k k0 /\ length (mt k0) = MT_N /\ Forall (fun x => 0 <= x < 2 ^ 32) (mt k0))
      as (k0 & Hk0 & Ho0 & Hl0 & Hr0).
    { destruct (Z.eqb_spec (mti k) (Z.of_nat MT_N + 1)); simpl.
      - destruct (sgenrand_ok 4357 k Hl Hr) as (k0 & ? & ? & ? & ? & ?). by exists k0.
      - exists k. split_and!; try done. by destruct k. }
    destruct (refill_ok _ Hl0 Hr0) as [Hlr Hrr].
    erewrite bind_Ret; [|exact Hk0]. mcall mt_refill_eq.
    eexists. split; [reflexivity|]. split_and!; try done.
    eapply only_mt_trans; [exact Ho0|]. apply only_mt_upd. }
  erewrite bind_Ret; [|exact Hk1]. mrun. mcall mt_get_eq by (rewrite Hl1; lia).
  eexists _, _. split; [reflexivity|]. split_and!.
  - split_and!; rec_simpl; [done | done | lia | lia].
  - eapply only_mt_trans; [exact Ho1|]. reflexivity.
  - apply land_rand_max.
  - apply land_rand_max.
Qed.

(** ** [random_at_most] *)

Lemma num_rand_val : num_rand = 2 ^ 31.
Proof. reflexivity. Qed.

Lemma num_bins_val max : 0 <= max <= RAND_MAX -> num_bins max = max + 1.
Proof.
  unfold RAND_MAX. intros. unfold num_bins. rewrite (u32_small max) by lia.
  apply u32_small. lia.
Qed.

Lemma bin_size_pos max : 0 <= max <= RAND_MAX -> 0 < bin_size max.
Proof.
  intros H. unfold bin_size. rewrite num_bins_val, num_rand_val by done.
  unfold RAND_MAX in H. apply Z.div_str_pos. lia.
Qed.

Lemma rejects_val max x :
  0 <= max <= RAND_MAX -> 0 <= x <= RAND_MAX ->
  rejects max x = ((max + 1) * bin_size max <=? x).
Proof.
  intros Hm Hx. pose proof (bin_size_pos _ Hm) as Hb. unfold rejects, defect, bin_size in *.
  rewrite num_bins_val, num_rand_val in * by done. unfold RAND_MAX in *.
  pose proof (Z.div_mod (2 ^ 31) (max + 1) ltac:(lia)) as Hd.
  pose proof (Z.mod_pos_bound (2 ^ 31) (max + 1) ltac:(lia)).
  rewrite (u32_small x) by lia. f_equal.
  replace (2 ^ 31 - 2 ^ 31 mod (max + 1)) with ((max + 1) * (2 ^ 31 / (max + 1))) by lia.
  apply u32_small. nia.
Qed.

(** The outcomes of a call that draws: it returns [a] with [P a], or the draws
    of the run did not suffice; in both cases only the generator changed. *)
Definition draws {A} (P : A -> Prop) (k : kernel) (o : outcome A) : Prop :=
  match o with
  | Ret a k' => P a /\ mt_ok k' /\ only_mt k k'
  | Diverge k' => mt_ok k' /\ only_mt k k'
  | _ => False
  end.

Lemma draw_ok fuel max k :
  mt_ok k -> 0 <= max <= RAND_MAX ->
  draws (fun x => 0 <= x <= RAND_MAX /\ rejects max x = false) k (draw fuel max k).
Proof.
  intros Hk Hm. unfold draw. revert k Hk. induction fuel as [|fuel IH]; intros k Hk; simpl.
  { split; [done | by destruct k]. }
  destruct (genrand_ok k Hk) as (x & k1 & Hx & Hk1 & Ho1 & Hr).
  rewrite bind_assoc. erewrite bind_Ret; [|exact Hx]. rewrite bind_ret.
  destruct (rejects max x) eqn:E; [|simpl; tauto].
  specialize (IH k1 Hk1). destruct (iter _ _ _ k1); simpl in *; try done;
    destruct_and!; split_and!; try done; by eapply only_mt_trans.
Qed.

Lemma draw_never fuel max k :
  mt_ok k -> (forall x, 0 <= x <= RAND_MAX -> rejects max x = true) ->
  exists k', draw fuel max k = Diverge k' /\ mt_ok k' /\ only_mt k k'.
Proof.
  intros Hk Hrej. unfold draw. revert k Hk. induction fuel as [|fuel IH]; intros k Hk; simpl.
  { exists k. split_and!; try done. by destruct k. }
  destruct (genrand_ok k Hk) as (x & k1 & Hx & Hk1 & Ho1 & Hr).
  rewrite bind_assoc. erewrite bind_Ret; [|exact Hx]. rewrite bind_ret, Hrej by done.
  destruct (IH k1 Hk1) as (k2 & Hd & Hk2 & Ho2).
  exists k2. split_and!; try done. by eapply only_mt_trans.
Qed.

Lemma random_at_most_ok fuel max k :
  mt_ok k -> 0 <= max <= RAND_MAX ->
  draws (fun r => 0 <= r <= max) k (random_at_most fuel max k).
Proof.
  intros Hk Hm. pose proof (bin_size_pos _ Hm) as Hb. unfold random_at_most.
  rewrite num_bins_val by done. rewrite (proj2 (Z.eqb_neq _ _)) by lia.
  pose proof (draw_ok fuel max k Hk Hm) as Hd. unfold bind.
  destruct (draw fuel max k) as [x k'| | | | |]; try done.
  destruct Hd as ([Hx Hrej] & Hk' & Ho). rewrite (proj2 (Z.eqb_neq _ _)) by lia.
  split_and!; try done.
  - apply Z.div_pos; lia.
  - rewrite rejects_val in Hrej by done. apply Z.leb_gt in Hrej.
    apply Z.lt_succ_r, Z.div_lt_upper_bound; lia.
Qed.

(** ** Properties *)

(** The refill of the state array is the Mersenne Twister recurrence: in the
    sequence made of the old words followed by the new ones, word [N + i] is the
    twist of words [i], [i + 1] and [i + M], for every [i]; nothing else of the
    kernel changes. *)
Theorem mt_refill_recurrence k :
  length (mt k) = MT_N ->
  exists k', mt_refill k = Ret tt k' /\ only_mt k k' /\
    let x := mt k ++ mt k' in
    forall i, (i < MT_N)%nat ->
      x !!! (MT_N + i)%nat = twist (x !!! i) (x !!! (i + 1)%nat) (x !!! (i + MT_M)%nat).
Proof.
  intros Hl. exists (upd_mt refill k). 
  split; [exact (mt_refill_eq k Hl)|]. split; [apply only_mt_upd_mt|].
  intros x i Hi. unfold x. change (mt (upd_mt refill k)) with (refill (mt k)). clear x.
  destruct (refill_spec (mt k) Hl) as (Hlen & Hnew). generalize dependent (refill (mt k)).
  intros l' Hlen Hnew.
  rewrite lookup_total_app_r by (rewrite Hl; lia). rewrite Hl.
  replace (MT_N + i - MT_N)%nat with i by lia. rewrite Hnew by done.
  rewrite (lookup_total_app_l (mt k) _ i) by (rewrite Hl; lia). f_equal.
  - case_decide as E.
    + rewrite lookup_total_app_r by (rewrite Hl; unfold MT_N in *; lia). rewrite Hl. f_equal. lia.
    + by rewrite lookup_total_app_l by (rewrite Hl; lia).
  - case_decide as E.
    + by rewrite lookup_total_app_l by (rewrite Hl; lia).
    + rewrite lookup_total_app_r by (rewrite Hl; lia). by rewrite Hl.
Qed.

(** [random_at_most(max)] returns a number between 0 and [max], both
    included, or goes on drawing; it touches nothing but the generator. *)
Theorem random_at_most_range fuel max k :
  mt_ok k -> 0 <= max <= RAND_MAX ->
  draws (fun r => 0 <= r <= max) k (random_at_most fuel max k).
Proof. apply random_at_most_ok. Qed.

(** The results of [random_at_most] are equally likely: result [r] is given
    by exactly the [bin_size] draws of one interval, as many as every other
    result. *)
Theorem random_at_most_uniform max x r :
  0 <= max <= RAND_MAX -> 0 <= x <= RAND_MAX -> 0 <= r <= max ->
  (rejects max x = false /\ x / bin_size max = r) <->
  r * bin_size max <= x < (r + 1) * bin_size max.
Proof.
  intros Hm Hx Hr. pose proof (bin_size_pos _ Hm) as Hb. rewrite rejects_val, Z.leb_gt by done.
  pose proof (Z.div_mod x (bin_size max) ltac:(lia)).
  pose proof (Z.mod_pos_bound x (bin_size max) Hb). split.
  - intros [_ <-]. nia.
  - intros Hi. assert (x / bin_size max = r) as E by nia. split; [nia | done].
Qed.

(** A negative bound is outside the contract of [random_at_most]: with -1
    the kernel divides by zero, below -1 it draws for ever. *)
Theorem random_at_most_negative fuel max k :
  mt_ok k -> - 2 ^ 31 <= max < 0 ->
  if max =? -1 then random_at_most fuel max k = Fault "divide error" k
  else exists k', random_at_most fuel max k = Diverge k'.
Proof.
  intros Hk Hm. unfold random_at_most.
  assert (u32 max = 2 ^ 32 + max) as Hu.
  { unfold u32. rewrite <- (Z_mod_plus_full max 1). rewrite Z.mod_small; lia. }
  destruct (Z.eqb_spec max (-1)) as [->|Hne].
  { reflexivity. }
  assert (num_bins max = 2 ^ 32 + max + 1) as Hb.
  { unfold num_bins. rewrite Hu. apply u32_small. lia. }
  rewrite Hb, (proj2 (Z.eqb_neq _ _)) by lia.
  destruct (draw_never fuel max k Hk) as (k' & Hd & _).
  { intros x Hx. unfold RAND_MAX in Hx. unfold rejects, defect. rewrite Hb, num_rand_val.
    rewrite (Z.mod_small (2 ^ 31)) by lia. rewrite Z.sub_diag. apply Z.leb_le.
    change (u32 0) with 0. rewrite u32_small; lia. }
  exists k'. unfold bind. by rewrite Hd.
Qed.

(** *** Concrete instances *)

Lemma boot_mt_length : length (mt boot) = MT_N.
Proof. reflexivity. Qed.

Lemma boot_mt_ok : mt_ok boot.
Proof.
  split_and!; [reflexivity | | by vm_compute | by vm_compute].
  apply List.Forall_forall. intros x Hx. apply repeat_spec in Hx. lia.
Qed.

Lemma mt_refill_recurrence_witness : exists k', mt_refill boot = Ret tt k' /\ only_mt boot k'.
Proof.
  destruct (mt_refill_recurrence boot boot_mt_length) as (k' & Hr & Ho & _).
  exact (ex_intro _ k' (conj Hr Ho)).
Defined.

Lemma random_at_most_range_witness :
  draws (fun r => 0 <= r <= 30) boot (random_at_most 2 30 boot).
Proof. apply (random_at_most_range 2 30 boot boot_mt_ok). by vm_compute. Defined.

Lemma random_at_most_uniform_witness :
  (rejects 30 100 = false /\ 100 / bin_size 30 = 0) <->
  0 * bin_size 30 <= 100 < (0 + 1) * bin_size 30.
Proof. apply (random_at_most_uniform 30 100 0); by vm_compute. Defined.

Lemma random_at_most_negative_witness :
  random_at_most 1 (-1) boot = Fault "divide error" boot /\
  exists k', random_at_most 1 (-5) boot = Diverge k'.
Proof.
  split.
  - exact (random_at_most_negative 1 (-1) boot boot_mt_ok ltac:(lia)).
  - exact (random_at_most_negative 1 (-5) boot boot_mt_ok ltac:(lia)).
Defined.
