(* ===== verification/Sched.v ===== *)
(** [scheduler] of proc.c in its two builds, the lottery and the round robin
    with priorities, a round at a time.  The process a round chooses runs
    inside [swtch]. *)

From S2P Require Import Prelude Memory Kernel Spinlock Boot Kalloc Vm Proc Rand.

Section sched.
Context `{Machine}.

(** ** LOTTERY *)

Definition count_tickets : M Z :=
  for_fold procs (fun i total =>
    let* p := get_proc i in
    ret (if bool_decide (state p = RUNNABLE) then s32 (total + tickets p) else total)) 0.

(** Around the switch to the chosen process: before it, and when it is back. *)
Definition lottery_enter (c i : nat) : M unit :=
  set_cpu c (upd_c_proc (fun _ => Some i)) ;;
  switchuvm (Some i) ;;
  set_proc i (upd_state (fun _ => RUNNING)) ;;
  set_proc i (upd_counter (fun n => s32 (n + 1))) ;;
  set_proc i (upd_timeslice (fun _ => INTERV)).

Definition leave (c : nat) : M unit :=
  switchkvm ;;
  set_cpu c (upd_c_proc (fun _ => None)).

(** The walk over the table to the owner of the winning number, and the switch
    to it. *)
Definition lottery_walk (c : nat) (winner : Z) : M (Z + unit) :=
  for_return procs (fun i tickets_passed =>
    let* p := get_proc i in
    if negb (bool_decide (state p = RUNNABLE)) then ret (inl tickets_passed) else
    let tickets_passed := s32 (tickets_passed + tickets p) in
    if tickets_passed <? winner then ret (inl tickets_passed) else
    lottery_enter c i ;;
    swtch ;;
    leave c ;;
    ret (inr tt)) 0.

(** One iteration of the scheduler's loop on CPU [c]; [fuel] bounds the draws of
    the random number. *)
Definition lottery_round (fuel : nat) (c : nat) (foundproc : Z) : M Z :=
  sti ;;
  let* total_tickets := count_tickets in
  let* winner := random_at_most fuel total_tickets in
  when (foundproc =? 0) cli ;;
  acquire L_ptable ;;
  let* r := lottery_walk c winner in
  release L_ptable ;;
  ret 0.

(** ** PRIORITY *)

(** The runnable process of highest priority, starting from [i]. *)
Definition find_highP (i : nat) : M nat :=
  for_fold procs (fun j highP =>
    let* p1 := get_proc j in
    if negb (bool_decide (state p1 = RUNNABLE)) then ret highP else
    let* h := get_proc highP in
    ret (if priority h <? priority p1 then j else highP)) i.

Definition priority_enter (c highP : nat) : M unit :=
  set_cpu c (upd_c_proc (fun _ => Some highP)) ;;
  switchuvm (Some highP) ;;
  set_proc highP (upd_state (fun _ => RUNNING)).

(** One iteration of the walk over the table, at slot [i]; the loop variable
    [p] is set to the process that ran, so the walk goes on behind it. *)
Definition priority_step (c i : nat) : M (nat + unit) :=
  let* now := curr_time in
  let* p := get_proc i in
  let proc_time := s32 (s32 (now * 10) - s32 (init_time p * 10)) in
  if negb (bool_decide (state p = RUNNABLE)) || (max_time p <=? proc_time) then
    when (max_time p <=? proc_time) (
      let* now := curr_time in
      set_proc i (upd_total_time (fun _ => s32 (now - init_time p))) ;;
      let* now := curr_time in
      set_proc i (upd_init_time (fun _ => now))) ;;
    ret (inl (S i))
  else
    let* highP := find_highP i in
    priority_enter c highP ;;
    swtch ;;
    leave c ;;
    ret (inl (S highP)).

(** Every step back in the table costs a context switch, which bounds the
    iterations by the budget. *)
Definition priority_round (c : nat) : M unit :=
  sti ;;
  acquire L_ptable ;;
  let* q := set_max_time in
  modify (upd_proc_quantum (fun _ => q)) ;;
  let* n := gets budget in
  iter (S (NPROC * (n + 2))) (fun i =>
    if (i <? NPROC)%nat then priority_step c i else ret (inr tt)) 0%nat ;;
  release L_ptable.

(** [rounds] iterations of the endless loop. *)
Definition scheduler (fuel rounds : nat) : M unit :=
  let* c := mycpu in
  set_cpu c (upd_c_proc (fun _ => None)) ;;
  match SCHEDULER with
  | LOTTERY => iter rounds (fun f => let* f := lottery_round fuel c f in ret (inl f)) 1
  | PRIORITY => iter rounds (fun _ => priority_round c ;; ret (inl tt)) tt
  end.
End sched.

(** ** Who wins the lottery *)

Definition runnable (p : proc) : bool := bool_decide (state p = RUNNABLE).

(** The walk of [lottery_round] as a function of the table. *)
Fixpoint lottery_pick (winner passed : Z) (t : list proc) : option nat :=
  match t with
  | [] => None
  | p :: t =>
      if runnable p then
        let passed := s32 (passed + tickets p) in
        if passed <? winner then S <$> lottery_pick winner passed t else Some 0%nat
      else S <$> lottery_pick winner passed t
  end.

(** The tickets in the draw: those of the runnable processes. *)
Definition stake (p : proc) : Z := if runnable p then tickets p else 0.
Definition all_tickets (t : list proc) : Z := zsum (stake <$> t).

(** No process has a negative number of tickets, and the sum is a number that
    [random_at_most] accepts. *)
Definition tickets_ok (t : list proc) : Prop :=
  Forall (fun p => 0 <= stake p) t /\ all_tickets t <= RAND_MAX.

Lemma tickets_ok_cons p t :
  tickets_ok (p :: t) -> 0 <= stake p /\ tickets_ok t /\ all_tickets (p :: t) = stake p + all_tickets t.
Proof.
  intros [Hf Hs]. apply list.Forall_cons in Hf as [Hp Hf].
  change (all_tickets (p :: t)) with (stake p + all_tickets t) in *.
  split_and!; [done | split; [done | lia] | done].
Qed.

Lemma all_tickets_nonneg t : Forall (fun p => 0 <= stake p) t -> 0 <= all_tickets t.
Proof. intros H. apply zsum_nonneg. by apply Forall_fmap. Qed.

Lemma all_tickets_none t : Forall (fun q => runnable q = false) t -> all_tickets t = 0.
Proof.
  induction 1 as [|x l Hx _ IHl]; [done|].
  change (all_tickets (x :: l)) with (stake x + all_tickets l). rewrite IHl.
  unfold stake. by rewrite Hx.
Qed.

(** The process before whose last ticket the winning number falls. *)
Lemma lottery_pick_spec w t passed :
  tickets_ok t -> 0 <= passed -> passed + all_tickets t <= RAND_MAX ->
  forall i, lottery_pick w passed t = Some i <->
    exists p, t !! i = Some p /\ runnable p = true /\
      w <= passed + all_tickets (take (S i) t) /\
      (passed + all_tickets (take i t) < w \/ Forall (fun q => runnable q = false) (take i t)).
Proof.
  revert passed. induction t as [|p t IH]; intros passed Hok Hp Hs i; simpl lottery_pick.
  { split; [done | intros (? & ? & _); done]. }
  apply tickets_ok_cons in Hok as (H0 & Hok & Hsum). rewrite Hsum in Hs.
  pose proof (all_tickets_nonneg t (proj1 Hok)) as Ht.
  assert (forall n, all_tickets (take (S n) (p :: t)) = stake p + all_tickets (take n t)) as Htk by done.
  assert (forall n, 0 <= all_tickets (take n t)) as Hnn.
  { intros n. apply all_tickets_nonneg, Forall_take, Hok. }
  unfold stake in *. destruct (runnable p) eqn:Er.
  - rewrite s32_small by (unfold RAND_MAX in Hs; lia).
    destruct (Z.ltb_spec (passed + tickets p) w) as [Hlt|Hge].
    + destruct i as [|i].
      { split; [intros (? & _ & ?)%fmap_Some; lia|]. intros (q & Hq & _ & Hw & _).
        rewrite Htk in Hw. simpl in Hw. unfold all_tickets in Hw. simpl in Hw. lia. }
      rewrite fmap_Some. split.
      * intros (j & Hj & [= ->]). apply IH in Hj as (q & Hq & Hr & Hw & Hfst); [|done|lia|lia].
        exists q. rewrite !Htk. split_and!; try done; [lia|]. left.
        destruct Hfst as [Hfst|Hnone]; [lia|].
        rewrite (all_tickets_none _ Hnone). lia.
      * intros (q & Hq & Hr & Hw & Hfst). exists i. split; [|done]. apply IH; [done|lia|lia|].
        rewrite !Htk in *. exists q. split_and!; try done; [lia|].
        destruct Hfst as [Hfst|Hnone]; [left; lia|]. apply list.Forall_cons in Hnone as [Hn _]. congruence.
    + split.
      * intros [= <-]. exists p. rewrite !Htk. split_and!; try done; [|by right].
        unfold all_tickets. simpl. lia.
      * intros (q & Hq & Hr & Hw & Hfst). destruct i as [|i]; [done|]. exfalso.
        destruct Hfst as [Hfst|Hnone].
        { rewrite Htk in Hfst. specialize (Hnn i). lia. }
        apply list.Forall_cons in Hnone as [Hn _]. congruence.
  - destruct i as [|i].
    { split; [intros (? & _ & ?)%fmap_Some; lia|]. intros (q & [= <-] & ? & _). congruence. }
    rewrite fmap_Some. split.
    + intros (j & Hj & [= ->]). apply IH in Hj as (q & Hq & Hr & Hw & Hfst); [|done|lia|lia].
      exists q. rewrite !Htk. split_and!; try done. destruct Hfst as [Hfst|Hnone]; [by left|right].
      by apply list.Forall_cons.
    + intros (q & Hq & Hr & Hw & Hfst). exists i. split; [|done]. apply IH; [done|lia|lia|].
      rewrite !Htk in *. exists q. split_and!; try done.
      destruct Hfst as [Hfst|Hnone]; [by left|right]. by apply list.Forall_cons in Hnone as [_ ?].
Qed.

Lemma lottery_pick_some w t passed :
  tickets_ok t -> 0 <= passed -> passed + all_tickets t <= RAND_MAX ->
  w <= passed + all_tickets t -> Exists (fun p => runnable p = true) t ->
  is_Some (lottery_pick w passed t).
Proof.
  revert passed. induction t as [|p t IH]; intros passed Hok Hp Hs Hw Hex; [by apply List.Exists_nil in Hex|].
  apply tickets_ok_cons in Hok as (H0 & Hok & Hsum). rewrite Hsum in Hs, Hw.
  pose proof (all_tickets_nonneg t (proj1 Hok)) as Ht. simpl. unfold stake in *.
  destruct (runnable p) eqn:Er.
  - rewrite s32_small by (unfold RAND_MAX in Hs; lia).
    destruct (Z.ltb_spec (passed + tickets p) w) as [Hlt|]; [|by eexists].
    apply fmap_is_Some, IH; try done; try lia.
    destruct (find_index runnable t) as [j|] eqn:Ef.
    + apply find_index_Some in Ef as [(q & Hq & Hrq) _]. apply List.Exists_exists.
      exists q. split; [|done]. by eapply list_elem_of_In, list_elem_of_lookup_2.
    + apply find_index_None, all_tickets_none in Ef. lia.
  - apply fmap_is_Some, IH; try done; try lia.
    apply List.Exists_cons in Hex as [|Hex]; [congruence|]. done.
Qed.

(** The share of a process: how many of the numbers [random_at_most] may draw
    make it win. *)
Definition winning_numbers (t : list proc) (i : nat) : list Z :=
  filter (fun w => lottery_pick w 0 t = Some i) (seqZ 0 (all_tickets t + 1)).

Lemma winning_numbers_length t i p :
  tickets_ok t -> t !! i = Some p -> runnable p = true ->
  Z.of_nat (length (winning_numbers t i)) =
    tickets p + (if forallb (fun q => negb (runnable q)) (take i t) then 1 else 0).
Proof.
  intros Hok Hp Hr. pose proof Hok as [Hnn Hmax].
  assert (all_tickets (take (S i) t) = all_tickets (take i t) + tickets p) as HS.
  { unfold all_tickets. rewrite !fmap_take. rewrite (zsum_take_S _ i (stake p)).
    - unfold stake. by rewrite Hr.
    - by rewrite list_lookup_fmap, Hp. }
  assert (0 <= all_tickets (take i t)) as HB by (apply all_tickets_nonneg, Forall_take, Hnn).
  assert (all_tickets (take (S i) t) <= all_tickets t) as HT.
  { unfold all_tickets. rewrite fmap_take. apply zsum_take_le. by apply Forall_fmap. }
  assert (0 <= tickets p) as Hpt.
  { pose proof (Forall_lookup_1 _ _ _ _ Hnn Hp) as Hs. unfold stake in Hs. by rewrite Hr in Hs. }
  assert (forall w, lottery_pick w 0 t = Some i <->
    w <= all_tickets (take (S i) t) /\
    (all_tickets (take i t) < w \/ forallb (fun q => negb (runnable q)) (take i t) = true)) as Hspec.
  { intros w. rewrite lottery_pick_spec by (done || lia).
    assert (Forall (fun q => runnable q = false) (take i t) <->
      forallb (fun q => negb (runnable q)) (take i t) = true) as Hfb.
    { rewrite forallb_forall, List.Forall_forall.
      split; intros Hq x Hx; specialize (Hq x Hx); by destruct (runnable x). }
    setoid_rewrite Hfb. split.
    - intros (q & Hq & _ & Hw & Hfst). split; [lia | done].
    - intros [Hw Hfst]. exists p. split_and!; try done; lia. }
  unfold winning_numbers. destruct (forallb _ _) eqn:E.
  - rewrite (filter_interval _ _ 0 (tickets p + 1)); [lia | lia | lia |].
    assert (all_tickets (take i t) = 0) as HB0.
    { apply all_tickets_none. apply List.Forall_forall. intros x Hx. by apply negb_true_iff, (proj1 (forallb_forall _ _) E). }
    intros w Hw. rewrite Hspec. intuition lia.
  - rewrite (filter_interval _ _ (all_tickets (take i t) + 1) (all_tickets (take (S i) t) + 1)); [lia|lia|lia|].
    intros w Hw. rewrite Hspec. intuition (congruence || lia).
Qed.

(** ** The round as a whole *)

(** What the CPU and the process look like when the scheduler switches to slot
    [i]: the process is running with a full time slice. *)
Definition lottery_start (p : proc) : proc :=
  upd_timeslice (fun _ => INTERV) (upd_counter (fun n => s32 (n + 1)) (upd_state (fun _ => RUNNING) p)).

Definition start_of (s : scheduler_kind) : proc -> proc :=
  match s with
  | LOTTERY => lottery_start
  | PRIORITY => upd_state (fun _ => RUNNING)
  end.

Section lottery.
Context `{Machine} (c : nat).

Definition entered (start : proc -> proc) (i : nat) (pr : proc) (k : kernel) : kernel :=
  upd_ptable (alter start i) (uvm c pr (upd_cpus (alter (upd_c_proc (fun _ => Some i)) c) k)).

Definition lottery_dispatch := entered lottery_start.

(** A process that may be dispatched has a kernel stack and a page table. *)
Definition dispatchable (t : list proc) : Prop :=
  Forall (fun p => runnable p = true -> kstack p <> 0 /\ pgdir p <> 0) t.

Lemma lottery_enter_eq i pr k :
  cpu_ok c k -> 0 < depth c k -> ptable k !! i = Some pr -> kstack pr <> 0 -> pgdir pr <> 0 ->
  lottery_enter c i k = Ret tt (lottery_dispatch i pr k).
Proof.
  intros Hok Hd Hpr Hks Hpg. pose proof (cpu_ok_lt _ _ Hok) as Hlt. unfold lottery_enter, set_cpu. mrun.
  mcall (switchuvm_eq c i pr) by first
    [ done
    | by apply (alter_cpu_ok (upd_c_proc (fun _ => Some i)))
    | by rewrite (alter_cpu_depth (upd_c_proc (fun _ => Some i))) ].
  rewrite set_proc_eq by in_table. unfold lottery_dispatch, entered. f_equal. kernel_eq.
  by rewrite !list_alter_twice.
Qed.

Lemma count_tickets_eq k :
  ptable_ok k -> tickets_ok (ptable k) -> count_tickets k = Ret (all_tickets (ptable k)) k.
Proof.
  intros Hk [Hnn Hmax]. unfold count_tickets. rewrite for_fold_procs by done. f_equal.
  rewrite <- (Z.add_0_l (all_tickets _)). revert Hmax.
  assert (forall t s, Forall (fun p => 0 <= stake p) t -> 0 <= s -> s + all_tickets t <= RAND_MAX ->
    foldl (fun s p => if bool_decide (state p = RUNNABLE) then s32 (s + tickets p) else s) s t
    = s + all_tickets t) as Hgen.
  { induction t as [|p t IH]; intros s Ht Hs Hmax; simpl.
    { unfold all_tickets. simpl. lia. }
    apply list.Forall_cons in Ht as [Hp Ht]. pose proof (all_tickets_nonneg t Ht).
    change (all_tickets (p :: t)) with (stake p + all_tickets t) in *.
    unfold stake, runnable in *. destruct (bool_decide (state p = RUNNABLE)).
    - rewrite s32_small by (unfold RAND_MAX in Hmax; lia). rewrite IH; [lia | done | lia | lia].
    - rewrite IH; [lia | done | lia | lia]. }
  intros Hmax. apply Hgen; [done | lia | lia].
Qed.

Definition lottery_step (w : Z) (p : proc) (passed : Z) : option Z :=
  if negb (runnable p) then Some passed else
  let passed := s32 (passed + tickets p) in
  if passed <? w then Some passed else None.

Lemma lottery_step_pick w passed t :
  match scan_table (lottery_step w) passed t with
  | inl _ => lottery_pick w passed t = None
  | inr i => lottery_pick w passed t = Some i
  end.
Proof.
  revert passed. induction t as [|p t IH]; intros passed; [done|]. simpl.
  unfold lottery_step at 1. destruct (runnable p); simpl.
  - destruct (s32 (passed + tickets p) <? w); [|done].
    specialize (IH (s32 (passed + tickets p))). destruct (scan_table _ _ t); by rewrite IH.
  - specialize (IH passed). destruct (scan_table _ _ t); by rewrite IH.
Qed.

Definition irq_on (k : kernel) : kernel := upd_hw (upd_eflags_if (fun _ => true)) k.

(** From the second round on interrupts are off when the lock is taken. *)
Definition round_begin (found : Z) (k : kernel) : kernel :=
  if found =? 0 then upd_hw (upd_eflags_if (fun _ => false)) k else k.

Lemma irq_ok b k : depth c k = 0 -> cpu_ok c k -> cpu_ok c (upd_hw (upd_eflags_if (fun _ => b)) k).
Proof.
  intros Hd (Hn & Hc & cp & Hcp & Hcli & Hoff). split_and!; [done | done |].
  exists cp. split_and!; [done | done |]. unfold depth in Hd. rewrite Hcp in Hd. lia.
Qed.

Lemma only_mt_inv k k' : only_mt k k' -> exists m i, k' = upd_mti (fun _ => i) (upd_mt (fun _ => m) k).
Proof. intros ->. by eexists _, _. Qed.

Lemma round_begin_ok found k m i :
  depth c k = 0 -> cpu_ok c k -> lock_free L_ptable k ->
  let k' := round_begin found (upd_mti (fun _ => i) (upd_mt (fun _ => m) (irq_on k))) in
  cpu_ok c k' /\ lock_free L_ptable k' /\ depth c k' = 0 /\ ptable k' = ptable k.
Proof.
  intros Hd Hok Hl k'. unfold k', round_begin. destruct (found =? 0).
  - split_and!; try done. exact (irq_ok false k Hd Hok).
  - split_and!; try done. exact (irq_ok true k Hd Hok).
Qed.

(** After the switch: back in the kernel's address space, the table unlocked. *)
Definition round_end : M Z :=
  leave c ;;
  release L_ptable ;;
  ret 0.

Lemma lottery_walk_eq w k :
  ptable_ok k ->
  lottery_walk c w k =
    match scan_table (lottery_step w) 0 (ptable k) with
    | inl s => Ret (inl s) k
    | inr i => bind (lottery_enter c i ;; swtch ;; leave c) (fun b => ret (inr b)) k
    end.
Proof.
  intros Hk. apply for_return_scan; [done|].
  intros j p s Hp. mcall get_proc_eq. unfold lottery_step, runnable.
  destruct (bool_decide (state p = RUNNABLE)); [|done]. simpl.
  destruct (s32 (s + tickets p) <? w); [done|].
  unfold bind. destruct (lottery_enter c j k); try done.
  destruct (swtch _); try done. by destruct (leave c _) as [[] ?| | | | |].
Qed.

Lemma lottery_loop w k :
  cpu_ok c k -> lock_free L_ptable k -> ptable_ok k -> dispatchable (ptable k) ->
  forall i, lottery_pick w 0 (ptable k) = Some i ->
  exists pr, ptable k !! i = Some pr /\ runnable pr = true /\
  (let* r := lottery_walk c w in release L_ptable ;; ret 0) (acq L_ptable c k) =
  (swtch ;; round_end) (lottery_dispatch i pr (acq L_ptable c k)).
Proof.
  intros Hok Hl Hk Hdis i Hpick. set (k1 := acq L_ptable c k).
  pose proof (lottery_step_pick w 0 (ptable k)) as Hs. rewrite Hpick in Hs.
  destruct (scan_table (lottery_step w) 0 (ptable k)) as [|i'] eqn:Es; [done|].
  injection Hs as <-.
  assert (exists pr, ptable k !! i = Some pr /\ runnable pr = true) as (pr & Hpr & Hrun).
  { clear -Hpick. revert i Hpick. generalize 0 as passed, (ptable k) as t.
    intros passed t. revert passed. induction t as [|p t IH]; intros passed i; [done|]. simpl.
    destruct (runnable p) eqn:Er.
    - destruct (_ <? w); [|intros [= <-]; by exists p].
      intros (j & Hj & ->)%fmap_Some. eauto.
    - intros (j & Hj & ->)%fmap_Some. eauto. }
  exists pr. split_and!; [done | done |].
  destruct (Forall_lookup_1 _ _ _ _ Hdis Hpr Hrun) as [Hks Hpg].
  unfold bind at 1. rewrite lottery_walk_eq by done. change (ptable k1) with (ptable k). rewrite Es. rewrite !bind_assoc.
  erewrite bind_Ret.
  2:{ apply lottery_enter_eq; try done; [by apply acq_ok|].
      unfold k1. rewrite acq_depth by done. pose proof (depth_nonneg _ _ Hok). lia. }
  unfold round_end, bind. destruct (swtch _) as [[] k2| | | | |]; try done. by destruct (leave c k2).
Qed.

(** A number that nobody owns: nothing happens. *)
Lemma lottery_loop_none w k :
  cpu_ok c k -> lock_free L_ptable k -> ptable_ok k -> lottery_pick w 0 (ptable k) = None ->
  (let* r := lottery_walk c w in release L_ptable ;; ret 0) (acq L_ptable c k) = Ret 0 (touch c k).
Proof.
  intros Hok Hl Hk Hpick. pose proof (lottery_step_pick w 0 (ptable k)) as Hs. rewrite Hpick in Hs.
  unfold bind at 1. rewrite lottery_walk_eq by done. change (ptable (acq L_ptable c k)) with (ptable k).
  destruct (scan_table (lottery_step w) 0 (ptable k)); [|done].
  mcall (unrelated_release id ltac:(done) c L_ptable k). unfold ret. f_equal. by apply rel_acq.
Qed.

(** The total as the code adds it up. *)
Definition counted_tickets (t : list proc) : Z :=
  foldl (fun s p => if runnable p then s32 (s + tickets p) else s) 0 t.

Lemma counted_tickets_eq k : ptable_ok k -> count_tickets k = Ret (counted_tickets (ptable k)) k.
Proof. intros Hk. unfold count_tickets. by rewrite for_fold_procs. Qed.

Lemma lottery_round_start fuel found k :
  ptable_ok k ->
  lottery_round fuel c found k =
    (let* winner := random_at_most fuel (counted_tickets (ptable k)) in
     when (found =? 0) cli ;;
     acquire L_ptable ;;
     let* r := lottery_walk c winner in release L_ptable ;; ret 0) (irq_on k).
Proof. intros Hk. unfold lottery_round, sti. mrun. by rewrite (bind_Ret _ _ _ _ _ (counted_tickets_eq (irq_on k) Hk)). Qed.

Lemma lottery_pick_none w t :
  tickets_ok t -> w <= all_tickets t -> lottery_pick w 0 t = None -> Forall (fun p => runnable p = false) t.
Proof.
  intros Ht Hw Hn. apply Forall_lookup. intros i p Hp. destruct (runnable p) eqn:E; [|done].
  destruct (lottery_pick_some w t 0) as [j Hj]; [done | lia | apply Ht | lia | | congruence].
  apply List.Exists_exists. exists p. split; [|done]. by eapply list_elem_of_In, list_elem_of_lookup_2.
Qed.

Lemma lottery_round_eq fuel found k :
  cpu_ok c k -> depth c k = 0 -> lock_free L_ptable k -> ptable_ok k -> mt_ok k ->
  tickets_ok (ptable k) -> dispatchable (ptable k) ->
  match random_at_most fuel (all_tickets (ptable k)) (irq_on k) with
  | Ret w k1 =>
      0 <= w <= all_tickets (ptable k) /\
      match lottery_pick w 0 (ptable k) with
      | Some i => exists pr, ptable k !! i = Some pr /\ runnable pr = true /\
          lottery_round fuel c found k =
            (swtch ;; round_end) (lottery_dispatch i pr (acq L_ptable c (round_begin found k1)))
      | None => Forall (fun p => runnable p = false) (ptable k) /\
          lottery_round fuel c found k = Ret 0 (touch c (round_begin found k1))
      end
  | Diverge k1 => lottery_round fuel c found k = Diverge k1
  | _ => False
  end.
Proof.
  intros Hok Hd Hl Hk Hmt Htk Hdis. rewrite lottery_round_start by done.
  assert (counted_tickets (ptable k) = all_tickets (ptable k)) as ->.
  { pose proof (count_tickets_eq k Hk Htk) as E. rewrite counted_tickets_eq in E by done. congruence. }
  pose proof (all_tickets_nonneg _ (proj1 Htk)) as Hnn.
  pose proof (random_at_most_ok fuel (all_tickets (ptable k)) (irq_on k) Hmt (conj Hnn (proj2 Htk))) as Hr.
  destruct (random_at_most _ _ (irq_on k)) as [w k1| | | | |] eqn:Er; try done;
    [|unfold bind at 1; by rewrite Er].
  rewrite (bind_Ret _ _ _ _ _ Er). clear Er. destruct Hr as (Hw & Hmt1 & Honly). split; [done|].
  apply only_mt_inv in Honly as (m & n & ->).
  destruct (round_begin_ok found k m n Hd Hok Hl) as (Hok2 & Hl2 & Hd2 & Hp2).
  set (k2 := round_begin found _) in *. assert (ptable_ok k2) as Hk2 by (unfold ptable_ok; by rewrite Hp2).
  assert (forall o, (let* r := lottery_walk c w in release L_ptable ;; ret 0) (acq L_ptable c k2) = o ->
    (when (found =? 0) cli ;; acquire L_ptable ;; let* r := lottery_walk c w in release L_ptable ;; ret 0)
      (upd_mti (fun _ => n) (upd_mt (fun _ => m) (irq_on k))) = o) as Hstart.
  { intros o <-. unfold k2, round_begin in *. destruct (found =? 0); mrun.
    - unfold cli. mrun. by rewrite (bind_Ret _ _ _ _ _ (acquire_eq c L_ptable _ Hok2 Hl2)).
    - by rewrite (bind_Ret _ _ _ _ _ (acquire_eq c L_ptable _ Hok2 Hl2)). }
  destruct (lottery_pick w 0 (ptable k)) as [i|] eqn:Hi.
  - destruct (lottery_loop w k2 Hok2 Hl2 Hk2) with (i := i) as (pr & Hpr & Hrun & Heq); [by rewrite Hp2..|].
    rewrite Hp2 in Hpr. exists pr. split_and!; [done | done|]. by apply Hstart.
  - split; [by apply (lottery_pick_none w); [|lia|]|]. apply Hstart, lottery_loop_none; try done. by rewrite Hp2.
Qed.

(** A negative total: the number is never drawn, and the round does not come to
    an end. *)
Lemma lottery_round_negative fuel found k :
  ptable_ok k -> mt_ok k -> - 2 ^ 31 <= counted_tickets (ptable k) < 0 ->
  exists k', lottery_round fuel c found k = Fault "divide error" k' \/ lottery_round fuel c found k = Diverge k'.
Proof.
  intros Hk Hmt Hneg. rewrite lottery_round_start by done. unfold bind at 1.
  pose proof (random_at_most_negative fuel _ (irq_on k) Hmt Hneg) as Hr. destruct (_ =? -1).
  - rewrite Hr. eexists. by left.
  - destruct Hr as [k' E]. exists k'. right. unfold bind at 1. by rewrite E.
Qed.
End lottery.

(** ** What the scheduler promises to the process it switches to *)

Section entered.
Context `{Machine} (c : nat).

(** The interface [Resumes] of Proc.v: the process finds itself running on this
    CPU, with the table lock, and no other, held for it. *)
Lemma entered_resumed start i pr k :
  cpu_ok c k -> depth c k = 0 -> ptable_ok k ->
  resumed c i (entered c start i pr (acq L_ptable c k)).
Proof.
  intros Hok Hd Hk.
  assert (cpu_ok c (entered c start i pr (acq L_ptable c k))) as Hok'.
  { exact (uvm_ok c pr _ (alter_cpu_ok (upd_c_proc (fun _ => Some i)) ltac:(done) ltac:(done) c _
      (acq_ok c L_ptable k Hok))). }
  split; [|exact (acq_mine c L_ptable k)]. split_and!; [done | |].
  - unfold ptable_ok, entered. rec_simpl. rewrite length_alter. exact Hk.
  - destruct Hok as (_ & _ & cp & Hcp & _). unfold depth in Hd. rewrite Hcp in Hd.
    destruct (acq_c_proc c L_ptable k cp Hcp) as (cp' & Hcp' & _ & Hn').
    exists (uvm_cpu (ts_addr c) pr (upd_c_proc (fun _ => Some i) cp')).
    split_and!; [|done|].
    + unfold entered, uvm. rec_simpl. by rewrite !list_lookup_alter_eq, Hcp'.
    + change (ncli cp' = 1). lia.
Qed.

(** The hardware: the task state names the process's kernel stack and the page
    table register its page directory. *)
Lemma entered_hw start i pr k cp :
  cpus k !! c = Some cp ->
  let k' := entered c start i pr k in
  cr3 (hw k') = V2P (pgdir pr) /\
  exists cp', cpus k' !! c = Some cp' /\ ts_esp0 cp' = u32 (kstack pr + KSTACKSIZE) /\
    c_proc cp' = Some i.
Proof.
  intros Hcp k'. split; [done|].
  exists (uvm_cpu (ts_addr c) pr (upd_c_proc (fun _ => Some i) cp)). split_and!; [|done|done].
  unfold k', entered, uvm. rec_simpl. by rewrite !list_lookup_alter_eq, Hcp.
Qed.

(** ** Who runs under PRIORITY *)

Definition better (t : list proc) (h j : nat) : nat :=
  match t !! j, t !! h with
  | Some pj, Some ph => if runnable pj && (priority ph <? priority pj) then j else h
  | _, _ => h
  end.

Definition highest (t : list proc) (i : nat) : nat := foldl (better t) i (seq 0 (length t)).

Lemma find_highP_eq i k :
  ptable_ok k -> (i < NPROC)%nat -> find_highP i k = Ret (highest (ptable k) i) k.
Proof.
  intros Hk Hi. unfold find_highP, highest, procs. rewrite Hk.
  assert (forall l h, (forall j, j ∈ l -> (j < NPROC)%nat) -> (h < NPROC)%nat ->
    for_fold l (fun j highP =>
      let* p1 := get_proc j in
      if negb (bool_decide (state p1 = RUNNABLE)) then ret highP else
      let* h := get_proc highP in
      ret (if priority h <? priority p1 then j else highP)) h k =
    Ret (foldl (better (ptable k)) h l) k) as Hgen.
  { induction l as [|j l IH]; intros h Hl Hh; [done|]. simpl.
    destruct (lookup_lt_is_Some_2 (ptable k) j) as [pj Hpj].
    { rewrite Hk. apply Hl. left. }
    destruct (lookup_lt_is_Some_2 (ptable k) h) as [ph Hph]; [by rewrite Hk|].
    assert (Hlt : (better (ptable k) h j < NPROC)%nat).
    { unfold better. rewrite Hpj, Hph. destruct (_ && _); [apply Hl; left | done]. }
    mcall get_proc_eq. fold (runnable pj).
    assert (Hb : better (ptable k) h j = if runnable pj && (priority ph <? priority pj) then j else h).
    { unfold better. by rewrite Hpj, Hph. }
    destruct (runnable pj); simpl in *; mrun.
    - mcall get_proc_eq. rewrite <- Hb. apply IH; [|done]. intros x Hx. apply Hl. by right.
    - rewrite <- Hb at 1. apply IH; [|done]. intros x Hx. apply Hl. by right. }
  apply Hgen; [|done]. intros j Hj%elem_of_seq. lia.
Qed.

(** The choice is runnable, no runnable process has a higher priority, and
    among equals the walk keeps the process it came from. *)
Lemma highest_spec t i p :
  t !! i = Some p -> runnable p = true ->
  exists ph, t !! highest t i = Some ph /\ runnable ph = true /\
    (forall j pj, t !! j = Some pj -> runnable pj = true -> priority pj <= priority ph) /\
    (highest t i = i \/ priority p < priority ph).
Proof.
  intros Hi Hr. unfold highest.
  assert (forall l h ph, t !! h = Some ph -> runnable ph = true -> (h = i \/ priority p < priority ph) ->
    exists ph', t !! foldl (better t) h l = Some ph' /\ runnable ph' = true /\
      priority ph <= priority ph' /\
      (forall j pj, j ∈ l -> t !! j = Some pj -> runnable pj = true -> priority pj <= priority ph') /\
      (foldl (better t) h l = i \/ priority p < priority ph')) as Hgen.
  { induction l as [|j l IH]; intros h ph Hh Hrh Hor; simpl.
    - exists ph. split_and!; try done; try lia. intros j pj Hj. by apply not_elem_of_nil in Hj.
    - assert (exists ph2, t !! better t h j = Some ph2 /\ runnable ph2 = true /\ priority ph <= priority ph2 /\
        (forall pj, t !! j = Some pj -> runnable pj = true -> priority pj <= priority ph2) /\
        (better t h j = i \/ priority p < priority ph2)) as (ph2 & H1 & H2 & H3 & H4 & H5).
      { unfold better. rewrite Hh. destruct (t !! j) as [pj|] eqn:Hj.
        - destruct (runnable pj) eqn:Erj; simpl.
          + destruct (Z.ltb_spec (priority ph) (priority pj)).
            * exists pj. split_and!; try done; try lia.
              -- intros ? [= <-]. lia.
              -- right. destruct Hor as [->|]; [|lia]. assert (ph = p) as -> by congruence. lia.
            * exists ph. split_and!; try done; try lia. intros ? [= <-]. lia.
          + exists ph. split_and!; try done; try lia. intros ? [= <-]. congruence.
        - exists ph. split_and!; try done; lia. }
      destruct (IH _ _ H1 H2 H5) as (ph' & Hl1 & Hl2 & Hl3 & Hl4 & Hl5).
      exists ph'. split_and!; try done; [lia|].
      intros j' pj' [->|Hj']%elem_of_cons Hpj Hrj; [specialize (H4 _ Hpj Hrj); lia | eauto]. }
  destruct (Hgen (seq 0 (length t)) i p Hi Hr (or_introl eq_refl)) as (ph & ? & ? & _ & Hmax & ?).
  exists ph. split_and!; try done. intros j pj Hj Hrj. apply (Hmax j); try done.
  apply elem_of_seq. pose proof (lookup_lt_Some _ _ _ Hj). lia.
Qed.

Definition priority_dispatch := entered c (upd_state (fun _ => RUNNING)).

Lemma priority_enter_eq i pr k :
  cpu_ok c k -> 0 < depth c k -> ptable k !! i = Some pr -> kstack pr <> 0 -> pgdir pr <> 0 ->
  priority_enter c i k = Ret tt (priority_dispatch i pr k).
Proof.
  intros Hok Hd Hpr Hks Hpg. pose proof (cpu_ok_lt _ _ Hok) as Hlt. unfold priority_enter, set_cpu. mrun.
  mcall (switchuvm_eq c i pr) by first
    [ done
    | by apply (alter_cpu_ok (upd_c_proc (fun _ => Some i)))
    | by rewrite (alter_cpu_depth (upd_c_proc (fun _ => Some i))) ].
  by rewrite set_proc_eq by in_table.
Qed.

(** The time, in tenths of ticks, since the quantum of [p] began. *)
Definition spent (k : kernel) (p : proc) : Z :=
  s32 (s32 (s32 (ticks k) * 10) - s32 (init_time p * 10)).

(** Starting a new quantum. *)
Definition restart (now : Z) (p : proc) : proc :=
  upd_init_time (fun _ => now) (upd_total_time (fun _ => s32 (now - init_time p)) p).

Lemma priority_step_eq i p k :
  cpu_ok c k -> 0 < depth c k -> lock_free L_ticks k -> ptable_ok k ->
  dispatchable (ptable k) -> ptable k !! i = Some p ->
  if runnable p && (spent k p <? max_time p)
  then exists ph, let h := highest (ptable k) i in
    ptable k !! h = Some ph /\ runnable ph = true /\
    (forall j pj, ptable k !! j = Some pj -> runnable pj = true -> priority pj <= priority ph) /\
    (h = i \/ priority p < priority ph) /\
    priority_step c i k = (swtch ;; leave c ;; ret (inl (S h))) (priority_dispatch h ph k)
  else priority_step c i k =
    Ret (inl (S i))
      (if max_time p <=? spent k p then upd_ptable (alter (restart (s32 (ticks k))) i) k else k).
Proof.
  intros Hok Hd Hl Hk Hdis Hp.
  assert (forall f, unrelated f -> lock_free L_ticks (f k) -> curr_time (f k) = Ret (s32 (ticks (f k))) (f k)) as Hct.
  { intros f Hf Hlf. rewrite (curr_time_eq c) by (done || by apply (unrelated_ok f)).
    by rewrite touch_deep by (by apply (unrelated_ok f) || by rewrite (unrelated_depth f)). }
  unfold priority_step. mcall (Hct id). change (id k) with k. mcall get_proc_eq.
  fold (runnable p). cbv zeta. fold (spent k p).
  rewrite (Z.ltb_antisym (max_time p) (spent k p)).
  destruct (runnable p) eqn:Er; simpl; [destruct (max_time p <=? spent k p) eqn:Et; simpl|
    destruct (max_time p <=? spent k p) eqn:Et; simpl; [|reflexivity]].
  1,3: mrun; mcall (Hct id); change (id k) with k; mcall (Hct (upd_ptable (alter (upd_total_time (fun _ => s32 (s32 (ticks k) - init_time p))) i)));
    unfold ret; f_equal; kernel_eq; rewrite list_alter_twice; apply list_alter_ext; [|done];
    intros x Hx; assert (x = p) as -> by congruence; done.
  destruct (highest_spec _ _ _ Hp Er) as (ph & Hph & Hrh & Hmax & Hor).
  exists ph. split_and!; try done.
  destruct (Forall_lookup_1 _ _ _ _ Hdis Hph Hrh) as [Hks Hpg].
  mcall find_highP_eq by (first [done | rewrite <- Hk; by eapply lookup_lt_Some]).
  by mcall (priority_enter_eq (highest (ptable k) i) ph).
Qed.
End entered.

(** ** Properties *)

Section properties.
Context `{Machine} (c : nat).

(** C14: a lottery round, when no runnable process has a negative number of
    tickets and their sum is at most RAND_MAX, draws a number from 0 to the sum
    and switches to the process that owns it, the one [lottery_pick] names, with
    the table locked, and then unlocks it; when no process is runnable it
    changes nothing but the generator and the interrupt flag.  The only other
    outcome is that the draws of the run do not suffice.  When the total that
    the code adds up is negative, which a user can bring about, the round never
    comes to an end: the kernel divides by zero or draws for ever. *)
Theorem lottery_round_dispatch fuel found k :
  cpu_ok c k -> depth c k = 0 -> lock_free L_ptable k -> ptable_ok k -> mt_ok k -> dispatchable (ptable k) ->
  (tickets_ok (ptable k) ->
   match random_at_most fuel (all_tickets (ptable k)) (irq_on k) with
   | Ret w k1 =>
       0 <= w <= all_tickets (ptable k) /\
       match lottery_pick w 0 (ptable k) with
       | Some i => exists pr, ptable k !! i = Some pr /\ runnable pr = true /\
           lottery_round fuel c found k =
             (swtch ;; round_end c) (lottery_dispatch c i pr (acq L_ptable c (round_begin found k1)))
       | None => Forall (fun p => runnable p = false) (ptable k) /\
           lottery_round fuel c found k = Ret 0 (touch c (round_begin found k1))
       end
   | Diverge k1 => lottery_round fuel c found k = Diverge k1
   | _ => False
   end) /\
  (- 2 ^ 31 <= counted_tickets (ptable k) < 0 ->
   exists k', lottery_round fuel c found k = Fault "divide error" k' \/ lottery_round fuel c found k = Diverge k').
Proof.
  intros Hok Hd Hl Hk Hmt Hdis. split; intros Ht; [by apply lottery_round_eq | by apply lottery_round_negative].
Qed.

(** The winner is the runnable process among whose tickets the number falls:
    number [w] picks slot [i] exactly when the tickets up to and including [i]
    reach [w] and those before it do not, or nothing before it is runnable. *)
Theorem lottery_pick_winner t w i :
  tickets_ok t ->
  lottery_pick w 0 t = Some i <->
  exists p, t !! i = Some p /\ runnable p = true /\
    w <= all_tickets (take (S i) t) /\
    (all_tickets (take i t) < w \/ Forall (fun q => runnable q = false) (take i t)).
Proof.
  intros Hok. rewrite (lottery_pick_spec w t 0 Hok) by (try apply Hok; lia). done.
Qed.

(** How fair the lottery is: of the numbers that may be drawn, each runnable
    process owns as many as it has tickets, except that the first runnable
    process of the table owns one more. *)
Theorem lottery_shares t i p :
  tickets_ok t -> t !! i = Some p -> runnable p = true ->
  Z.of_nat (length (winning_numbers t i)) =
    tickets p + (if forallb (fun q => negb (runnable q)) (take i t) then 1 else 0).
Proof. apply winning_numbers_length. Qed.

(** The way each scheduler enters the process it has chosen. *)
Definition enter (s : scheduler_kind) : nat -> nat -> M unit :=
  match s with
  | LOTTERY => lottery_enter
  | PRIORITY => priority_enter
  end.

(** C30: both schedulers keep the promise processes rely on ([Resumes]): at the
    switch the chosen process is the CPU's current one, interrupts are off, the
    table lock and no other is held, CR3 and the task state are the process's,
    and its state is RUNNING; only the lottery gives it a time slice. *)
Theorem dispatch_resumes s i pr k :
  cpu_ok c k -> depth c k = 0 -> ptable_ok k -> ptable k !! i = Some pr ->
  kstack pr <> 0 -> pgdir pr <> 0 ->
  exists k', enter s c i (acq L_ptable c k) = Ret tt k' /\
  resumed c i k' /\ eflags_if (hw k') = false /\ cr3 (hw k') = V2P (pgdir pr) /\
  (exists cp, cpus k' !! c = Some cp /\ ts_esp0 cp = u32 (kstack pr + KSTACKSIZE)) /\
  (exists p', ptable k' !! i = Some p' /\ state p' = RUNNING /\
     timeslice p' = match s with LOTTERY => INTERV | PRIORITY => timeslice pr end).
Proof.
  intros Hok Hd Hk Hpr Hks Hpg. pose proof Hok as (_ & _ & cp & Hcp & _).
  destruct (acq_c_proc c L_ptable k cp Hcp) as (cp' & Hcp' & _).
  destruct (entered_hw c (start_of s) i pr _ cp' Hcp') as (Hcr & cp2 & Hcp2 & Hesp & _).
  exists (entered c (start_of s) i pr (acq L_ptable c k)).
  split_and!; [| by apply entered_resumed | done | done | by exists cp2 |].
  - pose proof (acq_ok c L_ptable k Hok). pose proof (acq_depth c L_ptable k Hok).
    destruct s; [apply lottery_enter_eq | apply priority_enter_eq]; done || lia.
  - exists (start_of s pr). split_and!; [|by destruct s|by destruct s].
    unfold entered. rec_simpl. rewrite list_lookup_alter_eq.
    change (ptable _) with (ptable k). by rewrite Hpr.
Qed.

(** C35: a step of the priority scheduler either switches to a runnable process
    that no runnable process exceeds in priority, which it does when slot [i]
    is runnable and has time left, or it leaves every process alone except that
    an expired quantum at slot [i] starts again. *)
Theorem priority_step_dispatch i p k :
  cpu_ok c k -> 0 < depth c k -> lock_free L_ticks k -> ptable_ok k ->
  dispatchable (ptable k) -> ptable k !! i = Some p ->
  if runnable p && (spent k p <? max_time p)
  then exists ph, let h := highest (ptable k) i in
    ptable k !! h = Some ph /\ runnable ph = true /\
    (forall j pj, ptable k !! j = Some pj -> runnable pj = true -> priority pj <= priority ph) /\
    (h = i \/ priority p < priority ph) /\
    priority_step c i k = (swtch ;; leave c ;; ret (inl (S h))) (priority_dispatch c h ph k)
  else priority_step c i k =
    Ret (inl (S i))
      (if max_time p <=? spent k p then upd_ptable (alter (restart (s32 (ticks k))) i) k else k).
Proof. apply priority_step_eq. Qed.
End properties.

Section quantum.
Context `{R : Resumes} (c : nat).

(** C32: the time slice of the lottery: a process dispatched with [INTERV] ticks
    keeps the CPU for [INTERV - 1] clock ticks and hands it over, runnable, at
    the next one. *)
Theorem lottery_quantum p pr k :
  running c 0 p k -> lock_free L_ptable k -> ptable k !! p = Some (start_of LOTTERY pr) ->
  let k1 := spends (Z.to_nat (INTERV - 1)) p (touch c k) in
  yields (Z.to_nat (INTERV - 1)) k = Ret tt k1 /\
  exists k2, switched_out c p k2 /\
    (exists p2, ptable k2 !! p = Some p2 /\ state p2 = RUNNABLE) /\
    yield k1 = match budget k with
               | O => Blocked (bump p k2)
               | S n => Ret tt (rel L_ptable (resume_cpu n (bump p k2)) (after_switch n c p k2))
               end.
Proof.
  intros Hr Hl Hpr k1. set (pr' := start_of LOTTERY pr) in *. assert (timeslice pr' = INTERV) as Hts by done.
  clearbody pr'. clear pr. rename pr' into pr.
  assert (running c 0 p k1 /\ lock_free L_ptable k1 /\ budget k1 = budget k /\
    ptable k1 !! p = Some (upd_timeslice (fun _ => 1) pr)) as (Hr1 & Hl1 & Hb1 & Hp1).
  { unfold k1. change (Z.to_nat (INTERV - 1)) with 4%nat. simpl spends. split_and!; try done.
    - unfold spend. do 4 (apply running_ptable; [intros; apply length_alter|]). by apply running_touch.
    - unfold spend. rec_simpl. rewrite !list_lookup_alter_eq.
      change (ptable (touch c k)) with (ptable k). rewrite Hpr. simpl. f_equal.
      destruct pr. simpl in Hts. rewrite Hts. reflexivity. }
  split.
  - apply (yields_keep _ c p pr); try done; [|unfold INTERV; lia].
    intros i Hi. rewrite Hts. unfold INTERV in *. rewrite s32_small by lia. lia.
  - destruct (yield_switch c p _ k1 Hr1 Hl1 Hp1 eq_refl) as [Hs Hy].
    eexists. split; [exact Hs|]. rewrite <- Hb1. split; [|exact Hy].
    unfold spend. rec_simpl. rewrite !list_lookup_alter_eq.
    change (ptable (acq _ _ _)) with (ptable k1). rewrite Hp1. by eexists.
Qed.

(** C40: the priority scheduler does not preempt.  A process that it dispatches
    keeps the [timeslice] it had, and when that is not positive, as it is when the
    table starts with 0 and nothing but [yield] changes it, the process stays on
    the CPU through any number of clock ticks that does not count the slice down
    all the way round to 0: 2^32 of them, less those spent before in the slot. *)
Theorem priority_never_preempts i pr k n :
  cpu_ok c k -> depth c k = 0 -> ptable_ok k -> lock_free L_ptable k -> ptable k !! i = Some pr ->
  kstack pr <> 0 -> pgdir pr <> 0 -> - 2 ^ 31 <= timeslice pr <= 0 ->
  (0 < n)%nat -> Z.of_nat n < 2 ^ 32 + timeslice pr ->
  exists k1, priority_enter c i (acq L_ptable c k) = Ret tt k1 /\
    let k2 := rel L_ptable c k1 in
    running c 0 i k2 /\
    yields n k2 = Ret tt (spends n i (touch c k2)) /\
    exists p', ptable (spends n i (touch c k2)) !! i = Some p' /\ state p' = RUNNING /\
      timeslice p' = s32 (timeslice pr - Z.of_nat n).
Proof.
  intros Hok Hd Hk Hl Hpr Hks Hpg Hts Hn Hmax.
  pose proof (acq_ok c L_ptable k Hok). pose proof (acq_depth c L_ptable k Hok).
  exists (priority_dispatch c i pr (acq L_ptable c k)). split; [by apply priority_enter_eq; [|lia|..]|].
  set (k1 := priority_dispatch c i pr (acq L_ptable c k)). intros k2.
  destruct (entered_resumed c (upd_state (fun _ => RUNNING)) i pr k Hok Hd Hk) as [Hr Hm].
  assert (running c 0 i k2) as Hr2 by exact (running_rel c L_ptable 1 i k1 ltac:(lia) Hr).
  assert (ptable k2 !! i = Some (upd_state (fun _ => RUNNING) pr)) as Hp2.
  { unfold k2, k1, priority_dispatch, entered. change (ptable (rel L_ptable c ?x)) with (ptable x). rec_simpl.
    rewrite list_lookup_alter_eq. change (ptable _) with (ptable k). by rewrite Hpr. }
  split_and!; [done | |].
  - apply (yields_keep _ c i (upd_state (fun _ => RUNNING) pr)); try done.
    intros j Hj. change (timeslice (upd_state _ pr)) with (timeslice pr). unfold s32. Z.div_mod_to_equations. lia.
  - destruct (spends_slot n i (touch c k2) _ Hp2) as (p' & Hp' & Hst & Ht). exists p'. by destruct n; [lia|].
Qed.
End quantum.

(** *** Concrete instances *)

(** Slot 0 runnable with ten tickets and priority 1, slot 1 with twenty and 2. *)
Definition demo_proc (n pr : Z) : proc :=
  upd_state (fun _ => RUNNABLE) (upd_tickets (fun _ => n) (upd_priority (fun _ => pr)
    (upd_kstack (fun _ => 0x80200000) (upd_pgdir (fun _ => 0x80201000)
      (upd_pid (fun _ => pr) (upd_max_time (fun _ => 5000) zero_proc)))))).
Definition demo_table : list proc :=
  demo_proc 10 1 :: demo_proc 20 2 :: repeat zero_proc 62.
Definition demo : kernel := upd_ptable (fun _ => demo_table) boot.

Lemma demo_tickets : tickets_ok demo_table.
Proof.
  split; [|vm_compute; discriminate]. repeat (apply list.Forall_cons; split; [vm_compute; discriminate|]).
  constructor.
Qed.

Lemma demo_dispatchable : dispatchable demo_table.
Proof. repeat (apply list.Forall_cons; split; [vm_compute; done|]). constructor. Qed.

Lemma demo_runnable : Exists (fun p => runnable p = true) demo_table.
Proof. by left. Qed.

Lemma lottery_round_dispatch_witness :
  match random_at_most 3 30 (irq_on demo) with
  | Ret w k1 => 0 <= w <= 30 /\ is_Some (lottery_pick w 0 demo_table)
  | Diverge k1 => @lottery_round (alone LOTTERY) 3 0 1 demo = Diverge k1
  | _ => False
  end.
Proof.
  pose proof (@lottery_round_dispatch (alone LOTTERY) 0 3 1 demo boot_cpu_ok eq_refl (boot_free _)
    eq_refl boot_mt_ok demo_dispatchable) as [Hw _]. specialize (Hw demo_tickets).
  change (all_tickets (ptable demo)) with 30 in Hw. destruct (random_at_most _ _ _); try done.
  destruct Hw as (Hw & Hp). split; [done|]. change (ptable demo) with demo_table in Hp.
  destruct (lottery_pick a 0 demo_table); [done|]. destruct Hp as [Hf _]. by inversion Hf.
Defined.

Lemma lottery_pick_winner_witness :
  lottery_pick 11 0 demo_table = Some 1%nat <->
  exists p, demo_table !! 1%nat = Some p /\ runnable p = true /\
    11 <= all_tickets (take 2 demo_table) /\
    (all_tickets (take 1 demo_table) < 11 \/ Forall (fun q => runnable q = false) (take 1 demo_table)).
Proof. exact (lottery_pick_winner demo_table 11 1 demo_tickets). Defined.

Lemma lottery_shares_witness :
  Z.of_nat (length (winning_numbers demo_table 0)) = 11 /\
  Z.of_nat (length (winning_numbers demo_table 1)) = 20.
Proof.
  split.
  - exact (lottery_shares demo_table 0 (demo_proc 10 1) demo_tickets eq_refl eq_refl).
  - exact (lottery_shares demo_table 1 (demo_proc 20 2) demo_tickets eq_refl eq_refl).
Defined.

Lemma dispatch_resumes_witness :
  exists k', @enter (alone LOTTERY) LOTTERY 0 1 (acq L_ptable 0 demo) = Ret tt k' /\
    resumed 0 1 k' /\ cr3 (hw k') = 0x201000.
Proof.
  destruct (@dispatch_resumes (alone LOTTERY) 0 LOTTERY 1 (demo_proc 20 2) demo boot_cpu_ok eq_refl
    eq_refl eq_refl ltac:(done) ltac:(done)) as (k' & Hrun & Hr & _ & Hc & _).
  exists k'. split_and!; [exact Hrun | exact Hr | exact Hc].
Defined.

Lemma priority_step_dispatch_witness :
  exists ph, ptable demo !! 1%nat = Some ph /\ priority ph = 2 /\
    @priority_step (alone PRIORITY) 0 0 (acq L_ptable 0 demo) =
      (@swtch (alone PRIORITY) ;; leave 0 ;; ret (inl 2%nat))
        (@priority_dispatch (alone PRIORITY) 0 1 ph (acq L_ptable 0 demo)).
Proof.
  destruct (@priority_step_dispatch (alone PRIORITY) 0 0 (demo_proc 10 1) (acq L_ptable 0 demo)
    (acq_ok 0 L_ptable demo boot_cpu_ok) eq_refl (boot_free L_ticks) eq_refl demo_dispatchable eq_refl)
    as (ph & Hph & _ & _ & _ & Hrun).
  assert (Some (demo_proc 20 2) = Some ph) as Hp by exact Hph.
  exists ph. split; [exact Hph|]. split; [|exact Hrun].
  apply (f_equal (fun o => default 0 (priority <$> o))) in Hp. exact (eq_sym Hp).
Defined.

(** Process 0 of the table on the CPU. *)
Definition demo_running (s : scheduler_kind) : kernel :=
  on_cpu 0 0 (upd_ptable (fun _ => start_of s (demo_proc 10 1) :: repeat zero_proc 63) boot).

Lemma demo_running_ok s : running 0 0 0 (demo_running s).
Proof. split_and!; [exact (on_cpu_ok 0 0 ltac:(lia)) | reflexivity |]. eexists. by split_and!. Qed.

Lemma lottery_quantum_witness :
  exists k2, @switched_out 0 0 k2 /\
    @yield (alone LOTTERY) (spends 4 0 (touch 0 (demo_running LOTTERY))) = Blocked (bump 0 k2).
Proof.
  destruct (@lottery_quantum (alone LOTTERY) (alone_resumes LOTTERY) 0 0 (demo_proc 10 1) (demo_running LOTTERY)
    (demo_running_ok LOTTERY) (boot_free _) eq_refl) as (_ & k2 & Hs & _ & Hy).
  exists k2. split; [exact Hs | exact Hy].
Defined.

Lemma priority_never_preempts_witness :
  exists k1 p', @priority_enter (alone PRIORITY) 0 1 (acq L_ptable 0 demo) = Ret tt k1 /\
    @yields (alone PRIORITY) 1000 (rel L_ptable 0 k1) = Ret tt (spends 1000 1 (touch 0 (rel L_ptable 0 k1))) /\
    ptable (spends 1000 1 (touch 0 (rel L_ptable 0 k1))) !! 1%nat = Some p' /\ timeslice p' = -1000.
Proof.
  destruct (@priority_never_preempts (alone PRIORITY) 0 1 (demo_proc 20 2) demo 1000 boot_cpu_ok eq_refl eq_refl
    (boot_free _) eq_refl ltac:(done) ltac:(done) ltac:(by vm_compute) ltac:(lia) ltac:(by vm_compute)) as (k1 & Hrun & _ & Hy & p' & Hp & _ & Ht).
  by exists k1, p'.
Defined.
