(* ===== verification/Sleeplock.v ===== *)
(** sleeplock.c: long-term locks whose waiters sleep. *)

From Stdlib Require Import FunctionalExtensionality.
From S2P Require Import Prelude Memory Kernel Spinlock Boot Proc.

Section sleeplock.
Context `{Machine}.

Definition set_sleeplock (s : slid) (f : sleeplock -> sleeplock) : M unit :=
  modify (upd_sleeplocks (fun t x => if decide (x = s) then f (t x) else t x)).

Definition initsleeplock (s : slid) (nm : string) : M unit :=
  initlock (L_sleep s) "sleep lock" ;;
  set_sleeplock s (fun lk => Sleeplock (sl_locked lk) nm (sl_pid lk)) ;;
  set_sleeplock s (fun lk => Sleeplock 0 (sl_name lk) (sl_pid lk)) ;;
  set_sleeplock s (fun lk => Sleeplock (sl_locked lk) (sl_name lk) 0).

Definition mypid : M Z :=
  let* p := curproc in
  let* pr := get_proc p in
  ret (pid pr).

Definition acquiresleep (s : slid) : M unit :=
  acquire (L_sleep s) ;;
  sleep_loop (
    let* lk := gets (fun k => sleeplocks k s) in
    if truthy (sl_locked lk)
    then sleep (CSleeplock s) (Some (L_sleep s)) ;; ret None
    else ret (Some tt)) ;;
  set_sleeplock s (fun lk => Sleeplock 1 (sl_name lk) (sl_pid lk)) ;;
  let* p := mypid in
  set_sleeplock s (fun lk => Sleeplock (sl_locked lk) (sl_name lk) p) ;;
  release (L_sleep s).

Definition releasesleep (s : slid) : M unit :=
  acquire (L_sleep s) ;;
  set_sleeplock s (fun lk => Sleeplock 0 (sl_name lk) (sl_pid lk)) ;;
  set_sleeplock s (fun lk => Sleeplock (sl_locked lk) (sl_name lk) 0) ;;
  wakeup (CSleeplock s) ;;
  release (L_sleep s).

(** [r = lk->locked && (lk->pid == myproc()->pid)]: the right operand is only
    evaluated when the lock is taken. *)
Definition holdingsleep (s : slid) : M bool :=
  acquire (L_sleep s) ;;
  let* lk := gets (fun k => sleeplocks k s) in
  let* r := (if truthy (sl_locked lk)
             then let* p := mypid in ret (sl_pid lk =? p)
             else ret false) in
  release (L_sleep s) ;;
  ret r.
End sleeplock.

(** ** Sleep locks without contention

    [quiet c p k]: process [p] executes on CPU [c] and nobody holds a spin
    lock. *)

Definition quiet (c p : nat) (k : kernel) : Prop :=
  running c 0 p k /\ (forall l, lock_free l k) /\ (p < NPROC)%nat.

Definition pid_of (p : nat) (k : kernel) : Z :=
  match ptable k !! p with Some pr => pid pr | None => 0 end.

Definition upd_sleep (s : slid) (f : sleeplock -> sleeplock) (k : kernel) : kernel :=
  upd_sleeplocks (fun t x => if decide (x = s) then f (t x) else t x) k.

Section quiet.
Context `{Machine} (c p : nat).

Lemma quiet_ok k : quiet c p k -> cpu_ok c k.
Proof. intros [(Hok & _) _]. exact Hok. Qed.

Lemma quiet_touch k : quiet c p k -> quiet c p (touch c k).
Proof. intros (Hr & Hl & Hp). split_and!; [by apply running_touch | exact Hl | done]. Qed.

Lemma quiet_unrelated f k : unrelated f -> ptable (f k) = ptable k -> quiet c p k -> quiet c p (f k).
Proof.
  intros Hf Ht ((Hok & Hk & Hcp) & Hl & Hp). destruct (Hf k) as (_ & Hc & _ & Hlo).
  split_and!; [split_and!| |done].
  - by apply unrelated_ok.
  - unfold ptable_ok. by rewrite Ht.
  - by rewrite Hc.
  - intros l. unfold lock_free. rewrite Hlo. apply Hl.
Qed.

Lemma quiet_ptable g k :
  (forall t, length (g t) = length t) -> quiet c p k -> quiet c p (upd_ptable g k).
Proof. intros Hg (Hr & Hl & Hp). split_and!; [by apply running_ptable | exact Hl | done]. Qed.

Lemma quiet_proc k : quiet c p k -> exists pr, ptable k !! p = Some pr /\ pid_of p k = pid pr.
Proof.
  intros ((_ & Hk & _) & _ & Hp). destruct (lookup_lt_is_Some_2 (ptable k) p) as [pr Hpr]; [by rewrite Hk|].
  exists pr. unfold pid_of. by rewrite Hpr.
Qed.

(** Inside a critical section of a quiet state. *)
Lemma mypid_eq l k :
  quiet c p k -> mypid (acq l c k) = Ret (pid_of p k) (acq l c k).
Proof.
  intros Hq. pose proof (quiet_proc _ Hq) as (pr & Hpr & Hpid). destruct Hq as (Hr & _ & _).
  pose proof (running_acq c l 0 p k Hr) as Hr1. pose proof Hr as (Hok & _).
  unfold mypid. mcall (curproc_eq c). rewrite touch_deep.
  - mcall get_proc_eq. by rewrite Hpid.
  - by apply acq_ok.
  - by rewrite (running_depth _ _ _ _ Hr1).
Qed.

Lemma holdingsleep_eq s k :
  quiet c p k ->
  holdingsleep s k =
    Ret (truthy (sl_locked (sleeplocks k s)) && (sl_pid (sleeplocks k s) =? pid_of p k)) (touch c k).
Proof.
  intros Hq. pose proof (quiet_ok _ Hq) as Hok. pose proof Hq as (_ & Hl & _).
  unfold holdingsleep. mcall (acquire_eq c). change (sleeplocks (acq _ c k)) with (sleeplocks k).
  destruct (truthy (sl_locked (sleeplocks k s))); simpl.
  - mcall mypid_eq. mcall (unrelated_release id ltac:(done) c (L_sleep s) k). unfold ret. f_equal.
    by apply rel_acq.
  - mrun. mcall (unrelated_release id ltac:(done) c (L_sleep s) k). unfold ret. f_equal. by apply rel_acq.
Qed.

Lemma unrelated_upd_sleep s f : unrelated (upd_sleep s f).
Proof. done. Qed.

Lemma acquiresleep_eq s k :
  quiet c p k -> sl_locked (sleeplocks k s) = 0 ->
  acquiresleep s k =
    Ret tt (upd_sleep s (fun lk => Sleeplock 1 (sl_name lk) (pid_of p k)) (touch c k)).
Proof.
  intros Hq Hs. pose proof (quiet_ok _ Hq) as Hok. pose proof Hq as (_ & Hl & _).
  unfold acquiresleep. mcall (acquire_eq c).
  assert (forall B (f : unit -> M B), bind (sleep_loop (
    let* lk := gets (fun k => sleeplocks k s) in
    if truthy (sl_locked lk)
    then sleep (CSleeplock s) (Some (L_sleep s)) ;; ret None
    else ret (Some tt))) f (acq (L_sleep s) c k) = f tt (acq (L_sleep s) c k)) as Hloop.
  { intros B f. unfold sleep_loop. mrun. simpl iter. mrun.
    change (sleeplocks (acq _ c k)) with (sleeplocks k). rewrite Hs. reflexivity. }
  rewrite Hloop. unfold set_sleeplock. mrun.
  change (upd_sleeplocks _ (acq (L_sleep s) c k)) with
    (acq (L_sleep s) c (upd_sleep s (fun lk => Sleeplock 1 (sl_name lk) (sl_pid lk)) k)).
  mcall (mypid_eq (L_sleep s)) by (by apply quiet_unrelated).
  set (f := upd_sleep s (fun lk => Sleeplock 1 (sl_name lk) (pid_of p k))).
  match goal with |- release _ ?k1 = _ => assert (k1 = f (acq (L_sleep s) c k)) as -> end.
  { unfold f, upd_sleep. kernel_eq. extensionality x. by destruct (decide (x = s)). }
  rewrite (unrelated_release f ltac:(done)) by done. f_equal.
  change (rel (L_sleep s) c (f (acq (L_sleep s) c k))) with (f (rel (L_sleep s) c (acq (L_sleep s) c k))).
  by rewrite rel_acq.
Qed.

Lemma releasesleep_eq s k :
  quiet c p k ->
  releasesleep s k =
    Ret tt (upd_sleep s (fun lk => Sleeplock 0 (sl_name lk) 0)
      (upd_ptable (fmap (wake (CSleeplock s))) (touch c k))).
Proof.
  intros Hq. pose proof (quiet_ok _ Hq) as Hok. pose proof Hq as ((_ & Hk & _) & Hl & _).
  pose proof (acq_ok c (L_sleep s) k Hok) as Hok1. pose proof (acq_depth c (L_sleep s) k Hok) as Hd1.
  pose proof (depth_nonneg _ _ Hok).
  unfold releasesleep. mcall (acquire_eq c). unfold set_sleeplock. mrun.
  set (g := upd_sleep s (fun lk => Sleeplock 0 (sl_name lk) 0)).
  match goal with |- bind (wakeup _) _ ?k1 = _ => assert (k1 = g (acq (L_sleep s) c k)) as -> end.
  { unfold g, upd_sleep. kernel_eq. extensionality x. by destruct (decide (x = s)). }
  assert (lock_free L_ptable (g (acq (L_sleep s) c k))) as Hlp.
  { unfold lock_free. change (locks (g (acq (L_sleep s) c k))) with (locks (acq (L_sleep s) c k)).
    rewrite acq_other by done. apply Hl. }
  mcall (wakeup_eq c) by (first [exact Hok1 | exact Hlp | exact Hk]).
  set (f := fun k => upd_ptable (fmap (wake (CSleeplock s))) (g k)).
  assert (touch c (g (acq (L_sleep s) c k)) = g (acq (L_sleep s) c k)) as ->.
  { apply (touch_deep c (g (acq (L_sleep s) c k))); [exact Hok1|].
    change (depth c (g (acq (L_sleep s) c k))) with (depth c (acq (L_sleep s) c k)). lia. }
  change (upd_ptable (fmap (wake (CSleeplock s))) (g (acq (L_sleep s) c k))) with (f (acq (L_sleep s) c k)).
  rewrite (unrelated_release f ltac:(done)) by done. f_equal.
  change (rel (L_sleep s) c (f (acq (L_sleep s) c k))) with (f (rel (L_sleep s) c (acq (L_sleep s) c k))).
  by rewrite rel_acq.
Qed.
End quiet.

(** Process 0 on CPU 0 of the booting machine. *)
Lemma boot_quiet : quiet 0 0 (on_cpu 0 0 boot).
Proof.
  split_and!; [split_and!| |unfold NPROC; lia].
  - split_and!; [simpl; lia | reflexivity |]. eexists. split; [reflexivity|]. simpl. lia.
  - reflexivity.
  - by eexists.
  - done.
Qed.
