(* ===== verification/Observe.v ===== *)
(** What the kernel's synchronisation leaves alone: a part [obs] of the state
    that locks, sleeping and waking do not touch changes during a routine only
    where the processes resumed at a context switch change it.  If they change
    it along a preorder [R], so does the routine. *)

From S2P Require Import Prelude Memory Kernel Spinlock Proc.

(** The state a run ends in, whichever way it ends. *)
Definition final {A} (o : outcome A) : kernel :=
  match o with
  | Ret _ k | Panic _ k | Spin _ k | Blocked k | Fault _ k | Diverge k => k
  end.

Definition stopped {A} (o : outcome A) : Prop := forall a k, o <> Ret a k.

(** A sequence either goes on after its first part or stops where that does. *)
Lemma bind_cases {A B} (P : outcome B -> Prop) (m : M A) (f : A -> M B) k :
  (forall a k', m k = Ret a k' -> P (f a k')) ->
  (forall o, final o = final (m k) -> stopped o -> P o) -> P (bind m f k).
Proof.
  intros Hgo Hstop. unfold bind. destruct (m k); [by apply Hgo | by apply Hstop..].
Qed.

(** A part of the state outside the tables of CPUs, locks and processes. *)
Class Blind {T} (obs : kernel -> T) := {
  blind_hw f k : obs (upd_hw f k) = obs k;
  blind_cpus f k : obs (upd_cpus f k) = obs k;
  blind_locks f k : obs (upd_locks f k) = obs k;
  blind_ptable f k : obs (upd_ptable f k) = obs k;
  blind_budget f k : obs (upd_budget f k) = obs k;
}.

Create HintDb moves discriminated.
#[export] Hint Constants Opaque : moves.

Section observe.
Context `{Machine} {T} (obs : kernel -> T) `{!Blind obs} (R : T -> T -> Prop) `{!PreOrder R}.
Context (Hothers : forall n k, R (obs k) (obs (interfere n k))).

Definition moves {A} (m : M A) : Prop := forall k, R (obs k) (obs (final (m k))).

Lemma moves_same {A} (m : M A) : (forall k, obs (final (m k)) = obs k) -> moves m.
Proof. intros Hm k. by rewrite Hm. Qed.

Lemma moves_ret {A} (a : A) : moves (ret a).
Proof. by apply moves_same. Qed.
Lemma moves_gets {A} (f : kernel -> A) : moves (gets f).
Proof. by apply moves_same. Qed.
Lemma moves_panic {A} s : moves (@panic A s).
Proof. by apply moves_same. Qed.
Lemma moves_fault {A} s : moves (@fault A s).
Proof. by apply moves_same. Qed.
Lemma moves_spin {A} l : moves (fun k => @Spin A l k).
Proof. by apply moves_same. Qed.
Lemma moves_slot {A} what (t : kernel -> list A) i : moves (slot what t i).
Proof. apply moves_same. intros k. unfold slot. by case_match. Qed.
Lemma moves_modify f : (forall k, obs (f k) = obs k) -> moves (modify f).
Proof. intros Hf. by apply moves_same. Qed.

Lemma moves_put_slot {A} what (t : kernel -> list A) upd i f :
  (forall g k, obs (upd g k) = obs k) -> moves (put_slot what t upd i f).
Proof.
  intros Hu k. unfold put_slot. destruct (t k !! i); simpl; [by rewrite Hu | done].
Qed.

Lemma moves_bind {A B} (m : M A) (f : A -> M B) : moves m -> (forall a, moves (f a)) -> moves (bind m f).
Proof.
  intros Hm Hf k. specialize (Hm k). unfold bind. destruct (m k) as [a k'| | | | |]; try done.
  etrans; [exact Hm | apply Hf].
Qed.

Lemma moves_when b m : moves m -> moves (when b m).
Proof. destruct b; [done | intros; apply moves_ret]. Qed.

Lemma moves_for_each {I} (l : list I) body : (forall i, moves (body i)) -> moves (for_each l body).
Proof. intros Hb. induction l as [|i l IH]; simpl; [apply moves_ret|]. by apply moves_bind. Qed.

Lemma moves_for_find {I B} (l : list I) (body : I -> M (option B)) :
  (forall i, moves (body i)) -> moves (for_find l body).
Proof.
  intros Hb. induction l as [|i l IH]; simpl; [apply moves_ret|]. apply moves_bind; [done|].
  intros [b|]; [apply moves_ret | done].
Qed.

Lemma moves_iter {S B} fuel (body : S -> M (S + B)) s : (forall s, moves (body s)) -> moves (iter fuel body s).
Proof.
  intros Hb. revert s. induction fuel as [|fuel IH]; intros s; simpl; [by apply moves_same|].
  apply moves_bind; [done|]. intros [s'|b]; [apply IH | apply moves_ret].
Qed.

Lemma moves_sleep_loop {B} (body : M (option B)) : moves body -> moves (sleep_loop body).
Proof.
  intros Hb. unfold sleep_loop. apply moves_bind; [apply moves_gets|]. intros n. apply moves_iter. intros _.
  apply moves_bind; [done|]. intros r. apply moves_ret.
Qed.

Ltac move1 :=
  lazymatch goal with
  | |- moves (bind _ _) => apply moves_bind; [|intros ?]
  | |- moves (if ?b then _ else _) => destruct b
  | |- moves (match ?x with _ => _ end) => destruct x
  | |- moves (for_each _ _) => apply moves_for_each; intros ?
  | |- moves (for_find _ _) => apply moves_for_find; intros ?
  | |- _ => first [apply moves_ret | apply moves_gets | apply moves_panic | apply moves_fault | apply moves_spin
                  | apply moves_slot | apply moves_when | solve [auto with moves]
                  | apply moves_put_slot; intros ? ?; first [apply blind_cpus | apply blind_ptable]
                  | apply moves_modify; intros ?;
                    first [apply blind_hw | apply blind_cpus | apply blind_locks | apply blind_ptable] ]
  end.

(** *** spinlock.c *)

Lemma mycpu_moves : moves mycpu.
Proof. unfold mycpu, readeflags, get_cpu. repeat move1. Qed.
#[local] Hint Resolve mycpu_moves : moves.
Lemma pushcli_moves : moves pushcli.
Proof. unfold pushcli, cli, readeflags, get_cpu, set_cpu. repeat move1. Qed.
Lemma popcli_moves : moves popcli.
Proof. unfold popcli, sti, readeflags, get_cpu, set_cpu. repeat move1. Qed.
#[local] Hint Resolve pushcli_moves popcli_moves : moves.
Lemma holding_moves l : moves (holding l).
Proof. unfold holding. repeat move1. Qed.
#[local] Hint Resolve holding_moves : moves.
Lemma acquire_moves l : moves (acquire l).
Proof. unfold acquire, set_lock. repeat move1. Qed.
Lemma release_moves l : moves (release l).
Proof. unfold release, set_lock. repeat move1. Qed.
Lemma myproc_moves : moves myproc.
Proof. unfold myproc, get_cpu. repeat move1. Qed.
#[local] Hint Resolve acquire_moves release_moves myproc_moves : moves.

(** *** proc.c *)

Lemma get_proc_moves p : moves (get_proc p).
Proof. apply moves_slot. Qed.
Lemma curproc_moves : moves curproc.
Proof. unfold curproc. repeat move1. Qed.
Lemma swtch_moves : moves swtch.
Proof. intros k. unfold swtch. destruct (budget k); simpl; [done|]. rewrite blind_budget. apply Hothers. Qed.
#[local] Hint Resolve get_proc_moves curproc_moves swtch_moves : moves.
Lemma sched_moves : moves sched.
Proof. unfold sched, readeflags, get_cpu, set_cpu, set_proc. repeat move1. Qed.
#[local] Hint Resolve sched_moves : moves.
Lemma run_steps_moves l : Forall moves l -> moves (run_steps l).
Proof. unfold run_steps. induction 1 as [|m l Hm _ IH]; simpl; [apply moves_ret|]. by apply moves_bind. Qed.
Lemma sleep_steps_moves ch lk p : moves (run_steps (sleep_steps ch lk p)).
Proof. apply run_steps_moves. unfold sleep_steps, set_proc. case_bool_decide; cbn [app]; repeat constructor; repeat move1. Qed.
#[local] Hint Resolve sleep_steps_moves : moves.
Lemma sleep_moves ch lk : moves (sleep ch lk).
Proof. unfold sleep, set_proc. repeat move1. Qed.
Lemma wakeup_moves ch : moves (wakeup ch).
Proof. unfold wakeup, wakeup1, set_proc. repeat move1. Qed.
End observe.

(** The last round of a loop: the rounds before it only moved along [R]. *)
Section last_round.
Context {T} (obs : kernel -> T) (R : T -> T -> Prop) `{!PreOrder R}.

Lemma moves_iter_last {S B} fuel (body : S -> M (S + B)) s k b k' :
  (forall s, moves obs R (body s)) -> iter fuel body s k = Ret b k' ->
  exists s1 k1, R (obs k) (obs k1) /\ body s1 k1 = Ret (inr b) k'.
Proof.
  intros Hb. revert s k. induction fuel as [|fuel IH]; intros s k Hrun; simpl in Hrun; [done|].
  apply bind_Ret_inv in Hrun as (r & k1 & Hrun1 & Hrun2). destruct r as [s'|b'].
  - destruct (IH _ _ Hrun2) as (s1 & k2 & HR & Hlast). exists s1, k2. split; [|done].
    etrans; [|exact HR]. specialize (Hb s k). by rewrite Hrun1 in Hb.
  - unfold ret in Hrun2. simplify_eq. by exists s, k.
Qed.

Lemma moves_sleep_loop_last {B} (body : M (option B)) k b k' :
  moves obs R body -> sleep_loop body k = Ret b k' ->
  exists k1, R (obs k) (obs k1) /\ body k1 = Ret (Some b) k'.
Proof.
  intros Hb Hrun. unfold sleep_loop in Hrun. rewrite bind_gets in Hrun.
  apply moves_iter_last in Hrun as (_ & k1 & HR & Hlast).
  - exists k1. split; [done|]. apply bind_Ret_inv in Hlast as ([b'|] & k2 & Hlast & Hr); unfold ret in Hr; by simplify_eq.
  - intros _. apply moves_bind; [done..|]. intros r. by apply moves_ret.
Qed.
End last_round.

(** One step of the proof that a routine moves along [R], for the routines
    above and whatever the context has. *)
Ltac moves1 :=
  lazymatch goal with
  | |- moves _ _ (bind _ _) => apply moves_bind; [try apply _| |intros ?]
  | |- moves _ _ (if ?b then _ else _) => destruct b
  | |- moves _ _ (match ?x with _ => _ end) => destruct x
  | |- moves _ _ (sleep_loop _) => apply moves_sleep_loop; [try apply _|]
  | |- moves _ _ (for_find _ _) => apply moves_for_find; [try apply _|intros ?]
  | |- _ => first [apply moves_ret | apply moves_gets | apply release_moves | apply acquire_moves | apply sleep_moves
                  | apply wakeup_moves | apply curproc_moves | apply get_proc_moves | assumption];
            (try apply _); (try assumption)
  end.
Ltac moves := repeat moves1.
