(* ===== verification/Bio.v ===== *)
(** bio.c: the buffer cache, a doubly linked list of buffers in order of use,
    with memide.c, the driver that keeps the disk in memory.

    [BlockDriver] is what bio.c needs of a driver; memide.c is an instance. *)

From S2P Require Import Prelude Memory KString Kernel Spinlock Proc Sleeplock.

Definition BSIZE : Z := 512.
Definition B_VALID : Z := 2.
Definition B_DIRTY : Z := 4.

(** Slot of [bcache.head]. *)
Definition HEAD : nat := NBUF.

Definition get_buf (b : nat) : M buf := slot "bcache.buf" bcache b.
Definition set_buf (b : nat) (f : buf -> buf) : M unit := put_slot "bcache.buf" bcache upd_bcache b f.

(** [iderw(b)] brings buffer [b] and the disk in step. *)
Class BlockDriver := { iderw : nat -> M unit }.

Section memide.
Context `{Machine}.

(** memide.c: [disk] holds the blocks of [memdisk].  The image and its size in
    bytes are what the linker puts at [_binary_fs_img_start]. *)
Definition memide_ideinit (fs_img : Z -> list Z) (fs_img_size : Z) : M unit :=
  modify (upd_disk (fun _ => fs_img)) ;;
  modify (upd_disksize (fun _ => s32 (u32 fs_img_size / BSIZE))).

Definition memide_ideintr : M unit := ret tt.

Definition memide_iderw (b : nat) : M unit :=
  let* h := holdingsleep (SLbuf b) in
  if negb h then panic "iderw: buf not locked" else
  let* bf := get_buf b in
  if Z.land (b_flags bf) (Z.lor B_VALID B_DIRTY) =? B_VALID then panic "iderw: nothing to do" else
  if negb (b_dev bf =? 1) then panic "iderw: request not for disk 1" else
  let* n := gets disksize in
  if n <=? b_blockno bf then panic "iderw: block out of range" else
  (if truthy (Z.land (b_flags bf) B_DIRTY) then
     set_buf b (upd_b_flags (fun fl => Z.land fl (Z.lnot B_DIRTY))) ;;
     modify (upd_disk (fun d x => if x =? b_blockno bf then b_data bf else d x)) ;;
     modify (upd_dwrites (fun l => l ++ [(b_blockno bf, b_data bf)]))
   else
     let* d := gets (fun k => disk k (b_blockno bf)) in
     set_buf b (upd_b_data (fun _ => d))) ;;
  set_buf b (upd_b_flags (fun fl => Z.lor fl B_VALID)).

Instance memide : BlockDriver := {| iderw := memide_iderw |}.
End memide.

Section bio.
Context `{Machine} `{BlockDriver}.

Definition binit : M unit :=
  initlock L_bcache "bcache" ;;
  set_buf HEAD (upd_b_prev (fun _ => HEAD)) ;;
  set_buf HEAD (upd_b_next (fun _ => HEAD)) ;;
  for_each (seq 0 NBUF) (fun b =>
    let* h := get_buf HEAD in
    set_buf b (upd_b_next (fun _ => b_next h)) ;;
    set_buf b (upd_b_prev (fun _ => HEAD)) ;;
    initsleeplock (SLbuf b) "buffer" ;;
    let* h := get_buf HEAD in
    set_buf (b_next h) (upd_b_prev (fun _ => b)) ;;
    set_buf HEAD (upd_b_next (fun _ => b))).

(** The two walks along the ring, forwards and backwards, from the head until
    a buffer satisfies [p] or the head comes round again. *)
Definition scan (step : buf -> nat) (p : buf -> bool) : M (option nat) :=
  let* h := get_buf HEAD in
  iter (S NBUF) (fun b =>
    if (b =? HEAD)%nat then ret (inr None) else
    let* bf := get_buf b in
    if p bf then ret (inr (Some b)) else ret (inl (step bf))) (step h).

Definition bget (dev blockno : Z) : M nat :=
  acquire L_bcache ;;
  let* r := scan b_next (fun bf => (b_dev bf =? dev) && (b_blockno bf =? blockno)) in
  match r with
  | Some b =>
      set_buf b (upd_b_refcnt (fun n => u32 (n + 1))) ;;
      release L_bcache ;;
      acquiresleep (SLbuf b) ;;
      ret b
  | None =>
      let* r := scan b_prev (fun bf => (b_refcnt bf =? 0) && (Z.land (b_flags bf) B_DIRTY =? 0)) in
      match r with
      | Some b =>
          set_buf b (upd_b_dev (fun _ => dev)) ;;
          set_buf b (upd_b_blockno (fun _ => blockno)) ;;
          set_buf b (upd_b_flags (fun _ => 0)) ;;
          set_buf b (upd_b_refcnt (fun _ => 1)) ;;
          release L_bcache ;;
          acquiresleep (SLbuf b) ;;
          ret b
      | None => panic "bget: no buffers"
      end
  end.

Definition bread (dev blockno : Z) : M nat :=
  let* b := bget dev blockno in
  let* bf := get_buf b in
  when (Z.land (b_flags bf) B_VALID =? 0) (iderw b) ;;
  ret b.

Definition bwrite (b : nat) : M unit :=
  let* h := holdingsleep (SLbuf b) in
  if negb h then panic "bwrite" else
  set_buf b (upd_b_flags (fun fl => Z.lor fl B_DIRTY)) ;;
  iderw b.

(** Unlinks [b] and puts it in front of the list. *)
Definition to_front (b : nat) : M unit :=
  let* bf := get_buf b in
  set_buf (b_next bf) (upd_b_prev (fun _ => b_prev bf)) ;;
  let* bf := get_buf b in
  set_buf (b_prev bf) (upd_b_next (fun _ => b_next bf)) ;;
  let* h := get_buf HEAD in
  set_buf b (upd_b_next (fun _ => b_next h)) ;;
  set_buf b (upd_b_prev (fun _ => HEAD)) ;;
  let* h := get_buf HEAD in
  set_buf (b_next h) (upd_b_prev (fun _ => b)) ;;
  set_buf HEAD (upd_b_next (fun _ => b)).

Definition brelse (b : nat) : M unit :=
  let* h := holdingsleep (SLbuf b) in
  if negb h then panic "brelse" else
  releasesleep (SLbuf b) ;;
  acquire L_bcache ;;
  set_buf b (upd_b_refcnt (fun n => u32 (n - 1))) ;;
  let* bf := get_buf b in
  when (b_refcnt bf =? 0) (to_front b) ;;
  release L_bcache.
End bio.
