(* ===== verification/Cache.v ===== *)
(** What the buffer cache of bio.c promises: the ring of buffers stays a ring,
    a block is in at most one buffer, and reading, writing and releasing
    buffers through the cache reads and writes the blocks of the disk. *)

From Stdlib Require Import FunctionalExtensionality.
From S2P Require Import Prelude Ring Memory KString Kernel Spinlock Boot Proc Sleeplock Bio.

(** ** The ring of bcache *)

Definition nx (t : list buf) (i : nat) : nat := match t !! i with Some bf => b_next bf | None => 0%nat end.
Definition pv (t : list buf) (i : nat) : nat := match t !! i with Some bf => b_prev bf | None => 0%nat end.

Definition ring (t : list buf) (l : list nat) : Prop :=
  length t = S NBUF /\ Permutation l (seq 0 NBUF) /\ linked (nx t) (pv t) HEAD l HEAD.

(** What a buffer holds apart from its links. *)
Definition core (bf : buf) : Z * Z * Z * Z * list Z :=
  (b_flags bf, b_dev bf, b_blockno bf, b_refcnt bf, b_data bf).
Definition same_core (t t' : list buf) : Prop :=
  length t' = length t /\ forall i, core <$> t' !! i = core <$> t !! i.

Lemma same_core_refl t : same_core t t.
Proof. done. Qed.

Lemma same_core_trans t1 t2 t3 : same_core t1 t2 -> same_core t2 t3 -> same_core t1 t3.
Proof. intros [Hl1 H1] [Hl2 H2]. split; [congruence|]. intros i. by rewrite H2. Qed.

Lemma same_core_alter f i t : (forall bf, core (f bf) = core bf) -> same_core t (alter f i t).
Proof.
  intros Hf. split; [by rewrite length_alter|]. intros j. destruct (decide (i = j)) as [->|].
  - rewrite list_lookup_alter_eq. destruct (t !! j); simpl; [by rewrite Hf | done].
  - by rewrite list_lookup_alter_ne.
Qed.

Lemma same_core_step f i t t' :
  (forall bf, core (f bf) = core bf) -> same_core t t' -> same_core t (alter f i t').
Proof. intros Hf Ht. eapply same_core_trans; [exact Ht | by apply same_core_alter]. Qed.

Lemma same_core_lookup t t' i bf :
  same_core t t' -> t !! i = Some bf -> exists bf', t' !! i = Some bf' /\ core bf' = core bf.
Proof.
  intros [_ Hc] Hi. specialize (Hc i). rewrite Hi in Hc. destruct (t' !! i) as [bf'|]; [|done].
  simpl in Hc. exists bf'. split; [done | congruence].
Qed.

Section links.
Implicit Types (t : list buf).

Lemma nx_set_next i v t j : (i < length t)%nat -> nx (alter (upd_b_next (fun _ => v)) i t) j = fn_set i v (nx t) j.
Proof.
  intros Hi. unfold nx, fn_set. destruct (decide (j = i)) as [->|Hne].
  - rewrite list_lookup_alter_eq. destruct (lookup_lt_is_Some_2 _ _ Hi) as [bf ->]. done.
  - by rewrite list_lookup_alter_ne.
Qed.

Lemma pv_set_prev i v t j : (i < length t)%nat -> pv (alter (upd_b_prev (fun _ => v)) i t) j = fn_set i v (pv t) j.
Proof.
  intros Hi. unfold pv, fn_set. destruct (decide (j = i)) as [->|Hne].
  - rewrite list_lookup_alter_eq. destruct (lookup_lt_is_Some_2 _ _ Hi) as [bf ->]. done.
  - by rewrite list_lookup_alter_ne.
Qed.

Lemma nx_alter f i t j : (forall bf, b_next (f bf) = b_next bf) -> nx (alter f i t) j = nx t j.
Proof.
  intros Hf. unfold nx. destruct (decide (j = i)) as [->|Hne].
  - rewrite list_lookup_alter_eq. by destruct (t !! i); simpl.
  - by rewrite list_lookup_alter_ne.
Qed.

Lemma pv_alter f i t j : (forall bf, b_prev (f bf) = b_prev bf) -> pv (alter f i t) j = pv t j.
Proof.
  intros Hf. unfold pv. destruct (decide (j = i)) as [->|Hne].
  - rewrite list_lookup_alter_eq. by destruct (t !! i); simpl.
  - by rewrite list_lookup_alter_ne.
Qed.

Lemma ring_alter f i t l :
  (forall bf, b_next (f bf) = b_next bf /\ b_prev (f bf) = b_prev bf) -> ring t l -> ring (alter f i t) l.
Proof.
  intros Hf (Hlen & Hp & Hl). split_and!; [by rewrite length_alter | done |].
  eapply linked_ext; [| |exact Hl]; intros j _; [apply nx_alter | apply pv_alter]; intros bf; apply Hf.
Qed.

Lemma ring_elem t l b : ring t l -> b ∈ l <-> (b < NBUF)%nat.
Proof. intros (_ & Hp & _). rewrite Hp, elem_of_seq. lia. Qed.

Lemma ring_NoDup t l : ring t l -> NoDup l /\ HEAD ∉ l.
Proof.
  intros Hr. pose proof Hr as (_ & Hp & _). split; [rewrite Hp; apply NoDup_seq|].
  rewrite (ring_elem t) by done. unfold HEAD. lia.
Qed.
End links.

(** ** The operations on the ring *)

Lemma get_buf_eq b bf k : bcache k !! b = Some bf -> get_buf b k = Ret bf k.
Proof. intros Hb. unfold get_buf. by apply slot_eq. Qed.

Lemma bind_set_buf {B} b g (f : unit -> M B) k :
  (b < length (bcache k))%nat -> bind (set_buf b g) f k = f tt (upd_bcache (alter g b) k).
Proof. apply bind_put_slot. Qed.

(** The kernel with another table of buffers. *)
Definition put (t : list buf) (k : kernel) : kernel := upd_bcache (fun _ => t) k.

Lemma put_bcache k : put (bcache k) k = k.
Proof. kernel_eq. Qed.

Lemma set_buf_put {B} b g (f : unit -> M B) t k :
  (b < length t)%nat -> bind (set_buf b g) f (put t k) = f tt (put (alter g b t) k).
Proof. intros Hb. by rewrite bind_set_buf. Qed.

Lemma set_buf_put_eq b g t k : (b < length t)%nat -> set_buf b g (put t k) = Ret tt (put (alter g b t) k).
Proof. intros Hb. unfold set_buf. by rewrite put_slot_eq. Qed.

(** The table after [to_front b]. *)
Definition unlink (b : nat) (t : list buf) : list buf :=
  alter (upd_b_next (fun _ => nx t b)) (pv t b) (alter (upd_b_prev (fun _ => pv t b)) (nx t b) t).
Definition insert_front (b : nat) (t : list buf) : list buf :=
  alter (upd_b_next (fun _ => b)) HEAD (alter (upd_b_prev (fun _ => b)) (nx t HEAD)
    (alter (upd_b_prev (fun _ => HEAD)) b (alter (upd_b_next (fun _ => nx t HEAD)) b t))).

Lemma unlink_core b t : same_core t (unlink b t).
Proof. by do 2 (apply same_core_step; [done|]). Qed.

Lemma insert_front_core b t : same_core t (insert_front b t).
Proof. by do 4 (apply same_core_step; [done|]). Qed.

Lemma same_core_length t t' : same_core t t' -> length t' = length t.
Proof. by intros [? _]. Qed.

(** The neighbours of a node of the ring are nodes of the ring or the head. *)
Lemma ring_neighbours t l1 b l2 :
  ring t (l1 ++ b :: l2) ->
  (nx t b < length t)%nat /\ (pv t b < length t)%nat /\ nx t b <> b /\ pv t b <> b.
Proof.
  intros Hr. pose proof (ring_NoDup _ _ Hr) as [Hnd Hh].
  assert (forall i, i ∈ l1 ++ b :: l2 \/ i = HEAD -> (i < length t)%nat) as Hlt.
  { intros i Hi. pose proof Hr as (-> & _). rewrite (ring_elem t) in Hi by done. unfold HEAD in Hi. lia. }
  pose proof Hr as (_ & _ & [H1 H2]%linked_app). rewrite not_elem_of_app, not_elem_of_cons in Hh.
  apply list.NoDup_app in Hnd as (_ & Hd & [Hb _]%list.NoDup_cons).
  assert (nx t b ∈ l2 \/ nx t b = HEAD) as Hn.
  { destruct l2 as [|y l2]; [right; apply H2|]. destruct H2 as [-> _]. left. left. }
  assert (pv t b ∈ l1 \/ pv t b = HEAD) as Hp.
  { rewrite (linked_pv _ _ _ _ _ H1). destruct (last_of_in HEAD l1); auto. }
  split_and!.
  - apply Hlt. rewrite elem_of_app, elem_of_cons. tauto.
  - apply Hlt. rewrite elem_of_app, elem_of_cons. tauto.
  - intros E. rewrite E in Hn. naive_solver.
  - intros E. rewrite E in Hp. destruct Hp as [Hp|Hp]; [|naive_solver]. apply (Hd b Hp). left.
Qed.

Lemma unlink_links t l1 b l2 :
  ring t (l1 ++ b :: l2) ->
  linked (nx (unlink b t)) (pv (unlink b t)) HEAD (l1 ++ l2) HEAD.
Proof.
  intros Hr. pose proof (ring_NoDup _ _ Hr) as [Hnd Hh]. destruct (ring_neighbours _ _ _ _ Hr) as (Hn & Hp & _).
  pose proof Hr as (_ & _ & Hl). eapply linked_ext; [| |exact (linked_unlink _ _ _ _ _ _ _ Hnd Hh Hh Hl)]; intros i _; unfold unlink.
  - rewrite nx_set_next by (by rewrite length_alter). unfold fn_set. case_decide; [done|]. by apply nx_alter.
  - rewrite pv_alter by done. by apply pv_set_prev.
Qed.

(** The first node of a ring is a buffer, or the head when the ring is empty. *)
Lemma linked_first t l :
  length t = S NBUF -> (forall i, i ∈ l -> (i < NBUF)%nat) -> linked (nx t) (pv t) HEAD l HEAD ->
  (nx t HEAD < length t)%nat.
Proof.
  intros -> Hall Hl. destruct l as [|y l]; [destruct Hl as [-> _]; unfold HEAD; lia|].
  destruct Hl as [-> _]. specialize (Hall y ltac:(left)). lia.
Qed.

Lemma insert_front_links t b l :
  length t = S NBUF -> NoDup (b :: l) -> HEAD ∉ b :: l -> (b < NBUF)%nat ->
  (forall i, i ∈ l -> (i < NBUF)%nat) -> linked (nx t) (pv t) HEAD l HEAD ->
  linked (nx (insert_front b t)) (pv (insert_front b t)) HEAD (b :: l) HEAD.
Proof.
  intros Hlen [Hbl Hnd]%list.NoDup_cons [Hhb Hhl]%not_elem_of_cons Hb Hall Hl.
  assert (nx t HEAD < length t)%nat as Hfirst by (by eapply linked_first).
  eapply linked_ext; [| |eapply (linked_insert (nx t) (pv t) HEAD b l HEAD); done]; intros i _; unfold insert_front.
  - rewrite nx_set_next by (rewrite !length_alter, Hlen; unfold HEAD; lia). apply fn_set_cong.
    rewrite !nx_alter by done. apply nx_set_next. lia.
  - rewrite pv_alter by done. rewrite pv_set_prev by (rewrite !length_alter; done). apply fn_set_cong.
    rewrite pv_set_prev by (rewrite length_alter; lia). apply fn_set_cong. by apply pv_alter.
Qed.

(** Releasing the last reference to a buffer moves it to the front. *)
Lemma to_front_ring t l1 b l2 :
  ring t (l1 ++ b :: l2) -> ring (insert_front b (unlink b t)) (b :: l1 ++ l2).
Proof.
  intros Hr. pose proof (ring_NoDup _ _ Hr) as [Hnd Hh]. pose proof Hr as (Hlen & Hperm & _).
  pose proof (same_core_length _ _ (unlink_core b t)) as Hlu.
  assert (Permutation (b :: l1 ++ l2) (seq 0 NBUF)) as Hp.
  { rewrite <- Hperm. apply Permutation_middle. }
  assert (forall i, i ∈ b :: l1 ++ l2 -> (i < NBUF)%nat) as Hall.
  { intros i. rewrite Hp, elem_of_seq. lia. }
  split_and!; [|done|].
  - rewrite (same_core_length _ _ (insert_front_core b _)). congruence.
  - apply insert_front_links; [congruence | rewrite Hp; apply NoDup_seq | | apply Hall; left | |].
    + intros Hin%Hall. unfold HEAD in Hin. lia.
    + intros i Hi. apply Hall. by right.
    + by apply unlink_links.
Qed.

Lemma to_front_eq b t k l1 l2 :
  ring t (l1 ++ b :: l2) ->
  to_front b (put t k) = Ret tt (put (insert_front b (unlink b t)) k).
Proof.
  intros Hr. destruct (ring_neighbours _ _ _ _ Hr) as (Hn & Hp & Hnb & Hpb).
  pose proof (ring_NoDup _ _ Hr) as [_ Hh]. pose proof Hr as (Hlen & _).
  assert (b < NBUF)%nat as Hb by (apply (ring_elem _ _ _ Hr), elem_of_app; right; left).
  destruct (lookup_lt_is_Some_2 t b) as [bf Hbf]; [lia|].
  assert (b_next bf = nx t b /\ b_prev bf = pv t b) as [En Ep] by (unfold nx, pv; by rewrite Hbf).
  pose proof (same_core_length _ _ (unlink_core b t)) as Hlu.
  assert (nx (unlink b t) HEAD < length (unlink b t))%nat as Hfirst.
  { eapply linked_first; [congruence | | by apply unlink_links]. intros i Hi. apply (ring_elem _ _ _ Hr).
    rewrite elem_of_app, elem_of_cons. apply elem_of_app in Hi. tauto. }
  unfold to_front. mcall get_buf_eq. rewrite En, Ep, set_buf_put by done.
  mcall get_buf_eq by (simpl; by rewrite list_lookup_alter_ne by done).
  rewrite En, Ep, set_buf_put by (by rewrite length_alter). fold (unlink b t).
  destruct (lookup_lt_is_Some_2 (unlink b t) HEAD) as [h Hhd]; [unfold HEAD; lia|].
  assert (b_next h = nx (unlink b t) HEAD) as Eh by (unfold nx; by rewrite Hhd).
  mcall get_buf_eq. rewrite Eh, !set_buf_put by (rewrite ?length_alter; lia).
  assert (HEAD <> b) as Hne by (unfold HEAD; lia).
  mcall get_buf_eq by (simpl; by rewrite !list_lookup_alter_ne by done).
  rewrite Eh, set_buf_put by (rewrite !length_alter; done).
  apply set_buf_put_eq. rewrite !length_alter. unfold HEAD. lia.
Qed.

(** The first buffer of [l] that satisfies [q]. *)
Definition first_buf (q : buf -> bool) (t : list buf) (l : list nat) : option nat :=
  List.find (fun b => match t !! b with Some bf => q bf | None => false end) l.

Lemma scan_walk (step : buf -> nat) (q : buf -> bool) (g g' : nat -> nat) t k l x fuel :
  (forall i bf, t !! i = Some bf -> g i = step bf) ->
  linked g g' x l HEAD -> HEAD ∉ l -> (forall i, i ∈ l -> (i < length t)%nat) -> (length l < fuel)%nat ->
  @iter nat (option nat) fuel (fun b =>
    if (b =? HEAD)%nat then ret (inr None) else
    let* bf := get_buf b in
    if q bf then ret (inr (Some b)) else ret (inl (step bf))) (g x) (put t k)
  = Ret (first_buf q t l) (put t k).
Proof.
  intros Hg. revert x fuel. induction l as [|y l IH]; intros x fuel Hl Hh Hlt Hf;
    (destruct fuel as [|fuel]; [simpl in Hf; lia|]); simpl iter.
  - destruct Hl as [-> _]. by rewrite Nat.eqb_refl.
  - destruct Hl as (-> & _ & Hl). apply not_elem_of_cons in Hh as [Hy Hh].
    rewrite (proj2 (Nat.eqb_neq _ _)) by done.
    destruct (lookup_lt_is_Some_2 t y) as [bf Hbf]; [apply Hlt; left|].
    mcall get_buf_eq. simpl. rewrite Hbf. destruct (q bf); [done|]. mrun.
    rewrite <- (Hg _ _ Hbf). apply IH; [done | done | | simpl in Hf; lia].
    intros i Hi. apply Hlt. by right.
Qed.

Lemma ring_lt t l i : ring t l -> i ∈ l -> (i < length t)%nat.
Proof. intros Hr Hi. pose proof Hr as (-> & _). apply (ring_elem _ _ _ Hr) in Hi. lia. Qed.

Lemma ring_length t l : ring t l -> length l = NBUF.
Proof. intros (_ & Hp & _). by rewrite Hp, length_seq. Qed.

Lemma scan_next_eq q t l k :
  ring t l -> scan b_next q (put t k) = Ret (first_buf q t l) (put t k).
Proof.
  intros Hr. pose proof (ring_NoDup _ _ Hr) as [_ Hh]. pose proof (ring_length _ _ Hr). pose proof Hr as (Hlen & _ & Hl).
  destruct (lookup_lt_is_Some_2 t HEAD) as [h Hhd]; [unfold HEAD; lia|]. unfold scan. mcall get_buf_eq.
  replace (b_next h) with (nx t HEAD) by (unfold nx; by rewrite Hhd).
  apply (scan_walk b_next q (nx t) (pv t)); [|done|done| |lia].
  - intros i bf Hi. unfold nx. by rewrite Hi.
  - intros i. by apply ring_lt.
Qed.

Lemma scan_prev_eq q t l k :
  ring t l -> scan b_prev q (put t k) = Ret (first_buf q t (rev l)) (put t k).
Proof.
  intros Hr. pose proof (ring_NoDup _ _ Hr) as [_ Hh]. pose proof (ring_length _ _ Hr). pose proof Hr as (Hlen & _ & Hl).
  destruct (lookup_lt_is_Some_2 t HEAD) as [h Hhd]; [unfold HEAD; lia|]. unfold scan. mcall get_buf_eq.
  replace (b_prev h) with (pv t HEAD) by (unfold pv; by rewrite Hhd).
  apply (scan_walk b_prev q (pv t) (nx t)).
  - intros i bf Hi. unfold pv. by rewrite Hi.
  - by apply linked_rev.
  - by rewrite list_elem_of_In, <- in_rev, <- list_elem_of_In.
  - intros i. rewrite list_elem_of_In, <- in_rev, <- list_elem_of_In. by apply ring_lt.
  - rewrite length_rev. lia.
Qed.

Lemma first_buf_Some q t l b :
  first_buf q t l = Some b -> b ∈ l /\ exists bf, t !! b = Some bf /\ q bf = true.
Proof.
  intros [Hin Hq]%List.find_some. split; [by apply list_elem_of_In|].
  destruct (t !! b) as [bf|]; [eauto | done].
Qed.

Lemma first_buf_None q t l b bf :
  first_buf q t l = None -> b ∈ l -> t !! b = Some bf -> q bf = false.
Proof.
  intros Hn Hin%list_elem_of_In Hb. pose proof (List.find_none _ _ Hn b Hin) as Hq. simpl in Hq. by rewrite Hb in Hq.
Qed.

(** ** The cache as a view of the disk

    [held] are the buffers the process has locked.  Every other buffer is
    unlocked and unused, holds a block of the root device or nothing, and
    unless it is dirty it holds what is on the disk; no block is in two
    buffers. *)

Definition holds (blk : Z) (bf : buf) : bool := (b_dev bf =? ROOTDEV) && (b_blockno bf =? blk).

Lemma holds_spec blk bf : holds blk bf = true <-> b_dev bf = ROOTDEV /\ b_blockno bf = blk.
Proof. unfold holds. rewrite andb_true_iff, !Z.eqb_eq. done. Qed.

Definition CLEAN : Z := B_VALID.
Definition PINNED : Z := Z.lor B_VALID B_DIRTY.

Record buf_ok (held : list nat) (sl : slid -> sleeplock) (d : Z -> list Z) (q : Z) (b : nat) (bf : buf) : Prop := {
  bo_lock : sl_locked (sl (SLbuf b)) = if decide (b ∈ held) then 1 else 0;
  bo_pid : b ∈ held -> sl_pid (sl (SLbuf b)) = q;
  bo_ref : b_refcnt bf = if decide (b ∈ held) then 1 else 0;
  bo_dev : (b_dev bf = ROOTDEV /\ (b_flags bf = CLEAN \/ b_flags bf = PINNED)) \/
           (b_dev bf <> ROOTDEV /\ b_flags bf = 0 /\ b ∉ held);
  bo_clean : b ∉ held -> b_flags bf = CLEAN -> b_data bf = d (b_blockno bf);
}.

Definition unique (t : list buf) : Prop :=
  forall b b' bf bf', (b < NBUF)%nat -> (b' < NBUF)%nat -> t !! b = Some bf -> t !! b' = Some bf' ->
    b_dev bf = ROOTDEV -> b_dev bf' = ROOTDEV -> b_blockno bf = b_blockno bf' -> b = b'.

Record cache_inv (held : list nat) (t : list buf) (sl : slid -> sleeplock) (d : Z -> list Z) (q : Z) : Prop := {
  ci_buf : forall b bf, (b < NBUF)%nat -> t !! b = Some bf -> buf_ok held sl d q b bf;
  ci_unique : unique t;
  ci_held : NoDup held /\ forall b, b ∈ held -> (b < NBUF)%nat;
}.

(** What the processes see of block [blk]: the buffer it is in, or the disk. *)
Definition content (t : list buf) (d : Z -> list Z) (blk : Z) : list Z :=
  match first_buf (holds blk) t (seq 0 NBUF) with
  | Some b => match t !! b with Some bf => b_data bf | None => [] end
  | None => d blk
  end.

(** A block that [log_write] keeps in the cache. *)
Definition pinned (t : list buf) (blk : Z) : Prop :=
  exists b bf, (b < NBUF)%nat /\ t !! b = Some bf /\ holds blk bf = true /\ b_flags bf = PINNED.

Lemma content_hit t d b bf blk :
  unique t -> (b < NBUF)%nat -> t !! b = Some bf -> holds blk bf = true -> content t d blk = b_data bf.
Proof.
  intros Hu Hb Hbf Hh. unfold content.
  destruct (first_buf (holds blk) t (seq 0 NBUF)) as [b'|] eqn:E.
  - apply first_buf_Some in E as [Hin%elem_of_seq (bf' & Hbf' & Hh')]. rewrite Hbf'.
    apply holds_spec in Hh as [Hd Hn]. apply holds_spec in Hh' as [Hd' Hn'].
    assert (b = b') as -> by (eapply (Hu b b' bf bf'); done || lia). congruence.
  - pose proof (first_buf_None _ _ _ b bf E) as Hf. rewrite elem_of_seq in Hf. rewrite Hf in Hh by (done || lia). done.
Qed.

Lemma content_miss t d blk :
  (forall b bf, (b < NBUF)%nat -> t !! b = Some bf -> holds blk bf = false) -> content t d blk = d blk.
Proof.
  intros Hno. unfold content. destruct (first_buf (holds blk) t (seq 0 NBUF)) as [b'|] eqn:E; [|done].
  apply first_buf_Some in E as [Hin%elem_of_seq (bf' & Hbf' & Hh')].
  rewrite (Hno b' bf') in Hh' by (done || lia). done.
Qed.

Lemma content_cases (t : list buf) blk :
  (exists b bf, (b < NBUF)%nat /\ t !! b = Some bf /\ holds blk bf = true) \/
  (forall b bf, (b < NBUF)%nat -> t !! b = Some bf -> holds blk bf = false).
Proof.
  destruct (first_buf (holds blk) t (seq 0 NBUF)) as [b|] eqn:E.
  - apply first_buf_Some in E as [Hin%elem_of_seq (bf & Hbf & Hh)]. left. exists b, bf. split_and!; [lia|done..].
  - right. intros b bf Hb Hbf. apply (first_buf_None _ _ _ b bf E); [|done]. apply elem_of_seq. lia.
Qed.

(** *** Everything depends on the contents of the buffers, not on the links *)

Lemma core_fields bf bf' :
  core bf' = core bf ->
  b_flags bf' = b_flags bf /\ b_dev bf' = b_dev bf /\ b_blockno bf' = b_blockno bf /\
  b_refcnt bf' = b_refcnt bf /\ b_data bf' = b_data bf.
Proof. unfold core. intros E. injection E as -> -> -> -> ->. done. Qed.

Lemma same_core_sym t t' : same_core t t' -> same_core t' t.
Proof. intros [Hl Hc]. split; [done|]. intros i. by rewrite Hc. Qed.

Lemma content_core t t' d blk : same_core t t' -> unique t -> unique t' -> content t' d blk = content t d blk.
Proof.
  intros Hc Hu Hu'. destruct (content_cases t blk) as [(b & bf & Hb & Hbf & Hh)|Hno].
  - destruct (same_core_lookup _ _ _ _ Hc Hbf) as (bf' & Hbf' & (Ef & Ed & En & Er & Ec)%core_fields).
    rewrite (content_hit t d b bf) by done. rewrite (content_hit t' d b bf'); try done.
    unfold holds in *. by rewrite Ed, En.
  - rewrite (content_miss t) by done. apply content_miss. intros b bf' Hb Hbf'.
    destruct (same_core_lookup _ _ _ _ (same_core_sym _ _ Hc) Hbf') as (bf & Hbf & (Ef & Ed & En & Er & Ec)%core_fields).
    specialize (Hno b bf Hb Hbf). unfold holds in *. by rewrite <- Ed, <- En.
Qed.

Lemma unique_core t t' : same_core t t' -> unique t -> unique t'.
Proof.
  intros Hc%same_core_sym Hu b b' bf bf' Hb Hb' Hbf Hbf' Hd Hd' Hn.
  destruct (same_core_lookup _ _ _ _ Hc Hbf) as (bf2 & Hbf2 & (_ & Ed & En & _)%core_fields).
  destruct (same_core_lookup _ _ _ _ Hc Hbf') as (bf2' & Hbf2' & (_ & Ed' & En' & _)%core_fields).
  eapply (Hu b b' bf2 bf2'); done || congruence.
Qed.

Lemma pinned_core t t' blk : same_core t t' -> pinned t blk -> pinned t' blk.
Proof.
  intros Hc (b & bf & Hb & Hbf & Hh & Hf).
  destruct (same_core_lookup _ _ _ _ Hc Hbf) as (bf' & Hbf' & (Ef & Ed & En & _)%core_fields).
  exists b, bf'. unfold holds in *. rewrite Ef, Ed, En. done.
Qed.

Lemma cache_inv_core held t t' sl d q : same_core t t' -> cache_inv held t sl d q -> cache_inv held t' sl d q.
Proof.
  intros Hc [Hbuf Hu Hh]. split; [|by eapply unique_core|done].
  intros b bf' Hb Hbf'.
  destruct (same_core_lookup _ _ _ _ (same_core_sym _ _ Hc) Hbf') as (bf & Hbf & (Ef & Ed & En & Er & Ec)%core_fields).
  destruct (Hbuf b bf Hb Hbf) as [H1 H2 H3 H4 H5]. split; rewrite <- ?Ef, <- ?Ed, <- ?En, <- ?Er, <- ?Ec; done.
Qed.

(** *** Changing one buffer *)

Section update.
Context (b : nat) (bf bf' : buf) (t : list buf).
Hypothesis Hb : (b < NBUF)%nat.
Hypothesis Hbf : t !! b = Some bf.

Lemma insert_same : <[b := bf']> t !! b = Some bf'.
Proof. apply list_lookup_insert_eq. by eapply lookup_lt_Some. Qed.

Lemma insert_cases b2 bf2 :
  <[b := bf']> t !! b2 = Some bf2 -> (b2 = b /\ bf2 = bf') \/ (b2 <> b /\ t !! b2 = Some bf2).
Proof.
  destruct (decide (b2 = b)) as [->|Hne].
  - rewrite insert_same. intros [= ->]. auto.
  - rewrite list_lookup_insert_ne by done. auto.
Qed.

Lemma unique_insert :
  unique t ->
  (b_dev bf' = ROOTDEV -> forall b2 bf2, b2 <> b -> (b2 < NBUF)%nat -> t !! b2 = Some bf2 ->
     holds (b_blockno bf') bf2 = false) ->
  unique (<[b := bf']> t).
Proof.
  intros Hu Hnew b1 b2 bf1 bf2 Hb1 Hb2 Hl1 Hl2 Hd1 Hd2 Hn.
  apply insert_cases in Hl1 as [[-> ->]|[Hne1 Hl1]]; apply insert_cases in Hl2 as [[-> ->]|[Hne2 Hl2]].
  - done.
  - specialize (Hnew Hd1 b2 bf2 Hne2 Hb2 Hl2). unfold holds in Hnew.
    rewrite Hd2, Z.eqb_refl in Hnew. simpl in Hnew. apply Z.eqb_neq in Hnew. congruence.
  - specialize (Hnew Hd2 b1 bf1 Hne1 Hb1 Hl1). unfold holds in Hnew.
    rewrite Hd1, Z.eqb_refl in Hnew. simpl in Hnew. apply Z.eqb_neq in Hnew. congruence.
  - by eapply (Hu b1 b2 bf1 bf2).
Qed.

Lemma content_insert_hit d' blk :
  unique (<[b := bf']> t) -> holds blk bf' = true -> content (<[b := bf']> t) d' blk = b_data bf'.
Proof. intros Hu Hh. apply (content_hit _ _ b bf' blk Hu Hb insert_same Hh). Qed.

Lemma content_insert_other d d' blk :
  unique t -> unique (<[b := bf']> t) -> holds blk bf' = false -> holds blk bf = false -> d' blk = d blk ->
  content (<[b := bf']> t) d' blk = content t d blk.
Proof.
  intros Hu Hu' Hh' Hh Hd. destruct (content_cases t blk) as [(b2 & bf2 & Hb2 & Hbf2 & Hh2)|Hno].
  - rewrite (content_hit t d b2 bf2) by done. apply (content_hit _ _ b2 bf2); try done.
    rewrite list_lookup_insert_ne; [done|]. congruence.
  - rewrite (content_miss t) by done. rewrite <- Hd. apply content_miss. intros b2 bf2 Hb2 Hl.
    apply insert_cases in Hl as [[-> ->]|[Hne Hl]]; [done | by eapply Hno].
Qed.

Lemma content_evict d' blk :
  unique t -> holds blk bf' = false -> holds blk bf = true -> content (<[b := bf']> t) d' blk = d' blk.
Proof.
  intros Hu Hh' Hh. apply content_miss. intros b2 bf2 Hb2 Hl.
  apply insert_cases in Hl as [[-> ->]|[Hne Hl]]; [done|].
  destruct (holds blk bf2) eqn:E; [|done]. apply holds_spec in E as [Hd2 Hn2]. apply holds_spec in Hh as [Hd Hn].
  destruct Hne. eapply (Hu b2 b bf2 bf); done || congruence.
Qed.

Lemma pinned_insert blk :
  (holds blk bf = true /\ b_flags bf = PINNED <-> holds blk bf' = true /\ b_flags bf' = PINNED) ->
  pinned (<[b := bf']> t) blk <-> pinned t blk.
Proof.
  intros Hiff. split; intros (b2 & bf2 & Hb2 & Hl & Hh & Hf).
  - apply insert_cases in Hl as [[-> ->]|[Hne Hl]]; [exists b, bf | exists b2, bf2]; naive_solver.
  - destruct (decide (b2 = b)) as [->|Hne].
    + exists b, bf'. rewrite insert_same. assert (bf2 = bf) as -> by congruence. naive_solver.
    + exists b2, bf2. rewrite list_lookup_insert_ne by done. done.
Qed.

Lemma cache_inv_insert held held' sl sl' d d' q :
  cache_inv held t sl d q ->
  (forall b2, b2 <> b -> (b2 ∈ held' <-> b2 ∈ held)) ->
  (forall b2, b2 <> b -> sl' (SLbuf b2) = sl (SLbuf b2)) ->
  buf_ok held' sl' d' q b bf' ->
  (forall b2 bf2, b2 <> b -> (b2 < NBUF)%nat -> t !! b2 = Some bf2 -> b_dev bf2 = ROOTDEV ->
     (b_dev bf' = ROOTDEV -> b_blockno bf2 <> b_blockno bf') /\ d' (b_blockno bf2) = d (b_blockno bf2)) ->
  NoDup held' -> (b ∈ held' -> (b < NBUF)%nat) ->
  cache_inv held' (<[b := bf']> t) sl' d' q.
Proof.
  intros [Hbuf Hu [Hnd Hlt]] Hheld Hsl Hok Hoth Hnd' Hb'. split.
  - intros b2 bf2 Hb2 Hl. apply insert_cases in Hl as [[-> ->]|[Hne Hl]]; [done|].
    destruct (Hbuf b2 bf2 Hb2 Hl) as [H1 H2 H3 H4 H5].
    assert (forall x y : Z, (if decide (b2 ∈ held') then x else y) = if decide (b2 ∈ held) then x else y) as Hif.
    { intros x y. specialize (Hheld b2 Hne). repeat case_decide; tauto. }
    split; rewrite ?Hsl, ?Hif by done; try done.
    + intros Hin. apply H2. by apply Hheld.
    + destruct H4 as [H4|(H4 & H4' & Hn)]; [by left|]. right. split_and!; try done. by rewrite Hheld.
    + intros Hn Hfl. rewrite Hheld in Hn by done. rewrite H5 by done.
      destruct H4 as [[Hd _]|(_ & Hz & _)]; [|rewrite Hz in Hfl; discriminate].
      symmetry. by apply (Hoth b2 bf2).
  - apply unique_insert; [done|]. intros Hd b2 bf2 Hne Hb2 Hl. unfold holds.
    destruct (Z.eqb_spec (b_dev bf2) ROOTDEV) as [E|]; [|done]. simpl. apply Z.eqb_neq.
    by apply (Hoth b2 bf2).
  - split; [done|]. intros b2 Hin. destruct (decide (b2 = b)) as [->|Hne]; [done|]. apply Hlt. by apply Hheld.
Qed.
End update.

(** ** The operations *)

Section ops.
Context `{Machine} (c p : nat).
#[local] Existing Instance memide.

Definition take_lock (b : nat) (q : Z) : kernel -> kernel :=
  upd_sleep (SLbuf b) (fun lk => Sleeplock 1 (sl_name lk) q).
Definition drop_lock (b : nat) : kernel -> kernel :=
  upd_sleep (SLbuf b) (fun lk => Sleeplock 0 (sl_name lk) 0).

Lemma quiet_put t k : quiet c p k -> quiet c p (put t k).
Proof. by apply (quiet_unrelated c p (put t)). Qed.

Lemma quiet_take b q k : quiet c p k -> quiet c p (take_lock b q k).
Proof. by apply (quiet_unrelated c p (take_lock b q)). Qed.

Definition wanted (dev blk : Z) (bf : buf) : bool := (b_dev bf =? dev) && (b_blockno bf =? blk).
Definition unused_buf (bf : buf) : bool := (b_refcnt bf =? 0) && (Z.land (b_flags bf) B_DIRTY =? 0).
Definition recycled (dev blk : Z) (bf : buf) : buf :=
  upd_b_refcnt (fun _ => 1) (upd_b_flags (fun _ => 0) (upd_b_blockno (fun _ => blk) (upd_b_dev (fun _ => dev) bf))).

(** The end of [bget]: the table is unlocked and the buffer is locked. *)
Lemma bget_finish b t k :
  quiet c p k -> sl_locked (sleeplocks k (SLbuf b)) = 0 ->
  (release L_bcache ;; acquiresleep (SLbuf b) ;; ret b) (put t (acq L_bcache c k)) =
    Ret b (take_lock b (pid_of p k) (put t (touch c k))).
Proof.
  intros Hq Hs. pose proof (quiet_ok c p _ Hq) as Hok. pose proof Hq as (_ & Hl & _).
  mcall (unrelated_release (put t) ltac:(done) c L_bcache k).
  change (rel L_bcache c (put t (acq L_bcache c k))) with (put t (rel L_bcache c (acq L_bcache c k))).
  rewrite rel_acq by done.
  mcall (acquiresleep_eq c p) by (first [by apply quiet_put, quiet_touch | exact Hs]).
  unfold ret, take_lock. do 2 f_equal.
  change (touch c (put t (touch c k))) with (put t (touch c (touch c k))). by rewrite touch_twice.
Qed.

Lemma bget_eq dev blk k l :
  quiet c p k -> ring (bcache k) l -> (forall b, b ∈ l -> sl_locked (sleeplocks k (SLbuf b)) <> 0 ->
    forall bf, bcache k !! b = Some bf -> wanted dev blk bf = false /\ unused_buf bf = false) ->
  bget dev blk k =
    match first_buf (wanted dev blk) (bcache k) l with
    | Some b => Ret b (take_lock b (pid_of p k)
                  (put (alter (upd_b_refcnt (fun n => u32 (n + 1))) b (bcache k)) (touch c k)))
    | None =>
        match first_buf unused_buf (bcache k) (rev l) with
        | Some b => Ret b (take_lock b (pid_of p k) (put (alter (recycled dev blk) b (bcache k)) (touch c k)))
        | None => Panic "bget: no buffers" (acq L_bcache c k)
        end
    end.
Proof.
  intros Hq Hr Hfree. pose proof (quiet_ok c p _ Hq) as Hok. pose proof Hq as (_ & Hl & _).
  assert (forall q b l', first_buf q (bcache k) l' = Some b -> (b ∈ l' -> b ∈ l) ->
    (forall bf, q bf = true -> wanted dev blk bf = true \/ unused_buf bf = true) ->
    sl_locked (sleeplocks k (SLbuf b)) = 0) as Hunlocked.
  { intros q b l' (Hin & bf & Hbf & Hqb)%first_buf_Some Hll Himp.
    destruct (Z.eq_dec (sl_locked (sleeplocks k (SLbuf b))) 0); [done|].
    destruct (Hfree b (Hll Hin) ltac:(done) bf Hbf) as [E1 E2]. destruct (Himp bf Hqb); congruence. }
  unfold bget. mcall (acquire_eq c).
  change (acq L_bcache c k) with (put (bcache k) (acq L_bcache c k)).
  mcall (scan_next_eq _ _ l). fold (wanted dev blk).
  destruct (first_buf (wanted dev blk) (bcache k) l) as [b|] eqn:E1.
  - apply first_buf_Some in E1 as Hs. destruct Hs as (_ & bf & Hbf & _).
    rewrite set_buf_put by (by eapply lookup_lt_Some). apply bget_finish; [done|]. eapply Hunlocked; [exact E1 | auto | auto].
  - mcall (scan_prev_eq _ _ l). fold unused_buf.
    destruct (first_buf unused_buf (bcache k) (rev l)) as [b|] eqn:E2; [|reflexivity].
    apply first_buf_Some in E2 as Hs. destruct Hs as (_ & bf & Hbf%lookup_lt_Some & _).
    rewrite !set_buf_put by (by rewrite ?length_alter). rewrite !list_alter_twice. apply bget_finish; [done|].
    eapply Hunlocked; [exact E2 | by rewrite !list_elem_of_In, <- in_rev | auto].
Qed.

(** A buffer of the root device that the process has locked. *)
Definition mine (b : nat) (bf : buf) (k : kernel) : Prop :=
  bcache k !! b = Some bf /\ b_dev bf = ROOTDEV /\ 0 <= b_blockno bf < disksize k /\
  sl_locked (sleeplocks k (SLbuf b)) = 1 /\ sl_pid (sleeplocks k (SLbuf b)) = pid_of p k.

Lemma holding_mine b bf k : quiet c p k -> mine b bf k -> holdingsleep (SLbuf b) k = Ret true (touch c k).
Proof.
  intros Hq (_ & _ & _ & Hs & Hp). rewrite (holdingsleep_eq c p) by done. by rewrite Hs, Hp, Z.eqb_refl.
Qed.

Definition filled (d : list Z) (bf : buf) : buf :=
  upd_b_flags (fun fl => Z.lor fl B_VALID) (upd_b_data (fun _ => d) bf).
Definition cleaned (bf : buf) : buf :=
  upd_b_flags (fun fl => Z.lor fl B_VALID) (upd_b_flags (fun fl => Z.land fl (Z.lnot B_DIRTY)) bf).

Definition disk_write (blk : Z) (d : list Z) (k : kernel) : kernel :=
  upd_dwrites (fun l => l ++ [(blk, d)]) (upd_disk (fun f x => if x =? blk then d else f x) k).

Lemma iderw_read b bf k :
  quiet c p k -> mine b bf k -> b_flags bf = 0 ->
  iderw b k = Ret tt (put (alter (filled (disk k (b_blockno bf))) b (bcache k)) (touch c k)).
Proof.
  intros Hq Hm Hf. pose proof Hm as (Hb & Hd & Hn & _). simpl. unfold memide_iderw.
  mcall holding_mine. cbn [negb]. mcall get_buf_eq. rewrite Hf. change (Z.land 0 _ =? _) with false.
  rewrite Hd. change (negb _) with false. cbv iota. mrun.
  change (disksize (touch c k)) with (disksize k). rewrite (proj2 (Z.leb_gt _ _)) by lia.
  change (truthy (Z.land 0 B_DIRTY)) with false. cbv iota. mrun.
  unfold set_buf. mrun. rewrite put_slot_eq by in_table. f_equal. unfold put. kernel_eq. by rewrite list_alter_twice.
Qed.

Lemma iderw_write b bf k :
  quiet c p k -> mine b bf k -> b_flags bf = PINNED ->
  iderw b k = Ret tt (disk_write (b_blockno bf) (b_data bf) (put (alter cleaned b (bcache k)) (touch c k))).
Proof.
  intros Hq Hm Hf. pose proof Hm as (Hb & Hd & Hn & _). simpl. unfold memide_iderw.
  mcall holding_mine. cbn [negb]. mcall get_buf_eq. rewrite Hf. change (Z.land PINNED _ =? _) with false.
  rewrite Hd. change (negb _) with false. cbv iota. mrun.
  change (disksize (touch c k)) with (disksize k). rewrite (proj2 (Z.leb_gt _ _)) by lia.
  change (truthy (Z.land PINNED B_DIRTY)) with true. cbv iota. mrun.
  unfold set_buf. mrun. rewrite put_slot_eq by in_table. f_equal. unfold put, disk_write. kernel_eq. by rewrite list_alter_twice.
Qed.

(** *** Specifications *)

Definition view (k : kernel) : Z -> list Z := content (bcache k) (disk k).

Record cache_ok (held : list nat) (k : kernel) : Prop := {
  co_quiet : quiet c p k;
  co_ring : exists l, ring (bcache k) l;
  co_inv : cache_inv held (bcache k) (sleeplocks k) (disk k) (pid_of p k);
}.

(** What no operation on buffers changes. *)
Record frame (k k' : kernel) : Prop := {
  fr_log : klog k' = klog k;
  fr_sb : sb k' = sb k;
  fr_icache : icache k' = icache k;
  fr_ftable : ftable k' = ftable k;
  fr_mem : mem k' = mem k;
  fr_size : disksize k' = disksize k;
  fr_pid : pid_of p k' = pid_of p k;
  fr_inodes : forall i, sleeplocks k' (SLinode i) = sleeplocks k (SLinode i);
}.

Lemma frame_refl k : frame k k.
Proof. by split. Qed.

Lemma frame_trans k1 k2 k3 : frame k1 k2 -> frame k2 k3 -> frame k1 k3.
Proof. intros [] []. split; intros; congruence. Qed.

(** The buffers in [held] keep what they hold. *)
Definition keeps (held : list nat) (k k' : kernel) : Prop :=
  forall b, b ∈ held -> core <$> bcache k' !! b = core <$> bcache k !! b.

Definition spare (k : kernel) : Prop :=
  exists b bf, (b < NBUF)%nat /\ bcache k !! b = Some bf /\ unused_buf bf = true.

Record read_post (held : list nat) (blk : Z) (k : kernel) (b : nat) (k' : kernel) : Prop := {
  rp_ok : cache_ok (b :: held) k';
  rp_new : b ∉ held;
  rp_buf : exists bf, mine b bf k' /\ b_blockno bf = blk /\ b_data bf = view k blk /\
             (b_flags bf = PINNED <-> pinned (bcache k) blk) /\ (b_flags bf = CLEAN -> b_data bf = disk k blk);
  rp_view : forall x, view k' x = view k x;
  rp_disk : disk k' = disk k /\ dwrites k' = dwrites k;
  rp_pinned : forall x, pinned (bcache k') x <-> pinned (bcache k) x;
  rp_frame : frame k k';
  rp_keeps : keeps held k k';
}.

Lemma insert_core b bf' (t : list buf) b2 : b2 <> b -> core <$> <[b := bf']> t !! b2 = core <$> t !! b2.
Proof. intros Hne. by rewrite list_lookup_insert_ne. Qed.

(** The state in which both branches of [bread] end. *)
Definition read_state (b : nat) (bf' : buf) (k : kernel) : kernel :=
  take_lock b (pid_of p k) (put (<[b := bf']> (bcache k)) (touch c k)).

Lemma take_lock_other b q k s : s <> SLbuf b -> sleeplocks (take_lock b q k) s = sleeplocks k s.
Proof. intros Hne. unfold take_lock, upd_sleep. simpl. by rewrite decide_False. Qed.

Lemma take_lock_same b q k :
  sl_locked (sleeplocks (take_lock b q k) (SLbuf b)) = 1 /\ sl_pid (sleeplocks (take_lock b q k) (SLbuf b)) = q.
Proof. unfold take_lock, upd_sleep. simpl. by rewrite decide_True. Qed.

Lemma read_state_ok held b bf bf' k :
  cache_ok held k -> (b < NBUF)%nat -> b ∉ held -> bcache k !! b = Some bf ->
  b_next bf' = b_next bf -> b_prev bf' = b_prev bf -> b_refcnt bf' = 1 -> b_dev bf' = ROOTDEV ->
  b_flags bf' = CLEAN \/ b_flags bf' = PINNED ->
  (forall b2 bf2, b2 <> b -> (b2 < NBUF)%nat -> bcache k !! b2 = Some bf2 -> b_dev bf2 = ROOTDEV ->
     b_blockno bf2 <> b_blockno bf') ->
  cache_ok (b :: held) (read_state b bf' k).
Proof.
  intros [Hq [l Hr] Hinv] Hb Hnew Hbf Hnx Hpv Href Hdev Hfl Hoth. split.
  - by apply quiet_take, quiet_put, quiet_touch.
  - exists l. change (bcache (read_state b bf' k)) with (<[b := bf']> (bcache k)).
    rewrite <- (list_alter_insert (fun _ => bf') b (bcache k) bf Hbf).
    destruct Hr as (Hlen & Hp & Hl). split_and!; [by rewrite length_alter | done |].
    eapply linked_ext; [| |exact Hl]; intros j _; unfold nx, pv;
      (destruct (decide (j = b)) as [->|]; [rewrite list_lookup_alter_eq, Hbf; simpl; congruence | by rewrite list_lookup_alter_ne]).
  - change (disk (read_state b bf' k)) with (disk k). change (pid_of p (read_state b bf' k)) with (pid_of p k).
    change (bcache (read_state b bf' k)) with (<[b := bf']> (bcache k)).
    destruct (take_lock_same b (pid_of p k) (put (<[b:=bf']> (bcache k)) (touch c k))) as [Hs1 Hs2].
    apply (cache_inv_insert b bf bf' (bcache k) Hb Hbf held (b :: held) (sleeplocks k) _ (disk k) (disk k)); try done.
    + intros b2 Hne. rewrite elem_of_cons. tauto.
    + intros b2 Hne. etransitivity; [apply take_lock_other; congruence | reflexivity].
    + split; try (by intros []; left); rewrite ?decide_True by left; auto.
    + intros b2 bf2 Hne Hb2 Hl2 Hd2. split; [|done]. intros _. by apply (Hoth b2 bf2).
    + destruct Hinv as [_ _ [Hnd _]]. by apply list.NoDup_cons.
Qed.

Lemma flags_valid fl : fl = CLEAN \/ fl = PINNED -> (Z.land fl B_VALID =? 0) = false.
Proof. by intros [-> | ->]. Qed.

Lemma frame_read_state b bf' k : frame k (read_state b bf' k).
Proof. by split. Qed.

Lemma keeps_read_state held b bf' k : b ∉ held -> keeps held k (read_state b bf' k).
Proof. intros Hn b2 Hb2. apply insert_core. congruence. Qed.

(** A block that is in no buffer is in none of the ring either. *)
Lemma not_cached blk k l :
  ring (bcache k) l -> first_buf (wanted ROOTDEV blk) (bcache k) l = None ->
  forall b bf, (b < NBUF)%nat -> bcache k !! b = Some bf -> holds blk bf = false.
Proof. intros Hr Hn b bf Hb Hbf. apply (first_buf_None _ _ _ b bf Hn); [by apply (ring_elem _ _ _ Hr) | done]. Qed.

(** Reading a block that is in the cache. *)
Lemma bread_hit held blk k l b bf :
  cache_ok held k -> ring (bcache k) l -> 0 <= blk < disksize k -> b ∉ held -> (b < NBUF)%nat ->
  bcache k !! b = Some bf -> holds blk bf = true ->
  read_post held blk k b (read_state b (upd_b_refcnt (fun n => u32 (n + 1)) bf) k).
Proof.
  intros Hco Hr Hblk Hnew Hb Hbf Hh. pose proof Hco as [Hq _ Hinv]. pose proof Hinv as [Hbuf Hu _].
  destruct (Hbuf b bf Hb Hbf) as [_ _ Href Hdv Hcl]. rewrite decide_False in Href by done.
  apply holds_spec in Hh as [Hd Hn]. destruct Hdv as [[_ Hfl]|[]]; [|done].
  set (bf' := upd_b_refcnt (fun n => u32 (n + 1)) bf).
  assert (unique (<[b := bf']> (bcache k))) as Hu'.
  { apply (unique_insert b bf bf' (bcache k) Hbf); [done|]. intros _ b2 bf2 Hne Hb2 Hl2.
    destruct (holds (b_blockno bf') bf2) eqn:E; [|done]. apply holds_spec in E as [Hd2 Hn2].
    destruct Hne. by apply (Hu b2 b bf2 bf). }
  assert (forall x, holds x bf' = holds x bf) as Hhs by done.
  split.
  - apply (read_state_ok held b bf); try done.
    + unfold bf'. simpl. by rewrite Href.
    + intros b2 bf2 Hne Hb2 Hl2 Hd2 Hn2. apply Hne. by apply (Hu b2 b bf2 bf).
  - done.
  - exists bf'. split; [|split_and!].
    + split_and!; [exact (insert_same b bf bf' _ Hbf) | done | simpl; lia.. | |];
        apply (take_lock_same b (pid_of p k) (put (<[b:=bf']> (bcache k)) (touch c k))).
    + done.
    + symmetry. apply (content_hit _ _ b bf); [done..|]. by apply holds_spec.
    + split.
      * intros Hp. exists b, bf. split_and!; [done..| by apply holds_spec | done].
      * intros (b2 & bf2 & Hb2 & Hl2 & [Hd2 Hn2]%holds_spec & Hp). assert (b2 = b) as ->.
        { apply (Hu b2 b bf2 bf); done || congruence. }
        by assert (bf2 = bf) as -> by congruence.
    + intros Hc. rewrite <- Hn. by apply Hcl.
  - intros x. unfold view. change (disk (read_state b bf' k)) with (disk k).
    change (bcache (read_state b bf' k)) with (<[b := bf']> (bcache k)).
    destruct (holds x bf) eqn:E.
    + rewrite (content_insert_hit b bf bf' _ Hb Hbf) by done. symmetry. by apply (content_hit _ _ b bf).
    + by apply (content_insert_other b bf bf' _ Hbf).
  - done.
  - intros x. by apply (pinned_insert b bf bf' _ Hbf).
  - apply frame_read_state.
  - by apply keeps_read_state.
Qed.

(** Reading a block that is not. *)
Lemma bread_miss held blk k l b bf :
  cache_ok held k -> ring (bcache k) l -> 0 <= blk < disksize k -> (b < NBUF)%nat ->
  bcache k !! b = Some bf -> unused_buf bf = true ->
  (forall b bf, (b < NBUF)%nat -> bcache k !! b = Some bf -> holds blk bf = false) ->
  read_post held blk k b (read_state b (filled (disk k blk) (recycled ROOTDEV blk bf)) k).
Proof.
  intros Hco Hr Hblk Hb Hbf [Hz Hdirty]%andb_true_iff Hno. apply Z.eqb_eq in Hz.
  pose proof Hco as [Hq _ Hinv]. pose proof Hinv as [Hbuf Hu _].
  destruct (Hbuf b bf Hb Hbf) as [_ _ Href Hdv Hcl].
  assert (b ∉ held) as Hnew by (intros Hin; rewrite decide_True in Href by done; lia).
  assert (b_flags bf <> PINNED) as Hnp by (intros E; rewrite E in Hdirty; discriminate).
  set (bf' := filled (disk k blk) (recycled ROOTDEV blk bf)).
  assert (unique (<[b := bf']> (bcache k))) as Hu'.
  { apply (unique_insert b bf bf' (bcache k) Hbf); [done|]. intros _ b2 bf2 _ Hb2 Hl2. by apply (Hno b2). }
  split.
  - apply (read_state_ok held b bf); try done; [by left|].
    intros b2 bf2 Hne Hb2 Hl2 Hd2 Hn2. assert (holds blk bf2 = true) as E by (by apply holds_spec).
    rewrite (Hno b2 bf2 Hb2 Hl2) in E. done.
  - done.
  - exists bf'. split; [|split_and!].
    + split_and!; [exact (insert_same b bf bf' _ Hbf) | done | simpl; lia.. | |];
        apply (take_lock_same b (pid_of p k) (put (<[b:=bf']> (bcache k)) (touch c k))).
    + done.
    + symmetry. by apply content_miss.
    + split; [done|]. intros (b2 & bf2 & Hb2 & Hl2 & Hh & _). rewrite (Hno b2 bf2 Hb2 Hl2) in Hh. done.
    + done.
  - intros x. unfold view. change (disk (read_state b bf' k)) with (disk k).
    change (bcache (read_state b bf' k)) with (<[b := bf']> (bcache k)).
    destruct (holds x bf') eqn:E'; [|destruct (holds x bf) eqn:E].
    + rewrite (content_insert_hit b bf bf' _ Hb Hbf) by done.
      apply holds_spec in E' as [_ Hx]. change (b_blockno bf') with blk in Hx. subst x.
      symmetry. by apply content_miss.
    + rewrite (content_evict b bf bf' _ Hb Hbf) by done. symmetry. rewrite (content_hit _ _ b bf) by done.
      apply holds_spec in E as [Hd Hn]. destruct Hdv as [[_ [Hf|Hf]]|[]]; [| done | done]. rewrite <- Hn. by apply Hcl.
    + by apply (content_insert_other b bf bf' _ Hbf).
  - done.
  - intros x. apply (pinned_insert b bf bf' _ Hbf). split; [tauto|]. by intros [_ ?].
  - apply frame_read_state.
  - by apply keeps_read_state.
Qed.

(** There is a buffer for the block, or one can be recycled for it. *)
Definition room (blk : Z) (k : kernel) : Prop :=
  spare k \/ exists b bf, (b < NBUF)%nat /\ bcache k !! b = Some bf /\ holds blk bf = true.

Lemma bread_spec held blk k :
  cache_ok held k -> 0 <= blk < disksize k -> room blk k ->
  (forall b bf, b ∈ held -> bcache k !! b = Some bf -> b_blockno bf <> blk) ->
  wp (bread ROOTDEV blk) (read_post held blk k) k.
Proof.
  intros Hco Hblk Hspare Hother. pose proof Hco as [Hq [l Hr] Hinv]. pose proof Hinv as [Hbuf _ _].
  assert (forall b, b ∈ l -> sl_locked (sleeplocks k (SLbuf b)) <> 0 -> forall bf, bcache k !! b = Some bf ->
    b ∈ held /\ wanted ROOTDEV blk bf = false /\ unused_buf bf = false) as Hlk.
  { intros b Hin Hs bf Hbf. apply (ring_elem _ _ _ Hr) in Hin. destruct (Hbuf b bf Hin Hbf) as [H1 _ H3 _ _].
    destruct (decide (b ∈ held)) as [Hh|]; [|done]. split_and!; [done | |].
    - unfold wanted. apply andb_false_intro2. apply Z.eqb_neq. by apply (Hother b).
    - unfold unused_buf. by rewrite H3. }
  pose proof (bget_eq ROOTDEV blk k l Hq Hr ltac:(intros; by eapply Hlk)) as Hget.
  destruct (first_buf (wanted ROOTDEV blk) (bcache k) l) as [b|] eqn:E1.
  - pose proof E1 as (Hin & bf & Hbf & Hw)%first_buf_Some. apply (ring_elem _ _ _ Hr) in Hin.
    assert (b ∉ held) as Hnew.
    { intros Hh. apply (Hother b bf Hh Hbf). by apply holds_spec in Hw as [_ ?]. }
    rewrite (list_alter_insert _ b _ bf Hbf) in Hget. fold (read_state b (upd_b_refcnt (fun n => u32 (n + 1)) bf) k) in Hget.
    pose proof (bread_hit held blk k l b bf Hco Hr Hblk Hnew Hin Hbf Hw) as Hpost.
    eapply wp_Ret; [|exact Hpost]. unfold bread. mcall Hget.
    mcall get_buf_eq by (exact (insert_same b bf _ _ Hbf)). simpl b_flags.
    destruct (Hbuf b bf Hin Hbf) as [_ _ _ Hdv _]. apply holds_spec in Hw as [Hd _].
    destruct Hdv as [[_ Hfl]|[]]; [|done]. by rewrite flags_valid.
  - destruct (first_buf unused_buf (bcache k) (rev l)) as [b|] eqn:E2.
    2:{ destruct Hspare as [(b & bf & Hb & Hbf & Hu)|(b & bf & Hb & Hbf & Hu)].
        2:{ by rewrite (not_cached blk k l Hr E1 b bf Hb Hbf) in Hu. }
        rewrite (first_buf_None _ _ _ b bf E2) in Hu; [done| |done].
        rewrite list_elem_of_In, <- in_rev, <- list_elem_of_In. by apply (ring_elem _ _ _ Hr). }
    pose proof E2 as (Hin & bf & Hbf & Hw)%first_buf_Some.
    rewrite list_elem_of_In, <- in_rev, <- list_elem_of_In in Hin. apply (ring_elem _ _ _ Hr) in Hin.
    pose proof (bread_miss held blk k l b bf Hco Hr Hblk Hin Hbf Hw (not_cached blk k l Hr E1)) as Hpost.
    eapply wp_Ret; [|exact Hpost]. unfold bread.
    rewrite (list_alter_insert _ b _ bf Hbf) in Hget. fold (read_state b (recycled ROOTDEV blk bf) k) in Hget.
    mcall Hget. pose proof (insert_same b bf (recycled ROOTDEV blk bf) _ Hbf) as Hl.
    mcall get_buf_eq by (exact Hl). change (Z.land (b_flags (recycled ROOTDEV blk bf)) B_VALID =? 0) with true.
    destruct (take_lock_same b (pid_of p k) (put (<[b:=recycled ROOTDEV blk bf]> (bcache k)) (touch c k))) as [Hs1 Hs2].
    mcall (iderw_read b (recycled ROOTDEV blk bf)) by
      (first [by apply quiet_take, quiet_put, quiet_touch | split_and!; done || (simpl; lia) | done]).
    unfold ret. f_equal. unfold read_state, take_lock, upd_sleep, put. kernel_eq.
    + transitivity (cpus (touch c (touch c k))); [reflexivity | by rewrite touch_twice].
    + erewrite list_alter_insert by exact Hl. by rewrite list_insert_insert_eq.
Qed.

Lemma cache_ok_perm held held' k : Permutation held held' -> cache_ok held k -> cache_ok held' k.
Proof.
  intros Hp [Hq Hr [Hbuf Hu [Hnd Hlt]]]. assert (forall b, b ∈ held' <-> b ∈ held) as Hin by (intros b; by rewrite Hp).
  split; [done..|]. split; [|done|split; [by rewrite <- Hp | intros b Hb; apply Hlt; by rewrite Hp]].
  intros b bf Hb Hbf. destruct (Hbuf b bf Hb Hbf) as [H1 H2 H3 H4 H5].
  assert (forall x y : Z, (if decide (b ∈ held') then x else y) = if decide (b ∈ held) then x else y) as Hif.
  { intros x y. specialize (Hin b). repeat case_decide; tauto. }
  split; rewrite ?Hif, ?Hin; done.
Qed.

Record write_post (held : list nat) (b : nat) (bf : buf) (k k' : kernel) : Prop := {
  wr_ok : cache_ok held k';
  wr_buf : exists bf', mine b bf' k' /\ b_blockno bf' = b_blockno bf /\ b_data bf' = b_data bf /\ b_flags bf' = CLEAN;
  wr_view : forall x, view k' x = view k x;
  wr_disk : disk k' = (fun x => if x =? b_blockno bf then b_data bf else disk k x);
  wr_writes : dwrites k' = dwrites k ++ [(b_blockno bf, b_data bf)];
  wr_pinned : forall x, pinned (bcache k') x <-> pinned (bcache k) x /\ x <> b_blockno bf;
  wr_frame : frame k k';
  wr_keeps : forall b2, b2 <> b -> core <$> bcache k' !! b2 = core <$> bcache k !! b2;
}.

Lemma mine_inv held b bf k :
  cache_ok held k -> b ∈ held -> mine b bf k ->
  (b < NBUF)%nat /\ b_refcnt bf = 1 /\ (b_flags bf = CLEAN \/ b_flags bf = PINNED) /\
  forall b2 bf2, b2 <> b -> (b2 < NBUF)%nat -> bcache k !! b2 = Some bf2 -> b_dev bf2 = ROOTDEV ->
    b_blockno bf2 <> b_blockno bf.
Proof.
  intros [_ _ [Hbuf Hu [_ Hlt]]] Hin (Hbf & Hd & _). pose proof (Hlt b Hin) as Hb.
  destruct (Hbuf b bf Hb Hbf) as [_ _ Href Hdv _]. rewrite decide_True in Href by done.
  destruct Hdv as [[_ Hfl]|[]]; [|done]. split_and!; try done.
  intros b2 bf2 Hne Hb2 Hl2 Hd2 Hn2. apply Hne. by apply (Hu b2 b bf2 bf).
Qed.

Lemma cache_ok_insert held b bf bf' k k' :
  cache_ok held k -> b ∈ held -> mine b bf k -> quiet c p k' ->
  bcache k' = <[b := bf']> (bcache k) -> sleeplocks k' = sleeplocks k -> pid_of p k' = pid_of p k ->
  b_next bf' = b_next bf -> b_prev bf' = b_prev bf -> b_refcnt bf' = b_refcnt bf -> b_dev bf' = ROOTDEV ->
  b_blockno bf' = b_blockno bf -> (b_flags bf' = CLEAN \/ b_flags bf' = PINNED) ->
  (forall x, x <> b_blockno bf -> disk k' x = disk k x) ->
  cache_ok held k'.
Proof.
  intros Hco Hin Hm Hq' Ht Hsl Hpid Hnx Hpv Href Hdev Hn Hfl Hdisk.
  destruct (mine_inv _ _ _ _ Hco Hin Hm) as (Hb & Hr1 & _ & Hoth). pose proof Hm as (Hbf & Hd & _ & Hs1 & Hs2).
  destruct Hco as [Hq [l Hr] Hinv]. split; [done| |].
  - exists l. rewrite Ht, <- (list_alter_insert (fun _ => bf') b (bcache k) bf Hbf).
    destruct Hr as (Hlen & Hp & Hl). split_and!; [by rewrite length_alter | done |].
    eapply linked_ext; [| |exact Hl]; intros j _; unfold nx, pv;
      (destruct (decide (j = b)) as [->|]; [rewrite list_lookup_alter_eq, Hbf; simpl; congruence | by rewrite list_lookup_alter_ne]).
  - rewrite Ht, Hsl, Hpid.
    apply (cache_inv_insert b bf bf' (bcache k) Hb Hbf held held (sleeplocks k) _ (disk k) (disk k')); try done.
    + split; rewrite ?decide_True by done; try done; [congruence | by left].
    + intros b2 bf2 Hne Hb2 Hl2 Hd2. pose proof (Hoth b2 bf2 Hne Hb2 Hl2 Hd2). split; [congruence | by apply Hdisk].
    + apply Hinv.
Qed.

Lemma bwrite_spec held b bf k :
  cache_ok held k -> b ∈ held -> mine b bf k -> wp (bwrite b) (fun _ => write_post held b bf k) k.
Proof.
  intros Hco Hin Hm. destruct (mine_inv _ _ _ _ Hco Hin Hm) as (Hb & Href & Hfl & Hoth).
  pose proof Hm as (Hbf & Hd & Hn & Hs1 & Hs2). pose proof Hco as [Hq _ Hinv]. pose proof Hinv as [_ Hu _].
  set (bf1 := upd_b_flags (fun fl => Z.lor fl B_DIRTY) bf).
  set (bf' := cleaned bf1). set (k1 := put (<[b := bf1]> (bcache k)) (touch c k)).
  assert (b_flags bf1 = PINNED) as Hf1 by (simpl; by destruct Hfl as [-> | ->]).
  assert (b_flags bf' = CLEAN) as Hf' by (simpl; by destruct Hfl as [-> | ->]).
  assert (quiet c p k1) as Hq1 by (by apply quiet_put, quiet_touch).
  assert (mine b bf1 k1) as Hm1.
  { split_and!; [exact (insert_same b bf bf1 _ Hbf) | exact Hd | exact (proj1 Hn) | exact (proj2 Hn) | exact Hs1 | exact Hs2]. }
  set (k' := disk_write (b_blockno bf) (b_data bf) (put (<[b := bf']> (bcache k)) (touch c k))).
  assert (bwrite b k = Ret tt k') as Hrun.
  { unfold bwrite. mcall holding_mine. cbn [negb]. rewrite bind_set_buf by in_table.
    match goal with |- iderw b ?k2 = _ => assert (k2 = k1) as -> end.
    { unfold k1, put. kernel_eq. by apply list_alter_insert. }
    rewrite (iderw_write b bf1 k1 Hq1 Hm1 Hf1). f_equal. unfold k', disk_write, k1, put. kernel_eq.
    - transitivity (cpus (touch c (touch c k))); [reflexivity | by rewrite touch_twice].
    - erewrite list_alter_insert by (exact (insert_same b bf bf1 _ Hbf)). by rewrite list_insert_insert_eq. }
  eapply wp_Ret; [exact Hrun|].
  assert (unique (<[b := bf']> (bcache k))) as Hu'.
  { apply (unique_insert b bf bf' (bcache k) Hbf); [done|]. intros _ b2 bf2 Hne Hb2 Hl2.
    destruct (holds (b_blockno bf') bf2) eqn:E; [|done]. apply holds_spec in E as [Hd2 Hn2].
    by destruct (Hoth b2 bf2 Hne Hb2 Hl2 Hd2). }
  assert (forall x, holds x bf' = holds x bf) as Hhs by done.
  split.
  - apply (cache_ok_insert held b bf bf' k k'); try (done || by left).
    intros x Hx. simpl. by rewrite (proj2 (Z.eqb_neq _ _)).
  - exists bf'. split_and!; [|done..]. split_and!; [exact (insert_same b bf bf' _ Hbf) | exact Hd | exact (proj1 Hn) | exact (proj2 Hn) | exact Hs1 | exact Hs2].
  - intros x. unfold view. change (bcache k') with (<[b := bf']> (bcache k)).
    destruct (holds x bf) eqn:E.
    + rewrite (content_insert_hit b bf bf' _ Hb Hbf) by done. symmetry. by apply (content_hit _ _ b bf).
    + apply (content_insert_other b bf bf' _ Hbf); try done. simpl. rewrite (proj2 (Z.eqb_neq _ _)); [done|].
      intros ->. unfold holds in E. by rewrite Hd, !Z.eqb_refl in E.
  - done.
  - done.
  - intros x. change (bcache k') with (<[b := bf']> (bcache k)). destruct (decide (x = b_blockno bf)) as [->|Hne].
    + split; [|by intros [_ []]]. intros (b2 & bf2 & Hb2 & Hl2 & [Hd2 Hn2]%holds_spec & Hp).
      apply (insert_cases b bf bf' _ Hbf) in Hl2 as [[-> ->]|[Hne2 Hl2]];
        [rewrite Hf' in Hp; discriminate|].
      by destruct (Hoth b2 bf2 Hne2 Hb2 Hl2 Hd2).
    + rewrite (pinned_insert b bf bf' _ Hbf); [tauto|].
      split; (intros [[_ E]%holds_spec _]; destruct Hne; by rewrite <- E).
  - by split.
  - intros b2 Hne. by apply insert_core.
Qed.

Record release_post (held : list nat) (k k' : kernel) : Prop := {
  rl_ok : cache_ok held k';
  rl_view : forall x, view k' x = view k x;
  rl_disk : disk k' = disk k /\ dwrites k' = dwrites k;
  rl_pinned : forall x, pinned (bcache k') x <-> pinned (bcache k) x;
  rl_frame : frame k k';
  rl_keeps : keeps held k k';
}.

Lemma pid_of_wake ch k : pid_of p (upd_ptable (fmap (wake ch)) k) = pid_of p k.
Proof.
  unfold pid_of. simpl. rewrite list_lookup_fmap. destruct (ptable k !! p) as [pr|]; simpl; [|done].
  unfold wake. by destruct (_ && _).
Qed.

Definition unlocked (b : nat) (k : kernel) : kernel :=
  drop_lock b (upd_ptable (fmap (wake (CSleeplock (SLbuf b)))) (touch c k)).

Lemma quiet_unlocked b k : quiet c p k -> quiet c p (unlocked b k).
Proof.
  intros Hq. apply (quiet_unrelated c p (drop_lock b)); [done | done |].
  apply quiet_ptable; [intros t; apply length_fmap | by apply quiet_touch].
Qed.

Lemma brelse_eq b bf k l1 l2 :
  quiet c p k -> mine b bf k -> b_refcnt bf = 1 -> ring (bcache k) (l1 ++ b :: l2) ->
  brelse b k = Ret tt (put (insert_front b (unlink b (<[b := upd_b_refcnt (fun n => u32 (n - 1)) bf]> (bcache k))))
    (touch c (unlocked b k))).
Proof.
  intros Hq Hm Href Hr. pose proof Hm as (Hbf & _). unfold brelse. mcall holding_mine. cbn [negb].
  mcall (releasesleep_eq c p) by (by apply quiet_touch).
  match goal with |- bind (acquire L_bcache) _ ?k2 = _ => assert (k2 = unlocked b k) as -> end.
  { unfold unlocked, drop_lock. f_equal. f_equal. apply touch_twice. }
  pose proof (quiet_unlocked b k Hq) as Hq2. pose proof (quiet_ok c p _ Hq2) as Hok2. pose proof Hq2 as (_ & Hl2 & _).
  mcall (acquire_eq c). set (k2 := unlocked b k) in *.
  change (acq L_bcache c k2) with (put (bcache k) (acq L_bcache c k2)). rewrite set_buf_put by in_table.
  set (bf1 := upd_b_refcnt (fun n => u32 (n - 1)) bf). set (t1 := alter _ b (bcache k)).
  assert (t1 = <[b := bf1]> (bcache k)) as Et1 by (by apply list_alter_insert).
  assert (ring t1 (l1 ++ b :: l2)) as Hr1 by (by apply ring_alter).
  mcall (get_buf_eq b bf1) by (simpl; rewrite Et1; exact (insert_same b bf bf1 _ Hbf)).
  replace (b_refcnt bf1 =? 0) with true by (simpl; by rewrite Href).
  mcall (to_front_eq b t1 _ l1 l2). rewrite Et1. set (t2 := insert_front b _).
  rewrite (unrelated_release (put t2) ltac:(done) c L_bcache k2) by done. f_equal.
  change (rel L_bcache c (put t2 (acq L_bcache c k2))) with (put t2 (rel L_bcache c (acq L_bcache c k2))).
  by rewrite rel_acq.
Qed.

Lemma brelse_spec held b bf k :
  cache_ok (b :: held) k -> mine b bf k -> (b_flags bf = PINNED \/ b_data bf = disk k (b_blockno bf)) ->
  wp (brelse b) (fun _ => release_post held k) k.
Proof.
  intros Hco Hm Hclean. assert (b ∈ b :: held) as Hin by left.
  destruct (mine_inv _ _ _ _ Hco Hin Hm) as (Hb & Href & Hfl & Hoth). pose proof Hm as (Hbf & Hd & Hn & Hs1 & Hs2).
  pose proof Hco as [Hq [l Hr] Hinv]. pose proof Hinv as [_ Hu [[Hbh Hnd]%list.NoDup_cons Hlt]].
  destruct (list_elem_of_split l b) as (l1 & l2 & ->); [by apply (ring_elem _ _ _ Hr)|].
  set (bf1 := upd_b_refcnt (fun n => u32 (n - 1)) bf).
  pose proof (brelse_eq b bf k l1 l2 Hq Hm Href Hr) as Hrun. fold bf1 in Hrun.
  set (t1 := <[b := bf1]> (bcache k)) in *. set (t2 := insert_front b (unlink b t1)) in *.
  set (k' := put t2 (touch c (unlocked b k))) in *. eapply wp_Ret; [exact Hrun|].
  assert (same_core t1 t2) as Hc by (eapply same_core_trans; [apply unlink_core | apply insert_front_core]).
  assert (ring t1 (l1 ++ b :: l2)) as Hr1.
  { assert (t1 = alter (upd_b_refcnt (fun n => u32 (n - 1))) b (bcache k)) as ->
      by (symmetry; by apply list_alter_insert). by apply ring_alter. }
  assert (pid_of p k' = pid_of p k) as Hpid by exact (pid_of_wake _ (touch c k)).
  assert (forall s, s <> SLbuf b -> sleeplocks k' s = sleeplocks k s) as Hsl.
  { intros s Hne. unfold k', unlocked, drop_lock, upd_sleep. simpl. by rewrite decide_False. }
  assert (sl_locked (sleeplocks k' (SLbuf b)) = 0) as Hsb.
  { unfold k', unlocked, drop_lock, upd_sleep. simpl. by rewrite decide_True. }
  assert (cache_inv held t1 (sleeplocks k') (disk k) (pid_of p k)) as Hinv1.
  { apply (cache_inv_insert b bf bf1 (bcache k) Hb Hbf (b :: held) held (sleeplocks k) _ (disk k) (disk k)); try done.
    - intros b2 Hne. rewrite elem_of_cons. tauto.
    - intros b2 Hne. apply Hsl. congruence.
    - split; rewrite ?decide_False by done; try done.
      + simpl. by rewrite Href.
      + by left.
      + intros _ Hcl. destruct Hclean as [E|E]; [change (b_flags bf1) with (b_flags bf) in Hcl; rewrite Hcl in E; discriminate | exact E].
    - intros b2 bf2 Hne Hb2 Hl2 Hd2. split; [|done]. intros _. by apply (Hoth b2). }
  pose proof Hinv1 as [_ Hu1 _]. assert (forall x, holds x bf1 = holds x bf) as Hhs by done.
  split.
  - split.
    + by apply quiet_put, quiet_touch, quiet_unlocked.
    + exists (b :: l1 ++ l2). by apply to_front_ring.
    + change (disk k') with (disk k). rewrite Hpid. by apply (cache_inv_core _ t1 t2).
  - intros x. unfold view. change (disk k') with (disk k). change (bcache k') with t2.
    rewrite (content_core t1 t2) by (try done; by eapply unique_core).
    destruct (holds x bf) eqn:E.
    + unfold t1. rewrite (content_insert_hit b bf bf1 _ Hb Hbf) by done. symmetry. by apply (content_hit _ _ b bf).
    + by apply (content_insert_other b bf bf1 _ Hbf).
  - done.
  - intros x. change (bcache k') with t2. transitivity (pinned t1 x).
    + split; apply pinned_core; [by apply same_core_sym | done].
    + by apply (pinned_insert b bf bf1 _ Hbf).
  - split; try done. 
  - intros b2 Hb2. change (bcache k') with t2. destruct Hc as [_ Hc]. rewrite Hc. apply insert_core. congruence.
Qed.

(** Writing into a buffer the process has locked. *)
Record store_post (held : list nat) (b : nat) (bf : buf) (d : list Z) (k k' : kernel) : Prop := {
  st_ok : cache_ok held k';
  st_buf : exists bf', mine b bf' k' /\ b_blockno bf' = b_blockno bf /\ b_data bf' = d /\ b_flags bf' = b_flags bf;
  st_view : forall x, view k' x = if x =? b_blockno bf then d else view k x;
  st_disk : disk k' = disk k /\ dwrites k' = dwrites k;
  st_pinned : forall x, pinned (bcache k') x <-> pinned (bcache k) x;
  st_frame : frame k k';
  st_keeps : forall b2, b2 <> b -> core <$> bcache k' !! b2 = core <$> bcache k !! b2;
}.

Lemma store_spec held b bf f k :
  cache_ok held k -> b ∈ held -> mine b bf k ->
  wp (set_buf b (upd_b_data f)) (fun _ => store_post held b bf (f (b_data bf)) k) k.
Proof.
  intros Hco Hin Hm. destruct (mine_inv _ _ _ _ Hco Hin Hm) as (Hb & Href & Hfl & Hoth).
  pose proof Hm as (Hbf & Hd & Hn & Hs1 & Hs2). pose proof Hco as [Hq _ [_ Hu _]].
  set (bf' := upd_b_data f bf). set (k' := put (<[b := bf']> (bcache k)) k).
  apply (wp_Ret _ _ _ tt k').
  { unfold set_buf, k', put. rewrite put_slot_eq by in_table. f_equal. kernel_eq. by apply list_alter_insert. }
  assert (unique (<[b := bf']> (bcache k))) as Hu'.
  { apply (unique_insert b bf bf' (bcache k) Hbf); [done|]. intros _ b2 bf2 Hne Hb2 Hl2.
    destruct (holds (b_blockno bf') bf2) eqn:E; [|done]. apply holds_spec in E as [Hd2 Hn2].
    by destruct (Hoth b2 bf2 Hne Hb2 Hl2 Hd2). }
  assert (forall x, holds x bf' = holds x bf) as Hhs by done.
  split.
  - by apply (cache_ok_insert held b bf bf' k k').
  - exists bf'. split_and!; [|done..].
    split_and!; [exact (insert_same b bf bf' _ Hbf) | exact Hd | exact (proj1 Hn) | exact (proj2 Hn) | exact Hs1 | exact Hs2].
  - intros x. unfold view. change (bcache k') with (<[b := bf']> (bcache k)). change (disk k') with (disk k).
    destruct (Z.eqb_spec x (b_blockno bf)) as [->|Hne].
    + apply (content_insert_hit b bf bf' _ Hb Hbf); [done|]. rewrite Hhs. by apply holds_spec.
    + assert (holds x bf = false) as E.
      { unfold holds. apply andb_false_intro2, Z.eqb_neq. congruence. }
      by apply (content_insert_other b bf bf' _ Hbf).
  - done.
  - intros x. by apply (pinned_insert b bf bf' _ Hbf).
  - by split.
  - intros b2 Hne. by apply insert_core.
Qed.

(** With fewer blocks pinned and held than there are buffers, one is free. *)
Lemma spare_room held L k :
  cache_ok held k -> (forall x, pinned (bcache k) x -> x ∈ L) -> (length held + length L < NBUF)%nat -> spare k.
Proof.
  intros [_ [l (Hlen & _)] [Hbuf Hu _]] HL Hcount.
  set (bn := fun b => match bcache k !! b with Some bf => b_blockno bf | None => 0 end).
  destruct (first_buf unused_buf (bcache k) (seq 0 NBUF)) as [b|] eqn:E.
  - apply first_buf_Some in E as (Hin%elem_of_seq & bf & Hbf & Hun). exists b, bf. split_and!; [lia | done..].
  - exfalso. set (rest := filter (fun b => b ∉ held) (seq 0 NBUF)).
    assert (forall b, b ∈ rest -> (b < NBUF)%nat /\ exists bf, bcache k !! b = Some bf /\
      b_dev bf = ROOTDEV /\ b_flags bf = PINNED) as Hrest.
    { intros b [Hnh Hin]%list_elem_of_filter. pose proof Hin as Hlt%elem_of_seq.
      destruct (lookup_lt_is_Some_2 (bcache k) b) as [bf Hbf]; [lia|]. split; [lia|]. exists bf.
      destruct (Hbuf b bf ltac:(lia) Hbf) as [_ _ Href Hdv _]. rewrite decide_False in Href by done.
      assert (unused_buf bf = false) as Hnu.
      { by apply (first_buf_None _ _ _ b bf E). }
      unfold unused_buf in Hnu. rewrite Href in Hnu. simpl in Hnu.
      destruct Hdv as [[Hd [Hf|Hf]]|(_ & Hf & _)]; [rewrite Hf in Hnu; discriminate | done | rewrite Hf in Hnu; discriminate]. }
    assert (NoDup rest) as Hnd by (apply list.NoDup_filter, NoDup_seq).
    assert (NoDup (bn <$> rest)) as Hndb.
    { apply NoDup_fmap_2_strong; [|done]. intros b1 b2 H1 H2 Ebn.
      destruct (Hrest b1 H1) as (Hb1 & bf1 & Hl1 & Hd1 & _), (Hrest b2 H2) as (Hb2 & bf2 & Hl2 & Hd2 & _).
      unfold bn in Ebn. rewrite Hl1, Hl2 in Ebn. by apply (Hu b1 b2 bf1 bf2). }
    assert (length rest <= length L)%nat as Hle.
    { rewrite <- (length_fmap bn rest). apply submseteq_length, NoDup_submseteq; [done|].
      intros x (b & -> & Hin)%list_elem_of_fmap. destruct (Hrest b Hin) as (Hb & bf & Hl & Hd & Hf).
      apply HL. exists b, bf. split_and!; try done. apply holds_spec. split; [done|]. unfold bn. by rewrite Hl. }
    assert (length (seq 0 NBUF) <= length (held ++ rest))%nat as Hall.
    { apply submseteq_length, NoDup_submseteq; [apply NoDup_seq|]. intros b Hin. apply elem_of_app.
      destruct (decide (b ∈ held)); [by left|]. right. by apply list_elem_of_filter. }
    rewrite length_seq, length_app in Hall. lia.
Qed.

(** *** The start: binit *)

(** The buffers as the kernel finds them in its zeroed memory. *)
Definition blank (t : list buf) : Prop :=
  length t = S NBUF /\ forall b bf, t !! b = Some bf -> b_dev bf = 0 /\ b_flags bf = 0 /\ b_refcnt bf = 0.

Record binit_inv (k0 : kernel) (pre : list nat) (k : kernel) : Prop := {
  bi_links : linked (nx (bcache k)) (pv (bcache k)) HEAD (rev pre) HEAD;
  bi_core : same_core (bcache k0) (bcache k);
  bi_locks : forall b, b ∈ pre -> sl_locked (sleeplocks k (SLbuf b)) = 0;
  bi_disk : disk k = disk k0 /\ dwrites k = dwrites k0;
  bi_frame : frame k0 k;
  bi_quiet : quiet c p k0 -> quiet c p k;
}.

Lemma quiet_initlock l nm k k' : initlock l nm k = Ret tt k' -> quiet c p k -> quiet c p k'.
Proof.
  intros [= <-] (Hr & Hl & Hp). split_and!; [exact Hr | | done]. intros x. unfold lock_free, upd_locks. simpl.
  case_decide; [done | apply Hl].
Qed.

(** What [initsleeplock] does to the state. *)
Lemma initsleeplock_spec s nm k :
  exists k', initsleeplock s nm k = Ret tt k' /\ sl_locked (sleeplocks k' s) = 0 /\
    (forall s', s' <> s -> sleeplocks k' s' = sleeplocks k s') /\ (quiet c p k -> quiet c p k') /\
    (forall t, put t k' = upd_sleeplocks (fun _ => sleeplocks k') (upd_locks (fun _ => locks k') (put t k))).
Proof.
  eexists. split; [reflexivity|]. split_and!.
  - simpl. by repeat rewrite decide_True by done.
  - intros s' Hs. simpl. by repeat rewrite decide_False by done.
  - intros Hq. do 3 (apply (quiet_unrelated c p (upd_sleeplocks _)); [done | done |]). by eapply quiet_initlock.
  - intros t. by kernel_eq.
Qed.

Lemma binit_step k0 b pre k :
  length (bcache k0) = S NBUF -> NoDup (b :: rev pre) -> (forall i, i ∈ b :: rev pre -> (i < NBUF)%nat) ->
  binit_inv k0 pre k ->
  wp (let* h := get_buf HEAD in
      set_buf b (upd_b_next (fun _ => b_next h)) ;;
      set_buf b (upd_b_prev (fun _ => HEAD)) ;;
      initsleeplock (SLbuf b) "buffer" ;;
      let* h := get_buf HEAD in
      set_buf (b_next h) (upd_b_prev (fun _ => b)) ;;
      set_buf HEAD (upd_b_next (fun _ => b))) (fun _ => binit_inv k0 (pre ++ [b])) k.
Proof.
  intros Hlen0 Hnd Hlt [Hl Hc Hs [Hd Hw] Hf Hq]. pose proof (same_core_length _ _ Hc) as Hlen. rewrite Hlen0 in Hlen.
  pose proof (Hlt b ltac:(left)) as Hb. assert (HEAD <> b) as Hne by (unfold HEAD; lia).
  destruct (lookup_lt_is_Some_2 (bcache k) HEAD) as [h Hh]; [unfold HEAD; lia|].
  assert (b_next h = nx (bcache k) HEAD) as Eh by (unfold nx; by rewrite Hh).
  assert (nx (bcache k) HEAD < length (bcache k))%nat as Hfirst.
  { eapply linked_first; [done | | exact Hl]. intros i Hi. apply Hlt. by right. }
  set (t := alter (upd_b_prev (fun _ => HEAD)) b (alter (upd_b_next (fun _ => nx (bcache k) HEAD)) b (bcache k))).
  destruct (initsleeplock_spec (SLbuf b) "buffer" (put t k)) as (k1 & Hrun & Hl1 & Ho1 & Hq1 & Ht1).
  assert (bcache k1 = t) as Hk1.
  { transitivity (bcache (put (bcache k1) k1)); [done|]. unfold initsleeplock in Hrun. by injection Hrun as <-. }
  apply (wp_Ret _ _ _ tt (put (insert_front b (bcache k)) k1)).
  - mcall get_buf_eq. rewrite <- (put_bcache k) at 1. rewrite Eh, !set_buf_put by (rewrite ?length_alter; lia). fold t. mcall Hrun.
    mcall get_buf_eq by (rewrite Hk1; unfold t; by rewrite !list_lookup_alter_ne by done).
    rewrite <- (put_bcache k1) at 1. rewrite Hk1, Eh.
    rewrite set_buf_put, set_buf_put_eq by (unfold t; rewrite !length_alter; first [done | unfold HEAD; lia]). reflexivity.
  - split.
    + rewrite rev_app_distr. apply insert_front_links; try done.
      * intros Hin%Hlt. unfold HEAD in Hin. lia.
      * intros i Hi. apply Hlt. by right.
    + eapply same_core_trans; [exact Hc | apply insert_front_core].
    + intros b' [Hb'| ->%list_elem_of_singleton]%elem_of_app; [|exact Hl1].
      destruct (decide (b' = b)) as [->|Hbb]; [exact Hl1|]. etransitivity; [|by apply (Hs b')].
      change (sleeplocks (put _ k1)) with (sleeplocks k1). rewrite Ho1 by congruence. done.
    + unfold initsleeplock in Hrun. by injection Hrun as <-.
    + eapply frame_trans; [exact Hf|]. unfold initsleeplock in Hrun. injection Hrun as <-. by split.
    + intros Hq0. by apply quiet_put, Hq1, quiet_put, Hq.
Qed.

Lemma binit_spec k :
  blank (bcache k) ->
  wp binit (fun _ k' => binit_inv k (seq 0 NBUF) k' /\
    ring (bcache k') (rev (seq 0 NBUF)) /\
    cache_inv [] (bcache k') (sleeplocks k') (disk k') (pid_of p k') /\
    (forall x, view k' x = disk k x) /\ (forall x, ~ pinned (bcache k') x)) k.
Proof.
  intros [Hlen Hz]. unfold binit. eapply wp_step.
  { eapply (wp_Ret _ (fun _ k' => initlock L_bcache "bcache" k = Ret tt k')); reflexivity. }
  intros [] k1 Hrun. set (t := alter (upd_b_next (fun _ => HEAD)) HEAD (alter (upd_b_prev (fun _ => HEAD)) HEAD (bcache k1))).
  assert (length (bcache k1) = S NBUF) as Hlen1 by (unfold initlock in Hrun; by injection Hrun as <-).
  rewrite <- (put_bcache k1) at 1.
  eapply wp_step; [eapply (wp_Ret _ (fun _ k' => k' = put (alter (upd_b_prev (fun _ => HEAD)) HEAD (bcache k1)) k1));
    [apply set_buf_put_eq; rewrite Hlen1; unfold HEAD; lia | done]|].
  intros [] ? ->. eapply wp_step; [eapply (wp_Ret _ (fun _ k' => k' = put t k1));
    [apply set_buf_put_eq; rewrite length_alter, Hlen1; unfold HEAD; lia | done]|]. intros [] ? ->.
  assert (bcache k1 = bcache k) as E1 by (by injection Hrun as <-).
  eapply wp_mono; [apply (for_each_wp _ _ (binit_inv k))|].
  - intros pre b post k2 Hsp HI. assert (NoDup (pre ++ b :: post)) as Hnd by (rewrite <- Hsp; apply NoDup_seq).
    assert (forall i, i ∈ pre ++ b :: post -> (i < NBUF)%nat) as Hlt by (intros i; rewrite <- Hsp, elem_of_seq; lia).
    apply binit_step; try done.
    + apply list.NoDup_app in Hnd as (H1 & H2 & _). apply list.NoDup_cons. split.
      * rewrite list_elem_of_In, <- in_rev, <- list_elem_of_In. intros Hin. apply (H2 b Hin). left.
      * by rewrite <- Permutation_rev.
    + intros i Hi. apply Hlt, elem_of_app. apply elem_of_cons in Hi as [->|Hi]; [right; left|].
      left. by rewrite list_elem_of_In, <- in_rev, <- list_elem_of_In in Hi.
  - assert (HEAD < length (bcache k))%nat as Hh by (rewrite Hlen; unfold HEAD; lia). split.
    + change (bcache (put t k1)) with t. unfold t. rewrite E1. simpl. split.
      * rewrite nx_set_next by (by rewrite length_alter). apply fn_set_eq.
      * rewrite pv_alter by done. rewrite pv_set_prev by done. apply fn_set_eq.
    + change (bcache (put t k1)) with t. unfold t. rewrite E1. by do 2 (apply same_core_step; [done|]).
    + intros b Hb. by apply not_elem_of_nil in Hb.
    + by injection Hrun as <-.
    + injection Hrun as <-. by split.
    + intros Hq. apply quiet_put. by eapply quiet_initlock.
  - intros [] k2 HI. pose proof HI as [Hl Hc Hs [Hd _] _ _]. split; [done|].
    assert (forall b bf, bcache k2 !! b = Some bf -> b_dev bf <> ROOTDEV /\ b_flags bf = 0 /\ b_refcnt bf = 0) as Hz2.
    { intros b bf Hbf. destruct (same_core_lookup _ _ b bf (same_core_sym _ _ Hc) Hbf) as (bf0 & Hbf0 & (E2 & E3 & _ & E4 & _)%core_fields).
      destruct (Hz b bf0 Hbf0) as (E5 & E6 & E7). rewrite <- E2, <- E3, <- E4, E5, E6, E7. done. }
    split_and!.
    + split_and!; [|symmetry; apply Permutation_rev | done]. by rewrite (same_core_length _ _ Hc).
    + split; [|intros b b' bf bf' _ _ Hbf _ Hd0; by destruct (Hz2 b bf Hbf)|].
      * intros b bf Hb Hbf. destruct (Hz2 b bf Hbf) as (H1 & H2 & H3). split; try (by intros []%not_elem_of_nil).
        -- rewrite decide_False by apply not_elem_of_nil. apply Hs, elem_of_seq. lia.
        -- by rewrite decide_False by apply not_elem_of_nil.
        -- right. split_and!; try done. apply not_elem_of_nil.
        -- intros _ E. rewrite H2 in E. discriminate.
      * split; [constructor|]. by intros b []%not_elem_of_nil.
    + intros x. unfold view. rewrite <- Hd. apply content_miss. intros b bf Hb Hbf.
      destruct (Hz2 b bf Hbf) as (H1 & _). unfold holds. by rewrite (proj2 (Z.eqb_neq _ _)).
    + intros x (b & bf & _ & Hbf & [H1 _]%holds_spec & _). by destruct (Hz2 b bf Hbf).
Qed.
End ops.

(** ** Properties *)

Section properties.
Context `{Machine}.
#[local] Existing Instance memide.

(** C4: the buffer cache is transparent: with the invariant [cache_ok] and a
    buffer to be had, [bread] returns a locked buffer that holds what the
    processes see of the block and changes neither the disk nor the view of
    any block; [bwrite] puts a locked buffer's data on the disk, and there
    only; [brelse] gives the buffer back without changing what is seen; and
    each of them keeps the invariant. *)
Theorem bcache_transparent c p held k :
  cache_ok c p held k ->
  (forall blk, 0 <= blk < disksize k -> room blk k ->
     (forall b bf, b ∈ held -> bcache k !! b = Some bf -> b_blockno bf <> blk) ->
     exists b k', bread ROOTDEV blk k = Ret b k' /\ read_post c p held blk k b k') /\
  (forall b bf, b ∈ held -> mine p b bf k ->
     exists k', bwrite b k = Ret tt k' /\ write_post c p held b bf k k') /\
  (forall b bf rest, held = b :: rest -> mine p b bf k ->
     b_flags bf = PINNED \/ b_data bf = disk k (b_blockno bf) ->
     exists k', brelse b k = Ret tt k' /\ release_post c p rest k k').
Proof.
  intros Hok. split_and!.
  - intros blk Hblk Hroom Hoth. exact (bread_spec c p held blk k Hok Hblk Hroom Hoth).
  - intros b bf Hin Hm. destruct (bwrite_spec c p held b bf k Hok Hin Hm) as ([] & k' & Hrun & Hpost). eauto.
  - intros b bf rest -> Hm Hcl. destruct (brelse_spec c p rest b bf k Hok Hm Hcl) as ([] & k' & Hrun & Hpost). eauto.
Qed.

(** C36: [bget], when no buffer it could take is locked, looks a block up along the list from the most recently used
    buffer on and takes the buffer that caches it; when there is none it
    recycles the least recently used buffer that is neither referenced nor
    dirty, and it panics when there is no such buffer; [brelse] of the last
    reference moves a buffer to the front of the list. *)
Theorem bget_recycles_lru c p k l :
  quiet c p k -> ring (bcache k) l ->
  (forall dev blk,
     (forall b, b ∈ l -> sl_locked (sleeplocks k (SLbuf b)) <> 0 ->
        forall bf, bcache k !! b = Some bf -> wanted dev blk bf = false /\ unused_buf bf = false) ->
     match first_buf (wanted dev blk) (bcache k) l, first_buf unused_buf (bcache k) (rev l) with
     | Some b, _ => exists k', bget dev blk k = Ret b k' /\ ring (bcache k') l
     | None, Some b => exists k' bf, bget dev blk k = Ret b k' /\ ring (bcache k') l /\
         bcache k' !! b = Some bf /\ b_dev bf = dev /\ b_blockno bf = blk /\ b_flags bf = 0 /\ b_refcnt bf = 1
     | None, None => exists k', bget dev blk k = Panic "bget: no buffers" k'
     end) /\
  (forall b bf l1 l2, l = l1 ++ b :: l2 -> mine p b bf k -> b_refcnt bf = 1 ->
     exists k', brelse b k = Ret tt k' /\ ring (bcache k') (b :: l1 ++ l2)).
Proof.
  intros Hq Hr. split.
  - intros dev blk Hlk. pose proof (bget_eq c p dev blk k l Hq Hr Hlk) as Hrun.
    destruct (first_buf (wanted dev blk) (bcache k) l) as [b|] eqn:E1; [|destruct (first_buf unused_buf _ _) as [b|] eqn:E2].
    + eexists. split; [exact Hrun|]. by apply ring_alter.
    + pose proof E2 as (_ & bf & Hbf & _)%first_buf_Some. eexists _, (recycled dev blk bf).
      split; [exact Hrun|]. split_and!; try done; [by apply ring_alter|].
      simpl. by rewrite list_lookup_alter_eq, Hbf.
    + by eexists.
  - intros b bf l1 l2 -> Hm Href. eexists. split; [by apply (brelse_eq c p b bf k l1 l2)|].
    apply to_front_ring. destruct Hm as (Hbf & _). rewrite <- (list_alter_insert (upd_b_refcnt (fun n => u32 (n - 1))) b _ bf Hbf).
    by apply ring_alter.
Qed.

(** [binit] makes the zeroed buffers a ring, the last one in front, with
    nothing cached: it establishes the invariant of the cache, and what the
    processes see is the disk. *)
Theorem binit_establishes c p k :
  quiet c p k -> blank (bcache k) ->
  exists k', binit k = Ret tt k' /\ cache_ok c p [] k' /\ ring (bcache k') (rev (seq 0 NBUF)) /\
    (forall x, view k' x = disk k x) /\ (forall x, ~ pinned (bcache k') x) /\ disk k' = disk k.
Proof.
  intros Hq Hb. destruct (binit_spec c p k Hb) as ([] & k' & Hrun & [_ _ _ [Hd _] _ Hq'] & Hr & Hinv & Hv & Hp).
  exists k'. split_and!; try done. split; [by apply Hq' | by eexists | done].
Qed.
End properties.

(** *** On a concrete machine *)

Lemma boot_blank : blank (bcache (on_cpu 0 0 boot)).
Proof.
  split; [done|]. intros b bf Hbf. change (repeat zero_buf 31 !! b = Some bf) in Hbf.
  assert (bf = zero_buf) as ->; [|done]. by apply list_elem_of_lookup_2, list_elem_of_In, repeat_spec in Hbf.
Qed.

(** The cache right after [binit]. *)
Lemma boot_cache `{Machine} :
  exists k, binit (on_cpu 0 0 boot) = Ret tt k /\ cache_ok 0 0 [] k /\ ring (bcache k) (rev (seq 0 NBUF)) /\
    disksize k = FSSIZE /\ (forall b bf, bcache k !! b = Some bf -> unused_buf bf = true /\ b_dev bf = 0) /\
    (forall b, (b < NBUF)%nat -> sl_locked (sleeplocks k (SLbuf b)) = 0) /\ (forall x, view k x = repeat 0 512).
Proof.
  destruct (binit_spec 0 0 _ boot_blank) as ([] & k & Hrun & [_ Hc Hl [Hd _] Hf Hq'] & Hr & Hinv & Hv & Hp).
  exists k. split_and!; [exact Hrun | split; [exact (Hq' boot_quiet) | eexists; exact Hr | exact Hinv] | exact Hr | exact (fr_size _ _ _ Hf) | | | exact Hv].
  - intros b bf Hbf. destruct (same_core_lookup _ _ b bf (same_core_sym _ _ Hc) Hbf) as (bf0 & Hbf0 & (E2 & E3 & _ & E4 & _)%core_fields).
    destruct boot_blank as [_ Hz]. destruct (Hz b bf0 Hbf0) as (E5 & E6 & E7).
    unfold unused_buf. rewrite <- E2, <- E3, <- E4, E5, E6, E7. done.
  - intros b Hb. apply Hl, elem_of_seq. lia.
Qed.

Lemma binit_establishes_witness :
  exists k', binit (on_cpu 0 0 boot) = Ret tt k' /\ cache_ok 0 0 [] k' /\ view k' 33 = repeat 0 512.
Proof.
  destruct (binit_establishes 0 0 _ boot_quiet boot_blank) as (k' & Hrun & Hok & _ & Hv & _).
  exists k'. split_and!; [exact Hrun | exact Hok | exact (Hv 33)].
Defined.

Lemma bcache_transparent_witness :
  let _ := alone LOTTERY in
  exists k b k' bf, cache_ok 0 0 [] k /\ @bread _ memide ROOTDEV 33 k = Ret b k' /\
    bcache k' !! b = Some bf /\ b_data bf = repeat 0 512 /\ cache_ok 0 0 [b] k'.
Proof.
  intros M. destruct (@boot_cache M) as (k & _ & Hok & Hr & Hs & Hun & _ & Hv).
  destruct (bcache_transparent 0 0 [] k Hok) as (Hread & _).
  destruct (Hread 33) as (b & k' & Hrun & [Hok' _ (bf & (Hbf & _) & _ & Hda & _) _ _ _ _ _]).
  - rewrite Hs. unfold FSSIZE. lia.
  - left. destruct (lookup_lt_is_Some_2 (bcache k) 0) as [bf Hbf]; [by rewrite (proj1 Hr); unfold NBUF; lia|].
    exists 0%nat, bf. split_and!; [unfold NBUF; lia | done | by eapply Hun].
  - by intros b bf []%not_elem_of_nil.
  - exists k, b, k', bf. split_and!; [done | done | done | by rewrite Hda, Hv | done].
Defined.

Lemma bget_recycles_lru_witness :
  let _ := alone LOTTERY in
  exists k k' bf, ring (bcache k) (rev (seq 0 NBUF)) /\ bget ROOTDEV 33 k = Ret 0%nat k' /\
    bcache k' !! 0%nat = Some bf /\ b_blockno bf = 33.
Proof.
  intros M. destruct (@boot_cache M) as (k & _ & [Hq _ _] & Hr & Hs & Hun & Hl & _).
  destruct (bget_recycles_lru 0 0 k _ Hq Hr) as (Hget & _). specialize (Hget ROOTDEV 33).
  destruct (lookup_lt_is_Some_2 (bcache k) 0) as [bf0 Hbf0]; [by rewrite (proj1 Hr); unfold NBUF; lia|].
  destruct (first_buf (wanted ROOTDEV 33) (bcache k) (rev (seq 0 NBUF))) as [b|] eqn:E1.
  { apply first_buf_Some in E1 as (_ & bf & Hbf & [Hd _]%holds_spec). by destruct (Hun b bf Hbf) as [_ Hd0]; rewrite Hd0 in Hd. }
  replace (first_buf unused_buf (bcache k) (rev (rev (seq 0 NBUF)))) with (Some 0%nat) in Hget.
  - destruct Hget as (k' & bf & Hrun & _ & Hbf & _ & Hn & _); [|by exists k, k', bf].
    intros b Hin Hlk. destruct Hlk. apply Hl. by apply (ring_elem _ _ _ Hr).
  - rewrite rev_involutive. unfold first_buf. simpl. rewrite Hbf0. by rewrite (proj1 (Hun _ _ Hbf0)).
Defined.
