(* ===== verification/Ide.v ===== *)
(** ide.c: the driver of the IDE disk.  Requests wait in a queue linked through
    the buffers; the first one is at the disk, and its interrupt finishes it and
    starts the next. *)

From S2P Require Import Prelude Memory KString Kernel Spinlock Boot Io Lapic Cprintf Ioapic Proc Sleeplock Bio Cache.

Definition SECTOR_SIZE : Z := 512.
Definition IDE_BSY : Z := 0x80.
Definition IDE_DRDY : Z := 0x40.
Definition IDE_DF : Z := 0x20.
Definition IDE_ERR : Z := 0x01.
Definition IDE_CMD_READ : Z := 0x20.
Definition IDE_CMD_WRITE : Z := 0x30.
Definition IDE_CMD_RDMUL : Z := 0xc4.
Definition IDE_CMD_WRMUL : Z := 0xc5.

Section ide.
Context `{Machine} `{Ports}.

Definition idewait (checkerr : bool) : M Z :=
  let* r := poll (inb 0x1f7) (fun r => Z.land r (Z.lor IDE_BSY IDE_DRDY) =? IDE_DRDY) in
  if checkerr && negb (Z.land r (Z.lor IDE_DF IDE_ERR) =? 0) then ret (-1) else ret 0.

(** Looks 1000 times for a second disk. *)
Definition ideinit : M unit :=
  initlock L_ide "ide" ;;
  let* n := gets ncpu in
  ioapicenable IRQ_IDE (Z.of_nat n - 1) ;;
  idewait false ;;
  outb 0x1f6 (Z.lor 0xe0 (Z.shiftl 1 4)) ;;
  iter 1001 (fun i =>
    if (i <? 1000)%nat then
      let* r := inb 0x1f7 in
      if negb (r =? 0) then modify (upd_havedisk1 (fun _ => 1)) ;; ret (inr tt)
      else ret (inl (S i))
    else ret (inr tt)) 0%nat ;;
  outb 0x1f6 (Z.lor 0xe0 (Z.shiftl 0 4)).

Definition idestart (b : option nat) : M unit :=
  match b with
  | None => panic "idestart"
  | Some b =>
      let* bf := get_buf b in
      if FSSIZE <=? b_blockno bf then panic "incorrect blockno" else
      let sector_per_block := BSIZE / SECTOR_SIZE in
      let sector := s32 (b_blockno bf * sector_per_block) in
      let read_cmd := if sector_per_block =? 1 then IDE_CMD_READ else IDE_CMD_RDMUL in
      let write_cmd := if sector_per_block =? 1 then IDE_CMD_WRITE else IDE_CMD_WRMUL in
      if 7 <? sector_per_block then panic "idestart" else
      idewait false ;;
      outb 0x3f6 0 ;;
      outb 0x1f2 sector_per_block ;;
      outb 0x1f3 (Z.land sector 0xff) ;;
      outb 0x1f4 (Z.land (Z.shiftr sector 8) 0xff) ;;
      outb 0x1f5 (Z.land (Z.shiftr sector 16) 0xff) ;;
      outb 0x1f6 (Z.lor (Z.lor 0xe0 (Z.shiftl (Z.land (b_dev bf) 1) 4)) (Z.land (Z.shiftr sector 24) 0x0f)) ;;
      if truthy (Z.land (b_flags bf) B_DIRTY) then
        outb 0x1f7 write_cmd ;;
        outsl 0x1f0 (take (4 * Z.to_nat (BSIZE / 4)) (b_data bf))
      else outb 0x1f7 read_cmd
  end.

Definition ideintr : M unit :=
  acquire L_ide ;;
  let* q := gets idequeue in
  match q with
  | None => release L_ide
  | Some b =>
      let* bf := get_buf b in
      modify (upd_idequeue (fun _ => b_qnext bf)) ;;
      (if negb (truthy (Z.land (b_flags bf) B_DIRTY)) then
         let* r := idewait true in
         when (0 <=? r) (
           let* bs := insl 0x1f0 (Z.to_nat (BSIZE / 4)) in
           set_buf b (upd_b_data (fun _ => bs)))
       else ret tt) ;;
      set_buf b (upd_b_flags (fun fl => Z.lor fl B_VALID)) ;;
      set_buf b (upd_b_flags (fun fl => Z.land fl (Z.lnot B_DIRTY))) ;;
      wakeup (CBuf b) ;;
      let* q := gets idequeue in
      when (bool_decide (q <> None)) (idestart q) ;;
      release L_ide
  end.

(** The walk along the queue to its last link, which is then set. *)
Definition enqueue (b : nat) : M unit :=
  let* q := gets idequeue in
  match q with
  | None => modify (upd_idequeue (fun _ => Some b))
  | Some first =>
      iter (S NBUF) (fun p =>
        let* bf := get_buf p in
        match b_qnext bf with
        | None => set_buf p (upd_b_qnext (fun _ => Some b)) ;; ret (inr tt)
        | Some p => ret (inl p)
        end) first
  end.

(** Queues the request and starts the disk if it is the only one. *)
Definition submit (b : nat) : M unit :=
  set_buf b (upd_b_qnext (fun _ => None)) ;;
  enqueue b ;;
  let* q := gets idequeue in
  when (bool_decide (q = Some b)) (idestart (Some b)).

Definition ide_iderw (b : nat) : M unit :=
  let* h := holdingsleep (SLbuf b) in
  if negb h then panic "iderw: buf not locked" else
  let* bf := get_buf b in
  if Z.land (b_flags bf) (Z.lor B_VALID B_DIRTY) =? B_VALID then panic "iderw: nothing to do" else
  let* disk1 := gets havedisk1 in
  if negb (b_dev bf =? 0) && (disk1 =? 0) then panic "iderw: ide disk 1 not present" else
  acquire L_ide ;;
  submit b ;;
  sleep_loop (
    let* bf := get_buf b in
    if negb (Z.land (b_flags bf) (Z.lor B_VALID B_DIRTY) =? B_VALID) then
      sleep (CBuf b) (Some L_ide) ;;
      ret None
    else ret (Some tt)) ;;
  release L_ide.

Definition ide : BlockDriver := {| iderw := ide_iderw |}.
End ide.

(** ** The disk *)

(** What the drive is doing: nothing; a read or a write, with the disk, the
    next sector and the number of sectors still to be transferred; a write
    whose data have arrived; or, after an access outside the protocol, nobody
    knows what. *)
Inductive activity :=
| Idle
| Reading (u : bool) (n count : Z)
| Writing (u : bool) (n count : Z)
| Written (u : bool) (n : Z)
| Unknown.

(** A drive as its registers and sectors: the control register, the sector
    count, the sector number in four registers, the last with the disk in
    bit 4, whether it has reported to be ready since it last had work to do,
    what it does, and the sectors of both disks. *)
Record drive := Drive {
  ctl : Z; r2 : Z; r3 : Z; r4 : Z; r5 : Z; r6 : Z;
  settled : bool;
  op : activity;
  sectors : bool -> Z -> list Z }.

Definition lba (d : drive) : Z := r3 d + 2 ^ 8 * r4 d + 2 ^ 16 * r5 d + 2 ^ 24 * Z.land (r6 d) 0xf.
Definition unit_of (d : drive) : bool := Z.testbit (r6 d) 4.

Definition set_op (d : drive) (st : bool) (o : activity) : drive :=
  Drive (ctl d) (r2 d) (r3 d) (r4 d) (r5 d) (r6 d) st o (sectors d).

(** No transfer is under way. *)
Definition free (d : drive) : bool :=
  match op d with Idle | Written _ _ => true | _ => false end.

(** A command takes the sectors from the registers, a count of 0 standing for
    256; the sector number is one only with bit 6 of its last register set. *)
Definition command (d : drive) (v : Z) : drive :=
  let count := if r2 d =? 0 then 256 else r2 d in
  set_op d false (
    if negb (Z.testbit (r6 d) 6) then Unknown
    else if v =? IDE_CMD_READ then Reading (unit_of d) (lba d) count
    else if v =? IDE_CMD_WRITE then Writing (unit_of d) (lba d) count
    else Unknown).

Definition set_register (d : drive) (port v : Z) : drive :=
  if port =? 0x1f2 then Drive (ctl d) v (r3 d) (r4 d) (r5 d) (r6 d) (settled d) (op d) (sectors d)
  else if port =? 0x1f3 then Drive (ctl d) (r2 d) v (r4 d) (r5 d) (r6 d) (settled d) (op d) (sectors d)
  else if port =? 0x1f4 then Drive (ctl d) (r2 d) (r3 d) v (r5 d) (r6 d) (settled d) (op d) (sectors d)
  else if port =? 0x1f5 then Drive (ctl d) (r2 d) (r3 d) (r4 d) v (r6 d) (settled d) (op d) (sectors d)
  else Drive (ctl d) (r2 d) (r3 d) (r4 d) (r5 d) v (settled d) (op d) (sectors d).

(** The protocol of the drive.  Registers and commands are for a drive that has
    reported to be ready and transfers nothing; a sector is read only after a
    command to read it and after the drive has then reported to be ready, and
    written only after a command to write it. *)
Definition drive_step (d : drive) (e : ioevent) : drive :=
  match e with
  | EIn port v =>
      if (port =? 0x1f7) && (Z.land v (Z.lor IDE_BSY IDE_DRDY) =? IDE_DRDY) then set_op d true (op d) else d
  | EOut port v =>
      if port =? 0x3f6 then Drive v (r2 d) (r3 d) (r4 d) (r5 d) (r6 d) (settled d) (op d) (sectors d)
      else if (0x1f2 <=? port) && (port <=? 0x1f7) then
        if settled d && free d then
          if port =? 0x1f7 then command d v else set_register d port v
        else set_op d (settled d) Unknown
      else d
  | EInS port _ =>
      if port =? 0x1f0 then
        set_op d false
          match op d with
          | Reading u n count =>
              if settled d then if count =? 1 then Idle else Reading u (n + 1) (count - 1) else Unknown
          | _ => Unknown
          end
      else d
  | EOutS port bs =>
      if port =? 0x1f0 then
        match op d with
        | Writing u n count =>
            if (length bs =? 512)%nat then
              Drive (ctl d) (r2 d) (r3 d) (r4 d) (r5 d) (r6 d) false
                (if count =? 1 then Written u n else Writing u (n + 1) (count - 1))
                (fun v x => if Bool.eqb v u && (x =? n) then bs else sectors d v x)
            else set_op d false Unknown
        | _ => set_op d false Unknown
        end
      else d
  | _ => d
  end.

Definition drive_after (d : drive) (h : list ioevent) : drive := foldl drive_step d h.

(** What the driver relies on, of a drive that has been used by the protocol:
    it becomes ready while it is polled, reports no error, and delivers the
    sectors of a read command once it is ready. *)
Record ide_law `{Ports} (init : drive) : Prop := {
  law_ready : forall h, op (drive_after init h) <> Unknown -> exists n, (n < POLLS)%nat /\
    Z.land (u8 (port_in (h ++ reads 0x1f7 n h) 0x1f7)) (Z.lor IDE_BSY IDE_DRDY) = IDE_DRDY;
  law_ok : forall h, op (drive_after init h) <> Unknown ->
    Z.land (u8 (port_in h 0x1f7)) (Z.lor IDE_DF IDE_ERR) = 0;
  law_data : forall h u n count, let d := drive_after init h in
    op d = Reading u n count -> settled d = true -> port_ins h 0x1f0 512 = sectors d u n;
}.

Definition settle (d : drive) : drive := set_op d true (op d).

Lemma drive_after_app d h1 h2 : drive_after d (h1 ++ h2) = drive_after (drive_after d h1) h2.
Proof. apply foldl_app. Qed.

Lemma drive_step_read d v :
  drive_step d (EIn 0x1f7 v) = settle d \/ drive_step d (EIn 0x1f7 v) = d.
Proof. simpl. destruct (_ =? IDE_DRDY); auto. Qed.

Lemma drive_op_reads d evs : Forall (is_read 0x1f7) evs -> op (drive_after d evs) = op d.
Proof.
  intros HF. revert d. induction HF as [|e evs He _ IH]; intros d; [done|]. destruct e; try done. simpl in He. subst port.
  change (op (drive_after (drive_step d (EIn 0x1f7 v)) evs) = op d). rewrite IH. by destruct (drive_step_read d v) as [-> | ->].
Qed.

(** Polling until the drive is ready. *)
Lemma drive_polls d evs v :
  Forall (is_read 0x1f7) evs -> Z.land v (Z.lor IDE_BSY IDE_DRDY) = IDE_DRDY ->
  drive_after d (evs ++ [EIn 0x1f7 v]) = settle d.
Proof.
  intros HF Hv. revert d. induction HF as [|e evs He _ IH]; intros d.
  - simpl. by rewrite Hv.
  - destruct e; try done. simpl in He. subst port.
    change (drive_after (drive_step d (EIn 0x1f7 v0)) (evs ++ [EIn 0x1f7 v]) = settle d). rewrite IH.
    by destruct (drive_step_read d v0) as [-> | ->].
Qed.

Lemma poll_drive `{Ports} init (law : ide_law init) k :
  op (drive_after init (ioevents k)) <> Unknown ->
  exists v evs, poll (inb 0x1f7) (fun r => Z.land r (Z.lor IDE_BSY IDE_DRDY) =? IDE_DRDY) k = Ret v (logged evs k) /\
    Z.land v (Z.lor IDE_DF IDE_ERR) = 0 /\
    drive_after init (ioevents k ++ evs) = settle (drive_after init (ioevents k)).
Proof.
  intros Hop. destruct (law_ready _ law _ Hop) as (n & Hn & Hr).
  destruct (poll_inb 0x1f7 (fun r => Z.land r (Z.lor IDE_BSY IDE_DRDY) =? IDE_DRDY) k n Hn) as (evs & E & Hv & HF);
    [by apply Z.eqb_eq|].
  eexists _, _. split_and!; [exact E | |].
  - apply (law_ok _ law). by rewrite drive_after_app, drive_op_reads.
  - rewrite drive_after_app. apply drive_polls; [done | by apply Z.eqb_eq].
Qed.

(** ** The queue *)

(** A buffer that may be sent to the disk. *)
Definition request (bf : buf) : Prop :=
  0 <= b_blockno bf < FSSIZE /\ 0 <= b_dev bf /\ length (b_data bf) = 512%nat.
Definition disk_of (bf : buf) : bool := Z.testbit (b_dev bf) 0.
Definition dirty (bf : buf) : bool := truthy (Z.land (b_flags bf) B_DIRTY).

Fixpoint links (t : list buf) (q : option nat) (l : list nat) : Prop :=
  match l with
  | [] => q = None
  | b :: l => q = Some b /\ exists bf, t !! b = Some bf /\ request bf /\ links t (b_qnext bf) l
  end.

(** The drive is at work on [bf]: it raises an interrupt when it has finished,
    and it has a command to read the block of [bf], that block only, or had
    one to write it and has got the data. *)
Definition active (d : drive) (bf : buf) : Prop :=
  Z.testbit (ctl d) 1 = false /\
  if dirty bf then op d = Written (disk_of bf) (b_blockno bf) /\ sectors d (disk_of bf) (b_blockno bf) = b_data bf
  else op d = Reading (disk_of bf) (b_blockno bf) 1.

Definition strip (t : list buf) : list buf := upd_b_qnext (fun _ => None) <$> t.

Lemma links_frame t t' q l :
  links t q l -> (forall b, b ∈ l -> t' !! b = t !! b) -> links t' q l.
Proof.
  revert q. induction l as [|b l IH]; intros q; [done|]. intros (-> & bf & Hb & Hr & Hl) Ht. split; [done|].
  exists bf. split_and!; [rewrite Ht; [done|constructor]|done|]. apply IH; [done|]. intros x Hx. apply Ht. by constructor.
Qed.

Lemma links_lt t q l b : links t q l -> b ∈ l -> (b < length t)%nat.
Proof.
  revert q. induction l as [|x l IH]; intros q; [inversion 2|]. intros (-> & bf & Hb & _ & Hl) [->|Hin]%elem_of_cons.
  - by eapply lookup_lt_Some.
  - by eapply IH.
Qed.

Lemma links_length t q l : links t q l -> NoDup l -> (length l <= length t)%nat.
Proof.
  intros Hl ND. rewrite <- (length_seq (length t) 0). apply submseteq_length, NoDup_submseteq; [done|].
  intros b Hb. apply elem_of_seq. pose proof (links_lt _ _ _ _ Hl Hb). lia.
Qed.

Definition link_to (b : nat) : buf -> buf := upd_b_qnext (fun _ => Some b).

(** The last buffer of the queue that starts with [p]. *)
Fixpoint last_of (p : nat) (l : list nat) : nat :=
  match l with
  | [] => p
  | x :: l => last_of x l
  end.

Lemma last_of_elem p l : last_of p l ∈ p :: l.
Proof. revert p. induction l as [|x l IH]; intros p; [by constructor|]. right. apply IH. Qed.

Lemma walk_eq b l p fuel k :
  links (bcache k) (Some p) (p :: l) -> (length (p :: l) <= fuel)%nat ->
  iter fuel (fun p =>
    let* bf := get_buf p in
    match b_qnext bf with
    | None => set_buf p (upd_b_qnext (fun _ => Some b)) ;; ret (inr tt)
    | Some p => ret (inl p)
    end) p k = Ret tt (upd_bcache (alter (link_to b) (last_of p l)) k).
Proof.
  revert p fuel. induction l as [|x l IH]; intros p fuel (_ & bf & Hb & _ & Hl) Hf.
  - destruct fuel as [|fuel]; [simpl in Hf; lia|]. cbn [iter]. mcall get_buf_eq. simpl in Hl. rewrite Hl. mrun. by rewrite bind_set_buf by in_table.
  - destruct fuel as [|fuel]; [simpl in Hf; lia|]. cbn [iter]. mcall get_buf_eq.
    pose proof Hl as (Hx & _). rewrite Hx in Hl |- *. mrun. rewrite IH; [|done|simpl in *; lia].
    done.
Qed.

Lemma links_snoc t b bf p l :
  links t (Some p) (p :: l) -> NoDup (p :: l) -> b ∉ p :: l ->
  t !! b = Some bf -> request bf -> b_qnext bf = None ->
  links (alter (link_to b) (last_of p l) t) (Some p) (p :: l ++ [b]).
Proof.
  intros Hl ND Hnin Hb Hr Hq. revert p Hl ND Hnin. induction l as [|x l IH]; intros p (_ & pf & Hp & Hpr & Hl) ND Hnin.
  - split; [done|]. exists (link_to b pf). simpl. rewrite list_lookup_alter_eq, Hp. split_and!; [done|done|done|].
    exists bf. rewrite list_lookup_alter_ne by (intros ->; apply Hnin; constructor). done.
  - pose proof Hl as (Hx & _). rewrite Hx in Hl. apply list.NoDup_cons in ND as [Hpn ND]. split; [done|]. exists pf.
    simpl last_of. rewrite list_lookup_alter_ne by (intros E; apply Hpn; rewrite <- E; apply last_of_elem).
    split_and!; [done|done|]. rewrite Hx. apply (IH x Hl ND). intros Hin. apply Hnin. by right.
Qed.

Lemma strip_alter f i t : (forall bf, upd_b_qnext (fun _ => None) (f bf) = upd_b_qnext (fun _ => None) bf) ->
  strip (alter f i t) = strip t.
Proof.
  intros Hf. unfold strip. apply list_eq. intros j. rewrite !list_lookup_fmap.
  destruct (decide (i = j)) as [->|]; [|by rewrite list_lookup_alter_ne].
  rewrite list_lookup_alter_eq. destruct (t !! j); simpl; [by rewrite Hf|done].
Qed.

(** Queueing puts the buffer at the end and changes nothing but the links. *)
Lemma enqueue_spec k b bf l :
  links (bcache k) (idequeue k) l -> NoDup l -> b ∉ l -> length (bcache k) = S NBUF ->
  bcache k !! b = Some bf -> request bf -> b_qnext bf = None ->
  exists t q, enqueue b k = Ret tt (upd_bcache (fun _ => t) (upd_idequeue (fun _ => q) k)) /\
    links t q (l ++ [b]) /\ strip t = strip (bcache k) /\ (l = [] -> t = bcache k).
Proof.
  intros Hl ND Hnin Hlen Hb Hr Hq. unfold enqueue. destruct l as [|p l].
  - simpl in Hl. mrun. rewrite Hl. exists (bcache k), (Some b). split_and!; [|split; [done|by exists bf]|done|done].
    reflexivity.
  - pose proof Hl as (Hp & _). pose proof (links_length _ _ _ Hl ND) as Hle. rewrite Hlen in Hle. rewrite Hp in Hl. mrun. rewrite Hp.
    exists (alter (link_to b) (last_of p l) (bcache k)), (idequeue k). rewrite (walk_eq b l) by done. split_and!.
    + reflexivity.
    + rewrite Hp. by apply links_snoc with bf.
    + by apply strip_alter.
    + done.
Qed.

(** ** The driver and the drive *)

Section driver.
Context `{Machine} `{Ports} (init : drive) (law : ide_law init).

Definition drive_now (k : kernel) : drive := drive_after init (ioevents k).

Lemma idewait_spec e k : op (drive_now k) <> Unknown ->
  exists evs, idewait e k = Ret 0 (logged evs k) /\ drive_after init (ioevents k ++ evs) = settle (drive_now k).
Proof using law.
  intros Hop. destruct (poll_drive init law k Hop) as (v & evs & E & Hv & Hd).
  exists evs. split; [|done]. unfold idewait. rewrite (bind_Ret _ _ _ _ _ E), Hv. by rewrite andb_false_r.
Qed.

(** The registers as [idestart] programs them name the block of the buffer. *)
Lemma lba_registers s : 0 <= s < FSSIZE ->
  u8 (Z.land s 0xff) + 2 ^ 8 * u8 (Z.land (Z.shiftr s 8) 0xff) + 2 ^ 16 * u8 (Z.land (Z.shiftr s 16) 0xff) = s /\
  Z.land (Z.shiftr s 24) 0x0f = 0.
Proof.
  intros Hs. change FSSIZE with 1000 in Hs. change 0xff with (Z.ones 8). change 0x0f with (Z.ones 4).
  rewrite !Z.land_ones, !Z.shiftr_div_pow2 by lia. unfold u8. Z.div_mod_to_equations. lia.
Qed.

Lemma unit_register dev hi : hi = 0 ->
  let r := u8 (Z.lor (Z.lor 0xe0 (Z.shiftl (Z.land dev 1) 4)) hi) in
  Z.testbit r 4 = Z.testbit dev 0 /\ Z.land r 0xf = 0 /\ Z.testbit r 6 = true.
Proof.
  intros ->. change 1 with (Z.ones 1). rewrite Z.land_ones by lia. change (2 ^ 1) with 2.
  pose proof (Z.bit0_mod dev) as Hb. destruct (Z.testbit dev 0); simpl in Hb; rewrite <- Hb; done.
Qed.

(** The drive after the registers have been set and a command given. *)
Lemma drive_programmed d v3 v4 v5 v6 cmd :
  settled d = true -> free d = true ->
  drive_after d [EOut 0x3f6 0; EOut 0x1f2 1; EOut 0x1f3 v3; EOut 0x1f4 v4; EOut 0x1f5 v5; EOut 0x1f6 v6; EOut 0x1f7 cmd] =
    command (Drive 0 1 v3 v4 v5 v6 true (op d) (sectors d)) cmd.
Proof.
  intros Hs Hf. destruct d as [x0 x2 x3 x4 x5 x6 st o sec]. simpl in Hs. subst st.
  unfold free in Hf. simpl in Hf. destruct o; done.
Qed.

Lemma idestart_spec b bf k :
  bcache k !! b = Some bf -> request bf -> free (drive_now k) = true ->
  exists evs, idestart (Some b) k = Ret tt (logged evs k) /\
    let d := drive_after init (ioevents k ++ evs) in active d bf /\
    forall u x, sectors d u x = if dirty bf && Bool.eqb u (disk_of bf) && (x =? b_blockno bf) then b_data bf
                                else sectors (drive_now k) u x.
Proof using law.
  intros Hb (Hr & Hd & Hlen) Hfree.
  destruct (idewait_spec false k) as (evs & Ew & Hset); [intros E; unfold free in Hfree; by rewrite E in Hfree|].
  set (s := b_blockno bf) in *. destruct (lba_registers s Hr) as [Hlba Hhi].
  destruct (unit_register (b_dev bf) _ Hhi) as (Hu & Hz & H6).
  assert (Hs : s32 (s * (BSIZE / SECTOR_SIZE)) = s).
  { change (BSIZE / SECTOR_SIZE) with 1. change FSSIZE with 1000 in Hr. rewrite Z.mul_1_r, s32_small; lia. }
  set (v3 := u8 (Z.land s 0xff)) in *. set (v4 := u8 (Z.land (Z.shiftr s 8) 0xff)) in *. set (v5 := u8 (Z.land (Z.shiftr s 16) 0xff)) in *.
  set (v6 := u8 (Z.lor (Z.lor 0xe0 (Z.shiftl (Z.land (b_dev bf) 1) 4)) (Z.land (Z.shiftr s 24) 0x0f))) in *.
  set (regs := [EOut 0x3f6 0; EOut 0x1f2 1; EOut 0x1f3 v3; EOut 0x1f4 v4; EOut 0x1f5 v5; EOut 0x1f6 v6]).
  exists (evs ++ (regs ++ [EOut 0x1f7 (if dirty bf then IDE_CMD_WRITE else IDE_CMD_READ)]) ++
          if dirty bf then [EOutS 0x1f0 (b_data bf)] else []).
  split.
  - unfold idestart. mcall get_buf_eq. fold s. destruct (Z.leb_spec FSSIZE s); [lia|].
    rewrite Hs. change (BSIZE / SECTOR_SIZE) with 1. cbn [Z.ltb Z.compare Z.eqb Pos.eqb]. cbv iota.
    change (7 <? 1) with false. cbv iota. rewrite (bind_Ret _ _ _ _ _ Ew). rewrite <- logged_logged. set (k1 := logged evs k).
    rewrite (take_ge (b_data bf)) by (rewrite Hlen; done).
    unfold outb, event. mrun. unfold dirty. destruct (truthy (Z.land (b_flags bf) B_DIRTY)).
    + mrun. unfold outsl, event, modify. f_equal. unfold logged. kernel_eq. by rewrite <- !app_assoc.
    + unfold modify. f_equal. unfold logged. kernel_eq. by rewrite <- !app_assoc.
  - cbv zeta. rewrite app_assoc, drive_after_app, Hset, drive_after_app. unfold regs. cbn [app].
    rewrite drive_programmed by done. cbn [settle set_op op sectors].
    set (d1 := Drive _ _ _ _ _ _ _ _ _).
    assert (lba d1 = s) as Hn by (unfold lba, d1; cbn [r3 r4 r5 r6]; rewrite Hz, Z.mul_0_r, Z.add_0_r; exact Hlba).
    assert (unit_of d1 = disk_of bf) as Hun by exact Hu.
    unfold active. fold s. destruct (dirty bf); unfold command; cbn [r2 d1]; fold d1; change (Z.testbit (r6 d1) 6) with (Z.testbit v6 6);
      rewrite H6, Hn, Hun; cbn [negb].
    + unfold drive_after. cbn. rewrite Hlen. cbn. rewrite Bool.eqb_reflx, Z.eqb_refl. split_and!; done.
    + split_and!; done.
Qed.

(** The queue as a list, its first request at the drive. *)
Record ide_inv (k : kernel) (l : list nat) : Prop := {
  q_links : links (bcache k) (idequeue k) l;
  q_nodup : NoDup l;
  q_length : length (bcache k) = S NBUF;
  q_active : match l with
             | [] => free (drive_now k) = true
             | b :: _ => exists bf, bcache k !! b = Some bf /\ active (drive_now k) bf
             end;
}.

(** The blocks on the disks after the write of [bf], if there is one. *)
Definition wrote (bf : buf) (s s' : bool -> Z -> list Z) : Prop :=
  forall u x, s' u x = if dirty bf && Bool.eqb u (disk_of bf) && (x =? b_blockno bf) then b_data bf else s u x.

Lemma strip_lookup t t' b bf :
  strip t' = strip t -> t !! b = Some bf -> exists q, t' !! b = Some (upd_b_qnext (fun _ => q) bf).
Proof.
  intros Hs Hb. apply (f_equal (fun l => l !! b)) in Hs. unfold strip in Hs. rewrite !list_lookup_fmap, Hb in Hs.
  destruct (t' !! b) as [bf'|]; [|done]. injection Hs as Hs. exists (b_qnext bf'). f_equal.
  destruct bf, bf'. unfold upd_b_qnext in *. simpl in *. congruence.
Qed.

Lemma submit_spec k l b bf :
  ide_inv k l -> b ∉ l -> bcache k !! b = Some bf -> request bf ->
  exists t q evs, let k' := upd_bcache (fun _ => t) (upd_idequeue (fun _ => q) (logged evs k)) in
    submit b k = Ret tt k' /\ ide_inv k' (l ++ [b]) /\ strip t = strip (bcache k) /\
    if bool_decide (l = []) then wrote bf (sectors (drive_now k)) (sectors (drive_now k')) else evs = [].
Proof using law.
  intros I Hnin Hb Hr. unfold submit. rewrite bind_set_buf by in_table.
  set (bf0 := upd_b_qnext (fun _ => None) bf). set (k0 := upd_bcache _ k).
  assert (Hb0 : bcache k0 !! b = Some bf0) by (unfold k0; rec_simpl; by rewrite list_lookup_alter_eq, Hb).
  assert (Hl0 : links (bcache k0) (idequeue k0) l).
  { eapply links_frame; [apply I|]. intros x Hx. unfold k0. rec_simpl. apply list_lookup_alter_ne. congruence. }
  destruct (enqueue_spec k0 b bf0 l) as (t & q & E & Hl & Hst & Hnil); try done; [apply I|unfold k0; rec_simpl; rewrite length_alter; apply I|].
  rewrite (bind_Ret _ _ _ _ _ E). mrun.
  assert (Hlen : length t = S NBUF).
  { apply (f_equal length) in Hst. unfold strip in Hst. rewrite !length_fmap in Hst. rewrite Hst. unfold k0. rec_simpl. rewrite length_alter. apply I. }
  assert (Hst' : strip t = strip (bcache k)) by (rewrite Hst; by apply strip_alter).
  assert (ND : NoDup (l ++ [b])) by (apply list.NoDup_app; split_and!; [apply I|intros x Hx ->%list_elem_of_singleton; done|apply NoDup_singleton]).
  destruct l as [|p l].
  - specialize (Hnil eq_refl). destruct Hl as (Hq & bf1 & Hb1 & Hr1 & Hnone). rec_simpl. rewrite Hq, bool_decide_true by done. mrun.
    assert (bf1 = bf0) as -> by congruence.
    set (k1 := upd_bcache (fun _ => t) _).
    destruct (idestart_spec b bf0 k1) as (evs & Es & Ha & Hw); [done|done|exact (q_active _ _ I)|].
    exists t, (Some b), evs. rewrite Hq in *. split_and!.
    + unfold when. rewrite Es. reflexivity.
    + split; [split; [done|by exists bf0]|done|done|]. exists bf0. split; [done|exact Ha].
    + done.
    + exact Hw.
  - exists t, q, []. destruct (q_active _ _ I) as (pf & Hp & Hact). pose proof Hl as (Hq & _). simpl in Hq. rec_simpl.
    rewrite bool_decide_false by (rewrite Hq; intros [= ->]; apply Hnin; by left). rewrite logged_nil. split_and!; try done.
    split; try done. simpl. destruct (strip_lookup _ _ p pf Hst' Hp) as [q' Hp']. exists (upd_b_qnext (fun _ => q') pf).
    split; [done|]. exact Hact.
Qed.

(** The buffer of a finished request. *)
Definition finished (d : drive) (bf : buf) : buf :=
  upd_b_flags (fun fl => Z.land (Z.lor fl B_VALID) (Z.lnot B_DIRTY))
    (upd_b_data (fun bs => if dirty bf then bs else sectors d (disk_of bf) (b_blockno bf)) bf).

(** The transfer at the end of a request. *)
Lemma transfer_spec b bf k :
  bcache k !! b = Some bf -> active (drive_now k) bf ->
  exists evs, (if negb (dirty bf) then
       let* r := idewait true in
       when (0 <=? r) (
         let* bs := insl 0x1f0 (Z.to_nat (BSIZE / 4)) in
         set_buf b (upd_b_data (fun _ => bs)))
     else ret tt) k
    = Ret tt (upd_bcache (alter (upd_b_data (fun bs => if dirty bf then bs else sectors (drive_now k) (disk_of bf) (b_blockno bf))) b)
        (logged evs k)) /\
    let d := drive_after init (ioevents k ++ evs) in free d = true /\ sectors d = sectors (drive_now k).
Proof using law.
  intros Hb [_ Ha]. destruct (dirty bf).
  - exists []. rewrite app_nil_r. fold (drive_now k). split; [|by unfold free; destruct Ha as [-> _]]. rewrite logged_nil. unfold ret. cbn [negb]. f_equal. kernel_eq. symmetry. apply list_alter_same.
    intros x _. by destruct x.
  - destruct (idewait_spec true k) as (evs & E & Hset); [by rewrite Ha|]. cbn [negb]. rewrite (bind_Ret _ _ _ _ _ E).
    cbn [Z.leb Z.compare when]. unfold insl. mrun. unfold event. mrun.
    change (4 * Z.to_nat (BSIZE / 4))%nat with 512%nat. change (ioevents (logged evs k)) with (ioevents k ++ evs).
    rewrite (law_data _ law _ (disk_of bf) (b_blockno bf) 1) by (by rewrite Hset). rewrite Hset.
    eexists (evs ++ [EInS 0x1f0 _]). split.
    + unfold set_buf. rewrite put_slot_eq by in_table. f_equal. unfold logged. kernel_eq. by rewrite <- app_assoc.
    + rewrite app_assoc, drive_after_app, Hset. unfold drive_after. cbn. rewrite Ha. done.
Qed.

(** Popping the first request and starting the next. *)
Lemma next_spec k b bf l t :
  links (bcache k) (Some b) (b :: l) -> NoDup (b :: l) -> length (bcache k) = S NBUF -> bcache k !! b = Some bf ->
  (forall x, x <> b -> t !! x = bcache k !! x) -> length t = length (bcache k) ->
  forall k1, bcache k1 = t -> idequeue k1 = b_qnext bf -> free (drive_now k1) = true ->
  exists evs, (when (bool_decide (idequeue k1 <> None)) (idestart (idequeue k1))) k1 = Ret tt (logged evs k1) /\
    ide_inv (logged evs k1) l /\
    match l with
    | [] => evs = []
    | x :: _ => exists xf, bcache k !! x = Some xf /\
                  wrote xf (sectors (drive_now k1)) (sectors (drive_now (logged evs k1)))
    end.
Proof using law.
  intros (_ & bf' & Hb' & _ & Hl) ND Hlen Hb Ht Htl k1 Hk1 Hq1 Hfree. assert (bf' = bf) as -> by congruence.
  apply list.NoDup_cons in ND as [Hnb ND].
  assert (Hl1 : links t (b_qnext bf) l) by (eapply links_frame; [exact Hl|]; intros x Hx; apply Ht; congruence).
  assert (Hinv : forall evs, (match l with [] => free (drive_now (logged evs k1)) = true | x :: _ => exists xf, t !! x = Some xf /\ active (drive_now (logged evs k1)) xf end) ->
    ide_inv (logged evs k1) l).
  { intros evs Ha. split; simpl; rewrite ?Hk1, ?Hq1; try done. congruence. }
  rewrite Hq1. destruct l as [|x l].
  - simpl in Hl. rewrite Hl. exists []. rewrite logged_nil. split_and!; [done| |done]. specialize (Hinv []). rewrite logged_nil in Hinv. by apply Hinv.
  - destruct Hl as (Hx & _). destruct Hl1 as (_ & xf & Hxf & Hxr & _). rewrite Hx, bool_decide_true by done.
    destruct (idestart_spec x xf k1) as (evs & E & Ha & Hw); [by rewrite Hk1|done|done|].
    exists evs. split_and!; [exact E|apply Hinv; by exists xf|]. exists xf. rewrite <- Ht; [done|]. intros ->. apply Hnb. by left.
Qed.

Context (c : nat).

Lemma ideintr_empty k : cpu_ok c k -> lock_free L_ide k -> idequeue k = None -> ideintr k = Ret tt (touch c k).
Proof.
  intros Hok Hlf Hq. unfold ideintr. mcall (acquire_eq c). change (idequeue (acq L_ide c k)) with (idequeue k). rewrite Hq.
  rewrite (unrelated_release (fun k => k) ltac:(done)) by done. by rewrite rel_acq.
Qed.

Lemma ideintr_spec k b l :
  cpu_ok c k -> lock_free L_ide k -> lock_free L_ptable k -> ptable_ok k -> ide_inv k (b :: l) ->
  exists bf evs, bcache k !! b = Some bf /\
    let k' := logged evs (upd_ptable (fmap (wake (CBuf b))) (upd_bcache (alter (fun _ => finished (drive_now k) bf) b)
                (upd_idequeue (fun _ => b_qnext bf) (touch c k)))) in
    ideintr k = Ret tt k' /\ ide_inv k' l /\
    match l with
    | [] => sectors (drive_now k') = sectors (drive_now k)
    | x :: _ => exists xf, bcache k !! x = Some xf /\ wrote xf (sectors (drive_now k)) (sectors (drive_now k'))
    end.
Proof using law.
  intros Hok Hlf Hlp Hk I. destruct (q_links _ _ I) as (Hq & bf & Hb & Hreq & Hl).
  destruct (q_active _ _ I) as (bf' & Hb' & Hact). assert (bf' = bf) as -> by congruence.
  unfold ideintr. mcall (acquire_eq c). change (idequeue (acq L_ide c k)) with (idequeue k). rewrite Hq.
  mcall get_buf_eq by (exact Hb). fold (dirty bf). set (k1 := upd_idequeue _ (acq L_ide c k)).
  destruct (transfer_spec b bf k1) as (e1 & E1 & D1 & S1); [done|exact Hact|]. change (drive_now k1) with (drive_now k) in *.
  rewrite (bind_Ret _ _ _ _ _ E1), !bind_set_buf by (rec_simpl; rewrite ?length_alter; by eapply lookup_lt_Some).
  set (k2 := upd_bcache _ (upd_bcache _ (upd_bcache _ (logged e1 k1)))).
  pose proof (acq_depth c L_ide k Hok) as Hd1. pose proof (depth_nonneg _ _ Hok) as Hd.
  assert (Hok2 : cpu_ok c k2) by exact (acq_ok c L_ide k Hok).
  mcall (wakeup_eq c) by (first [exact Hok2 | exact Hlp | exact Hk]).
  rewrite touch_deep by (try exact Hok2; change (depth c k2) with (depth c (acq L_ide c k)); lia).
  set (k3 := upd_ptable _ k2).
  assert (Ht : bcache k3 = alter (fun _ => finished (drive_now k) bf) b (bcache k)).
  { unfold k3, k2. rec_simpl. change (bcache (logged e1 k1)) with (bcache k). rewrite !list_alter_twice.
    rewrite !(list_alter_insert _ b _ bf Hb). reflexivity. }
  destruct (next_spec k b bf l (bcache k3)) with (k1 := k3) as (e2 & E2 & I2 & D2); try done; try apply I.
  { rewrite <- Hq. apply I. }
  { intros x Hx. rewrite Ht. by apply list_lookup_alter_ne. }
  { by rewrite Ht, length_alter. }
  rewrite (bind_Ret _ _ _ _ _ E2). exists bf, (e1 ++ e2). split; [done|].
  set (f := fun kk => logged (e1 ++ e2) (upd_ptable (fmap (wake (CBuf b)))
    (upd_bcache (alter (fun _ => finished (drive_now k) bf) b) (upd_idequeue (fun _ => b_qnext bf) kk)))).
  assert (Hf : logged e2 k3 = f (acq L_ide c k)).
  { unfold f, logged. kernel_eq; [exact Ht|]. change (ioevents k3) with (ioevents k ++ e1). by rewrite <- app_assoc. }
  assert (Hd3 : sectors (drive_now k3) = sectors (drive_now k)) by exact S1.
  assert (Hd4 : drive_now (f (touch c k)) = drive_now (logged e2 k3)) by (rewrite Hf; done).
  cbv zeta. fold (f (touch c k)). split_and!.
  - rewrite Hf, (unrelated_release f ltac:(done)) by done.
    change (rel L_ide c (f (acq L_ide c k))) with (f (rel L_ide c (acq L_ide c k))). by rewrite rel_acq.
  - rewrite Hf in I2. destruct I2 as [H1 H2 H3 H4]. by split.
  - rewrite Hd4. rewrite Hd3 in D2. destruct l; [|done]. rewrite D2, logged_nil. by rewrite Hd3.
Qed.

End driver.

(** *** On a concrete drive *)

(** What a drive with the state [d] delivers. *)
Definition deliver (d : drive) : list Z :=
  match op d with Reading u n _ => sectors d u n | _ => [] end.

(** A drive that is always ready. *)
Definition blank_drive : drive := Drive 0 0 0 0 0 0 false Idle (fun _ _ => repeat 0 512).
Definition ready_ports : Ports :=
  {| port_in := fun _ p => if p =? 0x1f7 then IDE_DRDY else 0;
     port_ins := fun h _ _ => deliver (drive_after blank_drive h);
     reg_in := fun _ _ => 0; POLLS := 1 |}.

Lemma ready_law : @ide_law ready_ports blank_drive.
Proof.
  split; [|done|].
  - intros h _. exists 0%nat. split; [simpl; lia|reflexivity].
  - intros h u n count d Hop _. simpl. unfold deliver. fold d. by rewrite Hop.
Qed.

Lemma boot_ide : @ide_inv blank_drive boot [].
Proof. split; try done. constructor. Qed.

