(* ===== verification/Log.v ===== *)
(** log.c: the write-ahead log that makes the blocks written between
    [begin_op] and [end_op] reach the disk together.  Blocks are lists of
    bytes; the header block holds the count and the home block numbers. *)

From S2P Require Import Prelude Memory KString Kernel Spinlock Proc Sleeplock Bio.

(** ** Words in a block *)

Definition word_at (l : list Z) (i : nat) : Z :=
  match l !! i, l !! (i + 1)%nat, l !! (i + 2)%nat, l !! (i + 3)%nat with
  | Some a, Some b, Some c, Some d => a + 2 ^ 8 * b + 2 ^ 16 * c + 2 ^ 24 * d
  | _, _, _, _ => 0
  end.

Definition put_word (i : nat) (v : Z) (l : list Z) : list Z :=
  <[(i + 3)%nat := u8 (v / 2 ^ 24)]> (<[(i + 2)%nat := u8 (v / 2 ^ 16)]>
    (<[(i + 1)%nat := u8 (v / 2 ^ 8)]> (<[i := u8 v]> l))).

Lemma put_word_length i v l : length (put_word i v l) = length l.
Proof. unfold put_word. by rewrite !length_insert. Qed.

Lemma word_at_put i v l : (i + 3 < length l)%nat -> word_at (put_word i v l) i = u32 v.
Proof.
  intros Hi. unfold word_at, put_word.
  rewrite (list_lookup_insert_ne _ (i + 3) i) by lia. rewrite (list_lookup_insert_ne _ (i + 2) i) by lia.
  rewrite (list_lookup_insert_ne _ (i + 1) i) by lia. rewrite list_lookup_insert_eq by lia.
  rewrite (list_lookup_insert_ne _ (i + 3) (i + 1)) by lia. rewrite (list_lookup_insert_ne _ (i + 2) (i + 1)) by lia.
  rewrite list_lookup_insert_eq by (rewrite !length_insert; lia).
  rewrite (list_lookup_insert_ne _ (i + 3) (i + 2)) by lia.
  rewrite list_lookup_insert_eq by (rewrite !length_insert; lia).
  rewrite list_lookup_insert_eq by (rewrite !length_insert; lia).
  unfold u8, u32. Z.div_mod_to_equations. lia.
Qed.

Lemma word_at_put_ne i j v l : (j + 4 <= i \/ i + 4 <= j)%nat -> word_at (put_word i v l) j = word_at l j.
Proof.
  intros Hij. unfold word_at, put_word.
  repeat (rewrite list_lookup_insert_ne by lia). done.
Qed.

(** ** readsb (fs.c), which the log needs *)

Definition superblock_of (d : list Z) : superblock :=
  Superblock (word_at d 0) (word_at d 4) (word_at d 8) (word_at d 12)
    (word_at d 16) (word_at d 20) (word_at d 24).

Section log.
Context `{Machine} `{BlockDriver}.

Definition readsb (dev : Z) : M superblock :=
  let* bp := bread dev 1 in
  let* bf := get_buf bp in
  let sb := superblock_of (b_data bf) in
  brelse bp ;;
  ret sb.

(** An index into [log.lh.block] beyond its end would corrupt memory; [what]
    says where. *)
Definition get_lhblock (i : Z) : M Z :=
  let* lg := gets klog in
  elem_at "log.lh.block" (lh_block lg) i.
Definition set_lhblock (what : string) (i v : Z) : M unit :=
  let* lg := gets klog in
  in_array what (lh_block lg) i ;;
  modify (upd_klog (upd_lh_block (fun l => <[Z.to_nat i := v]> l))).

(** The loops over the logged blocks: at most [LOGSIZE] of them fit, and the
    access to the next one is caught by [get_lhblock]. *)
Definition for_log (body : Z -> M unit) : M unit :=
  for_lt (S (S (Z.to_nat LOGSIZE))) (gets (fun k => lh_n (klog k))) body.

Definition install_trans : M unit :=
  for_log (fun tail =>
    let* lg := gets klog in
    let* lbuf := bread (l_dev lg) (u32 (l_start lg + tail + 1)) in
    let* lg := gets klog in
    let* blk := get_lhblock tail in
    let* dbuf := bread (l_dev lg) (u32 blk) in
    let* lb := get_buf lbuf in
    set_buf dbuf (upd_b_data (fun _ => b_data lb)) ;;
    bwrite dbuf ;;
    brelse lbuf ;;
    brelse dbuf).

Definition read_head : M unit :=
  let* lg := gets klog in
  let* bp := bread (l_dev lg) (u32 (l_start lg)) in
  let* bf := get_buf bp in
  modify (upd_klog (upd_lh_n (fun _ => s32 (word_at (b_data bf) 0)))) ;;
  for_log (fun i =>
    set_lhblock "log header" i (s32 (word_at (b_data bf) (4 + 4 * Z.to_nat i)))) ;;
  brelse bp.

Definition write_head : M unit :=
  let* lg := gets klog in
  let* bp := bread (l_dev lg) (u32 (l_start lg)) in
  let* n := gets (fun k => lh_n (klog k)) in
  set_buf bp (upd_b_data (put_word 0 n)) ;;
  for_log (fun i =>
    let* v := get_lhblock i in
    set_buf bp (upd_b_data (put_word (4 + 4 * Z.to_nat i) v))) ;;
  bwrite bp ;;
  brelse bp.

Definition recover_from_log : M unit :=
  read_head ;;
  install_trans ;;
  modify (upd_klog (upd_lh_n (fun _ => 0))) ;;
  write_head.

Definition sizeof_logheader : Z := 4 + 4 * LOGSIZE.

Definition initlog (dev : Z) : M unit :=
  if BSIZE <=? sizeof_logheader then panic "initlog: too big logheader" else
  initlock L_log "log" ;;
  let* s := readsb dev in
  modify (upd_klog (upd_l_start (fun _ => s32 (sb_logstart s)))) ;;
  modify (upd_klog (upd_l_size (fun _ => s32 (sb_nlog s)))) ;;
  modify (upd_klog (upd_l_dev (fun _ => dev))) ;;
  recover_from_log.

Definition begin_op : M unit :=
  acquire L_log ;;
  sleep_loop (
    let* lg := gets klog in
    if truthy (l_committing lg) then
      sleep CLog (Some L_log) ;; ret None
    else if LOGSIZE <? lh_n lg + (l_outstanding lg + 1) * MAXOPBLOCKS then
      sleep CLog (Some L_log) ;; ret None
    else
      modify (upd_klog (upd_l_outstanding (fun n => n + 1))) ;;
      release L_log ;;
      ret (Some tt)).

Definition write_log : M unit :=
  for_log (fun tail =>
    let* lg := gets klog in
    let* to := bread (l_dev lg) (u32 (l_start lg + tail + 1)) in
    let* lg := gets klog in
    let* blk := get_lhblock tail in
    let* from := bread (l_dev lg) (u32 blk) in
    let* fb := get_buf from in
    set_buf to (upd_b_data (fun _ => b_data fb)) ;;
    bwrite to ;;
    brelse from ;;
    brelse to).

Definition commit : M unit :=
  let* n := gets (fun k => lh_n (klog k)) in
  when (0 <? n) (
    write_log ;;
    write_head ;;
    install_trans ;;
    modify (upd_klog (upd_lh_n (fun _ => 0))) ;;
    write_head).

Definition end_op : M unit :=
  acquire L_log ;;
  modify (upd_klog (upd_l_outstanding (fun n => n - 1))) ;;
  let* lg := gets klog in
  if truthy (l_committing lg) then panic "log.committing" else
  let* do_commit := (
    if l_outstanding lg =? 0
    then modify (upd_klog (upd_l_committing (fun _ => 1))) ;; ret true
    else wakeup CLog ;; ret false) in
  release L_log ;;
  when do_commit (
    commit ;;
    acquire L_log ;;
    modify (upd_klog (upd_l_committing (fun _ => 0))) ;;
    wakeup CLog ;;
    release L_log).

(** The slot [log_write] uses: that of an earlier write to the same block, or
    the next free one. *)
Definition log_slot (lg : log) (blockno : Z) : Z :=
  match find_index (fun b => u32 b =? blockno) (take (Z.to_nat (lh_n lg)) (lh_block lg)) with
  | Some i => Z.of_nat i
  | None => Z.max 0 (lh_n lg)
  end.

Definition log_write (b : nat) : M unit :=
  let* lg := gets klog in
  if (LOGSIZE <=? lh_n lg) || (l_size lg - 1 <=? lh_n lg) then panic "too big a transaction" else
  if l_outstanding lg <? 1 then panic "log_write outside of trans" else
  acquire L_log ;;
  let* bf := get_buf b in
  let* lg := gets klog in
  let i := log_slot lg (b_blockno bf) in
  set_lhblock "log.lh.block" i (s32 (b_blockno bf)) ;;
  when (i =? lh_n lg) (modify (upd_klog (upd_lh_n (fun n => n + 1)))) ;;
  set_buf b (upd_b_flags (fun fl => Z.lor fl B_DIRTY)) ;;
  release L_log.
End log.
