(* ===== verification/Crash.v ===== *)
(** What the log of log.c promises: the blocks of a transaction reach the disk
    all together or not at all, wherever the machine stops.

    The disk writes of a run are in [dwrites], in order.  A crash leaves the
    disk as some prefix of them left it; [recovered] is what the recovery at
    the next start makes of a disk. *)

From S2P Require Import Prelude Ring Memory KString Kernel Spinlock Boot Proc Sleeplock Bio Cache Log.

(** ** Disks and writes *)

Definition apply_writes (ws : list (Z * list Z)) (d : Z -> list Z) : Z -> list Z :=
  foldl (fun d '(b, v) x => if x =? b then v else d x) d ws.

Lemma apply_writes_app ws1 ws2 d : apply_writes (ws1 ++ ws2) d = apply_writes ws2 (apply_writes ws1 d).
Proof. unfold apply_writes. by rewrite foldl_app. Qed.

Lemma apply_writes_snoc ws b v d x :
  apply_writes (ws ++ [(b, v)]) d x = if x =? b then v else apply_writes ws d x.
Proof. by rewrite apply_writes_app. Qed.

Lemma apply_writes_ext ws d d' x : (forall x, d x = d' x) -> apply_writes ws d x = apply_writes ws d' x.
Proof.
  revert d d' x. induction ws as [|[b v] ws IH]; intros d d' x Hd; simpl; [done|].
  apply IH. intros y. by destruct (y =? b).
Qed.

Lemma apply_writes_other ws d x : x ∉ fst <$> ws -> apply_writes ws d x = d x.
Proof.
  revert d. induction ws as [|[b v] ws IH]; intros d Hx; simpl; [done|].
  apply not_elem_of_cons in Hx as [Hb Hx]. etransitivity; [apply (IH (fun x => if x =? b then v else d x)); done|].
  by rewrite (proj2 (Z.eqb_neq _ _)).
Qed.

Lemma apply_writes_in ws d b v :
  NoDup (fst <$> ws) -> (b, v) ∈ ws -> apply_writes ws d b = v.
Proof.
  revert d. induction ws as [|[b' v'] ws IH]; intros d Hnd Hin; [by apply not_elem_of_nil in Hin|].
  apply list.NoDup_cons in Hnd as [Hb Hnd]. apply elem_of_cons in Hin as [[= -> ->]|Hin].
  - etransitivity; [apply (apply_writes_other ws (fun x => if x =? b' then v' else d x)); done|]. by rewrite Z.eqb_refl.
  - by apply (IH (fun x => if x =? b' then v' else d x)).
Qed.

(** *** What recovery makes of a disk: if the header at [start] says [n > 0],
    block [i] of the log replaces the block it is a copy of. *)
Definition head_n (h : list Z) : Z := s32 (word_at h 0).
Definition head_block (h : list Z) (i : nat) : Z := s32 (word_at h (4 + 4 * i)).
Definition head_blocks (h : list Z) : list Z := head_block h <$> seq 0 (Z.to_nat (head_n h)).

Definition slots (start : Z) (n : nat) : list Z := (fun i => start + 1 + Z.of_nat i) <$> seq 0 n.

Definition installs (start : Z) (d : Z -> list Z) : list (Z * list Z) :=
  zip (head_blocks (d start)) (d <$> slots start (Z.to_nat (head_n (d start)))).

Definition recovered (start : Z) (d : Z -> list Z) : Z -> list Z := apply_writes (installs start d) d.

(** ** The steps of the log *)

Section log.
Context `{Machine} (c p : nat).
#[local] Existing Instance memide.

(** A locked buffer stays the process's as long as it keeps what it holds. *)
Lemma held_mine held b bf k k' :
  cache_ok c p held k' -> b ∈ held -> mine p b bf k ->
  core <$> bcache k' !! b = core <$> bcache k !! b -> disksize k' = disksize k ->
  exists bf', mine p b bf' k' /\ core bf' = core bf.
Proof.
  intros [_ _ [Hbuf _ [_ Hlt]]] Hin (Hbf & Hd & Hn & _) Hc Hsz. rewrite Hbf in Hc.
  destruct (bcache k' !! b) as [bf'|] eqn:E; [|done]. simpl in Hc. injection Hc as Hf' Hd' Hn' Hr' Hda'.
  exists bf'. split; [|unfold core; congruence].
  destruct (Hbuf b bf' (Hlt b Hin) E) as [H1 H2 _ _ _]. rewrite decide_True in H1 by done.
  split_and!; [done | congruence | lia | lia | done | by apply H2].
Qed.

(** The effect of a step that writes [v] to block [blk]. *)
Record wrote (blk : Z) (v : list Z) (k k' : kernel) : Prop := {
  wt_ok : cache_ok c p [] k';
  wt_view : forall x, view k' x = if x =? blk then v else view k x;
  wt_disk : forall x, disk k' x = if x =? blk then v else disk k x;
  wt_writes : dwrites k' = dwrites k ++ [(blk, v)];
  wt_pinned : forall x, pinned (bcache k') x <-> pinned (bcache k) x /\ x <> blk;
  wt_frame : frame p k k';
}.

(** Copying buffer [s] to buffer [d] and to the disk, as [write_log] and
    [install_trans] do. *)
Lemma copy_spec d s bd bs k :
  cache_ok c p [s; d] k -> mine p d bd k -> mine p s bs k -> d <> s ->
  (b_flags bs = PINNED \/ b_data bs = disk k (b_blockno bs)) -> b_blockno bd <> b_blockno bs ->
  wp (let* lb := get_buf s in
      set_buf d (upd_b_data (fun _ => b_data lb)) ;; bwrite d ;; brelse s ;; brelse d)
    (fun _ => wrote (b_blockno bd) (b_data bs) k) k.
Proof.
  intros Hco Hmd Hms Hds Hcl Hne. pose proof Hms as (Hbs & _).
  eapply wp_step; [apply (wp_Ret _ (fun a k' => a = bs /\ k' = k) _ bs k); [by apply get_buf_eq | done]|].
  intros ? ? [-> ->].
  eapply wp_step; [apply (store_spec c p [s; d] d bd); [done | right; left | done]|].
  intros [] k1 [Hok1 (bd1 & Hmd1 & Hn1 & Hda1 & Hfl1) Hv1 [Hdk1 Hdw1] Hp1 Hf1 Hk1].
  destruct (held_mine [s; d] s bs k k1) as (bs1 & Hms1 & Hc1);
    [done | left | done | apply Hk1; done | apply Hf1 |].
  eapply wp_step; [apply (bwrite_spec c p [s; d] d bd1); [done | right; left | done]|].
  intros [] k2 [Hok2 (bd2 & Hmd2 & Hn2 & Hda2 & Hfl2) Hv2 Hdk2 Hdw2 Hp2 Hf2 Hk2].
  destruct (held_mine [s; d] s bs1 k1 k2) as (bs2 & Hms2 & Hc2);
    [done | left | done | apply Hk2; done | apply Hf2 |].
  rewrite Hc1 in Hc2. apply core_fields in Hc2 as (Ef & Ed & En & Er & Eda). clear Hc1.
  eapply wp_step; [apply (brelse_spec c p [d] s bs2); [done | done |]|].
  { rewrite Ef, Eda, En, Hdk2, Hn1, Hdk1. destruct Hcl as [Hcl|Hcl]; [by left|]. right.
    by rewrite (proj2 (Z.eqb_neq _ _)) by congruence. }
  intros [] k3 [Hok3 Hv3 [Hdk3 Hdw3] Hp3 Hf3 Hk3].
  destruct (held_mine [d] d bd2 k2 k3) as (bd3 & Hmd3 & (Ef3 & Ed3 & En3 & Er3 & Eda3)%core_fields);
    [done | left | done | apply Hk3; left | apply Hf3 |].
  eapply wp_mono; [apply (brelse_spec c p [] d bd3); [done | done |]|].
  { right. rewrite Eda3, En3, Hda2, Hn2, Hdk3, Hdk2. by rewrite Z.eqb_refl. }
  intros [] k4 [Hok4 Hv4 [Hdk4 Hdw4] Hp4 Hf4 Hk4]. split.
  - done.
  - intros x. by rewrite Hv4, Hv3, Hv2, Hv1.
  - intros x. by rewrite Hdk4, Hdk3, Hdk2, Hdk1, Hn1, Hda1.
  - by rewrite Hdw4, Hdw3, Hdw2, Hdw1, Hn1, Hda1.
  - intros x. by rewrite Hp4, Hp3, Hp2, Hp1, Hn1.
  - do 3 (eapply frame_trans; [|done]). done.
Qed.

(** Two blocks read one after the other. *)
Record both (x y : Z) (k : kernel) (a b : nat) (k2 : kernel) : Prop := {
  bt_ok : cache_ok c p [b; a] k2;
  bt_ne : a <> b;
  bt_a : exists ba, mine p a ba k2 /\ b_blockno ba = x /\ b_data ba = view k x /\
           (b_flags ba = PINNED \/ b_data ba = disk k2 x);
  bt_b : exists bb, mine p b bb k2 /\ b_blockno bb = y /\ b_data bb = view k y /\
           (b_flags bb = PINNED \/ b_data bb = disk k2 y);
  bt_view : forall z, view k2 z = view k z;
  bt_disk : disk k2 = disk k /\ dwrites k2 = dwrites k;
  bt_pinned : forall z, pinned (bcache k2) z <-> pinned (bcache k) z;
  bt_frame : frame p k k2;
}.

Lemma read_clean held x k b k1 :
  read_post c p held x k b k1 ->
  exists bf, mine p b bf k1 /\ b_blockno bf = x /\ b_data bf = view k x /\
    (b_flags bf = PINNED \/ b_data bf = disk k1 x).
Proof.
  intros [Hok _ (bf & Hm & Hn & Hda & _ & Hcl) _ [Hd _] _ _ _]. exists bf. split_and!; try done.
  destruct (mine_inv c p (b :: held) b bf k1) as (_ & _ & [Hf|Hf] & _); [done | left | done | | by left].
  right. rewrite Hd. by apply Hcl.
Qed.

Lemma both_reads x y k a k1 b k2 :
  read_post c p [] x k a k1 -> read_post c p [a] y k1 b k2 -> both x y k a b k2.
Proof.
  intros H1 H2. destruct (read_clean _ _ _ _ _ H1) as (ba & Hma & Hna & Hda & Hcla).
  destruct (read_clean _ _ _ _ _ H2) as (bb & Hmb & Hnb & Hdb & Hclb).
  destruct H1 as [Hok1 _ _ Hv1 [Hd1 Hw1] Hp1 Hf1 _], H2 as [Hok2 Hnew _ Hv2 [Hd2 Hw2] Hp2 Hf2 Hk2].
  destruct (held_mine [b; a] a ba k1 k2) as (ba2 & Hma2 & (Ef & _ & En & _ & Eda)%core_fields);
    [done | right; left | done | apply Hk2; left | apply Hf2 |].
  split.
  - done.
  - intros ->. apply Hnew. left.
  - exists ba2. split_and!; [done | congruence | congruence |]. rewrite Ef, Eda, Hd2. done.
  - exists bb. split_and!; [done | done | by rewrite Hdb, Hv1 | done].
  - intros z. by rewrite Hv2.
  - split; congruence.
  - intros z. by rewrite Hp2.
  - by eapply frame_trans.
Qed.

Lemma wrote_after blk v k k2 k3 :
  (forall z, view k2 z = view k z) -> disk k2 = disk k /\ dwrites k2 = dwrites k ->
  (forall z, pinned (bcache k2) z <-> pinned (bcache k) z) -> frame p k k2 ->
  wrote blk v k2 k3 -> wrote blk v k k3.
Proof.
  intros Hv [Hd Hw] Hp Hf [H1 H2 H3 H4 H5 H6]. split.
  - done.
  - intros x. by rewrite H2, Hv.
  - intros x. by rewrite H3, Hd.
  - by rewrite H4, Hw.
  - intros x. by rewrite H5, Hp.
  - by eapply frame_trans.
Qed.

(** Copying block [src] to block [dst], the destination read first or last. *)
Lemma copy_first dst src k a b k2 :
  both dst src k a b k2 -> dst <> src ->
  wp (let* lb := get_buf b in
      set_buf a (upd_b_data (fun _ => b_data lb)) ;; bwrite a ;; brelse b ;; brelse a)
    (fun _ => wrote dst (view k src) k) k2.
Proof.
  intros [Hok Hne (ba & Hma & Hna & Hda & Hcla) (bb & Hmb & Hnb & Hdb & Hclb) Hv Hd Hp Hf] Hds.
  eapply wp_mono; [apply (copy_spec a b ba bb); try done; [by rewrite Hnb | congruence]|].
  intros [] k3 Hw. rewrite Hna, Hdb in Hw. by eapply wrote_after.
Qed.

Lemma copy_last dst src k a b k2 :
  both src dst k a b k2 -> dst <> src ->
  wp (let* lb := get_buf a in
      set_buf b (upd_b_data (fun _ => b_data lb)) ;; bwrite b ;; brelse a ;; brelse b)
    (fun _ => wrote dst (view k src) k) k2.
Proof.
  intros [Hok Hne (ba & Hma & Hna & Hda & Hcla) (bb & Hmb & Hnb & Hdb & Hclb) Hv Hd Hp Hf] Hds.
  eapply wp_mono; [apply (copy_spec b a bb ba); try done|].
  - eapply cache_ok_perm; [|exact Hok]. apply perm_swap.
  - by rewrite Hna.
  - congruence.
  - intros [] k3 Hw. rewrite Hnb, Hda in Hw. by eapply wrote_after.
Qed.

(** *** Sequences of writes *)

Record stage (k0 : kernel) (ws : list (Z * list Z)) (k : kernel) : Prop := {
  sg_ok : cache_ok c p [] k;
  sg_view : forall x, view k x = apply_writes ws (view k0) x;
  sg_disk : forall x, disk k x = apply_writes ws (disk k0) x;
  sg_writes : dwrites k = dwrites k0 ++ ws;
  sg_pinned : forall x, pinned (bcache k) x <-> pinned (bcache k0) x /\ x ∉ fst <$> ws;
  sg_frame : frame p k0 k;
}.

Lemma stage_start k : cache_ok c p [] k -> stage k [] k.
Proof.
  intros Hok. split; try done.
  - by rewrite app_nil_r.
  - intros x. split; [|tauto]. intros Hp. split; [done | apply not_elem_of_nil].
Qed.

Lemma stage_step k0 ws k blk v k' : stage k0 ws k -> wrote blk v k k' -> stage k0 (ws ++ [(blk, v)]) k'.
Proof.
  intros [_ Hv Hd Hw Hp Hf] [Hok' Hv' Hd' Hw' Hp' Hf']. split.
  - done.
  - intros x. by rewrite Hv', Hv, apply_writes_snoc.
  - intros x. by rewrite Hd', Hd, apply_writes_snoc.
  - by rewrite Hw', Hw, app_assoc.
  - intros x. rewrite Hp', Hp, fmap_app, not_elem_of_app. simpl. rewrite list_elem_of_singleton. tauto.
  - by eapply frame_trans.
Qed.

Lemma stage_trans k0 ws1 k1 ws2 k2 : stage k0 ws1 k1 -> stage k1 ws2 k2 -> stage k0 (ws1 ++ ws2) k2.
Proof.
  intros [_ Hv Hd Hw Hp Hf] [Hok' Hv' Hd' Hw' Hp' Hf']. split.
  - done.
  - intros x. rewrite Hv', apply_writes_app. by apply apply_writes_ext.
  - intros x. rewrite Hd', apply_writes_app. by apply apply_writes_ext.
  - by rewrite Hw', Hw, app_assoc.
  - intros x. rewrite Hp', Hp, fmap_app, not_elem_of_app. tauto.
  - by eapply frame_trans.
Qed.

(** The header in memory lists [blocks]; the log lies from [start] on. *)
Record log_at (start : Z) (blocks : list Z) (k : kernel) : Prop := {
  la_dev : l_dev (klog k) = ROOTDEV;
  la_start : l_start (klog k) = start;
  la_n : lh_n (klog k) = Z.of_nat (length blocks);
  la_blocks : take (length blocks) (lh_block (klog k)) = blocks;
}.

Record region (start : Z) (blocks : list Z) (size : Z) : Prop := {
  rg_start : 0 <= start;
  rg_end : start + LOGSIZE <= size;
  rg_size : size < 2 ^ 31;
  rg_count : (length blocks < NBUF)%nat;
  rg_nodup : NoDup blocks;
  rg_blocks : Forall (fun b => 0 <= b < size /\ (b < start \/ start + LOGSIZE <= b)) blocks;
}.

Lemma log_at_frame start blocks k k' : frame p k k' -> log_at start blocks k -> log_at start blocks k'.
Proof. intros Hf [H1 H2 H3 H4]. pose proof (fr_log _ _ _ Hf) as E. split; by rewrite E. Qed.

Lemma lhblock_eq start blocks k i blk :
  log_at start blocks k -> blocks !! i = Some blk -> get_lhblock (Z.of_nat i) k = Ret blk k.
Proof.
  intros [_ _ _ Hb] Hi. unfold get_lhblock. mrun. apply elem_at_eq; [lia|]. rewrite Nat2Z.id.
  rewrite <- Hb in Hi. rewrite lookup_take_Some in Hi. tauto.
Qed.

Lemma slots_lookup start n i : (i < n)%nat -> slots start n !! i = Some (start + 1 + Z.of_nat i).
Proof. intros Hi. unfold slots. rewrite list_lookup_fmap, lookup_seq_lt by done. done. Qed.

Lemma slots_length start n : length (slots start n) = n.
Proof. unfold slots. by rewrite length_fmap, length_seq. Qed.

Lemma slots_elem start n x : x ∈ slots start n <-> start < x <= start + Z.of_nat n.
Proof.
  unfold slots. rewrite list_elem_of_fmap. split.
  - intros (i & -> & Hi%elem_of_seq). lia.
  - intros Hx. exists (Z.to_nat (x - start - 1)). rewrite elem_of_seq. lia.
Qed.

Lemma slots_nodup start n : NoDup (slots start n).
Proof. unfold slots. apply NoDup_fmap_2_strong; [|apply NoDup_seq]. intros. lia. Qed.

(** What [write_log] writes. *)
Definition log_writes (start : Z) (blocks : list Z) (v : Z -> list Z) : list (Z * list Z) :=
  zip (slots start (length blocks)) (v <$> blocks).

Lemma log_writes_lookup start blocks v i blk :
  blocks !! i = Some blk -> log_writes start blocks v !! i = Some (start + 1 + Z.of_nat i, v blk).
Proof.
  intros Hi. pose proof (lookup_lt_Some _ _ _ Hi). unfold log_writes. rewrite lookup_zip_with.
  rewrite slots_lookup by done. simpl. by rewrite list_lookup_fmap, Hi.
Qed.

Lemma log_writes_fst start blocks v : fst <$> log_writes start blocks v = slots start (length blocks).
Proof. unfold log_writes. rewrite fst_zip; [done|]. rewrite length_fmap, slots_length. done. Qed.

Lemma log_writes_length start blocks v : length (log_writes start blocks v) = length blocks.
Proof. rewrite <- (length_fmap fst), log_writes_fst. apply slots_length. Qed.

Lemma log_n k start blocks : log_at start blocks k -> lh_n (klog k) = Z.of_nat (length blocks).
Proof. by intros []. Qed.

Lemma region_block start blocks size i blk :
  region start blocks size -> blocks !! i = Some blk ->
  0 <= blk < size /\ (blk < start \/ start + LOGSIZE <= blk).
Proof. intros [_ _ _ _ _ Hb] Hi. by apply (Forall_lookup_1 _ _ _ _ Hb Hi). Qed.

Lemma region_slot start blocks size i :
  region start blocks size -> (i < length blocks)%nat ->
  u32 (start + Z.of_nat i + 1) = start + 1 + Z.of_nat i /\ 0 <= start + 1 + Z.of_nat i < size /\
  start < start + 1 + Z.of_nat i < start + LOGSIZE.
Proof.
  intros [H1 H2 H3 H4 _ _] Hi. unfold NBUF, LOGSIZE, MAXOPBLOCKS in *. rewrite u32_small by lia. lia.
Qed.

Lemma take_step {A} (W : list A) i w : W !! i = Some w -> take (S i) W = take i W ++ [w].
Proof. apply take_S_r. Qed.

Lemma write_log_spec start blocks k0 :
  log_at start blocks k0 -> region start blocks (disksize k0) -> cache_ok c p [] k0 ->
  (forall x, pinned (bcache k0) x <-> x ∈ blocks) ->
  wp write_log (fun _ => stage k0 (log_writes start blocks (view k0))) k0.
Proof.
  intros Hla Hrg Hok Hpin. set (W := log_writes start blocks (view k0)).
  pose proof (rg_count _ _ _ Hrg) as Hcount.
  assert (length W = length blocks) as HW by apply log_writes_length.
  eapply wp_mono; [eapply (for_lt_wp _ (fun k => lh_n (klog k)) _ (Z.of_nat (length blocks))
    (fun i => stage k0 (take (Z.to_nat i) W)))|].
  - lia.
  - unfold LOGSIZE, MAXOPBLOCKS, NBUF in *. lia.
  - intros i k Hst. rewrite (fr_log _ _ _ (sg_frame _ _ _ Hst)). by apply log_n in Hla.
  - intros i k Hi Hst. destruct (lookup_lt_is_Some_2 blocks (Z.to_nat i)) as [blk Hblk]; [lia|].
    destruct (region_slot _ _ _ _ Hrg (lookup_lt_Some _ _ _ Hblk)) as (Hu & Hsz & Hsl).
    destruct (region_block _ _ _ _ _ Hrg Hblk) as [Hb1 Hb2]. rewrite Z2Nat.id in Hu, Hsz, Hsl by lia.
    pose proof (sg_frame _ _ _ Hst) as Hf. pose proof (log_at_frame _ _ _ _ Hf Hla) as Hla'.
    pose proof (fr_size _ _ _ Hf) as Hds. pose proof (sg_ok _ _ _ Hst) as Hokk.
    assert (forall x, pinned (bcache k) x -> x ∈ blocks) as HpL.
    { intros x Hx. apply (sg_pinned _ _ _ Hst) in Hx as [Hx _]. by apply Hpin. }
    assert (blk ∉ fst <$> take (Z.to_nat i) W) as Hnot.
    { intros Hin. rewrite fmap_take in Hin. unfold W in Hin. rewrite log_writes_fst in Hin.
      apply elem_of_take in Hin as (j & Hj & _). apply list_elem_of_lookup_2, slots_elem in Hj.
      unfold NBUF, LOGSIZE, MAXOPBLOCKS in *. lia. }
    apply wp_gets. rewrite (la_dev _ _ _ Hla'), (la_start _ _ _ Hla'), Hu.
    eapply wp_step; [apply (bread_spec c p [] _ k Hokk)|].
    { lia. } { left. apply (spare_room c p [] blocks k Hokk HpL). simpl. lia. }
    { intros b bf Hin. by apply not_elem_of_nil in Hin. }
    intros a k1 Hr1. pose proof Hr1 as [Hok1 _ (ba & Hma & Hna & _) Hv1 [Hd1 _] Hp1 Hf1 _].
    pose proof (log_at_frame _ _ _ _ Hf1 Hla') as Hla1.
    apply wp_gets. eapply wp_step; [apply (wp_Ret _ (fun v k' => v = blk /\ k' = k1) _ blk k1);
      [rewrite <- (Z2Nat.id i) by lia; by eapply lhblock_eq | done]|]. intros ? ? [-> ->].
    rewrite (la_dev _ _ _ Hla1), u32_small by (destruct Hrg; lia).
    eapply wp_step; [apply (bread_spec c p [a] _ k1 Hok1)|].
    { rewrite (fr_size _ _ _ Hf1). lia. }
    { right. assert (pinned (bcache k1) blk) as (b & bf & Hb & Hbf & Hh & _).
      { apply Hp1, (sg_pinned _ _ _ Hst). split; [|done]. apply Hpin. by eapply list_elem_of_lookup_2. }
      by exists b, bf. }
    { intros b bf Hin Hbf. apply list_elem_of_singleton in Hin as ->. destruct Hma as (Hma & _).
      assert (bf = ba) as -> by congruence. lia. }
    intros b k2 Hr2. eapply wp_mono; [apply (copy_first (start + 1 + i) blk k a b k2); [by eapply both_reads | lia]|].
    intros [] k3 Hw. replace (Z.to_nat (i + 1)) with (S (Z.to_nat i)) by lia.
    erewrite take_step by (by apply log_writes_lookup). rewrite Z2Nat.id by lia.
    apply (stage_step k0 _ k); [done|]. rewrite (sg_view _ _ _ Hst) in Hw.
    by rewrite apply_writes_other in Hw.
  - by apply stage_start.
  - intros [] k Hst. rewrite Nat2Z.id, <- HW, firstn_all in Hst. done.
Qed.

(** What [install_trans] writes. *)
Definition home_writes (start : Z) (blocks : list Z) (v : Z -> list Z) : list (Z * list Z) :=
  zip blocks (v <$> slots start (length blocks)).

Lemma home_writes_lookup start blocks v i blk :
  blocks !! i = Some blk -> home_writes start blocks v !! i = Some (blk, v (start + 1 + Z.of_nat i)).
Proof.
  intros Hi. pose proof (lookup_lt_Some _ _ _ Hi). unfold home_writes. rewrite lookup_zip_with, Hi. simpl.
  by rewrite list_lookup_fmap, slots_lookup.
Qed.

Lemma home_writes_fst start blocks v : fst <$> home_writes start blocks v = blocks.
Proof. unfold home_writes. rewrite fst_zip; [done|]. rewrite length_fmap, slots_length. done. Qed.

Lemma home_writes_length start blocks v : length (home_writes start blocks v) = length blocks.
Proof. by rewrite <- (length_fmap fst), home_writes_fst. Qed.

Lemma install_trans_spec start blocks k0 :
  log_at start blocks k0 -> region start blocks (disksize k0) -> cache_ok c p [] k0 ->
  (forall x, pinned (bcache k0) x <-> x ∈ blocks) \/ (forall x, ~ pinned (bcache k0) x) ->
  wp install_trans (fun _ => stage k0 (home_writes start blocks (view k0))) k0.
Proof.
  intros Hla Hrg Hok Hpin. set (W := home_writes start blocks (view k0)).
  pose proof (rg_count _ _ _ Hrg) as Hcount. pose proof (rg_nodup _ _ _ Hrg) as Hnd.
  assert (length W = length blocks) as HW by apply home_writes_length.
  eapply wp_mono; [eapply (for_lt_wp _ (fun k => lh_n (klog k)) _ (Z.of_nat (length blocks))
    (fun i => stage k0 (take (Z.to_nat i) W)))|].
  - lia.
  - unfold LOGSIZE, MAXOPBLOCKS, NBUF in *. lia.
  - intros i k Hst. rewrite (fr_log _ _ _ (sg_frame _ _ _ Hst)). by apply log_n in Hla.
  - intros i k Hi Hst. destruct (lookup_lt_is_Some_2 blocks (Z.to_nat i)) as [blk Hblk]; [lia|].
    destruct (region_slot _ _ _ _ Hrg (lookup_lt_Some _ _ _ Hblk)) as (Hu & Hsz & Hsl).
    destruct (region_block _ _ _ _ _ Hrg Hblk) as [Hb1 Hb2]. rewrite Z2Nat.id in Hu, Hsz, Hsl by lia.
    pose proof (sg_frame _ _ _ Hst) as Hf. pose proof (log_at_frame _ _ _ _ Hf Hla) as Hla'.
    pose proof (fr_size _ _ _ Hf) as Hds. pose proof (sg_ok _ _ _ Hst) as Hokk.
    assert (fst <$> take (Z.to_nat i) W = take (Z.to_nat i) blocks) as Hfst.
    { rewrite fmap_take. unfold W. by rewrite home_writes_fst. }
    assert (forall x, pinned (bcache k) x -> x ∈ blocks) as HpL.
    { intros x Hx. apply (sg_pinned _ _ _ Hst) in Hx as [Hx _].
      destruct Hpin as [Hpin|Hpin]; [by apply Hpin | by apply Hpin in Hx]. }
    assert (start + 1 + i ∉ fst <$> take (Z.to_nat i) W) as Hnot.
    { rewrite Hfst. intros (j & Hj & _)%elem_of_take.
      destruct (region_block _ _ _ _ _ Hrg Hj). unfold NBUF, LOGSIZE, MAXOPBLOCKS in *. lia. }
    apply wp_gets. rewrite (la_dev _ _ _ Hla'), (la_start _ _ _ Hla'), Hu.
    eapply wp_step; [apply (bread_spec c p [] _ k Hokk)|].
    { lia. } { left. apply (spare_room c p [] blocks k Hokk HpL). simpl. lia. }
    { intros b bf Hin. by apply not_elem_of_nil in Hin. }
    intros a k1 Hr1. pose proof Hr1 as [Hok1 _ (ba & Hma & Hna & _) Hv1 [Hd1 _] Hp1 Hf1 _].
    pose proof (log_at_frame _ _ _ _ Hf1 Hla') as Hla1.
    apply wp_gets. eapply wp_step; [apply (wp_Ret _ (fun v k' => v = blk /\ k' = k1) _ blk k1);
      [rewrite <- (Z2Nat.id i) by lia; by eapply lhblock_eq | done]|]. intros ? ? [-> ->].
    rewrite (la_dev _ _ _ Hla1), u32_small by (destruct Hrg; lia).
    eapply wp_step; [apply (bread_spec c p [a] _ k1 Hok1)|].
    { rewrite (fr_size _ _ _ Hf1). lia. }
    { destruct Hpin as [Hpin|Hpin].
      - right. assert (pinned (bcache k1) blk) as (b & bf & Hb & Hbf & Hh & _); [|by exists b, bf].
        apply Hp1, (sg_pinned _ _ _ Hst). rewrite Hpin, Hfst. split; [by eapply list_elem_of_lookup_2|].
        intros (j & Hj & Hlt)%elem_of_take. assert (j = Z.to_nat i) by (by eapply NoDup_lookup). lia.
      - left. apply (spare_room c p [a] [] k1 Hok1); [|simpl; unfold NBUF; lia].
        intros x Hx. apply Hp1, (sg_pinned _ _ _ Hst) in Hx as [Hx _]. by apply Hpin in Hx. }
    { intros b bf Hin Hbf. apply list_elem_of_singleton in Hin as ->. destruct Hma as (Hma & _).
      assert (bf = ba) as -> by congruence. lia. }
    intros b k2 Hr2. eapply wp_mono; [apply (copy_last blk (start + 1 + i) k a b k2); [by eapply both_reads | lia]|].
    intros [] k3 Hw. replace (Z.to_nat (i + 1)) with (S (Z.to_nat i)) by lia.
    erewrite take_step by (by apply home_writes_lookup). rewrite Z2Nat.id by lia.
    apply (stage_step k0 _ k); [done|]. rewrite (sg_view _ _ _ Hst) in Hw.
    by rewrite apply_writes_other in Hw.
  - by apply stage_start.
  - intros [] k Hst. rewrite Nat2Z.id, <- HW, firstn_all in Hst. done.
Qed.

(** *** The header block *)

(** The header of [write_head], as far as its loop has come. *)
Definition header_upto (i : nat) (blocks : list Z) (d : list Z) : list Z :=
  foldl (fun h j => put_word (4 + 4 * j) (nth j blocks 0) h)
    (put_word 0 (Z.of_nat (length blocks)) d) (seq 0 i).
Definition header (blocks : list Z) (d : list Z) : list Z := header_upto (length blocks) blocks d.

Lemma header_upto_S i blocks d blk :
  blocks !! i = Some blk -> header_upto (S i) blocks d = put_word (4 + 4 * i) blk (header_upto i blocks d).
Proof.
  intros Hi. unfold header_upto. rewrite seq_S, foldl_app. simpl. f_equal.
  apply nth_lookup_Some with (d := 0) in Hi. done.
Qed.

Lemma header_upto_length i blocks d : length (header_upto i blocks d) = length d.
Proof.
  unfold header_upto. rewrite <- (put_word_length 0 (Z.of_nat (length blocks)) d).
  generalize (put_word 0 (Z.of_nat (length blocks)) d). induction (seq 0 i) as [|j js IH]; intros l; simpl; [done|].
  by rewrite IH, put_word_length.
Qed.

Lemma header_upto_n i blocks d :
  (i <= length blocks)%nat -> (4 <= length d)%nat ->
  word_at (header_upto i blocks d) 0 = u32 (Z.of_nat (length blocks)).
Proof.
  intros Hi Hd. induction i as [|i IH].
  - unfold header_upto. simpl. apply word_at_put. lia.
  - destruct (lookup_lt_is_Some_2 blocks i) as [blk Hblk]; [lia|]. rewrite (header_upto_S _ _ _ _ Hblk).
    rewrite word_at_put_ne by lia. apply IH. lia.
Qed.

Lemma header_upto_block i j blocks d blk :
  (i <= length blocks)%nat -> (4 + 4 * length blocks <= length d)%nat -> (j < i)%nat -> blocks !! j = Some blk ->
  word_at (header_upto i blocks d) (4 + 4 * j) = u32 blk.
Proof.
  intros Hi Hd Hj Hb. induction i as [|i IH]; [lia|].
  destruct (lookup_lt_is_Some_2 blocks i) as [blk' Hblk]; [lia|]. rewrite (header_upto_S _ _ _ _ Hblk).
  destruct (decide (j = i)) as [->|].
  - rewrite word_at_put by (rewrite header_upto_length; lia). congruence.
  - rewrite word_at_put_ne by lia. apply IH; lia.
Qed.

(** The header that is written is the one that is read back. *)
Lemma head_header blocks d :
  (4 + 4 * length blocks <= length d)%nat -> Forall (fun b => 0 <= b < 2 ^ 31) blocks ->
  Z.of_nat (length blocks) < 2 ^ 31 ->
  head_n (header blocks d) = Z.of_nat (length blocks) /\ head_blocks (header blocks d) = blocks.
Proof.
  intros Hd Hb Hn. assert (head_n (header blocks d) = Z.of_nat (length blocks)) as Hhn.
  { unfold head_n, header. rewrite header_upto_n by lia. rewrite u32_small by lia. apply s32_small. lia. }
  split; [done|]. unfold head_blocks. rewrite Hhn, Nat2Z.id. apply list_eq. intros i.
  rewrite list_lookup_fmap. destruct (decide (i < length blocks)%nat) as [Hi|Hi].
  - rewrite lookup_seq_lt by done. simpl. destruct (lookup_lt_is_Some_2 blocks i Hi) as [blk Hblk]. rewrite Hblk. f_equal.
    unfold head_block, header. rewrite (header_upto_block _ _ _ _ blk) by (done || lia).
    pose proof (Forall_lookup_1 _ _ _ _ Hb Hblk) as Hr. simpl in Hr.
    rewrite u32_small by lia. apply s32_small. lia.
  - rewrite lookup_seq_ge by lia. simpl. symmetry. apply lookup_ge_None. lia.
Qed.

(** Several stores to one buffer. *)
Lemma store_trans held b bf bf1 d d' k k1 k2 :
  store_post c p held b bf d k k1 -> b_blockno bf1 = b_blockno bf -> b_flags bf1 = b_flags bf ->
  store_post c p held b bf1 d' k1 k2 -> store_post c p held b bf d' k k2.
Proof.
  intros [_ _ Hv1 [Hd1 Hw1] Hp1 Hf1 Hk1] Hn Hfl [Hok2 (bf2 & Hm2 & Hn2 & Hd2' & Hfl2) Hv2 [Hd2 Hw2] Hp2 Hf2 Hk2]. split.
  - done.
  - exists bf2. split_and!; [done | congruence..].
  - intros x. rewrite Hv2, Hn, Hv1. by destruct (x =? _).
  - split; congruence.
  - intros x. by rewrite Hp2, Hp1.
  - by eapply frame_trans.
  - intros b2 Hne. by rewrite Hk2, Hk1.
Qed.

(** Changing a block and writing it through. *)
Lemma flush_spec b bf d k k1 :
  store_post c p [b] b bf d k k1 -> wp (bwrite b ;; brelse b) (fun _ => wrote (b_blockno bf) d k) k1.
Proof.
  intros [Hok1 (bf1 & Hm1 & Hn1 & Hda1 & Hfl1) Hv1 [Hd1 Hw1] Hp1 Hf1 Hk1].
  eapply wp_step; [apply (bwrite_spec c p [b] b bf1); [done | left | done]|].
  intros [] k2 [Hok2 (bf2 & Hm2 & Hn2 & Hda2 & Hfl2) Hv2 Hd2 Hw2 Hp2 Hf2 Hk2].
  eapply wp_mono; [apply (brelse_spec c p [] b bf2); [done | done |]|].
  { right. rewrite Hn2, Hd2, Hda2. by rewrite Z.eqb_refl. }
  intros [] k3 [Hok3 Hv3 [Hd3 Hw3] Hp3 Hf3 _]. split.
  - done.
  - intros x. by rewrite Hv3, Hv2, Hv1.
  - intros x. by rewrite Hd3, Hd2, Hd1, Hn1, Hda1.
  - by rewrite Hw3, Hw2, Hw1, Hn1, Hda1.
  - intros x. by rewrite Hp3, Hp2, Hp1, Hn1.
  - do 2 (eapply frame_trans; [|done]). done.
Qed.

Lemma write_head_spec start blocks L k :
  log_at start blocks k -> region start blocks (disksize k) -> cache_ok c p [] k ->
  (forall x, pinned (bcache k) x -> x ∈ L) -> (length L < NBUF)%nat ->
  wp write_head (fun _ => wrote start (header blocks (view k start)) k) k.
Proof.
  intros Hla Hrg Hok HL HLn. pose proof (rg_count _ _ _ Hrg) as Hcount. destruct Hrg as [Hs0 Hs1 Hs2 _ _ _].
  unfold write_head. apply wp_gets.
  rewrite (la_dev _ _ _ Hla), (la_start _ _ _ Hla), u32_small by (unfold LOGSIZE, MAXOPBLOCKS in *; lia).
  eapply wp_step; [apply (bread_spec c p [] start k Hok)|].
  { unfold LOGSIZE, MAXOPBLOCKS in *. lia. } { left. by apply (spare_room c p [] L k). }
  { intros b bf Hin. by apply not_elem_of_nil in Hin. }
  intros b k1 [Hok1 _ (bf & Hm & Hn & Hda & _ & _) Hv1 Hd1 Hp1 Hf1 _].
  pose proof (log_at_frame _ _ _ _ Hf1 Hla) as Hla1. apply wp_gets. rewrite (log_n _ _ _ Hla1).
  eapply wp_step; [apply (store_spec c p [b] b bf); [done | left | done]|]. intros [] k2 Hst2. rewrite Hda in Hst2.
  eapply wp_step; [eapply (for_lt_wp _ (fun k => lh_n (klog k)) _ (Z.of_nat (length blocks))
    (fun i => store_post c p [b] b bf (header_upto (Z.to_nat i) blocks (view k start)) k1))|].
  - lia.
  - unfold LOGSIZE, MAXOPBLOCKS, NBUF in *. lia.
  - intros i k3 Hst. rewrite (fr_log _ _ _ (st_frame _ _ _ _ _ _ _ _ Hst)). by apply log_n in Hla1.
  - intros i k3 Hi Hst. destruct (lookup_lt_is_Some_2 blocks (Z.to_nat i)) as [blk Hblk]; [lia|].
    pose proof (log_at_frame _ _ _ _ (st_frame _ _ _ _ _ _ _ _ Hst) Hla1) as Hla3.
    eapply wp_step; [apply (wp_Ret _ (fun v k' => v = blk /\ k' = k3) _ blk k3);
      [rewrite <- (Z2Nat.id i) by lia; by eapply lhblock_eq | done]|]. intros ? ? [-> ->].
    destruct (st_buf _ _ _ _ _ _ _ _ Hst) as (bf3 & Hm3 & Hn3 & Hda3 & Hfl3).
    eapply wp_mono; [apply (store_spec c p [b] b bf3); [apply Hst | left | done]|]. intros [] k4 Hst4.
    replace (Z.to_nat (i + 1)) with (S (Z.to_nat i)) by lia. rewrite (header_upto_S _ _ _ blk Hblk).
    rewrite Hda3 in Hst4. by eapply store_trans.
  - exact Hst2.
  - intros [] k3 Hst. rewrite Nat2Z.id in Hst. eapply wp_mono; [by eapply flush_spec|].
    intros [] k4 Hw. rewrite Hn in Hw. by eapply wrote_after.
Qed.

(** ** commit *)

(** The disk writes of [commit], in order: the copies in the log, the header
    that commits them, the blocks at home, and the header that clears the
    log.  [v] is what the processes see of the blocks, [h] the old header. *)
Definition home_of (blocks : list Z) (v : Z -> list Z) : list (Z * list Z) := (fun b => (b, v b)) <$> blocks.
Definition commit_writes (start : Z) (blocks : list Z) (v : Z -> list Z) (h : list Z) : list (Z * list Z) :=
  (log_writes start blocks v ++ [(start, header blocks h)]) ++
  home_of blocks v ++ [(start, header [] (header blocks h))].

Lemma home_of_fst blocks v : fst <$> home_of blocks v = blocks.
Proof. unfold home_of. rewrite <- list_fmap_compose. apply list_fmap_id. Qed.

(** Once the log is written, the log holds what goes home. *)
Lemma home_writes_logged start blocks v d :
  home_writes start blocks (apply_writes (log_writes start blocks v ++ [(start, d)]) v) = home_of blocks v.
Proof.
  apply list_eq. intros i. unfold home_of. rewrite list_lookup_fmap. destruct (blocks !! i) as [blk|] eqn:Hi; simpl.
  - rewrite (home_writes_lookup _ _ _ _ _ Hi), apply_writes_snoc, (proj2 (Z.eqb_neq _ _)) by lia. do 2 f_equal.
    apply apply_writes_in; [rewrite log_writes_fst; apply slots_nodup|].
    eapply list_elem_of_lookup_2. by apply log_writes_lookup.
  - apply lookup_ge_None. rewrite home_writes_length. by apply lookup_ge_None.
Qed.

Lemma home_writes_ext start blocks v v' :
  (forall x, v x = v' x) -> home_writes start blocks v = home_writes start blocks v'.
Proof. intros Hv. unfold home_writes. f_equal. by apply list_fmap_ext. Qed.

Lemma quiet_klog f k : quiet c p (upd_klog f k) <-> quiet c p k.
Proof.
  split; [|apply (quiet_unrelated c p (upd_klog f)); done].
  intros Hq. assert (quiet c p (upd_klog (fun _ => klog k) (upd_klog f k))) as Hq'.
  { by apply (quiet_unrelated c p (upd_klog (fun _ => klog k))). }
  by destruct k.
Qed.

Lemma cache_ok_klog held f k : cache_ok c p held (upd_klog f k) <-> cache_ok c p held k.
Proof.
  split; intros [H1 H2 H3]; (split; [|exact H2 | exact H3]).
  - exact (proj1 (quiet_klog f k) H1).
  - exact (proj2 (quiet_klog f k) H1).
Qed.

(** After a step the log has taken [ws] to the disk, and [lg] is in memory. *)
Record logged (k0 : kernel) (ws : list (Z * list Z)) (lg : log) (k : kernel) : Prop := {
  lo_ok : cache_ok c p [] k;
  lo_view : forall x, view k x = apply_writes ws (view k0) x;
  lo_disk : forall x, disk k x = apply_writes ws (disk k0) x;
  lo_writes : dwrites k = dwrites k0 ++ ws;
  lo_pinned : forall x, pinned (bcache k) x <-> pinned (bcache k0) x /\ x ∉ fst <$> ws;
  lo_log : klog k = lg;
  lo_size : disksize k = disksize k0;
}.

Lemma logged_start k : cache_ok c p [] k -> logged k [] (klog k) k.
Proof. intros Hok. destruct (stage_start k Hok) as [H1 H2 H3 H4 H5 H6]. by split. Qed.

Lemma logged_stage k0 ws1 lg k1 ws2 k2 : logged k0 ws1 lg k1 -> stage k1 ws2 k2 -> logged k0 (ws1 ++ ws2) lg k2.
Proof.
  intros [_ Hv Hd Hw Hp Hl Hs] [Hok' Hv' Hd' Hw' Hp' Hf]. split.
  - done.
  - intros x. rewrite Hv', apply_writes_app. by apply apply_writes_ext.
  - intros x. rewrite Hd', apply_writes_app. by apply apply_writes_ext.
  - by rewrite Hw', Hw, app_assoc.
  - intros x. rewrite Hp', Hp, fmap_app, not_elem_of_app. tauto.
  - rewrite (fr_log _ _ _ Hf). done.
  - rewrite (fr_size _ _ _ Hf). done.
Qed.

Lemma logged_wrote k0 ws lg k1 blk v k2 : logged k0 ws lg k1 -> wrote blk v k1 k2 -> logged k0 (ws ++ [(blk, v)]) lg k2.
Proof.
  intros Hl Hw. eapply logged_stage; [done|]. apply (stage_step k1 [] k1); [|done]. by apply stage_start, Hl.
Qed.

Lemma logged_klog k0 ws lg f k : logged k0 ws lg k -> logged k0 ws (f lg) (upd_klog f k).
Proof.
  intros [Hok Hv Hd Hw Hp Hl Hs]. split; try done; [by apply cache_ok_klog|]. change (f (klog k) = f lg). by rewrite Hl.
Qed.

Lemma logged_at start blocks k0 ws lg k :
  logged k0 ws lg k -> klog k0 = lg -> log_at start blocks k0 -> log_at start blocks k.
Proof. intros Hl E [H1 H2 H3 H4]. pose proof (lo_log _ _ _ _ Hl) as E'. split; rewrite E', <- E; done. Qed.

Lemma log_at_clear start blocks k : log_at start blocks k -> log_at start [] (upd_klog (upd_lh_n (fun _ => 0)) k).
Proof. intros [H1 H2 _ _]. by split. Qed.

Lemma region_nil start blocks size : region start blocks size -> region start [] size.
Proof. intros [H1 H2 H3 _ _ _]. split; try done; [unfold NBUF; simpl; lia | constructor]. Qed.

Lemma commit_spec start blocks k :
  log_at start blocks k -> blocks <> [] -> region start blocks (disksize k) -> cache_ok c p [] k ->
  (forall x, pinned (bcache k) x <-> x ∈ blocks) ->
  wp commit (fun _ => logged k (commit_writes start blocks (view k) (view k start)) (upd_lh_n (fun _ => 0) (klog k))) k.
Proof.
  intros Hla Hne Hrg Hok Hpin. unfold commit. apply wp_gets. rewrite (log_n _ _ _ Hla).
  destruct (Z.ltb_spec 0 (Z.of_nat (length blocks))); [|destruct blocks; simpl in *; [done | lia]]. unfold when.
  eapply wp_step; [by apply (write_log_spec start blocks)|]. intros [] k1 Hs1.
  pose proof (logged_stage _ _ _ _ _ _ (logged_start k Hok) Hs1) as Hl1. simpl in Hl1.
  pose proof (logged_at _ _ _ _ _ _ Hl1 eq_refl Hla) as Hla1.
  assert (forall x, pinned (bcache k1) x -> x ∈ blocks) as Hp1.
  { intros x [Hx _]%(lo_pinned _ _ _ _ Hl1). by apply Hpin. }
  eapply wp_step; [apply (write_head_spec start blocks blocks); [done | by rewrite (lo_size _ _ _ _ Hl1) | apply Hl1 | done | apply Hrg]|].
  intros [] k2 Hw2. pose proof (logged_wrote _ _ _ _ _ _ _ Hl1 Hw2) as Hl2.
  assert (view k1 start = view k start) as Hvs.
  { rewrite (lo_view _ _ _ _ Hl1). apply apply_writes_other. rewrite log_writes_fst, slots_elem. lia. }
  rewrite Hvs in Hl2. pose proof (logged_at _ _ _ _ _ _ Hl2 eq_refl Hla) as Hla2.
  eapply wp_step; [apply (install_trans_spec start blocks); [done | by rewrite (lo_size _ _ _ _ Hl2) | apply Hl2 |]|].
  { left. intros x. rewrite (lo_pinned _ _ _ _ Hl2), Hpin, fmap_app, not_elem_of_app, log_writes_fst, slots_elem.
    simpl. rewrite list_elem_of_singleton. split; [tauto|]. intros Hx. split; [done|].
    destruct (proj1 (list_elem_of_lookup _ _) Hx) as [i Hi]. destruct (region_block _ _ _ _ _ Hrg Hi).
    destruct Hrg. unfold LOGSIZE, MAXOPBLOCKS, NBUF in *. lia. }
  intros [] k3 Hs3. rewrite (home_writes_ext _ _ _ _ (lo_view _ _ _ _ Hl2)), home_writes_logged in Hs3.
  pose proof (logged_stage _ _ _ _ _ _ Hl2 Hs3) as Hl3. eapply wp_step.
  { eapply (wp_Ret _ (fun _ k' => k' = upd_klog (upd_lh_n (fun _ => 0)) k3)); reflexivity. }
  intros [] ? ->. pose proof (logged_klog _ _ _ (upd_lh_n (fun _ => 0)) _ Hl3) as Hl4.
  eapply wp_mono; [eapply (write_head_spec start [] blocks)|].
  - eapply log_at_clear, logged_at; [exact Hl3 | done | done].
  - rewrite (lo_size _ _ _ _ Hl4). by eapply region_nil.
  - apply Hl4.
  - intros x [Hx _]%(lo_pinned _ _ _ _ Hl4). by apply Hpin.
  - apply Hrg.
  - intros [] k5 Hw5. pose proof (logged_wrote _ _ _ _ _ _ _ Hl4 Hw5) as Hl5.
    unfold commit_writes. rewrite app_assoc. rewrite (lo_view _ _ _ _ Hl4) in Hl5.
    rewrite apply_writes_app, (apply_writes_other (home_of blocks (view k))), apply_writes_snoc, Z.eqb_refl in Hl5; [done|].
    rewrite home_of_fst. intros Hx. destruct (proj1 (list_elem_of_lookup _ _) Hx) as [i Hi].
    destruct (region_block _ _ _ _ _ Hrg Hi). destruct Hrg. unfold LOGSIZE, MAXOPBLOCKS, NBUF in *. lia.
Qed.

(** ** Recovery *)

(** A block that is not pinned is on the disk as the processes see it. *)
Lemma view_disk k x : cache_ok c p [] k -> ~ pinned (bcache k) x -> view k x = disk k x.
Proof.
  intros [_ _ [Hbuf Hu _]] Hnp. unfold view.
  destruct (content_cases (bcache k) x) as [(b & bf & Hb & Hbf & Hh)|Hno].
  - rewrite (content_hit _ _ b bf) by done. destruct (Hbuf b bf Hb Hbf) as [_ _ _ Hdv Hcl].
    pose proof Hh as [Hd Hn]%holds_spec. rewrite <- Hn. destruct Hdv as [[_ [Hf|Hf]]|[]]; [| |done].
    + apply Hcl; [apply not_elem_of_nil | done].
    + destruct Hnp. by exists b, bf.
  - by apply content_miss.
Qed.

(** The kernel as it starts to recover: nothing is pinned, and the log is
    where the superblock says. *)
Record fresh (start : Z) (k : kernel) : Prop := {
  fs_ok : cache_ok c p [] k;
  fs_pinned : forall x, ~ pinned (bcache k) x;
  fs_dev : l_dev (klog k) = ROOTDEV;
  fs_start : l_start (klog k) = start;
  fs_blocks : Z.of_nat (length (lh_block (klog k))) = LOGSIZE;
}.

Lemma set_lhblock_eq what i v k :
  0 <= i < Z.of_nat (length (lh_block (klog k))) ->
  set_lhblock what i v k = Ret tt (upd_klog (upd_lh_block (fun l => <[Z.to_nat i := v]> l)) k).
Proof.
  intros Hi. unfold set_lhblock. mrun. by rewrite bind_in_array.
Qed.

Lemma head_blocks_lookup h i :
  (i < Z.to_nat (head_n h))%nat -> head_blocks h !! i = Some (head_block h i).
Proof. intros Hi. unfold head_blocks. by rewrite list_lookup_fmap, lookup_seq_lt. Qed.

Lemma head_blocks_length h : length (head_blocks h) = Z.to_nat (head_n h).
Proof. unfold head_blocks. by rewrite length_fmap, length_seq. Qed.

Lemma take_insert_snoc {A} (l : list A) i x : (i < length l)%nat -> take (S i) (<[i := x]> l) = take i l ++ [x].
Proof. intros Hi. rewrite (take_step _ i x) by (by rewrite list_lookup_insert_eq). by rewrite take_insert_ge. Qed.

(** [read_head] fills the header in memory. *)
Lemma read_head_spec start k :
  fresh start k -> region start (head_blocks (view k start)) (disksize k) -> 0 <= head_n (view k start) ->
  wp read_head (fun _ k' => logged k [] (klog k') k' /\ log_at start (head_blocks (view k start)) k') k.
Proof.
  intros [Hok Hnp Hdev Hst Hlen] Hrg Hn. set (h := view k start) in *.
  pose proof (rg_count _ _ _ Hrg) as Hcount. rewrite head_blocks_length in Hcount.
  unfold read_head. apply wp_gets. rewrite Hdev, Hst, u32_small by (destruct Hrg; unfold LOGSIZE, MAXOPBLOCKS in *; lia).
  eapply wp_step; [apply (bread_spec c p [] start k Hok)|].
  { destruct Hrg. unfold LOGSIZE, MAXOPBLOCKS in *. lia. }
  { left. apply (spare_room c p [] [] k Hok); [|simpl; unfold NBUF; lia]. intros x Hx. by apply Hnp in Hx. }
  { intros b bf Hin. by apply not_elem_of_nil in Hin. }
  intros b k1 Hr. destruct (read_clean _ _ _ _ _ Hr) as (bf & Hm & Hnb & Hda & Hcl).
  destruct Hr as [Hok1 _ _ Hv1 [Hd1 Hw1] Hp1 Hf1 _].
  eapply wp_step; [apply (wp_Ret _ (fun a k' => a = bf /\ k' = k1) _ bf k1); [apply get_buf_eq, Hm | done]|].
  intros ? ? [-> ->]. rewrite Hda. fold h. change (s32 (word_at h 0)) with (head_n h).
  eapply wp_step; [eapply (wp_Ret _ (fun _ k' => k' = upd_klog (upd_lh_n (fun _ => head_n h)) k1)); reflexivity|].
  intros [] ? ->.
  eapply wp_step; [eapply (for_lt_wp _ (fun k => lh_n (klog k)) _ (head_n h) (fun i k' => exists lb,
    k' = upd_klog (fun lg => upd_lh_block (fun _ => lb) (upd_lh_n (fun _ => head_n h) lg)) k1 /\
    Z.of_nat (length lb) = LOGSIZE /\ take (Z.to_nat i) lb = take (Z.to_nat i) (head_blocks h)))|].
  - done.
  - unfold LOGSIZE, MAXOPBLOCKS, NBUF in *. lia.
  - intros i k' (lb & -> & _). done.
  - intros i k' Hi (lb & -> & Hlb & Htk). eapply wp_Ret; [apply set_lhblock_eq; simpl; unfold LOGSIZE, MAXOPBLOCKS, NBUF in *; lia|].
    exists (<[Z.to_nat i := head_block h (Z.to_nat i)]> lb). split_and!.
    + unfold head_block. by kernel_eq.
    + by rewrite length_insert.
    + replace (Z.to_nat (i + 1)) with (S (Z.to_nat i)) by lia.
      rewrite take_insert_snoc by (unfold LOGSIZE, MAXOPBLOCKS, NBUF in *; lia). rewrite Htk. symmetry. apply take_step.
      apply head_blocks_lookup. lia.
  - exists (lh_block (klog k1)). split_and!; [|by rewrite (fr_log _ _ _ Hf1) | done].
    by kernel_eq.
  - intros [] k2 (lb & -> & Hlb & Htk). eapply wp_mono; [apply (brelse_spec c p [] b bf); [by apply cache_ok_klog | done |]|].
    { simpl. by rewrite Hnb. }
    intros [] k3 [Hok3 Hv3 [Hd3 Hw3] Hp3 Hf3 _]. split.
    + split; [done| | | |intros x|done|].
      * intros x. rewrite Hv3. exact (Hv1 x).
      * intros x. rewrite Hd3. simpl. by rewrite Hd1.
      * rewrite Hw3. simpl. by rewrite Hw1, app_nil_r.
      * rewrite Hp3. simpl. rewrite Hp1. split; [|tauto]. intros Hx. split; [done | apply not_elem_of_nil].
      * rewrite (fr_size _ _ _ Hf3). apply Hf1.
    + assert (length (head_blocks h) = Z.to_nat (head_n h)) as Hhl by apply head_blocks_length.
      split; rewrite (fr_log _ _ _ Hf3); simpl; rewrite ?(fr_log _ _ _ Hf1); try done.
      * rewrite Hhl. lia.
      * rewrite Hhl, Htk, <- Hhl. apply firstn_all.
Qed.

Lemma recover_spec start k :
  fresh start k -> region start (head_blocks (disk k start)) (disksize k) -> 0 <= head_n (disk k start) ->
  wp recover_from_log (fun _ k' =>
    logged k (installs start (disk k) ++ [(start, header [] (disk k start))]) (klog k') k' /\ log_at start [] k') k.
Proof.
  intros Hfr Hrg Hn. pose proof Hfr as [Hok Hnp _ _ _].
  assert (forall x, view k x = disk k x) as Hvd by (intros x; by apply view_disk).
  unfold recover_from_log.
  eapply wp_step; [apply (read_head_spec start); rewrite ?Hvd; done|]. intros [] k1 [Hl1 Hla1]. rewrite Hvd in Hla1.
  assert (forall x, ~ pinned (bcache k1) x) as Hnp1 by (intros x [Hx _]%(lo_pinned _ _ _ _ Hl1); by apply Hnp in Hx).
  eapply wp_step; [apply (install_trans_spec start (head_blocks (disk k start)));
    [done | by rewrite (lo_size _ _ _ _ Hl1) | apply Hl1 | by right]|].
  intros [] k2 Hs2. rewrite (home_writes_ext _ _ _ (disk k)) in Hs2 by (intros x; by rewrite (lo_view _ _ _ _ Hl1), <- Hvd).
  pose proof (logged_stage _ _ _ _ _ _ Hl1 Hs2) as Hl2. simpl in Hl2.
  eapply wp_step; [eapply (wp_Ret _ (fun _ k' => k' = upd_klog (upd_lh_n (fun _ => 0)) k2)); reflexivity|].
  intros [] ? ->. pose proof (logged_klog _ _ _ (upd_lh_n (fun _ => 0)) _ Hl2) as Hl3.
  pose proof (log_at_clear _ _ _ (log_at_frame _ _ _ _ (sg_frame _ _ _ Hs2) Hla1)) as Hla3.
  eapply wp_mono; [eapply (write_head_spec start [] [])|].
  - exact Hla3.
  - rewrite (lo_size _ _ _ _ Hl3). by eapply region_nil.
  - apply Hl3.
  - intros x [Hx _]%(lo_pinned _ _ _ _ Hl3). by apply Hnp in Hx.
  - unfold NBUF. simpl. lia.
  - intros [] k5 Hw5. pose proof (logged_wrote _ _ _ _ _ _ _ Hl3 Hw5) as Hl5.
    rewrite (lo_view _ _ _ _ Hl3) in Hl5. rewrite apply_writes_other, Hvd in Hl5.
    + split; [|by eapply log_at_frame, Hla3; apply Hw5]. pose proof (lo_log _ _ _ _ Hl5) as E. rewrite E.
      unfold installs. rewrite <- head_blocks_length. exact Hl5.
    + rewrite home_writes_fst. intros Hx. destruct (proj1 (list_elem_of_lookup _ _) Hx) as [i Hi].
      destruct (region_block _ _ _ _ _ Hrg Hi). destruct Hrg. unfold LOGSIZE, MAXOPBLOCKS, NBUF in *. lia.
Qed.

(** ** log_write *)

(** The blocks of the transaction after [log_write] of block [blk]: a block
    that is logged already is absorbed. *)
Definition absorb (blk : Z) (blocks : list Z) : list Z :=
  if decide (blk ∈ blocks) then blocks else blocks ++ [blk].

Lemma log_slot_spec start blocks blk k :
  log_at start blocks k -> Forall (fun b => 0 <= b < 2 ^ 31) blocks -> 0 <= blk < 2 ^ 31 ->
  (exists i, log_slot (klog k) blk = Z.of_nat i /\ blocks !! i = Some blk) \/
  (log_slot (klog k) blk = Z.of_nat (length blocks) /\ blk ∉ blocks).
Proof.
  intros [_ _ Hn Hb] Hr Hblk. unfold log_slot. rewrite Hn, Nat2Z.id, Hb.
  destruct (find_index _ blocks) as [i|] eqn:E.
  - apply find_index_Some in E as [(x & Hx & Hp) _]. left. exists i. split; [done|].
    pose proof (Forall_lookup_1 _ _ _ _ Hr Hx) as Hxr. simpl in Hxr. apply Z.eqb_eq in Hp. rewrite u32_small in Hp by lia.
    by subst.
  - apply find_index_None in E. right. split; [lia|]. intros Hin.
    rewrite list.Forall_forall in E, Hr. specialize (E _ Hin). specialize (Hr _ Hin). simpl in Hr.
    rewrite u32_small, Z.eqb_refl in E by lia. done.
Qed.

(** What [log_write] does to the header in memory. *)
Definition relog (i blk : Z) (lg : log) : log :=
  let lg1 := upd_lh_block (fun l => <[Z.to_nat i := blk]> l) lg in
  if i =? lh_n lg then upd_lh_n (fun n => n + 1) lg1 else lg1.

Lemma relog_at start blocks blk k k' :
  log_at start blocks k -> Forall (fun b => 0 <= b < 2 ^ 31) blocks -> 0 <= blk < 2 ^ 31 ->
  (length blocks < length (lh_block (klog k)))%nat -> klog k' = relog (log_slot (klog k) blk) blk (klog k) ->
  log_at start (absorb blk blocks) k' /\ length (lh_block (klog k')) = length (lh_block (klog k)).
Proof.
  intros Hla Hr Hblk Hlen Hk. pose proof Hla as [H1 H2 Hn Hb]. unfold absorb.
  destruct (log_slot_spec _ _ _ _ Hla Hr Hblk) as [(i & Hi & Hx)|[Hi Hx]]; rewrite Hi in Hk; unfold relog in Hk; rewrite Hn, Nat2Z.id in Hk.
  - pose proof (lookup_lt_Some _ _ _ Hx). rewrite (proj2 (Z.eqb_neq _ _)) in Hk by lia.
    rewrite decide_True by (by eapply list_elem_of_lookup_2). split; [|by rewrite Hk; simpl; rewrite length_insert].
    split; rewrite Hk; try done. simpl. rewrite take_insert_lt, Hb by done. by apply list_insert_id.
  - rewrite Z.eqb_refl in Hk. rewrite decide_False by done. split; [|by rewrite Hk; simpl; rewrite length_insert].
    split; rewrite Hk; try done; rewrite length_app; simpl.
    + lia.
    + rewrite Nat.add_1_r, take_insert_snoc by done. by rewrite Hb.
Qed.

Record logwrite_post (held : list nat) (start : Z) (blocks : list Z) (b : nat) (bf : buf) (k k' : kernel) : Prop := {
  lw_ok : cache_ok c p held k';
  lw_buf : exists bf', mine p b bf' k' /\ b_blockno bf' = b_blockno bf /\ b_data bf' = b_data bf /\ b_flags bf' = PINNED;
  lw_view : forall x, view k' x = view k x;
  lw_disk : disk k' = disk k /\ dwrites k' = dwrites k;
  lw_pinned : forall x, pinned (bcache k') x <-> pinned (bcache k) x \/ x = b_blockno bf;
  lw_log : klog k' = relog (log_slot (klog k) (b_blockno bf)) (b_blockno bf) (klog k);
  lw_at : log_at start (absorb (b_blockno bf) blocks) k';
  lw_size : disksize k' = disksize k;
  lw_icache : icache k' = icache k;
  lw_sb : sb k' = sb k;
  lw_keeps : forall b2, b2 <> b -> core <$> bcache k' !! b2 = core <$> bcache k !! b2;
}.

Lemma log_write_eq b bf k :
  quiet c p k -> bcache k !! b = Some bf -> lh_n (klog k) < LOGSIZE -> lh_n (klog k) < l_size (klog k) - 1 ->
  1 <= l_outstanding (klog k) -> 0 <= b_blockno bf < 2 ^ 31 ->
  0 <= log_slot (klog k) (b_blockno bf) < Z.of_nat (length (lh_block (klog k))) ->
  log_write b k = Ret tt (put (<[b := upd_b_flags (fun fl => Z.lor fl B_DIRTY) bf]> (bcache k))
    (upd_klog (relog (log_slot (klog k) (b_blockno bf)) (b_blockno bf)) (touch c k))).
Proof.
  intros Hq Hbf Hn1 Hn2 Ho Hblk Hi. pose proof (quiet_ok c p _ Hq) as Hok. pose proof Hq as (_ & Hl & _).
  unfold log_write. mrun. rewrite (proj2 (Z.leb_gt _ _) Hn1). rewrite (proj2 (Z.leb_gt _ _) Hn2).
  rewrite (proj2 (Z.ltb_ge _ _) Ho). cbn [orb]. mcall (acquire_eq c). mcall (get_buf_eq b bf). mrun.
  change (klog (acq L_log c k)) with (klog k). set (i := log_slot (klog k) (b_blockno bf)) in *.
  mcall set_lhblock_eq. rewrite s32_small by lia.
  assert (forall B (f : unit -> M B), bind (when (i =? lh_n (klog k)) (modify (upd_klog (upd_lh_n (fun n => n + 1))))) f
    (upd_klog (upd_lh_block (fun l => <[Z.to_nat i := b_blockno bf]> l)) (acq L_log c k)) =
    f tt (upd_klog (relog i (b_blockno bf)) (acq L_log c k))) as Hwhen.
  { intros B f. unfold relog, when. change (klog (acq L_log c k)) with (klog k).
    destruct (i =? lh_n (klog k)) eqn:E; unfold bind, modify, ret, upd_klog; simpl; rewrite E; done. }
  rewrite Hwhen, bind_set_buf by exact (lookup_lt_Some _ _ _ Hbf). set (g := fun k => put (<[b := upd_b_flags (fun fl => Z.lor fl B_DIRTY) bf]> (bcache k))
    (upd_klog (relog i (b_blockno bf)) k)).
  match goal with |- release L_log ?k2 = _ => assert (k2 = g (acq L_log c k)) as -> end.
  { unfold g, put. kernel_eq. by apply list_alter_insert. }
  rewrite (unrelated_release g ltac:(done) c L_log k Hok). f_equal.
  change (rel L_log c (g (acq L_log c k))) with (g (rel L_log c (acq L_log c k))). by rewrite rel_acq.
Qed.

Lemma log_write_spec held start blocks b bf k :
  cache_ok c p held k -> b ∈ held -> mine p b bf k -> log_at start blocks k -> region start blocks (disksize k) ->
  Z.of_nat (length (lh_block (klog k))) = LOGSIZE -> Z.of_nat (length blocks) < l_size (klog k) - 1 ->
  1 <= l_outstanding (klog k) ->
  wp (log_write b) (fun _ => logwrite_post held start blocks b bf k) k.
Proof.
  intros Hco Hin Hm Hla Hrg Hlen Hsz Ho. destruct (mine_inv c p _ _ _ _ Hco Hin Hm) as (Hb & Href & Hfl & Hoth).
  pose proof Hm as (Hbf & Hd & Hn & Hs1 & Hs2). pose proof Hco as [Hq _ Hinv]. pose proof Hinv as [_ Hu _].
  pose proof (log_n _ _ _ Hla) as Hln. pose proof (rg_count _ _ _ Hrg) as Hcount. pose proof (rg_size _ _ _ Hrg) as Hmax.
  assert (Forall (fun b => 0 <= b < 2 ^ 31) blocks) as Hr.
  { eapply Forall_impl; [|exact (rg_blocks _ _ _ Hrg)]. intros x [Hx _]. lia. }
  assert (0 <= log_slot (klog k) (b_blockno bf) < Z.of_nat (length (lh_block (klog k)))) as Hslot.
  { unfold LOGSIZE, MAXOPBLOCKS, NBUF in *.
    destruct (log_slot_spec _ _ (b_blockno bf) _ Hla Hr) as [(i & -> & Hi%lookup_lt_Some)|[-> _]]; lia. }
  set (bf' := upd_b_flags (fun fl => Z.lor fl B_DIRTY) bf).
  assert (b_flags bf' = PINNED) as Hf' by (simpl; by destruct Hfl as [-> | ->]).
  eapply wp_Ret; [apply (log_write_eq b bf); try done; [unfold LOGSIZE, MAXOPBLOCKS, NBUF in *; lia.. | lia]|].
  fold bf'. set (k' := put _ _).
  assert (forall x, holds x bf' = holds x bf) as Hhs by done.
  assert (unique (<[b := bf']> (bcache k))) as Hu'.
  { apply (unique_insert b bf bf' (bcache k) Hbf); [done|]. intros _ b2 bf2 Hne Hb2 Hl2.
    destruct (holds (b_blockno bf') bf2) eqn:E; [|done]. apply holds_spec in E as [Hd2 Hn2].
    by destruct (Hoth b2 bf2 Hne Hb2 Hl2 Hd2). }
  split.
  - apply (cache_ok_insert c p held b bf bf' k k'); try (done || by right).
    by apply quiet_put, (quiet_unrelated c p (upd_klog _)), quiet_touch.
  - exists bf'. split_and!; [|done..]. split_and!; [exact (insert_same b bf bf' _ Hbf) | exact Hd | exact (proj1 Hn) | exact (proj2 Hn) | exact Hs1 | exact Hs2].
  - intros x. unfold view. change (bcache k') with (<[b := bf']> (bcache k)). destruct (holds x bf) eqn:E.
    + rewrite (content_insert_hit b bf bf' _ Hb Hbf) by done. symmetry. by apply (content_hit _ _ b bf).
    + by apply (content_insert_other b bf bf' _ Hbf).
  - done.
  - intros x. change (bcache k') with (<[b := bf']> (bcache k)). destruct (decide (x = b_blockno bf)) as [->|Hne].
    + split; [by right|]. intros _. exists b, bf'. split_and!; [done | exact (insert_same b bf bf' _ Hbf) | | done].
      by apply holds_spec.
    + rewrite (pinned_insert b bf bf' _ Hbf); [tauto|].
      split; (intros [[_ E]%holds_spec _]; destruct Hne; by rewrite <- E).
  - done.
  - eapply relog_at; [done | done | lia | | done]. unfold LOGSIZE, MAXOPBLOCKS, NBUF in *. lia.
  - done.
  - done.
  - done.
  - intros b2 Hne. by apply insert_core.
Qed.

(** ** Crashes *)

(** The blocks that are not the log's own. *)
Definition outside (start x : Z) : Prop := x < start \/ start + LOGSIZE <= x.

(** The disk with every block of the transaction replaced. *)
Definition replaced (blocks : list Z) (v d : Z -> list Z) (x : Z) : list Z :=
  if decide (x ∈ blocks) then v x else d x.

Lemma apply_home blocks v d x : apply_writes (home_of blocks v) d x = replaced blocks v d x.
Proof.
  unfold replaced. revert d. induction blocks as [|b bs IH] using rev_ind; intros d.
  - by rewrite decide_False by apply not_elem_of_nil.
  - unfold home_of in *. rewrite fmap_app. simpl. rewrite apply_writes_snoc.
    destruct (Z.eqb_spec x b) as [->|Hne]; [rewrite decide_True; [done|]; apply elem_of_app; right; left|].
    rewrite IH. repeat case_decide; try done; exfalso; rewrite elem_of_app, list_elem_of_singleton in *; tauto.
Qed.

Lemma header_cleared h : (4 <= length h)%nat -> head_n (header [] h) = 0 /\ head_blocks (header [] h) = [].
Proof. intros Hh. apply head_header; [simpl; lia | constructor | simpl; lia]. Qed.

Lemma header_length bs h : length (header bs h) = length h.
Proof. apply header_upto_length. Qed.

Lemma block_outside start blocks size x : region start blocks size -> x ∈ blocks -> outside start x.
Proof.
  intros Hrg Hx. destruct (proj1 (list_elem_of_lookup _ _) Hx) as [i Hi].
  destruct (region_block _ _ _ _ _ Hrg Hi). unfold outside. lia.
Qed.

Section crash.
Variables (start : Z) (blocks : list Z) (size : Z) (v d : Z -> list Z).
Hypothesis Hrg : region start blocks size.
Hypothesis Hlen : length (d start) = Z.to_nat BSIZE.
Hypothesis Hclear : head_n (d start) = 0.

Let ws := commit_writes start blocks v (d start).
Let n := length blocks.

Lemma log_outside m x : outside start x \/ x = start -> x ∉ fst <$> take m (log_writes start blocks v).
Proof.
  rewrite fmap_take, log_writes_fst. intros Ho (i & Hi & _)%elem_of_take.
  pose proof (list_elem_of_lookup_2 _ _ _ Hi) as Hs%slots_elem. pose proof (rg_count _ _ _ Hrg).
  unfold outside, NBUF, LOGSIZE, MAXOPBLOCKS in *. lia.
Qed.

Lemma header_back : head_n (header blocks (d start)) = Z.of_nat n /\ head_blocks (header blocks (d start)) = blocks.
Proof.
  pose proof (rg_count _ _ _ Hrg) as Hc. apply head_header.
  - rewrite Hlen. unfold BSIZE, NBUF in *. lia.
  - eapply Forall_impl; [|exact (rg_blocks _ _ _ Hrg)]. intros b [Hb _]. destruct Hrg. lia.
  - unfold NBUF in *. lia.
Qed.

(** Before the header is written the disk is the old one. *)
Lemma crash_early m x :
  (m <= n)%nat -> outside start x \/ x = start -> apply_writes (take m ws) d x = d x.
Proof.
  intros Hm Ho. unfold ws, commit_writes. rewrite <- !app_assoc, take_app_le by (rewrite log_writes_length; done).
  apply apply_writes_other. by apply log_outside.
Qed.

(** What is on the disk once the header is. *)
Lemma take_commit m :
  (n < m)%nat -> take m ws =
    (log_writes start blocks v ++ [(start, header blocks (d start))]) ++
    take (m - S n) (home_of blocks v ++ [(start, header [] (header blocks (d start)))]).
Proof.
  intros Hm. unfold ws, commit_writes. rewrite take_app_ge; rewrite length_app, log_writes_length; simpl; [|unfold n in *; lia].
  do 2 f_equal. unfold n. lia.
Qed.

Lemma take_home j : take j (home_of blocks v) = home_of (take j blocks) v.
Proof. unfold home_of. by rewrite fmap_take. Qed.

Let mid : Z -> list Z := apply_writes (log_writes start blocks v ++ [(start, header blocks (d start))]) d.

Lemma mid_outside x : outside start x -> mid x = d x.
Proof.
  intros Ho. unfold mid. rewrite apply_writes_snoc, (proj2 (Z.eqb_neq _ _)) by (unfold outside, LOGSIZE, MAXOPBLOCKS in *; lia).
  apply apply_writes_other. rewrite <- (firstn_all (log_writes start blocks v)). apply log_outside. by left.
Qed.

Lemma mid_slot i blk : blocks !! i = Some blk -> mid (start + 1 + Z.of_nat i) = v blk.
Proof.
  intros Hi. unfold mid. rewrite apply_writes_snoc, (proj2 (Z.eqb_neq _ _)) by lia.
  apply apply_writes_in; [rewrite log_writes_fst; apply slots_nodup|].
  eapply list_elem_of_lookup_2. by apply log_writes_lookup.
Qed.

(** Recovering after the header was written installs every block. *)
Lemma recover_committed j x :
  (j <= n)%nat -> outside start x ->
  recovered start (apply_writes (home_of (take j blocks) v) mid) x = replaced blocks v d x.
Proof.
  intros Hj Ho. set (d' := apply_writes (home_of (take j blocks) v) mid).
  assert (forall y, ~ outside start y -> d' y = mid y) as Hlog.
  { intros y Hy. unfold d'. rewrite apply_home. unfold replaced. rewrite decide_False; [done|].
    intros (i & Hi & _)%elem_of_take. apply Hy, (block_outside _ _ _ _ Hrg). by eapply list_elem_of_lookup_2. }
  assert (d' start = header blocks (d start)) as Hhd.
  { rewrite Hlog by (unfold outside, LOGSIZE, MAXOPBLOCKS; lia). unfold mid. by rewrite apply_writes_snoc, Z.eqb_refl. }
  destruct header_back as [Hn Hbs]. unfold recovered, installs. rewrite Hhd, Hn, Hbs, Nat2Z.id.
  assert (zip blocks (d' <$> slots start n) = home_of blocks v) as ->.
  { apply list_eq. intros i. unfold home_of. rewrite lookup_zip_with, list_lookup_fmap, list_lookup_fmap.
    destruct (blocks !! i) as [blk|] eqn:Hi; [|done]. simpl. rewrite slots_lookup by (by eapply lookup_lt_Some). simpl.
    rewrite Hlog, (mid_slot _ _ Hi); [done|]. pose proof (lookup_lt_Some _ _ _ Hi). pose proof (rg_count _ _ _ Hrg).
    unfold outside, NBUF, LOGSIZE, MAXOPBLOCKS in *. lia. }
  rewrite apply_home. unfold replaced. case_decide as Hin; [done|]. unfold d'. rewrite apply_home. unfold replaced.
  rewrite decide_False; [by apply mid_outside|]. intros (i & Hi & _)%elem_of_take. by destruct Hin; eapply list_elem_of_lookup_2.
Qed.
Lemma home_start bs : bs ⊆ blocks -> apply_writes (home_of bs v) mid start = header blocks (d start).
Proof.
  intros Hbs. rewrite apply_home. unfold replaced. rewrite decide_False.
  - unfold mid. by rewrite apply_writes_snoc, Z.eqb_refl.
  - intros Hin%Hbs%(block_outside _ _ _ _ Hrg). unfold outside, LOGSIZE, MAXOPBLOCKS in *. lia.
Qed.

Lemma recovered_cleared d' x : head_n (d' start) = 0 -> recovered start d' x = d' x.
Proof. intros Hn. unfold recovered, installs, head_blocks. by rewrite Hn. Qed.

(** Wherever the writes stop, the header is readable, and recovery gives the
    old disk or the new one. *)
Lemma crash_recover m :
  let d' := apply_writes (take m ws) d in
  (length (d' start) = Z.to_nat BSIZE /\ 0 <= head_n (d' start) /\ region start (head_blocks (d' start)) size) /\
  forall x, outside start x -> recovered start d' x = if (m <=? n)%nat then d x else replaced blocks v d x.
Proof.
  intros d'. destruct (Nat.leb_spec m n) as [Hm|Hm].
  { assert (d' start = d start) as E by (apply crash_early; auto). rewrite E. split.
    - split_and!; [done | lia |]. unfold head_blocks. rewrite Hclear. by apply region_nil in Hrg.
    - intros x Ho. rewrite recovered_cleared by (rewrite E; done). unfold d'. by rewrite crash_early by auto. }
  unfold d'. rewrite take_commit by done. rewrite apply_writes_app. fold mid.
  destruct (decide (m - S n <= n)%nat) as [Hj|Hj].
  - assert (take (m - S n) (home_of blocks v ++ [(start, header [] (header blocks (d start)))]) =
      home_of (take (m - S n) blocks) v) as ->.
    { rewrite take_app_le by (unfold home_of; rewrite length_fmap; done). apply take_home. }
    split; [|intros x Ho; by apply recover_committed]. rewrite home_start by (intros y (i & Hi & _)%elem_of_take; by eapply list_elem_of_lookup_2).
    destruct header_back as [Hn ->]. split_and!; [by rewrite header_length | lia | done].
  - rewrite take_ge by (rewrite length_app; unfold home_of; rewrite length_fmap; simpl; unfold n in *; lia).
    destruct (header_cleared (header blocks (d start))) as [Hn Hb].
    { rewrite header_length, Hlen. unfold BSIZE. lia. }
    assert (apply_writes (home_of blocks v ++ [(start, header [] (header blocks (d start)))]) mid start =
      header [] (header blocks (d start))) as E by (by rewrite apply_writes_snoc, Z.eqb_refl).
    rewrite E. split.
    + split_and!; [by rewrite !header_length | lia |]. rewrite Hb. by eapply region_nil.
    + intros x Ho. rewrite recovered_cleared by (rewrite E; done).
      rewrite apply_writes_snoc, (proj2 (Z.eqb_neq _ _)) by (unfold outside, LOGSIZE, MAXOPBLOCKS in *; lia).
      rewrite apply_home. unfold replaced. case_decide; [done|]. by apply mid_outside.
Qed.

(** The whole of [commit]'s writes. *)
Lemma commit_disk x : outside start x -> apply_writes ws d x = replaced blocks v d x.
Proof.
  intros Ho. unfold ws, commit_writes. rewrite apply_writes_app. fold mid.
  rewrite apply_writes_snoc, (proj2 (Z.eqb_neq _ _)) by (unfold outside, LOGSIZE, MAXOPBLOCKS in *; lia).
  rewrite apply_home. unfold replaced. case_decide; [done|]. by apply mid_outside.
Qed.
End crash.

Lemma recovered_ext start d d' x : (forall x, d x = d' x) -> recovered start d x = recovered start d' x.
Proof.
  intros Hd. unfold recovered, installs. rewrite Hd. rewrite (list_fmap_ext _ d' _) by done. by apply apply_writes_ext.
Qed.

(** The recovery of a disk, whatever was cached of it. *)
Lemma recover_disk start kr d :
  fresh start kr -> (forall x, disk kr x = d x) -> length (d start) = Z.to_nat BSIZE ->
  region start (head_blocks (d start)) (disksize kr) -> 0 <= head_n (d start) ->
  exists kr', recover_from_log kr = Ret tt kr' /\ head_n (disk kr' start) = 0 /\
    forall x, outside start x -> disk kr' x = recovered start d x.
Proof.
  intros Hfr Hd Hlen Hrg Hn. destruct (recover_spec start kr) as ([] & kr' & Hrun & Hl & _); rewrite ?Hd; try done.
  exists kr'. split_and!; [done | |].
  - rewrite (lo_disk _ _ _ _ Hl), apply_writes_snoc, Z.eqb_refl, Hd.
    apply (header_cleared (d start)). rewrite Hlen. unfold BSIZE. lia.
  - intros x Ho. rewrite (lo_disk _ _ _ _ Hl), apply_writes_snoc.
    rewrite (proj2 (Z.eqb_neq _ _)) by (unfold outside, LOGSIZE, MAXOPBLOCKS in *; lia). by apply recovered_ext.
Qed.
End log.

(** ** Crash safety *)

(** What [commit] does, and what the next start makes of the disk when it is
    interrupted. *)
Lemma commit_recover `{Machine} c p start blocks k :
  log_at start blocks k -> blocks <> [] -> region start blocks (disksize k) -> cache_ok c p [] k ->
  (forall x, pinned (bcache k) x <-> x ∈ blocks) ->
  length (disk k start) = Z.to_nat BSIZE -> head_n (disk k start) = 0 ->
  exists k', @commit _ memide k = Ret tt k' /\
    (lh_n (klog k') = 0 /\ (forall x, ~ pinned (bcache k') x) /\
     forall x, outside start x -> disk k' x = replaced blocks (view k) (disk k) x) /\
    forall m c' p' kr, fresh c' p' start kr -> disksize kr = disksize k ->
      (forall x, disk kr x = apply_writes (take m (drop (length (dwrites k)) (dwrites k'))) (disk k) x) ->
      exists kr', @recover_from_log _ memide kr = Ret tt kr' /\ head_n (disk kr' start) = 0 /\
        forall x, outside start x ->
          disk kr' x = if (m <=? length blocks)%nat then disk k x else replaced blocks (view k) (disk k) x.
Proof.
  intros Hla Hne Hrg Hok Hpin Hlen Hclear.
  assert (view k start = disk k start) as Hvs.
  { apply (view_disk c p); [done|]. rewrite Hpin. intros Hin%(block_outside _ _ _ _ Hrg). unfold outside, LOGSIZE, MAXOPBLOCKS in *. lia. }
  destruct (commit_spec c p start blocks k) as ([] & k' & Hrun & [_ _ Hd Hw Hp Hl _]); try done. rewrite Hvs in *.
  exists k'. split_and!; [done | by rewrite Hl | | |].
  - intros x Hx. apply Hp in Hx as [Hx%Hpin Hnot]. apply Hnot. unfold commit_writes.
    rewrite !fmap_app, home_of_fst, !elem_of_app. tauto.
  - intros x Ho. rewrite Hd. by eapply commit_disk.
  - intros m c' p' kr Hfr Hsz Hdk. rewrite Hw, drop_app_length in Hdk.
    destruct (crash_recover start blocks (disksize k) (view k) (disk k) Hrg Hlen Hclear m) as [(H1 & H2 & H3) H4].
    destruct (recover_disk c' p' start kr _ Hfr Hdk) as (kr' & Hr & Hn & Hx); try done; [by rewrite Hsz|].
    exists kr'. split_and!; [done..|]. intros x Ho. rewrite Hx by done. by apply H4.
Qed.

(** C2: [commit] of a transaction is atomic: it returns with every block of
    the transaction at home, and if the machine stops after any number [m] of
    its disk writes, the next start's [recover_from_log] returns with either
    every block of the transaction as it was before (as long as the header
    was not written) or every block as the processes saw it (from then on),
    all other blocks outside the log unchanged and the log empty. *)
Theorem commit_crash_atomic `{Machine} c p start blocks k :
  log_at start blocks k -> blocks <> [] -> region start blocks (disksize k) -> cache_ok c p [] k ->
  (forall x, pinned (bcache k) x <-> x ∈ blocks) ->
  length (disk k start) = Z.to_nat BSIZE -> head_n (disk k start) = 0 ->
  exists k', @commit _ memide k = Ret tt k' /\
    (lh_n (klog k') = 0 /\ (forall x, ~ pinned (bcache k') x) /\
     forall x, outside start x -> disk k' x = replaced blocks (view k) (disk k) x) /\
    forall m c' p' kr, fresh c' p' start kr -> disksize kr = disksize k ->
      (forall x, disk kr x = apply_writes (take m (drop (length (dwrites k)) (dwrites k'))) (disk k) x) ->
      exists kr', @recover_from_log _ memide kr = Ret tt kr' /\ head_n (disk kr' start) = 0 /\
        forall x, outside start x ->
          disk kr' x = if (m <=? length blocks)%nat then disk k x else replaced blocks (view k) (disk k) x.
Proof. apply commit_recover. Qed.

(** [log_write] of a locked buffer inside a transaction pins the block
    in the cache and adds it to the transaction, once however often it is
    written (absorption); it changes neither the disk nor what the processes
    see, and keeps the invariant of the cache. *)
Theorem log_write_absorbs `{Machine} c p held start blocks b bf k :
  cache_ok c p held k -> b ∈ held -> mine p b bf k -> log_at start blocks k -> region start blocks (disksize k) ->
  Z.of_nat (length (lh_block (klog k))) = LOGSIZE -> Z.of_nat (length blocks) < l_size (klog k) - 1 ->
  1 <= l_outstanding (klog k) ->
  exists k', log_write b k = Ret tt k' /\ cache_ok c p held k' /\
    log_at start (if decide (b_blockno bf ∈ blocks) then blocks else blocks ++ [b_blockno bf]) k' /\
    (forall x, pinned (bcache k') x <-> pinned (bcache k) x \/ x = b_blockno bf) /\
    (forall x, view k' x = view k x) /\ disk k' = disk k /\ dwrites k' = dwrites k.
Proof.
  intros Hok Hin Hm Hla Hrg Hlen Hsz Ho.
  destruct (log_write_spec c p held start blocks b bf k) as ([] & k' & Hrun & [H1 _ H2 [H3 H4] H5 _ H6 _ _ _ _]); try done.
  exists k'. by split_and!.
Qed.

(** *** On a concrete machine *)

(** The machine of [boot] with the log at block 2 and disk [d]. *)
Definition log_boot (d : Z -> list Z) (outstanding : Z) : kernel :=
  upd_disk (fun _ => d) (upd_klog (fun _ => Log 2 30 outstanding 0 ROOTDEV 0 (repeat 0 30)) (on_cpu 0 0 boot)).

Lemma log_boot_ready `{Machine} d o :
  exists k, binit (log_boot d o) = Ret tt k /\ fresh 0 0 2 k /\ disk k = d /\ dwrites k = [] /\
    disksize k = FSSIZE /\ klog k = Log 2 30 o 0 ROOTDEV 0 (repeat 0 30) /\ forall x, view k x = d x.
Proof.
  assert (quiet 0 0 (log_boot d o)) as Hq.
  { apply (quiet_unrelated 0 0 (fun k => upd_disk (fun _ => d) (upd_klog _ k))); [done | done | exact boot_quiet]. }
  destruct (binit_spec 0 0 (log_boot d o) boot_blank) as ([] & k & Hrun & HI & Hr & Hinv & Hv & Hp).
  pose proof HI as [_ _ _ [Hd Hw] [Hl _ _ _ _ Hs _ _] Hq']. assert (klog k = Log 2 30 o 0 ROOTDEV 0 (repeat 0 30)) as Hlog by exact Hl.
  exists k. split_and!; [exact Hrun | | exact Hd | exact Hw | exact Hs | exact Hlog | exact Hv].
  split; rewrite ?Hlog; [|exact Hp | reflexivity | reflexivity | reflexivity].
  split; [exact (Hq' Hq) | eexists; exact Hr | exact Hinv].
Qed.

(** A process has block 40 locked and has filled its buffer with sevens. *)
Lemma log_boot_locked `{Machine} :
  exists k b bf, cache_ok 0 0 [b] k /\ mine 0 b bf k /\ b_blockno bf = 40 /\
    (forall x, view k x = if x =? 40 then repeat 7 512 else repeat 0 512) /\
    disk k = (fun _ => repeat 0 512) /\ dwrites k = [] /\ (forall x, ~ pinned (bcache k) x) /\
    klog k = Log 2 30 1 0 ROOTDEV 0 (repeat 0 30) /\ disksize k = FSSIZE.
Proof.
  destruct (log_boot_ready (fun _ => repeat 0 512) 1) as (k0 & _ & [Hok Hnp Hdev Hst Hlb] & Hd & Hw & Hs & Hl & Hv).
  destruct (bread_spec 0 0 [] 40 k0 Hok) as (b & k1 & _ & [Hok1 _ (bf & Hm & Hn & _) Hv1 [Hd1 Hw1] Hp1 Hf1 _]).
  { rewrite Hs. unfold FSSIZE. lia. }
  { left. apply (spare_room 0 0 [] [] k0 Hok); [|simpl; unfold NBUF; lia]. intros x Hx. by apply Hnp in Hx. }
  { intros b bf []%not_elem_of_nil. }
  destruct (store_spec 0 0 [b] b bf (fun _ => repeat 7 512) k1 Hok1 ltac:(left) Hm)
    as ([] & k2 & _ & [Hok2 (bf2 & Hm2 & Hn2 & Hda2 & _) Hv2 [Hd2 Hw2] Hp2 Hf2 _]).
  exists k2, b, bf2. split_and!; [done | done | congruence | | congruence | congruence | | |].
  - intros x. by rewrite Hv2, Hn, Hv1, Hv.
  - intros x. rewrite Hp2, Hp1. apply Hnp.
  - by rewrite (fr_log _ _ _ Hf2), (fr_log _ _ _ Hf1).
  - by rewrite (fr_size _ _ _ Hf2), (fr_size _ _ _ Hf1).
Qed.

Lemma region_boot blocks :
  NoDup blocks -> (length blocks < NBUF)%nat -> Forall (fun b => 32 < b < FSSIZE) blocks -> region 2 blocks FSSIZE.
Proof.
  intros Hnd Hc Hb. split; try done. eapply Forall_impl; [|exact Hb]. unfold LOGSIZE, MAXOPBLOCKS. simpl. lia.
Qed.

Lemma region_0 : region 2 [] FSSIZE.
Proof. apply region_boot; [constructor | unfold NBUF; simpl; lia | constructor]. Qed.

Lemma region_40 : region 2 [40] FSSIZE.
Proof. apply region_boot; [apply NoDup_singleton | unfold NBUF; simpl; lia | by constructor]. Qed.

(** A kernel about to commit one block: block 40 is all sevens in the cache
    and all zeros on the disk. *)
Lemma log_boot_dirty `{Machine} :
  exists k, log_at 2 [40] k /\ region 2 [40] (disksize k) /\ cache_ok 0 0 [] k /\
    (forall x, pinned (bcache k) x <-> x ∈ [40]) /\ disk k = (fun _ => repeat 0 512) /\ dwrites k = [] /\
    view k 40 = repeat 7 512 /\ disksize k = FSSIZE.
Proof.
  destruct log_boot_locked as (k2 & b & bf2 & Hok2 & Hm2 & Hn & Hv2 & Hd2 & Hw2 & Hp2 & Hl2 & Hs2).
  destruct (log_write_spec 0 0 [b] 2 [] b bf2 k2 Hok2 ltac:(left) Hm2)
    as ([] & k3 & _ & [Hok3 (bf3 & Hm3 & Hn3 & _ & Hfl3) Hv3 [Hd3 Hw3] Hp3 _ Hla3 Hs3]);
    [by split; rewrite Hl2 | rewrite Hs2; apply region_0 | by rewrite Hl2..|].
  destruct (brelse_spec 0 0 [] b bf3 k3 Hok3 Hm3 (or_introl Hfl3)) as ([] & k4 & _ & [Hok4 Hv4 [Hd4 Hw4] Hp4 Hf4 _]).
  rewrite Hn in *. exists k4. split_and!.
  - by eapply log_at_frame.
  - rewrite (fr_size _ _ _ Hf4), Hs3, Hs2. apply region_40.
  - done.
  - intros x. rewrite Hp4, Hp3, list_elem_of_singleton. split; [|by right]. intros [Hx|Hx]; [by apply Hp2 in Hx | done].
  - congruence.
  - congruence.
  - by rewrite Hv4, Hv3, Hv2.
  - by rewrite (fr_size _ _ _ Hf4), Hs3, Hs2.
Qed.

Lemma commit_crash_atomic_witness :
  let _ := alone LOTTERY in
  exists k k', @commit _ memide k = Ret tt k' /\
    forall m, exists kr kr', (forall x, disk kr x = apply_writes (take m (dwrites k')) (disk k) x) /\
      @recover_from_log _ memide kr = Ret tt kr' /\
      disk kr' 40 = if (m <=? 1)%nat then repeat 0 512 else repeat 7 512.
Proof.
  intros M. destruct (@log_boot_dirty M) as (k & Hla & Hrg & Hok & Hp & Hd & Hw & Hv & Hs).
  destruct (commit_crash_atomic 0 0 2 [40] k Hla ltac:(done) Hrg Hok Hp) as (k' & Hrun & _ & Hcrash);
    [by rewrite Hd | by rewrite Hd |].
  rewrite Hw in Hcrash. simpl drop in Hcrash. exists k, k'. split; [done|]. intros m.
  destruct (@log_boot_ready M (apply_writes (take m (dwrites k')) (disk k)) 0) as (kr & _ & Hfr & Hdk & _ & Hsz & _).
  destruct (Hcrash m 0%nat 0%nat kr Hfr) as (kr' & Hr & _ & Hx); [by rewrite Hs | by rewrite Hdk|].
  exists kr, kr'. split_and!; [by rewrite Hdk | done |].
  rewrite Hx by (right; unfold LOGSIZE, MAXOPBLOCKS; lia). rewrite Hd. unfold replaced. rewrite decide_True by left.
  by rewrite Hv.
Defined.

Lemma log_write_absorbs_witness :
  let _ := alone LOTTERY in
  exists k k1 k2 b, log_write b k = Ret tt k1 /\ log_at 2 [40] k1 /\
    log_write b k1 = Ret tt k2 /\ log_at 2 [40] k2.
Proof.
  intros M. destruct (@log_boot_locked M) as (k & b & bf & Hok & Hm & Hn & Hv & Hd & Hw & Hp & Hl & Hs).
  destruct (log_write_absorbs 0 0 [b] 2 [] b bf k Hok ltac:(left) Hm) as (k1 & Hrun1 & Hok1 & Hla1 & _);
    [by split; rewrite Hl | rewrite Hs; apply region_0 | by rewrite Hl..|].
  destruct (log_write_spec 0 0 [b] 2 [] b bf k Hok ltac:(left) Hm) as ([] & k1' & Hrun1' & Hpost);
    [by split; rewrite Hl | rewrite Hs; apply region_0 | by rewrite Hl..|].
  assert (k1' = k1) as -> by congruence. destruct Hpost as [_ (bf1 & Hm1 & Hn1 & _) _ _ _ Hl1 _ Hs1].
  assert (klog k1 = Log 2 30 1 0 ROOTDEV 1 (40 :: repeat 0 29)) as Hk1 by (by rewrite Hl1, Hl, Hn).
  rewrite Hn in Hla1, Hn1. rewrite decide_False in Hla1 by apply not_elem_of_nil.
  destruct (log_write_absorbs 0 0 [b] 2 [40] b bf1 k1 Hok1 ltac:(left) Hm1) as (k2 & Hrun2 & _ & Hla2 & _);
    [done | rewrite Hs1, Hs; apply region_40 | by rewrite Hk1..|].
  rewrite Hn1, decide_True in Hla2 by left. by exists k, k1, k2, b.
Defined.
