(* ===== verification/Fs.v ===== *)
(** fs.c: the file system above the log: the block allocator, inodes and
    their cache, file contents, directories and path names.

    A pointer to an inode is a slot of the inode cache, or null.  A buffer the
    caller passes to be filled is returned as a list of bytes, one it passes to
    be read is given as a list; a string is the list of its characters without
    the nul. *)

From S2P Require Import Prelude Memory KString Kernel Spinlock Cprintf Proc Sleeplock Bio Log.

(** ** fs.h, stat.h *)

Definition ROOTINO : Z := 1.
Definition NDIRECT : Z := 12.
Definition NINDIRECT : Z := BSIZE / 4.
Definition MAXFILE : Z := NDIRECT + NINDIRECT.
Definition IPB : Z := BSIZE / 64.
Definition IBLOCK (i : Z) (s : superblock) : Z := u32 (i / IPB + sb_inodestart s).
Definition BPB : Z := BSIZE * 8.
Definition BBLOCK (b : Z) (s : superblock) : Z := u32 (b / BPB + sb_bmapstart s).
Definition DIRSIZ : Z := 14.
Definition sizeof_dirent : Z := 16.
Definition T_DIR : Z := 1.
Definition T_FILE : Z := 2.
Definition T_DEV : Z := 3.

(** ** Bytes of a block *)

Definition byte_at (l : list Z) (i : nat) : Z := nth i l 0.
Definition short_at (l : list Z) (i : nat) : Z := s16 (byte_at l i + 2 ^ 8 * byte_at l (i + 1)).
Definition put_short (i : nat) (v : Z) (l : list Z) : list Z :=
  <[(i + 1)%nat := u8 (v / 2 ^ 8)]> (<[i := u8 v]> l).

(** [memmove(d + i, l, n)] inside a block. *)
Definition splice (i : nat) (l d : list Z) : list Z :=
  take i d ++ l ++ drop (i + length l) d.

(** The fields of the on-disk inode at byte [o] of a block ([struct dinode]). *)
Definition dinode_off (inum : Z) : nat := 64 * Z.to_nat (inum mod IPB).
Definition din_type (d : list Z) (o : nat) : Z := short_at d o.
Definition din_addrs (d : list Z) (o : nat) : list Z :=
  (fun i => word_at d (o + 12 + 4 * i)) <$> seq 0 13.

Fixpoint put_words (i : nat) (ws : list Z) (l : list Z) : list Z :=
  match ws with
  | [] => l
  | w :: ws => put_words (i + 4) ws (put_word i w l)
  end.

(** *** struct inode and dinode copied into each other *)

Definition read_dinode (d : list Z) (o : nat) (ip : inode) : inode :=
  {| i_dev := i_dev ip; i_inum := i_inum ip; i_ref := i_ref ip; i_valid := i_valid ip;
     i_type := din_type d o; i_major := short_at d (o + 2); i_minor := short_at d (o + 4);
     i_nlink := short_at d (o + 6); i_size := word_at d (o + 8); i_addrs := din_addrs d o |}.

Definition write_dinode (ip : inode) (o : nat) (d : list Z) : list Z :=
  put_words (o + 12) (i_addrs ip)
    (put_word (o + 8) (i_size ip)
      (put_short (o + 6) (i_nlink ip) (put_short (o + 4) (i_minor ip)
        (put_short (o + 2) (i_major ip) (put_short o (i_type ip) d))))).

(** ** The device switch

    [devsw] holds, per major number, the driver whose functions read and write
    call; the drivers are in other files. *)
Class DevOps := {
  dev_read : devid -> option nat -> Z -> M (Z * list Z);
  dev_write : devid -> option nat -> list Z -> Z -> M Z;
}.

(** Access through a pointer to an inode. *)
Definition deref {A} (p : option A) : M A :=
  match p with
  | Some i => ret i
  | None => fault "null pointer"
  end.
Definition get_inode (ip : option nat) : M inode :=
  let* i := deref ip in slot "icache.inode" icache i.
Definition set_inode (ip : option nat) (f : inode -> inode) : M unit :=
  let* i := deref ip in put_slot "icache.inode" icache upd_icache i f.

Section fs.
Context `{Machine} `{BlockDriver} `{DevOps}.

(** ** Blocks *)

Definition bzero (dev bno : Z) : M unit :=
  let* bp := bread dev bno in
  set_buf bp (upd_b_data (fun d => repeat 0 (Z.to_nat BSIZE))) ;;
  log_write bp ;;
  brelse bp.

Definition bit_set (d : list Z) (bi : Z) : bool :=
  truthy (Z.land (byte_at d (Z.to_nat (bi / 8))) (Z.shiftl 1 (bi mod 8))).
Definition set_bit (bi : Z) (d : list Z) : list Z :=
  alter (fun x => Z.lor x (Z.shiftl 1 (bi mod 8))) (Z.to_nat (bi / 8)) d.
Definition clear_bit (bi : Z) (d : list Z) : list Z :=
  alter (fun x => Z.land x (Z.lnot (Z.shiftl 1 (bi mod 8)))) (Z.to_nat (bi / 8)) d.

Definition balloc (dev : Z) : M Z :=
  let* s := gets sb in
  iter (S (S (Z.to_nat (sb_size s / BPB)))) (fun b =>
    let* s := gets sb in
    if b <? sb_size s then
      let* bp := bread dev (BBLOCK b s) in
      let* r := for_find (seqZ 0 BPB) (fun bi =>
        if negb (b + bi <? sb_size s) then ret None else
        let* bf := get_buf bp in
        if negb (bit_set (b_data bf) bi) then
          set_buf bp (upd_b_data (set_bit bi)) ;;
          log_write bp ;;
          brelse bp ;;
          bzero dev (b + bi) ;;
          ret (Some (b + bi))
        else ret None) in
      match r with
      | Some a => ret (inr a)
      | None => brelse bp ;; ret (inl (b + BPB))
      end
    else panic "balloc: out of blocks") 0.

Definition bfree (dev b : Z) : M unit :=
  let* s := gets sb in
  let* bp := bread dev (BBLOCK b s) in
  let bi := b mod BPB in
  let* bf := get_buf bp in
  if negb (bit_set (b_data bf) bi) then panic "freeing free block" else
  set_buf bp (upd_b_data (clear_bit bi)) ;;
  log_write bp ;;
  brelse bp.

(** ** Inodes *)

Definition iinit (dev : Z) : M unit :=
  initlock L_icache "icache" ;;
  for_each (seq 0 NINODE) (fun i => initsleeplock (SLinode i) "inode") ;;
  let* s := readsb dev in
  modify (upd_sb (fun _ => s)) ;;
  cprintf (chars "sb: size %d nblocks %d ninodes %d nlog %d logstart %d inodestart %d bmap start %d" ++ [10])
    [AInt (sb_size s); AInt (sb_nblocks s); AInt (sb_ninodes s); AInt (sb_nlog s);
     AInt (sb_logstart s); AInt (sb_inodestart s); AInt (sb_bmapstart s)].

Definition iget (dev inum : Z) : M (option nat) :=
  acquire L_icache ;;
  let* r := for_return (seq 0 NINODE) (fun i empty =>
    let* ip := slot "icache.inode" icache i in
    if (0 <? i_ref ip) && (i_dev ip =? dev) && (i_inum ip =? inum) then
      set_inode (Some i) (upd_i_ref (fun n => n + 1)) ;;
      release L_icache ;;
      ret (inr i)
    else
      ret (inl (match empty with
                | None => if i_ref ip =? 0 then Some i else None
                | Some _ => empty
                end))) None in
  match r with
  | inr i => ret (Some i)
  | inl None => panic "iget: no inodes"
  | inl (Some i) =>
      set_inode (Some i) (upd_i_dev (fun _ => dev)) ;;
      set_inode (Some i) (upd_i_inum (fun _ => inum)) ;;
      set_inode (Some i) (upd_i_ref (fun _ => 1)) ;;
      set_inode (Some i) (upd_i_valid (fun _ => 0)) ;;
      release L_icache ;;
      ret (Some i)
  end.

Definition idup (ip : option nat) : M (option nat) :=
  acquire L_icache ;;
  set_inode ip (upd_i_ref (fun n => n + 1)) ;;
  release L_icache ;;
  ret ip.

Definition ialloc (dev type : Z) : M (option nat) :=
  let* s := gets sb in
  let* r := for_find (seqZ 1 (sb_ninodes s - 1)) (fun inum =>
    let* s := gets sb in
    let* bp := bread dev (IBLOCK inum s) in
    let o := dinode_off inum in
    let* bf := get_buf bp in
    if din_type (b_data bf) o =? 0 then
      set_buf bp (upd_b_data (fun d => put_short o type (splice o (repeat 0 64) d))) ;;
      log_write bp ;;
      brelse bp ;;
      let* ip := iget dev inum in
      ret (Some ip)
    else brelse bp ;; ret None) in
  match r with
  | Some ip => ret ip
  | None => panic "ialloc: no inodes"
  end.

Definition iupdate (ip : option nat) : M unit :=
  let* i := get_inode ip in
  let* s := gets sb in
  let* bp := bread (i_dev i) (IBLOCK (i_inum i) s) in
  let* i := get_inode ip in
  set_buf bp (upd_b_data (write_dinode i (dinode_off (i_inum i)))) ;;
  log_write bp ;;
  brelse bp.

Definition ilock (ip : option nat) : M unit :=
  match ip with
  | None => panic "ilock"
  | Some n =>
      let* i := get_inode ip in
      if i_ref i <? 1 then panic "ilock" else
      acquiresleep (SLinode n) ;;
      let* i := get_inode ip in
      when (i_valid i =? 0) (
        let* s := gets sb in
        let* bp := bread (i_dev i) (IBLOCK (i_inum i) s) in
        let* bf := get_buf bp in
        set_inode ip (fun i => read_dinode (b_data bf) (dinode_off (i_inum i)) i) ;;
        brelse bp ;;
        set_inode ip (upd_i_valid (fun _ => 1)) ;;
        let* i := get_inode ip in
        when (i_type i =? 0) (panic "ilock: no type"))
  end.

Definition iunlock (ip : option nat) : M unit :=
  match ip with
  | None => panic "iunlock"
  | Some n =>
      let* h := holdingsleep (SLinode n) in
      if negb h then panic "iunlock" else
      let* i := get_inode ip in
      if i_ref i <? 1 then panic "iunlock" else
      releasesleep (SLinode n)
  end.

(** ** File contents *)

Definition get_addr (ip : option nat) (i : Z) : M Z :=
  let* n := get_inode ip in
  elem_at "ip->addrs" (i_addrs n) i.
Definition set_addr (ip : option nat) (i v : Z) : M unit :=
  let* n := get_inode ip in
  in_array "ip->addrs" (i_addrs n) i ;;
  set_inode ip (upd_i_addrs (fun l => <[Z.to_nat i := v]> l)).

Definition bmap (ip : option nat) (bn : Z) : M Z :=
  let* i := get_inode ip in
  if bn <? NDIRECT then
    let* addr := get_addr ip bn in
    if addr =? 0 then
      let* addr := balloc (i_dev i) in
      set_addr ip bn addr ;;
      ret addr
    else ret addr
  else
  let bn := bn - NDIRECT in
  if bn <? NINDIRECT then
    let* addr := get_addr ip NDIRECT in
    let* addr := (if addr =? 0 then
                    let* addr := balloc (i_dev i) in
                    set_addr ip NDIRECT addr ;;
                    ret addr
                  else ret addr) in
    let* bp := bread (i_dev i) addr in
    let* bf := get_buf bp in
    let addr := word_at (b_data bf) (4 * Z.to_nat bn) in
    let* addr := (if addr =? 0 then
                    let* addr := balloc (i_dev i) in
                    set_buf bp (upd_b_data (put_word (4 * Z.to_nat bn) addr)) ;;
                    log_write bp ;;
                    ret addr
                  else ret addr) in
    brelse bp ;;
    ret addr
  else panic "bmap: out of range".

Definition itrunc (ip : option nat) : M unit :=
  let* i := get_inode ip in
  for_each (seqZ 0 NDIRECT) (fun j =>
    let* a := get_addr ip j in
    when (truthy a) (bfree (i_dev i) a ;; set_addr ip j 0)) ;;
  let* a := get_addr ip NDIRECT in
  when (truthy a) (
    let* bp := bread (i_dev i) a in
    for_each (seqZ 0 NINDIRECT) (fun j =>
      let* bf := get_buf bp in
      let a := word_at (b_data bf) (4 * Z.to_nat j) in
      when (truthy a) (bfree (i_dev i) a)) ;;
    brelse bp ;;
    let* a := get_addr ip NDIRECT in
    bfree (i_dev i) a ;;
    set_addr ip NDIRECT 0) ;;
  set_inode ip (upd_i_size (fun _ => 0)) ;;
  iupdate ip.

Definition iput (ip : option nat) : M unit :=
  let* n := deref ip in
  acquiresleep (SLinode n) ;;
  let* i := get_inode ip in
  when (truthy (i_valid i) && (i_nlink i =? 0)) (
    acquire L_icache ;;
    let* i := get_inode ip in
    let r := i_ref i in
    release L_icache ;;
    when (r =? 1) (
      itrunc ip ;;
      set_inode ip (upd_i_type (fun _ => 0)) ;;
      iupdate ip ;;
      set_inode ip (upd_i_valid (fun _ => 0)))) ;;
  releasesleep (SLinode n) ;;
  acquire L_icache ;;
  set_inode ip (upd_i_ref (fun n => n - 1)) ;;
  release L_icache.

Definition iunlockput (ip : option nat) : M unit :=
  iunlock ip ;;
  iput ip.

(** The fields [stati] fills in. *)
Record stat := Stat { st_type : Z; st_dev : Z; st_ino : Z; st_nlink : Z; st_size : Z }.

Definition stati (ip : option nat) : M stat :=
  let* i := get_inode ip in
  ret (Stat (i_type i) (s32 (i_dev i)) (i_inum i) (i_nlink i) (i_size i)).

(** The driver of a device inode, if its major number has one. *)
Definition driver (major : Z) : M (option devid) :=
  if (major <? 0) || (Z.of_nat NDEV <=? major) then ret None else
  let* d := slot "devsw" devsw (Z.to_nat major) in
  ret d.

(** The iterations of the loops that move [n] bytes block by block. *)
Definition chunks (n : Z) : nat := S (S (S (Z.to_nat (n / BSIZE)))).

Definition readi (ip : option nat) (off n : Z) : M (Z * list Z) :=
  let* i := get_inode ip in
  if i_type i =? T_DEV then
    let* d := driver (i_major i) in
    match d with
    | None => ret (-1, [])
    | Some d => dev_read d ip (s32 n)
    end
  else
  if (i_size i <? off) || (u32 (off + n) <? off) then ret (-1, []) else
  let n := if i_size i <? u32 (off + n) then u32 (i_size i - off) else n in
  iter (chunks n) (fun '(tot, off, acc) =>
    if tot <? n then
      let* a := bmap ip (off / BSIZE) in
      let* i := get_inode ip in
      let* bp := bread (i_dev i) a in
      let m := Z.min (n - tot) (BSIZE - off mod BSIZE) in
      let* bf := get_buf bp in
      let bytes := take (Z.to_nat m) (drop (Z.to_nat (off mod BSIZE)) (b_data bf)) in
      brelse bp ;;
      ret (inl (tot + m, off + m, acc ++ bytes))
    else ret (inr (s32 n, acc))) (0, off, []).

Definition writei (ip : option nat) (src : list Z) (off n : Z) : M Z :=
  let* i := get_inode ip in
  if i_type i =? T_DEV then
    let* d := driver (i_major i) in
    match d with
    | None => ret (-1)
    | Some d => dev_write d ip src (s32 n)
    end
  else
  if (i_size i <? off) || (u32 (off + n) <? off) then ret (-1) else
  if MAXFILE * BSIZE <? u32 (off + n) then ret (-1) else
  let* off := iter (chunks n) (fun '(tot, off) =>
    if tot <? n then
      let* a := bmap ip (off / BSIZE) in
      let* i := get_inode ip in
      let* bp := bread (i_dev i) a in
      let m := Z.min (n - tot) (BSIZE - off mod BSIZE) in
      set_buf bp (upd_b_data (splice (Z.to_nat (off mod BSIZE))
                                (take (Z.to_nat m) (drop (Z.to_nat tot) src)))) ;;
      log_write bp ;;
      brelse bp ;;
      ret (inl (tot + m, off + m))
    else ret (inr off)) (0, off) in
  let* i := get_inode ip in
  when ((0 <? n) && (i_size i <? off)) (
    set_inode ip (upd_i_size (fun _ => off)) ;;
    iupdate ip) ;;
  ret (s32 n).

(** ** Directories *)

Definition namecmp (s t : list Z) : Z := strncmp_l s t (Z.to_nat DIRSIZ).

(** A directory entry: its inode number and its name, 14 bytes. *)
Definition de_inum (de : list Z) : Z := byte_at de 0 + 2 ^ 8 * byte_at de 1.
Definition de_name (de : list Z) : list Z := drop 2 de.
Definition dirent (inum : Z) (nm : list Z) : list Z := put_short 0 inum [0; 0] ++ nm.

(** The loop over the entries of a directory, at offsets 0, 16, ...; [body]
    may leave it with a result. *)
Definition for_dirents {B} (dp : option nat) (what : string) (start : Z)
    (body : Z -> list Z -> M (option B)) : M (Z + B) :=
  let* i := get_inode dp in
  iter (S (S (Z.to_nat (i_size i / sizeof_dirent)))) (fun off =>
    let* i := get_inode dp in
    if off <? i_size i then
      let* ' (r, de) := readi dp off sizeof_dirent in
      if negb (r =? sizeof_dirent) then panic what else
      let* b := body off de in
      match b with
      | Some b => ret (inr (inr b))
      | None => ret (inl (u32 (off + sizeof_dirent)))
      end
    else ret (inr (inl off))) start.

Definition dirlookup (dp : option nat) (nm : list Z) : M (option (nat * Z)) :=
  let* i := get_inode dp in
  if negb (i_type i =? T_DIR) then panic "dirlookup not DIR" else
  let* r := for_dirents dp "dirlookup read" 0 (fun off de =>
    if de_inum de =? 0 then ret None else
    if namecmp nm (de_name de) =? 0 then
      let* i := get_inode dp in
      let* ip := iget (i_dev i) (de_inum de) in
      ret (Some (ip, off))
    else ret None) in
  match r with
  | inr (Some ip, off) => ret (Some (ip, off))
  | _ => ret None
  end.

Definition dirlink (dp : option nat) (nm : list Z) (inum : Z) : M Z :=
  let* r := dirlookup dp nm in
  match r with
  | Some (ip, _) => iput (Some ip) ;; ret (-1)
  | None =>
      let* r := for_dirents dp "dirlink read" 0 (fun off de =>
        ret (if de_inum de =? 0 then Some off else None)) in
      let off := match r with inl off => off | inr off => off end in
      let de := dirent inum (strncpy_l (repeat 0 14) nm DIRSIZ) in
      let* r := writei dp de off sizeof_dirent in
      if negb (r =? sizeof_dirent) then panic "dirlink" else
      ret 0
  end.

(** ** Paths *)

Definition SLASH : Z := 47.

Fixpoint skip_slashes (path : list Z) : list Z :=
  match path with
  | c :: rest => if c =? SLASH then skip_slashes rest else path
  | [] => []
  end.

Fixpoint span_elem (path : list Z) : list Z * list Z :=
  match path with
  | c :: rest =>
      if c =? SLASH then ([], path)
      else let '(s, r) := span_elem rest in (c :: s, r)
  | [] => ([], [])
  end.

(** The name is cut at [DIRSIZ] bytes; a shorter one ends with a nul. *)
Definition skipelem (path : list Z) : option (list Z * list Z) :=
  match skip_slashes path with
  | [] => None
  | path =>
      let '(s, rest) := span_elem path in
      Some (take (Z.to_nat DIRSIZ) s, skip_slashes rest)
  end.

(** Each round takes one element at least off the path. *)
Definition namex (path : list Z) (nameiparent : bool) : M (option (nat * list Z)) :=
  let* ip := (match path with
              | c :: _ => if c =? SLASH then iget ROOTDEV ROOTINO
                          else let* p := curproc in let* pr := get_proc p in idup (cwd pr)
              | [] => let* p := curproc in let* pr := get_proc p in idup (cwd pr)
              end) in
  iter (S (length path)) (fun '(ip, path, nm) =>
    match skipelem path with
    | None =>
        if nameiparent then iput ip ;; ret (inr None)
        else let* n := deref ip in ret (inr (Some (n, nm)))
    | Some (nm, path) =>
        ilock ip ;;
        let* i := get_inode ip in
        if negb (i_type i =? T_DIR) then iunlockput ip ;; ret (inr None) else
        if nameiparent && bool_decide (path = []) then
          iunlock ip ;;
          let* n := deref ip in
          ret (inr (Some (n, nm)))
        else
        let* next := dirlookup ip nm in
        match next with
        | None => iunlockput ip ;; ret (inr None)
        | Some (next, _) => iunlockput ip ;; ret (inl (Some next, path, nm))
        end
    end) (ip, path, []).

Definition namei (path : list Z) : M (option nat) :=
  let* r := namex path false in ret (fst <$> r).

Definition nameiparent (path : list Z) : M (option (nat * list Z)) := namex path true.
End fs.

(** ** Fields of a block *)

Lemma splice_len i l d : (i + length l <= length d)%nat -> length (splice i l d) = length d.
Proof. intros Hi. unfold splice. rewrite !length_app, length_take, length_drop. lia. Qed.

Lemma put_short_length i v l : length (put_short i v l) = length l.
Proof. unfold put_short. by rewrite !length_insert. Qed.

Lemma put_words_length i ws l : length (put_words i ws l) = length l.
Proof. revert i l. induction ws as [|w ws IH]; intros; simpl; [done|]. by rewrite IH, put_word_length. Qed.

Lemma byte_at_insert i j v l : (j < length l)%nat -> byte_at (<[i := v]> l) j = if decide (i = j) then v else byte_at l j.
Proof.
  intros Hj. unfold byte_at. rewrite !nth_lookup. case_decide as E; [subst; by rewrite list_lookup_insert_eq|].
  by rewrite list_lookup_insert_ne.
Qed.

Lemma short_at_put i v l : (i + 1 < length l)%nat -> short_at (put_short i v l) i = s16 v.
Proof.
  intros Hi. unfold short_at, put_short. rewrite !byte_at_insert by (rewrite ?length_insert; lia).
  repeat case_decide; try lia. unfold s16, u8. Z.div_mod_to_equations. lia.
Qed.

Lemma short_at_put_ne i j v l : (j + 2 <= i \/ i + 2 <= j)%nat -> short_at (put_short i v l) j = short_at l j.
Proof.
  intros Hij. unfold short_at, put_short, byte_at. rewrite !nth_lookup.
  by rewrite !list_lookup_insert_ne by lia.
Qed.

Lemma word_at_short_ne i j v l : (j + 4 <= i \/ i + 2 <= j)%nat -> word_at (put_short i v l) j = word_at l j.
Proof. intros Hij. unfold word_at, put_short. by rewrite !list_lookup_insert_ne by lia. Qed.

Lemma short_at_word_ne i j v l : (j + 2 <= i \/ i + 4 <= j)%nat -> short_at (put_word i v l) j = short_at l j.
Proof.
  intros Hij. unfold short_at, put_word, byte_at. rewrite !nth_lookup.
  by rewrite !list_lookup_insert_ne by lia.
Qed.

Lemma short_at_words_ne i j ws l :
  (j + 2 <= i \/ i + 4 * length ws <= j)%nat -> short_at (put_words i ws l) j = short_at l j.
Proof.
  revert i l. induction ws as [|w ws IH]; intros i l Hij; simpl in *; [done|].
  by rewrite IH, short_at_word_ne by lia.
Qed.

Lemma word_at_words_ne i j ws l :
  (j + 4 <= i \/ i + 4 * length ws <= j)%nat -> word_at (put_words i ws l) j = word_at l j.
Proof.
  revert i l. induction ws as [|w ws IH]; intros i l Hij; simpl in *; [done|].
  by rewrite IH, word_at_put_ne by lia.
Qed.

Lemma word_at_words i k ws l w :
  ws !! k = Some w -> (i + 4 * length ws <= length l)%nat -> word_at (put_words i ws l) (i + 4 * k) = u32 w.
Proof.
  revert i k l. induction ws as [|w' ws IH]; intros i k l Hk Hl; [done|]. cbn [length put_words] in Hl |- *.
  destruct k as [|k].
  - injection Hk as ->. rewrite word_at_words_ne by lia. rewrite Nat.mul_0_r, Nat.add_0_r. apply word_at_put. lia.
  - replace (i + 4 * S k)%nat with (i + 4 + 4 * k)%nat by lia. apply IH; [done|]. rewrite put_word_length. lia.
Qed.

Lemma dinode_off_range inum : (dinode_off inum + 64 <= 512)%nat.
Proof. unfold dinode_off. change IPB with 8. pose proof (Z.mod_pos_bound inum 8 ltac:(lia)). lia. Qed.

(** What [iupdate] writes is what [ilock] reads. *)
Record dinode_fits (ip : inode) : Prop := {
  df_shorts : Forall (fun x => - 2 ^ 15 <= x < 2 ^ 15) [i_type ip; i_major ip; i_minor ip; i_nlink ip];
  df_words : Forall (fun x => 0 <= x < 2 ^ 32) (i_size ip :: i_addrs ip);
  df_addrs : length (i_addrs ip) = 13%nat;
}.

Lemma s16_small x : - 2 ^ 15 <= x < 2 ^ 15 -> s16 x = x.
Proof. intros Hx. unfold s16. Z.div_mod_to_equations. lia. Qed.

Lemma din_addrs_words ws o d :
  length ws = 13%nat -> Forall (fun x => 0 <= x < 2 ^ 32) ws -> (o + 64 <= length d)%nat ->
  din_addrs (put_words (o + 12) ws d) o = ws.
Proof.
  intros Hl Hw Ho. unfold din_addrs. apply list_eq. intros j. rewrite list_lookup_fmap.
  destruct (decide (j < 13)%nat) as [Hj|Hj].
  - rewrite lookup_seq_lt by done. cbn [fmap option_fmap option_map]. destruct (lookup_lt_is_Some_2 ws j) as [a Ha]; [lia|].
    rewrite Ha. f_equal. rewrite (word_at_words _ j _ _ a Ha) by lia. apply u32_small. exact (Forall_lookup_1 _ _ _ _ Hw Ha).
  - rewrite lookup_seq_ge by lia. symmetry. apply lookup_ge_None_2. lia.
Qed.

Lemma read_write_dinode ip o d : dinode_fits ip -> (o + 64 <= length d)%nat -> read_dinode (write_dinode ip o d) o ip = ip.
Proof.
  intros [Hs Hw Hl] Ho. rewrite !list.Forall_cons in Hs. destruct Hs as (H1 & H2 & H3 & H4 & _).
  apply list.Forall_cons in Hw as [H5 Hw]. unfold read_dinode, write_dinode, din_type.
  rewrite din_addrs_words by (rewrite ?put_word_length, ?put_short_length; done).
  rewrite !short_at_words_ne, !short_at_word_ne by lia.
  rewrite (short_at_put_ne _ o), (short_at_put_ne _ o), (short_at_put_ne _ o), short_at_put by (rewrite ?put_short_length; lia).
  rewrite (short_at_put_ne _ (o + 2)), (short_at_put_ne _ (o + 2)), short_at_put by (rewrite ?put_short_length; lia).
  rewrite (short_at_put_ne _ (o + 4)), short_at_put by (rewrite ?put_short_length; lia).
  rewrite short_at_put by (rewrite ?put_short_length; lia).
  rewrite word_at_words_ne, word_at_put by (rewrite ?put_short_length; lia).
  rewrite !s16_small, u32_small by done. by destruct ip.
Qed.
