(* ===== verification/Volume.v ===== *)
(** fs.c: the volume as the blocks show it.  The bitmap, the blocks of a file,
    its bytes, and what allocating, freeing and writing a block changes of
    them; the blocks an operation may add to the log.  These are the data
    that the operations of [Content] are specified with. *)

From S2P Require Import Prelude Ring Memory KString Kernel Spinlock Boot Proc Sleeplock Bio Cache Log Crash Fs.

(** ** The blocks of the volume and of a file *)

(** The first block of the data area: the bitmap is what lies before it. *)
Definition data_start (s : superblock) : Z := sb_bmapstart s + sb_size s / BPB + 1.

(** The bit of block [x] in the bitmap. *)
Definition used (s : superblock) (v : Z -> list Z) (x : Z) : bool := bit_set (v (BBLOCK x s)) (x mod BPB).

(** The volume: log, inodes, bitmap and data in this order, everything before
    the data in use. *)
Record volume (s : superblock) (start size : Z) (v : Z -> list Z) : Prop := {
  vo_start : 0 <= start;
  vo_log : start + LOGSIZE <= sb_inodestart s;
  vo_inodes : sb_inodestart s <= sb_bmapstart s;
  vo_data : data_start s <= sb_size s;
  vo_size : sb_size s <= size < 2 ^ 31;
  vo_len : forall x, 0 <= x < size -> length (v x) = Z.to_nat BSIZE;
  vo_meta : forall x, 0 <= x < data_start s -> used s v x = true;
}.

Definition addr (i : inode) (j : Z) : Z := nth (Z.to_nat j) (i_addrs i) 0.

(** The block that holds bytes [bn * BSIZE] and up of a file, 0 if none does. *)
Definition blk_of (v : Z -> list Z) (i : inode) (bn : Z) : Z :=
  if bn <? NDIRECT then addr i bn else
  if addr i NDIRECT =? 0 then 0 else word_at (v (addr i NDIRECT)) (4 * Z.to_nat (bn - NDIRECT)).

Definition owned (s : superblock) (v : Z -> list Z) (x : Z) : Prop :=
  data_start s <= x < sb_size s /\ used s v x = true.

(** The blocks of a file are in use and different from each other. *)
Record file_ok (s : superblock) (v : Z -> list Z) (i : inode) : Prop := {
  fi_addrs : length (i_addrs i) = 13%nat;
  fi_ind : addr i NDIRECT <> 0 -> owned s v (addr i NDIRECT);
  fi_blk : forall bn, 0 <= bn < MAXFILE -> blk_of v i bn <> 0 ->
    owned s v (blk_of v i bn) /\ blk_of v i bn <> addr i NDIRECT;
  fi_inj : forall bn bn', 0 <= bn < MAXFILE -> 0 <= bn' < MAXFILE -> blk_of v i bn <> 0 ->
    blk_of v i bn = blk_of v i bn' -> bn = bn';
}.

(** The bytes of a file; a byte of a block that is not there is 0. *)
Definition file_byte (v : Z -> list Z) (i : inode) (x : Z) : Z :=
  if blk_of v i (x / BSIZE) =? 0 then 0 else nth (Z.to_nat (x mod BSIZE)) (v (blk_of v i (x / BSIZE))) 0.
Definition file_bytes (v : Z -> list Z) (i : inode) (off n : Z) : list Z := file_byte v i <$> seqZ off n.

(** Every byte of the file has its block. *)
Definition full (v : Z -> list Z) (i : inode) : Prop :=
  i_size i <= MAXFILE * BSIZE /\ forall bn, 0 <= bn -> bn * BSIZE < i_size i -> blk_of v i bn <> 0.

Lemma blk_of_ext v v' i bn : (forall x, v' x = v x) -> blk_of v' i bn = blk_of v i bn.
Proof. intros Hv. unfold blk_of. by rewrite Hv. Qed.

Lemma file_byte_ext v v' i x : (forall x, v' x = v x) -> file_byte v' i x = file_byte v i x.
Proof. intros Hv. unfold file_byte. by rewrite (blk_of_ext v v'), Hv. Qed.

Lemma used_ext s v v' x : (forall x, v' x = v x) -> used s v' x = used s v x.
Proof. intros Hv. unfold used. by rewrite Hv. Qed.

Lemma volume_ext s start size v v' : (forall x, v' x = v x) -> volume s start size v -> volume s start size v'.
Proof.
  intros Hv []. split; try done; intros x Hx; rewrite ?Hv, ?(used_ext s v v'); auto.
Qed.

Lemma file_ok_ext s v v' i : (forall x, v' x = v x) -> file_ok s v i -> file_ok s v' i.
Proof.
  intros Hv [H1 H2 H3 H4]. split; unfold owned in *; intros; rewrite ?(used_ext s v v') in *;
    rewrite ?(blk_of_ext v v') in * by done; auto.
Qed.

Lemma full_ext v v' i : (forall x, v' x = v x) -> full v i -> full v' i.
Proof. intros Hv [H1 H2]. split; [done|]. intros bn. rewrite (blk_of_ext v v') by done. apply H2. Qed.

(** A part of a block is a part of the file. *)
Lemma file_chunk v i off m a :
  0 <= off -> 0 <= m <= BSIZE - off mod BSIZE -> a = blk_of v i (off / BSIZE) -> a <> 0 ->
  length (v a) = Z.to_nat BSIZE ->
  take (Z.to_nat m) (drop (Z.to_nat (off mod BSIZE)) (v a)) = file_bytes v i off m.
Proof.
  intros Hoff Hm -> Ha Hl. unfold BSIZE in *. pose proof (Z.mod_pos_bound off 512 ltac:(lia)).
  apply list_eq. intros j. unfold file_bytes. rewrite list_lookup_fmap.
  destruct (decide (Z.of_nat j < m)) as [Hj|Hj].
  - rewrite lookup_take_lt, lookup_drop by lia. rewrite lookup_seqZ_lt by lia. simpl. f_equal.
    assert ((off + Z.of_nat j) / 512 = off / 512 /\ (off + Z.of_nat j) mod 512 = off mod 512 + Z.of_nat j) as [E1 E2].
    { pose proof (Z.div_mod off 512 ltac:(lia)).
      split; symmetry; [apply (Z.div_unique _ _ _ (off mod 512 + Z.of_nat j)) | apply (Z.mod_unique _ _ (off / 512))]; lia. }
    unfold file_byte, BSIZE. rewrite E1, E2, (proj2 (Z.eqb_neq _ _) Ha).
    destruct (lookup_lt_is_Some_2 (v (blk_of v i (off / 512))) (Z.to_nat (off mod 512) + j)) as [y Hy]; [lia|].
    rewrite Hy. symmetry. f_equal. apply nth_lookup_Some. rewrite Z2Nat.inj_add, Nat2Z.id by lia. done.
  - rewrite lookup_take_ge by lia. by rewrite lookup_seqZ_ge by lia.
Qed.

Lemma file_bytes_app v i off n m : 0 <= n -> 0 <= m -> file_bytes v i off (n + m) = file_bytes v i off n ++ file_bytes v i (off + n) m.
Proof. intros Hn Hm. unfold file_bytes. by rewrite seqZ_app, fmap_app by lia. Qed.

(** ** The bits of the bitmap *)

Lemma bit_set_testbit d i : 0 <= i -> bit_set d i = Z.testbit (byte_at d (Z.to_nat (i / 8))) (i mod 8).
Proof.
  intros Hi. unfold bit_set. apply land_bit. apply Z.mod_pos_bound. lia.
Qed.

Lemma byte_at_alter f d i j : (i < length d)%nat -> byte_at (alter f i d) j = if decide (i = j) then f (byte_at d j) else byte_at d j.
Proof.
  intros Hi. unfold byte_at. case_decide as E.
  - subst j. destruct (lookup_lt_is_Some_2 d i Hi) as [x Hx]. rewrite (nth_lookup_Some _ _ _ _ Hx).
    apply nth_lookup_Some. by rewrite list_lookup_alter_eq, Hx.
  - by rewrite !nth_lookup, list_lookup_alter_ne by done.
Qed.

Lemma bit_ne i j : 0 <= i -> 0 <= j -> Z.to_nat (i / 8) = Z.to_nat (j / 8) -> i <> j -> i mod 8 <> j mod 8.
Proof. intros Hi Hj E Hne Em. apply Hne. rewrite (Z.div_mod i 8), (Z.div_mod j 8), Em by lia. f_equal. f_equal.
  apply Z2Nat.inj; [apply Z.div_pos; lia.. | done].
Qed.

Lemma bit_set_set i j d : 0 <= i -> 0 <= j -> (Z.to_nat (i / 8) < length d)%nat ->
  bit_set (set_bit i d) j = (j =? i) || bit_set d j.
Proof.
  intros Hi Hj Hl. rewrite !bit_set_testbit by done. unfold set_bit. rewrite byte_at_alter by done.
  pose proof (Z.mod_pos_bound j 8 ltac:(lia)). pose proof (Z.mod_pos_bound i 8 ltac:(lia)). case_decide as E.
  - rewrite Z.lor_spec, Z.shiftl_1_l, Z.pow2_bits_eqb, orb_comm by lia. f_equal.
    destruct (Z.eqb_spec j i) as [->|Hne]; [apply Z.eqb_refl|]. apply Z.eqb_neq. apply bit_ne; congruence.
  - rewrite (proj2 (Z.eqb_neq j i)) by congruence. done.
Qed.

Lemma bit_set_clear i j d : 0 <= i -> 0 <= j -> (Z.to_nat (i / 8) < length d)%nat ->
  bit_set (clear_bit i d) j = negb (j =? i) && bit_set d j.
Proof.
  intros Hi Hj Hl. rewrite !bit_set_testbit by done. unfold clear_bit. rewrite byte_at_alter by done.
  pose proof (Z.mod_pos_bound j 8 ltac:(lia)). pose proof (Z.mod_pos_bound i 8 ltac:(lia)). case_decide as E.
  - rewrite Z.land_spec, Z.lnot_spec, Z.shiftl_1_l, Z.pow2_bits_eqb, andb_comm by lia. f_equal. f_equal.
    destruct (Z.eqb_spec j i) as [->|Hne]; [apply Z.eqb_refl|]. apply Z.eqb_neq. apply bit_ne; congruence.
  - rewrite (proj2 (Z.eqb_neq j i)) by congruence. done.
Qed.

Lemma set_bit_length i d : length (set_bit i d) = length d.
Proof. apply length_alter. Qed.
Lemma clear_bit_length i d : length (clear_bit i d) = length d.
Proof. apply length_alter. Qed.

(** ** Allocation, as the blocks show it *)

(** The view after block [x] was allocated. *)
Definition allocated (s : superblock) (x : Z) (v : Z -> list Z) (y : Z) : list Z :=
  if y =? x then repeat 0 (Z.to_nat BSIZE) else
  if y =? BBLOCK x s then set_bit (x mod BPB) (v y) else v y.

(** The blocks that are free. *)
Definition free_blocks (s : superblock) (v : Z -> list Z) : list Z :=
  filter (fun x => used s v x = false) (seqZ 0 (sb_size s)).

Lemma free_blocks_elem s v x : x ∈ free_blocks s v <-> 0 <= x < sb_size s /\ used s v x = false.
Proof. unfold free_blocks. rewrite list_elem_of_filter, elem_of_seqZ. intuition lia. Qed.

Lemma free_blocks_nodup s v : NoDup (free_blocks s v).
Proof. apply list.NoDup_filter, NoDup_seqZ. Qed.

Lemma free_count_used s v v' :
  (forall y, 0 <= y < sb_size s -> used s v' y = used s v y) -> length (free_blocks s v') = length (free_blocks s v).
Proof.
  intros Hu. apply Permutation_length, NoDup_Permutation; [apply free_blocks_nodup..|]. intros x. rewrite !free_blocks_elem.
  split; intros [Hx E]; (split; [done|]); [by rewrite Hu in E | by rewrite Hu].
Qed.

(** One block less is free. *)
Lemma free_blocks_take s v v' x :
  0 <= x < sb_size s -> used s v x = false ->
  (forall y, 0 <= y < sb_size s -> used s v' y = (y =? x) || used s v y) ->
  length (free_blocks s v) = S (length (free_blocks s v')).
Proof.
  intros Hx Hu Hv'. assert (free_blocks s v ≡ₚ x :: free_blocks s v') as ->; [|done].
  assert (used s v' x = true) as Hux by (rewrite Hv', Z.eqb_refl by done; done).
  apply NoDup_Permutation; [apply free_blocks_nodup | constructor; [|apply free_blocks_nodup] |].
  - rewrite free_blocks_elem. intros [_ ?]. congruence.
  - intros y. rewrite elem_of_cons, !free_blocks_elem. split.
    + intros [Hy Huy]. destruct (decide (y = x)); [by left | right]. split; [done|].
      rewrite Hv' by done. rewrite (proj2 (Z.eqb_neq _ _)) by done. done.
    + intros [->|[Hy Huy]]; [done|]. split; [done|]. rewrite Hv' in Huy by done. apply orb_false_iff in Huy. tauto.
Qed.

Lemma bitmap_block s start size v x :
  volume s start size v -> 0 <= x < sb_size s ->
  BBLOCK x s = x / BPB + sb_bmapstart s /\ sb_bmapstart s <= BBLOCK x s < data_start s /\
  0 <= BBLOCK x s < size /\ outside start (BBLOCK x s).
Proof.
  intros [H1 H2 H3 H4 H5 _ _] Hx. unfold BBLOCK, outside, data_start in *.
  assert (0 <= x / BPB <= sb_size s / BPB) as Hd.
  { split; [apply Z.div_pos | apply Z.div_le_mono]; unfold BPB, BSIZE; lia. }
  unfold LOGSIZE, MAXOPBLOCKS in *. rewrite u32_small by lia. lia.
Qed.

Lemma owned_not_bitmap s start size v v' x y :
  volume s start size v -> owned s v' x -> 0 <= y < sb_size s -> x <> BBLOCK y s.
Proof. intros Hvol [Hx _] Hy. destruct (bitmap_block _ _ _ _ y Hvol Hy) as (_ & Hr & _). lia. Qed.

Lemma owned_range s start size v x : volume s start size v -> owned s v x -> 0 < x < size /\ outside start x.
Proof.
  intros [H1 H2 H3 H4 H5 _ _] [Hx _]. unfold data_start, outside, LOGSIZE, MAXOPBLOCKS, BPB, BSIZE in *.
  Z.div_mod_to_equations. lia.
Qed.

Lemma data_start_pos s start size v : volume s start size v -> 0 < data_start s.
Proof.
  intros [H1 H2 H3 H4 H5 _ _]. unfold data_start, LOGSIZE, MAXOPBLOCKS, BPB, BSIZE in *. Z.div_mod_to_equations. lia.
Qed.

(** The bit of a block is in its own place of the bitmap. *)
Lemma used_bit s start size v f x y :
  volume s start size v -> 0 <= x < sb_size s -> 0 <= y < sb_size s ->
  used s (fun z => if z =? BBLOCK x s then f (v z) else v z) y =
  if y / BPB =? x / BPB then bit_set (f (v (BBLOCK x s))) (y mod BPB) else used s v y.
Proof.
  intros Hvol Hx Hy. unfold used. destruct (bitmap_block _ _ _ _ x Hvol Hx) as (Ex & _).
  destruct (bitmap_block _ _ _ _ y Hvol Hy) as (Ey & _). rewrite Ex, Ey.
  destruct (Z.eqb_spec (y / BPB) (x / BPB)) as [->|]; [by rewrite Z.eqb_refl|].
  by rewrite (proj2 (Z.eqb_neq _ _)) by lia.
Qed.

Lemma bit_index x : (Z.to_nat (x mod BPB / 8) < Z.to_nat BSIZE)%nat.
Proof. unfold BPB, BSIZE. Z.div_mod_to_equations. lia. Qed.

Lemma same_block_bit x y : y / BPB = x / BPB -> (y mod BPB =? x mod BPB) = (y =? x).
Proof.
  intros E. unfold BPB, BSIZE in *. destruct (Z.eqb_spec y x) as [->|]; [apply Z.eqb_refl|].
  apply Z.eqb_neq. Z.div_mod_to_equations. lia.
Qed.

Lemma allocated_used s start size v x y :
  volume s start size v -> data_start s <= x < sb_size s -> 0 <= y < sb_size s ->
  used s (allocated s x v) y = (y =? x) || used s v y.
Proof.
  intros Hvol Hx Hy. assert (0 <= x) as Hx0.
  { destruct Hvol as [H1 H2 H3 H4 H5 _ _]. unfold data_start, LOGSIZE, MAXOPBLOCKS, BPB, BSIZE in *.
    Z.div_mod_to_equations. lia. }
  transitivity (used s (fun z => if z =? BBLOCK x s then set_bit (x mod BPB) (v z) else v z) y).
  { unfold used, allocated. destruct (bitmap_block _ _ _ _ y Hvol Hy) as (_ & Hr & _).
    by rewrite (proj2 (Z.eqb_neq (BBLOCK y s) x)) by lia. }
  rewrite (used_bit s start size) by (done || lia). destruct (Z.eqb_spec (y / BPB) (x / BPB)) as [E|E].
  - pose proof (Z.mod_pos_bound x BPB ltac:(done)). pose proof (Z.mod_pos_bound y BPB ltac:(done)).
    destruct (bitmap_block _ _ _ _ x Hvol ltac:(lia)) as (Ex & _ & Hr & _).
    rewrite bit_set_set by (try lia; rewrite (vo_len _ _ _ _ Hvol) by done; apply bit_index).
    rewrite same_block_bit by done. unfold used, BBLOCK. by rewrite E.
  - destruct (Z.eqb_spec y x) as [->|]; done.
Qed.

(** ** A file that grows *)

Definition fresh_block (s : superblock) (v : Z -> list Z) (x : Z) : Prop :=
  data_start s <= x < sb_size s /\ used s v x = false.

(** The view after block [x] was freed. *)
Definition freed (s : superblock) (x : Z) (v : Z -> list Z) (y : Z) : list Z :=
  if y =? BBLOCK x s then clear_bit (x mod BPB) (v y) else v y.

Lemma freed_used s start size v x y :
  volume s start size v -> 0 <= x < sb_size s -> 0 <= y < sb_size s ->
  used s (freed s x v) y = negb (y =? x) && used s v y.
Proof.
  intros Hvol Hx Hy. unfold freed. rewrite (used_bit s start size) by done.
  destruct (Z.eqb_spec (y / BPB) (x / BPB)) as [E|E].
  - pose proof (Z.mod_pos_bound x BPB ltac:(done)). pose proof (Z.mod_pos_bound y BPB ltac:(done)).
    destruct (bitmap_block _ _ _ _ x Hvol ltac:(lia)) as (Ex & _ & Hr & _).
    rewrite bit_set_clear by (try lia; rewrite (vo_len _ _ _ _ Hvol) by done; apply bit_index).
    rewrite same_block_bit by done. unfold used, BBLOCK. by rewrite E.
  - destruct (Z.eqb_spec y x) as [->|]; done.
Qed.

Lemma freed_volume s start size v x : volume s start size v -> data_start s <= x < sb_size s -> volume s start size (freed s x v).
Proof.
  intros Hvol Hx. pose proof (data_start_pos _ _ _ _ Hvol). pose proof Hvol as [V1 V2 V3 V4 V5 V6 V7]. split; try done.
  - intros y Hy. unfold freed. case_match; [rewrite clear_bit_length|]; auto.
  - intros y Hy. rewrite (freed_used s start size) by (done || lia). rewrite (proj2 (Z.eqb_neq _ _)) by lia. simpl. auto.
Qed.

Lemma clear_set_bit i d : 0 <= i -> bit_set d i = false -> clear_bit i (set_bit i d) = d.
Proof.
  intros Hi Hb. rewrite bit_set_testbit in Hb by done. unfold clear_bit, set_bit, byte_at in *.
  pose proof (Z.mod_pos_bound i 8 ltac:(lia)). apply list_eq. intros j.
  destruct (decide (Z.to_nat (i / 8) = j)) as [<-|Hne]; [|by rewrite !list_lookup_alter_ne].
  rewrite !list_lookup_alter_eq. destruct (d !! Z.to_nat (i / 8)) as [x|] eqn:E; [|done]. simpl. f_equal.
  rewrite (nth_lookup_Some _ _ _ _ E) in Hb. apply Z.bits_inj'. intros m Hm.
  rewrite Z.land_spec, Z.lor_spec, Z.lnot_spec, Z.shiftl_1_l, Z.pow2_bits_eqb by lia.
  destruct (Z.eqb_spec (i mod 8) m) as [<-|]; [by rewrite Hb | by rewrite orb_false_r, andb_true_r].
Qed.

(** Freeing undoes allocation, up to the contents of the block. *)
Lemma freed_allocated s start size v x y :
  volume s start size v -> fresh_block s v x -> y <> x -> freed s x (allocated s x v) y = v y.
Proof.
  intros Hvol [Hx Hu] Hne. pose proof (data_start_pos _ _ _ _ Hvol). unfold freed, allocated.
  rewrite (proj2 (Z.eqb_neq y x)) by done. destruct (Z.eqb_spec y (BBLOCK x s)) as [->|]; [|done].
  apply clear_set_bit; [|done]. by apply Z.mod_pos_bound.
Qed.

(** What the allocation of blocks for the file [i] changes: the file has more
    blocks, all its bytes are the same, and so is what the other blocks hold. *)
Record grown (s : superblock) (start size : Z) (v : Z -> list Z) (i : inode) (v' : Z -> list Z) (i' : inode) : Prop := {
  gr_vol : volume s start size v';
  gr_file : file_ok s v' i';
  gr_ind : addr i' NDIRECT = addr i NDIRECT \/ addr i NDIRECT = 0 /\ fresh_block s v (addr i' NDIRECT);
  gr_blk : forall bn, 0 <= bn < MAXFILE -> blk_of v i bn <> 0 -> blk_of v' i' bn = blk_of v i bn;
  gr_new : forall bn, 0 <= bn < MAXFILE -> blk_of v' i' bn = blk_of v i bn \/ fresh_block s v (blk_of v' i' bn);
  gr_bytes : forall x, 0 <= x < MAXFILE * BSIZE -> file_byte v' i' x = file_byte v i x;
  gr_other : forall y, owned s v y -> y <> addr i NDIRECT -> v' y = v y;
  gr_meta : forall y, 0 <= y < sb_bmapstart s -> v' y = v y;
  gr_used : forall y, 0 <= y < sb_size s -> used s v y = true -> used s v' y = true;
}.

Lemma owned_grown s start size v i v' i' y : volume s start size v -> grown s start size v i v' i' -> owned s v y -> owned s v' y.
Proof.
  intros Hvol [_ _ _ _ _ _ _ _ Hu] [Hy Huy]. split; [done|]. apply Hu; [|done].
  destruct (owned_range s start size v y Hvol ltac:(done)). lia.
Qed.

Lemma grown_refl s start size v v' i :
  (forall y, v' y = v y) -> volume s start size v -> file_ok s v i -> grown s start size v i v' i.
Proof.
  intros Hv Hvol Hf. split; intros; rewrite ?(used_ext s v v'); try done; try by left.
  - by eapply volume_ext.
  - by eapply file_ok_ext.
  - by apply blk_of_ext.
  - left. by apply blk_of_ext.
  - by apply file_byte_ext.
Qed.

Lemma grown_trans s start size v1 i1 v2 i2 v3 i3 :
  volume s start size v1 -> grown s start size v1 i1 v2 i2 -> grown s start size v2 i2 v3 i3 ->
  grown s start size v1 i1 v3 i3.
Proof.
  intros Hvol H12 H23. pose proof H12 as [A1 A2 A3 A4 A9 A5 A6 A7 A8]. pose proof H23 as [B1 B2 B3 B4 B9 B5 B6 B7 B8].
  pose proof (data_start_pos _ _ _ _ Hvol). assert (forall x, fresh_block s v2 x -> fresh_block s v1 x) as Hfr.
  { intros x [Hr Hu2]. split; [done|]. destruct (used s v1 x) eqn:Hu; [|done].
    rewrite A8 in Hu2; [done | lia | done]. }
  split; try done.
  - destruct B3 as [->|[E2 Hf2]]; [done|]. destruct A3 as [E|[E [Hr' _]]]; [|lia].
    right. split; [congruence | by apply Hfr].
  - intros bn Hbn Hne. rewrite B4, A4; rewrite ?A4; done.
  - intros bn Hbn. destruct (B9 bn Hbn) as [->|Hf]; [by apply A9 | right; by apply Hfr].
  - intros x Hx. by rewrite B5, A5.
  - intros y Hy Hne. rewrite B6; [by apply A6 | by apply (owned_grown s start size v1 i1 v2 i2)|].
    destruct A3 as [->|[E [_ Hu]]]; [done|]. intros ->. destruct Hy. congruence.
  - intros y Hy. by rewrite B7, A7.
  - intros y Hy Hu. apply B8; [done|]. by apply A8.
Qed.

(** One more block for the file: the one at [target], or the indirect block. *)
Section grow_one.
Context (s : superblock) (start size : Z) (v v' : Z -> list Z) (i i' : inode) (x : Z) (target : option Z).
Hypothesis Hvol : volume s start size v.
Hypothesis Hfile : file_ok s v i.
Hypothesis Hx : fresh_block s v x.
Hypothesis Hown : forall y, owned s v y -> y <> addr i NDIRECT -> v' y = v y.
Hypothesis Hzero : v' x = repeat 0 (Z.to_nat BSIZE).
Hypothesis Hused : forall y, 0 <= y < sb_size s -> used s v' y = (y =? x) || used s v y.
Hypothesis Hmeta : forall y, 0 <= y < sb_bmapstart s -> v' y = v y.
Hypothesis Hlen : forall y, 0 <= y < size -> length (v' y) = Z.to_nat BSIZE.
Hypothesis Hblk : forall b, 0 <= b < MAXFILE -> blk_of v' i' b = if decide (target = Some b) then x else blk_of v i b.
Hypothesis Htarget : forall b, target = Some b -> blk_of v i b = 0.
Hypothesis Hind : addr i' NDIRECT = match target with Some _ => addr i NDIRECT | None => x end.
Hypothesis Hnone : target = None -> addr i NDIRECT = 0.
Hypothesis Haddrs : length (i_addrs i') = 13%nat.

Let pos : 0 < data_start s := data_start_pos s start size v Hvol.

Lemma used_grows y : 0 <= y < sb_size s -> used s v y = true -> used s v' y = true.
Proof. intros Hy Hu. rewrite Hused, Hu by done. apply orb_true_r. Qed.

Lemma owned_grows y : owned s v y -> owned s v' y.
Proof. intros [Hy Hu]. split; [done|]. apply used_grows; [lia | done]. Qed.

Lemma owned_new : owned s v' x.
Proof. destruct Hx as [Hr _]. split; [done|]. rewrite Hused, Z.eqb_refl by lia. done. Qed.

Lemma fresh_not_owned y : owned s v y -> y <> x.
Proof. intros [_ Hu] ->. destruct Hx. congruence. Qed.

Lemma ind_not_new b : 0 <= b < MAXFILE -> target = Some b -> addr i' NDIRECT <> x.
Proof.
  intros Hb E. rewrite Hind, E. destruct (decide (addr i NDIRECT = 0)) as [->|Hne].
  - destruct Hx. lia.
  - by apply fresh_not_owned, Hfile.
Qed.

Lemma grow_file : file_ok s v' i'.
Proof.
  pose proof Hfile as [_ F2 F3 F4]. split; [done | | |].
  - rewrite Hind. destruct target; [|intros _; apply owned_new]. intros Hne. by apply owned_grows, F2.
  - intros b Hb. rewrite Hblk by done. case_decide as E.
    + intros _. split; [apply owned_new|]. apply not_eq_sym. by apply (ind_not_new b).
    + intros Hne. destruct (F3 b Hb Hne) as [Ho Hi]. split; [by apply owned_grows|]. rewrite Hind.
      destruct target; [done|]. by apply fresh_not_owned.
  - intros b b' Hb Hb'. rewrite !Hblk by done. case_decide as E1; case_decide as E2; intros Hne E.
    + congruence.
    + destruct (F3 b' Hb') as [Ho _]; [by rewrite <- E|]. apply fresh_not_owned in Ho. congruence.
    + destruct (F3 b Hb Hne) as [Ho _]. apply fresh_not_owned in Ho. congruence.
    + by apply F4.
Qed.

Lemma grow_byte y : 0 <= y < MAXFILE * BSIZE -> file_byte v' i' y = file_byte v i y.
Proof.
  intros Hy. unfold file_byte. assert (0 <= y / BSIZE < MAXFILE) as Hb.
  { change MAXFILE with 140 in *. unfold BSIZE in *. Z.div_mod_to_equations. lia. }
  rewrite Hblk by done. case_decide as E.
  - rewrite (Htarget _ E), Hzero. destruct (x =? 0); [done|]. apply nth_repeat.
  - destruct (Z.eqb_spec (blk_of v i (y / BSIZE)) 0) as [|Hne]; [done|].
    destruct (fi_blk _ _ _ Hfile _ Hb Hne) as [Ho Hi]. by rewrite Hown.
Qed.

Lemma grow_one : grown s start size v i v' i'.
Proof.
  split; try done.
  - destruct Hvol. split; try done. intros y Hy. apply used_grows; [lia | auto].
  - exact grow_file.
  - rewrite Hind. destruct target; [by left | right]. split; [by apply Hnone | done].
  - intros b Hb Hne. rewrite Hblk by done. case_decide as E; [|done]. apply Htarget in E. done.
  - intros b Hb. rewrite Hblk by done. case_decide; [by right | by left].
  - exact grow_byte.
  - exact used_grows.
Qed.
End grow_one.


Lemma addr_insert i j a b :
  length (i_addrs i) = 13%nat -> 0 <= j < 13 -> 0 <= b ->
  addr (upd_i_addrs (fun l => <[Z.to_nat j := a]> l) i) b = if b =? j then a else addr i b.
Proof.
  intros Hl Hj Hb. unfold addr. simpl. rewrite !nth_lookup. destruct (Z.eqb_spec b j) as [->|Hne].
  - by rewrite list_lookup_insert_eq by lia.
  - by rewrite list_lookup_insert_ne by lia.
Qed.

(** The three places a new block goes to. *)
Section grow.
Context (s : superblock) (start size : Z) (v v' : Z -> list Z) (i : inode) (x : Z).
Hypothesis Hvol : volume s start size v.
Hypothesis Hfile : file_ok s v i.
Hypothesis Hx : fresh_block s v x.

Let pos : 0 < data_start s := data_start_pos s start size v Hvol.

Lemma bitmap_of_new : BBLOCK x s <> x /\ sb_bmapstart s <= BBLOCK x s < data_start s /\ 0 <= BBLOCK x s < size.
Proof.
  destruct Hx as [Hr _]. destruct (bitmap_block _ _ _ _ x Hvol ltac:(lia)) as (_ & H1 & H2 & _). lia.
Qed.

Lemma allocated_own y : owned s v y -> allocated s x v y = v y.
Proof.
  intros Hy. unfold allocated. destruct (owned_range _ _ _ _ _ Hvol Hy) as [_ _]. destruct Hx as [Hr Hu].
  rewrite (proj2 (Z.eqb_neq y x)) by (intros ->; destruct Hy; congruence).
  rewrite (proj2 (Z.eqb_neq _ _)); [done|]. apply (owned_not_bitmap s start size v v); [done | done | lia].
Qed.

Lemma allocated_new : allocated s x v x = repeat 0 (Z.to_nat BSIZE).
Proof. unfold allocated. by rewrite Z.eqb_refl. Qed.

Lemma allocated_meta y : 0 <= y < sb_bmapstart s -> allocated s x v y = v y.
Proof.
  intros Hy. destruct bitmap_of_new as (_ & H1 & _), Hx as [Hr _]. unfold allocated.
  rewrite !(proj2 (Z.eqb_neq _ _)) by lia. done.
Qed.

Lemma allocated_len y : 0 <= y < size -> length (allocated s x v y) = Z.to_nat BSIZE.
Proof.
  intros Hy. unfold allocated. repeat case_match; rewrite ?repeat_length, ?set_bit_length; try done; by apply Hvol.
Qed.

Lemma grow_direct bn :
  0 <= bn < NDIRECT -> addr i bn = 0 -> (forall y, v' y = allocated s x v y) ->
  grown s start size v i v' (upd_i_addrs (fun l => <[Z.to_nat bn := x]> l) i).
Proof.
  intros Hbn Ha Hv'. pose proof (fi_addrs _ _ _ Hfile) as Hl. unfold NDIRECT in Hbn.
  apply (grow_one s start size v v' i _ x (Some bn)); try done.
  - intros y Hy _. rewrite Hv'. by apply allocated_own.
  - rewrite Hv'. apply allocated_new.
  - intros y Hy. rewrite (used_ext s (allocated s x v)) by done. destruct Hx. by apply (allocated_used s start size).
  - intros y Hy. rewrite Hv'. by apply allocated_meta.
  - intros y Hy. rewrite Hv'. by apply allocated_len.
  - intros b Hb. unfold blk_of. rewrite !addr_insert by (unfold NDIRECT; lia).
    rewrite (proj2 (Z.eqb_neq NDIRECT bn)) by (unfold NDIRECT; lia).
    destruct (Z.ltb_spec b NDIRECT).
    + destruct (Z.eqb_spec b bn) as [->|]; case_decide; congruence.
    + rewrite decide_False by (intros [=]; unfold NDIRECT in *; lia).
      destruct (Z.eqb_spec (addr i NDIRECT) 0) as [|Hne]; [done|]. rewrite Hv', allocated_own; [done|].
      by apply (fi_ind _ _ _ Hfile).
  - intros b [= <-]. unfold blk_of. by rewrite (proj2 (Z.ltb_lt bn NDIRECT)) by (unfold NDIRECT; lia).
  - rewrite addr_insert by (unfold NDIRECT; lia). by rewrite (proj2 (Z.eqb_neq NDIRECT bn)) by (unfold NDIRECT; lia).
  - simpl. by rewrite length_insert.
Qed.

Lemma word_at_zeros n j : word_at (repeat 0 n) j = 0.
Proof.
  unfold word_at. assert (forall m y, repeat 0 n !! m = Some y -> y = 0) as Hz.
  { intros m y Hy. rewrite <- (nth_repeat 0 n m). symmetry. apply (nth_lookup_Some _ _ 0 _ Hy). }
  repeat case_match; try done. by repeat match goal with E : repeat _ _ !! _ = Some _ |- _ => apply Hz in E; subst end.
Qed.

Lemma grow_indirect :
  addr i NDIRECT = 0 -> (forall y, v' y = allocated s x v y) ->
  grown s start size v i v' (upd_i_addrs (fun l => <[Z.to_nat NDIRECT := x]> l) i).
Proof.
  intros Ha Hv'. pose proof (fi_addrs _ _ _ Hfile) as Hl.
  apply (grow_one s start size v v' i _ x None); try done.
  - intros y Hy _. rewrite Hv'. by apply allocated_own.
  - rewrite Hv'. apply allocated_new.
  - intros y Hy. rewrite (used_ext s (allocated s x v)) by done. destruct Hx. by apply (allocated_used s start size).
  - intros y Hy. rewrite Hv'. by apply allocated_meta.
  - intros y Hy. rewrite Hv'. by apply allocated_len.
  - intros b Hb. rewrite decide_False by done. unfold blk_of. rewrite !addr_insert by (unfold NDIRECT; lia).
    rewrite Z.eqb_refl, Ha. destruct (Z.ltb_spec b NDIRECT).
    + by rewrite (proj2 (Z.eqb_neq b NDIRECT)) by lia.
    + rewrite Hv', allocated_new, word_at_zeros. by destruct (x =? 0).
  - rewrite addr_insert by (unfold NDIRECT; lia). by rewrite Z.eqb_refl.
  - simpl. by rewrite length_insert.
Qed.

Lemma grow_entry_used w y :
  addr i NDIRECT <> 0 -> (forall y, v' y = if y =? addr i NDIRECT then w else allocated s x v y) ->
  0 <= y < sb_size s -> used s v' y = (y =? x) || used s v y.
Proof.
  intros Ha Hv' Hy. rewrite <- (allocated_used s start size) by (done || apply Hx). unfold used. rewrite Hv'.
  pose proof (fi_ind _ _ _ Hfile Ha) as Hio.
  by rewrite (proj2 (Z.eqb_neq _ _)) by (apply not_eq_sym; by apply (owned_not_bitmap s start size v v)).
Qed.

Lemma grow_entry bn :
  NDIRECT <= bn < MAXFILE -> addr i NDIRECT <> 0 -> blk_of v i bn = 0 ->
  (forall y, v' y = if y =? addr i NDIRECT then put_word (4 * Z.to_nat (bn - NDIRECT)) x (v (addr i NDIRECT))
                    else allocated s x v y) ->
  grown s start size v i v' i.
Proof.
  intros Hbn Ha Hb0 Hv'. pose proof (fi_addrs _ _ _ Hfile) as Hl. pose proof (fi_ind _ _ _ Hfile Ha) as Hio.
  pose proof (proj1 Hio) as Hir. destruct (bitmap_of_new) as (_ & Hbb & _). pose proof Hx as [Hxr Hxu].
  destruct (owned_range _ _ _ _ _ Hvol Hio) as [Hi2 _].
  assert (x <> addr i NDIRECT) as Hxi by (intros ->; destruct Hio; congruence).
  apply (grow_one s start size v v' i _ x (Some bn)); try done.
  - intros y Hy Hne. rewrite Hv', (proj2 (Z.eqb_neq _ _) Hne). by apply allocated_own.
  - rewrite Hv', (proj2 (Z.eqb_neq _ _) Hxi). apply allocated_new.
  - intros y Hy. by eapply grow_entry_used.
  - intros y Hy. rewrite Hv', (proj2 (Z.eqb_neq _ _)) by (unfold data_start, BPB, BSIZE in *; Z.div_mod_to_equations; lia).
    by apply allocated_meta.
  - intros y Hy. rewrite Hv'. case_match; [|by apply allocated_len]. rewrite put_word_length. apply Hvol. lia.
  - intros b Hb. unfold blk_of. rewrite (proj2 (Z.eqb_neq _ _) Ha), Hv', Z.eqb_refl.
    destruct (Z.ltb_spec b NDIRECT); [by rewrite decide_False by (intros [=]; lia)|].
    change MAXFILE with 140 in *. unfold NDIRECT in *. case_decide as E.
    + injection E as <-. rewrite word_at_put.
      * apply u32_small. destruct Hvol. lia.
      * rewrite (vo_len _ _ _ _ Hvol) by lia. unfold BSIZE. lia.
    + apply word_at_put_ne. assert (b <> bn) by congruence. lia.
  - by intros b [= <-].
Qed.
End grow.


(** ** Writing into the blocks of a file *)

Lemma splice_nth i l d j : (i <= length d)%nat ->
  nth j (splice i l d) 0 = if decide (i <= j < i + length l)%nat then nth (j - i) l 0 else nth j d 0.
Proof.
  intros Hi. unfold splice. rewrite !nth_lookup. case_decide as Hj.
  - rewrite lookup_app_r by (rewrite length_take; lia). rewrite length_take, Nat.min_l by lia.
    by rewrite lookup_app_l by lia.
  - destruct (decide (j < i)%nat).
    + rewrite lookup_app_l by (rewrite length_take; lia). by rewrite lookup_take_lt by lia.
    + rewrite lookup_app_r by (rewrite length_take; lia). rewrite length_take, Nat.min_l by lia.
      rewrite lookup_app_r by lia. rewrite lookup_drop. do 2 f_equal. lia.
Qed.

(** A block of the file changes. *)
Section store.
Context (s : superblock) (start size : Z) (v v' : Z -> list Z) (i : inode) (bn : Z) (d : list Z).
Hypothesis Hvol : volume s start size v.
Hypothesis Hfile : file_ok s v i.
Hypothesis Hbn : 0 <= bn < MAXFILE.
Hypothesis Hne : blk_of v i bn <> 0.
Hypothesis Hv' : forall y, v' y = if y =? blk_of v i bn then d else v y.
Hypothesis Hd : length d = Z.to_nat BSIZE.

Lemma store_used y : 0 <= y < sb_size s -> used s v' y = used s v y.
Proof.
  intros Hy. unfold used. rewrite Hv'. destruct (fi_blk _ _ _ Hfile bn Hbn Hne) as [Ho _].
  by rewrite (proj2 (Z.eqb_neq _ _)) by (apply not_eq_sym; by apply (owned_not_bitmap s start size v v)).
Qed.

Lemma store_blk b : blk_of v' i b = blk_of v i b.
Proof.
  unfold blk_of at 1 2. destruct (b <? NDIRECT); [done|]. destruct (addr i NDIRECT =? 0); [done|].
  destruct (fi_blk _ _ _ Hfile bn Hbn Hne) as [_ Hi]. by rewrite Hv', (proj2 (Z.eqb_neq _ _)) by congruence.
Qed.

Lemma store_owned y : owned s v' y <-> owned s v y.
Proof.
  pose proof (data_start_pos _ _ _ _ Hvol). unfold owned. split; intros [Hy Hu]; (split; [done|]).
  - by rewrite store_used in Hu by lia.
  - by rewrite store_used by lia.
Qed.

Lemma store_volume : volume s start size v'.
Proof.
  destruct Hvol. split; try done.
  - intros y Hy. rewrite Hv'. case_match; auto.
  - intros y Hy. rewrite store_used by lia. auto.
Qed.

Lemma store_file : file_ok s v' i.
Proof.
  destruct Hfile as [F1 F2 F3 F4]. split; try done.
  - intros H. apply store_owned. auto.
  - intros b Hb. rewrite store_blk. intros H. rewrite store_owned. auto.
  - intros b b' Hb Hb'. rewrite !store_blk. auto.
Qed.

Lemma store_byte x : 0 <= x < MAXFILE * BSIZE ->
  file_byte v' i x = if x / BSIZE =? bn then nth (Z.to_nat (x mod BSIZE)) d 0 else file_byte v i x.
Proof.
  intros Hx. assert (0 <= x / BSIZE < MAXFILE) as Hb.
  { change MAXFILE with 140 in *. unfold BSIZE in *. Z.div_mod_to_equations. lia. }
  unfold file_byte. rewrite store_blk. destruct (Z.eqb_spec (x / BSIZE) bn) as [->|Hxb].
  - by rewrite (proj2 (Z.eqb_neq _ _) Hne), Hv', Z.eqb_refl.
  - destruct (Z.eqb_spec (blk_of v i (x / BSIZE)) 0) as [|Hx0]; [done|]. rewrite Hv', (proj2 (Z.eqb_neq _ _)); [done|].
    intros E. apply Hxb. by apply (fi_inj _ _ _ Hfile).
Qed.
End store.

(** The bytes [src] were written to the file at [off]. *)
Record written (s : superblock) (start size off : Z) (src : list Z) (v : Z -> list Z) (i : inode)
    (v' : Z -> list Z) (i' : inode) : Prop := {
  wf_vol : volume s start size v';
  wf_file : file_ok s v' i';
  wf_ind : addr i' NDIRECT = addr i NDIRECT \/ addr i NDIRECT = 0 /\ fresh_block s v (addr i' NDIRECT);
  wf_blk : forall bn, 0 <= bn < MAXFILE -> blk_of v i bn <> 0 -> blk_of v' i' bn = blk_of v i bn;
  wf_new : forall bn, 0 <= bn < MAXFILE -> blk_of v' i' bn = blk_of v i bn \/ fresh_block s v (blk_of v' i' bn);
  wf_there : forall x, off <= x < off + Z.of_nat (length src) -> blk_of v' i' (x / BSIZE) <> 0;
  wf_bytes : forall x, 0 <= x < MAXFILE * BSIZE -> file_byte v' i' x =
    if (off <=? x) && (x <? off + Z.of_nat (length src)) then nth (Z.to_nat (x - off)) src 0 else file_byte v i x;
  wf_other : forall y, owned s v y -> y <> addr i NDIRECT -> (forall bn, 0 <= bn < MAXFILE -> y <> blk_of v i bn) ->
    v' y = v y;
  wf_meta : forall y, 0 <= y < sb_bmapstart s -> v' y = v y;
  wf_used : forall y, 0 <= y < sb_size s -> used s v y = true -> used s v' y = true;
}.

Lemma written_nil s start size off v i : volume s start size v -> file_ok s v i -> written s start size off [] v i v i.
Proof.
  intros Hvol Hf. split; try done; try (intros; by left).
  - simpl. intros x Hx. lia.
  - intros x Hx. cbn [length]. destruct (Z.leb_spec off x), (Z.ltb_spec x (off + Z.of_nat 0)); cbn [andb]; done || lia.
Qed.

Lemma written_grown s start size off src v i v1 i1 v2 i2 :
  volume s start size v -> written s start size off src v i v1 i1 -> grown s start size v1 i1 v2 i2 ->
  0 <= off -> off + Z.of_nat (length src) <= MAXFILE * BSIZE -> written s start size off src v i v2 i2.
Proof.
  intros Hvol [A1 A2 A3 A4 A5 A6 A7 A8 A9 A10] [B1 B2 B3 B4 B5 B6 B7 B8 B9] Hoff Hmax.
  pose proof (data_start_pos _ _ _ _ Hvol) as Hpos. assert (forall x, fresh_block s v1 x -> fresh_block s v x) as Hfr.
  { intros x [Hr Hu2]. split; [done|]. destruct (used s v x) eqn:Hu; [|done]. rewrite A10 in Hu2; [done | lia | done]. }
  split; try done.
  - destruct B3 as [->|[E2 Hf2]]; [done|]. destruct A3 as [E|[E [Hr' _]]]; [|lia].
    right. split; [congruence | by apply Hfr].
  - intros bn Hbn Hne. rewrite B4, A4; rewrite ?A4; done.
  - intros bn Hbn. destruct (B5 bn Hbn) as [->|Hf]; [by apply A5 | right; by apply Hfr].
  - intros x Hx. rewrite B4; [by apply A6 | | by apply A6].
    change MAXFILE with 140 in *. unfold BSIZE in *. Z.div_mod_to_equations. lia.
  - intros x Hx. by rewrite B6, A7.
  - intros y [Hy Hu] Hi Hb. rewrite B7; [by apply A8 | split; [done | apply A10; [lia | done]] |].
    destruct A3 as [->|[E [_ Hu']]]; [done|]. congruence.
  - intros y Hy. by rewrite B8, A9.
  - intros y Hy Hu. by apply B9, A10.
Qed.

(** What the splice into a block is for the file. *)
Lemma splice_file v i w p x :
  0 <= p -> 0 <= x -> Z.of_nat (length w) <= BSIZE - p mod BSIZE -> blk_of v i (p / BSIZE) <> 0 ->
  length (v (blk_of v i (p / BSIZE))) = Z.to_nat BSIZE ->
  (if x / BSIZE =? p / BSIZE
   then nth (Z.to_nat (x mod BSIZE)) (splice (Z.to_nat (p mod BSIZE)) w (v (blk_of v i (p / BSIZE)))) 0
   else file_byte v i x) =
  if (p <=? x) && (x <? p + Z.of_nat (length w)) then nth (Z.to_nat (x - p)) w 0 else file_byte v i x.
Proof.
  intros Hp Hx Hw Hne Hl. pose proof (Z.mod_pos_bound p BSIZE ltac:(done)). pose proof (Z.mod_pos_bound x BSIZE ltac:(done)).
  pose proof (Z.div_mod p BSIZE ltac:(done)) as Ep. pose proof (Z.div_mod x BSIZE ltac:(done)) as Ex.
  destruct (Z.eqb_spec (x / BSIZE) (p / BSIZE)) as [E|E].
  - rewrite splice_nth by lia. rewrite E in Ex. case_decide as Hj.
    + rewrite (proj2 (Z.leb_le p x)), (proj2 (Z.ltb_lt x _)) by lia. cbn [andb]. f_equal. lia.
    + assert ((p <=? x) && (x <? p + Z.of_nat (length w)) = false) as ->.
      { apply andb_false_iff. rewrite Z.leb_gt, Z.ltb_ge. lia. }
      unfold file_byte. by rewrite E, (proj2 (Z.eqb_neq _ _) Hne).
  - assert ((p <=? x) && (x <? p + Z.of_nat (length w)) = false) as ->; [|done].
    apply andb_false_iff. rewrite Z.leb_gt, Z.ltb_ge. unfold BSIZE in *. Z.div_mod_to_equations. lia.
Qed.

Lemma nth_written (src w : list Z) off x (y : Z) :
  let p := off + Z.of_nat (length src) in
  (if (p <=? x) && (x <? p + Z.of_nat (length w)) then nth (Z.to_nat (x - p)) w 0
   else if (off <=? x) && (x <? p) then nth (Z.to_nat (x - off)) src 0 else y) =
  if (off <=? x) && (x <? off + Z.of_nat (length (src ++ w))) then nth (Z.to_nat (x - off)) (src ++ w) 0 else y.
Proof.
  intros p. rewrite length_app. destruct (Z.leb_spec p x), (Z.ltb_spec x (p + Z.of_nat (length w))), (Z.leb_spec off x),
    (Z.ltb_spec x p), (Z.ltb_spec x (off + Z.of_nat (length src + length w))); cbn [andb]; try lia; try done.
  - rewrite app_nth2 by lia. f_equal. lia.
  - by rewrite app_nth1 by lia.
Qed.

Lemma written_store s start size off src w v i v1 i1 v2 :
  let p := off + Z.of_nat (length src) in
  volume s start size v -> written s start size off src v i v1 i1 -> 0 <= off ->
  p + Z.of_nat (length w) <= MAXFILE * BSIZE -> 0 < Z.of_nat (length w) <= BSIZE - p mod BSIZE ->
  blk_of v1 i1 (p / BSIZE) <> 0 ->
  (forall y, v2 y = if y =? blk_of v1 i1 (p / BSIZE)
     then splice (Z.to_nat (p mod BSIZE)) w (v1 (blk_of v1 i1 (p / BSIZE))) else v1 y) ->
  written s start size off (src ++ w) v i v2 i1.
Proof.
  intros p Hvol [A1 A2 A3 A4 A5 A6 A7 A8 A9 A10] Hoff Hmax Hw Hne Hv2.
  pose proof (data_start_pos _ _ _ _ Hvol) as Hpos. assert (0 <= p / BSIZE < MAXFILE) as Hbn.
  { subst p. change MAXFILE with 140 in *. unfold BSIZE in *. Z.div_mod_to_equations. lia. }
  pose proof (Z.mod_pos_bound p BSIZE ltac:(done)) as Hmod. set (a := blk_of v1 i1 (p / BSIZE)) in *.
  destruct (fi_blk _ _ _ A2 _ Hbn Hne) as [Hao Hai]. fold a in Hao, Hai.
  assert (length (v1 a) = Z.to_nat BSIZE) as Hla.
  { apply (vo_len _ _ _ _ A1). destruct (owned_range _ _ _ _ _ A1 Hao). lia. }
  assert (length (splice (Z.to_nat (p mod BSIZE)) w (v1 a)) = Z.to_nat BSIZE) as Hd by (rewrite splice_len; lia).
  set (d := splice _ _ _) in *.
  pose proof (store_blk s v1 v2 i1 (p / BSIZE) d A2 Hbn Hne Hv2) as Hblk.
  split; rewrite ?Hblk; try done.
  - by apply (store_volume s start size v1 v2 i1 (p / BSIZE) d).
  - by apply (store_file s start size v1 v2 i1 (p / BSIZE) d).
  - intros bn Hb H0. rewrite Hblk. by apply A4.
  - intros bn Hb. rewrite Hblk. by apply A5.
  - intros x Hx. rewrite length_app in Hx. rewrite Hblk. destruct (decide (x < p)); [apply A6; lia|].
    assert (x / BSIZE = p / BSIZE) as ->; [|done]. subst p. unfold BSIZE in *. Z.div_mod_to_equations. lia.
  - intros x Hx. rewrite (store_byte s v1 v2 i1 (p / BSIZE) d A2 Hbn Hne Hv2) by done. unfold d, a.
    rewrite splice_file by (done || lia). rewrite A7 by done. apply nth_written.
  - intros y Hy Hi Hb. rewrite Hv2, (proj2 (Z.eqb_neq _ _)); [by apply A8|].
    destruct (A5 _ Hbn) as [E|[_ E]]; fold a in E; [rewrite E; by apply Hb|]. intros ->. destruct Hy. congruence.
  - intros y Hy. rewrite Hv2, (proj2 (Z.eqb_neq _ _)); [by apply A9|]. destruct Hao as [Hr _]. unfold data_start in Hr.
    destruct A1. unfold data_start in *. unfold LOGSIZE, MAXOPBLOCKS, BPB, BSIZE in *. Z.div_mod_to_equations. lia.
  - intros y Hy Hu. rewrite (store_used s start size v1 v2 i1 (p / BSIZE) d) by done. by apply A10.
Qed.

(** *** The inode blocks *)

Definition contents (v : Z -> list Z) (i : inode) : list Z := file_bytes v i 0 (i_size i).

(** *** The contents as a list *)

Lemma contents_length v i : 0 <= i_size i -> length (contents v i) = Z.to_nat (i_size i).
Proof. intros Hi. unfold contents, file_bytes. by rewrite length_fmap, length_seqZ. Qed.

Lemma file_bytes_contents v i off m :
  0 <= off -> 0 <= m -> off + m <= i_size i -> file_bytes v i off m = take (Z.to_nat m) (drop (Z.to_nat off) (contents v i)).
Proof.
  intros Ho Hm Hs. unfold contents. replace (i_size i) with (off + (m + (i_size i - off - m))) by lia.
  rewrite !file_bytes_app by lia. rewrite drop_app_length' by (unfold file_bytes; rewrite length_fmap, length_seqZ; lia).
  by rewrite take_app_length' by (unfold file_bytes; rewrite length_fmap, length_seqZ; lia).
Qed.

Lemma contents_ext v i v' i' :
  i_size i' = i_size i -> i_size i <= MAXFILE * BSIZE ->
  (forall x, 0 <= x < MAXFILE * BSIZE -> file_byte v' i' x = file_byte v i x) -> contents v' i' = contents v i.
Proof.
  intros Es Hmax Hb. unfold contents, file_bytes. rewrite Es. apply list_fmap_ext. intros m x Hx.
  apply list_elem_of_lookup_2, elem_of_seqZ in Hx. apply Hb. lia.
Qed.

Lemma contents_splice v i v' i' off src :
  0 <= off <= i_size i -> i_size i <= MAXFILE * BSIZE -> off + Z.of_nat (length src) <= MAXFILE * BSIZE ->
  i_size i' = Z.max (i_size i) (off + Z.of_nat (length src)) ->
  (forall x, 0 <= x < MAXFILE * BSIZE -> file_byte v' i' x =
    if (off <=? x) && (x <? off + Z.of_nat (length src)) then nth (Z.to_nat (x - off)) src 0 else file_byte v i x) ->
  contents v' i' = splice (Z.to_nat off) src (contents v i).
Proof.
  intros Hoff Hm1 Hm2 Hs Hb. pose proof (contents_length v i ltac:(lia)) as Hl. pose proof (contents_length v' i' ltac:(lia)) as Hl'.
  assert (forall i v x, (x < Z.to_nat (i_size i))%nat -> nth x (contents v i) 0 = file_byte v i (Z.of_nat x)) as Hnth.
  { intros j w x Hx. unfold contents, file_bytes. apply nth_lookup_Some. rewrite list_lookup_fmap, lookup_seqZ_lt by lia. done. }
  apply (nth_ext _ _ 0 0).
  - rewrite Hl'. unfold splice. rewrite !length_app, length_take, length_drop, Hl. lia.
  - intros x Hx. rewrite Hl' in Hx. rewrite splice_nth, Hnth, Hb by lia. case_decide as Hd.
    + rewrite (proj2 (Z.leb_le _ _)), (proj2 (Z.ltb_lt _ _)) by lia. cbn [andb]. f_equal. lia.
    + assert ((off <=? Z.of_nat x) && (Z.of_nat x <? off + Z.of_nat (length src)) = false) as ->.
      { apply andb_false_iff. rewrite Z.leb_gt, Z.ltb_ge. lia. }
      symmetry. apply Hnth. lia.
Qed.

(** Inode [m] has its place before the bitmap. *)
Definition inode_there (s : superblock) (m : Z) : Prop := 0 <= m /\ m / IPB + sb_inodestart s < sb_bmapstart s.

(** The inode on the disk, as [ilock] reads it into [i]. *)
Definition stored_inode (s : superblock) (v : Z -> list Z) (m : Z) (i : inode) : inode :=
  read_dinode (v (IBLOCK m s)) (dinode_off m) i.

Lemma iblock_there s start size v m :
  volume s start size v -> inode_there s m ->
  sb_inodestart s <= IBLOCK m s < sb_bmapstart s /\ 0 <= IBLOCK m s < size /\ outside start (IBLOCK m s) /\
  IBLOCK m s = m / IPB + sb_inodestart s.
Proof.
  intros [H1 H2 H3 H4 H5 _ _] [Hm Hr]. assert (0 <= m / IPB) by (apply Z.div_pos; [done | done]).
  unfold data_start, outside, IBLOCK, LOGSIZE, MAXOPBLOCKS, BPB, BSIZE in *.
  assert (0 <= sb_size s / (512 * 8)) by (Z.div_mod_to_equations; lia).
  rewrite u32_small by lia. lia.
Qed.

Lemma dinode_apart m m' : 0 <= m -> 0 <= m' -> m / IPB = m' / IPB -> m <> m' ->
  (dinode_off m + 64 <= dinode_off m' \/ dinode_off m' + 64 <= dinode_off m)%nat.
Proof. intros Hm Hm' E Hne. unfold dinode_off. change IPB with 8 in *. Z.div_mod_to_equations. lia. Qed.

Lemma write_dinode_length ip o d : length (write_dinode ip o d) = length d.
Proof. unfold write_dinode. by rewrite put_words_length, put_word_length, !put_short_length. Qed.

Lemma read_write_dinode_ne ip o o' d j :
  length (i_addrs ip) = 13%nat -> (o + 64 <= o' \/ o' + 64 <= o)%nat ->
  read_dinode (write_dinode ip o d) o' j = read_dinode d o' j.
Proof.
  intros Hl Ho. unfold read_dinode, write_dinode, din_type, din_addrs.
  rewrite !short_at_words_ne, !short_at_word_ne, !short_at_put_ne by lia.
  rewrite word_at_words_ne, word_at_put_ne, !word_at_short_ne by lia. f_equal.
  apply list_fmap_ext. intros _ x Hx%list_elem_of_lookup_2%elem_of_seq.
  by rewrite word_at_words_ne, word_at_put_ne, !word_at_short_ne by lia.
Qed.

(** A change of the blocks before the bitmap is not seen by the files. *)
Section meta.
Context (s : superblock) (start size : Z) (v v' : Z -> list Z).
Hypothesis Hvol : volume s start size v.
Hypothesis Hv' : forall y, sb_bmapstart s <= y -> v' y = v y.
Hypothesis Hlen : forall y, 0 <= y < size -> length (v' y) = Z.to_nat BSIZE.

Let bmap_data : sb_bmapstart s < data_start s.
Proof.
  destruct Hvol. unfold data_start, LOGSIZE, MAXOPBLOCKS, BPB, BSIZE in *.
  assert (0 <= sb_size s / (512 * 8)) by (Z.div_mod_to_equations; lia). lia.
Qed.

Lemma meta_used y : 0 <= y < sb_size s -> used s v' y = used s v y.
Proof.
  intros Hy. unfold used. destruct (bitmap_block _ _ _ _ y Hvol Hy) as (_ & Hr & _). by rewrite Hv' by lia.
Qed.

Lemma meta_owned y : owned s v' y <-> owned s v y.
Proof.
  pose proof (data_start_pos _ _ _ _ Hvol). unfold owned. split; intros [Hy Hu]; (split; [done|]).
  - by rewrite meta_used in Hu by lia.
  - by rewrite meta_used by lia.
Qed.

Lemma meta_volume : volume s start size v'.
Proof. destruct Hvol. split; try done. intros y Hy. rewrite meta_used by lia. auto. Qed.

Lemma meta_blk i bn : file_ok s v i -> blk_of v' i bn = blk_of v i bn.
Proof.
  intros Hf. unfold blk_of. destruct (bn <? NDIRECT); [done|]. destruct (Z.eqb_spec (addr i NDIRECT) 0) as [|Hne]; [done|].
  destruct (fi_ind _ _ _ Hf Hne) as [Hr _]. by rewrite Hv' by lia.
Qed.

Lemma meta_file i : file_ok s v i -> file_ok s v' i.
Proof.
  intros Hf. pose proof Hf as [F1 F2 F3 F4]. split; try done.
  - intros H. apply meta_owned. auto.
  - intros b Hb. rewrite (meta_blk i b Hf), meta_owned. auto.
  - intros b b' Hb Hb'. rewrite !(meta_blk i _ Hf). auto.
Qed.

Lemma meta_byte i x : file_ok s v i -> 0 <= x < MAXFILE * BSIZE -> file_byte v' i x = file_byte v i x.
Proof.
  intros Hf Hx. unfold file_byte. rewrite (meta_blk i _ Hf).
  destruct (Z.eqb_spec (blk_of v i (x / BSIZE)) 0) as [|Hne]; [done|].
  assert (0 <= x / BSIZE < MAXFILE) as Hb.
  { change MAXFILE with 140 in *. unfold BSIZE in *. Z.div_mod_to_equations. lia. }
  destruct (fi_blk _ _ _ Hf _ Hb Hne) as [[Hr _] _]. by rewrite Hv' by lia.
Qed.
End meta.

(** *** Two files *)

Definition of_file (v : Z -> list Z) (j : inode) (y : Z) : Prop :=
  y = addr j NDIRECT \/ exists bn, 0 <= bn < MAXFILE /\ y = blk_of v j bn.

(** The files share no block. *)
Definition separate (v : Z -> list Z) (i j : inode) : Prop :=
  forall y, y <> 0 -> of_file v j y -> ~ of_file v i y.

(** A file whose blocks stay as they are and in use stays as it is. *)
Section other.
Context (s : superblock) (start size : Z) (v v' : Z -> list Z) (j : inode).
Hypothesis Hvol : volume s start size v.
Hypothesis Hj : file_ok s v j.
Hypothesis Hsame : forall y, owned s v y -> of_file v j y -> v' y = v y /\ used s v' y = true.

Lemma other_blk bn : blk_of v' j bn = blk_of v j bn.
Proof.
  unfold blk_of. destruct (bn <? NDIRECT); [done|]. destruct (Z.eqb_spec (addr j NDIRECT) 0) as [|Hne]; [done|].
  destruct (Hsame (addr j NDIRECT)) as [-> _]; [by apply Hj | by left | done].
Qed.

Lemma other_file : file_ok s v' j.
Proof.
  pose proof Hj as [F1 F2 F3 F4]. assert (forall y, owned s v y -> of_file v j y -> owned s v' y) as Ho.
  { intros y Hy Hof. destruct (Hsame y Hy Hof). by destruct Hy. }
  split; try done.
  - intros H. apply Ho; [auto | by left].
  - intros b Hb. rewrite other_blk. intros H. destruct (F3 b Hb H). split; [|done]. apply Ho; [done|]. right. by exists b.
  - intros b b' Hb Hb'. rewrite !other_blk. auto.
Qed.

Lemma other_byte x : 0 <= x < MAXFILE * BSIZE -> file_byte v' j x = file_byte v j x.
Proof.
  intros Hx. unfold file_byte. rewrite other_blk. destruct (Z.eqb_spec (blk_of v j (x / BSIZE)) 0) as [|Hne]; [done|].
  assert (0 <= x / BSIZE < MAXFILE) as Hb.
  { change MAXFILE with 140 in *. unfold BSIZE in *. Z.div_mod_to_equations. lia. }
  destruct (Hsame (blk_of v j (x / BSIZE))) as [-> _]; [by apply Hj | right; by eexists | done].
Qed.
End other.

Lemma written_other s start size off src v v' i i' j :
  volume s start size v -> written s start size off src v i v' i' -> separate v i j ->
  forall y, owned s v y -> of_file v j y -> v' y = v y /\ used s v' y = true.
Proof.
  intros Hvol Hw Hsep y Ho Hy. destruct (owned_range _ _ _ _ _ Hvol Ho) as [Hr _]. specialize (Hsep y ltac:(lia) Hy). split.
  - apply (wf_other _ _ _ _ _ _ _ _ _ Hw); [done | |].
    + intros E. apply Hsep. by left.
    + intros bn Hbn E. apply Hsep. right. by exists bn.
  - destruct Ho. apply (wf_used _ _ _ _ _ _ _ _ _ Hw); [lia | done].
Qed.


(** ** The blocks a transaction still has to log *)

Definition bitmap_blocks (s : superblock) : list Z := seqZ (sb_bmapstart s) (sb_size s / BPB + 1).
Definition missing (s : superblock) (blocks : list Z) : nat := length (filter (fun x => x ∉ blocks) (bitmap_blocks s)).

(** The blocks the log has, and those that allocation for the file may add
    besides the data blocks themselves: the bitmap and the indirect block. *)
Definition weight (s : superblock) (i : inode) (blocks : list Z) : nat :=
  length blocks + missing s blocks + (if decide (addr i NDIRECT <> 0 /\ addr i NDIRECT ∈ blocks) then 0 else 1).

Lemma absorb_length blk blocks : (length blocks <= length (absorb blk blocks) <= S (length blocks))%nat.
Proof. unfold absorb. case_decide; rewrite ?length_app; simpl; lia. Qed.

Lemma absorb_elem x blk blocks : x ∈ absorb blk blocks <-> x ∈ blocks \/ x = blk.
Proof.
  unfold absorb. case_decide; [|rewrite elem_of_app, list_elem_of_singleton; done].
  split; [by left | intros [| ->]; done].
Qed.

Lemma missing_absorb s x blocks : (missing s (absorb x blocks) <= missing s blocks)%nat.
Proof.
  unfold missing. apply submseteq_length, NoDup_submseteq; [apply list.NoDup_filter, NoDup_seqZ|].
  intros y [Hy Hin]%list_elem_of_filter. apply list_elem_of_filter. split; [|done]. intros Hb. apply Hy, absorb_elem. by left.
Qed.

Lemma missing_bitmap s x blocks :
  x ∈ bitmap_blocks s -> x ∉ blocks -> (S (missing s (absorb x blocks)) <= missing s blocks)%nat.
Proof.
  intros Hx Hn. unfold missing.
  change (length (x :: filter (fun y => y ∉ absorb x blocks) (bitmap_blocks s)) <=
    length (filter (fun y => y ∉ blocks) (bitmap_blocks s)))%nat.
  apply submseteq_length, NoDup_submseteq.
  - constructor; [|apply list.NoDup_filter, NoDup_seqZ]. intros [Hy _]%list_elem_of_filter. apply Hy, absorb_elem. by right.
  - intros y [->|[Hy Hin]%list_elem_of_filter]%elem_of_cons; apply list_elem_of_filter; split; try done.
    intros Hb. apply Hy, absorb_elem. by left.
Qed.

Lemma weight_length s i blocks : (length blocks <= weight s i blocks)%nat.
Proof. unfold weight. lia. Qed.

Lemma weight_absorb s i x blocks : (weight s i (absorb x blocks) <= S (weight s i blocks))%nat.
Proof.
  unfold weight. pose proof (missing_absorb s x blocks). pose proof (absorb_length x blocks).
  case_decide as E1; case_decide as E2; try lia. destruct E1. split; [tauto|]. apply absorb_elem. tauto.
Qed.

Lemma weight_bitmap s i x blocks : x ∈ bitmap_blocks s -> (weight s i (absorb x blocks) <= weight s i blocks)%nat.
Proof.
  intros Hx. destruct (decide (x ∈ blocks)) as [Hin|Hin].
  - unfold absorb. by rewrite decide_True by done.
  - pose proof (missing_bitmap s x blocks Hx Hin). unfold weight. pose proof (absorb_length x blocks).
    case_decide as E1; case_decide as E2; try lia. destruct E1. split; [tauto|]. apply absorb_elem. tauto.
Qed.

Lemma weight_ind s i i' blocks :
  addr i' NDIRECT = addr i NDIRECT \/ addr i NDIRECT = 0 -> addr i' NDIRECT <> 0 ->
  (weight s i' (absorb (addr i' NDIRECT) blocks) <= weight s i blocks)%nat.
Proof.
  intros Hi Hne. unfold weight. pose proof (missing_absorb s (addr i' NDIRECT) blocks).
  pose proof (absorb_length (addr i' NDIRECT) blocks). rewrite decide_True; [|split; [done|]; apply absorb_elem; by right].
  case_decide as E; [|lia]. destruct Hi as [Hi|Hi]; [|tauto]. rewrite <- Hi in E.
  unfold absorb. rewrite decide_True by tauto. lia.
Qed.

Lemma bitmap_blocks_elem s start size v x : volume s start size v -> 0 <= x < sb_size s -> BBLOCK x s ∈ bitmap_blocks s.
Proof.
  intros Hvol Hx. destruct (bitmap_block _ _ _ _ x Hvol Hx) as (_ & Hr & _). unfold data_start in Hr.
  apply elem_of_seqZ. lia.
Qed.
