(* ===== verification/Content.v ===== *)
(** fs.c: what the file system keeps in its blocks.  Inside a transaction of
    the log, [balloc] and [bfree] keep the bitmap, [bmap] gives a file its
    blocks, [readi] and [writei] read and write the bytes of the file and
    [itrunc] frees its blocks. *)

From S2P Require Import Prelude Ring Memory KString Kernel Spinlock Boot Proc Sleeplock Bio Cache Log Crash Fs Volume.

(** ** Inside a transaction *)

Section txn.
Context `{Machine} `{DevOps} (c p : nat).
#[local] Existing Instance memide.

(** The buffers in [held] are locked by the process, each with its block;
    [blocks] are the blocks the transaction has written. *)
Record txn (held : list (nat * Z)) (start : Z) (blocks : list Z) (k : kernel) : Prop := {
  tx_ok : cache_ok c p held.*1 k;
  tx_held : forall b blk, (b, blk) ∈ held -> exists bf, bcache k !! b = Some bf /\ holds blk bf = true /\
    0 <= blk < disksize k /\ (b_flags bf = PINNED \/ b_data bf = disk k blk);
  tx_log : log_at start blocks k;
  tx_region : region start blocks (disksize k);
  tx_pinned : forall x, pinned (bcache k) x <-> x ∈ blocks;
  tx_len : Z.of_nat (length (lh_block (klog k))) = LOGSIZE;
}.

(** What the operations on blocks leave alone. *)
Record kept (k k' : kernel) : Prop := {
  kp_icache : icache k' = icache k;
  kp_sb : sb k' = sb k;
  kp_size : disksize k' = disksize k;
  kp_disk : disk k' = disk k;
  kp_lsize : l_size (klog k') = l_size (klog k);
  kp_open : l_outstanding (klog k') = l_outstanding (klog k);
}.

Lemma kept_refl k : kept k k.
Proof. done. Qed.

Lemma kept_trans k1 k2 k3 : kept k1 k2 -> kept k2 k3 -> kept k1 k3.
Proof. intros [] []. split; congruence. Qed.

Lemma kept_frame k k' : frame p k k' -> disk k' = disk k -> kept k k'.
Proof. intros [El ? ? ? ? ? ?] Hd. split; try done; by rewrite El. Qed.

Lemma txn_mine held start blocks k b blk :
  txn held start blocks k -> (b, blk) ∈ held ->
  exists bf, mine p b bf k /\ b_blockno bf = blk /\ b_data bf = view k blk /\ b ∈ held.*1 /\
    (b_flags bf = PINNED \/ b_data bf = disk k (b_blockno bf)).
Proof.
  intros [Hok Hheld _ _ _ _] Hin. destruct (Hheld b blk Hin) as (bf & Hbf & Hh & Hr & Hc).
  pose proof (list_elem_of_fmap_2 fst _ _ Hin) as Hin'. simpl in Hin'. pose proof Hok as [_ _ [Hb Hu [_ Hlt]]].
  pose proof Hh as [Hd Hn]%holds_spec. destruct (Hb b bf (Hlt b Hin') Hbf) as [H1 H2 _ _ _].
  rewrite decide_True in H1 by done.
  assert (mine p b bf k) as Hm.
  { unfold mine. rewrite Hn. split_and!; [done | done | lia | lia | done | by apply H2]. }
  exists bf. split_and!; [done | done | | done | by rewrite Hn]. symmetry. apply (content_hit _ _ b); auto.
Qed.

(** Buffers that keep their contents stay held with their blocks. *)
Lemma held_keeps (held : list (nat * Z)) k k' :
  (forall b, b ∈ held.*1 -> core <$> bcache k' !! b = core <$> bcache k !! b) -> disk k' = disk k ->
  disksize k' = disksize k ->
  (forall b blk, (b, blk) ∈ held -> exists bf, bcache k !! b = Some bf /\ holds blk bf = true /\
    0 <= blk < disksize k /\ (b_flags bf = PINNED \/ b_data bf = disk k blk)) ->
  forall b blk, (b, blk) ∈ held -> exists bf, bcache k' !! b = Some bf /\ holds blk bf = true /\
    0 <= blk < disksize k' /\ (b_flags bf = PINNED \/ b_data bf = disk k' blk).
Proof.
  intros Hk Hd Hs Hheld b blk Hin. destruct (Hheld b blk Hin) as (bf & Hbf & Hh & Hr & Hc).
  pose proof (Hk b (list_elem_of_fmap_2 fst _ _ Hin)) as E. rewrite Hbf in E. simpl in E.
  destruct (bcache k' !! b) as [bf'|] eqn:Hbf'; [|done]. injection E as E1 E2 E3 E4 E5.
  exists bf'. rewrite Hd, Hs, E1, E5. split_and!; [done | | lia | lia | done].
  revert Hh. unfold holds. by rewrite E2, E3.
Qed.

Lemma txn_bread held start blocks blk k :
  txn held start blocks k -> 0 <= blk < disksize k -> (length held + length blocks < NBUF)%nat ->
  blk ∉ held.*2 ->
  wp (bread ROOTDEV blk) (fun b k' => txn ((b, blk) :: held) start blocks k' /\ kept k k' /\
    forall x, view k' x = view k x) k.
Proof.
  intros Ht Hblk Hroom Hnew. pose proof Ht as [Hok Hheld Hla Hrg Hp Hlen].
  eapply wp_mono; [apply (bread_spec c p held.*1 blk k Hok Hblk)|].
  - left. apply (spare_room c p held.*1 blocks k Hok); [|by rewrite length_fmap]. intros x Hx. by apply Hp.
  - intros b bf (y & -> & Hy)%list_elem_of_fmap Hbf E. destruct y as [b blk']. simpl in *.
    destruct (Hheld b blk' Hy) as (bf' & Hbf' & [_ Hn]%holds_spec & _). simplify_eq. apply Hnew.
    rewrite list_elem_of_fmap. by eexists (b, _).
  - intros b k' [Hok' Hnb (bf & Hm & Hn & Hd & Hpin & Hcl) Hv [Hdk _] Hp' Hf Hk]. split_and!; [|by apply kept_frame|done].
    pose proof (fr_size _ _ _ Hf) as Hs. pose proof (fr_log _ _ _ Hf) as El. split; rewrite ?El; try done.
    + intros b' blk' [E|Hin]%elem_of_cons; [simplify_eq|].
      * destruct (mine_inv c p _ b bf k' Hok' ltac:(left) Hm) as (_ & _ & Hfl & _).
        destruct Hm as (Hbf & Hdv & Hr & _). exists bf. rewrite Hdk. split_and!; [done | | lia | lia |].
        -- by apply holds_spec.
        -- destruct Hfl as [Hfl|Hfl]; [right; by apply Hcl | by left].
      * by apply (held_keeps held k k').
    + by eapply log_at_frame.
    + by rewrite Hs.
    + intros x. by rewrite Hp'.
Qed.

Lemma txn_brelse held start blocks b blk k :
  txn ((b, blk) :: held) start blocks k ->
  wp (brelse b) (fun _ k' => txn held start blocks k' /\ kept k k' /\ forall x, view k' x = view k x) k.
Proof.
  intros Ht. destruct (txn_mine _ _ _ _ b blk Ht ltac:(left)) as (bf & Hm & _ & _ & _ & Hc).
  pose proof Ht as [Hok Hheld Hla Hrg Hp Hlen]. simpl in Hok.
  eapply wp_mono; [by apply (brelse_spec c p held.*1 b bf k Hok Hm)|].
  intros _ k' [Hok' Hv [Hdk _] Hp' Hf Hk]. split_and!; [|by apply kept_frame|done].
  pose proof (fr_size _ _ _ Hf) as Hs. pose proof (fr_log _ _ _ Hf) as El. split; rewrite ?El; try done.
  - apply (held_keeps held k k'); try done. intros b' blk' Hin. apply Hheld. by right.
  - by eapply log_at_frame.
  - by rewrite Hs.
  - intros x. by rewrite Hp'.
Qed.

Lemma region_absorb start blk blocks size :
  region start blocks size -> 0 <= blk < size -> outside start blk -> (length (absorb blk blocks) < NBUF)%nat ->
  region start (absorb blk blocks) size.
Proof.
  intros [H1 H2 H3 H4 H5 H6] Hb Ho Hl. split; try done; unfold absorb in *; case_decide as Hin; try done.
  - apply list.NoDup_app. split_and!; [done | | apply NoDup_singleton]. intros x Hx ->%list_elem_of_singleton. done.
  - apply list.Forall_app. split; [done|]. by apply list.Forall_singleton.
Qed.

(** The write of a locked block: the buffer changes and the log takes it. *)
Lemma txn_write {B} held start blocks b blk f (m : M B) Q k :
  txn held start blocks k -> (b, blk) ∈ held -> outside start blk ->
  (length (absorb blk blocks) < NBUF)%nat -> Z.of_nat (length blocks) < l_size (klog k) - 1 ->
  1 <= l_outstanding (klog k) ->
  (forall k', txn held start (absorb blk blocks) k' -> kept k k' ->
    (forall x, view k' x = if x =? blk then f (view k blk) else view k x) -> wp m Q k') ->
  wp (set_buf b (upd_b_data f) ;; log_write b ;; m) Q k.
Proof.
  intros Ht Hin Hout Hroom Hsz Ho Hm. destruct (txn_mine _ _ _ _ b blk Ht Hin) as (bf & Hmn & Hn & Hd & Hb & Hc).
  pose proof Ht as [Hok Hheld Hla Hrg Hp Hlen].
  eapply wp_step; [by apply (store_spec c p held.*1 b bf f k)|].
  intros _ k1 [Hok1 (bf1 & Hm1 & Hn1 & Hd1 & Hfl1) Hv1 [Hdk1 _] Hp1 Hf1 Hk1].
  pose proof (fr_size _ _ _ Hf1) as Hs1. pose proof (fr_log _ _ _ Hf1) as El1.
  eapply wp_step; [apply (log_write_spec c p held.*1 start blocks b bf1 k1); rewrite ?El1, ?Hs1; try done;
    by eapply log_at_frame|].
  intros _ k2 [Hok2 (bf2 & Hm2 & Hn2 & Hd2 & Hfl2) Hv2 [Hdk2 _] Hp2 El2 Hla2 Hs2 Hi2 Hsb2 Hk2].
  rewrite Hn1, Hn in *. apply Hm.
  - split; try done.
    + intros b' blk' Hin'. destruct (decide (b' = b)) as [->|Hne].
      * assert (blk' = blk) as ->.
        { destruct (Hheld b blk' Hin') as (bf' & Hbf' & [_ <-]%holds_spec & _). destruct Hmn as (Hbf & _). congruence. }
        destruct Hm2 as (Hbf2 & Hdv2 & Hr2 & _). exists bf2. split_and!; [done | by apply holds_spec | lia | lia | by left].
      * destruct (Hheld b' blk' Hin') as (bf' & Hbf' & Hh & Hr & Hcl).
        pose proof (Hk2 b' Hne) as E. rewrite (Hk1 b' Hne), Hbf' in E. simpl in E.
        destruct (bcache k2 !! b') as [bf3|] eqn:Hbf3; [|done]. injection E as E1 E2 E3 E4 E5.
        exists bf3. rewrite Hdk2, Hdk1, Hs2, Hs1, E1, E5. split_and!; [done | | lia | lia | done].
        revert Hh. unfold holds. by rewrite E2, E3.
    + rewrite Hs2, Hs1. apply region_absorb; try done. destruct Hmn as (_ & _ & Hr & _). by rewrite Hn in Hr.
    + intros x. by rewrite Hp2, Hp1, Hp, absorb_elem.
    + rewrite El2, El1. unfold relog. destruct (_ =? _); simpl; by rewrite length_insert.
  - destruct Hf1 as [_ Esb Eic _ _ _ _ _]. split; try congruence;
      (rewrite El2, El1; unfold relog; by destruct (_ =? _)).
  - intros x. rewrite Hv2, Hv1, Hd. done.
Qed.

(** ** Reading a file *)

Lemma get_inode_eq n i k : icache k !! n = Some i -> get_inode (Some n) k = Ret i k.
Proof. intros Hi. unfold get_inode. simpl. by apply slot_eq. Qed.

Lemma get_addr_eq n i j k :
  icache k !! n = Some i -> length (i_addrs i) = 13%nat -> 0 <= j <= NDIRECT ->
  get_addr (Some n) j k = Ret (addr i j) k.
Proof.
  intros Hi Hl Hj. unfold get_addr. mcall (get_inode_eq n i). unfold NDIRECT in Hj.
  destruct (lookup_lt_is_Some_2 (i_addrs i) (Z.to_nat j)) as [a Ha]; [lia|].
  rewrite (elem_at_eq _ _ _ a) by (done || lia). f_equal. unfold addr. symmetry. by apply nth_lookup_Some.
Qed.

(** What the caller of an operation of fs.c sees when nothing is written. *)
Definition unchanged (start : Z) (blocks : list Z) (k k' : kernel) : Prop :=
  txn [] start blocks k' /\ kept k k' /\ forall x, view k' x = view k x.

Lemma unchanged_trans start blocks k1 k2 k3 :
  unchanged start blocks k1 k2 -> unchanged start blocks k2 k3 -> unchanged start blocks k1 k3.
Proof.
  intros (_ & Hk & Hv) (Ht & Hk' & Hv'). split_and!; [done | by eapply kept_trans|]. intros x. by rewrite Hv', Hv.
Qed.

Lemma get_buf_txn {B} held start blocks b blk (f : buf -> M B) Q k :
  txn held start blocks k -> (b, blk) ∈ held ->
  (forall bf, b_data bf = view k blk -> wp (f bf) Q k) -> wp (let* bf := get_buf b in f bf) Q k.
Proof.
  intros Ht Hin Hf. destruct (txn_mine _ _ _ _ _ _ Ht Hin) as (bf & (Hbf & _) & _ & Hd & _).
  apply wp_bind. eapply wp_Ret; [by apply get_buf_eq|]. by apply Hf.
Qed.

Lemma bmap_mapped s start blocks n i bn k :
  txn [] start blocks k -> icache k !! n = Some i -> i_dev i = ROOTDEV -> volume s start (disksize k) (view k) ->
  file_ok s (view k) i -> 0 <= bn < MAXFILE -> blk_of (view k) i bn <> 0 -> (length blocks < NBUF)%nat ->
  wp (bmap (Some n) bn) (fun a k' => a = blk_of (view k) i bn /\ unchanged start blocks k k') k.
Proof.
  intros Ht Hi Hdev Hvol Hfile Hbn Hblk Hroom. pose proof (fi_addrs _ _ _ Hfile) as Hl. unfold bmap.
  apply wp_bind. eapply wp_Ret; [by apply get_inode_eq|]. unfold blk_of in *. destruct (Z.ltb_spec bn NDIRECT).
  - apply wp_bind. eapply wp_Ret; [by apply (get_addr_eq n i); [done | done | lia]|].
    rewrite (proj2 (Z.eqb_neq _ _) Hblk). eapply wp_Ret; [done|]. split; [done|]. by split_and!.
  - unfold MAXFILE in *. rewrite (proj2 (Z.ltb_lt (bn - NDIRECT) NINDIRECT)) by lia.
    destruct (Z.eqb_spec (addr i NDIRECT) 0) as [|Hne]; [done|].
    apply wp_bind. eapply wp_Ret; [by apply (get_addr_eq n i)|].
    rewrite (proj2 (Z.eqb_neq _ _) Hne). apply wp_bind. eapply wp_Ret; [done|]. rewrite Hdev.
    destruct (owned_range _ _ _ _ _ Hvol (fi_ind _ _ _ Hfile Hne)) as [Hr _].
    eapply wp_step; [apply (txn_bread [] start blocks); [done | lia | done | apply not_elem_of_nil]|].
    intros b k1 (Ht1 & Hk1 & Hv1). eapply get_buf_txn; [done | left|]. intros bf ->. rewrite Hv1.
    rewrite (proj2 (Z.eqb_neq _ _) Hblk). apply wp_bind. eapply wp_Ret; [done|].
    eapply wp_step; [by eapply txn_brelse|]. intros _ k2 (Ht2 & Hk2 & Hv2). eapply wp_Ret; [done|].
    split; [done|]. split_and!; [done | by eapply kept_trans|]. intros x. by rewrite Hv2, Hv1.
Qed.

(** The blocks that bytes [tot] to [m - 1] after [off] lie in, and how a loop
    that goes from block to block counts them down. *)
Definition left_blocks (off m tot : Z) : nat :=
  Z.to_nat (if m <=? tot then 0 else (off + m - 1) / BSIZE - (off + tot) / BSIZE + 1).

Lemma left_step off m tot :
  let n := Z.min (m - tot) (BSIZE - (off + tot) mod BSIZE) in
  0 <= off -> 0 <= tot < m -> 0 < n <= m - tot /\ n <= BSIZE - (off + tot) mod BSIZE /\
  left_blocks off m tot = S (left_blocks off m (tot + n)).
Proof.
  intros n Hoff Htot. unfold left_blocks, BSIZE in *.
  pose proof (Z.mod_pos_bound (off + tot) 512 ltac:(lia)). split; [lia|]. split; [lia|].
  rewrite (proj2 (Z.leb_gt m tot)) by lia. destruct (Z.leb_spec m (tot + n)).
  - assert ((off + m - 1) / 512 = (off + tot) / 512) as ->; [|lia]. assert (n = m - tot) by lia.
    Z.div_mod_to_equations. lia.
  - assert (n = 512 - (off + tot) mod 512) by lia.
    assert ((off + (tot + n)) / 512 = (off + tot) / 512 + 1) by (Z.div_mod_to_equations; lia).
    assert ((off + (tot + n)) / 512 <= (off + m - 1) / 512) by (apply Z.div_le_mono; lia). lia.
Qed.

Lemma left_fuel off m : 0 <= off -> 0 <= m -> (left_blocks off m 0 < chunks m)%nat.
Proof.
  intros Hoff Hm. unfold left_blocks, chunks, BSIZE. destruct (Z.leb_spec m 0); [lia|].
  rewrite Z.add_0_r. assert ((off + m - 1) / 512 - off / 512 <= m / 512 + 1) by (Z.div_mod_to_equations; lia).
  assert (0 <= m / 512) by (apply Z.div_pos; lia). lia.
Qed.

(** The bytes [readi] returns when asked for [cnt] of them from [off] on. *)
Definition read_count (i : inode) (off cnt : Z) : Z := Z.min cnt (i_size i - off).

Lemma readi_spec s start blocks n i off cnt k :
  txn [] start blocks k -> icache k !! n = Some i -> i_dev i = ROOTDEV -> i_type i <> T_DEV ->
  volume s start (disksize k) (view k) -> file_ok s (view k) i -> full (view k) i ->
  0 <= off <= i_size i -> 0 <= cnt -> off + cnt < 2 ^ 32 -> (length blocks < NBUF)%nat ->
  wp (readi (Some n) off cnt) (fun r k' =>
    r = (read_count i off cnt, file_bytes (view k) i off (read_count i off cnt)) /\ unchanged start blocks k k') k.
Proof.
  intros Ht Hi Hdev Hty Hvol Hfile Hfull Hoff Hcnt Hsum Hroom. unfold readi.
  apply wp_bind. eapply wp_Ret; [by apply get_inode_eq|]. rewrite (proj2 (Z.eqb_neq _ _) Hty).
  rewrite (u32_small (off + cnt)) by lia. rewrite (proj2 (Z.ltb_ge (i_size i) off)) by lia.
  rewrite (proj2 (Z.ltb_ge (off + cnt) off)) by lia. cbn [orb].
  set (m := if i_size i <? off + cnt then _ else _). pose proof Hfull as [Hmax Hall].
  assert (m = read_count i off cnt) as Hm.
  { unfold m, read_count. change (MAXFILE * BSIZE) with 71680 in Hmax.
    destruct (Z.ltb_spec (i_size i) (off + cnt)); rewrite ?u32_small; lia. }
  clearbody m. subst m. set (m := read_count i off cnt) in *.
  assert (0 <= m <= cnt /\ off + m <= i_size i /\ m < 2 ^ 31) as (Hm0 & Hm1 & Hm2).
  { unfold m, read_count. change (MAXFILE * BSIZE) with 71680 in Hmax. lia. }
  apply (iter_wp _ (fun '(tot, o, acc) k' => unchanged start blocks k k' /\ 0 <= tot <= m /\ o = off + tot /\
      acc = file_bytes (view k) i off tot) (fun '(tot, _, _) => left_blocks off m tot));
    [|by apply Nat.lt_le_trans with (1 := left_fuel off m ltac:(lia) ltac:(lia)) | by split_and!; try lia].
  intros [[tot o] acc] k1 ((Ht1 & Hk1 & Hv1) & Htot & -> & ->). destruct (Z.ltb_spec tot m) as [Hlt|Hge].
  - destruct (left_step off m tot) as (Hc1 & Hc2 & Hleft); [lia | lia |]. set (w := Z.min _ _) in *.
    pose proof (kp_icache _ _ Hk1) as Hi1. rewrite <- Hi1 in Hi.
    assert (0 <= (off + tot) / BSIZE < MAXFILE /\ (off + tot) / BSIZE * BSIZE < i_size i) as [Hbn Hbs].
    { change MAXFILE with 140 in *. unfold BSIZE in *. Z.div_mod_to_equations. lia. }
    pose proof (Hall _ (proj1 Hbn) Hbs) as Hblk.
    eapply wp_step; [apply (bmap_mapped s start blocks n i); try done|].
    { rewrite (kp_size _ _ Hk1). by eapply volume_ext. }
    { by eapply file_ok_ext. }
    { by rewrite (blk_of_ext (view k)). }
    intros a k2 (-> & Ht2 & Hk2 & Hv2). pose proof (kp_icache _ _ Hk2) as Hi2. rewrite <- Hi2 in Hi.
    apply wp_bind. eapply wp_Ret; [by apply get_inode_eq|]. rewrite Hdev, (blk_of_ext (view k)) by done.
    set (a := blk_of (view k) i _) in *. destruct (fi_blk _ _ _ Hfile _ Hbn Hblk) as [Hown _].
    destruct (owned_range _ _ _ _ _ Hvol Hown) as [Hr _]. pose proof (kp_size _ _ (kept_trans _ _ _ Hk1 Hk2)) as Hs2.
    eapply wp_step; [apply (txn_bread [] start blocks a); [done | rewrite Hs2; lia | done | apply not_elem_of_nil]|].
    intros b k3 (Ht3 & Hk3 & Hv3). eapply get_buf_txn; [done | left|]. intros bf ->.
    eapply wp_step; [by eapply txn_brelse|]. intros _ k4 (Ht4 & Hk4 & Hv4).
    eapply wp_Ret; [done|]. split; [|lia]. split_and!; [split_and! | lia | lia | lia |]; try done.
    + by repeat (eapply kept_trans; [eassumption|]).
    + intros x. by rewrite Hv4, Hv3, Hv2, Hv1.
    + rewrite file_bytes_app by lia. f_equal. rewrite Hv3, Hv2, Hv1.
      apply file_chunk; try done; try lia. apply (vo_len _ _ _ _ Hvol). lia.
  - eapply wp_Ret; [done|]. assert (tot = m) as -> by lia. rewrite s32_small by lia. split; [done|]. by split_and!.
Qed.

(** ** Allocation of blocks *)

(** The log takes up to [N] blocks. *)
Definition cap (N : nat) (k : kernel) : Prop :=
  Z.of_nat N < l_size (klog k) - 1 /\ (N + 2 < NBUF)%nat /\ 1 <= l_outstanding (klog k).

Lemma cap_kept N k k' : kept k k' -> cap N k -> cap N k'.
Proof. intros [_ _ _ _ E1 E2]. unfold cap. by rewrite E1, E2. Qed.

Lemma txn_write_cap {B} held start blocks b blk f N (m : M B) Q k :
  txn held start blocks k -> (b, blk) ∈ held -> outside start blk -> cap N k -> (length (absorb blk blocks) <= N)%nat ->
  (forall k', txn held start (absorb blk blocks) k' -> kept k k' ->
    (forall x, view k' x = if x =? blk then f (view k blk) else view k x) -> wp m Q k') ->
  wp (set_buf b (upd_b_data f) ;; log_write b ;; m) Q k.
Proof.
  intros Ht Hin Hout (Hc1 & Hc2 & Hc3) Hl Hm. pose proof (absorb_length blk blocks).
  eapply txn_write; try done; lia.
Qed.

Lemma bzero_spec held start blocks blk N k :
  txn held start blocks k -> 0 <= blk < disksize k -> outside start blk -> blk ∉ held.*2 -> (length held <= 1)%nat ->
  cap N k -> (length (absorb blk blocks) <= N)%nat ->
  wp (bzero ROOTDEV blk) (fun _ k' => txn held start (absorb blk blocks) k' /\ kept k k' /\
    forall x, view k' x = if x =? blk then repeat 0 (Z.to_nat BSIZE) else view k x) k.
Proof.
  intros Ht Hr Hout Hnew Hh Hc Hl. unfold bzero. pose proof (absorb_length blk blocks). pose proof Hc as (_ & Hc2 & _).
  eapply wp_step; [apply (txn_bread held start blocks blk); try done; lia|]. intros b k1 (Ht1 & Hk1 & Hv1).
  eapply txn_write_cap; [exact Ht1 | left | done | by eapply cap_kept | done |]. intros k2 Ht2 Hk2 Hv2.
  eapply wp_mono; [by eapply txn_brelse|]. intros _ k3 (Ht3 & Hk3 & Hv3).
  split_and!; [done | by eapply kept_trans, kept_trans|]. intros x. by rewrite Hv3, Hv2, Hv1.
Qed.

Section balloc.
Context (s : superblock) (start : Z) (held : list (nat * Z)) (blocks : list Z) (N : nat) (k : kernel).
Hypothesis Ht : txn held start blocks k.
Hypothesis Hsb : sb k = s.
Hypothesis Hvol : volume s start (disksize k) (view k).
Hypothesis Hheld : Forall (owned s (view k)) held.*2.
Hypothesis Hh : (length held <= 1)%nat.
Hypothesis Hcap : cap N k.

(** The state in which the bitmap has been searched up to some block. *)
Definition searching (hd : list (nat * Z)) (k' : kernel) : Prop :=
  txn hd start blocks k' /\ kept k k' /\ forall x, view k' x = view k x.

Definition balloc_post (x : Z) (k' : kernel) : Prop :=
  data_start s <= x < sb_size s /\ used s (view k) x = false /\
  txn held start (absorb x (absorb (BBLOCK x s) blocks)) k' /\ kept k k' /\
  forall y, view k' y = allocated s x (view k) y.

Lemma balloc_take b x bi k' :
  x = b + bi -> 0 <= b -> b mod BPB = 0 -> 0 <= bi < BPB -> x < sb_size s -> used s (view k) x = false ->
  (forall x, 0 <= x < sb_size s -> used s (view k) x = false ->
    (length (absorb x (absorb (BBLOCK x s) blocks)) <= N)%nat) ->
  forall bp, searching ((bp, BBLOCK b s) :: held) k' ->
  wp (set_buf bp (upd_b_data (set_bit bi)) ;; log_write bp ;; brelse bp ;; bzero ROOTDEV x ;; ret (Some x))
    (fun r k' => match r with Some x => balloc_post x k' | None => False end) k'.
Proof.
  intros Ex Hb Hbm Hbi Hx Hu HN bp (Ht1 & Hk1 & Hv1).
  assert (x / BPB = b / BPB /\ x mod BPB = bi) as [Ed Em] by (unfold BPB, BSIZE in *; Z.div_mod_to_equations; lia).
  assert (BBLOCK b s = BBLOCK x s) as Eb by (unfold BBLOCK; by rewrite Ed).
  assert (data_start s <= x) as Hds.
  { destruct (Z.le_gt_cases (data_start s) x); [done|]. rewrite (vo_meta _ _ _ _ Hvol) in Hu; [done | lia]. }
  destruct (bitmap_block _ _ _ _ x Hvol ltac:(lia)) as (_ & Hbb & Hbr & Hbo). rewrite Eb in Ht1. specialize (HN x ltac:(lia) Hu).
  pose proof (absorb_length x (absorb (BBLOCK x s) blocks)).
  eapply txn_write_cap; [exact Ht1 | left | done | by eapply cap_kept | lia |]. intros k2 Ht2 Hk2 Hv2.
  eapply wp_step; [by eapply txn_brelse|]. intros _ k3 (Ht3 & Hk3 & Hv3).
  pose proof (kept_trans _ _ _ (kept_trans _ _ _ Hk1 Hk2) Hk3) as Hk13.
  destruct Hvol as [V1 V2 V3 V4 V5 V6 V7]. unfold outside in *.
  eapply wp_step; [apply (bzero_spec held start (absorb (BBLOCK x s) blocks) x N); try done; unfold outside; rewrite ?(kp_size _ _ Hk13); try lia|].
  { intros Hin. rewrite list.Forall_forall in Hheld. destruct (Hheld x Hin). congruence. }
  { by eapply cap_kept. }
  intros _ k4 (Ht4 & Hk4 & Hv4). eapply wp_Ret; [done|]. split_and!; try done; [by eapply kept_trans|].
  intros y. rewrite Hv4. unfold allocated. case_match; [done|]. rewrite Hv3, Hv2, !Hv1, Em.
  destruct (Z.eqb_spec y (BBLOCK x s)) as [->|]; done.
Qed.

Lemma balloc_search b bp k1 :
  0 <= b -> b mod BPB = 0 -> searching ((bp, BBLOCK b s) :: held) k1 ->
  (forall x, 0 <= x < sb_size s -> used s (view k) x = false ->
    (length (absorb x (absorb (BBLOCK x s) blocks)) <= N)%nat) ->
  wp (for_find (seqZ 0 BPB) (fun bi =>
        if negb (b + bi <? sb_size s) then ret None else
        let* bf := get_buf bp in
        if negb (bit_set (b_data bf) bi) then
          set_buf bp (upd_b_data (set_bit bi)) ;;
          log_write bp ;;
          brelse bp ;;
          bzero ROOTDEV (b + bi) ;;
          ret (Some (b + bi))
        else ret None))
    (fun r k' => match r with
      | Some x => balloc_post x k'
      | None => searching ((bp, BBLOCK b s) :: held) k' /\
          Forall (fun bi => b + bi < sb_size s -> used s (view k) (b + bi) = true) (seqZ 0 BPB)
      end) k1.
Proof.
  intros Hb Hbm Hs HN. apply (for_find_wp _ _ (fun pre k' => searching ((bp, BBLOCK b s) :: held) k' /\
    Forall (fun bi => b + bi < sb_size s -> used s (view k) (b + bi) = true) pre)); [|by split].
  clear k1 Hs. intros pre bi post k1 E [Hs Hall]. assert (bi ∈ seqZ 0 BPB) as Hbi%elem_of_seqZ.
  { rewrite E. apply elem_of_app. right. left. }
  assert (used s (view k) (b + bi) = bit_set (view k (BBLOCK b s)) bi) as Eu.
  { unfold used, BBLOCK. assert ((b + bi) / BPB = b / BPB /\ (b + bi) mod BPB = bi) as [-> ->];
      [unfold BPB, BSIZE in *; Z.div_mod_to_equations; lia | done]. }
  pose proof Hs as (Ht1 & Hk1 & Hv1). destruct (Z.ltb_spec (b + bi) (sb_size s)); cbn [negb].
  - eapply get_buf_txn; [done | left|]. intros bf ->. rewrite Hv1. destruct (bit_set _ bi) eqn:Hbit; cbn [negb].
    + eapply wp_Ret; [done|]. split; [done|]. apply list.Forall_app. split; [done|]. by apply list.Forall_singleton.
    + eapply wp_mono; [apply (balloc_take b (b + bi) bi); try done; lia|]. by intros [x|] k' Hp.
  - eapply wp_Ret; [done|]. split; [done|]. apply list.Forall_app. split; [done|]. apply list.Forall_singleton. lia.
Qed.

Lemma balloc_spec :
  (exists x, 0 <= x < sb_size s /\ used s (view k) x = false) ->
  (forall x, 0 <= x < sb_size s -> used s (view k) x = false ->
    (length (absorb x (absorb (BBLOCK x s) blocks)) <= N)%nat) ->
  wp (balloc ROOTDEV) balloc_post k.
Proof.
  intros (x0 & Hx0 & Hu0) HN. unfold balloc. apply wp_gets. rewrite Hsb. pose proof Hvol as [V1 V2 V3 V4 V5 V6 V7].
  apply (iter_wp _ (fun b k' => searching held k' /\ 0 <= b /\ b mod BPB = 0 /\
      forall x, 0 <= x < sb_size s -> x < b -> used s (view k) x = true)
    (fun b => Z.to_nat (sb_size s / BPB + 1 - b / BPB))).
  - intros b k1 ((Ht1 & Hk1 & Hv1) & Hb & Hbm & Hall). apply wp_gets. rewrite (kp_sb _ _ Hk1), Hsb.
    assert (b < sb_size s) as Hlt.
    { destruct (Z.lt_ge_cases b (sb_size s)); [done|]. rewrite Hall in Hu0; [done | lia | lia]. }
    rewrite (proj2 (Z.ltb_lt _ _) Hlt). destruct (bitmap_block _ _ _ _ b Hvol ltac:(lia)) as (_ & Hbb & Hbr & Hbo).
    destruct Hcap as (_ & Hc2 & _).
    assert (length blocks <= N)%nat.
    { pose proof (HN x0 Hx0 Hu0). pose proof (absorb_length x0 (absorb (BBLOCK x0 s) blocks)).
      pose proof (absorb_length (BBLOCK x0 s) blocks). lia. }
    eapply wp_step; [apply (txn_bread held start blocks (BBLOCK b s)); rewrite ?(kp_size _ _ Hk1); try done; try lia|].
    { intros Hin. rewrite list.Forall_forall in Hheld. destruct (Hheld _ Hin). lia. }
    intros bp k2 (Ht2 & Hk2 & Hv2). assert (searching ((bp, BBLOCK b s) :: held) k2) as Hs2.
    { split_and!; [done | by eapply kept_trans|]. intros x. by rewrite Hv2, Hv1. }
    eapply wp_step; [by apply balloc_search|]. intros [x|] k3 Hr; cbn beta iota in Hr.
    + by eapply wp_Ret.
    + destruct Hr as [(Ht3 & Hk3 & Hv3) Hno]. eapply wp_step; [by eapply txn_brelse|].
      intros _ k4 (Ht4 & Hk4 & Hv4). eapply wp_Ret; [done|]. rewrite list.Forall_forall in Hno.
      assert ((b + BPB) / BPB = b / BPB + 1) as Ed by (unfold BPB, BSIZE in *; Z.div_mod_to_equations; lia).
      split; [split_and!|].
      * split_and!; [done | by eapply kept_trans|]. intros x. by rewrite Hv4, Hv3.
      * unfold BPB, BSIZE in *. lia.
      * unfold BPB, BSIZE in *. Z.div_mod_to_equations. lia.
      * intros x Hx Hxb. destruct (Z.lt_ge_cases x b); [by apply Hall|].
        replace x with (b + (x - b)) by lia. apply Hno; [apply elem_of_seqZ|]; lia.
      * rewrite Ed. assert (b / BPB <= sb_size s / BPB) by (apply Z.div_le_mono; [done | lia]). lia.
  - assert (0 <= sb_size s / BPB) by (apply Z.div_pos; unfold BPB, BSIZE, data_start, LOGSIZE, MAXOPBLOCKS in *; lia).
    rewrite Z.div_0_l by done. lia.
  - split_and!; try done. intros x Hx. lia.
Qed.
End balloc.

(** ** Freeing blocks *)

Lemma bfree_spec s held start blocks x N k :
  txn held start blocks k -> sb k = s -> volume s start (disksize k) (view k) -> 0 <= x < sb_size s ->
  used s (view k) x = true -> Forall (fun y => data_start s <= y) held.*2 -> (length held <= 1)%nat -> cap N k ->
  (length (absorb (BBLOCK x s) blocks) <= N)%nat ->
  wp (bfree ROOTDEV x) (fun _ k' => txn held start (absorb (BBLOCK x s) blocks) k' /\ kept k k' /\
    forall y, view k' y = freed s x (view k) y) k.
Proof.
  intros Ht Hsb Hvol Hx Hu Hheld Hh Hcap Hl. destruct (bitmap_block _ _ _ _ x Hvol Hx) as (_ & Hbr & Hr & Hout).
  pose proof (absorb_length (BBLOCK x s) blocks). pose proof Hcap as (_ & Hc2 & _). unfold bfree. apply wp_gets. rewrite Hsb.
  eapply wp_step; [apply (txn_bread held start blocks (BBLOCK x s)); try done; try lia|].
  { intros Hin. rewrite list.Forall_forall in Hheld. specialize (Hheld _ Hin). simpl in Hheld. lia. }
  intros b k1 (Ht1 & Hk1 & Hv1). eapply get_buf_txn; [exact Ht1 | left|]. intros bf ->. rewrite Hv1.
  unfold used in Hu. rewrite Hu. cbn [negb].
  eapply txn_write_cap; [exact Ht1 | left | done | by eapply cap_kept | done |]. intros k2 Ht2 Hk2 Hv2.
  eapply wp_mono; [by eapply txn_brelse|]. intros _ k3 (Ht3 & Hk3 & Hv3).
  split_and!; [done | by eapply kept_trans, kept_trans|]. intros y. rewrite Hv3, Hv2, !Hv1. unfold freed.
  by destruct (Z.eqb_spec y (BBLOCK x s)) as [->|].
Qed.

Lemma bfree_free s start blocks x N k :
  txn [] start blocks k -> sb k = s -> volume s start (disksize k) (view k) -> 0 <= x < sb_size s ->
  used s (view k) x = false -> cap N k -> (length blocks <= N)%nat ->
  exists k', bfree ROOTDEV x k = Panic "freeing free block" k'.
Proof.
  intros Ht Hsb Hvol Hx Hu Hcap Hl. destruct (bitmap_block _ _ _ _ x Hvol Hx) as (_ & Hbr & Hr & Hout).
  pose proof Hcap as (_ & Hc2 & _). unfold bfree. rewrite bind_gets, Hsb.
  destruct (txn_bread [] start blocks (BBLOCK x s) k) as (b & k1 & Hrun & Ht1 & Hk1 & Hv1);
    [done | lia | simpl; lia | apply not_elem_of_nil|].
  exists k1. unfold bind at 1. rewrite Hrun.
  destruct (txn_mine _ _ _ _ b _ Ht1 ltac:(left)) as (bf & (Hbf & _) & _ & Hd & _).
  unfold bind at 1. rewrite (get_buf_eq b bf) by done. rewrite Hd, Hv1. unfold used in Hu. rewrite Hu. done.
Qed.

(** ** The blocks of a file *)

(** What is left alone when inodes change too. *)
Record steady (k k' : kernel) : Prop := {
  sy_sb : sb k' = sb k;
  sy_size : disksize k' = disksize k;
  sy_disk : disk k' = disk k;
  sy_lsize : l_size (klog k') = l_size (klog k);
  sy_open : l_outstanding (klog k') = l_outstanding (klog k);
}.

Lemma kept_steady k k' : kept k k' -> steady k k'.
Proof. intros []. by split. Qed.

Lemma steady_trans k1 k2 k3 : steady k1 k2 -> steady k2 k3 -> steady k1 k3.
Proof. intros [] []. split; congruence. Qed.

Lemma cap_steady N k k' : steady k k' -> cap N k -> cap N k'.
Proof. intros [_ _ _ E1 E2]. unfold cap. by rewrite E1, E2. Qed.

Definition ind_need (i : inode) : nat := if addr i NDIRECT =? 0 then 1 else 0.

(** The file in slot [n] of the inode cache got at most [d] blocks, besides
    its indirect block. *)
Record fstep (s : superblock) (start : Z) (n d : nat) (k : kernel) (i : inode) (k' : kernel) (i' : inode) : Prop := {
  fs_inode : i' = upd_i_addrs (fun _ => i_addrs i') i;
  fs_icache : icache k' = <[n := i']> (icache k);
  fs_steady : steady k k';
  fs_grown : grown s start (disksize k) (view k) i (view k') i';
  fs_free : (length (free_blocks s (view k)) + ind_need i' <= d + length (free_blocks s (view k')) + ind_need i)%nat;
}.

Lemma fstep_trans s start n d1 d2 k1 i1 k2 i2 k3 i3 :
  volume s start (disksize k1) (view k1) ->
  fstep s start n d1 k1 i1 k2 i2 -> fstep s start n d2 k2 i2 k3 i3 -> fstep s start n (d1 + d2) k1 i1 k3 i3.
Proof.
  intros Hvol [A1 A2 A3 A4 A5] [B1 B2 B3 B4 B5]. split.
  - rewrite B1, A1. done.
  - by rewrite B2, A2, list_insert_insert_eq.
  - by eapply steady_trans.
  - rewrite (sy_size _ _ A3) in B4. by eapply grown_trans.
  - lia.
Qed.

(** Nothing is written: the file stays as it is. *)
Lemma fstep_kept s start n k i k' :
  volume s start (disksize k) (view k) -> file_ok s (view k) i -> icache k !! n = Some i ->
  kept k k' -> (forall y, view k' y = view k y) -> fstep s start n 0 k i k' i.
Proof.
  intros Hvol Hf Hi Hk Hv. split.
  - by destruct i.
  - by rewrite (kp_icache _ _ Hk), list_insert_id.
  - by apply kept_steady.
  - by apply grown_refl.
  - rewrite (free_count_used s (view k) (view k')); [lia|]. intros y _. by apply used_ext.
Qed.

Lemma txn_icache held start blocks f k : txn held start blocks k -> txn held start blocks (upd_icache f k).
Proof.
  intros [[Hq Hr Hinv] H2 [L1 L2 L3 L4] H4 H5 H6]. by split.
Qed.

Lemma set_addr_eq n j a i k :
  icache k !! n = Some i -> length (i_addrs i) = 13%nat -> 0 <= j <= NDIRECT ->
  set_addr (Some n) j a k = Ret tt (upd_icache (fun l => <[n := upd_i_addrs (fun l => <[Z.to_nat j := a]> l) i]> l) k).
Proof.
  intros Hi Hl Hj. unfold set_addr, set_inode, deref. mcall (get_inode_eq n i).
  rewrite bind_in_array by (unfold NDIRECT in Hj; lia). mrun. rewrite put_slot_eq by in_table.
  f_equal. kernel_eq. by apply list_alter_insert.
Qed.

(** One allocation for the file in slot [n]. *)
Section bmap.
Context (s : superblock) (start : Z) (n : nat) (N : nat).

(** What [bmap] and its parts start from. *)
Record ready (held : list (nat * Z)) (k : kernel) (i : inode) (blocks : list Z) : Prop := {
  rd_txn : txn held start blocks k;
  rd_sb : sb k = s;
  rd_vol : volume s start (disksize k) (view k);
  rd_file : file_ok s (view k) i;
  rd_slot : icache k !! n = Some i;
  rd_cap : cap N k;
}.

Lemma ready_step held d k i k' i' blocks held' blocks' :
  ready held k i blocks -> fstep s start n d k i k' i' -> txn held' start blocks' k' -> ready held' k' i' blocks'.
Proof.
  intros [A1 A2 A3 A4 A5 A6] [B1 B2 B3 B4 B5] Ht. split; try done.
  - by rewrite (sy_sb _ _ B3).
  - rewrite (sy_size _ _ B3). apply B4.
  - apply B4.
  - rewrite B2. apply list_lookup_insert_eq. by eapply lookup_lt_Some.
  - by eapply cap_steady.
Qed.

(** [balloc] for the file: the block, and the log with it. *)
Lemma balloc_ready held k i blocks :
  ready held k i blocks -> Forall (owned s (view k)) held.*2 -> (length held <= 1)%nat ->
  (weight s i blocks < N)%nat -> (0 < length (free_blocks s (view k)))%nat ->
  wp (balloc ROOTDEV) (fun x k' => fresh_block s (view k) x /\
    txn held start (absorb x (absorb (BBLOCK x s) blocks)) k' /\ kept k k' /\
    (forall y, view k' y = allocated s x (view k) y) /\
    length (free_blocks s (view k)) = S (length (free_blocks s (view k'))) /\
    forall j, (weight s j (absorb (BBLOCK x s) blocks) <= weight s j blocks)%nat) k.
Proof.
  intros [Ht Hsb Hvol Hfile Hi Hcap] Hheld Hh Hw Hfree. pose proof (data_start_pos _ _ _ _ Hvol) as Hpos.
  assert (forall x, 0 <= x < sb_size s -> forall j, (weight s j (absorb (BBLOCK x s) blocks) <= weight s j blocks)%nat) as Hbm.
  { intros x Hx j. apply weight_bitmap. by eapply bitmap_blocks_elem. }
  eapply wp_mono; [apply (balloc_spec s start held blocks N k); try done|].
  - destruct (free_blocks s (view k)) as [|x l] eqn:E; [simpl in Hfree; lia|]. exists x. apply free_blocks_elem. rewrite E. left.
  - intros x Hx _. pose proof (Hbm x Hx i). pose proof (weight_length s i (absorb (BBLOCK x s) blocks)).
    pose proof (absorb_length x (absorb (BBLOCK x s) blocks)). lia.
  - intros x k' (Hr & Hu & Ht' & Hk & Hv). split_and!; try done.
    + apply (free_blocks_take s _ _ x); [lia | done|]. intros y Hy.
      rewrite (used_ext s (allocated s x (view k))) by done. by apply (allocated_used s start (disksize k)).
    + intros j. apply Hbm. lia.
Qed.
Definition bmap_post (bn : Z) (k : kernel) (i : inode) (blocks : list Z) (a : Z) (k' : kernel) : Prop :=
  exists i' blocks', fstep s start n 1 k i k' i' /\ txn [] start blocks' k' /\ a = blk_of (view k') i' bn /\ a <> 0 /\
    (weight s i' (absorb a blocks') <= S (weight s i blocks))%nat /\ (blk_of (view k) i bn <> 0 -> i' = i).

Lemma fstep_weaken d d' k i k' i' : (d <= d')%nat -> fstep s start n d k i k' i' -> fstep s start n d' k i k' i'.
Proof. intros Hd [? ? ? ? ?]. split; try done. lia. Qed.

(** Nothing to allocate. *)
Lemma bmap_post_kept bn k i blocks k' :
  ready [] k i blocks -> kept k k' -> (forall y, view k' y = view k y) -> txn [] start blocks k' ->
  blk_of (view k) i bn <> 0 -> bmap_post bn k i blocks (blk_of (view k) i bn) k'.
Proof.
  intros [Ht Hsb Hvol Hfile Hi Hcap] Hk Hv Ht' Hne. exists i, blocks. split_and!; try done.
  - apply (fstep_weaken 0); [lia|]. by apply fstep_kept.
  - symmetry. by apply blk_of_ext.
  - apply weight_absorb.
Qed.

(** The block [x] goes to place [j] of the inode. *)
Lemma fstep_addr held j x k i blocks k1 :
  ready held k i blocks -> kept k k1 -> length (free_blocks s (view k)) = S (length (free_blocks s (view k1))) ->
  0 <= j <= NDIRECT -> x <> 0 -> addr i j = 0 ->
  let i' := upd_i_addrs (fun l => <[Z.to_nat j := x]> l) i in
  let k' := upd_icache (fun l => <[n := i']> l) k1 in
  grown s start (disksize k) (view k) i (view k1) i' ->
  set_addr (Some n) j x k1 = Ret tt k' /\ fstep s start n (if j =? NDIRECT then 0 else 1) k i k' i'.
Proof.
  intros [Ht Hsb Hvol Hfile Hi Hcap] Hk Hfree Hj Hx Ha i' k' Hg. split.
  - apply set_addr_eq; [by rewrite (kp_icache _ _ Hk) | by apply (fi_addrs _ _ _ Hfile) | done].
  - split; [done | | | done |].
    + unfold k'. simpl. by rewrite (kp_icache _ _ Hk).
    + destruct Hk. by split.
    + change (view k') with (view k1). unfold ind_need, i'. unfold NDIRECT in Hj.
      rewrite addr_insert by (unfold NDIRECT; try lia; by apply (fi_addrs _ _ _ Hfile)). rewrite (Z.eqb_sym NDIRECT j).
      destruct (Z.eqb_spec j NDIRECT) as [->|]; [|lia]. rewrite Ha, (proj2 (Z.eqb_neq _ _) Hx). simpl. lia.
Qed.

Lemma absorb_some x l : absorb x l <> [].
Proof. unfold absorb. case_decide as E; [|by destruct l]. by destruct l; [apply not_elem_of_nil in E|]. Qed.

Lemma absorb_idem x l : x ∈ l -> absorb x l = l.
Proof. intros Hx. unfold absorb. by rewrite decide_True. Qed.

Lemma weight_addr i i' blocks : addr i' NDIRECT = addr i NDIRECT -> weight s i' blocks = weight s i blocks.
Proof. intros E. unfold weight. by rewrite E. Qed.

Lemma bmap_direct bn k i blocks :
  ready [] k i blocks -> 0 <= bn < NDIRECT -> (weight s i blocks < N)%nat ->
  (blk_of (view k) i bn = 0 -> (0 < length (free_blocks s (view k)))%nat) ->
  wp (let* a := get_addr (Some n) bn in
      if a =? 0 then let* a := balloc ROOTDEV in set_addr (Some n) bn a ;; ret a else ret a)
    (bmap_post bn k i blocks) k.
Proof.
  intros Hrd Hbn Hw Hfree. pose proof Hrd as [Ht Hsb Hvol Hfile Hi Hcap].
  assert (blk_of (view k) i bn = addr i bn) as Eb.
  { unfold blk_of. by rewrite (proj2 (Z.ltb_lt _ _)) by lia. }
  apply wp_bind. eapply wp_Ret; [apply (get_addr_eq n i); [done | by apply (fi_addrs _ _ _ Hfile) | lia]|].
  destruct (Z.eqb_spec (addr i bn) 0) as [E|E].
  - eapply wp_step; [apply (balloc_ready [] k i blocks); [done | constructor | simpl; lia | done | apply Hfree; congruence]|].
    intros x k1 (Hx & Ht1 & Hk1 & Hv1 & Hf1 & Hw1). pose proof (data_start_pos _ _ _ _ Hvol) as Hpos.
    pose proof (grow_direct _ _ _ _ (view k1) _ _ Hvol Hfile Hx bn Hbn E Hv1) as Hg.
    destruct (fstep_addr [] bn x k i blocks k1 Hrd Hk1 Hf1) as [Hrun Hst]; [lia | destruct Hx; lia | done | done|].
    set (i' := upd_i_addrs _ i) in *. set (k' := upd_icache _ k1) in *.
    assert (blk_of (view k') i' bn = x) as Ex.
    { unfold blk_of, i'. rewrite (proj2 (Z.ltb_lt _ _)) by lia. unfold NDIRECT in Hbn.
      rewrite addr_insert by (try lia; by apply (fi_addrs _ _ _ Hfile)). by rewrite Z.eqb_refl. }
    apply wp_bind. eapply wp_Ret; [exact Hrun|]. eapply wp_Ret; [done|].
    exists i', (absorb x (absorb (BBLOCK x s) blocks)). split_and!; try done.
    + by rewrite (proj2 (Z.eqb_neq bn NDIRECT)) in Hst by lia.
    + by apply txn_icache.
    + destruct Hx. lia.
    + rewrite absorb_idem by (apply absorb_elem; by right). etransitivity; [apply weight_absorb|].
      rewrite (weight_addr i i'); [specialize (Hw1 i); lia|]. unfold i'. unfold NDIRECT in *.
      rewrite addr_insert by (try lia; by apply (fi_addrs _ _ _ Hfile)). by rewrite (proj2 (Z.eqb_neq _ _)) by lia.
    + congruence.
  - eapply wp_Ret; [done|]. rewrite <- Eb in *. by apply bmap_post_kept.
Qed.

(** The indirect block, allocated when the file has none. *)
Lemma bmap_ind k i blocks :
  ready [] k i blocks -> (weight s i blocks < N)%nat ->
  (addr i NDIRECT = 0 -> (0 < length (free_blocks s (view k)))%nat) ->
  wp (let* a := get_addr (Some n) NDIRECT in
      if a =? 0 then let* a := balloc ROOTDEV in set_addr (Some n) NDIRECT a ;; ret a else ret a)
    (fun a k' => exists i' blocks', fstep s start n 0 k i k' i' /\ txn [] start blocks' k' /\
      a = addr i' NDIRECT /\ a <> 0 /\ (weight s i' blocks' <= weight s i blocks)%nat /\
      (addr i NDIRECT <> 0 -> i' = i)) k.
Proof.
  intros Hrd Hw Hfree. pose proof Hrd as [Ht Hsb Hvol Hfile Hi Hcap].
  apply wp_bind. eapply wp_Ret; [apply (get_addr_eq n i); [done | by apply (fi_addrs _ _ _ Hfile) | done]|].
  destruct (Z.eqb_spec (addr i NDIRECT) 0) as [E|E].
  - eapply wp_step; [apply (balloc_ready [] k i blocks); [done | constructor | simpl; lia | done | by apply Hfree]|].
    intros x k1 (Hx & Ht1 & Hk1 & Hv1 & Hf1 & Hw1). pose proof (data_start_pos _ _ _ _ Hvol) as Hpos.
    pose proof (grow_indirect _ _ _ _ (view k1) _ _ Hvol Hfile Hx E Hv1) as Hg. assert (x <> 0) as Hx0 by (destruct Hx; lia).
    destruct (fstep_addr [] NDIRECT x k i blocks k1 Hrd Hk1 Hf1) as [Hrun Hst]; try done.
    set (i' := upd_i_addrs _ i) in *. set (k' := upd_icache _ k1) in *.
    assert (addr i' NDIRECT = x) as Ex.
    { unfold i'. rewrite addr_insert by (try done; by apply (fi_addrs _ _ _ Hfile)). by rewrite Z.eqb_refl. }
    apply wp_bind. eapply wp_Ret; [exact Hrun|]. eapply wp_Ret; [done|].
    exists i', (absorb x (absorb (BBLOCK x s) blocks)). split_and!; try done.
    + by apply txn_icache.
    + rewrite <- Ex. etransitivity; [apply (weight_ind s i)|]; [by right | congruence | rewrite Ex; apply Hw1].
  - eapply wp_Ret; [done|]. exists i, blocks. split_and!; try done. by apply fstep_kept.
Qed.

(** The entry of a block in the indirect block. *)
Lemma bmap_entry_new bn x k i blocks blocks' k' :
  ready [] k i blocks -> NDIRECT <= bn < MAXFILE -> addr i NDIRECT <> 0 -> blk_of (view k) i bn = 0 ->
  fresh_block s (view k) x -> kept k k' -> txn [] start blocks' k' -> x ∈ blocks' ->
  (weight s i blocks' <= S (weight s i blocks))%nat ->
  (forall y, view k' y = if y =? addr i NDIRECT
     then put_word (4 * Z.to_nat (bn - NDIRECT)) x (view k (addr i NDIRECT)) else allocated s x (view k) y) ->
  bmap_post bn k i blocks x k'.
Proof.
  intros [Ht Hsb Hvol Hfile Hi Hcap] Hbn Ha Hb0 Hx Hk Ht' Hin Hw Hv. pose proof (data_start_pos _ _ _ _ Hvol) as Hpos.
  pose proof (grow_entry s start (disksize k) (view k) (view k') i x Hvol Hfile Hx bn Hbn Ha Hb0 Hv) as Hg.
  assert (forall y, 0 <= y < sb_size s -> used s (view k') y = (y =? x) || used s (view k) y) as Hu.
  { intros y Hy. by eapply (grow_entry_used s start (disksize k) (view k) (view k') i x). }
  destruct (owned_range _ _ _ _ _ Hvol (fi_ind _ _ _ Hfile Ha)) as [Hir _]. pose proof Hx as [Hxr Hxu].
  exists i, blocks'. split_and!; try done; [| |lia | by rewrite absorb_idem].
  - split; [by destruct i | by rewrite (kp_icache _ _ Hk), list_insert_id | by apply kept_steady | done |].
    pose proof (free_blocks_take s (view k) (view k') x ltac:(lia) Hxu Hu). lia.
  - unfold blk_of. rewrite (proj2 (Z.ltb_ge _ _)) by lia. rewrite (proj2 (Z.eqb_neq _ _) Ha), Hv, Z.eqb_refl.
    pose proof (vo_size _ _ _ _ Hvol). rewrite word_at_put; [symmetry; apply u32_small; lia|]. rewrite (vo_len _ _ _ _ Hvol) by lia.
    change MAXFILE with 140 in *. unfold NDIRECT, BSIZE in *. lia.
Qed.

Lemma bmap_entry bn k i blocks :
  ready [] k i blocks -> NDIRECT <= bn < MAXFILE -> addr i NDIRECT <> 0 -> (weight s i blocks < N)%nat ->
  (blk_of (view k) i bn = 0 -> (0 < length (free_blocks s (view k)))%nat) ->
  wp (let* bp := bread ROOTDEV (addr i NDIRECT) in
      let* bf := get_buf bp in
      let addr := word_at (b_data bf) (4 * Z.to_nat (bn - NDIRECT)) in
      let* addr := (if addr =? 0 then
                      let* addr := balloc ROOTDEV in
                      set_buf bp (upd_b_data (put_word (4 * Z.to_nat (bn - NDIRECT)) addr)) ;;
                      log_write bp ;;
                      ret addr
                    else ret addr) in
      brelse bp ;;
      ret addr)
    (bmap_post bn k i blocks) k.
Proof.
  intros Hrd Hbn Hne Hw Hfree. pose proof Hrd as [Ht Hsb Hvol Hfile Hi Hcap]. pose proof Hcap as (_ & Hc2 & _).
  pose proof (weight_length s i blocks) as Hwl. pose proof (fi_ind _ _ _ Hfile Hne) as Hio.
  destruct (owned_range _ _ _ _ _ Hvol Hio) as [Hir Hiout]. set (ind := addr i NDIRECT) in *.
  assert (forall v, blk_of v i bn = word_at (v ind) (4 * Z.to_nat (bn - NDIRECT))) as Eb.
  { intros v. unfold blk_of. rewrite (proj2 (Z.ltb_ge _ _)) by lia. fold ind. by rewrite (proj2 (Z.eqb_neq _ _) Hne). }
  eapply wp_step; [apply (txn_bread [] start blocks ind); simpl; [done | lia | lia | apply not_elem_of_nil]|].
  intros b k1 (Ht1 & Hk1 & Hv1). eapply get_buf_txn; [exact Ht1 | left|]. intros bf ->. rewrite Hv1. cbv zeta.
  rewrite <- Eb. destruct (Z.eqb_spec (blk_of (view k) i bn) 0) as [E0|E0].
  - pose proof (fstep_kept s start n k i k1 Hvol Hfile Hi Hk1 Hv1) as Hst1.
    pose proof (ready_step [] 0 k i k1 i blocks _ blocks Hrd Hst1 Ht1) as Hrd1.
    apply wp_bind. rewrite <- (free_count_used s (view k) (view k1)) in Hfree by (intros; by apply used_ext).
    eapply wp_step; [apply (balloc_ready [(b, ind)] k1 i blocks Hrd1); simpl; try lia|].
    { apply list.Forall_singleton. destruct Hio as [Hr Hu]. split; [done|]. by rewrite (used_ext s (view k)). }
    intros x k2 (Hx & Ht2 & Hk2 & Hv2 & Hf2 & Hw2). set (bl := absorb x _) in *.
    assert (weight s i (absorb ind bl) <= S (weight s i blocks))%nat as Hw3.
    { etransitivity; [apply (weight_ind s i i); [by left | done]|]. etransitivity; [apply weight_absorb|].
      specialize (Hw2 i). lia. }
    eapply txn_write_cap; [exact Ht2 | left | done | by eapply cap_kept, cap_kept | |].
    { pose proof (weight_length s i (absorb ind bl)). lia. }
    intros k3 Ht3 Hk3 Hv3. eapply wp_Ret; [done|]. eapply wp_step; [by eapply txn_brelse|].
    intros _ k4 (Ht4 & Hk4 & Hv4). eapply wp_Ret; [done|].
    assert (forall y, view k2 y = allocated s x (view k) y) as Hv2'.
    { intros y. rewrite Hv2. unfold allocated. by rewrite !Hv1. }
    assert (fresh_block s (view k) x) as Hx'.
    { destruct Hx as [Hr Hu]. split; [done|]. by rewrite <- (used_ext s (view k) (view k1)). }
    apply (bmap_entry_new bn x k i blocks (absorb ind bl)); try done.
    + by repeat (eapply kept_trans; [eassumption|]).
    + apply absorb_elem. left. apply absorb_elem. by right.
    + intros y. rewrite Hv4, Hv3, !Hv2'. fold ind.
      by rewrite (allocated_own s start (disksize k) (view k) x Hvol Hx' ind Hio).
  - apply wp_bind. eapply wp_Ret; [done|]. eapply wp_step; [by eapply txn_brelse|]. intros _ k2 (Ht2 & Hk2 & Hv2).
    eapply wp_Ret; [done|]. apply bmap_post_kept; try done; [by eapply kept_trans|]. intros y. by rewrite Hv2.
Qed.

Lemma bmap_spec bn k i blocks :
  ready [] k i blocks -> i_dev i = ROOTDEV -> 0 <= bn < MAXFILE -> (weight s i blocks < N)%nat ->
  (blk_of (view k) i bn = 0 -> (ind_need i < length (free_blocks s (view k)))%nat) ->
  wp (bmap (Some n) bn) (bmap_post bn k i blocks) k.
Proof.
  intros Hrd Hdev Hbn Hw Hfree. pose proof Hrd as [Ht Hsb Hvol Hfile Hi Hcap]. unfold bmap.
  apply wp_bind. eapply wp_Ret; [by apply get_inode_eq|]. rewrite Hdev. destruct (Z.ltb_spec bn NDIRECT).
  - apply bmap_direct; try done; [lia|]. intros E. specialize (Hfree E). lia.
  - pose proof Hbn as Hbn'. unfold MAXFILE in Hbn'. rewrite (proj2 (Z.ltb_lt (bn - NDIRECT) NINDIRECT)) by lia. apply wp_assoc.
    eapply wp_step; [apply (bmap_ind k i blocks); try done|].
    { intros E. assert (blk_of (view k) i bn = 0) as E0.
      { unfold blk_of. rewrite E. by rewrite (proj2 (Z.ltb_ge _ _)) by lia. }
      specialize (Hfree E0). lia. }
    intros a k1 (i1 & blocks1 & Hst & Ht1 & -> & Ha & Hw1 & Hsame). pose proof (ready_step _ _ _ _ _ _ _ _ _ Hrd Hst Ht1) as Hrd1.
    eapply wp_mono; [apply (bmap_entry bn k1 i1 blocks1); try done; try lia|].
    + intros E1. assert (blk_of (view k) i bn = 0) as E0.
      { destruct (decide (blk_of (view k) i bn = 0)) as [|Hne]; [done|].
        by rewrite (gr_blk _ _ _ _ _ _ _ (fs_grown _ _ _ _ _ _ _ _ Hst) bn) in E1. }
      specialize (Hfree E0). pose proof (fs_free _ _ _ _ _ _ _ _ Hst) as Hf. lia.
    + intros a k2 (i2 & blocks2 & Hst2 & Ht2 & Hb2 & Hne2 & Hw2 & Hsame2). exists i2, blocks2.
      split_and!; try done; [by apply (fstep_trans s start n 0 1 k i k1 i1 k2 i2) | lia |].
      intros E. rewrite Hsame2, Hsame; [done | |].
      * intros E0. apply E. unfold blk_of. rewrite E0. by rewrite (proj2 (Z.ltb_ge _ _)) by lia.
      * by rewrite (gr_blk _ _ _ _ _ _ _ (fs_grown _ _ _ _ _ _ _ _ Hst) bn).
Qed.

(** *** Writing *)

(** The state of [writei] of [src] at [off] after [tot] bytes. *)
Record writing (k : kernel) (i : inode) (off : Z) (src : list Z) (tot : Z) (k' : kernel) (i' : inode) (blocks' : list Z) : Prop := {
  wi_ready : ready [] k' i' blocks';
  wi_inode : i' = upd_i_addrs (fun _ => i_addrs i') i;
  wi_icache : icache k' = <[n := i']> (icache k);
  wi_steady : steady k k';
  wi_written : written s start (disksize k) off (take (Z.to_nat tot) src) (view k) i (view k') i';
  wi_weight : (weight s i' blocks' + left_blocks off (Z.of_nat (length src)) tot < N)%nat;
  wi_free : i_size i < off + Z.of_nat (length src) ->
    (left_blocks off (Z.of_nat (length src)) tot + ind_need i' <= length (free_blocks s (view k')))%nat;
  wi_same : off + Z.of_nat (length src) <= i_size i -> i' = i;
  wi_some : 0 < tot -> blocks' <> [];
}.

Section writei.
Context (k0 : kernel) (i0 : inode) (off : Z) (src : list Z).
Hypothesis Hvol0 : volume s start (disksize k0) (view k0).
Hypothesis Hdev : i_dev i0 = ROOTDEV.
Hypothesis Hfull : full (view k0) i0.
Hypothesis Hoff : 0 <= off <= i_size i0.
Hypothesis Hmax : off + Z.of_nat (length src) <= MAXFILE * BSIZE.

Let cnt : Z := Z.of_nat (length src).

Lemma writing_store tot k i blocks k1 i1 blocks1 k2 a w :
  writing k0 i0 off src tot k i blocks -> 0 <= tot < cnt ->
  w = Z.min (cnt - tot) (BSIZE - (off + tot) mod BSIZE) ->
  fstep s start n 1 k i k1 i1 -> a = blk_of (view k1) i1 ((off + tot) / BSIZE) -> a <> 0 ->
  (weight s i1 (absorb a blocks1) <= S (weight s i blocks))%nat -> (off + cnt <= i_size i0 -> i1 = i) ->
  txn [] start (absorb a blocks1) k2 -> kept k1 k2 ->
  (forall y, view k2 y = if y =? a
     then splice (Z.to_nat ((off + tot) mod BSIZE)) (take (Z.to_nat w) (drop (Z.to_nat tot) src)) (view k1 a)
     else view k1 y) ->
  writing k0 i0 off src (tot + w) k2 i1 (absorb a blocks1).
Proof.
  intros [A1 A2 A3 A4 A5 A6 A7 A8 _] Htot Hw [B1 B2 B3 B4 B5] Ea Ha Hwt Hsame Ht2 Hk Hv.
  destruct (left_step off cnt tot) as (Hl1 & Hl2 & Hleft); [lia | done|]. rewrite <- Hw in *.
  assert (take (Z.to_nat (tot + w)) src = take (Z.to_nat tot) src ++ take (Z.to_nat w) (drop (Z.to_nat tot) src)) as Etake.
  { rewrite Z2Nat.inj_add by lia. symmetry. apply take_take_drop. }
  assert (Z.of_nat (length (take (Z.to_nat tot) src)) = tot) as Ltot by (rewrite length_take; lia).
  assert (Z.of_nat (length (take (Z.to_nat w) (drop (Z.to_nat tot) src))) = w) as Lw by (rewrite length_take, length_drop; lia).
  assert (disksize k = disksize k0) as Es by apply A4. rewrite Es in B4.
  assert (written s start (disksize k0) off (take (Z.to_nat (tot + w)) src) (view k0) i0 (view k2) i1) as Hwr.
  { rewrite Etake. eapply written_store; rewrite ?Ltot, ?Lw; try done; try lia; rewrite <- ?Ea; try done.
    eapply written_grown; try done; lia. }
  assert (steady k0 k2) as Hst by (by eapply steady_trans, steady_trans, kept_steady).
  assert (forall y, 0 <= y < sb_size s -> used s (view k2) y = used s (view k1) y) as Hu.
  { intros y Hy. assert (0 <= (off + tot) / BSIZE < MAXFILE) as Hbn.
    { change MAXFILE with 140 in *. unfold BSIZE in *. Z.div_mod_to_equations. lia. }
    rewrite Ea in Hv, Ha. by apply (store_used s start (disksize k0) (view k1) (view k2) i1 _ _ (gr_vol _ _ _ _ _ _ _ B4)
      (gr_file _ _ _ _ _ _ _ B4) Hbn Ha Hv). }
  split; try done.
  - split; try done.
    + rewrite (sy_sb _ _ Hst), <- (sy_sb _ _ A4). apply A1.
    + rewrite (sy_size _ _ Hst). apply Hwr.
    + apply Hwr.
    + rewrite (kp_icache _ _ Hk), B2. apply list_lookup_insert_eq. eapply lookup_lt_Some, A1.
    + eapply cap_steady, A1. eapply steady_trans; [exact B3 | by apply kept_steady].
  - by rewrite B1, A2.
  - by rewrite (kp_icache _ _ Hk), B2, A3, list_insert_insert_eq.
  - fold cnt in A6 |- *. lia.
  - intros Hs. specialize (A7 Hs). fold cnt in A7 |- *.
    rewrite (free_count_used s (view k1)) by done. lia.
  - intros Hs. rewrite Hsame by done. by apply A8.
  - intros _. apply absorb_some.
Qed.

Lemma writing_dev tot k i blocks : writing k0 i0 off src tot k i blocks -> i_dev i = ROOTDEV.
Proof. intros [_ -> _ _ _ _ _ _ _]. done. Qed.

(** One block of data. *)
Lemma writei_block tot k i blocks :
  writing k0 i0 off src tot k i blocks -> 0 <= tot < cnt ->
  let w := Z.min (cnt - tot) (BSIZE - (off + tot) mod BSIZE) in
  wp (let* a := bmap (Some n) ((off + tot) / BSIZE) in
      let* i := get_inode (Some n) in
      let* bp := bread (i_dev i) a in
      let m := Z.min (cnt - tot) (BSIZE - (off + tot) mod BSIZE) in
      set_buf bp (upd_b_data (splice (Z.to_nat ((off + tot) mod BSIZE))
                                (take (Z.to_nat m) (drop (Z.to_nat tot) src)))) ;;
      log_write bp ;;
      brelse bp ;;
      ret (inl (tot + m, off + tot + m)))
    (fun r k' => r = @inl _ Z (tot + w, off + tot + w) /\ exists i' blocks', writing k0 i0 off src (tot + w) k' i' blocks') k.
Proof.
  intros Hwi Htot w. pose proof Hwi as [A1 A2 A3 A4 A5 A6 A7 A8 _]. pose proof A1 as [Ht Hsb Hvol Hfile Hi Hcap].
  fold cnt in A6, A7. destruct (left_step off cnt tot) as (Hl1 & Hl2 & Hleft); [lia | done|]. fold w in Hl1, Hl2, Hleft.
  assert (0 <= (off + tot) / BSIZE < MAXFILE) as Hbn.
  { change MAXFILE with 140 in *. unfold BSIZE in *. Z.div_mod_to_equations. lia. }
  assert (off + cnt <= i_size i0 -> blk_of (view k) i ((off + tot) / BSIZE) <> 0) as Hin.
  { intros Hs. destruct Hfull as [_ Hall]. assert (blk_of (view k0) i0 ((off + tot) / BSIZE) <> 0) as Hne.
    { apply Hall; [lia|]. unfold BSIZE in *. Z.div_mod_to_equations. lia. }
    by rewrite (wf_blk _ _ _ _ _ _ _ _ _ A5). }
  eapply wp_step; [apply (bmap_spec _ k i blocks A1 (writing_dev _ _ _ _ Hwi) Hbn); [lia|]|].
  { intros E. destruct (Z.lt_ge_cases (i_size i0) (off + cnt)) as [Hs|Hs]; [specialize (A7 Hs); lia | by destruct (Hin Hs)]. }
  intros a k1 (i1 & blocks1 & Hst & Ht1 & Ea & Ha & Hw1 & Hsame).
  pose proof (ready_step _ _ _ _ _ _ _ _ _ A1 Hst Ht1) as [_ _ Hvol1 Hfile1 Hi1 Hcap1].
  apply wp_bind. eapply wp_Ret; [by apply get_inode_eq|].
  assert (i_dev i1 = ROOTDEV) as -> by (rewrite (fs_inode _ _ _ _ _ _ _ _ Hst); exact (writing_dev _ _ _ _ Hwi)).
  pose proof Ha as Ha'. rewrite Ea in Ha'. destruct (fi_blk _ _ _ Hfile1 _ Hbn Ha') as [Hao _]. rewrite <- Ea in Hao.
  destruct (owned_range _ _ _ _ _ Hvol1 Hao) as [Har Haout]. pose proof (weight_length s i1 (absorb a blocks1)) as Hwl.
  pose proof (absorb_length a blocks1). pose proof Hcap1 as (_ & Hc2 & _).
  eapply wp_step; [apply (txn_bread [] start blocks1 a); simpl; [done | lia | lia | apply not_elem_of_nil]|].
  intros b k2 (Ht2 & Hk2 & Hv2).
  eapply txn_write_cap; [exact Ht2 | left | done | by eapply cap_kept | lia |]. intros k3 Ht3 Hk3 Hv3.
  eapply wp_step; [by eapply txn_brelse|]. intros _ k4 (Ht4 & Hk4 & Hv4). eapply wp_Ret; [done|]. split; [done|].
  exists i1, (absorb a blocks1). eapply (writing_store tot k i blocks k1 i1 blocks1 k4 a w Hwi Htot); try done.
  - intros Hs. by apply Hsame, Hin.
  - by repeat (eapply kept_trans; [eassumption|]).
  - intros y. by rewrite Hv4, Hv3, !Hv2.
Qed.

Lemma writei_loop blocks :
  ready [] k0 i0 blocks -> (weight s i0 blocks + left_blocks off cnt 0 < N)%nat ->
  (i_size i0 < off + cnt -> (left_blocks off cnt 0 + ind_need i0 <= length (free_blocks s (view k0)))%nat) ->
  wp (iter (chunks cnt) (fun '(tot, off) =>
        if tot <? cnt then
          let* a := bmap (Some n) (off / BSIZE) in
          let* i := get_inode (Some n) in
          let* bp := bread (i_dev i) a in
          let m := Z.min (cnt - tot) (BSIZE - off mod BSIZE) in
          set_buf bp (upd_b_data (splice (Z.to_nat (off mod BSIZE))
                                    (take (Z.to_nat m) (drop (Z.to_nat tot) src)))) ;;
          log_write bp ;;
          brelse bp ;;
          ret (inl (tot + m, off + m))
        else ret (inr off)) (0, off))
    (fun o k' => o = off + cnt /\ exists i' blocks', writing k0 i0 off src cnt k' i' blocks') k0.
Proof.
  intros Hrd Hw Hfree. apply (iter_wp _ (fun '(tot, o) k' => o = off + tot /\ 0 <= tot <= cnt /\
      exists i' blocks', writing k0 i0 off src tot k' i' blocks') (fun '(tot, _) => left_blocks off cnt tot)).
  - intros [tot o] k (-> & Htot & i & blocks' & Hwi). destruct (Z.ltb_spec tot cnt) as [Hlt|Hge].
    + eapply wp_mono; [apply (writei_block tot k i blocks' Hwi); lia|]. intros r k' [-> Hwi'].
      destruct (left_step off cnt tot) as (Hl1 & Hl2 & Hleft); [lia | lia|]. split; [|lia]. split_and!; try lia. done.
    + eapply wp_Ret; [done|]. assert (tot = cnt) as -> by lia. split; [done|]. by eexists _, _.
  - apply left_fuel; lia.
  - split_and!; try lia. exists i0, blocks. pose proof Hrd as [Ht Hsb Hvol Hfile Hi Hcap]. split; try done.
    + by destruct i0.
    + by rewrite list_insert_id.
    + by apply written_nil.
Qed.
End writei.

Lemma iupdate_spec k i blocks :
  ready [] k i blocks -> i_dev i = ROOTDEV -> inode_there s (i_inum i) ->
  (length (absorb (IBLOCK (i_inum i) s) blocks) <= N)%nat ->
  wp (iupdate (Some n)) (fun _ k' => txn [] start (absorb (IBLOCK (i_inum i) s) blocks) k' /\ kept k k' /\
    forall y, view k' y = if y =? IBLOCK (i_inum i) s
      then write_dinode i (dinode_off (i_inum i)) (view k (IBLOCK (i_inum i) s)) else view k y) k.
Proof.
  intros [Ht Hsb Hvol Hfile Hi Hcap] Hdev Hthere Hl. destruct (iblock_there _ _ _ _ _ Hvol Hthere) as (_ & Hr & Hout & _).
  pose proof (absorb_length (IBLOCK (i_inum i) s) blocks). pose proof Hcap as (_ & Hc2 & _). unfold iupdate.
  apply wp_bind. eapply wp_Ret; [by apply get_inode_eq|]. apply wp_gets. rewrite Hdev, Hsb.
  eapply wp_step; [apply (txn_bread [] start blocks (IBLOCK (i_inum i) s)); simpl; [done | lia | lia | apply not_elem_of_nil]|].
  intros b k1 (Ht1 & Hk1 & Hv1). apply wp_bind. eapply wp_Ret; [apply get_inode_eq; by rewrite (kp_icache _ _ Hk1)|].
  eapply txn_write_cap; [exact Ht1 | left | done | by eapply cap_kept | done |]. intros k2 Ht2 Hk2 Hv2.
  eapply wp_mono; [by eapply txn_brelse|]. intros _ k3 (Ht3 & Hk3 & Hv3).
  split_and!; [done | by eapply kept_trans, kept_trans|]. intros y. by rewrite Hv3, Hv2, !Hv1.
Qed.

(** What [writei] of [src] at [off] of the file [i] does. *)
Record write_post (k : kernel) (i : inode) (off : Z) (src : list Z) (k' : kernel) (i' : inode) (blocks' : list Z) : Prop := {
  wr_ready : ready [] k' i' blocks';
  wr_inode : i' = upd_i_size (fun _ => Z.max (i_size i) (off + Z.of_nat (length src))) (upd_i_addrs (fun _ => i_addrs i') i);
  wr_icache : icache k' = <[n := i']> (icache k);
  wr_steady : steady k k';
  wr_full : full (view k') i';
  wr_bytes : forall x, 0 <= x < MAXFILE * BSIZE -> file_byte (view k') i' x =
    if (off <=? x) && (x <? off + Z.of_nat (length src)) then nth (Z.to_nat (x - off)) src 0 else file_byte (view k) i x;
  wr_stored : stored_inode s (view k) (i_inum i) i = i -> dinode_fits i -> stored_inode s (view k') (i_inum i) i' = i';
  wr_inodes : forall m j, inode_there s m -> m <> i_inum i -> stored_inode s (view k') m j = stored_inode s (view k) m j;
  wr_others : forall j, file_ok s (view k) j -> separate (view k) i j -> file_ok s (view k') j /\
    forall x, 0 <= x < MAXFILE * BSIZE -> file_byte (view k') j x = file_byte (view k) j x;
  wr_log : (length blocks' <= N)%nat;
  wr_some : src <> [] -> blocks' <> [];
}.

Lemma written_full off src v i v' i' size :
  written s start size off src v i v' i' -> full v i -> 0 <= off <= i_size i -> i_size i' = Z.max (i_size i) (off + Z.of_nat (length src)) ->
  off + Z.of_nat (length src) <= MAXFILE * BSIZE -> full v' i'.
Proof.
  intros Hw [Hmax Hall] Hoff Hsz Hl. split; [lia|]. intros bn Hbn Hlt. rewrite Hsz in Hlt.
  destruct (Z.lt_ge_cases (bn * BSIZE) (i_size i)).
  - rewrite (wf_blk _ _ _ _ _ _ _ _ _ Hw); [by apply Hall | | by apply Hall]. change MAXFILE with 140 in *. unfold BSIZE in *. lia.
  - replace bn with (bn * BSIZE / BSIZE) by (by apply Z.div_mul). apply (wf_there _ _ _ _ _ _ _ _ _ Hw). lia.
Qed.

Lemma file_addrs v i size : volume s start size v -> file_ok s v i -> Forall (fun x => 0 <= x < 2 ^ 32) (i_addrs i).
Proof.
  intros Hvol Hf. apply list.Forall_lookup. intros j a Ha. pose proof (lookup_lt_Some _ _ _ Ha) as Hj.
  rewrite (fi_addrs _ _ _ Hf) in Hj. assert (addr i (Z.of_nat j) = a) as Ea.
  { unfold addr. rewrite Nat2Z.id. by apply nth_lookup_Some. }
  destruct (decide (a = 0)) as [->|Hne]; [lia|]. assert (owned s v a) as Ho.
  { destruct (decide (j = 12%nat)) as [->|]; [change (Z.of_nat 12) with NDIRECT in Ea; rewrite <- Ea; apply (fi_ind _ _ _ Hf); by rewrite Ea|].
    assert (blk_of v i (Z.of_nat j) = a) as Eb.
    { unfold blk_of. by rewrite (proj2 (Z.ltb_lt _ _)) by (unfold NDIRECT; lia). }
    rewrite <- Eb. apply (fi_blk _ _ _ Hf); [change MAXFILE with 140; lia | congruence]. }
  destruct (owned_range _ _ _ _ _ Hvol Ho), Hvol. lia.
Qed.

Lemma stored_meta v v' m j size :
  volume s start size v -> inode_there s m -> (forall y, 0 <= y < sb_bmapstart s -> v' y = v y) ->
  stored_inode s v' m j = stored_inode s v m j.
Proof.
  intros Hvol Hm Hv. unfold stored_inode. destruct (iblock_there _ _ _ _ _ Hvol Hm) as (H1 & H2 & _). by rewrite Hv by lia.
Qed.

(** The file does not grow: its inode stays as it is. *)
Lemma write_post_inside k i off src k' i' blocks' :
  volume s start (disksize k) (view k) -> writing k i off src (Z.of_nat (length src)) k' i' blocks' -> full (view k) i -> 0 <= off <= i_size i ->
  off + Z.of_nat (length src) <= i_size i -> inode_there s (i_inum i) -> write_post k i off src k' i' blocks'.
Proof.
  intros Hvol [A1 A2 A3 A4 A5 A6 A7 A8 A9] Hfull Hoff Hin Hthere. pose proof (A8 Hin) as Ei. subst i'.
  rewrite Nat2Z.id, firstn_all in A5. split; try done.
  - rewrite Z.max_l by lia. by destruct i.
  - eapply written_full; [exact A5 | done | done | lia | destruct Hfull; lia].
  - apply A5.
  - intros Hs _. rewrite (stored_meta (view k) _ _ _ (disksize k)); [done.. | apply A5].
  - intros m j Hm _. apply (stored_meta _ _ _ _ (disksize k)); [done.. | apply A5].
  - intros j Hj Hsep. split.
    + apply (other_file s (view k) (view k') j); [done|]. by eapply written_other.
    + intros x. apply (other_byte s (view k) (view k') j); [done|]. by eapply written_other.
  - pose proof (weight_length s i blocks'). lia.
  - intros Hs. apply A9. destruct src; [done | simpl; lia].
Qed.

(** The file grows: its inode goes to the disk. *)
Lemma write_post_grow k i off src k1 i1 blocks1 k' i' :
  volume s start (disksize k) (view k) -> writing k i off src (Z.of_nat (length src)) k1 i1 blocks1 ->
  full (view k) i -> 0 <= off <= i_size i -> i_size i < off + Z.of_nat (length src) ->
  off + Z.of_nat (length src) <= MAXFILE * BSIZE -> inode_there s (i_inum i) ->
  i' = upd_i_size (fun _ => off + Z.of_nat (length src)) i1 -> icache k' = <[n := i']> (icache k) ->
  steady k1 k' -> txn [] start (absorb (IBLOCK (i_inum i) s) blocks1) k' ->
  (forall y, view k' y = if y =? IBLOCK (i_inum i) s
     then write_dinode i' (dinode_off (i_inum i)) (view k1 (IBLOCK (i_inum i) s)) else view k1 y) ->
  write_post k i off src k' i' (absorb (IBLOCK (i_inum i) s) blocks1).
Proof.
  intros Hvol [[B1 B2 B3 B4 B5 B6] A2 A3 A4 A5 A6 A7 A8 _] Hfull Hoff Hgrow Hmax Hthere Ei Hic Hst Ht Hv.
  rewrite Nat2Z.id, firstn_all in A5. pose proof (sy_size _ _ A4) as Es. rewrite Es in B3.
  destruct (iblock_there _ _ _ _ _ Hvol Hthere) as (Hib & Hibr & _ & _). pose proof (sy_size _ _ Hst) as Es'.
  assert (forall y, sb_bmapstart s <= y -> view k' y = view k1 y) as Hhi.
  { intros y Hy. by rewrite Hv, (proj2 (Z.eqb_neq _ _)) by lia. }
  assert (forall y, 0 <= y < disksize k -> length (view k' y) = Z.to_nat BSIZE) as Hlen.
  { intros y Hy. rewrite Hv. case_match; [|by apply B3]. rewrite write_dinode_length. by apply B3. }
  assert (written s start (disksize k) off src (view k) i (view k1) i') as Hw.
  { rewrite Ei. destruct A5 as [W1 [W2 W2' W2'' W2'''] W3 W4 W5 W6 W7 W8 W9 W10]. by split. }
  pose proof (wf_file _ _ _ _ _ _ _ _ _ Hw) as Hf1. assert (i_size i' = off + Z.of_nat (length src)) as Esz by (by rewrite Ei).
  split.
  - split; try done; [| | |rewrite Hic|].
    + by rewrite (sy_sb _ _ Hst).
    + rewrite Es', Es. by eapply (meta_volume s start (disksize k) (view k1)).
    + by eapply (meta_file s start (disksize k) (view k1)).
    + apply list_lookup_insert_eq. pose proof (lookup_lt_Some _ _ _ B5) as Hl. by rewrite A3, length_insert in Hl.
    + by eapply cap_steady.
  - rewrite Ei, Z.max_r by lia. simpl. by rewrite A2.
  - done.
  - by eapply steady_trans.
  - destruct (written_full off src (view k) i (view k1) i' (disksize k)) as [F1 F2]; try done; [lia|].
    split; [done|]. intros bn Hbn Hlt. rewrite (meta_blk s start (disksize k) (view k1)) by done. by apply F2.
  - intros x Hx. rewrite (meta_byte s start (disksize k) (view k1)) by done. by apply (wf_bytes _ _ _ _ _ _ _ _ _ Hw).
  - intros _ [D1 D2 D3]. unfold stored_inode. rewrite Hv, Z.eqb_refl. apply read_write_dinode.
    + split; [by rewrite Ei, A2 | constructor; [|by eapply file_addrs] | by apply Hf1].
      rewrite Esz. change (MAXFILE * BSIZE) with 71680 in Hmax. lia.
    + rewrite (vo_len _ _ _ _ B3) by lia. apply dinode_off_range.
  - intros m j Hm Hne. destruct (iblock_there _ _ _ _ _ Hvol Hthere) as (_ & _ & _ & E1).
    destruct (iblock_there _ _ _ _ _ Hvol Hm) as (_ & _ & _ & E2). transitivity (stored_inode s (view k1) m j).
    + unfold stored_inode. rewrite Hv. destruct (Z.eqb_spec (IBLOCK m s) (IBLOCK (i_inum i) s)) as [E|]; [|done].
      rewrite <- E. apply read_write_dinode_ne; [by apply Hf1|]. destruct Hm, Hthere. apply dinode_apart; [done | done | lia | done].
    + apply (stored_meta _ _ _ _ (disksize k)); [done.. | apply Hw].
  - intros j Hj Hsep. assert (file_ok s (view k1) j) as Hj1.
    { apply (other_file s (view k) (view k1) j); [done|]. by eapply written_other. }
    split.
    + by eapply (meta_file s start (disksize k) (view k1)).
    + intros x Hx. rewrite (meta_byte s start (disksize k) (view k1)) by done.
      apply (other_byte s (view k) (view k1) j); [done | by eapply written_other | done].
  - pose proof (weight_length s i1 blocks1). pose proof (absorb_length (IBLOCK (i_inum i) s) blocks1). lia.
  - intros _. apply absorb_some.
Qed.

Lemma set_size_eq z i k :
  icache k !! n = Some i -> set_inode (Some n) (upd_i_size (fun _ => z)) k =
    Ret tt (upd_icache (fun l => <[n := upd_i_size (fun _ => z) i]> l) k).
Proof.
  intros Hi. unfold set_inode, deref. mrun. rewrite put_slot_eq by in_table. f_equal. kernel_eq. by apply list_alter_insert.
Qed.

Lemma writei_spec k i blocks off src :
  ready [] k i blocks -> i_dev i = ROOTDEV -> i_type i <> T_DEV -> full (view k) i -> inode_there s (i_inum i) ->
  0 <= off <= i_size i -> off + Z.of_nat (length src) <= MAXFILE * BSIZE ->
  (weight s i blocks + left_blocks off (Z.of_nat (length src)) 0 < N)%nat ->
  (i_size i < off + Z.of_nat (length src) ->
    (left_blocks off (Z.of_nat (length src)) 0 + ind_need i <= length (free_blocks s (view k)))%nat) ->
  wp (writei (Some n) src off (Z.of_nat (length src))) (fun r k' =>
    r = Z.of_nat (length src) /\ exists i' blocks', write_post k i off src k' i' blocks') k.
Proof.
  intros Hrd Hdev Hty Hfull Hthere Hoff Hmax Hw Hfree. pose proof Hrd as [Ht Hsb Hvol Hfile Hi Hcap].
  pose proof Hmax as Hmax'. change (MAXFILE * BSIZE) with 71680 in Hmax'. unfold writei.
  apply wp_bind. eapply wp_Ret; [by apply get_inode_eq|]. rewrite (proj2 (Z.eqb_neq _ _) Hty).
  set (cnt := Z.of_nat (length src)) in *. rewrite (u32_small (off + cnt)) by lia.
  rewrite (proj2 (Z.ltb_ge (i_size i) off)) by lia. rewrite (proj2 (Z.ltb_ge (off + cnt) off)) by lia. cbn [orb].
  rewrite (proj2 (Z.ltb_ge _ _) Hmax).
  eapply wp_step; [by apply (writei_loop k i off src Hvol Hdev Hfull Hoff Hmax blocks)|].
  intros o k1 (-> & i1 & blocks1 & Hwi). fold cnt in Hwi |- *. pose proof Hwi as [Hrd1 A2 A3 A4 A5 A6 A7 A8 _].
  pose proof Hrd1 as [Ht1 Hsb1 Hvol1 Hfile1 Hi1 Hcap1]. apply wp_bind. eapply wp_Ret; [by apply get_inode_eq|].
  assert (i_size i1 = i_size i) as Esz by (by rewrite A2). rewrite Esz.
  destruct (Z.ltb_spec (i_size i) (off + cnt)) as [Hgrow|Hin].
  - rewrite (proj2 (Z.ltb_lt 0 cnt)) by lia. cbn [andb when]. apply wp_bind, wp_bind.
    eapply wp_Ret; [by apply set_size_eq|]. set (i2 := upd_i_size _ i1). set (k2 := upd_icache _ k1).
    assert (ready [] k2 i2 blocks1) as Hrd2.
    { split; try done; [by apply txn_icache | by destruct Hfile1; split |]. apply list_lookup_insert_eq. by eapply lookup_lt_Some. }
    assert (i_inum i2 = i_inum i) as En by (unfold i2; by rewrite A2).
    eapply wp_mono; [apply (iupdate_spec k2 i2 blocks1 Hrd2)|].
    + unfold i2. by rewrite A2.
    + by rewrite En.
    + pose proof (absorb_length (IBLOCK (i_inum i2) s) blocks1). pose proof (weight_length s i1 blocks1). lia.
    + intros _ k3 (Ht3 & Hk3 & Hv3). rewrite En in *. eapply wp_Ret; [done|]. rewrite s32_small by lia. split; [done|].
      eexists i2, _. eapply (write_post_grow k i off src k1 i1 blocks1 k3 i2); try done.
      * rewrite (kp_icache _ _ Hk3). unfold k2. simpl. by rewrite A3, list_insert_insert_eq.
      * destruct Hk3. by split.
  - replace ((0 <? cnt) && false) with false by (by rewrite andb_false_r). cbn [when]. apply wp_bind.
    eapply wp_Ret; [done|]. eapply wp_Ret; [done|]. rewrite s32_small by lia. split; [done|].
    eexists i1, blocks1. by apply write_post_inside.
Qed.

(** *** Truncation *)

Definition pending (blocks : list Z) : nat := length blocks + missing s blocks.

Lemma pending_bitmap x blocks : x ∈ bitmap_blocks s -> (pending (absorb x blocks) <= pending blocks)%nat.
Proof.
  intros Hx. unfold pending. destruct (decide (x ∈ blocks)) as [Hin|Hin]; [by rewrite absorb_idem|].
  pose proof (missing_bitmap s x blocks Hx Hin). pose proof (absorb_length x blocks). lia.
Qed.

(** The blocks in [R] have been freed. *)
Record freeing (held : list (nat * Z)) (R : list Z) (k : kernel) (blocks : list Z) (k' : kernel) (blocks' : list Z) : Prop := {
  fg_txn : txn held start blocks' k';
  fg_steady : steady k k';
  fg_vol : volume s start (disksize k) (view k');
  fg_same : forall y, y < sb_bmapstart s \/ data_start s <= y -> view k' y = view k y;
  fg_used : forall y, 0 <= y < sb_size s -> used s (view k') y = used s (view k) y && negb (bool_decide (y ∈ R));
  fg_log : (pending blocks' <= pending blocks)%nat;
}.

Lemma freeing_kept held R k blocks k' blocks' held' k'' :
  freeing held R k blocks k' blocks' -> txn held' start blocks' k'' -> kept k' k'' -> (forall y, view k'' y = view k' y) ->
  freeing held' R k blocks k'' blocks'.
Proof.
  intros [A1 A2 A3 A4 A5 A6] Ht Hk Hv. split; try done.
  - by eapply steady_trans, kept_steady.
  - by eapply volume_ext.
  - intros y Hy. rewrite Hv. auto.
  - intros y Hy. rewrite (used_ext s (view k')) by done. auto.
Qed.

Lemma freeing_icache held R k blocks k' blocks' f :
  freeing held R k blocks k' blocks' -> freeing held R k blocks (upd_icache f k') blocks'.
Proof. intros [A1 [B1 B2 B3 B4 B5] A3 A4 A5 A6]. split; try done. by apply txn_icache. Qed.

Lemma free_step held R k blocks k' blocks' x :
  freeing held R k blocks k' blocks' -> volume s start (disksize k) (view k) -> sb k = s -> owned s (view k) x -> x ∉ R ->
  Forall (fun y => data_start s <= y) held.*2 -> (length held <= 1)%nat -> cap N k -> (pending blocks <= N)%nat ->
  wp (bfree ROOTDEV x) (fun _ k'' => icache k'' = icache k' /\ exists blocks'', freeing held (R ++ [x]) k blocks k'' blocks'') k'.
Proof.
  intros [A1 A2 A3 A4 A5 A6] Hvol Hsb Hx HR Hheld Hh Hcap Hp. destruct (owned_range _ _ _ _ _ Hvol Hx) as [Hr _].
  pose proof Hx as [Hxr Hxu]. pose proof (bitmap_blocks_elem _ _ _ _ x A3 ltac:(lia)) as Hbm.
  pose proof (pending_bitmap _ blocks' Hbm) as Hpb. destruct (bitmap_block _ _ _ _ x A3 ltac:(lia)) as (_ & Hbr & _).
  eapply wp_mono; [apply (bfree_spec s held start blocks' x N); try done; rewrite ?(sy_size _ _ A2); try done|].
  - by rewrite (sy_sb _ _ A2).
  - lia.
  - rewrite A5, Hxu by lia. by rewrite bool_decide_false.
  - by eapply cap_steady.
  - unfold pending in *. lia.
  - intros _ k2 (Ht2 & Hk2 & Hv2). split; [by apply Hk2|]. exists (absorb (BBLOCK x s) blocks'). split; try done.
    + by eapply steady_trans, kept_steady.
    + eapply volume_ext; [exact Hv2|]. by apply freed_volume.
    + intros y Hy. rewrite Hv2. unfold freed. rewrite (proj2 (Z.eqb_neq _ _)) by lia. auto.
    + intros y Hy. rewrite (used_ext s (freed s x (view k'))) by done.
      rewrite (freed_used s start (disksize k)) by (done || lia). rewrite A5 by done.
      destruct (Z.eqb_spec y x) as [->|Hne]; simpl.
      * symmetry. apply andb_false_iff. right. apply negb_false_iff, bool_decide_eq_true_2, elem_of_app. right. left.
      * f_equal. f_equal. apply bool_decide_ext. rewrite elem_of_app, list_elem_of_singleton. tauto.
    + lia.
Qed.

Definition nonzero (l : list Z) : list Z := filter (fun x => x <> 0) l.

Lemma nonzero_snoc l x : nonzero (l ++ [x]) = if decide (x = 0) then nonzero l else nonzero l ++ [x].
Proof.
  unfold nonzero. rewrite list.filter_app. case_decide as E.
  - rewrite filter_cons_False by (by intros []). by rewrite app_nil_r.
  - by rewrite filter_cons_True.
Qed.

Section itrunc.
Context (k : kernel) (i : inode) (blocks : list Z).
Hypothesis Hrd : ready [] k i blocks.
Hypothesis Hdev : i_dev i = ROOTDEV.
Hypothesis Hpend : (pending blocks < N)%nat.

Let Hvol : volume s start (disksize k) (view k) := rd_vol _ _ _ _ Hrd.
Let Hfile : file_ok s (view k) i := rd_file _ _ _ _ Hrd.

(** The addresses in [pre] have been set to 0. *)
Record zeroed (pre : list Z) (i' : inode) : Prop := {
  zr_inode : i' = upd_i_addrs (fun _ => i_addrs i') i;
  zr_length : length (i_addrs i') = 13%nat;
  zr_addr : forall j, 0 <= j < 13 -> addr i' j = if decide (j ∈ pre) then 0 else addr i j;
}.

Lemma zeroed_nil : zeroed [] i.
Proof. split; [by destruct i | by apply Hfile|]. intros j Hj. by rewrite decide_False by apply not_elem_of_nil. Qed.

Lemma zeroed_skip pre i' j : zeroed pre i' -> addr i j = 0 -> zeroed (pre ++ [j]) i'.
Proof.
  intros [A1 A2 A3] Hj. split; try done. intros j' Hj'. rewrite A3 by done.
  case_decide as E1; [rewrite decide_True; [done | apply elem_of_app; by left]|].
  case_decide as E2; [|done]. apply elem_of_app in E2 as [|E2%list_elem_of_singleton]; [done|]. by subst.
Qed.

Lemma zeroed_set pre i' j : zeroed pre i' -> 0 <= j < 13 -> zeroed (pre ++ [j]) (upd_i_addrs (fun l => <[Z.to_nat j := 0]> l) i').
Proof.
  intros [A1 A2 A3] Hj. split.
  - rewrite A1. done.
  - simpl. by rewrite length_insert.
  - intros j' Hj'. rewrite addr_insert by (done || lia). rewrite A3 by done. destruct (Z.eqb_spec j' j) as [->|Hne].
    + by rewrite decide_True by (apply elem_of_app; right; left).
    + case_decide as E1; case_decide as E2; try done; rewrite elem_of_app, list_elem_of_singleton in *; tauto.
Qed.

Definition truncated (held : list (nat * Z)) (R pre : list Z) (k' : kernel) : Prop :=
  exists i' blocks', freeing held R k blocks k' blocks' /\ icache k' = <[n := i']> (icache k) /\ zeroed pre i'.

Lemma truncated_get held R pre k' j :
  truncated held R pre k' -> 0 <= j < 13 -> j ∉ pre -> get_addr (Some n) j k' = Ret (addr i j) k'.
Proof.
  intros (i' & blocks' & Hfg & Hic & [A1 A2 A3]) Hj Hpre. rewrite (get_addr_eq n i').
  - rewrite A3 by done. by rewrite decide_False.
  - rewrite Hic. apply list_lookup_insert_eq. eapply lookup_lt_Some, Hrd.
  - done.
  - unfold NDIRECT. lia.
Qed.

(** One block of the file is freed, and its address set to 0. *)
Lemma free_addr R pre k' j :
  truncated [] R pre k' -> 0 <= j < 13 -> j ∉ pre -> addr i j <> 0 -> owned s (view k) (addr i j) -> addr i j ∉ R ->
  wp (bfree ROOTDEV (addr i j) ;; set_addr (Some n) j 0) (fun _ => truncated [] (R ++ [addr i j]) (pre ++ [j])) k'.
Proof.
  intros (i' & blocks' & Hfg & Hic & Hz) Hj Hpre Hne Ho HR. pose proof Hrd as [Ht Hsb _ _ Hi Hcap].
  eapply wp_step; [apply (free_step [] R k blocks k' blocks' (addr i j)); try done; try constructor; simpl; lia|].
  intros _ k2 (Hic2 & blocks2 & Hfg2). eapply wp_Ret.
  - apply set_addr_eq; [|apply Hz | unfold NDIRECT; lia]. rewrite Hic2, Hic. apply list_lookup_insert_eq. by eapply lookup_lt_Some.
  - eexists _, blocks2. split_and!; [by apply freeing_icache | | by apply zeroed_set].
    simpl. by rewrite Hic2, Hic, list_insert_insert_eq.
Qed.

Lemma addr_blk j : 0 <= j < NDIRECT -> blk_of (view k) i j = addr i j.
Proof. clear Hpend. intros Hj. unfold blk_of. by rewrite (proj2 (Z.ltb_lt _ _)) by lia. Qed.

Lemma itrunc_direct :
  wp (for_each (seqZ 0 NDIRECT) (fun j =>
        let* a := get_addr (Some n) j in
        when (truthy a) (bfree ROOTDEV a ;; set_addr (Some n) j 0)))
    (fun _ => truncated [] (nonzero (addr i <$> seqZ 0 NDIRECT)) (seqZ 0 NDIRECT)) k.
Proof.
  apply (for_each_wp _ _ (fun pre => truncated [] (nonzero (addr i <$> pre)) pre)).
  - intros pre j post k' E Htr. assert (j ∈ seqZ 0 NDIRECT /\ j ∉ pre) as [Hj%elem_of_seqZ Hpre].
    { pose proof (NoDup_seqZ 0 NDIRECT) as Hnd. rewrite E in Hnd |- *. apply list.NoDup_app in Hnd as (_ & Hnd & _).
      split; [apply elem_of_app; right; left|]. intros Hin. apply (Hnd j Hin). left. }
    assert (0 <= j < NDIRECT) as Hj' by lia. assert (0 <= j < 13) as Hj13 by (unfold NDIRECT in *; lia).
    apply wp_bind. eapply wp_Ret; [by eapply truncated_get|]. rewrite fmap_app, list_fmap_singleton, nonzero_snoc.
    case_decide as E0.
    + rewrite E0. cbn. eapply wp_Ret; [done|]. destruct Htr as (i' & blocks' & Hfg & Hic & Hz).
      exists i', blocks'. split_and!; try done. by apply zeroed_skip.
    + rewrite (proj2 (truthy_spec _) E0). cbn [when]. pose proof (addr_blk j Hj') as Eb. rewrite <- Eb in E0.
      assert (0 <= j < MAXFILE) as Hjm by (change MAXFILE with 140; unfold NDIRECT in *; lia).
      destruct (fi_blk _ _ _ Hfile j Hjm E0) as [Ho _]. rewrite Eb in *. apply free_addr; try done.
      intros [_ Hin]%list_elem_of_filter. apply list_elem_of_fmap in Hin as (j' & Ej & Hj2).
      assert (0 <= j' < NDIRECT) as Hj2'.
      { assert (j' ∈ seqZ 0 NDIRECT) as H2%elem_of_seqZ by (rewrite E; apply elem_of_app; by left). lia. }
      rewrite <- (addr_blk j' Hj2'), <- Eb in Ej. apply (fi_inj _ _ _ Hfile) in Ej; [by subst | done | | by rewrite Eb].
      change MAXFILE with 140. unfold NDIRECT in *. lia.
  - exists i, blocks. pose proof Hrd as [Ht Hsb _ _ Hi Hcap]. split_and!; [|by rewrite list_insert_id | apply zeroed_nil].
    split; try done. intros y Hy. rewrite bool_decide_false by apply not_elem_of_nil. by rewrite andb_true_r.
Qed.

Definition entry (j : Z) : Z := word_at (view k (addr i NDIRECT)) (4 * Z.to_nat j).

(** The blocks of the file. *)
Definition all_blocks : list Z :=
  nonzero (addr i <$> seqZ 0 NDIRECT) ++
  (if addr i NDIRECT =? 0 then [] else nonzero (entry <$> seqZ 0 NINDIRECT) ++ [addr i NDIRECT]).

Lemma entry_blk j : 0 <= j < NINDIRECT -> addr i NDIRECT <> 0 -> blk_of (view k) i (NDIRECT + j) = entry j.
Proof. clear Hpend.
  intros Hj Hne. unfold blk_of, entry. rewrite (proj2 (Z.ltb_ge _ _)) by lia. rewrite (proj2 (Z.eqb_neq _ _) Hne).
  by replace (NDIRECT + j - NDIRECT) with j by lia.
Qed.

Lemma direct_elem y : y ∈ nonzero (addr i <$> seqZ 0 NDIRECT) <->
  y <> 0 /\ exists bn, 0 <= bn < NDIRECT /\ y = blk_of (view k) i bn.
Proof. clear Hpend.
  unfold nonzero. rewrite list_elem_of_filter, list_elem_of_fmap. split.
  - intros (Hy & bn & -> & Hbn%elem_of_seqZ). split; [done|]. exists bn. split; [lia|]. symmetry. apply addr_blk. lia.
  - intros (Hy & bn & Hbn & ->). split; [done|]. exists bn. rewrite addr_blk by done. split; [done|]. apply elem_of_seqZ. lia.
Qed.

Lemma entry_elem l y : addr i NDIRECT <> 0 -> (forall j, j ∈ l -> 0 <= j < NINDIRECT) ->
  y ∈ nonzero (entry <$> l) <-> y <> 0 /\ exists j, j ∈ l /\ y = blk_of (view k) i (NDIRECT + j).
Proof. clear Hpend.
  intros Hne Hl. unfold nonzero. rewrite list_elem_of_filter, list_elem_of_fmap. split.
  - intros (Hy & j & -> & Hj). split; [done|]. exists j. split; [done|]. symmetry. apply entry_blk; auto.
  - intros (Hy & j & Hj & ->). split; [done|]. exists j. rewrite entry_blk by auto. done.
Qed.

Lemma all_blocks_elem y : y ∈ all_blocks <->
  y <> 0 /\ (y = addr i NDIRECT \/ exists bn, 0 <= bn < MAXFILE /\ y = blk_of (view k) i bn).
Proof. clear Hpend.
  unfold all_blocks. rewrite elem_of_app, direct_elem. change MAXFILE with (NDIRECT + NINDIRECT).
  assert (0 < NINDIRECT) by done. assert (0 < NDIRECT) by done. destruct (Z.eqb_spec (addr i NDIRECT) 0) as [E|E].
  - split.
    + intros [(Hy & bn & Hbn & ->)|[]%not_elem_of_nil]. split; [done|]. right. exists bn. split; [lia | done].
    + intros [Hy [->|(bn & Hbn & ->)]]; [done|]. left. split; [done|]. exists bn. split; [|done].
      destruct (Z.lt_ge_cases bn NDIRECT); [lia|]. destruct Hy. unfold blk_of. rewrite E. by rewrite (proj2 (Z.ltb_ge _ _)) by lia.
  - rewrite elem_of_app, list_elem_of_singleton, entry_elem by (try done; intros j Hj%elem_of_seqZ; lia). split.
    + intros [(Hy & bn & Hbn & ->)|[(Hy & j & Hj%elem_of_seqZ & ->)| ->]]; (split; [done|]); [right | right | by left].
      * exists bn. split; [lia | done].
      * exists (NDIRECT + j). split; [lia | done].
    + intros [Hy [->|(bn & Hbn & ->)]]; [by right; right|]. destruct (Z.lt_ge_cases bn NDIRECT).
      * left. split; [done|]. exists bn. split; [lia | done].
      * right. left. split; [done|]. exists (bn - NDIRECT). split; [apply elem_of_seqZ; lia | f_equal; lia].
Qed.

Lemma itrunc_entries b k1 :
  addr i NDIRECT <> 0 -> truncated [(b, addr i NDIRECT)] (nonzero (addr i <$> seqZ 0 NDIRECT)) (seqZ 0 NDIRECT) k1 ->
  wp (for_each (seqZ 0 NINDIRECT) (fun j =>
        let* bf := get_buf b in
        let a := word_at (b_data bf) (4 * Z.to_nat j) in
        when (truthy a) (bfree ROOTDEV a)))
    (fun _ => truncated [(b, addr i NDIRECT)]
       (nonzero (addr i <$> seqZ 0 NDIRECT) ++ nonzero (entry <$> seqZ 0 NINDIRECT)) (seqZ 0 NDIRECT)) k1.
Proof.
  intros Hne Htr. apply (for_each_wp _ _ (fun pre => truncated [(b, addr i NDIRECT)]
    (nonzero (addr i <$> seqZ 0 NDIRECT) ++ nonzero (entry <$> pre)) (seqZ 0 NDIRECT))); [|by rewrite app_nil_r].
  clear k1 Htr. intros pre j post k' E (i' & blocks' & Hfg & Hic & Hz). pose proof Hrd as [Ht Hsb _ _ Hi Hcap].
  assert (forall x, x ∈ pre \/ x = j -> 0 <= x < NINDIRECT) as Hpre.
  { intros x Hx. assert (x ∈ seqZ 0 NINDIRECT) as H2%elem_of_seqZ; [|lia]. rewrite E, elem_of_app, elem_of_cons. tauto. }
  assert (j ∉ pre) as Hjp.
  { pose proof (NoDup_seqZ 0 NINDIRECT) as Hnd. rewrite E in Hnd. apply list.NoDup_app in Hnd as (_ & Hnd & _).
    intros Hin. apply (Hnd j Hin). left. }
  assert (0 <= j < NINDIRECT) as Hj by auto. pose proof (fi_ind _ _ _ Hfile Hne) as Hio.
  eapply get_buf_txn; [exact (fg_txn _ _ _ _ _ _ Hfg) | left|]. intros bf ->. cbv zeta.
  rewrite (fg_same _ _ _ _ _ _ Hfg) by (right; apply Hio). fold (entry j).
  rewrite fmap_app, list_fmap_singleton, nonzero_snoc. case_decide as E0.
  - rewrite E0. cbn. eapply wp_Ret; [done|]. by exists i', blocks'.
  - rewrite (proj2 (truthy_spec _) E0). cbn [when]. rewrite <- (entry_blk j Hj Hne) in *. rewrite app_assoc.
    assert (0 <= NDIRECT + j < MAXFILE) as Hm by (unfold MAXFILE, NDIRECT; lia).
    destruct (fi_blk _ _ _ Hfile _ Hm E0) as [Ho _].
    eapply wp_mono; [apply (free_step [(b, addr i NDIRECT)] _ k blocks k' blocks' _ Hfg Hvol Hsb Ho); try done; try (simpl; lia)|].
    + rewrite elem_of_app, direct_elem, entry_elem by auto.
      intros [(_ & bn & Hbn & Eb)|(_ & j' & Hj' & Eb)]; apply (fi_inj _ _ _ Hfile) in Eb; try done; try lia.
      * assert (j' = j) by lia. by subst.
      * specialize (Hpre j' ltac:(by left)). unfold MAXFILE, NDIRECT in *. lia.
    + simpl. apply list.Forall_singleton. apply Hio.
    + intros _ k2 (Hic2 & blocks2 & Hfg2). exists i', blocks2. by rewrite Hic2.
Qed.

Lemma itrunc_indirect k1 :
  truncated [] (nonzero (addr i <$> seqZ 0 NDIRECT)) (seqZ 0 NDIRECT) k1 ->
  wp (let* a := get_addr (Some n) NDIRECT in
      when (truthy a) (
        let* bp := bread ROOTDEV a in
        for_each (seqZ 0 NINDIRECT) (fun j =>
          let* bf := get_buf bp in
          let a := word_at (b_data bf) (4 * Z.to_nat j) in
          when (truthy a) (bfree ROOTDEV a)) ;;
        brelse bp ;;
        let* a := get_addr (Some n) NDIRECT in
        bfree ROOTDEV a ;;
        set_addr (Some n) NDIRECT 0))
    (fun _ => truncated [] all_blocks (seqZ 0 NDIRECT ++ [NDIRECT])) k1.
Proof.
  intros Htr. pose proof Hrd as [Ht Hsb _ _ Hi Hcap]. assert (NDIRECT ∉ seqZ 0 NDIRECT) as Hnd by (rewrite elem_of_seqZ; lia).
  apply wp_bind. eapply wp_Ret; [by eapply truncated_get|]. unfold all_blocks. destruct (Z.eqb_spec (addr i NDIRECT) 0) as [E|E].
  - rewrite E. cbn. eapply wp_Ret; [done|]. rewrite app_nil_r. destruct Htr as (i' & blocks' & Hfg & Hic & Hz).
    exists i', blocks'. split_and!; try done. by apply zeroed_skip.
  - rewrite (proj2 (truthy_spec _) E). cbn [when]. destruct Htr as (i1 & blocks1 & Hfg & Hic & Hz).
    pose proof (fi_ind _ _ _ Hfile E) as Hio. destruct (owned_range _ _ _ _ _ Hvol Hio) as [Hir _].
    pose proof Hfg as [B1 B2 B3 B4 B5 B6]. pose proof Hcap as (_ & Hc2 & _). unfold pending in *.
    eapply wp_step; [apply (txn_bread [] start blocks1 (addr i NDIRECT));
      [done | rewrite (sy_size _ _ B2); lia | simpl; lia | apply not_elem_of_nil]|].
    intros b k2 (Ht2 & Hk2 & Hv2).
    eapply wp_step; [apply (itrunc_entries b); [done|]|].
    { exists i1, blocks1. split_and!; [by eapply freeing_kept | | done]. by rewrite (kp_icache _ _ Hk2). }
    intros _ k3 (i3 & blocks3 & Hfg3 & Hic3 & Hz3). eapply wp_step; [eapply txn_brelse; apply Hfg3|].
    intros _ k4 (Ht4 & Hk4 & Hv4). rewrite app_assoc.
    assert (truncated [] (nonzero (addr i <$> seqZ 0 NDIRECT) ++ nonzero (entry <$> seqZ 0 NINDIRECT)) (seqZ 0 NDIRECT) k4) as Htr4.
    { exists i3, blocks3. split_and!; [by eapply freeing_kept | by rewrite (kp_icache _ _ Hk4) | done]. }
    apply wp_bind. eapply wp_Ret; [by eapply truncated_get|]. apply free_addr; try done.
    rewrite elem_of_app, direct_elem, entry_elem by (try done; intros j Hj%elem_of_seqZ; lia).
    intros [(_ & bn & Hbn & Eb)|(_ & j & Hj%elem_of_seqZ & Eb)].
    + destruct (fi_blk _ _ _ Hfile bn) as [_ Hn]; [unfold MAXFILE; assert (0 < NINDIRECT) by done; lia | congruence | congruence].
    + destruct (fi_blk _ _ _ Hfile (NDIRECT + j)) as [_ Hn]; [unfold MAXFILE, NDIRECT in *; lia | congruence | congruence].
Qed.

(** What [itrunc] leaves: an empty file whose blocks are free. *)
Record trunc_post (k' : kernel) (i' : inode) (blocks' : list Z) : Prop := {
  tr_ready : ready [] k' i' blocks';
  tr_inode : i' = upd_i_size (fun _ => 0) (upd_i_addrs (fun _ => repeat 0 13) i);
  tr_icache : icache k' = <[n := i']> (icache k);
  tr_steady : steady k k';
  tr_used : forall y, 0 <= y < sb_size s -> used s (view k') y = used s (view k) y && negb (bool_decide (y ∈ all_blocks));
  tr_data : forall y, data_start s <= y -> view k' y = view k y;
  tr_stored : dinode_fits i -> stored_inode s (view k') (i_inum i) i' = i';
  tr_inodes : forall m j, inode_there s m -> m <> i_inum i -> stored_inode s (view k') m j = stored_inode s (view k) m j;
}.

Lemma zero_addr j : addr (upd_i_addrs (fun _ => repeat 0 13) i) j = 0.
Proof. unfold addr. cbn [i_addrs upd_i_addrs]. apply nth_repeat. Qed.

Lemma file_ok_empty v i' : i_addrs i' = repeat 0 13 -> file_ok s v i'.
Proof.
  intros Ea. assert (forall j, addr i' j = 0) as Hz by (intros j; unfold addr; rewrite Ea; apply nth_repeat).
  assert (forall bn, blk_of v i' bn = 0) as Hb by (intros bn; unfold blk_of; rewrite !Hz; by destruct (bn <? NDIRECT)).
  split.
  - by rewrite Ea.
  - by rewrite Hz.
  - intros bn _. by rewrite Hb.
  - intros bn bn' _ _. by rewrite Hb.
Qed.

Lemma zeroed_all i' : zeroed (seqZ 0 NDIRECT ++ [NDIRECT]) i' -> i' = upd_i_addrs (fun _ => repeat 0 13) i.
Proof.
  intros [A1 A2 A3]. rewrite A1. f_equal. assert (i_addrs i' = repeat 0 13) as ->; [|done].
  apply (nth_ext _ _ 0 0); [by rewrite A2|]. intros m Hm. rewrite A2 in Hm. rewrite nth_repeat.
  specialize (A3 (Z.of_nat m) ltac:(lia)). unfold addr in A3 at 1. rewrite Nat2Z.id in A3. rewrite A3. rewrite decide_True; [done|].
  apply elem_of_app. unfold NDIRECT. rewrite elem_of_seqZ, list_elem_of_singleton. lia.
Qed.

(** The inode block is written last. *)
Lemma trunc_done k2 blocks2 k4 i3 :
  inode_there s (i_inum i) -> freeing [] all_blocks k blocks k2 blocks2 ->
  i3 = upd_i_size (fun _ => 0) (upd_i_addrs (fun _ => repeat 0 13) i) -> icache k4 = <[n := i3]> (icache k) ->
  steady k2 k4 -> txn [] start (absorb (IBLOCK (i_inum i) s) blocks2) k4 ->
  (forall y, view k4 y = if y =? IBLOCK (i_inum i) s
     then write_dinode i3 (dinode_off (i_inum i)) (view k2 (IBLOCK (i_inum i) s)) else view k2 y) ->
  trunc_post k4 i3 (absorb (IBLOCK (i_inum i) s) blocks2).
Proof.
  intros Hthere [B1 B2 B3 B4 B5 B6] Ei Hic Hst Ht4 Hv4. pose proof Hrd as [Ht Hsb _ _ Hi Hcap].
  destruct (iblock_there _ _ _ _ _ Hvol Hthere) as (Hib & Hibr & _ & E1). pose proof (steady_trans _ _ _ B2 Hst) as Hst'.
  assert (i_addrs i3 = repeat 0 13) as Ea by (by rewrite Ei).
  assert (forall y, sb_bmapstart s <= y -> view k4 y = view k2 y) as Hhi.
  { intros y Hy. by rewrite Hv4, (proj2 (Z.eqb_neq _ _)) by lia. }
  assert (volume s start (disksize k) (view k4)) as Hvol4.
  { apply (meta_volume s start (disksize k) (view k2)); try done. intros y Hy. rewrite Hv4.
    case_match; [rewrite write_dinode_length|]; by apply B3. }
  assert (sb_bmapstart s < data_start s) as Hbd.
  { destruct (bitmap_block _ _ _ _ 0 Hvol) as (_ & Hr & _); [|lia]. pose proof (data_start_pos _ _ _ _ Hvol). destruct Hvol. lia. }
  split; try done.
  - split; try done.
    + by rewrite (sy_sb _ _ Hst').
    + by rewrite (sy_size _ _ Hst').
    + by apply file_ok_empty.
    + rewrite Hic. apply list_lookup_insert_eq. by eapply lookup_lt_Some.
    + by eapply cap_steady.
  - intros y Hy. rewrite (meta_used s start (disksize k) (view k2)) by done. by apply B5.
  - intros y Hy. rewrite Hhi by lia. apply B4. by right.
  - intros [D1 D2 D3]. unfold stored_inode. rewrite Hv4, Z.eqb_refl. apply read_write_dinode.
    + split; [by rewrite Ei | | by rewrite Ea]. rewrite Ea, Ei. repeat (constructor; [simpl; lia|]). constructor.
    + rewrite (vo_len _ _ _ _ B3) by lia. apply dinode_off_range.
  - intros m j Hm Hne. destruct (iblock_there _ _ _ _ _ Hvol Hm) as (Hmr & _ & _ & E2).
    transitivity (stored_inode s (view k2) m j); unfold stored_inode.
    + rewrite Hv4. destruct (Z.eqb_spec (IBLOCK m s) (IBLOCK (i_inum i) s)) as [E|]; [|done].
      rewrite <- E. apply read_write_dinode_ne; [by rewrite Ea|]. destruct Hm, Hthere. apply dinode_apart; [done | done | lia | done].
    + rewrite B4; [done|]. left. lia.
Qed.

Lemma itrunc_spec :
  inode_there s (i_inum i) ->
  wp (itrunc (Some n)) (fun _ k' => exists i' blocks', trunc_post k' i' blocks') k.
Proof.
  intros Hthere. pose proof Hrd as [Ht Hsb _ _ Hi Hcap]. unfold itrunc.
  apply wp_bind. eapply wp_Ret; [by apply get_inode_eq|]. rewrite Hdev.
  eapply wp_step; [apply itrunc_direct|]. intros [] k1 Htr1. apply wp_assoc.
  eapply wp_step; [by apply itrunc_indirect|]. intros _ k2 (i2 & blocks2 & Hfg & Hic2 & Hz%zeroed_all). pose proof Hfg as [B1 B2 B3 B4 B5 B6].
  assert (icache k2 !! n = Some i2) as Hi2.
  { rewrite Hic2. apply list_lookup_insert_eq. by eapply lookup_lt_Some. }
  apply wp_bind. eapply wp_Ret; [by apply set_size_eq|]. set (i3 := upd_i_size _ i2). set (k3 := upd_icache _ k2).
  assert (i_inum i3 = i_inum i) as En by (unfold i3; by rewrite Hz).
  assert (i_addrs i3 = repeat 0 13) as Ea by (unfold i3; by rewrite Hz).
  assert (ready [] k3 i3 blocks2) as Hrd3.
  { split.
    - by apply txn_icache.
    - exact (eq_trans (sy_sb _ _ B2) Hsb).
    - change (disksize k3) with (disksize k2). by rewrite (sy_size _ _ B2).
    - by apply file_ok_empty.
    - apply list_lookup_insert_eq. by eapply lookup_lt_Some.
    - exact (cap_steady N _ _ B2 Hcap). }
  unfold pending in *. pose proof (absorb_length (IBLOCK (i_inum i3) s) blocks2).
  eapply wp_mono; [apply (iupdate_spec k3 i3 blocks2 Hrd3); [unfold i3; by rewrite Hz | by rewrite En | lia]|].
  intros _ k4 (Ht4 & Hk4 & Hv4). rewrite En in *. exists i3, (absorb (IBLOCK (i_inum i) s) blocks2).
  apply (trunc_done k2 blocks2 k4 i3); try done.
  - unfold i3. by rewrite Hz.
  - rewrite (kp_icache _ _ Hk4). unfold k3. simpl. by rewrite Hic2, list_insert_insert_eq.
  - destruct Hk4. by split.
Qed.
End itrunc.
End bmap.

End txn.

(** ** What the operations promise *)

Section promises.
Context `{Machine} `{DevOps} (c p : nat).
#[local] Existing Instance memide.

(** The log has the room that [begin_op] reserves for one operation. *)
Definition in_op (blocks : list Z) (k : kernel) : Prop :=
  l_size (klog k) = LOGSIZE /\ 1 <= l_outstanding (klog k) /\ Z.of_nat (length blocks) + MAXOPBLOCKS <= LOGSIZE.

(** An inode of a regular file or directory of a volume with one bitmap block,
    in slot [n] of the inode cache. *)
Record file_at (s : superblock) (start : Z) (n : nat) (k : kernel) (i : inode) : Prop := {
  fa_sb : sb k = s;
  fa_one : sb_size s < BPB;
  fa_vol : volume s start (disksize k) (view k);
  fa_slot : icache k !! n = Some i;
  fa_dev : i_dev i = ROOTDEV;
  fa_type : i_type i <> T_DEV;
  fa_inum : inode_there s (i_inum i);
  fa_size : 0 <= i_size i;
  fa_file : file_ok s (view k) i;
  fa_full : full (view k) i;
}.

Definition filewrite_max : Z := (MAXOPBLOCKS - 1 - 1 - 2) / 2 * BSIZE.

Lemma left_small off m : 0 <= off -> m <= filewrite_max -> (left_blocks off m 0 <= 4)%nat.
Proof.
  intros Ho Hm. change filewrite_max with 1536 in Hm. unfold left_blocks, BSIZE. destruct (Z.leb_spec m 0); [lia|].
  rewrite Z.add_0_r. assert ((off + m - 1) / 512 - off / 512 <= 3) by (Z.div_mod_to_equations; lia). lia.
Qed.

Lemma missing_one s start size v blocks : volume s start size v -> sb_size s < BPB -> (missing s blocks <= 1)%nat.
Proof.
  intros Hvol Hs. unfold missing. etransitivity; [apply length_filter|]. unfold bitmap_blocks. rewrite length_seqZ.
  rewrite Z.div_small; [lia|]. pose proof (data_start_pos _ _ _ _ Hvol). destruct Hvol. lia.
Qed.

Lemma in_op_cap blocks k : in_op blocks k -> cap (length blocks + 7) k.
Proof. intros (H1 & H2 & H3). unfold cap. rewrite H1. unfold LOGSIZE, MAXOPBLOCKS, NBUF in *. lia. Qed.

Lemma file_at_ready s start n k i blocks :
  txn c p [] start blocks k -> file_at s start n k i -> in_op blocks k -> ready c p s start n (length blocks + 7) [] k i blocks.
Proof. intros Ht [] Hop. split; try done. by apply in_op_cap. Qed.

Lemma contents_other s v v' j :
  full v j -> 0 <= i_size j -> (file_ok s v' j /\ forall x, 0 <= x < MAXFILE * BSIZE -> file_byte v' j x = file_byte v j x) ->
  contents v' j = contents v j.
Proof. intros [Hm _] Hs [_ Hb]. by apply contents_ext. Qed.

Lemma readi_contents s start blocks n i off cnt k :
  txn c p [] start blocks k -> file_at s start n k i -> 0 <= off <= i_size i -> 0 <= cnt -> off + cnt < 2 ^ 32 ->
  exists k', readi (Some n) off cnt k =
      Ret (Z.min cnt (i_size i - off), take (Z.to_nat cnt) (drop (Z.to_nat off) (contents (view k) i))) k' /\
    (forall x, view k' x = view k x) /\ icache k' = icache k /\ disk k' = disk k.
Proof.
  intros Ht [H1 H2 H3 H4 H5 H6 H7 H8 H9 H10] Hoff Hcnt Hsum.
  destruct (readi_spec c p s start blocks n i off cnt k) as (r & k' & Hrun & -> & _ & Hk & Hv); try done.
  { by apply (rg_count _ _ _ (tx_region _ _ _ _ _ _ Ht)). }
  exists k'. split_and!; [|done | apply Hk | apply Hk]. rewrite Hrun. unfold read_count. do 2 f_equal.
  rewrite file_bytes_contents by lia. destruct (Z.le_gt_cases cnt (i_size i - off)); [by rewrite Z.min_l by lia|].
  rewrite Z.min_r by lia. rewrite !firstn_all2; [done | rewrite length_drop, contents_length by lia; lia..].
Qed.

(** C21: [readi] of a file reads exactly its bytes: asked for [cnt] bytes from
    offset [off], it returns those of them that lie before the end of the
    file and how many they are, whichever of the direct and indirect blocks
    they are in and whether these are cached or on the disk; it changes
    neither what any block holds nor the inode cache nor the disk. *)
Theorem readi_reads s start blocks n i off cnt k :
  txn c p [] start blocks k -> file_at s start n k i -> 0 <= off <= i_size i -> 0 <= cnt -> off + cnt < 2 ^ 32 ->
  exists k', readi (Some n) off cnt k =
      Ret (Z.min cnt (i_size i - off), take (Z.to_nat cnt) (drop (Z.to_nat off) (contents (view k) i))) k' /\
    (forall x, view k' x = view k x) /\ icache k' = icache k /\ disk k' = disk k.
Proof.
  apply readi_contents.
Qed.

Lemma take_drop_splice off src d : (off <= length d)%nat -> take (length src) (drop off (splice off src d)) = src.
Proof.
  intros Ho. unfold splice. rewrite drop_app_length' by (rewrite length_take; lia). by apply take_app_length.
Qed.

Lemma file_at_after s start n N k i off src k' i' blocks' :
  file_at s start n k i -> write_post c p s start n N k i off src k' i' blocks' -> file_at s start n k' i'.
Proof.
  intros [] [[] A2 A3 A4 A5 A6 A7 A8 A9 A10 _]. split; try done; rewrite A2; try done. simpl. lia.
Qed.

(** C3: [writei] refines the replacement of bytes in a list.  Inside a
    transaction with the room that [begin_op] reserves, a write of at most
    the bytes that [filewrite] passes in one operation, at any offset up to
    the end of the file, with enough free blocks for what it adds, returns
    the number of bytes; the contents of the file become the old ones with
    the bytes spliced in, the file growing where they reach over its end,
    through newly allocated direct and indirect blocks; reading them back
    gives the bytes written.  The inode on the disk stays that of the file,
    all other inodes and the contents of every file with other blocks stay
    the same, nothing but the log's own list changes on the disk, and the
    operation adds at most seven blocks to the transaction. *)
Theorem writei_splices s start blocks n i off src k :
  txn c p [] start blocks k -> file_at s start n k i -> in_op blocks k -> dinode_fits i ->
  stored_inode s (view k) (i_inum i) i = i ->
  0 <= off <= i_size i -> Z.of_nat (length src) <= filewrite_max -> off + Z.of_nat (length src) <= MAXFILE * BSIZE ->
  (5 <= length (free_blocks s (view k)))%nat ->
  exists k' i' blocks',
    writei (Some n) src off (Z.of_nat (length src)) k = Ret (Z.of_nat (length src)) k' /\
    icache k' = <[n := i']> (icache k) /\
    contents (view k') i' = splice (Z.to_nat off) src (contents (view k) i) /\
    (exists k'', readi (Some n) off (Z.of_nat (length src)) k' = Ret (Z.of_nat (length src), src) k'') /\
    stored_inode s (view k') (i_inum i) i' = i' /\
    (forall m j, inode_there s m -> m <> i_inum i -> stored_inode s (view k') m j = stored_inode s (view k) m j) /\
    (forall j, file_ok s (view k) j -> full (view k) j -> 0 <= i_size j -> separate (view k) i j ->
       contents (view k') j = contents (view k) j) /\
    disk k' = disk k /\ txn c p [] start blocks' k' /\ (length blocks' <= length blocks + 7)%nat.
Proof.
  intros Ht Hfa Hop Hfits Hst Hoff Hcnt Hmax Hfree. pose proof (file_at_ready _ _ _ _ _ _ Ht Hfa Hop) as Hrd.
  pose proof Hfa as [F1 F2 F3 F4 F5 F6 F7 F8 F9 F10]. pose proof (left_small off _ (proj1 Hoff) Hcnt) as Hleft.
  destruct (writei_spec c p s start n (length blocks + 7) k i blocks off src) as (r & k' & Hrun & -> & i' & blocks' & Hw); try done.
  { pose proof (missing_one _ _ _ _ blocks F3 F2). unfold weight. case_decide; lia. }
  { intros _. unfold ind_need. destruct (_ =? 0); lia. }
  pose proof Hw as [[A1 _ _ _ _ _] A2 A3 A4 A5 A6 A7 A8 A9 A10 _]. exists k', i', blocks'.
  assert (contents (view k') i' = splice (Z.to_nat off) src (contents (view k) i)) as Ec.
  { apply contents_splice; try done; [by apply F10 | by rewrite A2]. }
  split_and!; try done; [| by apply A7 | | apply A4].
  - destruct (readi_contents s start blocks' n i' off (Z.of_nat (length src)) k') as (k'' & Hrd'' & _); try done.
    + by eapply file_at_after.
    + rewrite A2. simpl. lia.
    + lia.
    + change (MAXFILE * BSIZE) with 71680 in Hmax. lia.
    + exists k''. rewrite Hrd'', Ec, Nat2Z.id, take_drop_splice by (rewrite contents_length by lia; lia).
      rewrite A2. simpl. by rewrite Z.min_l by lia.
  - intros j Hj Hfj Hsj Hsep. by apply (contents_other s), A9.
Qed.

(** C12: [itrunc] empties a file: afterwards its size is 0, it has no
    blocks, the bitmap has exactly the blocks of the file less - direct,
    indirect and the indirect block itself -, the inode on the disk is the
    empty one, and the other inodes and the contents of the files with other
    blocks are the same. *)
Theorem itrunc_frees s start blocks n i k :
  txn c p [] start blocks k -> file_at s start n k i -> in_op blocks k -> dinode_fits i ->
  exists k' i',
    itrunc (Some n) k = Ret tt k' /\ icache k' = <[n := i']> (icache k) /\
    contents (view k') i' = [] /\ file_ok s (view k') i' /\ (forall bn, blk_of (view k') i' bn = 0) /\
    (forall y, 0 <= y < sb_size s -> used s (view k') y = true <->
       used s (view k) y = true /\
       ~ (y <> 0 /\ of_file (view k) i y)) /\
    stored_inode s (view k') (i_inum i) i' = i' /\
    (forall m j, inode_there s m -> m <> i_inum i -> stored_inode s (view k') m j = stored_inode s (view k) m j) /\
    (forall j, file_ok s (view k) j -> full (view k) j -> 0 <= i_size j -> separate (view k) i j ->
       file_ok s (view k') j /\ contents (view k') j = contents (view k) j).
Proof.
  intros Ht Hfa Hop Hfits. pose proof (file_at_ready _ _ _ _ _ _ Ht Hfa Hop) as Hrd.
  pose proof Hfa as [F1 F2 F3 F4 F5 F6 F7 F8 F9 F10].
  destruct (itrunc_spec c p s start n (length blocks + 7) k i blocks Hrd F5) as ([] & k' & Hrun & i' & blocks' & Htr); try done.
  { pose proof (missing_one _ _ _ _ blocks F3 F2). unfold pending. lia. }
  destruct Htr as [[A1 _ A1v A1f _ _] A2 A3 A4 A5 A6 A7 A8]. exists k', i'. split_and!; try done.
  - by rewrite A2.
  - intros bn. rewrite A2. unfold blk_of, addr. cbn [i_addrs upd_i_size upd_i_addrs]. rewrite !nth_repeat. by destruct (bn <? NDIRECT).
  - intros y Hy. rewrite A5 by done. rewrite andb_true_iff, negb_true_iff, bool_decide_eq_false, (all_blocks_elem k i). done.
  - by apply A7.
  - intros j Hj Hfj Hsj Hsep.
    assert (forall y, owned s (view k) y -> of_file (view k) j y -> view k' y = view k y /\ used s (view k') y = true) as Hsame.
    { intros y Ho Hy. destruct (owned_range _ _ _ _ _ F3 Ho) as [Hr _]. destruct Ho as [Hyr Hyu]. split; [apply A6; lia|].
      rewrite A5, Hyu by lia. rewrite bool_decide_false; [done|]. rewrite (all_blocks_elem k i).
      intros [_ Hof]. by apply (Hsep y ltac:(lia) Hy). }
    assert (file_ok s (view k') j) as Hj' by (by apply (other_file s (view k))). split; [done|].
    apply (contents_other s); try done. split; [done|]. intros x. by apply (other_byte s (view k)).
Qed.

(** C20: the bitmap.  [balloc] returns a block of the data area that was
    free, marks it and no other block as used, and fills it with zeros;
    [bfree] of that block puts every other block, the bitmap included, back
    to what it was; a second [bfree] panics. *)
Theorem balloc_bfree s start blocks k :
  txn c p [] start blocks k -> sb k = s -> volume s start (disksize k) (view k) -> in_op blocks k ->
  free_blocks s (view k) <> [] ->
  exists x k1 k2, balloc ROOTDEV k = Ret x k1 /\ fresh_block s (view k) x /\
    view k1 x = repeat 0 (Z.to_nat BSIZE) /\
    (forall y, 0 <= y < sb_size s -> used s (view k1) y = (y =? x) || used s (view k) y) /\
    (forall y, data_start s <= y -> y <> x -> view k1 y = view k y) /\
    bfree ROOTDEV x k1 = Ret tt k2 /\ (forall y, y <> x -> view k2 y = view k y) /\
    exists k3, bfree ROOTDEV x k2 = Panic "freeing free block" k3.
Proof.
  intros Ht Hsb Hvol Hop Hfree. pose proof (in_op_cap _ _ Hop) as Hcap. pose proof (data_start_pos _ _ _ _ Hvol) as Hpos.
  destruct (balloc_spec c p s start [] blocks (length blocks + 7) k) as (x & k1 & Hrun1 & Hr & Hu & Ht1 & Hk1 & Hv1); try done.
  { simpl. lia. }
  { destruct (free_blocks s (view k)) as [|x l] eqn:E; [done|]. exists x. apply free_blocks_elem. rewrite E. left. }
  { intros x _ _. pose proof (absorb_length x (absorb (BBLOCK x s) blocks)). pose proof (absorb_length (BBLOCK x s) blocks). lia. }
  assert (fresh_block s (view k) x) as Hx by done. set (blocks1 := absorb x _) in *.
  assert (forall y, 0 <= y < sb_size s -> used s (view k1) y = (y =? x) || used s (view k) y) as Hu1.
  { intros y Hy. rewrite (used_ext s (allocated s x (view k))) by done. by apply (allocated_used s start (disksize k)). }
  assert (volume s start (disksize k1) (view k1)) as Hvol1.
  { rewrite (kp_size _ _ Hk1). eapply volume_ext; [exact Hv1|]. pose proof Hvol as []. split; try done.
    - intros y Hy. by apply (allocated_len s start (disksize k)).
    - intros y Hy. rewrite (allocated_used s start (disksize k)) by (done || lia). rewrite vo_meta by done. apply orb_true_r. }
  assert (length blocks1 <= length blocks + 2)%nat as Hl1.
  { unfold blocks1. pose proof (absorb_length x (absorb (BBLOCK x s) blocks)). pose proof (absorb_length (BBLOCK x s) blocks). lia. }
  pose proof (absorb_length (BBLOCK x s) blocks1) as Hl2.
  destruct (bfree_spec c p s [] start blocks1 x (length blocks + 7) k1) as ([] & k2 & Hrun2 & Ht2 & Hk2 & Hv2); try done; try (simpl; lia).
  { by rewrite (kp_sb _ _ Hk1). }
  { rewrite Hu1 by lia. by rewrite Z.eqb_refl. }
  { by eapply cap_kept. }
  exists x, k1, k2. split_and!; try done.
  - rewrite Hv1. unfold allocated. by rewrite Z.eqb_refl.
  - intros y Hy Hne. rewrite Hv1. unfold allocated. rewrite (proj2 (Z.eqb_neq y x)) by done.
    destruct (bitmap_block _ _ _ _ x Hvol ltac:(lia)) as (_ & Hb & _). by rewrite (proj2 (Z.eqb_neq _ _)) by lia.
  - intros y Hy. rewrite Hv2. unfold freed. rewrite !Hv1. by apply (freed_allocated s start (disksize k)).
  - apply (bfree_free c p s start (absorb (BBLOCK x s) blocks1) x (length blocks + 7)); try done; try lia.
    + by rewrite (kp_sb _ _ Hk2), (kp_sb _ _ Hk1).
    + rewrite (kp_size _ _ Hk2). eapply volume_ext; [exact Hv2|]. by apply freed_volume.
    + rewrite (used_ext s (freed s x (view k1))) by done. rewrite (freed_used s start (disksize k1)) by (done || lia).
      by rewrite Z.eqb_refl.
    + by eapply cap_kept, cap_kept.
Qed.
End promises.

(** *** On a concrete machine *)

#[local] Existing Instance memide.

(** Drivers that refuse. *)
Definition no_devices : DevOps := {| dev_read _ _ _ := ret (-1, []); dev_write _ _ _ _ := ret (-1) |}.

(** A volume of 1000 blocks as [mkfs] lays it out, with one empty
    inode, of type [ty]. *)
Definition small_sb : superblock := Superblock 1000 941 200 30 2 32 58.
Definition empty_inode (ty : Z) : inode := Inode ROOTDEV 1 1 1 ty 0 0 1 0 (repeat 0 13).
Definition small_disk (ty x : Z) : list Z :=
  if x =? 58 then repeat 255 7 ++ [7] ++ repeat 0 504
  else if x =? 32 then write_dinode (empty_inode ty) (dinode_off 1) (repeat 0 512) else repeat 0 512.

Lemma small_volume ty : volume small_sb 2 FSSIZE (small_disk ty).
Proof.
  split; [done | done | done | done | done | |].
  - intros x _. unfold small_disk. destruct (x =? 58); [done|]. destruct (x =? 32); [|done].
    rewrite write_dinode_length. apply repeat_length.
  - intros x Hx. change (data_start small_sb) with 59 in Hx.
    assert (forallb (used small_sb (small_disk ty)) (seqZ 0 59) = true) as Hall by (vm_compute; done).
    rewrite forallb_forall in Hall. apply Hall, list_elem_of_In, elem_of_seqZ. lia.
Qed.

Lemma small_free ty : (length (free_blocks small_sb (small_disk ty)) = 941)%nat.
Proof.
  rewrite <- (free_count_used small_sb (small_disk ty) (small_disk 0)); [vm_compute; done|].
  intros y Hy. unfold used, BBLOCK. rewrite Z.div_small by (change BPB with 4096; simpl in Hy; lia). done.
Qed.

Lemma small_fits ty : 0 <= ty < 2 ^ 15 -> dinode_fits (empty_inode ty).
Proof.
  intros Hty. split; [| | done]; unfold empty_inode; simpl; repeat (apply list.Forall_cons; split; [lia|]); by apply list.Forall_nil.
Qed.

Lemma small_machine `{Machine} ty :
  0 <= ty < 2 ^ 15 -> ty <> T_DEV ->
  exists k, txn 0 0 [] 2 [] k /\ file_at small_sb 2 0 k (empty_inode ty) /\ in_op [] k /\ (forall x, view k x = small_disk ty x) /\
    stored_inode small_sb (view k) 1 (empty_inode ty) = empty_inode ty.
Proof.
  intros Hty Hdv. destruct (log_boot_ready (small_disk ty) 1) as (k0 & _ & [Hok Hnp Hdev Hst Hlb] & Hd & Hw & Hs & Hl & Hv).
  set (k := upd_sb (fun _ => small_sb) (upd_icache (fun _ => [empty_inode ty]) k0)). exists k.
  assert (forall x, view k x = small_disk ty x) as Hvk by exact Hv.
  assert (volume small_sb 2 (disksize k) (view k)) as Hvol.
  { change (disksize k) with (disksize k0). rewrite Hs. eapply volume_ext; [exact Hvk | apply small_volume]. }
  split_and!; [| | | done |].
  - split; try done.
    + by destruct Hok.
    + intros b blk []%not_elem_of_nil.
    + split; try (change (klog k) with (klog k0)); by rewrite Hl.
    + change (disksize k) with (disksize k0). rewrite Hs. apply region_boot; [constructor | simpl; unfold NBUF; lia | constructor].
    + intros x. split; [intros Hp; by apply Hnp in Hp | intros []%not_elem_of_nil].
  - split; try done.
    + by apply (file_ok_empty small_sb).
    + split; [done|]. intros bn Hbn. change (i_size (empty_inode ty)) with 0. unfold BSIZE. lia.
  - unfold in_op. change (klog k) with (klog k0). by rewrite Hl.
  - unfold stored_inode. rewrite Hvk. change (IBLOCK 1 small_sb) with 32. apply read_write_dinode; [by apply small_fits|].
    rewrite repeat_length. apply dinode_off_range.
Qed.

(** The file after 600 bytes were written to it. *)
Lemma small_written `{Machine} `{DevOps} :
  exists k i blocks, txn 0 0 [] 2 blocks k /\ file_at small_sb 2 0 k i /\ in_op blocks k /\ dinode_fits i /\
    i_size i = 600 /\ i_inum i = 1 /\ contents (view k) i = repeat 7 600.
Proof.
  destruct (small_machine T_FILE) as (k & Ht & Hfa & Hop & Hv & Hst); [done | done|]. pose proof (file_at_ready 0 0 _ _ _ _ _ _ Ht Hfa Hop) as Hrd.
  pose proof Hfa as [F1 F2 F3 F4 F5 F6 F7 F8 F9 F10].
  destruct (writei_spec 0 0 small_sb 2 0 7 k (empty_inode T_FILE) [] 0 (repeat 7 600)) as (r & k' & _ & _ & i' & blocks' & Hw); try done.
  { pose proof (missing_one _ _ _ _ [] F3 F2). pose proof (left_small 0 600 ltac:(done) ltac:(done)).
    unfold weight. change (Z.of_nat (length (repeat 7 600))) with 600. simpl length. case_decide; lia. }
  { intros _. rewrite (free_count_used small_sb (small_disk T_FILE)) by (intros; by apply used_ext). rewrite small_free.
    vm_compute. lia. }
  pose proof (file_at_after 0 0 _ _ _ _ _ _ _ _ _ _ _ Hfa Hw) as Hfa'.
  pose proof Hw as [[A1 _ _ A1f _ _] A2 A3 A4 A5 A6 A7 A8 A9 A10 _]. exists k', i', blocks'.
  assert (i_size i' = 600) as Es by (rewrite A2; done). split_and!; try done.
  - destruct Hop as (H1 & H2 & H3). unfold in_op. rewrite (sy_lsize _ _ A4), (sy_open _ _ A4).
    split_and!; [done | done|]. unfold LOGSIZE, MAXOPBLOCKS. simpl in A10. lia.
  - split; [by rewrite A2; by apply small_fits | | apply A1f]. constructor; [lia|].
    eapply file_addrs; [apply Hfa' | apply Hfa'].
  - by rewrite A2.
  - rewrite (contents_splice (view k) (empty_inode T_FILE) (view k') i' 0 (repeat 7 600)); done.
Qed.

Lemma readi_reads_witness :
  let _ := alone LOTTERY in let _ := no_devices in
  exists k k', readi (Some 0%nat) 550 100 k = Ret (50, repeat 7 50) k'.
Proof.
  intros M D. destruct small_written as (k & i & blocks & Ht & Hfa & Hop & _ & Hs & _ & Hc). exists k.
  destruct (readi_reads 0 0 small_sb 2 blocks 0 i 550 100 k Ht Hfa) as (k' & Hrun & _); [lia | lia | lia|].
  exists k'. rewrite Hrun, Hc, Hs. done.
Defined.

Lemma writei_splices_witness :
  let _ := alone LOTTERY in let _ := no_devices in
  exists k k' i', writei (Some 0%nat) (repeat 7 600) 0 600 k = Ret 600 k' /\
    contents (view k') i' = repeat 7 600.
Proof.
  intros M D. destruct (small_machine T_FILE) as (k & Ht & Hfa & Hop & Hv & Hst); [done | done|]. exists k.
  destruct (writei_splices 0 0 small_sb 2 [] 0 (empty_inode T_FILE) 0 (repeat 7 600) k Ht Hfa Hop (small_fits T_FILE ltac:(done)) Hst)
    as (k' & i' & blocks' & Hrun & _ & Hc & _).
  - split; [lia | done].
  - rewrite repeat_length. vm_compute. done.
  - rewrite repeat_length. vm_compute. done.
  - rewrite (free_count_used small_sb (small_disk T_FILE)) by (intros; by apply used_ext). rewrite small_free. lia.
  - exists k', i'. rewrite repeat_length in Hrun. split; [exact Hrun|]. rewrite Hc. done.
Defined.

Lemma itrunc_frees_witness :
  let _ := alone LOTTERY in let _ := no_devices in
  exists k k' i', itrunc (Some 0%nat) k = Ret tt k' /\ contents (view k') i' = [].
Proof.
  intros M D. destruct small_written as (k & i & blocks & Ht & Hfa & Hop & Hfits & _). exists k.
  destruct (itrunc_frees 0 0 small_sb 2 blocks 0 i k Ht Hfa Hop Hfits) as (k' & i' & Hrun & _ & Hc & _).
  by exists k', i'.
Defined.

Lemma balloc_bfree_witness :
  let _ := alone LOTTERY in
  exists k x k1 k2, balloc ROOTDEV k = Ret x k1 /\ bfree ROOTDEV x k1 = Ret tt k2.
Proof.
  intros M. destruct (small_machine T_FILE) as (k & Ht & Hfa & Hop & Hv & _); [done | done|]. exists k. destruct Hfa as [F1 F2 F3 _ _ _ _ _ _ _].
  destruct (balloc_bfree 0 0 small_sb 2 [] k Ht F1 F3 Hop) as (x & k1 & k2 & H1 & _ & _ & _ & _ & H2 & _).
  - intros E. pose proof (small_free T_FILE) as Hf. rewrite <- (free_count_used small_sb (small_disk T_FILE) (view k)), E in Hf; [done|].
    intros; by apply used_ext.
  - by exists x, k1, k2.
Defined.
