(* ===== verification/Dirs.v ===== *)
(** fs.c: directories.  A directory is a file of 16-byte entries; [dirlookup]
    searches the list of them and [dirlink] adds one to it. *)

From S2P Require Import Prelude Ring Memory KString Kernel Spinlock Boot Proc Sleeplock Bio Cache Log Crash Fs Volume Content.

(** ** Entries *)

Definition entry_at (d : list Z) (j : nat) : list Z := take 16 (drop (16 * j) d).
Definition entries (d : list Z) : list (list Z) := entry_at d <$> seq 0 (length d / 16).

(** The entry is in use and has the name. *)
Definition names (nm de : list Z) : bool := negb (de_inum de =? 0) && (namecmp nm (de_name de) =? 0).
Definition unused_entry (de : list Z) : bool := de_inum de =? 0.

Lemma entries_length d : length (entries d) = (length d / 16)%nat.
Proof. unfold entries. by rewrite length_fmap, length_seq. Qed.

Lemma entries_lookup d j : (j < length d / 16)%nat -> entries d !! j = Some (entry_at d j).
Proof. intros Hj. unfold entries. by rewrite list_lookup_fmap, lookup_seq_lt. Qed.

Lemma entries_drop d j : (j < length d / 16)%nat -> drop j (entries d) = entry_at d j :: drop (S j) (entries d).
Proof. intros Hj. apply drop_S. by apply entries_lookup. Qed.

(** ** Names *)

Lemma strncpy_nth nm x :
  Forall (fun b => 0 < b < 256) nm -> (x < 14)%nat -> nth x (strncpy_l (repeat 0 14) nm DIRSIZ) 0 = nth x nm 0.
Proof.
  intros Hnm Hx. unfold strncpy_l, read_mem, strncpy. rewrite repeat_length.
  assert (mem_ok (strings_mem (repeat 0 14) nm)) as Hm.
  { apply strings_mem_ok; [|eapply list.Forall_impl; [exact Hnm | simpl; lia]].
    apply list.Forall_lookup. intros j b Hb. rewrite <- (nth_lookup_Some _ _ 0 _ Hb), nth_repeat. lia. }
  assert (cstr (strings_mem (repeat 0 14) nm) SBASE (Z.of_nat (length nm))) as Hc.
  { apply strings_mem_cstr. eapply list.Forall_impl; [exact Hnm | simpl; lia]. }
  apply nth_lookup_Some. rewrite list_lookup_fmap, lookup_seq_lt by done. cbn [fmap option_fmap option_map].
  rewrite Z.add_0_l, Nat.add_0_l. f_equal.
  rewrite (strncpy_loop_eq _ 0 SBASE _ _ Hm Hc) by (right; vm_compute; done).
  change (Z.of_nat (Z.to_nat DIRSIZ)) with 14. rewrite (proj2 (Z.leb_le 0 _)), (proj2 (Z.ltb_lt _ _)) by lia. cbn [andb].
  rewrite Z.sub_0_r. destruct (Z.ltb_spec (Z.of_nat x) (Z.of_nat (length nm))).
  - unfold strings_mem, SBASE. rewrite (proj2 (Z.ltb_ge _ 0)), (proj2 (Z.ltb_ge _ (2 ^ 16))) by lia. f_equal. lia.
  - rewrite nth_overflow by lia. done.
Qed.

Lemma strncpy_l_length nm : length (strncpy_l (repeat 0 14) nm DIRSIZ) = 14%nat.
Proof. unfold strncpy_l, read_mem. by rewrite length_fmap, length_seq. Qed.

Lemma namecmp_strncpy nm :
  Forall (fun b => 0 < b < 256) nm -> namecmp nm (strncpy_l (repeat 0 14) nm DIRSIZ) = 0.
Proof.
  intros Hnm. unfold namecmp, strncmp_l. apply strncmp_zero. intros j Hj _. change (Z.of_nat (Z.to_nat DIRSIZ)) with 14 in Hj.
  unfold strings_mem, SBASE. rewrite !(proj2 (Z.ltb_ge _ 0)) by lia. rewrite (proj2 (Z.ltb_lt _ (2 ^ 16))) by lia.
  rewrite (proj2 (Z.ltb_ge _ (2 ^ 16))) by lia. replace (2 ^ 16 + j - 2 ^ 16) with j by lia.
  symmetry. apply strncpy_nth; [done | lia].
Qed.

Definition new_entry (nm : list Z) (inum : Z) : list Z := dirent inum (strncpy_l (repeat 0 14) nm DIRSIZ).

Lemma new_entry_length nm inum : length (new_entry nm inum) = 16%nat.
Proof. unfold new_entry, dirent. by rewrite length_app, put_short_length, strncpy_l_length. Qed.

Lemma new_entry_inum nm inum : 0 <= inum < 2 ^ 16 -> de_inum (new_entry nm inum) = inum.
Proof.
  intros Hi. unfold de_inum, new_entry, dirent, put_short, byte_at. simpl. unfold u8. Z.div_mod_to_equations. lia.
Qed.

Lemma new_entry_names nm inum :
  Forall (fun b => 0 < b < 256) nm -> 0 < inum < 2 ^ 16 -> names nm (new_entry nm inum) = true.
Proof.
  intros Hnm Hi. unfold names. rewrite new_entry_inum by lia. rewrite (proj2 (Z.eqb_neq inum 0)) by lia.
  change (de_name (new_entry nm inum)) with (strncpy_l (repeat 0 14) nm DIRSIZ). by rewrite namecmp_strncpy.
Qed.

(** An entry written over another, or behind the last one. *)
Lemma splice_lookup i (l d : list Z) x : (i <= length d)%nat ->
  splice i l d !! x = if decide (i <= x < i + length l)%nat then l !! (x - i)%nat else d !! x.
Proof.
  intros Hi. unfold splice. case_decide as Hx.
  - rewrite lookup_app_r by (rewrite length_take; lia). rewrite length_take, Nat.min_l by lia. by rewrite lookup_app_l by lia.
  - destruct (decide (x < i)%nat).
    + rewrite lookup_app_l by (rewrite length_take; lia). by rewrite lookup_take_lt by lia.
    + rewrite lookup_app_r by (rewrite length_take; lia). rewrite length_take, Nat.min_l by lia.
      rewrite lookup_app_r by lia. rewrite lookup_drop. f_equal. lia.
Qed.

Lemma entry_at_splice j slot de d :
  length de = 16%nat -> (16 * slot <= length d)%nat ->
  entry_at (splice (16 * slot) de d) j = if decide (j = slot) then de else entry_at d j.
Proof.
  intros Hde Hs. unfold entry_at. apply list_eq. intros x. destruct (decide (x < 16)%nat) as [Hx|Hx].
  - rewrite lookup_take_lt, lookup_drop, splice_lookup by lia. rewrite Hde. case_decide as H1; case_decide as H2; try lia.
    + f_equal. lia.
    + by rewrite lookup_take_lt, lookup_drop by lia.
  - rewrite lookup_take_ge by lia. case_decide; [by rewrite lookup_ge_None_2 by lia | by rewrite lookup_take_ge by lia].
Qed.

Definition put_entry (slot : nat) (de : list Z) (es : list (list Z)) : list (list Z) := take slot es ++ [de] ++ drop (S slot) es.

Lemma put_entry_lookup slot de es j : (slot <= length es)%nat ->
  put_entry slot de es !! j = if decide (j = slot) then Some de else es !! j.
Proof.
  intros Hs. unfold put_entry. case_decide as Hj.
  - subst j. rewrite lookup_app_r by (rewrite length_take; lia). rewrite length_take, Nat.min_l, Nat.sub_diag by lia. done.
  - destruct (decide (j < slot)%nat).
    + rewrite lookup_app_l by (rewrite length_take; lia). by rewrite lookup_take_lt by lia.
    + rewrite lookup_app_r by (rewrite length_take; lia). rewrite length_take, Nat.min_l by lia.
      destruct (j - slot)%nat as [|m] eqn:E; [lia|]. simpl. rewrite lookup_drop. f_equal. lia.
Qed.

Lemma entries_splice slot de d :
  length de = 16%nat -> (length d mod 16 = 0)%nat -> (slot <= length d / 16)%nat ->
  entries (splice (16 * slot) de d) = put_entry slot de (entries d).
Proof.
  intros Hde Hd Hs. pose proof (Nat.div_mod (length d) 16 ltac:(lia)) as Ed. rewrite Hd, Nat.add_0_r in Ed.
  assert (length (splice (16 * slot) de d) = 16 * Nat.max (length d / 16) (S slot))%nat as El.
  { unfold splice. rewrite !length_app, length_take, length_drop, Hde. lia. }
  apply list_eq. intros j. rewrite put_entry_lookup by (rewrite entries_length; lia).
  destruct (decide (j < Nat.max (length d / 16) (S slot))%nat) as [Hj|Hj].
  - rewrite entries_lookup, entry_at_splice by (try lia; rewrite El, Nat.mul_comm, Nat.div_mul; lia).
    case_decide; [done|]. symmetry. apply entries_lookup. lia.
  - rewrite lookup_ge_None_2 by (rewrite entries_length, El, Nat.mul_comm, Nat.div_mul; lia).
    rewrite decide_False by lia. symmetry. apply lookup_ge_None_2. rewrite entries_length. lia.
Qed.

(** The first entry with some property, after the one at [slot] was put. *)
Lemma find_put (P : list Z -> bool) slot de es :
  (slot <= length es)%nat -> P de = true -> (forall x, x ∈ es -> P x = false) ->
  list_find (fun x => P x = true) (put_entry slot de es) = Some (slot, de).
Proof.
  intros Hs HP Hno. apply list_find_Some. rewrite put_entry_lookup by done. rewrite decide_True by done.
  split_and!; try done. intros j x Hx Hj. rewrite put_entry_lookup, decide_False in Hx by lia.
  rewrite Hno by (by eapply list_elem_of_lookup_2). done.
Qed.

(** ** Searching *)

Section dirs.
Context `{Machine} `{DevOps} (c p : nat).
#[local] Existing Instance memide.
Context (s : superblock) (start : Z) (n : nat) (blocks : list Z) (i : inode).

Lemma file_at_unchanged k k' : unchanged c p start blocks k k' -> file_at s start n k i -> file_at s start n k' i.
Proof.
  intros (Ht & Hk & Hv) []. split; try done.
  - by rewrite (kp_sb _ _ Hk).
  - rewrite (kp_size _ _ Hk). by eapply volume_ext.
  - by rewrite (kp_icache _ _ Hk).
  - by eapply file_ok_ext.
  - by eapply full_ext.
Qed.

Lemma contents_unchanged k k' : unchanged c p start blocks k k' -> contents (view k') i = contents (view k) i.
Proof. intros (_ & _ & Hv). unfold contents, file_bytes. apply list_fmap_ext. intros m x Hx. by apply file_byte_ext. Qed.

(** The directory in slot [n], whose entries are [es]. *)
Record directory (k : kernel) (es : list (list Z)) : Prop := {
  di_txn : txn c p [] start blocks k;
  di_file : file_at s start n k i;
  di_type : i_type i = T_DIR;
  di_size : i_size i = 16 * Z.of_nat (length es);
  di_entries : entries (contents (view k) i) = es;
}.

Lemma directory_unchanged k k' es : unchanged c p start blocks k k' -> directory k es -> directory k' es.
Proof.
  intros Hu []. split; try done; [apply Hu | by eapply file_at_unchanged | by rewrite (contents_unchanged k)].
Qed.

Lemma unchanged_refl k : txn c p [] start blocks k -> unchanged c p start blocks k k.
Proof. by intros Ht. Qed.

(** Reading one entry. *)
Lemma readi_entry k es j de :
  directory k es -> es !! j = Some de ->
  exists k', unchanged c p start blocks k k' /\ readi (Some n) (16 * Z.of_nat j) sizeof_dirent k = Ret (sizeof_dirent, de) k'.
Proof.
  intros [Ht Hfa Hty Hs He] Hj. pose proof (lookup_lt_Some _ _ _ Hj) as Hlt. pose proof Hfa as [F1 F2 F3 F4 F5 F6 F7 F8 F9 F10].
  assert (i_size i <= 71680) as Hmax by apply F10. unfold sizeof_dirent.
  destruct (readi_spec c p s start blocks n i (16 * Z.of_nat j) 16 k) as (r & k' & Hrun & -> & Hu); try done; try lia.
  { apply (rg_count _ _ _ (tx_region _ _ _ _ _ _ Ht)). }
  exists k'. split; [done|]. rewrite Hrun. unfold read_count. rewrite Z.min_l by lia. do 2 f_equal.
  rewrite file_bytes_contents by lia. rewrite <- He in Hj, Hlt. rewrite entries_length in Hlt. rewrite entries_lookup in Hj by done.
  injection Hj as <-. unfold entry_at. f_equal. f_equal. lia.
Qed.

Section loop.
Context {B : Type} (what : string) (body : Z -> list Z -> M (option B)) (P : list Z -> bool) (es : list (list Z)).
Hypothesis Hbody : forall off de k, P de = false -> body off de k = Ret None k.

Definition dirent_step (off : Z) : M (Z + (Z + B)) :=
  let* i := get_inode (Some n) in
  if off <? i_size i then
    let* ' (r, de) := readi (Some n) off sizeof_dirent in
    if negb (r =? sizeof_dirent) then panic what else
    let* b := body off de in
    match b with
    | Some b => ret (inr (inr b))
    | None => ret (inl (u32 (off + sizeof_dirent)))
    end
  else ret (inr (inl off)).

Lemma dirent_step_entry j k de :
  directory k es -> es !! j = Some de ->
  exists k', unchanged c p start blocks k k' /\
    dirent_step (16 * Z.of_nat j) k =
      bind (body (16 * Z.of_nat j) de) (fun b =>
        match b with Some b => ret (inr (inr b)) | None => ret (inl (16 * Z.of_nat (S j))) end) k'.
Proof.
  intros Hd Hde. pose proof Hd as [Ht Hfa Hty Hs He]. pose proof (lookup_lt_Some _ _ _ Hde) as Hlt.
  destruct (readi_entry k es j de Hd Hde) as (k1 & Hu1 & Hrun). exists k1. split; [done|]. unfold dirent_step.
  unfold bind at 1. rewrite (get_inode_eq n i) by apply Hfa. rewrite (proj2 (Z.ltb_lt _ _)) by lia.
  unfold bind at 1. rewrite Hrun. rewrite Z.eqb_refl. cbn [negb].
  assert (i_size i <= 71680) as Hm by apply (fa_full _ _ _ _ _ Hfa). rewrite u32_small by (unfold sizeof_dirent; lia).
  by replace (16 * Z.of_nat j + sizeof_dirent) with (16 * Z.of_nat (S j)) by (unfold sizeof_dirent; lia).
Qed.

Lemma dirents_iter fuel j k :
  directory k es -> (length (drop j es) < fuel)%nat -> (j <= length es)%nat ->
  exists k' f, unchanged c p start blocks k k' /\ (forall b, f (Some b) = ret (inr b)) /\
    iter fuel dirent_step (16 * Z.of_nat j) k =
    match list_find (fun de => P de = true) (drop j es) with
    | None => Ret (inl (i_size i)) k'
    | Some (m, de) => bind (body (16 * Z.of_nat (j + m)) de) f k'
    end.
Proof.
  revert j k. induction fuel as [|fuel IH]; intros j k Hd Hf Hj; [lia|]. pose proof Hd as [Ht Hfa Hty Hs He].
  cbn [iter]. unfold bind at 1. destruct (decide (j < length es)%nat) as [Hlt|Hge].
  - destruct (lookup_lt_is_Some_2 es j) as [de Hde]; [lia|]. rewrite (drop_S _ _ _ Hde) in Hf |- *. simpl in Hf.
    destruct (dirent_step_entry j k de Hd Hde) as (k1 & Hu1 & ->). cbn [list_find].
    destruct (decide (P de = true)) as [HP|HP].
    + rewrite Nat.add_0_r.
      exists k1, (fun b => match b with Some b => ret (inr b) | None => iter fuel dirent_step (16 * Z.of_nat (S j)) end).
      split; [done|]. split; [done|]. unfold bind. by destruct (body _ de k1) as [[b|]| | | | |].
    + apply not_true_is_false in HP.
      destruct (IH (S j) k1) as (k' & f & Hu & Hfs & Hit); [by eapply directory_unchanged | lia | lia|].
      exists k', f. split; [by eapply unchanged_trans|]. split; [done|]. unfold bind at 1. rewrite (Hbody _ _ _ HP).
      etransitivity; [exact Hit|].
      destruct (list_find _ (drop (S j) es)) as [[m de']|]; [|done]. simpl. by rewrite Nat.add_succ_r.
  - rewrite drop_ge by lia. exists k, (fun b => match b with Some b => ret (inr b) | None => panic what end).
    split; [by apply unchanged_refl|]. split; [done|]. unfold dirent_step, bind at 1. rewrite (get_inode_eq n i) by apply Hfa.
    rewrite (proj2 (Z.ltb_ge _ _)) by lia. unfold ret. simpl. do 2 f_equal. lia.
Qed.

Lemma for_dirents_eq k :
  directory k es ->
  exists k' f, unchanged c p start blocks k k' /\ (forall b, f (Some b) = ret (inr b)) /\
    for_dirents (Some n) what 0 body k =
    match list_find (fun de => P de = true) es with
    | None => Ret (inl (i_size i)) k'
    | Some (j, de) => bind (body (16 * Z.of_nat j) de) f k'
    end.
Proof.
  intros Hd. pose proof Hd as [Ht Hfa Hty Hs He]. unfold for_dirents. unfold bind at 1. rewrite (get_inode_eq n i) by apply Hfa.
  destruct (dirents_iter (S (S (Z.to_nat (i_size i / sizeof_dirent)))) 0 k Hd) as (k' & f & Hu & Hf & Hit).
  - rewrite Hs, Z.mul_comm. unfold sizeof_dirent. rewrite Z.div_mul by lia. rewrite drop_0. lia.
  - lia.
  - exists k', f. split; [done|]. split; [done|]. exact Hit.
Qed.
End loop.

(** ** dirlookup and dirlink *)

Lemma dirlookup_eq k es nm :
  directory k es ->
  exists k', unchanged c p start blocks k k' /\
    dirlookup (Some n) nm k =
    match list_find (fun de => names nm de = true) es with
    | None => Ret None k'
    | Some (j, de) =>
        bind (iget ROOTDEV (de_inum de)) (fun ip =>
          ret (match ip with Some ip => Some (ip, 16 * Z.of_nat j) | None => None end)) k'
    end.
Proof.
  intros Hd. pose proof Hd as [Ht Hfa Hty Hs He]. unfold dirlookup. unfold bind at 1. rewrite (get_inode_eq n i) by apply Hfa.
  rewrite Hty, Z.eqb_refl. cbn [negb].
  match goal with |- context [for_dirents (Some n) ?w 0 ?b] =>
    destruct (for_dirents_eq w b (names nm) es) with (k := k) as (k' & f & Hu & Hf & Hrun); [|done|] end.
  { intros off de k' Hn. unfold names in Hn. destruct (de_inum de =? 0); [done|]. simpl in Hn. by rewrite Hn. }
  exists k'. split; [done|]. unfold bind at 1. rewrite Hrun.
  destruct (list_find _ es) as [[j de]|] eqn:E; [|done]. apply list_find_Some in E as (_ & Hn & _).
  unfold names in Hn. apply andb_true_iff in Hn as [Hn1 Hn2]. apply negb_true_iff in Hn1. rewrite Hn1, Hn2.
  pose proof (file_at_unchanged k k' Hu Hfa) as Hfa'.
  unfold bind at 1. unfold bind at 1. rewrite (get_inode_eq n i) by apply Hfa'. rewrite (fa_dev _ _ _ _ _ Hfa').
  unfold bind. destruct (iget ROOTDEV (de_inum de) k') as [[ip|] k2| | | | |]; try done; unfold ret; by rewrite Hf.
Qed.

Definition free_slot (es : list (list Z)) : nat :=
  match list_find (fun de => unused_entry de = true) es with Some (j, _) => j | None => length es end.

Lemma free_slot_le es : (free_slot es <= length es)%nat.
Proof.
  unfold free_slot. destruct (list_find _ es) as [[j de]|] eqn:E; [|done]. apply list_find_Some in E as (Hl & _).
  apply lookup_lt_Some in Hl. lia.
Qed.

(** The offset [dirlink] writes to. *)
Lemma dirlink_slot k es :
  directory k es ->
  exists k', unchanged c p start blocks k k' /\
    (let* r := for_dirents (Some n) "dirlink read" 0 (fun off de =>
       ret (if de_inum de =? 0 then Some off else None)) in
     ret (match r with inl off => off | inr off => off end)) k = Ret (16 * Z.of_nat (free_slot es)) k'.
Proof.
  intros Hd. match goal with |- context [for_dirents (Some n) ?w 0 ?b] =>
    destruct (for_dirents_eq w b unused_entry es) with (k := k) as (k' & f & Hu & Hf & Hrun); [|done|] end.
  { intros off de k' Hn. unfold unused_entry in Hn. by rewrite Hn. }
  exists k'. split; [done|]. unfold bind at 1. rewrite Hrun. unfold free_slot.
  destruct (list_find _ es) as [[j de]|] eqn:E.
  - apply list_find_Some in E as (_ & Hn & _). unfold unused_entry in Hn. rewrite Hn. unfold bind, ret at 1. by rewrite Hf.
  - unfold ret. by rewrite (di_size _ _ Hd).
Qed.

Lemma contents_entries k es : directory k es -> length (contents (view k) i) = (16 * length es)%nat.
Proof. intros [Ht Hfa Hty Hs He]. rewrite contents_length; lia. Qed.
End dirs.

Section link.
Context `{Machine} `{DevOps} (c p : nat).
#[local] Existing Instance memide.

Lemma put_entry_length slot de es : (slot <= length es)%nat -> length (put_entry slot de es) = Nat.max (length es) (S slot).
Proof. intros Hs. unfold put_entry. rewrite !length_app, length_take, length_drop. simpl. lia. Qed.

(** The directory after its entry at [slot] was written. *)
Lemma directory_put s start n N blocks i k es slot de k' i' blocks' :
  directory c p s start n blocks i k es -> (slot <= length es)%nat -> length de = 16%nat ->
  i_size i + 16 <= MAXFILE * BSIZE ->
  write_post c p s start n N k i (16 * Z.of_nat slot) de k' i' blocks' ->
  directory c p s start n blocks' i' k' (put_entry slot de es).
Proof.
  intros Hd Hs Hde Hmax Hw. pose proof (contents_entries c p s start n blocks i k es Hd) as Hl. pose proof Hd as [Ht Hfa Hty Hsz He].
  pose proof Hw as [[A1 _ _ A1f _ _] A2 A3 A4 A5 A6 A7 A8 A9 A10 _]. pose proof Hfa as [F1 F2 F3 F4 F5 F6 F7 F8 F9 F10].
  assert (i_size i' = Z.max (i_size i) (16 * Z.of_nat slot + 16)) as Es.
  { rewrite A2. simpl. by rewrite Hde. }
  split.
  - done.
  - by eapply file_at_after.
  - by rewrite A2.
  - rewrite put_entry_length by done. lia.
  - rewrite (contents_splice (view k) i (view k') i' (16 * Z.of_nat slot) de); rewrite ?Hde; try done; try lia.
    + replace (Z.to_nat (16 * Z.of_nat slot)) with (16 * slot)%nat by lia.
      rewrite entries_splice, He; [done | done | |]; rewrite Hl, Nat.mul_comm; [by apply Nat.Div0.mod_mul | by rewrite Nat.div_mul].
    + by rewrite Hde in A6.
Qed.

Lemma dirlink_eq s start n blocks i k es nm inum :
  directory c p s start n blocks i k es -> in_op blocks k -> 0 <= inum < 2 ^ 16 ->
  (forall de, de ∈ es -> names nm de = false) -> i_size i + 16 <= MAXFILE * BSIZE ->
  (5 <= length (free_blocks s (view k)))%nat ->
  exists k' i' blocks', dirlink (Some n) nm inum k = Ret 0 k' /\ icache k' = <[n := i']> (icache k) /\
    directory c p s start n blocks' i' k' (put_entry (free_slot es) (new_entry nm inum) es).
Proof.
  intros Hd Hop Hin Hno Hmax Hfree. pose proof (free_slot_le es) as Hslot.
  destruct (dirlookup_eq c p s start n blocks i k es nm Hd) as (k1 & Hu1 & Hl).
  assert (list_find (fun de => names nm de = true) es = None) as Hnone.
  { apply list_find_None, list.Forall_forall. intros de Hde. by rewrite Hno. }
  rewrite Hnone in Hl. pose proof (directory_unchanged c p s start n blocks i k k1 es Hu1 Hd) as Hd1.
  destruct (dirlink_slot c p s start n blocks i k1 es Hd1) as (k2 & Hu2 & Hsl).
  pose proof (directory_unchanged c p s start n blocks i k1 k2 es Hu2 Hd1) as Hd2.
  pose proof (unchanged_trans _ _ _ _ _ _ _ Hu1 Hu2) as Hu. pose proof Hu as (_ & Hk & Hv).
  pose proof Hd2 as [Ht2 Hfa2 Hty2 Hs2 He2]. assert (in_op blocks k2) as Hop2.
  { unfold in_op. by rewrite (kp_lsize _ _ Hk), (kp_open _ _ Hk). }
  pose proof (file_at_ready _ _ _ _ _ _ _ _ Ht2 Hfa2 Hop2) as Hrd. pose proof Hfa2 as [F1 F2 F3 F4 F5 F6 F7 F8 F9 F10].
  pose proof (new_entry_length nm inum) as Hlen.
  destruct (writei_spec c p s start n (length blocks + 7) k2 i blocks (16 * Z.of_nat (free_slot es)) (new_entry nm inum))
    as (r & k' & Hrun & -> & i' & blocks' & Hw); rewrite ?Hlen; try done; try lia.
  { pose proof (missing_one _ _ _ _ blocks F3 F2). pose proof (left_small (16 * Z.of_nat (free_slot es)) 16 ltac:(lia) ltac:(done)).
    unfold weight. change (Z.of_nat 16) with 16. case_decide; lia. }
  { intros _. rewrite (free_count_used s (view k)) by (intros; by apply used_ext).
    pose proof (left_small (16 * Z.of_nat (free_slot es)) 16 ltac:(lia) ltac:(done)). change (Z.of_nat 16) with 16.
    unfold ind_need. case_match; lia. }
  exists k', i', blocks'. split_and!.
  - unfold dirlink. unfold bind at 1. rewrite Hl. revert Hsl. unfold bind at 1. unfold bind at 2.
    destruct (for_dirents _ _ _ _ k1) as [r k2'| | | | |] eqn:Efor; try done. unfold ret at 1. intros [= Er ->].
    unfold bind. rewrite Efor, Er. fold (new_entry nm inum). rewrite Hlen in Hrun. change (Z.of_nat 16) with sizeof_dirent in Hrun. by rewrite Hrun.
  - by rewrite (wr_icache _ _ _ _ _ _ _ _ _ _ _ _ _ Hw), (kp_icache _ _ Hk).
  - by apply (directory_put s start n (length blocks + 7) blocks i k2 es (free_slot es) (new_entry nm inum) k' i' blocks').
Qed.

(** C9: directories.  Inside a transaction with the room of one operation,
    [dirlink] of a name that no entry of the directory has succeeds: it puts
    an entry with the name and the inode number into the first unused slot,
    or behind the last entry, leaves every entry in use as it is, and
    [dirlookup] of the name in the state it leaves finds that entry: it
    returns what [iget] returns for the inode number, with the offset of the
    slot. *)
Theorem dirlink_dirlookup s start n blocks i k es nm inum :
  directory c p s start n blocks i k es -> in_op blocks k -> 0 < inum < 2 ^ 16 ->
  Forall (fun b => 0 < b < 256) nm -> (forall de, de ∈ es -> names nm de = false) ->
  i_size i + 16 <= MAXFILE * BSIZE -> (5 <= length (free_blocks s (view k)))%nat ->
  exists k' i' blocks' es', dirlink (Some n) nm inum k = Ret 0 k' /\ icache k' = <[n := i']> (icache k) /\
    directory c p s start n blocks' i' k' es' /\
    (forall j de, es !! j = Some de -> de_inum de <> 0 -> es' !! j = Some de) /\
    exists k'', (forall x, view k'' x = view k' x) /\
      dirlookup (Some n) nm k' =
        bind (iget ROOTDEV inum) (fun ip =>
          ret (match ip with Some ip => Some (ip, 16 * Z.of_nat (free_slot es)) | None => None end)) k''.
Proof.
  intros Hd Hop Hi Hnm Hno Hmax Hfree. pose proof (free_slot_le es) as Hslot.
  destruct (dirlink_eq s start n blocks i k es nm inum) as (k' & i' & blocks' & Hrun & Hic & Hd'); try done; [lia|].
  exists k', i', blocks', (put_entry (free_slot es) (new_entry nm inum) es). split_and!; try done.
  - intros j de Hj Hne. rewrite put_entry_lookup by done. case_decide as E; [|done]. subst j. exfalso. unfold free_slot in Hj.
    destruct (list_find _ es) as [[j x]|] eqn:E.
    + apply list_find_Some in E as (Hx & Hu & _). rewrite Hx in Hj. injection Hj as ->. by apply Z.eqb_eq in Hu.
    + apply lookup_lt_Some in Hj. lia.
  - destruct (dirlookup_eq c p s start n blocks' i' k' _ nm Hd') as (k'' & (_ & _ & Hv) & Hl). exists k''. split; [done|].
    rewrite Hl, (find_put (names nm)) by (done || by apply new_entry_names). by rewrite new_entry_inum by lia.
Qed.
End link.

#[local] Existing Instance memide.

Lemma small_directory `{Machine} :
  exists k, directory 0 0 small_sb 2 0 [] (empty_inode T_DIR) k [] /\ in_op [] k /\
    (5 <= length (free_blocks small_sb (view k)))%nat.
Proof.
  destruct (small_machine T_DIR) as (k & Ht & Hfa & Hop & Hv & _); [done | done|]. exists k. split_and!; try done.
  rewrite (free_count_used small_sb (small_disk T_DIR)) by (intros; by apply used_ext). rewrite small_free. lia.
Qed.

Lemma dirlink_dirlookup_witness :
  let _ := alone LOTTERY in let _ := no_devices in
  exists k k', dirlink (Some 0%nat) (chars "README") 7 k = Ret 0 k'.
Proof.
  intros M D. destruct small_directory as (k & Hd & Hop & Hfree). exists k.
  destruct (dirlink_dirlookup 0 0 small_sb 2 0 [] (empty_inode T_DIR) k [] (chars "README") 7 Hd Hop)
    as (k' & i' & blocks' & es' & Hrun & _).
  - lia.
  - change (chars "README") with [82; 69; 65; 68; 77; 69]. repeat (apply list.Forall_cons; split; [lia|]). by apply list.Forall_nil.
  - intros de []%not_elem_of_nil.
  - vm_compute. done.
  - done.
  - by exists k'.
Defined.
