(* ===== verification/FileCrash.v ===== *)
(** fs.c and log.c together: a write to a file is atomic.  What [writei] does
    inside a transaction and what [commit] and recovery do with its blocks
    give, for the file that the next start of the machine finds on its disk,
    the old contents or the new ones. *)

From S2P Require Import Prelude Ring Memory KString Kernel Spinlock Boot Proc Sleeplock Bio Cache Log Crash Fs Volume Content.

(** ** A file seen on the disk *)

(** Disk and view agree but for the log. *)
Section outside.
Context (s : superblock) (start size : Z) (v d : Z -> list Z).
Hypothesis Hvol : volume s start size v.
Hypothesis Hd : forall x, outside start x -> d x = v x.

Lemma outside_stored m j : inode_there s m -> stored_inode s d m j = stored_inode s v m j.
Proof. intros Hm. unfold stored_inode. destruct (iblock_there _ _ _ _ _ Hvol Hm) as (_ & _ & Ho & _). by rewrite Hd. Qed.

Lemma outside_blk i bn : file_ok s v i -> blk_of d i bn = blk_of v i bn.
Proof.
  intros Hf. unfold blk_of. destruct (bn <? NDIRECT); [done|]. destruct (Z.eqb_spec (addr i NDIRECT) 0) as [|Hne]; [done|].
  destruct (owned_range _ _ _ _ _ Hvol (fi_ind _ _ _ Hf Hne)) as [_ Ho]. by rewrite Hd.
Qed.

Lemma outside_byte i x : file_ok s v i -> 0 <= x < MAXFILE * BSIZE -> file_byte d i x = file_byte v i x.
Proof.
  intros Hf Hx. unfold file_byte. rewrite outside_blk by done.
  destruct (Z.eqb_spec (blk_of v i (x / BSIZE)) 0) as [|Hne]; [done|].
  assert (0 <= x / BSIZE < MAXFILE) as Hb.
  { change MAXFILE with 140 in *. unfold BSIZE in *. Z.div_mod_to_equations. lia. }
  destruct (fi_blk _ _ _ Hf _ Hb Hne) as [Ho _]. destruct (owned_range _ _ _ _ _ Hvol Ho) as [_ Hout]. by rewrite Hd.
Qed.

Lemma outside_contents i : file_ok s v i -> i_size i <= MAXFILE * BSIZE -> contents d i = contents v i.
Proof. intros Hf Hs. apply contents_ext; [done | done|]. intros x. by apply outside_byte. Qed.
End outside.

Section promises.
Context `{Machine} `{DevOps} (c p : nat).
#[local] Existing Instance memide.

(** With nothing logged, the disk holds what the processes see. *)
Lemma view_committed start k x : txn c p [] start [] k -> view k x = disk k x.
Proof.
  intros Ht. apply (view_disk c p); [apply Ht|]. intros Hp. apply (tx_pinned _ _ _ _ _ _ Ht) in Hp. by apply not_elem_of_nil in Hp.
Qed.

(** The blocks of a transaction put home. *)
Lemma view_replaced start blocks k x : txn c p [] start blocks k -> replaced blocks (view k) (disk k) x = view k x.
Proof.
  intros Ht. unfold replaced. case_decide as Hin; [done|]. symmetry. apply (view_disk c p); [apply Ht|].
  intros Hp. by apply (tx_pinned _ _ _ _ _ _ Ht) in Hp.
Qed.

(** C1: a write to a file is atomic with respect to crashes.  A transaction
    that writes bytes to a file and commits returns; and if the machine stops
    after any number [m] of the disk writes of the commit, the next start
    recovers, and the file its inode on the disk then describes has the old
    contents, when [m] is at most the number [w] of blocks logged, or the
    contents with the bytes written, when it is more. *)
Theorem write_crash_atomic s start n i off src k :
  txn c p [] start [] k -> file_at s start n k i -> in_op [] k -> dinode_fits i ->
  stored_inode s (view k) (i_inum i) i = i -> head_n (disk k start) = 0 ->
  0 <= off <= i_size i -> src <> [] -> Z.of_nat (length src) <= filewrite_max ->
  off + Z.of_nat (length src) <= MAXFILE * BSIZE -> (5 <= length (free_blocks s (view k)))%nat ->
  exists k1 k2 w,
    writei (Some n) src off (Z.of_nat (length src)) k = Ret (Z.of_nat (length src)) k1 /\ commit k1 = Ret tt k2 /\
    forall m c' p' kr, fresh c' p' start kr -> disksize kr = disksize k ->
      (forall x, disk kr x = apply_writes (take m (drop (length (dwrites k1)) (dwrites k2))) (disk k1) x) ->
      exists kr', recover_from_log kr = Ret tt kr' /\
        contents (disk kr') (stored_inode s (disk kr') (i_inum i) i) =
          if (m <=? w)%nat then contents (view k) i else splice (Z.to_nat off) src (contents (view k) i).
Proof.
  intros Ht Hfa Hop Hfits Hst Hhead Hoff Hsrc Hcnt Hmax Hfree. pose proof (file_at_ready c p _ _ _ _ _ _ Ht Hfa Hop) as Hrd.
  pose proof Hfa as [F1 F2 F3 F4 F5 F6 F7 F8 F9 F10]. pose proof (left_small off _ (proj1 Hoff) Hcnt) as Hleft.
  destruct (writei_spec c p s start n 7 k i [] off src) as (r & k1 & Hrun & -> & i1 & blocks1 & Hw); try done.
  { pose proof (missing_one _ _ _ _ [] F3 F2). unfold weight. simpl length. case_decide; lia. }
  { intros _. unfold ind_need. case_match; lia. }
  pose proof (file_at_after c p _ _ _ _ _ _ _ _ _ _ _ Hfa Hw) as Hfa1.
  pose proof Hw as [[A1 _ _ A1f _ _] A2 A3 A4 A5 A6 A7 A8 A9 A10 A11]. pose proof (sy_disk _ _ A4) as Ed.
  assert (length (disk k1 start) = Z.to_nat BSIZE) as Hlen.
  { rewrite Ed, <- (view_committed start k) by done. apply (vo_len _ _ _ _ F3). destruct F3.
    unfold data_start, LOGSIZE, MAXOPBLOCKS, BPB, BSIZE in *. Z.div_mod_to_equations. lia. }
  destruct (commit_recover c p start blocks1 k1) as (k2 & Hcommit & _ & Hcrash); try apply A1; [by apply A11 | done | by rewrite Ed|].
  exists k1, k2, (length blocks1). split; [done|]. split; [done|]. intros m c' p' kr Hfr Hsz Hdk.
  destruct (Hcrash m c' p' kr Hfr) as (kr' & Hrec & _ & Hx); [by rewrite (sy_size _ _ A4) | done|].
  exists kr'. split; [done|]. destruct (m <=? length blocks1)%nat.
  - assert (forall x, outside start x -> disk kr' x = view k x) as Hd.
    { intros x Ho. rewrite Hx by done. by rewrite Ed, (view_committed start k). }
    rewrite (outside_stored s start (disksize k) (view k)), Hst by done.
    apply (outside_contents s start (disksize k)); [done | done | done | apply F10].
  - assert (forall x, outside start x -> disk kr' x = view k1 x) as Hd.
    { intros x Ho. rewrite Hx by done. by apply (view_replaced start). }
    pose proof (fa_vol _ _ _ _ _ Hfa1) as V1.
    assert (stored_inode s (disk kr') (i_inum i) i = i1) as ->.
    { rewrite (outside_stored s start (disksize k1) (view k1)) by done. etransitivity; [|exact (A7 Hst Hfits)]. by rewrite A2. }
    rewrite (outside_contents s start (disksize k1) (view k1)); [|done | done | done | apply A5].
    apply contents_splice; try done; [apply F10 | by rewrite A2].
Qed.
End promises.

#[local] Existing Instance memide.

Lemma write_crash_atomic_witness :
  let _ := alone LOTTERY in let _ := no_devices in
  exists k k1 k2, writei (Some 0%nat) (repeat 7 600) 0 600 k = Ret 600 k1 /\ commit k1 = Ret tt k2.
Proof.
  intros M D. destruct (small_machine T_FILE) as (k & Ht & Hfa & Hop & Hv & Hst); [done | done|]. exists k.
  destruct (write_crash_atomic 0 0 small_sb 2 0 (empty_inode T_FILE) 0 (repeat 7 600) k Ht Hfa Hop
    (small_fits T_FILE ltac:(done)) Hst) as (k1 & k2 & w & Hrun & Hc & _).
  - by rewrite <- (view_committed 0 0 2 k 2 Ht), Hv.
  - split; [lia | done].
  - done.
  - rewrite repeat_length. vm_compute. done.
  - rewrite repeat_length. vm_compute. done.
  - rewrite (free_count_used small_sb (small_disk T_FILE)) by (intros; by apply used_ext). rewrite small_free. lia.
  - exists k1, k2. rewrite repeat_length in Hrun. by split.
Defined.
