(* ===== verification/Pipe.v ===== *)
(** pipe.c: the ring buffer between a reader and a writer.  [pipealloc] is in
    File.v, next to the file table it fills. *)

From Stdlib Require Import FunctionalExtensionality.
From S2P Require Import Prelude Memory KString Kernel Spinlock Boot Kalloc Proc Sleeplock Observe.

Section pipe.
Context `{Machine}.

Definition get_pipe (p : Z) : M pipe := gets (fun k => pipes k p).
Definition set_pipe (p : Z) (f : pipe -> pipe) : M unit :=
  modify (upd_pipes (fun t x => if x =? p then f (t x) else t x)).

Definition am_killed : M bool :=
  let* p := curproc in
  let* pr := get_proc p in
  ret (truthy (killed pr)).

Definition pipeclose (p : Z) (writable : Z) : M unit :=
  acquire (L_pipe p) ;;
  (if truthy writable then
     set_pipe p (upd_writeopen (fun _ => 0)) ;;
     wakeup (CPipeRead p)
   else
     set_pipe p (upd_readopen (fun _ => 0)) ;;
     wakeup (CPipeWrite p)) ;;
  let* pp := get_pipe p in
  if (readopen pp =? 0) && (writeopen pp =? 0) then
    release (L_pipe p) ;;
    kfree p
  else release (L_pipe p).

(** The inner loop of [pipewrite]: waits until there is room; [Some r] when
    the call gives up and returns [r]. *)
Definition pipe_room (p : Z) : M (option Z) :=
  sleep_loop (
    let* pp := get_pipe p in
    if nwrite pp =? u32 (nread pp + PIPESIZE) then
      let* dead := (if readopen pp =? 0 then ret true else am_killed) in
      if dead then release (L_pipe p) ;; ret (Some (Some (-1)))
      else
        wakeup (CPipeRead p) ;;
        sleep (CPipeWrite p) (Some (L_pipe p)) ;;
        ret None
    else ret (Some None)).

(** [p->data[p->nwrite++ % PIPESIZE] = b] *)
Definition pipe_put (b : Z) (pp : pipe) : pipe :=
  upd_nwrite (fun n => u32 (n + 1))
    (upd_data (fun d => <[Z.to_nat (nwrite pp mod PIPESIZE) := b]> d) pp).

Definition put_byte (p b : Z) : M unit :=
  let* pp := get_pipe p in
  in_array "pipe.data" (data pp) (nwrite pp mod PIPESIZE) ;;
  set_pipe p (pipe_put b).

Definition pipewrite (p : Z) (addr : list Z) (n : Z) : M Z :=
  acquire (L_pipe p) ;;
  let* r := for_find (take (Z.to_nat n) addr) (fun b =>
    let* full := pipe_room p in
    match full with
    | Some v => ret (Some v)
    | None => put_byte p b ;; ret None
    end) in
  match r with
  | Some v => ret v
  | None =>
      wakeup (CPipeRead p) ;;
      release (L_pipe p) ;;
      ret n
  end.

(** The waiting loop of [piperead]. *)
Definition pipe_wait (p : Z) : M (option Z) :=
  sleep_loop (
    let* pp := get_pipe p in
    if (nread pp =? nwrite pp) && truthy (writeopen pp) then
      let* dead := am_killed in
      if dead then release (L_pipe p) ;; ret (Some (Some (-1)))
      else sleep (CPipeRead p) (Some (L_pipe p)) ;; ret None
    else ret (Some None)).

(** The copying loop: one byte per round until [n] are read or none is left. *)
Fixpoint pipe_copy (p : Z) (n : nat) : M (list Z) :=
  match n with
  | O => ret []
  | S n =>
      let* pp := get_pipe p in
      if nread pp =? nwrite pp then ret [] else
      let* b := elem_at "pipe.data" (data pp) (nread pp mod PIPESIZE) in
      set_pipe p (upd_nread (fun n => u32 (n + 1))) ;;
      let* l := pipe_copy p n in
      ret (b :: l)
  end.

Definition piperead (p : Z) (n : Z) : M (Z * list Z) :=
  acquire (L_pipe p) ;;
  let* r := pipe_wait p in
  match r with
  | Some v => ret (v, [])
  | None =>
      let* l := pipe_copy p (Z.to_nat n) in
      wakeup (CPipeWrite p) ;;
      release (L_pipe p) ;;
      ret (Z.of_nat (length l), l)
  end.
End pipe.

(** ** A pipe is a queue

    [rep pp q]: the ring buffer of [pp] holds the bytes [q], oldest first.  The
    counters are [uint]s that wrap around; the size of the buffer divides
    their range. *)

Record rep (pp : pipe) (q : list Z) : Prop := {
  rep_data : Z.of_nat (length (data pp)) = PIPESIZE;
  rep_nread : 0 <= nread pp < 2 ^ 32;
  rep_nwrite : nwrite pp = u32 (nread pp + Z.of_nat (length q));
  rep_fits : Z.of_nat (length q) <= PIPESIZE;
  rep_bytes i b : q !! i = Some b -> data pp !! Z.to_nat ((nread pp + Z.of_nat i) mod PIPESIZE) = Some b;
}.

Lemma u32_mod_pipe x : u32 x mod PIPESIZE = x mod PIPESIZE.
Proof. unfold u32, PIPESIZE. Z.div_mod_to_equations. lia. Qed.

Lemma u32_mod_pipe_add x y : (u32 x + y) mod PIPESIZE = (x + y) mod PIPESIZE.
Proof. rewrite <- (Z.add_mod_idemp_l (u32 x)), u32_mod_pipe, Z.add_mod_idemp_l by done. done. Qed.

Lemma rep_full pp q :
  rep pp q -> (nwrite pp =? u32 (nread pp + PIPESIZE)) = bool_decide (Z.of_nat (length q) = PIPESIZE).
Proof.
  intros [_ Hr Hw Hf _]. rewrite Hw. unfold u32, PIPESIZE in *.
  destruct (bool_decide_reflect (Z.of_nat (length q) = 512)) as [->|Hne]; [apply Z.eqb_refl|].
  apply Z.eqb_neq. Z.div_mod_to_equations. lia.
Qed.

Lemma rep_empty pp q : rep pp q -> (nread pp =? nwrite pp) = bool_decide (q = []).
Proof.
  intros [_ Hr Hw Hf _]. rewrite Hw. unfold u32, PIPESIZE in *. destruct q as [|b q].
  - rewrite bool_decide_true by done. apply Z.eqb_eq. simpl. rewrite Z.add_0_r, Z.mod_small; lia.
  - rewrite bool_decide_false by done. apply Z.eqb_neq. simpl length in *. Z.div_mod_to_equations. lia.
Qed.

Lemma rep_put b pp q : rep pp q -> Z.of_nat (length q) < PIPESIZE -> rep (pipe_put b pp) (q ++ [b]).
Proof.
  intros [Hd Hr Hw Hf Hb] Hroom. unfold pipe_put.
  assert (forall x, (Z.to_nat (x mod PIPESIZE) < length (data pp))%nat) as Hin.
  { intros x. pose proof (Z.mod_pos_bound x PIPESIZE ltac:(done)). lia. }
  split; rec_simpl.
  - by rewrite length_insert.
  - done.
  - rewrite Hw, length_app. simpl. unfold u32. rewrite Z.add_mod_idemp_l by done. f_equal. lia.
  - rewrite length_app. simpl. lia.
  - intros i x Hx. rewrite Hw, u32_mod_pipe. apply lookup_app_Some in Hx as [Hx|[Hi Hx]].
    + pose proof (lookup_lt_Some _ _ _ Hx) as Hi. rewrite list_lookup_insert_ne; [by apply Hb|].
      intros E. apply Z2Nat.inj in E; [|by apply Z.mod_pos_bound..].
      revert E. unfold PIPESIZE in *. Z.div_mod_to_equations. lia.
    + apply list_lookup_singleton_Some in Hx as [Hi' <-]. replace i with (length q) by lia.
      apply list_lookup_insert_eq, Hin.
Qed.

Lemma rep_get b pp q :
  rep pp (b :: q) ->
  data pp !! Z.to_nat (nread pp mod PIPESIZE) = Some b /\ rep (upd_nread (fun n => u32 (n + 1)) pp) q.
Proof.
  intros [Hd Hr Hw Hf Hb]. simpl length in *. split.
  - specialize (Hb 0%nat b eq_refl). by rewrite Z.add_0_r in Hb.
  - split; rec_simpl; try done.
    + apply u32_range.
    + rewrite Hw. unfold u32. rewrite Z.add_mod_idemp_l by done. f_equal. lia.
    + lia.
    + intros i x Hx. rewrite u32_mod_pipe_add. rewrite <- Z.add_assoc.
      replace (1 + Z.of_nat i) with (Z.of_nat (S i)) by lia. by apply (Hb (S i)).
Qed.

Lemma rep_new pp : Z.of_nat (length (data pp)) = PIPESIZE -> nread pp = 0 -> nwrite pp = 0 -> rep pp [].
Proof. intros Hd Hr Hw. split; rewrite ?Hr, ?Hw; try done. Qed.

Section fifo.
Context `{Machine} (c p : nat) (pi : Z).

Definition upd_pipe (f : pipe -> pipe) (k : kernel) : kernel :=
  upd_pipes (fun t x => if x =? pi then f (t x) else t x) k.

Lemma pipes_upd_pipe f k : pipes (upd_pipe f k) pi = f (pipes k pi).
Proof. unfold upd_pipe. rec_simpl. by rewrite Z.eqb_refl. Qed.

(** The loops when they do not have to wait. *)

Lemma pipe_room_eq q k :
  rep (pipes k pi) q -> Z.of_nat (length q) < PIPESIZE -> pipe_room pi k = Ret None k.
Proof.
  intros Hq Hroom. unfold pipe_room, sleep_loop, get_pipe. mrun. cbn [iter]. mrun.
  rewrite (rep_full _ _ Hq), bool_decide_false by lia. reflexivity.
Qed.

Lemma pipe_wait_eq q k :
  rep (pipes k pi) q -> q <> [] \/ writeopen (pipes k pi) = 0 -> pipe_wait pi k = Ret None k.
Proof.
  intros Hq Hdata. unfold pipe_wait, sleep_loop, get_pipe. mrun. cbn [iter]. mrun.
  rewrite (rep_empty _ _ Hq). destruct Hdata as [Hne|Hc].
  - rewrite bool_decide_false by done. reflexivity.
  - rewrite Hc, andb_false_r. reflexivity.
Qed.

Lemma put_byte_eq b q k : rep (pipes k pi) q -> put_byte pi b k = Ret tt (upd_pipe (pipe_put b) k).
Proof.
  intros Hq. unfold put_byte, get_pipe. mrun. rewrite bind_in_array; [done|].
  rewrite (rep_data _ _ Hq). by apply Z.mod_pos_bound.
Qed.

Definition puts (l : list Z) (pp : pipe) : pipe := foldl (fun pp b => pipe_put b pp) pp l.

Lemma rep_puts l pp q : rep pp q -> Z.of_nat (length q + length l) <= PIPESIZE -> rep (puts l pp) (q ++ l).
Proof.
  revert pp q. induction l as [|b l IH]; intros pp q Hq Hfit; simpl in *; [by rewrite app_nil_r|].
  rewrite cons_middle, app_assoc. apply IH; [apply rep_put; [done | lia]|]. rewrite length_app. simpl. lia.
Qed.

Lemma write_loop_eq l q k :
  rep (pipes k pi) q -> Z.of_nat (length q + length l) <= PIPESIZE ->
  for_find l (fun b =>
    let* full := pipe_room pi in
    match full with
    | Some v => ret (Some v)
    | None => put_byte pi b ;; ret None
    end) k = Ret None (upd_pipe (puts l) k).
Proof.
  revert q k. induction l as [|b l IH]; intros q k Hq Hfit; simpl in *.
  { unfold ret. f_equal. unfold upd_pipe. kernel_eq. extensionality x. by case_match. }
  rewrite (bind_Ret _ _ _ None (upd_pipe (pipe_put b) k)).
  2:{ rewrite (bind_Ret _ _ _ _ _ (pipe_room_eq q k Hq ltac:(lia))). by mcall (put_byte_eq b q k Hq). }
  rewrite (IH (q ++ [b])).
  - f_equal. unfold upd_pipe. kernel_eq. extensionality x. by case_match.
  - rewrite pipes_upd_pipe. apply rep_put; [done | lia].
  - rewrite length_app. simpl. lia.
Qed.

(** The open flags are not the business of the copying loops. *)
Definition keeps_open (f : pipe -> pipe) : Prop :=
  forall pp, readopen (f pp) = readopen pp /\ writeopen (f pp) = writeopen pp.

Lemma puts_open l : keeps_open (puts l).
Proof. induction l as [|b l IH]; intros pp; simpl; [done|]. exact (IH (pipe_put b pp)). Qed.

Lemma upd_pipe_id k : upd_pipe id k = k.
Proof. unfold upd_pipe. kernel_eq. extensionality x. by case_match. Qed.

Lemma pipe_copy_eq n q k :
  rep (pipes k pi) q ->
  exists f, pipe_copy pi n k = Ret (take n q) (upd_pipe f k) /\ rep (f (pipes k pi)) (drop n q) /\ keeps_open f.
Proof.
  revert q k. induction n as [|n IH]; intros q k Hq; simpl.
  { exists id. by rewrite upd_pipe_id. }
  unfold get_pipe. mrun. rewrite (rep_empty _ _ Hq). destruct q as [|b q].
  { exists id. by rewrite take_nil, drop_nil, upd_pipe_id. }
  rewrite bool_decide_false by done. destruct (rep_get _ _ _ Hq) as [Hb Hq'].
  rewrite (bind_elem_at _ _ _ b) by (done || by apply Z.mod_pos_bound).
  change (bind (set_pipe pi ?f) ?g k) with (g tt (upd_pipe f k)). cbv beta.
  destruct (IH q (upd_pipe (upd_nread (fun n => u32 (n + 1))) k)) as (f & Hrun & Hrep & Ho); [by rewrite pipes_upd_pipe|].
  rewrite pipes_upd_pipe in Hrep. exists (fun pp => f (upd_nread (fun n => u32 (n + 1)) pp)).
  rewrite (bind_Ret _ _ _ _ _ Hrun). split_and!; [|done|intros pp; exact (Ho (upd_nread _ pp))].
  unfold ret. f_equal. unfold upd_pipe. kernel_eq. extensionality x. by case_match.
Qed.

(** The end of both calls: the other side is woken and the lock released. *)
Lemma pipe_finish {A} ch f (r : A) k :
  quiet c p k ->
  (wakeup ch ;; release (L_pipe pi) ;; ret r) (upd_pipe f (acq (L_pipe pi) c k)) =
    Ret r (upd_ptable (fmap (wake ch)) (upd_pipe f (touch c k))) /\
  quiet c p (upd_ptable (fmap (wake ch)) (upd_pipe f (touch c k))).
Proof.
  intros Hq. pose proof (quiet_ok _ _ _ Hq) as Hok. pose proof Hq as ((_ & Ht & _) & Hl & _).
  assert (unrelated (upd_pipe f)) as Hf by done.
  assert (cpu_ok c (upd_pipe f (acq (L_pipe pi) c k))) as Hok' by by apply (unrelated_ok _ Hf), acq_ok.
  split.
  - mcall (wakeup_eq c) by (try done; unfold lock_free; change (locks (upd_pipe _ ?k)) with (locks k); rewrite acq_other by done; apply Hl).
    rewrite touch_deep; [|done|].
    2:{ rewrite unrelated_depth by done. rewrite acq_depth by done. pose proof (depth_nonneg _ _ Hok). lia. }
    mcall (unrelated_release (fun k => upd_ptable (fmap (wake ch)) (upd_pipe f k)) ltac:(done) c (L_pipe pi) k).
    unfold ret. f_equal. rewrite <- (rel_acq c (L_pipe pi) k) by (done || apply Hl). reflexivity.
  - apply quiet_ptable; [intros; apply length_fmap|]. apply quiet_unrelated; [done | done|]. by apply quiet_touch.
Qed.

Lemma pipes_other f k x : x <> pi -> pipes (upd_pipe f k) x = pipes k x.
Proof. intros Hx. unfold upd_pipe. rec_simpl. by rewrite (proj2 (Z.eqb_neq _ _)). Qed.

(** What a call leaves besides its result: the queue, the ends of the pipe
    open as before, the other pipes alone, and the processes asleep on [ch]
    awake. *)
Definition pipe_post (ch : chan) (q : list Z) (k k' : kernel) : Prop :=
  rep (pipes k' pi) q /\ readopen (pipes k' pi) = readopen (pipes k pi) /\
  writeopen (pipes k' pi) = writeopen (pipes k pi) /\
  (forall x, x <> pi -> pipes k' x = pipes k x) /\ ptable k' = wake ch <$> ptable k /\ quiet c p k'.

Lemma pipe_post_intro ch f q k :
  quiet c p (upd_ptable (fmap (wake ch)) (upd_pipe f (touch c k))) -> rep (f (pipes k pi)) q -> keeps_open f ->
  pipe_post ch q k (upd_ptable (fmap (wake ch)) (upd_pipe f (touch c k))).
Proof.
  intros Hq Hrep Ho. unfold pipe_post. change (pipes (upd_ptable _ ?k)) with (pipes k).
  rewrite pipes_upd_pipe. destruct (Ho (pipes k pi)). split_and!; try done.
  intros x Hx. by rewrite pipes_other.
Qed.

Lemma pipewrite_eq l q k :
  quiet c p k -> rep (pipes k pi) q -> Z.of_nat (length q + length l) <= PIPESIZE ->
  exists k', pipewrite pi l (Z.of_nat (length l)) k = Ret (Z.of_nat (length l)) k' /\
    pipe_post (CPipeRead pi) (q ++ l) k k'.
Proof.
  intros Hq Hrep Hfit. pose proof (quiet_ok _ _ _ Hq) as Hok. pose proof Hq as (_ & Hl & _).
  destruct (pipe_finish (CPipeRead pi) (puts l) (Z.of_nat (length l)) k Hq) as [Hrun Hq'].
  eexists. split; [|apply pipe_post_intro; [exact Hq' | by apply rep_puts | apply puts_open]].
  unfold pipewrite. mcall (acquire_eq c). rewrite Nat2Z.id, firstn_all.
  rewrite (bind_Ret _ _ _ _ _ (write_loop_eq l q (acq (L_pipe pi) c k) Hrep Hfit)). exact Hrun.
Qed.

Lemma piperead_eq n q k :
  quiet c p k -> rep (pipes k pi) q -> q <> [] \/ writeopen (pipes k pi) = 0 ->
  exists k', piperead pi (Z.of_nat n) k = Ret (Z.of_nat (length (take n q)), take n q) k' /\
    pipe_post (CPipeWrite pi) (drop n q) k k'.
Proof.
  intros Hq Hrep Hdata. pose proof (quiet_ok _ _ _ Hq) as Hok. pose proof Hq as (_ & Hl & _).
  destruct (pipe_copy_eq n q (acq (L_pipe pi) c k) Hrep) as (f & Hcopy & Hrep' & Ho).
  destruct (pipe_finish (CPipeWrite pi) f (Z.of_nat (length (take n q)), take n q) k Hq) as [Hrun Hq'].
  eexists. split; [|apply pipe_post_intro; [exact Hq' | exact Hrep' | exact Ho]].
  unfold piperead. mcall (acquire_eq c).
  rewrite (bind_Ret _ _ _ _ _ (pipe_wait_eq q (acq (L_pipe pi) c k) Hrep Hdata)).
  rewrite Nat2Z.id, (bind_Ret _ _ _ _ _ Hcopy). exact Hrun.
Qed.
End fifo.

(** ** The two ends at the same time

    While one end waits, the processes at the other end run.  Seen from a
    writer they take bytes from the front of the queue; seen from a reader
    they add bytes at its end. *)

#[export] Instance pipe_blind pi : Blind (fun k => pipes k pi).
Proof. by split. Qed.

Definition taken (pp pp' : pipe) : Prop :=
  forall q, rep pp q -> exists q', rep pp' q' /\ q' `suffix_of` q.
Definition added (pp pp' : pipe) : Prop :=
  forall q, rep pp q -> exists l, rep pp' (q ++ l).

#[export] Instance taken_preorder : PreOrder taken.
Proof.
  split.
  - intros pp q Hq. by exists q.
  - intros p1 p2 p3 H1 H2 q Hq. destruct (H1 q Hq) as (q1 & Hq1 & Hs1). destruct (H2 q1 Hq1) as (q2 & Hq2 & Hs2).
    exists q2. split; [done|]. by etrans.
Qed.

#[export] Instance added_preorder : PreOrder added.
Proof.
  split.
  - intros pp q Hq. exists []. by rewrite app_nil_r.
  - intros p1 p2 p3 H1 H2 q Hq. destruct (H1 q Hq) as (l1 & Hq1). destruct (H2 _ Hq1) as (l2 & Hq2).
    exists (l1 ++ l2). by rewrite app_assoc.
Qed.

(** The waiting loops, for either relation. *)
Section waiting.
Context `{Machine} (pi : Z) (R : pipe -> pipe -> Prop) `{!PreOrder R}.
Context (Hothers : forall n k, R (pipes k pi) (pipes (interfere n k) pi)).

Lemma am_killed_moves : moves (fun k => pipes k pi) R am_killed.
Proof. unfold am_killed. moves. Qed.

Lemma pipe_wait_body_moves :
  moves (fun k => pipes k pi) R (
    let* pp := get_pipe pi in
    if (nread pp =? nwrite pp) && truthy (writeopen pp) then
      let* dead := am_killed in
      if dead then release (L_pipe pi) ;; ret (Some (Some (-1)))
      else sleep (CPipeRead pi) (Some (L_pipe pi)) ;; ret None
    else ret (Some None)).
Proof. pose proof am_killed_moves. unfold get_pipe. moves. Qed.

Lemma pipe_room_body_moves :
  moves (fun k => pipes k pi) R (
    let* pp := get_pipe pi in
    if nwrite pp =? u32 (nread pp + PIPESIZE) then
      let* dead := (if readopen pp =? 0 then ret true else am_killed) in
      if dead then release (L_pipe pi) ;; ret (Some (Some (-1)))
      else
        wakeup (CPipeRead pi) ;;
        sleep (CPipeWrite pi) (Some (L_pipe pi)) ;;
        ret None
    else ret (Some None)).
Proof. pose proof am_killed_moves. unfold get_pipe. moves. Qed.

Lemma pipe_room_inv k r k' :
  pipe_room pi k = Ret r k' ->
  R (pipes k pi) (pipes k' pi) /\
  (r = Some (-1) \/ r = None /\ (nwrite (pipes k' pi) =? u32 (nread (pipes k' pi) + PIPESIZE)) = false).
Proof.
  intros Hrun. split.
  - pose proof (moves_sleep_loop _ _ _ pipe_room_body_moves k) as Hm. fold (pipe_room pi) in Hm. by rewrite Hrun in Hm.
  - apply (moves_sleep_loop_last _ _ _ _ _ _ pipe_room_body_moves) in Hrun as (k1 & _ & Hlast).
    unfold get_pipe in Hlast. rewrite bind_gets in Hlast. case_match eqn:Hfull.
    + apply bind_Ret_inv in Hlast as ([] & k2 & _ & Hlast); repeat apply bind_Ret_inv in Hlast as ([] & ? & _ & Hlast);
        unfold ret in Hlast; simplify_eq. by left.
    + unfold ret in Hlast. simplify_eq. by right.
Qed.

Lemma pipe_wait_inv k r k' :
  pipe_wait pi k = Ret r k' ->
  R (pipes k pi) (pipes k' pi) /\
  (r = Some (-1) \/ r = None /\ (nread (pipes k' pi) =? nwrite (pipes k' pi)) && truthy (writeopen (pipes k' pi)) = false).
Proof.
  intros Hrun. split.
  - pose proof (moves_sleep_loop _ _ _ pipe_wait_body_moves k) as Hm. fold (pipe_wait pi) in Hm. by rewrite Hrun in Hm.
  - apply (moves_sleep_loop_last _ _ _ _ _ _ pipe_wait_body_moves) in Hrun as (k1 & _ & Hlast).
    unfold get_pipe in Hlast. rewrite bind_gets in Hlast. case_match eqn:Hfull.
    + apply bind_Ret_inv in Hlast as ([] & k2 & _ & Hlast); repeat apply bind_Ret_inv in Hlast as ([] & ? & _ & Hlast);
        unfold ret in Hlast; simplify_eq. by left.
    + unfold ret in Hlast. simplify_eq. by right.
Qed.
End waiting.

(** A writer whose readers may run whenever it waits: what it has written is
    in the queue, in order, up to the bytes the readers took from its front. *)
Section writer.
Context `{Machine} (pi : Z) (Hreaders : forall n k, taken (pipes k pi) (pipes (interfere n k) pi)).

Definition wrote (l q : list Z) (o : outcome (option Z)) : Prop :=
  exists j q', (j <= length l)%nat /\ rep (pipes (final o) pi) q' /\ q' `suffix_of` q ++ take j l /\
    match o with Ret None _ => j = length l | Ret (Some v) _ => v = -1 | _ => True end.

Lemma suffix_app_mono {A} (q1 q t : list A) : q1 `suffix_of` q -> q1 ++ t `suffix_of` q ++ t.
Proof. intros [x ->]. exists x. by rewrite app_assoc. Qed.

Lemma write_loop_wrote l q k :
  rep (pipes k pi) q ->
  wrote l q (for_find l (fun b =>
    let* full := pipe_room pi in
    match full with
    | Some v => ret (Some v)
    | None => put_byte pi b ;; ret None
    end) k).
Proof.
  revert q k. induction l as [|b l IH]; intros q k Hq; cbn [for_find].
  { exists 0%nat, q. split_and!; [done | done | by rewrite app_nil_r | done]. }
  pose proof (moves_sleep_loop _ _ _ (pipe_room_body_moves pi taken Hreaders) k q Hq) as (q1 & Hq1 & Hs1).
  fold (pipe_room pi) in Hq1. rewrite bind_assoc. unfold bind at 1. destruct (pipe_room pi k) as [r k1|?|?| |?|] eqn:Hrun;
    try (exists 0%nat, q1; split_and!; [lia | done | by rewrite app_nil_r | done]).
  apply (pipe_room_inv _ _ Hreaders) in Hrun as [_ [->|[-> Hroom]]].
  - exists 0%nat, q1. split_and!; [lia | done | by rewrite app_nil_r | done].
  - simpl in Hq1. rewrite (rep_full _ _ Hq1), bool_decide_eq_false in Hroom. pose proof (rep_fits _ _ Hq1).
    mcall (put_byte_eq pi b q1).
    destruct (IH (q1 ++ [b]) (upd_pipe pi (pipe_put b) k1)) as (j & q' & Hj & Hq' & Hs & Hr).
    { rewrite pipes_upd_pipe. apply rep_put; [done | lia]. }
    exists (S j), q'. split_and!; [simpl; lia | done | | by case_match; [case_match; simplify_eq/=|..]].
    etrans; [exact Hs|]. rewrite <- app_assoc. by apply suffix_app_mono.
Qed.

Lemma pipewrite_stream l q k :
  rep (pipes k pi) q ->
  (fun o => exists j q', (j <= length l)%nat /\ rep (pipes (final o) pi) q' /\ q' `suffix_of` q ++ take j l /\
    (forall r k', o = Ret r k' -> r = Z.of_nat (length l) /\ j = length l \/ r = -1))
  (pipewrite pi l (Z.of_nat (length l)) k).
Proof.
  intros Hq. unfold pipewrite. rewrite Nat2Z.id, firstn_all.
  pose proof (acquire_moves (fun k => pipes k pi) eq (L_pipe pi) k) as Ha. apply bind_cases.
  2:{ intros o Ho Hstop. exists 0%nat, q. rewrite Ho, <- Ha. split_and!; [lia | done | by rewrite app_nil_r|].
      intros r k' E. by destruct (Hstop r k'). }
  intros [] k1 Hacq. rewrite Hacq in Ha. simpl in Ha. rewrite Ha in Hq.
  destruct (write_loop_wrote l q k1 Hq) as (j & q' & Hj & Hq' & Hs & Hr). apply bind_cases.
  2:{ intros o Ho Hstop. exists j, q'. rewrite Ho. split_and!; try done. intros r k' E. by destruct (Hstop r k'). }
  intros r k2 Hloop. rewrite Hloop in Hq', Hr. exists j, q'. destruct r as [v|].
  - split_and!; try done. unfold ret. intros. simplify_eq. by right.
  - assert (moves (fun k => pipes k pi) eq (wakeup (CPipeRead pi) ;; release (L_pipe pi) ;; ret (Z.of_nat (length l)))) as Hm by moves.
    split_and!; try done; [by rewrite <- (Hm k2)|]. intros r k' Hrun.
    repeat apply bind_Ret_inv in Hrun as ([] & ? & _ & Hrun). unfold ret in Hrun. simplify_eq. by left.
Qed.
End writer.

(** A reader whose writers may run whenever it waits: what it returns is the
    front of the queue, and nothing of it is lost. *)
Section reader.
Context `{Machine} (pi : Z) (Hwriters : forall n k, added (pipes k pi) (pipes (interfere n k) pi)).

Lemma piperead_stream n q k :
  rep (pipes k pi) q ->
  (fun o => exists new l q', rep (pipes (final o) pi) q' /\ l ++ q' = q ++ new /\ (length l <= n)%nat /\
    (forall r bs k', o = Ret (r, bs) k' -> l = bs /\
       (r = -1 /\ bs = [] \/
        r = Z.of_nat (length bs) /\ (bs = [] -> n = 0%nat \/ q' = [] /\ writeopen (pipes k' pi) = 0))))
  (piperead pi (Z.of_nat n) k).
Proof.
  intros Hq. unfold piperead. rewrite Nat2Z.id.
  pose proof (acquire_moves (fun k => pipes k pi) eq (L_pipe pi) k) as Ha. apply bind_cases.
  2:{ intros o Ho Hstop. exists [], [], q. rewrite Ho, <- Ha. split_and!; [done | by rewrite app_nil_r | simpl; lia|].
      intros r bs k' E. by destruct (Hstop (r, bs) k'). }
  intros [] k1 Hacq. rewrite Hacq in Ha. simpl in Ha. rewrite Ha in Hq.
  pose proof (moves_sleep_loop _ _ _ (pipe_wait_body_moves pi added Hwriters) k1 q Hq) as (new & Hnew).
  fold (pipe_wait pi) in Hnew. exists new. apply bind_cases.
  2:{ intros o Ho Hstop. exists [], (q ++ new). rewrite Ho. split_and!; try done; [simpl; lia|].
      intros r bs k' E. by destruct (Hstop (r, bs) k'). }
  intros r k2 Hrun. rewrite Hrun in Hnew. simpl in Hnew.
  apply (pipe_wait_inv _ _ Hwriters) in Hrun as [_ [->|[-> Hdata]]].
  { exists [], (q ++ new). split_and!; try done; [simpl; lia|]. unfold ret. intros. simplify_eq. split; [done | by left]. }
  destruct (pipe_copy_eq pi n _ k2 Hnew) as (f & Hcopy & Hrep & Ho).
  rewrite (bind_Ret _ _ _ _ _ Hcopy). rewrite <- (pipes_upd_pipe pi f k2) in Hrep.
  exists (take n (q ++ new)), (drop n (q ++ new)).
  assert (forall v : Z * list Z, moves (fun k => pipes k pi) eq (wakeup (CPipeWrite pi) ;; release (L_pipe pi) ;; ret v)) as Hm by (intros; moves).
  specialize (Hm (Z.of_nat (length (take n (q ++ new))), take n (q ++ new)) (upd_pipe pi f k2)).
  split_and!; [by rewrite <- Hm | apply take_drop | rewrite length_take; lia|].
  intros r bs k' Hrun. rewrite Hrun in Hm. cbn [final] in Hm.
  assert (writeopen (pipes k' pi) = writeopen (pipes k2 pi)) as Hwo by (rewrite <- Hm, pipes_upd_pipe; apply Ho). clear Hm.
  repeat apply bind_Ret_inv in Hrun as ([] & ? & _ & Hrun). unfold ret in Hrun. simplify_eq. split; [done|]. right.
  split; [done|]. intros Hnil. destruct n as [|n]; [by left|]. right. rewrite (rep_empty _ _ Hnew) in Hdata.
  rewrite Hwo. destruct (q ++ new); [|done]. split; [done|].
  rewrite bool_decide_true in Hdata by done. unfold truthy in Hdata. simpl in Hdata. by apply negb_false_iff, Z.eqb_eq in Hdata.
Qed.
End reader.

(** ** The properties *)

(** C10: A pipe is a bounded first-in first-out queue of bytes.  On a CPU that
    holds no lock, a [pipewrite] that fits returns the number of its bytes and
    appends them to the queue, whatever the positions of the counters in the
    ring and in their 32 bits; a [piperead] with data to read, or with the
    writing end closed, returns the first [n] bytes of the queue (all of them
    if there are fewer) and removes them.  Each leaves the other pipes and the
    open flags alone, wakes the sleepers of the other end and releases every
    lock; a write followed by a read of as many bytes into an empty pipe gives
    the bytes back and leaves it empty. *)
Theorem pipe_fifo `{Machine} c p pi q k :
  quiet c p k -> rep (pipes k pi) q ->
  (forall l, Z.of_nat (length q + length l) <= PIPESIZE ->
    exists k', pipewrite pi l (Z.of_nat (length l)) k = Ret (Z.of_nat (length l)) k' /\
      pipe_post c p pi (CPipeRead pi) (q ++ l) k k') /\
  (forall n, q <> [] \/ writeopen (pipes k pi) = 0 ->
    exists k', piperead pi (Z.of_nat n) k = Ret (Z.of_nat (length (take n q)), take n q) k' /\
      pipe_post c p pi (CPipeWrite pi) (drop n q) k k') /\
  (forall l, q = [] -> l <> [] -> Z.of_nat (length l) <= PIPESIZE ->
    exists k', (pipewrite pi l (Z.of_nat (length l)) ;; piperead pi (Z.of_nat (length l))) k =
      Ret (Z.of_nat (length l), l) k' /\ rep (pipes k' pi) []).
Proof.
  intros Hq Hrep. split_and!; intros.
  - by apply pipewrite_eq.
  - by apply piperead_eq.
  - subst q. destruct (pipewrite_eq c p pi l [] k) as (k1 & Hw & Hp1); [done..|].
    pose proof Hp1 as (Hrep1 & _ & _ & _ & _ & Hq1).
    destruct (piperead_eq c p pi (length l) l k1) as (k2 & Hr & Hrep2 & _); [done | done | by left|].
    exists k2. rewrite (bind_Ret _ _ _ _ _ Hw), Hr. rewrite firstn_all in *. split; [done|]. by rewrite drop_all in Hrep2.
Qed.

Lemma boot_pipe x : rep (pipes (on_cpu 0 0 boot) x) [].
Proof. by apply rep_new. Qed.

Lemma pipe_fifo_witness :
  exists k', @pipewrite (alone LOTTERY) 0 [104; 105] 2 (on_cpu 0 0 boot) = Ret 2 k' /\ rep (pipes k' 0) [104; 105].
Proof.
  destruct (@pipe_fifo (alone LOTTERY) 0 0 0 [] _ boot_quiet (boot_pipe 0)) as (Hw & _).
  destruct (Hw [104; 105]) as (k' & Hrun & Hrep & _); [done|]. by exists k'.
Defined.

(** C11: The two ends of a pipe running at the same time.  Let the other
    processes, whenever the caller waits, only take bytes from the front of
    the queue: then however a [pipewrite] ends (returning, blocked for ever,
    or stopped), the queue is what it was followed by the first [j] bytes
    written, less the bytes taken from its front; a result other than -1 is
    the full count and then all bytes went in.  Let the others only add bytes:
    then what a [piperead] returns is the front of the queue followed by what
    was added, in order, and the rest is still there; zero bytes (end of
    file) are returned for a positive count only if the queue is empty and
    the writing end closed. *)
Theorem pipe_stream `{Machine} pi q k :
  rep (pipes k pi) q ->
  ((forall n k, taken (pipes k pi) (pipes (interfere n k) pi)) -> forall l,
    exists j q', (j <= length l)%nat /\ rep (pipes (final (pipewrite pi l (Z.of_nat (length l)) k)) pi) q' /\
      q' `suffix_of` q ++ take j l /\
      (forall r k', pipewrite pi l (Z.of_nat (length l)) k = Ret r k' ->
        r = Z.of_nat (length l) /\ j = length l \/ r = -1)) /\
  ((forall n k, added (pipes k pi) (pipes (interfere n k) pi)) -> forall n,
    exists new l q', rep (pipes (final (piperead pi (Z.of_nat n) k)) pi) q' /\ l ++ q' = q ++ new /\
      (length l <= n)%nat /\
      (forall r bs k', piperead pi (Z.of_nat n) k = Ret (r, bs) k' -> l = bs /\
        (r = -1 /\ bs = [] \/
         r = Z.of_nat (length bs) /\ (bs = [] -> n = 0%nat \/ q' = [] /\ writeopen (pipes k' pi) = 0)))).
Proof.
  intros Hq. split.
  - intros Hr l. exact (pipewrite_stream pi Hr l q k Hq).
  - intros Hw n. exact (piperead_stream pi Hw n q k Hq).
Qed.

(** A reader that takes one byte whenever it runs, and a writer that adds one
    when there is room. *)
Definition nibble (pp : pipe) : pipe :=
  if nread pp =? nwrite pp then pp else upd_nread (fun n => u32 (n + 1)) pp.
Definition drip (pp : pipe) : pipe :=
  if nwrite pp =? u32 (nread pp + PIPESIZE) then pp else pipe_put 7 pp.

Lemma nibble_taken pp : taken pp (nibble pp).
Proof.
  intros q Hq. unfold nibble. rewrite (rep_empty _ _ Hq). destruct q as [|b q]; [by exists []|].
  rewrite bool_decide_false by done. exists q. split; [by apply (rep_get b)|]. by exists [b].
Qed.

Lemma drip_added pp : added pp (drip pp).
Proof.
  intros q Hq. unfold drip. rewrite (rep_full _ _ Hq). case_bool_decide as Hfull.
  - exists []. by rewrite app_nil_r.
  - exists [7]. apply rep_put; [done|]. pose proof (rep_fits _ _ Hq). lia.
Qed.

Lemma pipe_stream_witness :
  (exists j q', (j <= 600)%nat /\
    rep (pipes (final (@pipewrite (among (upd_pipe 0 nibble)) 0 (repeat 5 600) 600 (on_cpu 0 0 boot))) 0) q' /\
    q' `suffix_of` take j (repeat 5 600)) /\
  (exists new l q', rep (pipes (final (@piperead (among (upd_pipe 0 drip)) 0 3 (on_cpu 0 0 boot))) 0) q' /\ l ++ q' = new).
Proof.
  split.
  - destruct (@pipe_stream (among (upd_pipe 0 nibble)) 0 [] (on_cpu 0 0 boot) (boot_pipe 0)) as [Hw _].
    destruct (Hw ltac:(intros n k; exact (nibble_taken (pipes k 0))) (repeat 5 600)) as (j & q' & Hj & Hrep & Hs & _).
    exists j, q'. rewrite repeat_length in Hrep, Hj. by split_and!.
  - destruct (@pipe_stream (among (upd_pipe 0 drip)) 0 [] (on_cpu 0 0 boot) (boot_pipe 0)) as [_ Hr].
    destruct (Hr ltac:(intros n k; exact (drip_added (pipes k 0))) 3%nat) as (new & l & q' & Hrep & Hl & _).
    by exists new, l, q'.
Defined.
