(* ===== verification/File.v ===== *)
(** file.c and [pipealloc] of pipe.c: the table of open files.  A pointer to
    an open file is its slot, or null. *)

From S2P Require Import Prelude Memory KString Kernel Spinlock Kalloc Proc Sleeplock Bio Log Fs Pipe.

Definition get_file (f : nat) : M file := slot "ftable.file" ftable f.
Definition set_file (f : nat) (g : file -> file) : M unit := put_slot "ftable.file" ftable upd_ftable f g.

Section file.
Context `{Machine} `{BlockDriver} `{DevOps}.

Definition fileinit : M unit := initlock L_ftable "ftable".

Definition filealloc : M (option nat) :=
  acquire L_ftable ;;
  let* r := for_find (seq 0 NFILE) (fun f =>
    let* fl := get_file f in
    if f_ref fl =? 0 then
      set_file f (upd_f_ref (fun _ => 1)) ;;
      release L_ftable ;;
      ret (Some f)
    else ret None) in
  match r with
  | Some f => ret (Some f)
  | None => release L_ftable ;; ret None
  end.

Definition filedup (f : nat) : M nat :=
  acquire L_ftable ;;
  let* fl := get_file f in
  if f_ref fl <? 1 then panic "filedup" else
  set_file f (upd_f_ref (fun n => s32 (n + 1))) ;;
  release L_ftable ;;
  ret f.

Definition fileclose (f : nat) : M unit :=
  acquire L_ftable ;;
  let* fl := get_file f in
  if f_ref fl <? 1 then panic "fileclose" else
  set_file f (upd_f_ref (fun n => n - 1)) ;;
  let* ff := get_file f in
  if 0 <? f_ref ff then release L_ftable else
  set_file f (upd_f_ref (fun _ => 0)) ;;
  set_file f (upd_f_type (fun _ => FD_NONE)) ;;
  release L_ftable ;;
  match f_type ff with
  | FD_PIPE => pipeclose (f_pipe ff) (f_writable ff)
  | FD_INODE => begin_op ;; iput (f_ip ff) ;; end_op
  | FD_NONE => ret tt
  end.

Definition filestat (f : nat) : M (option stat) :=
  let* fl := get_file f in
  match f_type fl with
  | FD_INODE =>
      ilock (f_ip fl) ;;
      let* st := stati (f_ip fl) in
      iunlock (f_ip fl) ;;
      ret (Some st)
  | _ => ret None
  end.

Definition fileread (f : nat) (n : Z) : M (Z * list Z) :=
  let* fl := get_file f in
  if f_readable fl =? 0 then ret (-1, []) else
  match f_type fl with
  | FD_PIPE => piperead (f_pipe fl) n
  | FD_INODE =>
      ilock (f_ip fl) ;;
      let* fl := get_file f in
      let* ' (r, l) := readi (f_ip fl) (f_off fl) (u32 n) in
      when (0 <? r) (set_file f (upd_f_off (fun o => u32 (o + r)))) ;;
      iunlock (f_ip fl) ;;
      ret (r, l)
  | FD_NONE => panic "fileread"
  end.

(** The most bytes one transaction may write. *)
Definition WRITEMAX : Z := ((MAXOPBLOCKS - 1 - 1 - 2) / 2) * 512.

Definition filewrite (f : nat) (addr : list Z) (n : Z) : M Z :=
  let* fl := get_file f in
  if f_writable fl =? 0 then ret (-1) else
  match f_type fl with
  | FD_PIPE => pipewrite (f_pipe fl) addr n
  | FD_INODE =>
      let* i := iter (S (S (Z.to_nat (n / WRITEMAX)))) (fun i =>
        if i <? n then
          let n1 := Z.min (n - i) WRITEMAX in
          begin_op ;;
          ilock (f_ip fl) ;;
          let* fl := get_file f in
          let* r := writei (f_ip fl) (take (Z.to_nat n1) (drop (Z.to_nat i) addr)) (f_off fl) n1 in
          when (0 <? r) (set_file f (upd_f_off (fun o => u32 (o + r)))) ;;
          iunlock (f_ip fl) ;;
          end_op ;;
          if r <? 0 then ret (inr i) else
          if negb (r =? n1) then panic "short filewrite" else
          ret (inl (i + r))
        else ret (inr i)) 0 in
      ret (if i =? n then n else -1)
  | FD_NONE => panic "filewrite"
  end.

(** ** pipe.c: pipealloc *)

Definition pipealloc : M (option (nat * nat)) :=
  let close_opt (f : option nat) : M unit :=
    match f with Some f => fileclose f | None => ret tt end in
  let* f0 := filealloc in
  let* f1 := (match f0 with Some _ => filealloc | None => ret None end) in
  let bad : M (option (nat * nat)) :=
    close_opt f0 ;;
    close_opt f1 ;;
    ret None in
  match f0, f1 with
  | Some r, Some w =>
      let* p := kalloc in
      if p =? 0 then bad else
      set_pipe p (upd_readopen (fun _ => 1)) ;;
      set_pipe p (upd_writeopen (fun _ => 1)) ;;
      set_pipe p (upd_nwrite (fun _ => 0)) ;;
      set_pipe p (upd_nread (fun _ => 0)) ;;
      initlock (L_pipe p) "pipe" ;;
      set_file r (upd_f_type (fun _ => FD_PIPE)) ;;
      set_file r (upd_f_readable (fun _ => 1)) ;;
      set_file r (upd_f_writable (fun _ => 0)) ;;
      set_file r (upd_f_pipe (fun _ => p)) ;;
      set_file w (upd_f_type (fun _ => FD_PIPE)) ;;
      set_file w (upd_f_readable (fun _ => 0)) ;;
      set_file w (upd_f_writable (fun _ => 1)) ;;
      set_file w (upd_f_pipe (fun _ => p)) ;;
      ret (Some (r, w))
  | _, _ => bad
  end.
End file.
