(* ===== verification/Fork.v ===== *)
(** The life of a process in proc.c: [allocproc], [userinit], [growproc],
    [fork], [exit], [wait], [wait2], [forkret], and the listing [procdump]. *)

From S2P Require Import Prelude Memory KString Kernel Spinlock Boot Cprintf Kalloc Vm Proc Sleeplock Bio Log Fs Pipe File.

(** ** x86.h: offsets in the trap frame, proc.h: in the context *)

Definition TF_EAX : Z := 28.
Definition TF_ES : Z := 40.
Definition TF_DS : Z := 44.
Definition TF_TRAPNO : Z := 48.
Definition TF_ERR : Z := 52.
Definition TF_EIP : Z := 56.
Definition TF_CS : Z := 60.
Definition TF_EFLAGS : Z := 64.
Definition TF_ESP : Z := 68.
Definition TF_SS : Z := 72.
Definition sizeof_trapframe : Z := 76.
Definition CTX_EBP : Z := 12.
Definition CTX_EIP : Z := 16.
Definition sizeof_context : Z := 20.


Section fork.
Context `{Machine} `{BlockDriver} `{DevOps}.

(** [p->ofile[fd] = f] *)
Definition set_ofile (p : nat) (fd : Z) (f : option nat) : M unit :=
  let* pr := get_proc p in
  in_array "proc.ofile" (ofile pr) fd ;;
  set_proc p (upd_ofile (fun l => <[Z.to_nat fd := f]> l)).

Definition pinit : M unit := initlock L_ptable "ptable".

Definition allocproc : M (option nat) :=
  acquire L_ptable ;;
  let* r := for_find procs (fun i =>
    let* p := get_proc i in
    ret (if bool_decide (state p = UNUSED) then Some i else None)) in
  match r with
  | None => release L_ptable ;; ret None
  | Some p =>
      (match SCHEDULER with
       | LOTTERY => set_proc p (upd_tickets (fun _ => 10))
       | PRIORITY => ret tt
       end) ;;
      set_proc p (upd_state (fun _ => EMBRYO)) ;;
      let* n := gets nextpid in
      set_proc p (upd_pid (fun _ => n)) ;;
      modify (upd_nextpid (fun n => s32 (n + 1))) ;;
      (match SCHEDULER with
       | LOTTERY => ret tt
       | PRIORITY =>
           set_proc p (upd_priority (fun _ => 1)) ;;
           let* now := curr_time in
           set_proc p (upd_init_time (fun _ => now))
       end) ;;
      release L_ptable ;;
      let* stack := kalloc in
      set_proc p (upd_kstack (fun _ => stack)) ;;
      if stack =? 0 then set_proc p (upd_state (fun _ => UNUSED)) ;; ret None else
      let sp := stack + KSTACKSIZE in
      let sp := sp - sizeof_trapframe in
      set_proc p (upd_tf (fun _ => sp)) ;;
      let sp := sp - 4 in
      st32 sp ld_trapret ;;
      let sp := sp - sizeof_context in
      set_proc p (upd_context (fun _ => sp)) ;;
      modify (upd_mem (memset sp 0 sizeof_context)) ;;
      st32 (sp + CTX_EIP) ld_forkret ;;
      let* t := gets ticks in
      set_proc p (upd_ctime (fun _ => s32 t)) ;;
      set_proc p (upd_stime (fun _ => 0)) ;;
      set_proc p (upd_retime (fun _ => 0)) ;;
      set_proc p (upd_rutime (fun _ => 0)) ;;
      ret (Some p)
  end.

Definition userinit : M unit :=
  let* np := allocproc in
  modify (upd_initproc (fun _ => np)) ;;
  let* p := deref np in
  let* pg := setupkvm in
  set_proc p (upd_pgdir (fun _ => pg)) ;;
  if pg =? 0 then panic "userinit: out of memory?" else
  inituvm pg initcode ;;
  set_proc p (upd_sz (fun _ => PGSIZE)) ;;
  let* t := gets ticks in
  set_proc p (upd_ctime (fun _ => s32 t)) ;;
  let* pr := get_proc p in
  modify (upd_mem (memset (tf pr) 0 sizeof_trapframe)) ;;
  st16 (tf pr + TF_CS) (Z.lor (Z.shiftl SEG_UCODE 3) DPL_USER) ;;
  st16 (tf pr + TF_DS) (Z.lor (Z.shiftl SEG_UDATA 3) DPL_USER) ;;
  let* ds := ld16 (tf pr + TF_DS) in
  st16 (tf pr + TF_ES) ds ;;
  let* ds := ld16 (tf pr + TF_DS) in
  st16 (tf pr + TF_SS) ds ;;
  st32 (tf pr + TF_EFLAGS) FL_IF ;;
  st32 (tf pr + TF_ESP) PGSIZE ;;
  st32 (tf pr + TF_EIP) 0 ;;
  set_proc p (upd_name (fun nm => safestrcpy_l nm (chars "initcode") 16)) ;;
  let* ip := namei (chars "/") in
  set_proc p (upd_cwd (fun _ => ip)) ;;
  acquire L_ptable ;;
  set_proc p (upd_state (fun _ => RUNNABLE)) ;;
  release L_ptable.

Definition growproc (n : Z) : M Z :=
  let* p := curproc in
  let* pr := get_proc p in
  let commit_sz sz0 :=
    set_proc p (upd_sz (fun _ => u32 sz0)) ;;
    switchuvm (Some p) ;;
    ret 0 in
  if 0 <? n then
    let* sz0 := allocuvm (pgdir pr) (sz pr) (u32 (sz pr + n)) in
    if sz0 =? 0 then ret (-1) else commit_sz sz0
  else if n <? 0 then
    let* sz0 := deallocuvm (pgdir pr) (sz pr) (u32 (sz pr + n)) in
    if sz0 =? 0 then ret (-1) else commit_sz sz0
  else commit_sz (sz pr).

Definition fork : M Z :=
  let* cur := curproc in
  let* np := allocproc in
  match np with
  | None => ret (-1)
  | Some np =>
      let* c := get_proc cur in
      let* d := copyuvm (pgdir c) (sz c) in
      set_proc np (upd_pgdir (fun _ => d)) ;;
      if d =? 0 then
        let* n := get_proc np in
        kfree (kstack n) ;;
        set_proc np (upd_kstack (fun _ => 0)) ;;
        set_proc np (upd_state (fun _ => UNUSED)) ;;
        ret (-1)
      else
      set_proc np (upd_sz (fun _ => sz c)) ;;
      set_proc np (upd_parent (fun _ => Some cur)) ;;
      let* n := get_proc np in
      modify (upd_mem (copy_bytes (tf n) (tf c) sizeof_trapframe)) ;;
      set_proc np (upd_traceflag (fun _ => traceflag c)) ;;
      st32 (tf n + TF_EAX) 0 ;;
      for_each (seq 0 NOFILE) (fun i =>
        let* c := get_proc cur in
        let* o := elem_at "proc.ofile" (ofile c) (Z.of_nat i) in
        match o with
        | Some f =>
            let* f := filedup f in
            set_ofile np (Z.of_nat i) (Some f)
        | None => ret tt
        end) ;;
      let* ip := idup (cwd c) in
      set_proc np (upd_cwd (fun _ => ip)) ;;
      set_proc np (upd_name (fun nm => safestrcpy_l nm (name c) 16)) ;;
      let* n := get_proc np in
      acquire L_ptable ;;
      set_proc np (upd_state (fun _ => RUNNABLE)) ;;
      release L_ptable ;;
      ret (pid n)
  end.

(** The channel a process waits on for its children is its own slot. *)
Definition proc_chan (p : option nat) : chan :=
  match p with
  | Some i => CProc i
  | None => CNull
  end.

(** The end of [exit]: children go to init, and the process becomes a zombie
    its parent is told about. *)
Definition exit_sched (cur : nat) : M unit :=
  acquire L_ptable ;;
  let* c := get_proc cur in
  wakeup1 (proc_chan (parent c)) ;;
  for_each procs (fun i =>
    let* p := get_proc i in
    when (bool_decide (parent p = Some cur)) (
      let* ip := gets initproc in
      set_proc i (upd_parent (fun _ => ip)) ;;
      when (bool_decide (state p = ZOMBIE)) (wakeup1 (proc_chan ip)))) ;;
  set_proc cur (upd_state (fun _ => ZOMBIE)) ;;
  sched ;;
  panic "zombie exit".

Definition exit : M unit :=
  let* cur := curproc in
  let* ip := gets initproc in
  if bool_decide (ip = Some cur) then panic "init exiting" else
  for_each (seq 0 NOFILE) (fun fd =>
    let* c := get_proc cur in
    let* o := elem_at "proc.ofile" (ofile c) (Z.of_nat fd) in
    match o with
    | Some f =>
        fileclose f ;;
        set_ofile cur (Z.of_nat fd) None
    | None => ret tt
    end) ;;
  begin_op ;;
  let* c := get_proc cur in
  iput (cwd c) ;;
  end_op ;;
  set_proc cur (upd_cwd (fun _ => None)) ;;
  exit_sched cur.

(** What [wait] does with a zombie it found. *)
Definition reap (i : nat) : M Z :=
  let* p := get_proc i in
  kfree (kstack p) ;;
  set_proc i (upd_kstack (fun _ => 0)) ;;
  freevm (pgdir p) ;;
  set_proc i (upd_pid (fun _ => 0)) ;;
  set_proc i (upd_parent (fun _ => None)) ;;
  set_proc i (upd_name (fun nm => <[0%nat := 0]> nm)) ;;
  set_proc i (upd_killed (fun _ => 0)) ;;
  ret (pid p).

Definition wait : M Z :=
  let* cur := curproc in
  acquire L_ptable ;;
  sleep_loop (
    let* r := for_return procs (fun i havekids =>
      let* p := get_proc i in
      if negb (bool_decide (parent p = Some cur)) then ret (inl havekids) else
      if bool_decide (state p = ZOMBIE) then
        let* pid0 := reap i in
        set_proc i (upd_ctime (fun _ => 0)) ;;
        set_proc i (upd_state (fun _ => UNUSED)) ;;
        release L_ptable ;;
        ret (inr pid0)
      else ret (inl true)) false in
    match r with
    | inr pid0 => ret (Some pid0)
    | inl havekids =>
        let* c := get_proc cur in
        if negb havekids || truthy (killed c) then
          release L_ptable ;;
          ret (Some (-1))
        else
          sleep (CProc cur) (Some L_ptable) ;;
          ret None
    end).

(** [wait2] also stores the statistics of the child through the caller's
    pointers. *)
Definition wait2 (retime0 rutime0 stime0 : Z) : M Z :=
  let* cur := curproc in
  acquire L_ptable ;;
  sleep_loop (
    let* r := for_return procs (fun i havekids =>
      let* p := get_proc i in
      if negb (bool_decide (parent p = Some cur)) then ret (inl havekids) else
      if bool_decide (state p = ZOMBIE) then
        stu32 retime0 (retime p) ;;
        stu32 rutime0 (rutime p) ;;
        stu32 stime0 (stime p) ;;
        let* pid0 := reap i in
        set_proc i (upd_state (fun _ => UNUSED)) ;;
        set_proc i (upd_ctime (fun _ => 0)) ;;
        set_proc i (upd_retime (fun _ => 0)) ;;
        set_proc i (upd_rutime (fun _ => 0)) ;;
        set_proc i (upd_stime (fun _ => 0)) ;;
        release L_ptable ;;
        ret (inr pid0)
      else ret (inl true)) false in
    match r with
    | inr pid0 => ret (Some pid0)
    | inl havekids =>
        let* c := get_proc cur in
        if negb havekids || truthy (killed c) then
          release L_ptable ;;
          ret (Some (-1))
        else
          sleep (CProc cur) (Some L_ptable) ;;
          ret None
    end).

Definition forkret : M unit :=
  release L_ptable ;;
  let* first := gets forkret_first in
  when (truthy first) (
    modify (upd_forkret_first (fun _ => 0)) ;;
    iinit ROOTDEV ;;
    initlog ROOTDEV).

(** ** procdump, with getcallerpcs of spinlock.c *)

Fixpoint callerpcs (n : nat) (ebp : Z) (m : memory) : list Z :=
  match n with
  | O => []
  | S n =>
      if (ebp =? 0) || (ebp <? KERNBASE) || (ebp =? 0xffffffff) then repeat 0 (S n)
      else load32 m (ebp + 4) :: callerpcs n (load32 m ebp) m
  end.

(** [getcallerpcs(v, pcs)]: the call chain from the frame below [v]. *)
Definition getcallerpcs (v : Z) : M (list Z) :=
  gets (fun k => callerpcs 10 (v - 8) (mem k)).

Definition state_name (st : procstate) : list Z :=
  match st with
  | UNUSED => chars "unused"
  | EMBRYO => chars "embryo"
  | SLEEPING => chars "sleep "
  | RUNNABLE => chars "runble"
  | RUNNING => chars "run   "
  | ZOMBIE => chars "zombie"
  end.

Definition procdump : M unit :=
  for_each procs (fun i =>
    let* p := get_proc i in
    if bool_decide (state p = UNUSED) then ret tt else
    cprintf (chars "%d %s %s") [AInt (pid p); AStr (Some (state_name (state p))); AStr (Some (name p))] ;;
    when (bool_decide (state p = SLEEPING)) (
      let* ebp := ld32 (context p + CTX_EBP) in
      let* pcs := getcallerpcs (ebp + 8) in
      for_each (until_nul pcs) (fun pc => cprintf (chars " %p") [AInt pc])) ;;
    cprintf [10] []).
End fork.

(** ** Leaving *)

(** A child of [cur] is handed to [ip]. *)
Definition reparent (cur : nat) (ip : option nat) (p : proc) : proc :=
  if bool_decide (parent p = Some cur) then upd_parent (fun _ => ip) p else p.

Definition dead_child (cur : nat) (p : proc) : bool :=
  bool_decide (parent p = Some cur) && bool_decide (state p = ZOMBIE).

Lemma wake_parent ch p : parent (wake ch p) = parent p.
Proof. unfold wake. by case_match. Qed.

Lemma wake_zombie ch p : bool_decide (state (wake ch p) = ZOMBIE) = bool_decide (state p = ZOMBIE).
Proof.
  unfold wake. destruct (bool_decide (state p = SLEEPING)) eqn:E; simpl; [|done].
  apply bool_decide_eq_true in E. rewrite E. by case_match; rewrite ?E.
Qed.

Lemma wake_dead ch cur p : dead_child cur (wake ch p) = dead_child cur p.
Proof. unfold dead_child. by rewrite wake_parent, wake_zombie. Qed.

Lemma wake_reparent ch cur ip p : wake ch (reparent cur ip p) = reparent cur ip (wake ch p).
Proof.
  unfold reparent. rewrite wake_parent. case_match; [|done].
  unfold wake. rec_simpl. by case_match.
Qed.

Lemma wake_wake ch p : wake ch (wake ch p) = wake ch p.
Proof.
  unfold wake at 2 3. destruct (bool_decide (state p = SLEEPING) && _) eqn:E; [done|].
  unfold wake. by rewrite E.
Qed.

Section exit_facts.
Context `{Machine} (c : nat).

Definition orphans (cur : nat) (ip : option nat) (l : list nat) (t : list proc) : list proc :=
  (if existsb (fun i => match t !! i with Some p => dead_child cur p | None => false end) l
   then fmap (wake (proc_chan ip)) else id) (walk (reparent cur ip) l t).

Lemma walk_fmap_wake ch cur ip l t :
  walk (reparent cur ip) l (wake ch <$> t) = wake ch <$> walk (reparent cur ip) l t.
Proof.
  unfold walk. revert t. induction l as [|i l IH]; intros t; [done|]. simpl. rewrite <- IH. f_equal.
  apply list_eq. intros j. rewrite list_lookup_fmap.
  destruct (decide (i = j)) as [->|Hne].
  - rewrite !list_lookup_alter_eq, list_lookup_fmap. destruct (t !! j); simpl; [|done].
    by rewrite wake_reparent.
  - rewrite !list_lookup_alter_ne by done. by rewrite list_lookup_fmap.
Qed.

Lemma orphans_wake ch cur l t :
  orphans cur ch l (wake (proc_chan ch) <$> t) = wake (proc_chan ch) <$> orphans cur ch l t.
Proof.
  unfold orphans. rewrite walk_fmap_wake.
  assert (existsb (fun i => match (wake (proc_chan ch) <$> t) !! i with
      | Some p => dead_child cur p | None => false end) l =
    existsb (fun i => match t !! i with Some p => dead_child cur p | None => false end) l) as ->.
  { induction l as [|i l IH]; [done|]. simpl. rewrite IH. f_equal. rewrite list_lookup_fmap.
    destruct (t !! i); simpl; [apply wake_dead | done]. }
  by case_match.
Qed.

Lemma reparent_loop cur l k :
  (forall i, i ∈ l -> (i < NPROC)%nat) -> NoDup l -> ptable_ok k ->
  for_each l (fun i =>
    let* p := get_proc i in
    when (bool_decide (parent p = Some cur)) (
      let* ip := gets initproc in
      set_proc i (upd_parent (fun _ => ip)) ;;
      when (bool_decide (state p = ZOMBIE)) (wakeup1 (proc_chan ip)))) k =
  Ret tt (upd_ptable (orphans cur (initproc k) l) k).
Proof.
  revert k. induction l as [|i l IH]; intros k Hl Hnd Hk.
  { simpl. unfold ret, orphans. simpl. f_equal. by destruct k. }
  pose proof (NoDup_cons_1_1 _ _ Hnd) as Hi. apply NoDup_cons_1_2 in Hnd. simpl.
  destruct (lookup_lt_is_Some_2 (ptable k) i) as [p Hp]; [rewrite Hk; apply Hl; left|].
  set (ip := initproc k).
  assert (forall j, j ∈ l -> (j < NPROC)%nat) as Hl' by (intros; apply Hl; by right).
  assert (Hsame : forall f, existsb (fun j => match alter f i (ptable k) !! j with
      | Some p => dead_child cur p | None => false end) l =
    existsb (fun j => match ptable k !! j with Some p => dead_child cur p | None => false end) l).
  { intros f. clear -Hi. induction l as [|j l IHl]; [done|].
    apply not_elem_of_cons in Hi as [? ?]. simpl. rewrite IHl by done.
    by rewrite list_lookup_alter_ne. }
  assert (Hstep : forall k1, ptable k1 = alter (reparent cur ip) i (ptable k) \/
      (ptable k1 = wake (proc_chan ip) <$> alter (reparent cur ip) i (ptable k)) ->
    ptable_ok k1).
  { intros k1 [E|E]; unfold ptable_ok; rewrite E, ?length_fmap, length_alter; exact Hk. }
  rewrite bind_assoc. mcall get_proc_eq. unfold when at 1.
  destruct (bool_decide (parent p = Some cur)) eqn:Epar; mrun.
  - fold ip. destruct (bool_decide (state p = ZOMBIE)) eqn:Ez; mrun.
    + mcall wakeup1_eq by (unfold ptable_ok; rec_simpl; by rewrite length_alter).
      rewrite IH; [|done|done|unfold ptable_ok; rec_simpl; by rewrite length_fmap, length_alter].
      f_equal. kernel_eq. change (initproc _) with ip.
      rewrite orphans_wake. unfold orphans at 2. simpl. rewrite Hp. unfold dead_child at 1.
      rewrite Epar, Ez. simpl. unfold orphans. rewrite Hsame.
      assert (alter (upd_parent (fun _ => ip)) i (ptable k) = alter (reparent cur ip) i (ptable k)) as ->.
      { apply list_alter_ext; [|done]. intros x Hx. assert (x = p) as -> by congruence.
        unfold reparent. by rewrite Epar. }
      fold (walk (reparent cur ip) l (alter (reparent cur ip) i (ptable k))).
      destruct (existsb _ l); [|done]. unfold id. rewrite <- list_fmap_compose.
      apply list_fmap_ext. intros ? x ?. apply wake_wake.
    + rewrite IH; [|done|done|unfold ptable_ok; rec_simpl; by rewrite length_alter].
      f_equal. kernel_eq. change (initproc _) with ip. unfold orphans. simpl. rewrite Hp. unfold dead_child at 2.
      rewrite Epar, Ez. simpl. rewrite Hsame.
      assert (alter (upd_parent (fun _ => ip)) i (ptable k) = alter (reparent cur ip) i (ptable k)) as ->; [|done].
      apply list_alter_ext; [|done]. intros x Hx. assert (x = p) as -> by congruence.
      unfold reparent. by rewrite Epar.
  - rewrite IH by done. f_equal. kernel_eq. unfold orphans. simpl. rewrite Hp. unfold dead_child at 2.
    rewrite Epar. simpl.
    assert (alter (reparent cur ip) i (ptable k) = ptable k) as E; [|by fold ip; unfold walk; simpl; rewrite E].
    apply list_alter_same. intros x Hx. assert (x = p) as -> by congruence.
    unfold reparent. by rewrite Epar.
Qed.

Definition exit_table (cur : nat) (par ip : option nat) (t : list proc) : list proc :=
  alter (upd_state (fun _ => ZOMBIE)) cur (orphans cur ip procs (wake (proc_chan par) <$> t)).

Lemma orphans_length cur ip l t : length (orphans cur ip l t) = length t.
Proof. unfold orphans. case_match; unfold id; by rewrite ?length_fmap, walk_length. Qed.

Lemma exit_table_length cur par ip t : length (exit_table cur par ip t) = length t.
Proof. unfold exit_table. by rewrite length_alter, orphans_length, length_fmap. Qed.

Lemma dead_children cur ch t :
  length t = NPROC ->
  existsb (fun i => match (wake ch <$> t) !! i with Some p => dead_child cur p | None => false end) procs
  = existsb (dead_child cur) t.
Proof.
  intros Hlen. apply eq_true_iff_eq. rewrite !existsb_exists. split.
  - intros (i & _ & Hi). rewrite list_lookup_fmap in Hi. destruct (t !! i) as [p|] eqn:Hp; [|done].
    simpl in Hi. rewrite wake_dead in Hi. exists p. split; [|done].
    by eapply list_elem_of_In, list_elem_of_lookup_2.
  - intros (p & Hin & Hd). apply list_elem_of_In, list_elem_of_lookup_1 in Hin as [i Hi].
    exists i. split.
    + apply list_elem_of_In, elem_of_seq. pose proof (lookup_lt_Some _ _ _ Hi). lia.
    + rewrite list_lookup_fmap, Hi. simpl. by rewrite wake_dead.
Qed.

(** The table after [exit], slot by slot. *)
Lemma exit_table_lookup cur par ip t i p :
  length t = NPROC -> t !! i = Some p ->
  exit_table cur par ip t !! i =
    Some ((if decide (i = cur) then upd_state (fun _ => ZOMBIE) else id)
      ((if existsb (dead_child cur) t then wake (proc_chan ip) else id)
        (reparent cur ip (wake (proc_chan par) p)))).
Proof.
  intros Hlen Hp. pose proof (lookup_lt_Some _ _ _ Hp) as Hi.
  assert (orphans cur ip procs (wake (proc_chan par) <$> t) !! i =
    Some ((if existsb (dead_child cur) t then wake (proc_chan ip) else id)
        (reparent cur ip (wake (proc_chan par) p)))) as Ho.
  { unfold orphans. rewrite dead_children by done.
    assert (walk (reparent cur ip) procs (wake (proc_chan par) <$> t) !! i =
      Some (reparent cur ip (wake (proc_chan par) p))) as Hw.
    { rewrite walk_lookup_in; [by rewrite list_lookup_fmap, Hp | apply NoDup_seq | apply elem_of_seq; lia]. }
    case_match; unfold id; rewrite ?list_lookup_fmap, Hw; done. }
  unfold exit_table. case_decide as E.
  - subst i. by rewrite list_lookup_alter_eq, Ho.
  - by rewrite list_lookup_alter_ne.
Qed.
End exit_facts.

Section exit_switch.
Context `{R : Resumes} (c : nat).

Lemma exit_sched_eq cur cp k :
  running c 0 cur k -> lock_free L_ptable k -> ptable k !! cur = Some cp ->
  let k1 := upd_ptable (exit_table cur (parent cp) (initproc k)) (acq L_ptable c k) in
  switched_out c cur k1 /\
  exit_sched cur k = match budget k with
                     | O => Blocked (bump cur k1)
                     | S n => Panic "zombie exit" (after_switch n c cur k1)
                     end.
Proof.
  intros Hr Hl Hcp k1. pose proof Hr as (Hok & Hk & _).
  assert (switched_out c cur k1) as Hs.
  { split_and!; [| exact (acq_mine c L_ptable k) |].
    - apply running_ptable; [intros; apply exit_table_length|]. exact (running_acq c L_ptable 0 cur k Hr).
    - unfold k1. rec_simpl. change (ptable (acq L_ptable c k)) with (ptable k).
      rewrite (exit_table_lookup cur _ _ _ _ cp Hk Hcp), decide_True by done.
      eexists. split; [reflexivity|]. done. }
  split; [done|]. unfold exit_sched. mcall (acquire_eq c). mcall get_proc_eq.
  mcall wakeup1_eq.
  erewrite bind_Ret.
  2:{ apply reparent_loop; [intros i Hi%elem_of_seq; lia | apply NoDup_seq |].
      unfold ptable_ok. rec_simpl. rewrite length_fmap. exact Hk. }
  pose proof (lookup_lt_Some _ _ _ Hcp) as Hlt. rewrite bind_set_proc by (rec_simpl; by rewrite orphans_length, length_fmap).
  change (upd_ptable (alter (upd_state (fun _ => ZOMBIE)) cur) _) with k1.
  unfold bind at 1. rewrite (sched_eq c cur) by done. change (budget k1) with (budget k).
  by destruct (budget k).
Qed.

(** Slot [i], which held [p], when the process of slot [cur], a child of [par],
    has exited; [lost] says that it had a child that was a zombie. *)
Definition exited (cur : nat) (par ip : option nat) (lost : bool) (i : nat) (p : proc) : proc :=
  upd_parent (fun q => if bool_decide (q = Some cur) then ip else q)
    (upd_state (fun st =>
      if decide (i = cur) then ZOMBIE
      else if bool_decide (st = SLEEPING) &&
              (bool_decide (chan_ p = proc_chan par) || (bool_decide (chan_ p = proc_chan ip) && lost))
           then RUNNABLE else st) p).

Lemma upd_state_same f p : f (state p) = state p -> upd_state f p = p.
Proof. destruct p. intros E. unfold upd_state. cbn in *. by rewrite E. Qed.

Lemma upd_parent_same f p : f (parent p) = parent p -> upd_parent f p = p.
Proof. destruct p. intros E. unfold upd_parent. cbn in *. by rewrite E. Qed.

Lemma upd_state_ext f g p : f (state p) = g (state p) -> upd_state f p = upd_state g p.
Proof. intros E. unfold upd_state. by rewrite E. Qed.

Lemma upd_state_twice f g p : upd_state f (upd_state g p) = upd_state (fun s => f (g s)) p.
Proof. reflexivity. Qed.

Lemma wake_state ch p :
  wake ch p = upd_state (fun st => if bool_decide (st = SLEEPING) && bool_decide (chan_ p = ch) then RUNNABLE else st) p.
Proof.
  unfold wake. destruct (_ && _) eqn:E; [apply upd_state_ext | symmetry; apply upd_state_same]; by rewrite E.
Qed.

Lemma reparent_parent cur ip p :
  reparent cur ip p = upd_parent (fun q => if bool_decide (q = Some cur) then ip else q) p.
Proof.
  unfold reparent. destruct (bool_decide _) eqn:E; [unfold upd_parent | symmetry; apply upd_parent_same]; by rewrite E.
Qed.

Lemma exited_eq cur par ip (lost : bool) i p :
  (if decide (i = cur) then upd_state (fun _ => ZOMBIE) else id)
    ((if lost then wake (proc_chan ip) else id) (reparent cur ip (wake (proc_chan par) p))) =
  exited cur par ip lost i p.
Proof.
  unfold exited. rewrite reparent_parent, wake_state. set (F := fun q => if bool_decide (q = Some cur) then ip else q).
  transitivity (upd_parent F ((if decide (i = cur) then upd_state (fun _ => ZOMBIE) else id)
    ((if lost then wake (proc_chan ip) else id)
      (upd_state (fun st => if bool_decide (st = SLEEPING) && bool_decide (chan_ p = proc_chan par) then RUNNABLE else st) p)))).
  { destruct (decide (i = cur)), lost; rewrite ?wake_state; reflexivity. }
  f_equal. destruct (decide (i = cur)), lost; rewrite ?wake_state; unfold id; try reflexivity;
    rewrite ?upd_state_twice; apply upd_state_ext; change (chan_ (upd_state _ p)) with (chan_ p); cbv beta;
    destruct (state p), (bool_decide (chan_ p = proc_chan par)), (bool_decide (chan_ p = proc_chan ip)); reflexivity.
Qed.

(** C22: the end of [exit] ([exit_sched], after the files are closed) gives up the
    CPU for good, with the lock of the process table held and nothing changed
    but the process table, and there only these fields: the process is a
    zombie, its children belong to init, a process asleep on the channel of
    the parent (in [wait]) is runnable, and so is one asleep on that of init
    if one of the children is a zombie.  The call does not return: the switch
    to the scheduler is its last action if no one runs the process again, and
    if a scheduler did, which would have to pick a zombie, the kernel panics. *)
Theorem exit_handshake cur cp k :
  running c 0 cur k -> lock_free L_ptable k -> ptable k !! cur = Some cp ->
  let lost := existsb (dead_child cur) (ptable k) in
  let k1 := upd_ptable (imap (exited cur (parent cp) (initproc k) lost)) (acq L_ptable c k) in
  switched_out c cur k1 /\
  exit_sched cur k = match budget k with
                     | O => Blocked (bump cur k1)
                     | S n => Panic "zombie exit" (after_switch n c cur k1)
                     end.
Proof.
  intros Hr Hl Hcp lost k1. destruct (exit_sched_eq cur cp k Hr Hl Hcp) as [Hs Hrun].
  pose proof Hr as (_ & Hk & _).
  assert (upd_ptable (exit_table cur (parent cp) (initproc k)) (acq L_ptable c k) = k1) as E.
  { unfold k1. kernel_eq. change (ptable (acq L_ptable c k)) with (ptable k). apply list_eq. intros i.
    rewrite list_lookup_imap. destruct (ptable k !! i) as [p|] eqn:Hp; simpl.
    - rewrite (exit_table_lookup cur (parent cp) (initproc k) _ _ p Hk Hp). by rewrite exited_eq.
    - apply lookup_ge_None_2. rewrite exit_table_length. by apply lookup_ge_None_1. }
  rewrite E in Hs, Hrun. by split.
Qed.
End exit_switch.

(** ** Coming into being *)

(** What [allocproc] writes into the slot under the table lock. *)
Definition embryo (s : scheduler_kind) (n now : Z) (p : proc) : proc :=
  match s with
  | LOTTERY => upd_pid (fun _ => n) (upd_state (fun _ => EMBRYO) (upd_tickets (fun _ => 10) p))
  | PRIORITY => upd_init_time (fun _ => now) (upd_priority (fun _ => 1)
                  (upd_pid (fun _ => n) (upd_state (fun _ => EMBRYO) p)))
  end.

(** The frames on the new kernel stack, and the fields that point to them. *)
Definition tf_of (stack : Z) : Z := stack + KSTACKSIZE - sizeof_trapframe.
Definition context_of (stack : Z) : Z := tf_of stack - 4 - sizeof_context.

Definition stacked (stack now : Z) (p : proc) : proc :=
  upd_rutime (fun _ => 0) (upd_retime (fun _ => 0) (upd_stime (fun _ => 0) (upd_ctime (fun _ => now)
    (upd_context (fun _ => context_of stack) (upd_tf (fun _ => tf_of stack)
      (upd_kstack (fun _ => stack) p)))))).

Section alloc.
Context `{Machine} (c : nat).

Definition new_stack (stack : Z) (m : memory) : memory :=
  store32 (context_of stack + CTX_EIP) ld_forkret
    (memset (context_of stack) 0 sizeof_context (store32 (tf_of stack - 4) ld_trapret m)).

Definition claimed (i : nat) (k : kernel) : kernel :=
  upd_nextpid (fun n => s32 (n + 1))
    (upd_ptable (alter (embryo SCHEDULER (nextpid k) (s32 (ticks k))) i) (touch c k)).

Definition unused (t : list proc) : option nat :=
  find_index (fun p => bool_decide (state p = UNUSED)) t.

Lemma claim_eq i k :
  cpu_ok c k -> lock_free L_ptable k -> lock_free L_ticks k -> ptable_ok k ->
  unused (ptable k) = Some i ->
  forall (rest : nat -> M (option nat)),
  (acquire L_ptable ;;
   let* r := for_find procs (fun i =>
     let* p := get_proc i in
     ret (if bool_decide (state p = UNUSED) then Some i else None)) in
   match r with
   | None => release L_ptable ;; ret None
   | Some p =>
      (match SCHEDULER with
       | LOTTERY => set_proc p (upd_tickets (fun _ => 10))
       | PRIORITY => ret tt
       end) ;;
      set_proc p (upd_state (fun _ => EMBRYO)) ;;
      let* n := gets nextpid in
      set_proc p (upd_pid (fun _ => n)) ;;
      modify (upd_nextpid (fun n => s32 (n + 1))) ;;
      (match SCHEDULER with
       | LOTTERY => ret tt
       | PRIORITY =>
           set_proc p (upd_priority (fun _ => 1)) ;;
           let* now := curr_time in
           set_proc p (upd_init_time (fun _ => now))
       end) ;;
      release L_ptable ;;
      rest p
   end) k = rest i (claimed i k).
Proof.
  intros Hok Hl Hlt Hk Hi rest. mcall (acquire_eq c).
  pose proof (acq_ok c L_ptable k Hok) as Hok1. pose proof (acq_depth c L_ptable k Hok) as Hd1.
  pose proof (depth_nonneg c k Hok).
  erewrite bind_Ret.
  2:{ etransitivity; [apply (for_find_index "ptable.proc" ptable)|].
      - change (ptable _) with (ptable k). by rewrite Hk.
      - change (ptable (acq L_ptable c k)) with (ptable k). rewrite take_ge by (by rewrite Hk).
        fold (unused (ptable k)). by rewrite Hi. }
  pose proof (find_index_lt _ _ _ Hi) as Hlen. change (ptable k) with (ptable (acq L_ptable c k)) in Hlen.
  unfold claimed. destruct SCHEDULER; mrun.
  - set (f := fun k' => upd_nextpid (fun n => s32 (n + 1))
      (upd_ptable (alter (embryo LOTTERY (nextpid k) (s32 (ticks k))) i) k')).
    assert (upd_nextpid (fun n => s32 (n + 1)) (upd_ptable (alter (upd_pid (fun _ => nextpid k)) i)
      (upd_ptable (alter (upd_state (fun _ => EMBRYO)) i)
        (upd_ptable (alter (upd_tickets (fun _ => 10)) i) (acq L_ptable c k)))) = f (acq L_ptable c k)) as E.
    { unfold f. kernel_eq. by rewrite !list_alter_twice. }
    change (nextpid _) with (nextpid k). rewrite E.
    mcall (unrelated_release f ltac:(done) c L_ptable k).
    change (rel L_ptable c (f (acq L_ptable c k))) with (f (rel L_ptable c (acq L_ptable c k))).
    by rewrite rel_acq.
  - set (g := fun k' => upd_ptable (alter (upd_priority (fun _ => 1)) i) (upd_nextpid (fun n => s32 (n + 1))
      (upd_ptable (alter (upd_pid (fun _ => nextpid k)) i) (upd_ptable (alter (upd_state (fun _ => EMBRYO)) i) k')))).
    set (f := fun k' => upd_nextpid (fun n => s32 (n + 1))
      (upd_ptable (alter (embryo PRIORITY (nextpid k) (s32 (ticks k))) i) k')).
    change (nextpid (upd_ptable _ (acq L_ptable c k))) with (nextpid k).
    change (upd_ptable (alter (upd_priority _) i) _) with (g (acq L_ptable c k)).
    mcall (curr_time_eq c) by (first [by apply (unrelated_ok g) | exact Hlt]).
    rewrite touch_deep by (by apply (unrelated_ok g) || (rewrite (unrelated_depth g) by done; lia)).
    assert (upd_ptable (alter (upd_init_time (fun _ => s32 (ticks (g (acq L_ptable c k))))) i)
      (g (acq L_ptable c k)) = f (acq L_ptable c k)) as E.
    { unfold f, g. kernel_eq. by rewrite !list_alter_twice. }
    rewrite ?bind_set_proc by (unfold g; rec_simpl; by rewrite !length_alter).
    rewrite E. mcall (unrelated_release f ltac:(done) c L_ptable k).
    change (rel L_ptable c (f (acq L_ptable c k))) with (f (rel L_ptable c (acq L_ptable c k))).
    by rewrite rel_acq.
Qed.

Lemma claimed_ready i k : cpu_ok c k -> lock_free L_kmem k -> kmem_ready c (claimed i k).
Proof. intros Hok Hl _. split; [exact (touch_ok c k Hok) | exact Hl]. Qed.

Lemma ktouch_claimed i k : ktouch c (claimed i k) = claimed i k.
Proof.
  unfold ktouch. destruct (truthy _); [|done].
  change (touch c (claimed i k)) with (upd_nextpid (fun n => s32 (n + 1))
    (upd_ptable (alter (embryo SCHEDULER (nextpid k) (s32 (ticks k))) i) (touch c (touch c k)))).
  by rewrite touch_twice.
Qed.

Lemma ptable_past_mem f g k : upd_ptable f (upd_mem g k) = upd_mem g (upd_ptable f k).
Proof. reflexivity. Qed.

Lemma mem_mem f g k : upd_mem f (upd_mem g k) = upd_mem (fun m => f (g m)) k.
Proof. reflexivity. Qed.

Lemma alter_alter f g i k :
  upd_ptable (alter f i) (upd_ptable (alter g i) k) = upd_ptable (alter (fun p => f (g p)) i) k.
Proof. kernel_eq. by rewrite list_alter_twice. Qed.

Lemma table_past_mem f k : ptable (upd_mem f k) = ptable k.
Proof. reflexivity. Qed.

Lemma table_alter_length f i k : length (ptable (upd_ptable (alter f i) k)) = length (ptable k).
Proof. apply length_alter. Qed.

(** The part after the lock is released, from a state that has the page. *)
Lemma build_stack_eq i stack k1 : (i < length (ptable k1))%nat ->
  (set_proc i (upd_tf (fun _ => tf_of stack)) ;;
   st32 (tf_of stack - 4) ld_trapret ;;
   set_proc i (upd_context (fun _ => context_of stack)) ;;
   modify (upd_mem (memset (context_of stack) 0 sizeof_context)) ;;
   st32 (context_of stack + CTX_EIP) ld_forkret ;;
   let* t := gets ticks in
   set_proc i (upd_ctime (fun _ => s32 t)) ;;
   set_proc i (upd_stime (fun _ => 0)) ;;
   set_proc i (upd_retime (fun _ => 0)) ;;
   set_proc i (upd_rutime (fun _ => 0)) ;; ret (Some i))
    (upd_ptable (alter (upd_kstack (fun _ => stack)) i) k1) =
  Ret (Some i) (upd_mem (new_stack stack) (upd_ptable (alter (stacked stack (s32 (ticks k1))) i) k1)).
Proof.
  intros Hi.
  repeat first [rewrite bind_set_proc by (repeat first [rewrite table_past_mem | rewrite table_alter_length]; exact Hi)
    | rewrite bind_st32 | rewrite bind_modify | rewrite bind_gets].
  unfold ret. f_equal.
  change (ticks _) with (ticks k1). rewrite !ptable_past_mem, !mem_mem, !alter_alter. reflexivity.
Qed.

(** [allocproc] in every case: no free slot, no page for the stack, success. *)
Lemma allocproc_eq k l :
  cpu_ok c k -> lock_free L_ptable k -> lock_free L_ticks k -> lock_free L_kmem k ->
  ptable_ok k -> kmem_ok k l ->
  allocproc k =
    match unused (ptable k), l with
    | None, _ => Ret None (touch c k)
    | Some i, [] =>
        Ret None (upd_ptable (alter (fun p => upd_state (fun _ => UNUSED) (upd_kstack (fun _ => 0) p)) i)
          (claimed i k))
    | Some i, stack :: _ =>
        Ret (Some i)
          (upd_mem (new_stack stack)
            (upd_freelist (fun _ => load32 (mem k) stack)
              (upd_ptable (alter (stacked stack (s32 (ticks k))) i) (claimed i k))))
    end.
Proof.
  intros Hok Hl Hlt Hlk Hk Hkm. destruct (unused (ptable k)) as [i|] eqn:Hi.
  - unfold allocproc. etransitivity; [exact (claim_eq i k Hok Hl Hlt Hk Hi _)|].
    pose proof (kalloc_eq c (claimed i k) l (claimed_ready i k Hok Hlk) Hkm) as Hka.
    rewrite ktouch_claimed in Hka. destruct l as [|stack l].
    + pose proof (find_index_lt _ _ _ Hi) as Hlen.
      assert (i < length (ptable (claimed i k)))%nat as Hlc by (unfold claimed; rec_simpl; by rewrite length_alter).
      erewrite bind_Ret; [|exact Hka]. mrun. change (0 =? 0) with true. cbv iota.
      mrun. unfold ret. f_equal. kernel_eq. by rewrite list_alter_twice.
    + pose proof (find_index_lt _ _ _ Hi) as Hlen.
      erewrite bind_Ret; [|exact Hka]. erewrite bind_Ret by (apply set_proc_eq; unfold claimed; rec_simpl; by rewrite length_alter).
      assert (stack <> 0) as Hs.
      { apply page_ok_nonzero. destruct Hkm as (_ & _ & _ & Hp). by apply list.Forall_cons in Hp as [? _]. }
      rewrite (proj2 (Z.eqb_neq _ _) Hs). apply (build_stack_eq i stack (upd_freelist _ (claimed i k))).
      unfold claimed. rec_simpl. by rewrite length_alter.
  - unfold allocproc. mcall (acquire_eq c). erewrite bind_Ret.
    2:{ etransitivity; [apply (for_find_index "ptable.proc" ptable)|].
        - change (ptable _) with (ptable k). by rewrite Hk.
        - change (ptable (acq L_ptable c k)) with (ptable k). rewrite take_ge by (by rewrite Hk).
          fold (unused (ptable k)). by rewrite Hi. }
    cbv beta iota.
    erewrite bind_Ret; [|exact (unrelated_release id ltac:(done) c L_ptable k Hok)].
    unfold ret. f_equal. by apply rel_acq.
Qed.

Lemma new_stack_out stack m x : x < stack \/ stack + PGSIZE <= x -> new_stack stack m x = m x.
Proof.
  intros Hx. unfold new_stack, context_of, tf_of, KSTACKSIZE, sizeof_trapframe, sizeof_context, CTX_EIP,
    PGSIZE in *.
  rewrite store32_other by lia. rewrite memset_eq by lia. rewrite stosb_out by lia.
  apply store32_other. lia.
Qed.

Lemma new_stack_ok stack m : mem_ok m -> mem_ok (new_stack stack m).
Proof.
  intros Hm. apply store32_ok. intros x. rewrite memset_eq by (unfold sizeof_context; lia).
  by apply stosb_ok, store32_ok.
Qed.

Lemma new_stack_forkret stack m :
  load32 (new_stack stack m) (context_of stack + CTX_EIP) = u32 ld_forkret.
Proof. apply load32_store32. Qed.

Lemma new_stack_trapret stack m : load32 (new_stack stack m) (tf_of stack - 4) = u32 ld_trapret.
Proof.
  unfold new_stack, context_of, sizeof_context, CTX_EIP. rewrite load32_store32_ne by lia.
  rewrite (load32_ext _ (store32 (tf_of stack - 4) ld_trapret m)); [apply load32_store32|].
  intros x Hx. rewrite memset_eq by lia. apply stosb_out. lia.
Qed.

(** C34: with a free slot and a free page, [allocproc] returns the first free
    slot as an embryo with the next pid: its kernel stack is the page taken off
    the free list, the saved program counter at the bottom of its context is
    [forkret], the word above it makes [forkret] return to [trapret], and no
    other slot and nothing outside the page has changed. *)
Theorem allocproc_embryo k i p stack l :
  cpu_ok c k -> lock_free L_ptable k -> lock_free L_ticks k -> lock_free L_kmem k ->
  ptable_ok k -> kmem_ok k (stack :: l) -> unused (ptable k) = Some i -> ptable k !! i = Some p ->
  exists k' p', allocproc k = Ret (Some i) k' /\ kmem_ok k' l /\
    ptable k' = <[i := p']> (ptable k) /\ state p' = EMBRYO /\ pid p' = nextpid k /\ kstack p' = stack /\
    load32 (mem k') (context p' + CTX_EIP) = u32 ld_forkret /\
    context p' + sizeof_context = tf p' - 4 /\ load32 (mem k') (tf p' - 4) = u32 ld_trapret /\
    tf p' + sizeof_trapframe = stack + KSTACKSIZE /\
    (forall x, x < stack \/ stack + PGSIZE <= x -> mem k' x = mem k x).
Proof.
  intros Hok Hl Hlt Hlk Hk Hkm Hi Hp. do 2 eexists. split.
  { rewrite (allocproc_eq k (stack :: l)), Hi by done. reflexivity. }
  split.
  { destruct Hkm as (Hm & Hfl & Hnd & Hpg). apply list.Forall_cons in Hpg as [Hs Hpg].
    apply (kmem_ok_frame (new_stack stack) stack); rec_simpl; try done.
    - by apply NoDup_cons_1_1 in Hnd.
    - exact (new_stack_ok stack (mem k) Hm).
    - intros x. exact (new_stack_out stack (mem k) x).
    - split_and!; [exact Hm | apply Hfl | by apply NoDup_cons_1_2 in Hnd | done]. }
  split.
  { unfold claimed. rec_simpl. rewrite list_alter_twice. change (ptable (touch c k)) with (ptable k).
    by rewrite (list_alter_insert _ _ _ p Hp). }
  split_and!; [by destruct SCHEDULER | by destruct SCHEDULER | done | | | | |].
  - apply new_stack_forkret.
  - cbn. unfold context_of. lia.
  - apply new_stack_trapret.
  - cbn. unfold tf_of. lia.
  - intros x. apply new_stack_out.
Qed.

(** *** Process identifiers

    The pids given out are below [nextpid], and no two slots share one. *)
Definition pids_ok (t : list proc) (n : Z) : Prop :=
  (forall i p, t !! i = Some p -> pid p < n) /\
  (forall i j p q, t !! i = Some p -> t !! j = Some q -> pid p = pid q -> pid p <> 0 -> i = j).

Lemma pids_ok_alter i f t n :
  (forall p, pid (f p) = n) -> pids_ok t n -> pids_ok (alter f i t) (n + 1).
Proof.
  intros Hf [Hlt Hinj]. split.
  - intros j q Hj. apply list_lookup_alter_cases in Hj as [(_ & p & _ & ->)|[_ Hj]].
    + rewrite Hf. lia.
    + apply Hlt in Hj. lia.
  - intros j j' q q' Hj Hj' Heq H0.
    apply list_lookup_alter_cases in Hj as [(E & p & _ & ->)|[_ Hj]];
      apply list_lookup_alter_cases in Hj' as [(E' & p' & _ & ->)|[_ Hj']]; [congruence | | |].
    + rewrite Hf in Heq. apply Hlt in Hj'. lia.
    + rewrite Hf in Heq. apply Hlt in Hj. lia.
    + by eapply Hinj.
Qed.

(** [allocproc] keeps the pids unique in every case, the failing ones
    included, and gives the new process one that no slot holds. *)
Theorem allocproc_pids k l :
  cpu_ok c k -> lock_free L_ptable k -> lock_free L_ticks k -> lock_free L_kmem k ->
  ptable_ok k -> kmem_ok k l -> 0 < nextpid k < 2 ^ 31 - 1 -> pids_ok (ptable k) (nextpid k) ->
  exists r k', allocproc k = Ret r k' /\ pids_ok (ptable k') (nextpid k') /\
    forall i, r = Some i -> exists p', ptable k' !! i = Some p' /\ pid p' = nextpid k /\
      forall j p, ptable k !! j = Some p -> pid p <> pid p'.
Proof.
  intros Hok Hl Hlt Hlk Hk Hkm Hn Hpids. rewrite (allocproc_eq k l) by done.
  assert (s32 (nextpid k + 1) = nextpid k + 1) as Hs by (apply s32_small; lia).
  assert (forall p, pid (embryo SCHEDULER (nextpid k) (s32 (ticks k)) p) = nextpid k) as He
    by (by destruct SCHEDULER).
  destruct (unused (ptable k)) as [i|] eqn:Hi; [destruct l as [|stack l]|].
  - do 2 eexists. split; [reflexivity|]. split; [|done]. unfold claimed. rec_simpl.
    rewrite Hs, list_alter_twice. by apply pids_ok_alter.
  - do 2 eexists. split; [reflexivity|]. unfold claimed. rec_simpl. rewrite Hs, list_alter_twice.
    split; [by apply pids_ok_alter|]. intros ? [= <-].
    apply find_index_Some in Hi as [(p & Hp & _) _].
    eexists. split; [rewrite list_lookup_alter_eq; change (ptable (touch c k)) with (ptable k); by rewrite Hp|].
    split; [apply He|]. intros j q Hq. apply (proj1 Hpids) in Hq.
    change (pid q <> pid (embryo SCHEDULER (nextpid k) (s32 (ticks k)) p)). rewrite He. lia.
  - by exists None, (touch c k).
Qed.

(** [kill] does not look at the state of the slot it finds: with a pid that a
    free slot carries, 0 among them, it reports success and marks the free
    slot.  Nothing clears the mark, so the process that [allocproc] builds next
    in the slot is born killed. *)
Theorem kill_free_slot k pid0 i stack l :
  cpu_ok c k -> lock_free L_ptable k -> lock_free L_ticks k -> lock_free L_kmem k ->
  ptable_ok k -> kmem_ok k (stack :: l) ->
  unused (ptable k) = Some i -> slot_of_pid pid0 (ptable k) = Some i ->
  exists k1 k2 p, kill pid0 k = Ret 0 k1 /\ allocproc k1 = Ret (Some i) k2 /\
    ptable k2 !! i = Some p /\ state p = EMBRYO /\ killed p = 1.
Proof.
  intros Hok Hl Hlt Hlk Hk Hkm Hi Hs. pose proof Hi as [(p & Hp & Hu%bool_decide_eq_true) Hfst]%find_index_Some.
  assert (at_pid pid0 kill_proc (ptable k) = <[i := kill_proc p]> (ptable k)) as Hat.
  { unfold at_pid. rewrite Hs. by apply list_alter_insert. }
  pose proof (kill_eq c pid0 k Hok Hl Hk) as Hkill. rewrite Hs in Hkill.
  match type of Hkill with _ = Ret _ ?k1 => set (k1' := k1) in * end.
  assert (ptable k1' = <[i := kill_proc p]> (ptable k)) as Ht1 by exact Hat.
  assert (unused (ptable k1') = Some i) as Hi1.
  { rewrite Ht1. apply find_index_Some. split.
    - eexists. split; [apply list_lookup_insert_eq; by eapply lookup_lt_Some|].
      apply bool_decide_eq_true. unfold kill_proc. rec_simpl. by rewrite Hu.
    - intros j q Hj Hq. rewrite list_lookup_insert_ne in Hq by lia. by apply (Hfst j). }
  pose proof (allocproc_eq k1' (stack :: l) (touch_ok c k Hok) Hl Hlt Hlk
    ltac:(unfold ptable_ok; by rewrite Ht1, length_insert) Hkm) as Hal. rewrite Hi1 in Hal.
  do 3 eexists. split; [exact Hkill|]. split; [exact Hal|]. unfold claimed. rec_simpl.
  rewrite list_alter_twice, list_lookup_alter_eq. change (ptable (touch c k1')) with (ptable k1').
  rewrite Ht1, list_lookup_insert_eq by (by eapply lookup_lt_Some).
  split; [reflexivity|]. unfold kill_proc. by destruct SCHEDULER, (bool_decide _).
Qed.
End alloc.

(** ** The properties at work on concrete states *)

(** Init asleep in [wait], its child in [exit], and a dead grandchild. *)
Definition family : kernel :=
  upd_initproc (fun _ => Some 0%nat) (on_cpu 1 0 (upd_ptable (fun _ =>
    upd_state (fun _ => SLEEPING) (upd_chan_ (fun _ => CProc 0) (upd_pid (fun _ => 1) zero_proc)) ::
    upd_state (fun _ => RUNNING) (upd_parent (fun _ => Some 0%nat) (upd_pid (fun _ => 2) zero_proc)) ::
    upd_state (fun _ => ZOMBIE) (upd_parent (fun _ => Some 1%nat) (upd_pid (fun _ => 3) zero_proc)) ::
    repeat zero_proc 61) boot)).

Lemma family_running : running 0 0 1 family.
Proof. split_and!; [exact (on_cpu_ok 1 0 ltac:(lia)) | reflexivity |]. eexists. by split_and!. Qed.

Lemma exit_handshake_witness :
  exists k1, @exit_sched (alone LOTTERY) 1 family = Blocked (bump 1 k1) /\
    (state <$> ptable k1) = RUNNABLE :: ZOMBIE :: ZOMBIE :: repeat UNUSED 61 /\
    parent <$> ptable k1 !! 2%nat = Some (Some 0%nat).
Proof.
  destruct (@exit_handshake (alone LOTTERY) (alone_resumes LOTTERY) 0 1 _ family
    family_running (boot_free _) eq_refl) as [_ Hrun].
  eexists. split; [exact Hrun|]. by vm_compute.
Defined.

(** A machine with one free page. *)
Definition PAGE0 : Z := KERNBASE + 0x400000.
Definition one_page : kernel := upd_freelist (fun _ => PAGE0) boot.

Lemma one_page_ok : @kmem_ok (alone LOTTERY) one_page [PAGE0].
Proof.
  split_and!; [intros x; simpl; lia | by split | apply NoDup_singleton |].
  apply list.Forall_cons. split; [|constructor]. by vm_compute.
Qed.

Lemma boot_pids_ok : pids_ok (ptable boot) (nextpid boot).
Proof.
  assert (forall i p, ptable boot !! i = Some p -> pid p = 0) as Hz.
  { intros i p Hp%list_elem_of_lookup_2. change (ptable boot) with (repeat zero_proc NPROC) in Hp.
    apply list_elem_of_In, repeat_spec in Hp. by subst. }
  split.
  - intros i p Hp%Hz. rewrite Hp. done.
  - intros i j p q Hp%Hz _ _ H0. done.
Qed.

Lemma allocproc_embryo_witness :
  exists k' p', @allocproc (alone LOTTERY) one_page = Ret (Some 0%nat) k' /\
    ptable k' = <[0%nat := p']> (ptable one_page) /\ pid p' = 1 /\ kstack p' = PAGE0 /\
    load32 (mem k') (context p' + CTX_EIP) = KERNLINK + 0x3a60.
Proof.
  destruct (@allocproc_embryo (alone LOTTERY) 0 one_page 0 zero_proc PAGE0 [] boot_cpu_ok
    (boot_free _) (boot_free _) (boot_free _) eq_refl one_page_ok eq_refl eq_refl)
    as (k' & p' & Hrun & _ & Ht & _ & Hpid & Hks & Heip & _).
  exists k', p'. split_and!; [exact Hrun | exact Ht | exact Hpid | exact Hks | exact Heip].
Defined.

Lemma allocproc_pids_witness :
  exists r k', @allocproc (alone LOTTERY) one_page = Ret r k' /\ pids_ok (ptable k') (nextpid k').
Proof.
  destruct (@allocproc_pids (alone LOTTERY) 0 one_page [PAGE0] boot_cpu_ok
    (boot_free _) (boot_free _) (boot_free _) eq_refl one_page_ok ltac:(done) boot_pids_ok)
    as (r & k' & Hrun & Hpids & _).
  exists r, k'. by split.
Defined.

Lemma kill_free_slot_witness :
  exists k1 k2 p, @kill 0 one_page = Ret 0 k1 /\ @allocproc (alone LOTTERY) k1 = Ret (Some 0%nat) k2 /\
    ptable k2 !! 0%nat = Some p /\ state p = EMBRYO /\ killed p = 1.
Proof.
  exact (@kill_free_slot (alone LOTTERY) 0 one_page 0 0 PAGE0 [] boot_cpu_ok
    (boot_free _) (boot_free _) (boot_free _) eq_refl one_page_ok eq_refl eq_refl).
Defined.
