(* ===== verification/Args.v ===== *)
(** syscall.c, the part that fetches the arguments of a system call from the
    stack and the memory of the process.  [None] is the result -1. *)

From S2P Require Import Prelude Memory KString Kernel Spinlock Kalloc Vm Proc Sleeplock Bio Log Fs File Fork.

Section args.
Context `{Machine}.

Definition fetchint (addr : Z) : M (option Z) :=
  let* p := curproc in
  let* pr := get_proc p in
  if (sz pr <=? addr) || (sz pr <? u32 (addr + 4)) then ret None else
  let* v := ldu32 addr in
  ret (Some (s32 v)).

(** The characters from [s] up to the nul, looked for below [ep]. *)
Fixpoint scan_nul (n : nat) (s ep : Z) (acc : list Z) : M (option (list Z)) :=
  match n with
  | O => ret None
  | S n =>
      if s <? ep then
        let* c := ldu8 s in
        if c =? 0 then ret (Some acc) else scan_nul n (s + 1) ep (acc ++ [c])
      else ret None
  end.

(** The string at [addr]; the C function returns its length. *)
Definition fetchstr (addr : Z) : M (option (list Z)) :=
  let* p := curproc in
  let* pr := get_proc p in
  if sz pr <=? addr then ret None else
  scan_nul (Z.to_nat (sz pr - addr)) addr (sz pr) [].

Definition argint (n : Z) : M (option Z) :=
  let* p := curproc in
  let* pr := get_proc p in
  let* esp := ld32 (tf pr + TF_ESP) in
  fetchint (u32 (esp + 4 + 4 * n)).

Definition argptr (n size : Z) : M (option Z) :=
  let* p := curproc in
  let* pr := get_proc p in
  let* i := argint n in
  match i with
  | None => ret None
  | Some i =>
      if (size <? 0) || (sz pr <=? u32 i) || (sz pr <? u32 (u32 i + size)) then ret None
      else ret (Some (u32 i))
  end.

Definition argstr (n : Z) : M (option (list Z)) :=
  let* addr := argint n in
  match addr with
  | None => ret None
  | Some addr => fetchstr (u32 addr)
  end.

(** Continue with an argument, or return -1. *)
Definition with_arg {A} (m : M (option A)) (f : A -> M Z) : M Z :=
  let* r := m in
  match r with
  | Some a => f a
  | None => ret (-1)
  end.
End args.

Notation "'arg*' x ':=' m 'in' f" := (with_arg m (fun x => f))
  (at level 10, x name, m at level 100, f at level 200) : xv6_scope.
