(* ===== verification/Sysproc.v ===== *)
(** sysproc.c: the system calls on processes. *)

From S2P Require Import Prelude Memory KString Kernel Spinlock Kalloc Vm Proc Sleeplock Bio Log Fs Pipe File Fork Args.

Section sysproc.
Context `{Machine} `{BlockDriver} `{DevOps}.

Definition sys_fork : M Z := fork.

Definition sys_exit : M Z := exit ;; ret 0.

Definition sys_wait : M Z := wait.

Definition sys_kill : M Z :=
  arg* pid0 := argint 0 in
  kill pid0.

Definition sys_wait2 : M Z :=
  arg* retime0 := argptr 0 4 in
  arg* rutime0 := argptr 1 4 in
  arg* stime0 := argptr 2 4 in
  wait2 retime0 rutime0 stime0.

Definition sys_getpid : M Z :=
  let* p := curproc in
  let* pr := get_proc p in
  ret (pid pr).

Definition sys_sbrk : M Z :=
  arg* n := argint 0 in
  let* p := curproc in
  let* pr := get_proc p in
  let addr := s32 (sz pr) in
  let* r := growproc n in
  if r <? 0 then ret (-1) else ret addr.

(** [ticks - ticks0 < n] is a comparison of unsigned integers. *)
Definition sys_sleep : M Z :=
  arg* n := argint 0 in
  acquire L_ticks ;;
  let* ticks0 := gets ticks in
  sleep_loop (
    let* t := gets ticks in
    if u32 (t - ticks0) <? u32 n then
      let* dead := am_killed in
      if dead then release L_ticks ;; ret (Some (-1))
      else sleep CTicks (Some L_ticks) ;; ret None
    else release L_ticks ;; ret (Some 0)).

Definition sys_uptime : M Z :=
  acquire L_ticks ;;
  let* xticks := gets ticks in
  release L_ticks ;;
  ret (s32 xticks).

(** The argument is fetched into the field itself. *)
Definition sys_trace : M Z :=
  let* p := curproc in
  arg* n := argint 0 in
  set_proc p (upd_traceflag (fun _ => n)) ;;
  ret 0.

Definition sys_cs : M Z :=
  let* p := curproc in
  let* pr := get_proc p in
  ret (counter pr).

Definition sys_set_tickets : M Z :=
  arg* n := argint 0 in
  let* p := curproc in
  set_proc p (upd_tickets (fun _ => n)) ;;
  ret n.

Definition sys_set_priority : M Z :=
  arg* pid0 := argint 0 in
  arg* pr := argint 1 in
  set_priority pid0 pr.
End sysproc.
