(* ===== verification/Exec.v ===== *)
(** exec.c, and [loaduvm] of vm.c: building the image of a program. *)

From S2P Require Import Prelude Memory KString Kernel Spinlock Cprintf Kalloc Vm Proc Sleeplock Bio Log Fs Pipe File Fork.

(** ** elf.h *)

Definition ELF_MAGIC : Z := 0x464C457F.
Definition ELF_PROG_LOAD : Z := 1.
Definition sizeof_elfhdr : Z := 52.
Definition sizeof_proghdr : Z := 32.

Section exec.
Context `{Machine} `{BlockDriver} `{DevOps}.

Definition loaduvm (pgdir addr : Z) (ip : option nat) (offset sz0 : Z) : M Z :=
  if negb (addr mod PGSIZE =? 0) then panic "loaduvm: addr must be page aligned" else
  iter (S (S (Z.to_nat (sz0 / PGSIZE)))) (fun i =>
    if i <? sz0 then
      let* pte := walkpgdir pgdir (u32 (addr + i)) false in
      if pte =? 0 then panic "loaduvm: address should exist" else
      let* e := ld32 pte in
      let pa := PTE_ADDR e in
      let n := if sz0 - i <? PGSIZE then sz0 - i else PGSIZE in
      let* ' (r, l) := readi ip (u32 (offset + i)) n in
      modify (upd_mem (put_bytes (P2V pa) l)) ;;
      if negb (r =? n) then ret (inr (-1)) else
      ret (inl (u32 (i + PGSIZE)))
    else ret (inr 0)) 0.

(** The [bad] label of [exec]. *)
Definition exec_bad (pgdir : Z) (ip : option nat) : M Z :=
  when (truthy pgdir) (freevm pgdir) ;;
  (match ip with
   | Some _ => iunlockput ip ;; end_op
   | None => ret tt
   end) ;;
  ret (-1).

(** The loop over the program headers: the size reached, or [None] for
    [goto bad]. *)
Definition load_segments (pgdir : Z) (ip : option nat) (phoff phnum : Z) : M (option Z) :=
  let* r := for_return (seqZ 0 phnum) (fun _ ' (sz0, off) =>
    let* ' (r, ph) := readi ip (u32 off) sizeof_proghdr in
    if negb (r =? sizeof_proghdr) then ret (inr tt) else
    let next := s32 (off + sizeof_proghdr) in
    let ph_off := word_at ph 4 in
    let vaddr := word_at ph 8 in
    let filesz := word_at ph 16 in
    let memsz := word_at ph 20 in
    if negb (word_at ph 0 =? ELF_PROG_LOAD) then ret (inl (sz0, next)) else
    if memsz <? filesz then ret (inr tt) else
    if u32 (vaddr + memsz) <? vaddr then ret (inr tt) else
    let* sz0 := allocuvm pgdir sz0 (u32 (vaddr + memsz)) in
    if sz0 =? 0 then ret (inr tt) else
    if negb (vaddr mod PGSIZE =? 0) then ret (inr tt) else
    let* r := loaduvm pgdir vaddr ip ph_off filesz in
    if r <? 0 then ret (inr tt) else
    ret (inl (sz0, next))) (0, s32 phoff) in
  ret (match r with
       | inl (sz0, _) => Some sz0
       | inr _ => None
       end).

(** [ustack] has [3+MAXARG+1] elements; an argument goes to [3+argc]. *)
Definition ustack_room (argc : Z) : M unit :=
  in_array "ustack" (repeat 0 (Z.to_nat (3 + MAXARG + 1))) (3 + argc).

(** Pushing the argument strings: the stack pointer and the addresses. *)
Definition push_args (pgdir sp : Z) (argv : list (list Z)) : M (option (Z * list Z)) :=
  let* r := for_return argv (fun s ' (sp, ustack) =>
    if MAXARG <=? Z.of_nat (length ustack) then ret (inr tt) else
    let sp := Z.land (u32 (sp - (Z.of_nat (length s) + 1))) (Z.lnot 3) in
    let* r := copyout pgdir sp (s ++ [0]) in
    if r <? 0 then ret (inr tt) else
    ustack_room (Z.of_nat (length ustack)) ;;
    ret (inl (sp, ustack ++ [sp]))) (sp, []) in
  ret (match r with
       | inl st => Some st
       | inr _ => None
       end).

Definition bytes_of_word (v : Z) : list Z :=
  [u8 v; u8 (v / 2 ^ 8); u8 (v / 2 ^ 16); u8 (v / 2 ^ 24)].

(** What follows the last slash. *)
Definition last_elem (path : list Z) : list Z :=
  foldl (fun last c => if c =? SLASH then [] else last ++ [c]) [] path.

Definition exec (path : list Z) (argv : list (list Z)) : M Z :=
  let* cur := curproc in
  begin_op ;;
  let* ip := namei path in
  match ip with
  | None =>
      end_op ;;
      cprintf (chars "exec: fail" ++ [10]) [] ;;
      ret (-1)
  | Some _ =>
      ilock ip ;;
      let* ' (r, elf) := readi ip 0 sizeof_elfhdr in
      if negb (r =? sizeof_elfhdr) then exec_bad 0 ip else
      if negb (word_at elf 0 =? ELF_MAGIC) then exec_bad 0 ip else
      let* pg := setupkvm in
      if pg =? 0 then exec_bad 0 ip else
      let phnum := byte_at elf 44 + 2 ^ 8 * byte_at elf 45 in
      let* r := load_segments pg ip (word_at elf 28) phnum in
      match r with
      | None => exec_bad pg ip
      | Some sz0 =>
          iunlockput ip ;;
          end_op ;;
          let sz0 := PGROUNDUP sz0 in
          let* sz0 := allocuvm pg sz0 (u32 (sz0 + 2 * PGSIZE)) in
          if sz0 =? 0 then exec_bad pg None else
          clearpteu pg (sz0 - 2 * PGSIZE) ;;
          let* r := push_args pg sz0 argv in
          match r with
          | None => exec_bad pg None
          | Some (sp, addrs) =>
              let argc := Z.of_nat (length addrs) in
              ustack_room argc ;;
              let ustack := [0xffffffff; argc; u32 (sp - (argc + 1) * 4)] ++ addrs ++ [0] in
              let sp := u32 (sp - (3 + argc + 1) * 4) in
              let* r := copyout pg sp (mjoin (bytes_of_word <$> ustack)) in
              if r <? 0 then exec_bad pg None else
              set_proc cur (upd_name (fun nm => safestrcpy_l nm (last_elem path) 16)) ;;
              let* c := get_proc cur in
              set_proc cur (upd_pgdir (fun _ => pg)) ;;
              set_proc cur (upd_sz (fun _ => sz0)) ;;
              st32 (tf c + TF_EIP) (word_at elf 24) ;;
              st32 (tf c + TF_ESP) sp ;;
              switchuvm (Some cur) ;;
              freevm (pgdir c) ;;
              ret 0
          end
      end
  end.
End exec.
