(* ===== verification/Bootmain.v ===== *)
(** bootmain.c: the boot loader, which reads the kernel from the disk and jumps
    to it.  Paging is off, so the addresses of [mem] are physical here. *)

From S2P Require Import Prelude Memory Kernel Boot Io Vm Exec Ide.

Definition SECTSIZE : Z := 512.

(** The scratch space for the first page of the file. *)
Definition ELF_SCRATCH : Z := 0x10000.

Section bootmain.
Context `{Ports}.

Definition waitdisk : M Z :=
  poll (inb 0x1F7) (fun r => Z.land r 0xC0 =? 0x40).

Definition readsect (dst offset : Z) : M unit :=
  waitdisk ;;
  outb 0x1F2 1 ;;
  outb 0x1F3 offset ;;
  outb 0x1F4 (Z.shiftr offset 8) ;;
  outb 0x1F5 (Z.shiftr offset 16) ;;
  outb 0x1F6 (Z.lor (Z.shiftr offset 24) 0xE0) ;;
  outb 0x1F7 0x20 ;;
  waitdisk ;;
  let* bs := insl 0x1F0 (Z.to_nat (SECTSIZE / 4)) in
  modify (upd_mem (put_bytes dst bs)).

(** A loop whose address wraps around passes the top of memory for ever; any
    other ends within the fuel. *)
Definition readseg (pa count offset : Z) : M unit :=
  let epa := u32 (pa + count) in
  let pa := u32 (pa - offset mod SECTSIZE) in
  let offset := u32 (offset / SECTSIZE + 1) in
  iter (S (S (Z.to_nat ((epa - pa) / SECTSIZE)))) (fun ' (pa, offset) =>
    if pa <? epa then
      readsect pa offset ;;
      ret (inl (u32 (pa + SECTSIZE), u32 (offset + 1)))
    else ret (inr tt)) (pa, offset).

(** One round of the loop over the program headers. *)
Definition load_segment (ph : Z) : M unit :=
  let* pa := ld32 (ph + 12) in
  let* filesz := ld32 (ph + 16) in
  let* off := ld32 (ph + 4) in
  readseg pa filesz off ;;
  let* memsz := ld32 (ph + 20) in
  let* filesz := ld32 (ph + 16) in
  if filesz <? memsz then modify (upd_mem (stosb (u32 (pa + filesz)) 0 (memsz - filesz)))
  else ret tt.

(** [Some entry] when control passes to [entry]; [None] when [bootmain]
    returns to bootasm.S. *)
Definition bootmain : M (option Z) :=
  let elf := ELF_SCRATCH in
  readseg elf 4096 0 ;;
  let* magic := ld32 elf in
  if negb (magic =? ELF_MAGIC) then ret None else
  let* phoff := ld32 (elf + 28) in
  let* m := gets mem in
  let ph := u32 (elf + phoff) in
  let phnum := load16 m (elf + 44) in
  let eph := u32 (ph + sizeof_proghdr * phnum) in
  iter (S (Z.to_nat phnum)) (fun ph =>
    if ph <? eph then
      load_segment ph ;;
      ret (inl (u32 (ph + sizeof_proghdr)))
    else ret (inr tt)) ph ;;
  let* entry := ld32 (elf + 24) in
  ret (Some entry).
End bootmain.

(** ** What the loader reads *)

Lemma iter_eq {S B} fuel (body : S -> M (S + B)) s k :
  iter (Datatypes.S fuel) body s k =
    bind (body s) (fun r => match r with inl s' => iter fuel body s' | inr b => ret b end) k.
Proof. reflexivity. Qed.

Section loader.
Context `{Ports} (init : drive) (law : ide_law init).

(** The bytes of the file that starts in sector 1 of the first disk. *)
Definition img (o : Z) : Z :=
  u8 (nth (Z.to_nat (o mod SECTSIZE)) (sectors init false (o / SECTSIZE + 1)) 0).

(** The drive transfers nothing, and nothing has been written to the disk. *)
Definition untouched (k : kernel) : Prop :=
  let d := drive_after init (ioevents k) in free d = true /\ sectors d = sectors init.

Context (Hsize : forall n, length (sectors init false n) = 512%nat).

Lemma waitdisk_spec k : op (drive_after init (ioevents k)) <> Unknown ->
  exists v evs, waitdisk k = Ret v (logged evs k) /\
    drive_after init (ioevents k ++ evs) = settle (drive_after init (ioevents k)).
Proof using law.
  intros Hop. destruct (poll_drive init law k Hop) as (v & evs & E & _ & Hd). by exists v, evs.
Qed.

Lemma sector_registers s : 0 <= s < 2 ^ 28 ->
  let r := u8 (Z.lor (Z.shiftr s 24) 0xE0) in
  u8 s + 2 ^ 8 * u8 (Z.shiftr s 8) + 2 ^ 16 * u8 (Z.shiftr s 16) + 2 ^ 24 * Z.land r 0xf = s /\ Z.testbit r 4 = false /\
  Z.testbit r 6 = true.
Proof.
  intros Hs. cbv zeta. rewrite !Z.shiftr_div_pow2 by lia.
  assert (0 <= s / 2 ^ 24 < 16) as Hh by (split; [apply Z.div_pos; lia | apply Z.div_lt_upper_bound; lia]).
  assert (exists n, (n < 16)%nat /\ s / 2 ^ 24 = Z.of_nat n) as (n & Hn & Eh) by (exists (Z.to_nat (s / 2 ^ 24)); lia).
  assert (Z.land (u8 (Z.lor (s / 2 ^ 24) 0xE0)) 0xf = s / 2 ^ 24 /\ Z.testbit (u8 (Z.lor (s / 2 ^ 24) 0xE0)) 4 = false /\
    Z.testbit (u8 (Z.lor (s / 2 ^ 24) 0xE0)) 6 = true) as (-> & -> & ->).
  { rewrite Eh. clear -Hn. do 16 (destruct n as [|n]; [by split|]). lia. }
  split; [|done]. unfold u8. Z.div_mod_to_equations. lia.
Qed.

(** The drive after its registers and the command to read. *)
Lemma registers_read d v2 v3 v4 v5 v6 :
  settled d = true -> free d = true ->
  drive_after d [EOut 0x1F2 v2; EOut 0x1F3 v3; EOut 0x1F4 v4; EOut 0x1F5 v5; EOut 0x1F6 v6; EOut 0x1F7 (u8 0x20)] =
    command (Drive (ctl d) v2 v3 v4 v5 v6 true (op d) (sectors d)) 0x20.
Proof.
  intros Hs Hf. destruct d as [x0 x2 x3 x4 x5 x6 st o sec]. simpl in Hs. subst st.
  unfold free in Hf. simpl in Hf. destruct o; done.
Qed.

Lemma readsect_spec dst n k :
  untouched k -> 0 <= n < 2 ^ 28 ->
  exists k', readsect dst n k = Ret tt k' /\ mem k' = put_bytes dst (sectors init false n) (mem k) /\ untouched k'.
Proof using law.
  intros [Hfree Hk] Hn. destruct (sector_registers n Hn) as (Hlba & Hu & H6).
  unfold readsect. destruct (waitdisk_spec k) as (v1 & evs1 & E1 & D1); [intros E; unfold free in Hfree; by rewrite E in Hfree|].
  rewrite (bind_Ret _ _ _ _ _ E1).
  unfold outb, event. mrun.
  match goal with |- exists k', bind waitdisk _ ?k1 = _ /\ _ => set (k2 := k1) end.
  assert (drive_after init (ioevents k2) =
    Drive (ctl (drive_after init (ioevents k))) 1 (u8 n) (u8 (Z.shiftr n 8)) (u8 (Z.shiftr n 16)) (u8 (Z.lor (Z.shiftr n 24) 0xE0))
      false (Reading false n 1) (sectors init)) as D2.
  { change (ioevents k2) with (((((((ioevents k ++ evs1) ++ [EOut 0x1F2 (u8 1)]) ++ [EOut 0x1F3 (u8 n)]) ++ [EOut 0x1F4 (u8 (Z.shiftr n 8))])
      ++ [EOut 0x1F5 (u8 (Z.shiftr n 16))]) ++ [EOut 0x1F6 (u8 (Z.lor (Z.shiftr n 24) 0xE0))]) ++ [EOut 0x1F7 (u8 0x20)]).
    rewrite <- !app_assoc, app_assoc, drive_after_app, D1. cbn [app]. rewrite registers_read by done.
    unfold command, unit_of, lba. cbn [r2 r3 r4 r5 r6]. rewrite H6, Hu, Hlba. unfold settle, set_op. simpl. by rewrite Hk. }
  destruct (waitdisk_spec k2) as (v2 & evs2 & E2 & D3); [by rewrite D2|]. rewrite (bind_Ret _ _ _ _ _ E2). rewrite D2 in D3.
  unfold insl, event. mrun. eexists. split; [reflexivity|].
  change (4 * Z.to_nat (SECTSIZE / 4))%nat with 512%nat. change (ioevents (logged evs2 k2)) with (ioevents k2 ++ evs2).
  split.
  - rec_simpl. f_equal. by rewrite (law_data _ law _ false n 1), D3 by (by rewrite D3).
  - unfold untouched. rec_simpl. change (ioevents (logged evs2 k2)) with (ioevents k2 ++ evs2). rewrite drive_after_app, D3. done.
Qed.

(** The bytes of one sector. *)
Lemma put_sector dst n m x :
  1 <= n -> put_bytes dst (sectors init false n) m x =
    if (dst <=? x) && (x <? dst + SECTSIZE) then img (SECTSIZE * (n - 1) + (x - dst)) else m x.
Proof using Hsize.
  intros Hn. unfold put_bytes, img, SECTSIZE.
  destruct (Z.leb_spec dst x), (Z.ltb_spec x (dst + 512)); cbn [andb].
  - replace (512 * (n - 1) + (x - dst)) with (x - dst + (n - 1) * 512) by lia.
    rewrite Z.mod_add, Z.div_add by lia. rewrite Z.mod_small, (Z.div_small (x - dst)) by lia.
    replace (0 + (n - 1) + 1) with n by lia.
    destruct (lookup_lt_is_Some_2 (sectors init false n) (Z.to_nat (x - dst))) as [b Hb]; [rewrite Hsize; lia|].
    rewrite Hb. f_equal. symmetry. by apply nth_lookup_Some.
  - rewrite lookup_ge_None_2; [done|]. rewrite Hsize. lia.
  - by case_match.
  - by case_match.
Qed.

Lemma read_loop_spec fuel epa pa n k :
  untouched k -> 0 <= pa < 2 ^ 32 -> epa + 512 <= 2 ^ 32 -> 1 <= n -> n + Z.of_nat fuel < 2 ^ 28 ->
  epa <= pa + 512 * Z.of_nat fuel ->
  exists k', iter (S fuel) (fun ' (pa, offset) =>
      if pa <? epa then
        readsect pa offset ;;
        ret (inl (u32 (pa + SECTSIZE), u32 (offset + 1)))
      else ret (inr tt)) (pa, n) k = Ret tt k' /\ untouched k' /\
    (forall x, pa <= x < epa -> mem k' x = img (512 * (n - 1) + (x - pa))) /\
    (forall x, x < pa \/ epa + 512 <= x -> mem k' x = mem k x).
Proof using law Hsize.
  revert pa n k. induction fuel as [|fuel IH]; intros pa n k Hk Hpa Hepa Hn Hmax Hf; rewrite iter_eq.
  { destruct (Z.ltb_spec pa epa); [lia|]. exists k. split_and!; [done | done | lia | done]. }
  destruct (Z.ltb_spec pa epa).
  2:{ exists k. split_and!; [done | done | lia | done]. }
  destruct (readsect_spec pa n k Hk ltac:(lia)) as (k1 & Hrun & Hmem & Hk1). rewrite bind_assoc, (bind_Ret _ _ _ _ _ Hrun).
  rewrite bind_ret. rewrite (u32_small (pa + SECTSIZE)), (u32_small (n + 1)) by (unfold SECTSIZE; lia).
  destruct (IH (pa + 512) (n + 1) k1) as (k' & Hrun' & Hk' & Hin & Hout); [done | lia..|].
  exists k'. split_and!; [exact Hrun' | done | |].
  - intros x Hx. destruct (Z.lt_ge_cases x (pa + 512)).
    + rewrite Hout by lia. rewrite Hmem, put_sector by lia. unfold SECTSIZE.
      destruct (Z.leb_spec pa x), (Z.ltb_spec x (pa + 512)); try lia. done.
    + rewrite Hin by lia. f_equal. lia.
  - intros x Hx. rewrite Hout by lia. rewrite Hmem, put_sector by lia. unfold SECTSIZE.
    destruct (Z.leb_spec pa x), (Z.ltb_spec x (pa + 512)); try lia; done.
Qed.

(** [readseg] brings the bytes of the file to their places, and touches
    nothing but the sectors they are in. *)
Lemma readseg_spec pa count offset k :
  untouched k -> offset mod 512 <= pa -> 0 <= count -> pa + count + 512 <= 2 ^ 32 -> 0 <= offset < 2 ^ 32 ->
  exists k', readseg pa count offset k = Ret tt k' /\ untouched k' /\
    (forall x, pa - offset mod 512 <= x < pa + count -> mem k' x = img (offset + (x - pa))) /\
    (forall x, x < pa - offset mod 512 \/ pa + count + 512 <= x -> mem k' x = mem k x).
Proof using law Hsize.
  intros Hk Hpa Hc Hend Ho. pose proof (Z.mod_pos_bound offset 512 ltac:(lia)) as Hm.
  pose proof (Z.div_mod offset 512 ltac:(lia)) as Hdm.
  assert (0 <= offset / 512 < 2 ^ 23) as Hq by (split; [apply Z.div_pos; lia | apply Z.div_lt_upper_bound; lia]).
  unfold readseg. cbv zeta. change (offset mod SECTSIZE) with (offset mod 512).
  change (offset / SECTSIZE) with (offset / 512). rewrite (u32_small (pa + count)), (u32_small (pa - _)), (u32_small (_ + 1)) by lia.
  set (epa := pa + count). set (pa0 := pa - offset mod 512).
  pose proof (Z.div_mod (epa - pa0) 512 ltac:(lia)). pose proof (Z.mod_pos_bound (epa - pa0) 512 ltac:(lia)).
  assert (0 <= (epa - pa0) / 512 < 2 ^ 24) as Hl by (split; [apply Z.div_pos; lia | apply Z.div_lt_upper_bound; lia]).
  destruct (read_loop_spec (S (Z.to_nat ((epa - pa0) / 512))) epa pa0 (offset / 512 + 1) k) as (k' & Hrun & Hk' & Hin & Hout);
    [done | lia..|].
  exists k'. split_and!; [exact Hrun | done | | exact Hout].
  intros x Hx. rewrite Hin by done. f_equal. lia.
Qed.

(** The headers of the file, with [img] as a memory. *)
Definition e_entry : Z := load32 img 24.
Definition e_phoff : Z := load32 img 28.
Definition e_phnum : Z := load16 img 44.
Definition p_off (i : Z) : Z := load32 img (e_phoff + sizeof_proghdr * i + 4).
Definition p_paddr (i : Z) : Z := load32 img (e_phoff + sizeof_proghdr * i + 12).
Definition p_filesz (i : Z) : Z := load32 img (e_phoff + sizeof_proghdr * i + 16).
Definition p_memsz (i : Z) : Z := load32 img (e_phoff + sizeof_proghdr * i + 20).

(** A kernel the loader can load: its program headers in the first page, its
    segments above the scratch space, and in increasing order, the first
    sector of a segment not reaching down into the segment before it. *)
Record loadable : Prop := {
  ld_magic : load32 img 0 = ELF_MAGIC;
  ld_table : e_phoff + sizeof_proghdr * e_phnum <= 4096;
  ld_place i : 0 <= i < e_phnum ->
    ELF_SCRATCH + 4096 <= p_paddr i - p_off i mod SECTSIZE /\
    p_paddr i + p_filesz i + SECTSIZE <= 2 ^ 32 /\ p_paddr i + p_memsz i <= 2 ^ 32;
  ld_order i j : 0 <= i < j -> j < e_phnum ->
    p_paddr i + Z.max (p_filesz i) (p_memsz i) <= p_paddr j - p_off j mod SECTSIZE;
}.

(** Segment [i] is in memory: the bytes of the file, then zeros. *)
Definition loaded (m : memory) (i : Z) : Prop :=
  (forall x, p_paddr i <= x < p_paddr i + p_filesz i -> m x = img (p_off i + (x - p_paddr i))) /\
  (forall x, p_paddr i + p_filesz i <= x < p_paddr i + p_memsz i -> m x = 0).

(** The state after [n] rounds. *)
Definition progress (n : Z) (k : kernel) : Prop :=
  untouched k /\ (forall x, 0 <= x < 4096 -> mem k (ELF_SCRATCH + x) = img x) /\
  (forall i, 0 <= i < n -> loaded (mem k) i).

Lemma img_ok : mem_ok img.
Proof. intros x. apply u8_range. Qed.

Lemma scratch32 m a :
  (forall x, 0 <= x < 4096 -> m (ELF_SCRATCH + x) = img x) -> 0 <= a -> a + 4 <= 4096 ->
  load32 m (ELF_SCRATCH + a) = load32 img a.
Proof. intros Hm Ha Ha'. unfold load32. rewrite <- !Z.add_assoc, !Hm by lia. done. Qed.

(** The memory after the round of segment [i]. *)
Lemma progress_next i k k1 k2 :
  loadable -> progress i k -> 0 <= i < e_phnum -> untouched k2 ->
  (forall x, p_paddr i <= x < p_paddr i + p_filesz i -> mem k1 x = img (p_off i + (x - p_paddr i))) ->
  (forall x, x < p_paddr i - p_off i mod 512 -> mem k1 x = mem k x) ->
  (forall x, mem k2 x = stosb (p_paddr i + p_filesz i) 0 (p_memsz i - p_filesz i) (mem k1) x) ->
  progress (i + 1) k2.
Proof.
  intros Hl (_ & Hs & Hd) Hi Hk Hin Hout Hm. destruct (ld_place Hl i Hi) as (Hlo & _ & _). unfold SECTSIZE in Hlo.
  pose proof (load32_range img (e_phoff + sizeof_proghdr * i + 16) img_ok) as H3. fold (p_filesz i) in H3.
  pose proof (Z.mod_pos_bound (p_off i) 512 ltac:(lia)).
  assert (forall x, x < p_paddr i - p_off i mod 512 -> mem k2 x = mem k x) as Hlow.
  { intros x Hx. rewrite Hm, stosb_out by lia. by apply Hout. }
  split_and!; [done | |].
  - intros x Hx. rewrite Hlow by (unfold ELF_SCRATCH in *; lia). by apply Hs.
  - intros j Hj. destruct (Z.eq_dec j i) as [->|Hne].
    + split; intros x Hx; rewrite Hm; [rewrite stosb_out by lia; by apply Hin | by rewrite stosb_in by lia].
    + pose proof (ld_order Hl j i ltac:(lia) ltac:(lia)) as Ho. unfold SECTSIZE in Ho.
      destruct (Hd j ltac:(lia)) as [Hb Hz]. split; intros x Hx; rewrite Hlow by lia; auto.
Qed.

Lemma load_segment_spec i k :
  loadable -> progress i k -> 0 <= i < e_phnum ->
  exists k', load_segment (ELF_SCRATCH + (e_phoff + sizeof_proghdr * i)) k = Ret tt k' /\ progress (i + 1) k'.
Proof using law Hsize.
  intros Hl (Hk & Hs & Hd) Hi. pose proof (ld_table Hl) as Ht. destruct (ld_place Hl i Hi) as (Hlo & Hhi & Hbss).
  pose proof (load32_range img 28 img_ok) as H0. fold e_phoff in H0. unfold sizeof_proghdr in Ht.
  pose proof (load32_range img (e_phoff + sizeof_proghdr * i + 4) img_ok) as H1. fold (p_off i) in H1.
  pose proof (load32_range img (e_phoff + sizeof_proghdr * i + 12) img_ok) as H2. fold (p_paddr i) in H2.
  pose proof (load32_range img (e_phoff + sizeof_proghdr * i + 16) img_ok) as H3. fold (p_filesz i) in H3.
  pose proof (load32_range img (e_phoff + sizeof_proghdr * i + 20) img_ok) as H4. fold (p_memsz i) in H4.
  assert (forall m o, (forall x, 0 <= x < 4096 -> m (ELF_SCRATCH + x) = img x) -> 0 <= o <= 28 ->
    load32 m (ELF_SCRATCH + (e_phoff + sizeof_proghdr * i) + o) = load32 img (e_phoff + sizeof_proghdr * i + o)) as Hw.
  { intros m o Hm Ho. rewrite <- Z.add_assoc. apply scratch32; [done | unfold sizeof_proghdr; lia..]. }
  unfold load_segment. mrun. rewrite !Hw by (done || lia). fold (p_off i) (p_paddr i) (p_filesz i).
  change (p_off i mod SECTSIZE) with (p_off i mod 512) in *. change (p_paddr i + p_filesz i + SECTSIZE) with (p_paddr i + p_filesz i + 512) in *.
  unfold ELF_SCRATCH in Hlo.
  destruct (readseg_spec (p_paddr i) (p_filesz i) (p_off i) k) as (k1 & Hrun & Hk1 & Hin & Hout); [done | lia..|].
  rewrite (bind_Ret _ _ _ _ _ Hrun). mrun.
  assert (forall x, 0 <= x < 4096 -> mem k1 (ELF_SCRATCH + x) = img x) as Hs1.
  { intros x Hx. rewrite Hout; [by apply Hs | unfold ELF_SCRATCH; lia]. }
  rewrite !Hw by (done || lia). fold (p_memsz i) (p_filesz i). rewrite u32_small by lia.
  pose proof (Z.mod_pos_bound (p_off i) 512 ltac:(lia)).
  assert (forall k2, untouched k2 -> (forall x, mem k2 x = stosb (p_paddr i + p_filesz i) 0 (p_memsz i - p_filesz i) (mem k1) x) ->
    progress (i + 1) k2) as Hnext.
  { intros k2 Hk2 Hm2. apply (progress_next i k k1 k2); try done; intros x Hx; [apply Hin | apply Hout]; lia. }
  destruct (Z.ltb_spec (p_filesz i) (p_memsz i)).
  - eexists. split; [reflexivity|]. by apply Hnext.
  - exists k1. split; [done|]. apply Hnext; [done|]. intros x. by rewrite stosb_out by lia.
Qed.

Lemma load_loop_spec n i k :
  loadable -> progress i k -> 0 <= i -> i + Z.of_nat n = e_phnum ->
  exists k', iter (S n) (fun ph =>
      if ph <? ELF_SCRATCH + (e_phoff + sizeof_proghdr * e_phnum) then
        load_segment ph ;;
        ret (inl (u32 (ph + sizeof_proghdr)))
      else ret (inr tt)) (ELF_SCRATCH + (e_phoff + sizeof_proghdr * i)) k = Ret tt k' /\ progress e_phnum k'.
Proof using law Hsize.
  intros Hl. pose proof (ld_table Hl) as Ht. pose proof (load32_range img 28 img_ok) as H0. fold e_phoff in H0.
  unfold sizeof_proghdr in Ht. revert i k. induction n as [|n IH]; intros i k Hp Hi Hn; rewrite iter_eq.
  - destruct (Z.ltb_spec (ELF_SCRATCH + (e_phoff + sizeof_proghdr * i)) (ELF_SCRATCH + (e_phoff + sizeof_proghdr * e_phnum)));
      [unfold sizeof_proghdr in *; lia|]. exists k. split; [done|]. by replace e_phnum with i by lia.
  - destruct (Z.ltb_spec (ELF_SCRATCH + (e_phoff + sizeof_proghdr * i)) (ELF_SCRATCH + (e_phoff + sizeof_proghdr * e_phnum)));
      [|unfold sizeof_proghdr in *; lia].
    destruct (load_segment_spec i k Hl Hp ltac:(lia)) as (k1 & Hrun & Hp1). rewrite bind_assoc, (bind_Ret _ _ _ _ _ Hrun), bind_ret.
    destruct (IH (i + 1) k1 Hp1 ltac:(lia) ltac:(lia)) as (k' & Hrun' & Hp'). exists k'. split; [|done].
    rewrite <- Hrun'. f_equal. unfold ELF_SCRATCH, sizeof_proghdr. rewrite u32_small; lia.
Qed.
End loader.

(** C18: The boot loader loads the kernel.  With a drive that keeps to its
    protocol (it becomes ready when polled, and delivers a sector only after a
    command to read it and after it has then reported to be ready), [bootmain] reads the
    file that starts in sector 1: if it does not start with the ELF magic
    number, [bootmain] returns; if it is a kernel whose program headers are in
    the first page, whose segments lie above the scratch space and, by
    increasing address, do not share the sectors they start in, then control
    passes to the entry point with every segment in place, its file bytes
    followed by zeros up to its memory size, although whole sectors are copied
    and so bytes before and after the segment are overwritten on the way. *)
Theorem bootmain_loads `{Ports} init k :
  ide_law init -> (forall n, length (sectors init false n) = 512%nat) -> untouched init k ->
  (load32 (img init) 0 <> ELF_MAGIC -> exists k', bootmain k = Ret None k') /\
  (loadable init -> exists k', bootmain k = Ret (Some (e_entry init)) k' /\
    forall i, 0 <= i < e_phnum init -> loaded init (mem k') i).
Proof.
  intros law Hsize Hk. destruct (readseg_spec init law Hsize ELF_SCRATCH 4096 0 k) as (k1 & Hrun & Hk1 & Hin & _);
    [done | unfold ELF_SCRATCH; change (0 mod 512) with 0; lia..|].
  assert (forall x, 0 <= x < 4096 -> mem k1 (ELF_SCRATCH + x) = img init x) as Hs.
  { intros x Hx. rewrite Hin by (change (0 mod 512) with 0; lia). f_equal. lia. }
  pose proof (scratch32 init _ 0 Hs ltac:(lia) ltac:(lia)) as Hmagic. rewrite Z.add_0_r in Hmagic.
  unfold bootmain. cbv zeta. split; rewrite (bind_Ret _ _ _ _ _ Hrun); mrun; rewrite Hmagic.
  - intros Hno. rewrite (proj2 (Z.eqb_neq _ _) Hno). by eexists.
  - intros Hl. rewrite (ld_magic _ Hl), Z.eqb_refl. cbn [negb]. mrun.
    rewrite (scratch32 init _ 28 Hs) by lia. fold (e_phoff init).
    assert (load16 (mem k1) (ELF_SCRATCH + 44) = e_phnum init) as ->.
    { unfold load16, e_phnum. rewrite <- Z.add_assoc, !Hs by lia. done. }
    pose proof (ld_table _ Hl) as Ht. pose proof (load32_range (img init) 28 (img_ok init)) as H0. fold (e_phoff init) in H0.
    assert (0 <= e_phnum init) as Hn.
    { pose proof (img_ok init 44). pose proof (img_ok init 45). unfold e_phnum, load16. change (44 + 1) with 45. lia. }
    assert (progress init 0 k1) as Hp by (split_and!; [done | done | intros; lia]).
    destruct (load_loop_spec init law Hsize (Z.to_nat (e_phnum init)) 0 k1 Hl Hp) as (k2 & Hloop & _ & Hs2 & Hd2); [lia..|].
    unfold sizeof_proghdr in Ht. rewrite (u32_small (ELF_SCRATCH + e_phoff init)) by (unfold ELF_SCRATCH; lia).
    rewrite u32_small by (unfold ELF_SCRATCH, sizeof_proghdr; lia).
    rewrite Z.mul_0_r, Z.add_0_r in Hloop. rewrite <- Z.add_assoc. rewrite (bind_Ret _ _ _ _ _ Hloop). mrun.
    rewrite (scratch32 init _ 24 Hs2) by lia. eexists. split; [reflexivity|]. exact Hd2.
Qed.

(** A file with one segment of three bytes, to be followed by two zeros. *)
Definition tiny_sector (n : Z) : list Z :=
  if n =? 1 then
    [0x7F; 0x45; 0x4C; 0x46] ++ repeat 0 20 ++ [12; 0; 16; 0] ++ [52; 0; 0; 0] ++ repeat 0 12 ++ [1; 0] ++ repeat 0 6 ++
    [1; 0; 0; 0] ++ [0; 2; 0; 0] ++ repeat 0 4 ++ [0; 0; 16; 0] ++ [3; 0; 0; 0] ++ [5; 0; 0; 0] ++ repeat 0 436
  else if n =? 2 then [7; 8; 9] ++ repeat 0xCC 509
  else repeat 0 512.
Definition tiny_drive : drive := Drive 0 0 0 0 0 0 false Idle (fun _ => tiny_sector).
Definition tiny_ports : Ports :=
  {| port_in := fun _ p => if p =? 0x1f7 then IDE_DRDY else 0;
     port_ins := fun h _ _ => deliver (drive_after tiny_drive h);
     reg_in := fun _ _ => 0; POLLS := 1 |}.

Lemma tiny_headers :
  e_entry tiny_drive = 0x10000C /\ e_phnum tiny_drive = 1 /\ p_paddr tiny_drive 0 = 0x100000 /\
  p_filesz tiny_drive 0 = 3 /\ p_memsz tiny_drive 0 = 5.
Proof. by vm_compute. Qed.

Lemma tiny_loadable : loadable tiny_drive.
Proof.
  destruct tiny_headers as (_ & Hn & _). split; [by vm_compute | apply Z.leb_le; by vm_compute | |].
  - intros i Hi. assert (i = 0) as -> by lia. split_and!; apply Z.leb_le; by vm_compute.
  - intros i j Hi Hj. lia.
Qed.

Lemma tiny_law : @ide_law tiny_ports tiny_drive.
Proof.
  split; [|done|].
  - intros h _. exists 0%nat. split; [simpl; lia|reflexivity].
  - intros h u n count d Hop _. simpl. unfold deliver. fold d. by rewrite Hop.
Qed.

Lemma tiny_size n : length (sectors tiny_drive false n) = 512%nat.
Proof. change (length (tiny_sector n) = 512%nat). unfold tiny_sector. by destruct (n =? 1), (n =? 2). Qed.

Lemma bootmain_loads_witness :
  exists k', @bootmain tiny_ports boot = Ret (Some 0x10000C) k' /\ mem k' 0x100001 = 8 /\ mem k' 0x100004 = 0.
Proof.
  destruct (@bootmain_loads tiny_ports tiny_drive boot tiny_law tiny_size (conj eq_refl eq_refl)) as [_ Hl].
  destruct (Hl tiny_loadable) as (k' & Hrun & Hd). destruct tiny_headers as (He & Hn & Hp & Hf & Hm).
  exists k'. rewrite He in Hrun. split; [exact Hrun|]. destruct (Hd 0) as [Hb Hz]; [lia|]. split.
  - rewrite Hb by lia. by vm_compute.
  - apply Hz. lia.
Defined.
