(* ===== verification/Sysfile.v ===== *)
(** sysfile.c: the system calls on files. *)

From S2P Require Import Prelude Memory KString Kernel Spinlock Kalloc Vm Proc Sleeplock Bio Log Fs Pipe File Fork Args Exec.

(** ** fcntl.h *)

Definition O_RDONLY : Z := 0.
Definition O_WRONLY : Z := 1.
Definition O_RDWR : Z := 2.
Definition O_CREATE : Z := 0x200.

Section sysfile.
Context `{Machine} `{BlockDriver} `{DevOps}.

Definition argfd (n : Z) : M (option (Z * nat)) :=
  let* fd := argint n in
  match fd with
  | None => ret None
  | Some fd =>
      if (fd <? 0) || (Z.of_nat NOFILE <=? fd) then ret None else
      let* p := curproc in
      let* pr := get_proc p in
      let* o := elem_at "proc.ofile" (ofile pr) fd in
      match o with
      | Some f => ret (Some (fd, f))
      | None => ret None
      end
  end.

Definition fdalloc (f : nat) : M (option nat) :=
  let* p := curproc in
  for_find (seq 0 NOFILE) (fun fd =>
    let* pr := get_proc p in
    let* o := elem_at "proc.ofile" (ofile pr) (Z.of_nat fd) in
    match o with
    | None => set_ofile p (Z.of_nat fd) (Some f) ;; ret (Some fd)
    | Some _ => ret None
    end).

Definition sys_dup : M Z :=
  arg* a := argfd 0 in
  let f := snd a in
  arg* fd := fdalloc f in
  let* _ := filedup f in
  ret (Z.of_nat fd).

(** The bytes read are stored through the caller's pointer. *)
Definition sys_read : M Z :=
  arg* a := argfd 0 in
  arg* n := argint 2 in
  arg* p := argptr 1 n in
  let* ' (r, l) := fileread (snd a) n in
  stu_bytes p l ;;
  ret r.

Definition sys_write : M Z :=
  arg* a := argfd 0 in
  arg* n := argint 2 in
  arg* p := argptr 1 n in
  let* l := ldu_bytes p (Z.to_nat n) in
  filewrite (snd a) l n.

Definition sys_close : M Z :=
  arg* a := argfd 0 in
  let '(fd, f) := a in
  let* p := curproc in
  set_ofile p fd None ;;
  fileclose f ;;
  ret 0.

(** [struct stat] in memory: type at 0, dev at 4, ino at 8, nlink at 12, size
    at 16. *)
Definition sizeof_stat : Z := 20.
Definition stu16 (va v : Z) : M unit := stu8 va v ;; stu8 (va + 1) (v / 2 ^ 8).

Definition sys_fstat : M Z :=
  arg* a := argfd 0 in
  arg* p := argptr 1 sizeof_stat in
  arg* st := filestat (snd a) in
  stu32 (p + 4) (st_dev st) ;;
  stu32 (p + 8) (st_ino st) ;;
  stu16 p (st_type st) ;;
  stu16 (p + 12) (st_nlink st) ;;
  stu32 (p + 16) (st_size st) ;;
  ret 0.

Definition sys_link : M Z :=
  arg* old := argstr 0 in
  arg* new := argstr 1 in
  begin_op ;;
  let* ip := namei old in
  match ip with
  | None => end_op ;; ret (-1)
  | Some _ =>
      ilock ip ;;
      let* i := get_inode ip in
      if i_type i =? T_DIR then iunlockput ip ;; end_op ;; ret (-1) else
      set_inode ip (upd_i_nlink (fun n => s16 (n + 1))) ;;
      iupdate ip ;;
      iunlock ip ;;
      let bad :=
        ilock ip ;;
        set_inode ip (upd_i_nlink (fun n => s16 (n - 1))) ;;
        iupdate ip ;;
        iunlockput ip ;;
        end_op ;;
        ret (-1) in
      let* dn := nameiparent new in
      match dn with
      | None => bad
      | Some (d, nm) =>
          let dp := Some d in
          ilock dp ;;
          let* di := get_inode dp in
          let* i := get_inode ip in
          let* r := (if negb (i_dev di =? i_dev i) then ret (-1) else dirlink dp nm (i_inum i)) in
          if r <? 0 then iunlockput dp ;; bad else
          iunlockput dp ;;
          iput ip ;;
          end_op ;;
          ret 0
      end
  end.

Definition isdirempty (dp : option nat) : M bool :=
  let* r := for_dirents dp "isdirempty: readi" (2 * sizeof_dirent) (fun _ de =>
    ret (if negb (de_inum de =? 0) then Some tt else None)) in
  ret (match r with inl _ => true | inr _ => false end).

Definition sys_unlink : M Z :=
  arg* path := argstr 0 in
  begin_op ;;
  let* dn := nameiparent path in
  match dn with
  | None => end_op ;; ret (-1)
  | Some (d, nm) =>
      let dp := Some d in
      ilock dp ;;
      let bad := iunlockput dp ;; end_op ;; ret (-1) in
      if (namecmp nm (chars ".") =? 0) || (namecmp nm (chars "..") =? 0) then bad else
      let* r := dirlookup dp nm in
      match r with
      | None => bad
      | Some (n, off) =>
          let ip := Some n in
          ilock ip ;;
          let* i := get_inode ip in
          if i_nlink i <? 1 then panic "unlink: nlink < 1" else
          let* full := (if i_type i =? T_DIR then let* e := isdirempty ip in ret (negb e)
                        else ret false) in
          if full then iunlockput ip ;; bad else
          let* r := writei dp (repeat 0 16) off sizeof_dirent in
          if negb (r =? sizeof_dirent) then panic "unlink: writei" else
          let* i := get_inode ip in
          when (i_type i =? T_DIR) (
            set_inode dp (upd_i_nlink (fun n => s16 (n - 1))) ;;
            iupdate dp) ;;
          iunlockput dp ;;
          set_inode ip (upd_i_nlink (fun n => s16 (n - 1))) ;;
          iupdate ip ;;
          iunlockput ip ;;
          end_op ;;
          ret 0
      end
  end.

Definition create (path : list Z) (type major minor : Z) : M (option nat) :=
  let* dn := nameiparent path in
  match dn with
  | None => ret None
  | Some (d, nm) =>
      let dp := Some d in
      ilock dp ;;
      let* r := dirlookup dp nm in
      match r with
      | Some (n, _) =>
          let ip := Some n in
          iunlockput dp ;;
          ilock ip ;;
          let* i := get_inode ip in
          if (type =? T_FILE) && (i_type i =? T_FILE) then ret ip else
          iunlockput ip ;;
          ret None
      | None =>
          let* di := get_inode dp in
          let* ip := ialloc (i_dev di) type in
          match ip with
          | None => panic "create: ialloc"
          | Some _ =>
              ilock ip ;;
              set_inode ip (upd_i_major (fun _ => major)) ;;
              set_inode ip (upd_i_minor (fun _ => minor)) ;;
              set_inode ip (upd_i_nlink (fun _ => 1)) ;;
              iupdate ip ;;
              when (type =? T_DIR) (
                set_inode dp (upd_i_nlink (fun n => s16 (n + 1))) ;;
                iupdate dp ;;
                let* i := get_inode ip in
                let* di := get_inode dp in
                let* r1 := dirlink ip (chars ".") (i_inum i) in
                let* r2 := (if r1 <? 0 then ret (-1) else dirlink ip (chars "..") (i_inum di)) in
                when (r2 <? 0) (panic "create dots")) ;;
              let* i := get_inode ip in
              let* r := dirlink dp nm (i_inum i) in
              if r <? 0 then panic "create: dirlink" else
              iunlockput dp ;;
              ret ip
          end
      end
  end.

Definition sys_open : M Z :=
  arg* path := argstr 0 in
  arg* omode := argint 1 in
  begin_op ;;
  let* ip := (
    if truthy (Z.land omode O_CREATE) then create path T_FILE 0 0
    else
      let* ip := namei path in
      match ip with
      | None => ret None
      | Some _ =>
          ilock ip ;;
          let* i := get_inode ip in
          if (i_type i =? T_DIR) && negb (omode =? O_RDONLY) then iunlockput ip ;; ret None
          else ret ip
      end) in
  match ip with
  | None => end_op ;; ret (-1)
  | Some _ =>
      let* f := filealloc in
      let* fd := (match f with Some f => fdalloc f | None => ret None end) in
      match f, fd with
      | Some f, Some fd =>
          iunlock ip ;;
          end_op ;;
          set_file f (upd_f_type (fun _ => FD_INODE)) ;;
          set_file f (upd_f_ip (fun _ => ip)) ;;
          set_file f (upd_f_off (fun _ => 0)) ;;
          set_file f (upd_f_readable (fun _ => b2z (negb (truthy (Z.land omode O_WRONLY))))) ;;
          set_file f (upd_f_writable (fun _ =>
            b2z (truthy (Z.land omode O_WRONLY) || truthy (Z.land omode O_RDWR)))) ;;
          ret (Z.of_nat fd)
      | _, _ =>
          (match f with Some f => fileclose f | None => ret tt end) ;;
          iunlockput ip ;;
          end_op ;;
          ret (-1)
      end
  end.

Definition sys_mkdir : M Z :=
  begin_op ;;
  let* path := argstr 0 in
  let* ip := (match path with
              | Some path => create path T_DIR 0 0
              | None => ret None
              end) in
  match ip with
  | None => end_op ;; ret (-1)
  | Some _ => iunlockput ip ;; end_op ;; ret 0
  end.

Definition sys_mknod : M Z :=
  begin_op ;;
  let fail := end_op ;; ret (-1) in
  let* path := argstr 0 in
  match path with
  | None => fail
  | Some path =>
      let* major := argint 1 in
      match major with
      | None => fail
      | Some major =>
          let* minor := argint 2 in
          match minor with
          | None => fail
          | Some minor =>
              let* ip := create path T_DEV (s16 major) (s16 minor) in
              match ip with
              | None => fail
              | Some _ => iunlockput ip ;; end_op ;; ret 0
              end
          end
      end
  end.

Definition sys_chdir : M Z :=
  let* cur := curproc in
  begin_op ;;
  let* path := argstr 0 in
  let* ip := (match path with Some path => namei path | None => ret None end) in
  match ip with
  | None => end_op ;; ret (-1)
  | Some _ =>
      ilock ip ;;
      let* i := get_inode ip in
      if negb (i_type i =? T_DIR) then iunlockput ip ;; end_op ;; ret (-1) else
      iunlock ip ;;
      let* c := get_proc cur in
      iput (cwd c) ;;
      end_op ;;
      set_proc cur (upd_cwd (fun _ => ip)) ;;
      ret 0
  end.

(** The argument strings are read when they are fetched; the process cannot
    change them while it is in the kernel. *)
Definition sys_exec : M Z :=
  arg* path := argstr 0 in
  arg* uargv := argint 1 in
  let* r := for_return (seqZ 0 MAXARG) (fun i argv =>
    let* uarg := fetchint (u32 (u32 uargv + 4 * i)) in
    match uarg with
    | None => ret (inr None)
    | Some uarg =>
        if uarg =? 0 then ret (inr (Some argv)) else
        let* s := fetchstr (u32 uarg) in
        match s with
        | None => ret (inr None)
        | Some s => ret (inl (argv ++ [s]))
        end
    end) [] in
  match r with
  | inr (Some argv) => exec path argv
  | _ => ret (-1)
  end.

Definition sys_pipe : M Z :=
  arg* fd := argptr 0 8 in
  arg* ab := pipealloc in
  let '(rf, wf) := ab in
  let* fd0 := fdalloc rf in
  let* fd1 := (match fd0 with Some _ => fdalloc wf | None => ret None end) in
  match fd0, fd1 with
  | Some fd0, Some fd1 =>
      stu32 fd (Z.of_nat fd0) ;;
      stu32 (fd + 4) (Z.of_nat fd1) ;;
      ret 0
  | _, _ =>
      (match fd0 with
       | Some fd0 => let* p := curproc in set_ofile p (Z.of_nat fd0) None
       | None => ret tt
       end) ;;
      fileclose rf ;;
      fileclose wf ;;
      ret (-1)
  end.
End sysfile.
