(* ===== verification/Syscall.v ===== *)
(** syscall.c: the table of system calls and the dispatcher, with the trace
    line a traced process prints after every call. *)

From S2P Require Import Prelude Memory KString Kernel Spinlock Cprintf Kalloc Vm Proc Sleeplock Bio Log Fs Pipe File Fork Args Sysproc Exec Sysfile.

(** The table, by the numbers of syscall.h. *)
Inductive sysno :=
| SYS_fork | SYS_exit | SYS_wait | SYS_pipe | SYS_read | SYS_kill | SYS_exec | SYS_fstat
| SYS_chdir | SYS_dup | SYS_getpid | SYS_sbrk | SYS_sleep | SYS_uptime | SYS_open | SYS_write
| SYS_mknod | SYS_unlink | SYS_link | SYS_mkdir | SYS_close | SYS_trace | SYS_cs
| SYS_set_tickets | SYS_set_priority | SYS_wait2 | SYS_sys_yield.

Definition numbers : list (Z * sysno) :=
  [(1, SYS_fork); (2, SYS_exit); (3, SYS_wait); (4, SYS_pipe); (5, SYS_read); (6, SYS_kill);
   (7, SYS_exec); (8, SYS_fstat); (9, SYS_chdir); (10, SYS_dup); (11, SYS_getpid);
   (12, SYS_sbrk); (13, SYS_sleep); (14, SYS_uptime); (15, SYS_open); (16, SYS_write);
   (17, SYS_mknod); (18, SYS_unlink); (19, SYS_link); (20, SYS_mkdir); (21, SYS_close);
   (22, SYS_trace); (23, SYS_cs); (24, SYS_set_tickets); (25, SYS_set_priority);
   (26, SYS_wait2); (27, SYS_sys_yield)].

(** [NELEM(syscalls)]; entry 0 is null. *)
Definition NSYSCALLS : Z := 28.

Definition sysno_of (num : Z) : option sysno :=
  snd <$> List.find (fun e => fst e =? num) numbers.

Definition syscallnames (s : sysno) : list Z :=
  match s with
  | SYS_fork => chars "fork" | SYS_exit => chars "exit" | SYS_wait => chars "wait"
  | SYS_pipe => chars "pipe" | SYS_read => chars "read" | SYS_kill => chars "kill"
  | SYS_exec => chars "exec" | SYS_fstat => chars "fstat" | SYS_chdir => chars "chdir"
  | SYS_dup => chars "dup" | SYS_getpid => chars "getpid" | SYS_sbrk => chars "sbrk"
  | SYS_sleep => chars "sleep" | SYS_uptime => chars "uptime" | SYS_open => chars "open"
  | SYS_write => chars "write" | SYS_mknod => chars "mknod" | SYS_unlink => chars "unlink"
  | SYS_link => chars "link" | SYS_mkdir => chars "mkdir" | SYS_close => chars "close"
  | SYS_trace => chars "trace" | SYS_cs => chars "cs"
  | SYS_set_tickets => chars "set_tickets" | SYS_set_priority => chars "set_priority"
  | SYS_wait2 => chars "wait2" | SYS_sys_yield => chars "sys_yield"
  end.

Section syscall.
Context `{Machine} `{BlockDriver} `{DevOps}.

Definition syscalls (s : sysno) : M Z :=
  match s with
  | SYS_fork => sys_fork | SYS_exit => sys_exit | SYS_wait => sys_wait
  | SYS_pipe => sys_pipe | SYS_read => sys_read | SYS_kill => sys_kill
  | SYS_exec => sys_exec | SYS_fstat => sys_fstat | SYS_chdir => sys_chdir
  | SYS_dup => sys_dup | SYS_getpid => sys_getpid | SYS_sbrk => sys_sbrk
  | SYS_sleep => sys_sleep | SYS_uptime => sys_uptime | SYS_open => sys_open
  | SYS_write => sys_write | SYS_mknod => sys_mknod | SYS_unlink => sys_unlink
  | SYS_link => sys_link | SYS_mkdir => sys_mkdir | SYS_close => sys_close
  | SYS_trace => sys_trace | SYS_cs => sys_cs
  | SYS_set_tickets => sys_set_tickets | SYS_set_priority => sys_set_priority
  | SYS_wait2 => sys_wait2 | SYS_sys_yield => sys_yield
  end.

(** [syscalls[num]], a null pointer or a function. *)
Definition syscalls_entry (num : Z) : M (option sysno) :=
  if (0 <=? num) && (num <? NSYSCALLS) then ret (sysno_of num) else fault "syscalls".

(** [syscallnames[num]]: entry 0 is a null pointer, and there is none outside
    the table. *)
Definition name_of_call (num : Z) : M arg :=
  match sysno_of num with
  | Some s => ret (AStr (Some (syscallnames s)))
  | None => if num =? 0 then ret (AStr None) else fault "syscallnames"
  end.

Definition syscall : M unit :=
  let* cur := curproc in
  let* c := get_proc cur in
  let* eax := ld32 (tf c + TF_EAX) in
  let num := s32 eax in
  let* f := (if (0 <? num) && (num <? NSYSCALLS) then syscalls_entry num else ret None) in
  (match f with
   | Some s =>
       let* r := syscalls s in
       let* c := get_proc cur in
       st32 (tf c + TF_EAX) r
   | None =>
       cprintf (chars "%d %s: unknown sys call %d" ++ [10])
         [AInt (pid c); AStr (Some (name c)); AInt num] ;;
       st32 (tf c + TF_EAX) (-1)
   end) ;;
  let* c := get_proc cur in
  when (negb (traceflag c =? 0)) (
    let* nm := name_of_call num in
    cprintf (chars "ID: %d NOME: %s NUM_CALL: %d CALL_NAME %s" ++ [10])
      [AInt (pid c); AStr (Some (name c)); AInt num; nm]).
End syscall.
