(* ===== verification/Console.v ===== *)
(** console.c, the console as a device: the line editor that fills the input
    buffer, reading and writing through a file. *)

From S2P Require Import Prelude Memory KString Kernel Spinlock Io Lapic Cprintf Ioapic Kalloc Vm Proc Sleeplock Bio Log Fs Pipe File Fork.

Definition INPUT_BUF : Z := 128.
Definition CONSOLE : nat := 1.

(** [C(x)]: control characters. *)
Definition CTRL_P : Z := 16.
Definition CTRL_U : Z := 21.
Definition CTRL_H : Z := 8.
Definition CTRL_D : Z := 4.
Definition DEL : Z := 127.
Definition NL : Z := 10.
Definition CR : Z := 13.

Section console.
Context `{Machine} `{Ports} `{BlockDriver} `{DevOps}.

Definition set_input (f : inputbuf -> inputbuf) : M unit := modify (upd_input f).

(** Rubs out the line: at most the characters not yet handed over, of which
    there are at most [INPUT_BUF]. *)
Definition kill_line : M unit :=
  iter (S (Z.to_nat INPUT_BUF)) (fun _ =>
    let* inp := gets input in
    if in_e inp =? in_w inp then ret (inr tt) else
    let* c := elem_at "input.buf" (in_buf inp) (u32 (in_e inp - 1) mod INPUT_BUF) in
    if negb (c =? NL) then
      set_input (upd_in_e (fun e => u32 (e - 1))) ;;
      consputc BACKSPACE ;;
      ret (inl tt)
    else ret (inr tt)) tt.

Definition store_char (c : Z) : M unit :=
  let* inp := gets input in
  when (negb (c =? 0) && (u32 (in_e inp - in_r inp) <? INPUT_BUF)) (
    let c := if c =? CR then NL else c in
    in_array "input.buf" (in_buf inp) (in_e inp mod INPUT_BUF) ;;
    set_input (fun i => upd_in_e (fun e => u32 (e + 1))
      (upd_in_buf (fun b => <[Z.to_nat (in_e i mod INPUT_BUF) := u8 c]> b) i)) ;;
    consputc c ;;
    let* inp := gets input in
    when ((c =? NL) || (c =? CTRL_D) || (in_e inp =? u32 (in_r inp + INPUT_BUF))) (
      set_input (fun i => upd_in_w (fun _ => in_e i) i) ;;
      wakeup CInput)).

(** The interrupt handler: it takes characters until [getc] returns a negative
    number. *)
Definition consoleintr (getc : M Z) : M unit :=
  acquire L_cons ;;
  let* doprocdump := iter POLLS (fun dump =>
    let* c := getc in
    if c <? 0 then ret (inr dump)
    else if c =? CTRL_P then ret (inl true)
    else if c =? CTRL_U then kill_line ;; ret (inl dump)
    else if (c =? CTRL_H) || (c =? DEL) then
      let* inp := gets input in
      when (negb (in_e inp =? in_w inp)) (
        set_input (upd_in_e (fun e => u32 (e - 1))) ;;
        consputc BACKSPACE) ;;
      ret (inl dump)
    else store_char c ;; ret (inl dump)) false in
  release L_cons ;;
  when doprocdump procdump.

(** Waits for input; [true] when the process was killed. *)
Definition input_wait : M bool :=
  sleep_loop (
    let* inp := gets input in
    if in_r inp =? in_w inp then
      let* dead := am_killed in
      if dead then ret (Some true)
      else sleep CInput (Some L_cons) ;; ret None
    else ret (Some false)).

(** Each round takes one character out of the buffer. *)
Definition consoleread (ip : option nat) (n : Z) : M (Z * list Z) :=
  iunlock ip ;;
  let target := n in
  acquire L_cons ;;
  iter (S (Z.to_nat n)) (fun '(n, l) =>
    if 0 <? n then
      let* dead := input_wait in
      if dead then
        release L_cons ;;
        ilock ip ;;
        ret (inr (-1, l))
      else
      let* inp := gets input in
      let* c := elem_at "input.buf" (in_buf inp) (in_r inp mod INPUT_BUF) in
      set_input (upd_in_r (fun r => u32 (r + 1))) ;;
      let finish n l :=
        release L_cons ;;
        ilock ip ;;
        ret (inr (target - n, l)) in
      if c =? CTRL_D then
        when (n <? target) (set_input (upd_in_r (fun r => u32 (r - 1)))) ;;
        finish n l
      else if c =? NL then finish (n - 1) (l ++ [c])
      else ret (inl (n - 1, l ++ [c]))
    else
      release L_cons ;;
      ilock ip ;;
      ret (inr (target - n, l))) (n, []).

Definition consolewrite (ip : option nat) (src : list Z) (n : Z) : M Z :=
  iunlock ip ;;
  acquire L_cons ;;
  putchars (take (Z.to_nat n) src) ;;
  release L_cons ;;
  ilock ip ;;
  ret n.

Definition consoleinit : M unit :=
  initlock L_cons "console" ;;
  put_slot "devsw" devsw upd_devsw CONSOLE (fun _ => Some DEV_console) ;;
  modify (upd_cons_locking (fun _ => 1)) ;;
  ioapicenable IRQ_KBD 0.
End console.
