(* ===== verification/Kbd.v ===== *)
(** kbd.c, kbd.h and uart.c: the keyboard and the serial port, from which the
    console takes its characters. *)

From S2P Require Import Prelude Memory KString Kernel Spinlock Io Lapic Cprintf Ioapic Proc Sleeplock Bio Log Fs Pipe File Fork Console.

(** ** kbd.h *)

Definition KBSTATP : Z := 0x64.
Definition KBS_DIB : Z := 0x01.
Definition KBDATAP : Z := 0x60.

Definition NO : Z := 0.
Definition SHIFT : Z := 1.
Definition CTL : Z := 2.
Definition ALT : Z := 4.
Definition CAPSLOCK : Z := 8.
Definition NUMLOCK : Z := 16.
Definition SCROLLLOCK : Z := 32.
Definition E0ESC : Z := 64.

Definition KEY_HOME : Z := 0xE0.
Definition KEY_END : Z := 0xE1.
Definition KEY_UP : Z := 0xE2.
Definition KEY_DN : Z := 0xE3.
Definition KEY_LF : Z := 0xE4.
Definition KEY_RT : Z := 0xE5.
Definition KEY_PGUP : Z := 0xE6.
Definition KEY_PGDN : Z := 0xE7.
Definition KEY_INS : Z := 0xE8.
Definition KEY_DEL : Z := 0xE9.

(** An array with designated elements after the first ones; the rest is 0. *)
Definition keymap (first : list Z) (named : list (Z * Z)) (i : Z) : Z :=
  match find (fun e => e.1 =? i) named with
  | Some e => e.2
  | None => nth (Z.to_nat i) first NO
  end.

Definition shiftcode : Z -> Z :=
  keymap [] [(0x1D, CTL); (0x2A, SHIFT); (0x36, SHIFT); (0x38, ALT); (0x9D, CTL); (0xB8, ALT)].

Definition togglecode : Z -> Z :=
  keymap [] [(0x3A, CAPSLOCK); (0x45, NUMLOCK); (0x46, SCROLLLOCK)].

(** The keys after an 0xE0 byte that the maps share. *)
Definition special : list (Z * Z) :=
  [(0xC8, KEY_UP); (0xD0, KEY_DN); (0xC9, KEY_PGUP); (0xD1, KEY_PGDN); (0xCB, KEY_LF);
   (0xCD, KEY_RT); (0x97, KEY_HOME); (0xCF, KEY_END); (0xD2, KEY_INS); (0xD3, KEY_DEL)].

Definition normal_keys : list Z := Eval cbv in
  ([NO; 0x1B] ++ chars "1234567890-=" ++ [8; 9] ++ chars "qwertyuiop[]" ++ [10; NO] ++
   chars "asdfghjkl;'`" ++ [NO; 92] ++ chars "zxcvbnm,./" ++ [NO; 42; NO; 32] ++
   repeat NO 13 ++ chars "789-456+1230.").
Definition normalmap : Z -> Z := keymap normal_keys ([(0x9C, 10); (0xB5, 47)] ++ special).

Definition shift_keys : list Z := Eval cbv in
  ([NO; 27] ++ chars "!@#$%^&*()_+" ++ [8; 9] ++ chars "QWERTYUIOP{}" ++ [10; NO] ++
   chars "ASDFGHJKL:" ++ [34; 126; NO; 124] ++ chars "ZXCVBNM<>?" ++ [NO; 42; NO; 32] ++
   repeat NO 13 ++ chars "789-456+1230.").
Definition shiftmap : Z -> Z := keymap shift_keys ([(0x9C, 10); (0xB5, 47)] ++ special).

Definition C (x : Z) : Z := u8 (x - 64).

Definition ctl_keys : list Z := Eval cbv in
  (repeat NO 16 ++ (C <$> chars "QWERTYUIOP") ++ [NO; NO; 13; NO] ++ (C <$> chars "ASDFGHJKL") ++
   [NO; NO; NO; NO; C 92] ++ (C <$> chars "ZXCVBNM") ++ [NO; NO; C 47; NO; NO]).
Definition ctlmap : Z -> Z := keymap ctl_keys ([(0x9C, 13); (0xB5, C 47)] ++ special).

(** ** kbdgetc *)

Definition charcode (i : Z) : Z -> Z :=
  if i =? 0 then normalmap else if i =? 1 then shiftmap else ctlmap.

(** A byte from the keyboard, with the state of the modifiers: the new state
    and the character, 0 for none. *)
Definition kbd_byte (shift data : Z) : Z * Z :=
  if data =? 0xE0 then (Z.lor shift E0ESC, 0)
  else if truthy (Z.land data 0x80) then
    let data := if truthy (Z.land shift E0ESC) then data else Z.land data 0x7F in
    (Z.land shift (Z.lnot (Z.lor (shiftcode data) E0ESC)), 0)
  else
    let '(data, shift) := if truthy (Z.land shift E0ESC) then (Z.lor data 0x80, Z.land shift (Z.lnot E0ESC))
                          else (data, shift) in
    let shift := Z.lxor (Z.lor shift (shiftcode data)) (togglecode data) in
    let c := charcode (Z.land shift (Z.lor CTL SHIFT)) data in
    let c := if truthy (Z.land shift CAPSLOCK) then
               if (97 <=? c) && (c <=? 122) then c + 65 - 97
               else if (65 <=? c) && (c <=? 90) then c + 97 - 65 else c
             else c in
    (shift, c).

Section kbd.
Context `{Machine} `{Ports} `{BlockDriver} `{DevOps}.

Definition kbdgetc : M Z :=
  let* st := inb KBSTATP in
  if Z.land st KBS_DIB =? 0 then ret (-1) else
  let* data := inb KBDATAP in
  let* shift := gets kbdshift in
  modify (upd_kbdshift (fun _ => (kbd_byte shift data).1)) ;;
  ret (kbd_byte shift data).2.

Definition kbdintr : M unit := consoleintr kbdgetc.

(** ** uart.c *)

Definition COM1 : Z := 0x3f8.

(** Waits for the port, but not for ever. *)
Definition uartputc (c : Z) : M unit :=
  let* there := gets uart in
  if there =? 0 then ret tt else
  iter 129 (fun i =>
    if (i <? 128)%nat then
      let* st := inb (COM1 + 5) in
      if Z.land st 0x20 =? 0 then microdelay 10 ;; ret (inl (S i)) else ret (inr tt)
    else ret (inr tt)) 0%nat ;;
  outb COM1 c.

Definition uartgetc : M Z :=
  let* there := gets uart in
  if there =? 0 then ret (-1) else
  let* st := inb (COM1 + 5) in
  if Z.land st 0x01 =? 0 then ret (-1) else
  inb COM1.

Definition uartinit : M unit :=
  outb (COM1 + 2) 0 ;;
  outb (COM1 + 3) 0x80 ;;
  outb (COM1 + 0) (115200 / 9600) ;;
  outb (COM1 + 1) 0 ;;
  outb (COM1 + 3) 0x03 ;;
  outb (COM1 + 4) 0 ;;
  outb (COM1 + 1) 0x01 ;;
  let* st := inb (COM1 + 5) in
  if st =? 0xFF then ret tt else
  modify (upd_uart (fun _ => 1)) ;;
  inb (COM1 + 2) ;;
  inb (COM1 + 0) ;;
  ioapicenable IRQ_COM1 0 ;;
  for_each (chars "xv6..." ++ [10]) uartputc.

Definition uartintr : M unit := consoleintr uartgetc.
End kbd.

(** ** What typing produces *)

(** A key that is neither a modifier nor a lock. *)
Definition plain_key (data : Z) : bool := (data <? 128) && (shiftcode data =? 0) && (togglecode data =? 0).
Definition letter (c : Z) : bool := ((97 <=? c) && (c <=? 122)) || ((65 <=? c) && (c <=? 90)).

(** The character on the key under the modifiers. *)
Definition typed (shift data : Z) : Z :=
  let caps := truthy (Z.land shift CAPSLOCK) && letter (normalmap data) in
  if truthy (Z.land shift CTL) then ctlmap data
  else if xorb (truthy (Z.land shift SHIFT)) caps then shiftmap data
  else normalmap data.

Definition byte_ok (shift data : Z) : bool :=
  let '(s, c) := kbd_byte shift data in (0 <=? s) && (s <? 128) && (0 <=? c) && (c <? 256).
Definition typed_ok (shift data : Z) : bool :=
  implb (plain_key data && negb (truthy (Z.land shift E0ESC)))
    (let '(s, c) := kbd_byte shift data in (s =? shift) && (c =? typed shift data)).
Definition held_ok (shift data : Z) : bool :=
  implb ((data <? 128) && negb (data =? 0x60) && (togglecode data =? 0) && negb (truthy (Z.land shift E0ESC)))
    (let s := (kbd_byte shift data).1 in
     ((kbd_byte s (data + 128)).1 =? Z.land shift (Z.lnot (shiftcode data)))).

Definition all_bytes (p : Z -> Z -> bool) : bool :=
  forallb (fun s => forallb (p (Z.of_nat s) ∘ Z.of_nat) (seq 0 256)) (seq 0 128).

Lemma all_bytes_spec p shift data :
  all_bytes p = true -> 0 <= shift < 128 -> 0 <= data < 256 -> p shift data = true.
Proof.
  intros H Hs Hd. unfold all_bytes in H. rewrite forallb_forall in H.
  specialize (H (Z.to_nat shift)). rewrite forallb_forall in H.
  specialize (H ltac:(apply in_seq; lia) (Z.to_nat data) ltac:(apply in_seq; lia)).
  unfold compose in H. by rewrite !Z2Nat.id in H by lia.
Qed.

(** Whatever bytes the keyboard sends, the modifiers and the character stay in
    range, so that the arrays are read inside their bounds; a key that is not a
    modifier gives the character on the key under the modifiers and leaves them
    as they are; a key pressed and released leaves the modifiers without its
    own (code 0x60 has no release: it would be the escape byte). *)
Theorem kbd_decodes shift data :
  0 <= shift < 128 -> 0 <= data < 256 ->
  (0 <= (kbd_byte shift data).1 < 128 /\ 0 <= (kbd_byte shift data).2 < 256) /\
  (truthy (Z.land shift E0ESC) = false -> plain_key data = true ->
    kbd_byte shift data = (shift, typed shift data)) /\
  (truthy (Z.land shift E0ESC) = false -> data < 128 -> data <> 0x60 -> togglecode data = 0 ->
    (kbd_byte (kbd_byte shift data).1 (data + 128)).1 = Z.land shift (Z.lnot (shiftcode data))).
Proof.
  intros Hs Hd.
  assert (H1 : byte_ok shift data = true) by (apply all_bytes_spec; [vm_compute; reflexivity|done|done]).
  assert (H3 : held_ok shift data = true) by (apply all_bytes_spec; [vm_compute; reflexivity|done|done]).
  assert (H2 : typed_ok shift data = true) by (apply all_bytes_spec; [vm_compute; reflexivity|done|done]).
  unfold byte_ok in H1. unfold typed_ok in H2. unfold held_ok in H3. destruct (kbd_byte shift data) as [s c] eqn:E.
  split_and!; simpl; try lia.
  - intros He Hp. rewrite He, Hp in H2. simpl in H2. f_equal; lia.
  - intros He Hlt Hne Ht. rewrite He, Ht, (proj2 (Z.eqb_neq _ _) Hne) in H3. destruct (Z.ltb_spec data 128); [|lia]. simpl in H3. by apply Z.eqb_eq in H3.
Qed.
