(* ===== verification/Screen.v ===== *)
(** console.c, the device side of [consputc]: every character goes to the
    serial port and, with [cgaputc], to the screen.

    The other files keep the sequence of characters sent to the console.  Here
    is what becomes of the sequence: the screen shows the end of the text, as
    a terminal of 24 lines does. *)

From S2P Require Import Prelude Memory KString Kernel Spinlock Boot Io Lapic Cprintf Kbd.

Definition CRTPORT : Z := 0x3d4.

(** The memory of the screen, two bytes for each place. *)
Definition crt : Z := P2V 0xb8000.

Section screen.
Context `{Ports}.

Definition cgaputc (c : Z) : M unit :=
  outb CRTPORT 14 ;;
  let* hi := inb (CRTPORT + 1) in
  let pos := Z.shiftl hi 8 in
  outb CRTPORT 15 ;;
  let* lo := inb (CRTPORT + 1) in
  let pos := Z.lor pos lo in
  let* pos :=
    if c =? 10 then ret (pos + (80 - pos mod 80))
    else if c =? BACKSPACE then ret (if 0 <? pos then pos - 1 else pos)
    else modify (upd_mem (store16 (crt + 2 * pos) (Z.lor (Z.land c 0xff) 0x0700))) ;; ret (pos + 1) in
  if (pos <? 0) || (25 * 80 <? pos) then panic "pos under/overflow" else
  let* pos :=
    if 24 <=? pos / 80 then
      modify (upd_mem (memmove crt (crt + 2 * 80) (2 * 23 * 80))) ;;
      let pos := pos - 80 in
      modify (upd_mem (memset (crt + 2 * pos) 0 (2 * (24 * 80 - pos)))) ;;
      ret pos
    else ret pos in
  outb CRTPORT 14 ;;
  outb (CRTPORT + 1) (Z.shiftr pos 8) ;;
  outb CRTPORT 15 ;;
  outb (CRTPORT + 1) pos ;;
  modify (upd_mem (store16 (crt + 2 * pos) (Z.lor 32 0x0700))).

(** [consputc] with its devices. *)
Definition consputc_devices (c : Z) : M unit :=
  let* p := gets panicked in
  if truthy p then cli ;; (fun k => Diverge k) else
  (if c =? BACKSPACE then uartputc 8 ;; uartputc 32 ;; uartputc 8 else uartputc c) ;;
  cgaputc c.

End screen.

(** ** The terminal

    All that was written, as the characters of lines of 80, and how many lines
    have gone off the top. *)

Record terminal := Terminal { t_text : list Z; t_top : nat }.

Definition t_cursor (t : terminal) : Z := Z.of_nat (length (t_text t)) - 80 * Z.of_nat (t_top t).

Definition t_write (c : Z) (t : terminal) : list Z :=
  let l := t_text t in
  if c =? 10 then l ++ replicate (80 - length l mod 80) 32
  else if c =? BACKSPACE then if 0 <? t_cursor t then removelast l else l
  else l ++ [Z.land c 0xff].

(** A line goes off the top when the text reaches past the 24th. *)
Definition t_putc (t : terminal) (c : Z) : terminal :=
  let l := t_write c t in
  Terminal l (if 24 * 80 <=? Z.of_nat (length l) - 80 * Z.of_nat (t_top t) then S (t_top t) else t_top t).

Definition t_ok (t : terminal) : Prop := 0 <= t_cursor t < 24 * 80.

(** The character at a place of the screen. *)
Definition t_char (t : terminal) (i : Z) : Z := default 32 (t_text t !! Z.to_nat (80 * Z.of_nat (t_top t) + i)).

(** What a place of the screen memory looks like: a character in white, or
    nothing. *)
Definition cell (m : memory) (i : Z) : Z := load16 m (crt + 2 * i).
Definition looks (v c : Z) : Prop := v = Z.lor c 0x0700 \/ v = 0 /\ c = 32.

Definition shows (m : memory) (t : terminal) : Prop := forall i, 0 <= i < 24 * 80 -> looks (cell m i) (t_char t i).

Definition on_screen (x : Z) : Prop := crt <= x < crt + 2 * (24 * 80).

(** ** The controller of the screen

    It has a port for the number of a register and one for the register.
    [crtc] is its state after the accesses of a history. *)

Definition crtc_step (st : Z * (Z -> Z)) (e : ioevent) : Z * (Z -> Z) :=
  match e with
  | EOut p v =>
      if p =? CRTPORT then (v, st.2)
      else if p =? CRTPORT + 1 then (st.1, fun r => if r =? st.1 then v else st.2 r)
      else st
  | _ => st
  end.

Definition crtc (start : Z * (Z -> Z)) (h : list ioevent) : Z * (Z -> Z) := foldl crtc_step start h.

(** Registers 14 and 15 are the position of the cursor. *)
Definition crt_cursor (start : Z * (Z -> Z)) (h : list ioevent) : Z :=
  Z.lor (Z.shiftl (u8 ((crtc start h).2 14)) 8) (u8 ((crtc start h).2 15)).

(** An access to another device. *)
Definition elsewhere (e : ioevent) : Prop :=
  match e with EOut p _ => p <> CRTPORT /\ p <> CRTPORT + 1 | _ => True end.

(** The bytes sent through the serial port. *)
Fixpoint sent (evs : list ioevent) : list Z :=
  match evs with
  | EOut p v :: evs => if p =? COM1 then v :: sent evs else sent evs
  | _ :: evs => sent evs
  | [] => []
  end.

Lemma sent_app e1 e2 : sent (e1 ++ e2) = sent e1 ++ sent e2.
Proof.
  induction e1 as [|e e1 IH]; [done|]. destruct e as [p v| | | | |]; simpl; try done.
  destruct (p =? COM1); [|done]. simpl. by rewrite IH.
Qed.

Lemma crtc_elsewhere start h evs : Forall elsewhere evs -> crtc start (h ++ evs) = crtc start h.
Proof.
  unfold crtc. rewrite foldl_app. generalize (foldl crtc_step start h). intros st HF. revert st.
  induction HF as [|e evs He _ IH]; intros st; [done|]. simpl. rewrite IH.
  destruct e as [p v| | | | |]; try done. destruct He. simpl.
  destruct (Z.eqb_spec p CRTPORT), (Z.eqb_spec p (CRTPORT + 1)); done.
Qed.

Lemma word_of_bytes pos : 0 <= pos < 2 ^ 16 -> Z.lor (Z.shiftl (u8 (u8 (Z.shiftr pos 8))) 8) (u8 (u8 pos)) = pos.
Proof.
  intros Hp. rewrite !(u8_small (u8 _)) by apply u8_range.
  unfold u8. apply Z.bits_inj'. intros i Hi. rewrite Z.lor_spec.
  destruct (Z.lt_ge_cases i 8).
  - by rewrite Z.shiftl_spec_low, Z.mod_pow2_bits_low by lia.
  - rewrite Z.shiftl_spec_high, (Z.mod_pow2_bits_high pos), orb_false_r by lia.
    destruct (Z.lt_ge_cases i 16).
    + rewrite Z.mod_pow2_bits_low, Z.shiftr_spec by lia. f_equal. lia.
    + rewrite Z.mod_pow2_bits_high by lia. symmetry. rewrite <- (Z.mod_small pos (2 ^ 16)) by lia.
      apply Z.mod_pow2_bits_high. lia.
Qed.

(** ** The memory of the screen *)

Lemma load16_store16 a v m : 0 <= v < 2 ^ 16 -> load16 (store16 a v m) a = v.
Proof.
  intros Hv. unfold load16, store16. rewrite store8_eq, store8_ne, store8_eq by lia.
  unfold u8. Z.div_mod_to_equations. lia.
Qed.

Lemma store16_other a v m x : x < a \/ a + 2 <= x -> store16 a v m x = m x.
Proof. intros. unfold store16. by rewrite !store8_ne by lia. Qed.

Lemma cell_store m i v j :
  0 <= v < 2 ^ 16 -> cell (store16 (crt + 2 * i) v m) j = if i =? j then v else cell m j.
Proof.
  intros Hv. unfold cell. destruct (Z.eqb_spec i j) as [->|]; [by apply load16_store16|].
  unfold load16. by rewrite !store16_other by lia.
Qed.

(** What [cgaputc] does to the position and to the memory, step by step. *)
Definition cga_advance (c pos : Z) : Z :=
  if c =? 10 then pos + (80 - pos mod 80) else if c =? BACKSPACE then if 0 <? pos then pos - 1 else pos else pos + 1.

Definition cga_place (c pos : Z) (m : memory) : memory :=
  if (c =? 10) || (c =? BACKSPACE) then m else store16 (crt + 2 * pos) (Z.lor (Z.land c 0xff) 0x0700) m.

Definition cga_pos (pos : Z) : Z := if 24 * 80 <=? pos then pos - 80 else pos.

Definition cga_scroll (pos : Z) (m : memory) : memory :=
  if 24 * 80 <=? pos
  then memset (crt + 2 * (pos - 80)) 0 (2 * (24 * 80 - (pos - 80))) (memmove crt (crt + 2 * 80) (2 * 23 * 80) m)
  else m.

Definition cga_mem (c pos : Z) (m : memory) : memory :=
  let pos' := cga_advance c pos in
  store16 (crt + 2 * cga_pos pos') (Z.lor 32 0x0700) (cga_scroll pos' (cga_place c pos m)).

Lemma cga_advance_range c pos : 0 <= pos < 24 * 80 -> 0 <= cga_advance c pos <= 24 * 80.
Proof.
  intros Hp. unfold cga_advance. repeat case_bool; try lia.
  pose proof (Z.mod_pos_bound pos 80). pose proof (Z.div_mod pos 80).
  assert (pos / 80 < 24) by (apply Z.div_lt_upper_bound; lia). lia.
Qed.

Lemma cga_pos_range c pos : 0 <= pos < 24 * 80 -> 0 <= cga_pos (cga_advance c pos) < 24 * 80.
Proof. intros Hp. pose proof (cga_advance_range c pos Hp). unfold cga_pos. case_bool; lia. Qed.

Lemma scroll_cell m j : mem_ok m -> 0 <= j < 24 * 80 ->
  cell (cga_scroll (24 * 80) m) j = if j <? 23 * 80 then cell m (j + 80) else 0.
Proof.
  intros Hm Hj. unfold cga_scroll. rewrite Z.leb_refl. unfold cell, load16.
  rewrite !memset_eq by lia. case_bool.
  - rewrite !stosb_out, !memmove_eq, !copy_bytes_in by (done || lia). f_equal; [f_equal; lia|]. do 2 f_equal. lia.
  - by rewrite !stosb_in by lia.
Qed.

Lemma scroll_other m x : mem_ok m -> ~ on_screen x -> cga_scroll (24 * 80) m x = m x.
Proof.
  unfold on_screen. intros Hm Hx. unfold cga_scroll. rewrite Z.leb_refl, memset_eq by lia.
  by rewrite stosb_out, memmove_eq, copy_bytes_out by (done || lia).
Qed.

(** ** The terminal and the memory *)

Lemma t_write_length c t : t_ok t ->
  Z.of_nat (length (t_write c t)) - 80 * Z.of_nat (t_top t) = cga_advance c (t_cursor t).
Proof.
  unfold t_ok, t_write, cga_advance, t_cursor. intros Ht. repeat case_bool.
  - rewrite length_app, length_replicate. pose proof (Nat.mod_upper_bound (length (t_text t)) 80).
    replace ((Z.of_nat (length (t_text t)) - 80 * Z.of_nat (t_top t)) mod 80) with (Z.of_nat (length (t_text t) mod 80)).
    { lia. }
    rewrite Nat2Z.inj_mod. replace (Z.of_nat (length (t_text t)) - 80 * Z.of_nat (t_top t))
      with (Z.of_nat (length (t_text t)) + (- Z.of_nat (t_top t)) * 80) by lia.
    by rewrite Z.mod_add by lia.
  - rewrite removelast_firstn_len, length_take. lia.
  - done.
  - rewrite length_app. simpl. lia.
Qed.

Lemma t_putc_cursor c t : t_ok t -> t_cursor (t_putc t c) = cga_pos (cga_advance c (t_cursor t)).
Proof.
  intros Ht. pose proof (t_write_length c t Ht). unfold t_putc, cga_pos, t_cursor at 1. simpl t_text. simpl t_top.
  repeat case_bool; lia.
Qed.

Lemma t_putc_ok c t : t_ok t -> t_ok (t_putc t c).
Proof. intros Ht. unfold t_ok. rewrite t_putc_cursor by done. by apply cga_pos_range. Qed.

Lemma t_char_end t : t_char t (t_cursor t) = 32.
Proof. unfold t_char, t_cursor. rewrite lookup_ge_None_2; [done|lia]. Qed.

Lemma lookup_pad (l : list Z) n j : default 32 ((l ++ replicate n 32) !! j) = default 32 (l !! j).
Proof.
  destruct (Nat.lt_ge_cases j (length l)); [by rewrite lookup_app_l|].
  rewrite lookup_app_r, (lookup_ge_None_2 l) by done.
  destruct (replicate n 32 !! _) eqn:E; [|done]. by apply lookup_replicate in E as [-> _].
Qed.

Lemma attr_range v : 0 <= v < 256 -> 0 <= Z.lor v 0x0700 < 2 ^ 16.
Proof.
  intros Hv. assert (0 <= Z.lor v 0x0700) by (apply Z.lor_nonneg; lia). split; [done|].
  destruct (Z.eq_dec (Z.lor v 0x0700) 0) as [->|]; [done|].
  apply Z.log2_lt_pow2; [lia|]. rewrite Z.log2_lor by lia.
  assert (Z.log2 v <= Z.log2 255) by (apply Z.log2_le_mono; lia). simpl in *. lia.
Qed.

(** Once the character is placed, every place but that of the cursor looks as
    it should. *)
Lemma place_shows c t m i :
  t_ok t -> shows m t -> 0 <= i < 24 * 80 -> i <> cga_advance c (t_cursor t) ->
  looks (cell (cga_place c (t_cursor t) m) i) (t_char (Terminal (t_write c t) (t_top t)) i).
Proof.
  intros Ht Hs Hi Hne. pose proof (Hs i Hi) as Hl. pose proof (t_char_end t) as He.
  unfold t_ok in Ht. unfold t_char, t_cursor in *. unfold t_write, cga_place, cga_advance in *. simpl t_text. simpl t_top.
  destruct (c =? 10); simpl; [by rewrite lookup_pad|].
  destruct (c =? BACKSPACE); simpl.
  { unfold t_cursor. case_bool; [|done]. rewrite removelast_firstn_len.
    destruct (decide (Z.to_nat (80 * Z.of_nat (t_top t) + i) < pred (length (t_text t)))%nat).
    - by rewrite lookup_take_lt.
    - rewrite lookup_take_ge by lia. rewrite lookup_ge_None_2 in Hl by lia. done. }
  rewrite cell_store.
  - case_bool.
    + left. rewrite list_lookup_middle; [done|lia].
    + destruct (Z.lt_ge_cases i (t_cursor t)); unfold t_cursor in *.
      * by rewrite lookup_app_l by lia.
      * rewrite lookup_ge_None_2 in Hl |- * by (rewrite ?length_app; simpl; lia). done.
  - apply attr_range. change 255 with (Z.ones 8). rewrite Z.land_ones by lia. apply u8_range.
Qed.

Lemma cga_place_ok c pos m : mem_ok m -> mem_ok (cga_place c pos m).
Proof. intros. unfold cga_place. case_match; [done|by apply store16_ok]. Qed.

Lemma cga_mem_ok c pos m : 0 <= pos < 24 * 80 -> mem_ok m -> mem_ok (cga_mem c pos m).
Proof.
  intros Hp Hm. pose proof (cga_advance_range c pos Hp). apply store16_ok. unfold cga_scroll. case_bool; [|by apply cga_place_ok].
  apply memset_ok, memmove_ok; [lia|]. by apply cga_place_ok.
Qed.

(** The screen memory follows the terminal. *)
Lemma cga_mem_shows c t m :
  t_ok t -> mem_ok m -> shows m t -> shows (cga_mem c (t_cursor t) m) (t_putc t c).
Proof.
  intros Ht Hm Hs i Hi. pose proof (cga_advance_range c _ Ht) as Hr. pose proof (t_write_length c t Ht) as Hlen.
  pose proof (t_putc_cursor c t Ht) as Hc. pose proof (t_char_end (t_putc t c)) as He. rewrite Hc in He.
  unfold cga_mem. rewrite cell_store by (by vm_compute). destruct (Z.eqb_spec (cga_pos (cga_advance c (t_cursor t))) i) as [<-|Hne]; [left; by rewrite He|].
  revert Hne Hc. unfold cga_pos, cga_scroll, t_putc. rewrite Hlen. destruct (Z.leb_spec (24 * 80) (cga_advance c (t_cursor t))); intros Hne _.
  - assert (cga_advance c (t_cursor t) = 24 * 80) as E by lia.
    pose proof (scroll_cell (cga_place c (t_cursor t) m) i (cga_place_ok _ _ _ Hm) Hi) as Hcell.
    unfold cga_scroll in Hcell. rewrite Z.leb_refl in Hcell. rewrite E, Hcell. case_bool.
    + pose proof (place_shows c t m (i + 80) Ht Hs ltac:(lia) ltac:(lia)) as Hp. revert Hp.
      unfold t_char. simpl t_text. simpl t_top.
      by replace (80 * Z.of_nat (S (t_top t)) + i) with (80 * Z.of_nat (t_top t) + (i + 80)) by lia.
    + right. split; [done|]. unfold t_char. simpl t_text. simpl t_top. by rewrite lookup_ge_None_2 by lia.
  - by apply place_shows.
Qed.

(** Nothing else changes. *)
Lemma cga_mem_other c pos m x :
  0 <= pos < 24 * 80 -> mem_ok m -> ~ on_screen x -> cga_mem c pos m x = m x.
Proof.
  intros Hp Hm Hx. pose proof (cga_advance_range c pos Hp) as Hr. pose proof (cga_pos_range c pos Hp).
  unfold cga_mem. rewrite store16_other by (unfold on_screen in Hx; lia).
  assert (cga_place c pos m x = m x) as Eq.
  { unfold cga_place. case_match; [done|]. apply store16_other. unfold on_screen in Hx. lia. }
  rewrite <- Eq. destruct (Z.leb_spec (24 * 80) (cga_advance c pos)) as [Hle|Hlt].
  - replace (cga_advance c pos) with (24 * 80) by lia. apply scroll_other; [by apply cga_place_ok|done].
  - unfold cga_scroll. by destruct (Z.leb_spec (24 * 80) (cga_advance c pos)); [lia|].
Qed.

(** ** Writing to the screen *)

Lemma outb_eq port v k : outb port v k = Ret tt (logged [EOut port (u8 v)] k).
Proof. reflexivity. Qed.

Section controller.
Context `{Ports} (start : Z * (Z -> Z)).

(** The controller answers with the register that was chosen. *)
Hypothesis crtc_answers : forall h, port_in h (CRTPORT + 1) = (crtc start h).2 (crtc start h).1.

(** Choosing a register and reading it. *)
Lemma crtc_read {A} r (f : Z -> M A) k :
  0 <= r < 256 ->
  let v := u8 ((crtc start (ioevents k)).2 r) in
  (outb CRTPORT r ;; let* x := inb (CRTPORT + 1) in f x) k = f v (logged [EOut CRTPORT r; EIn (CRTPORT + 1) v] k).
Proof.
  intros Hr v. rewrite (bind_Ret _ _ _ _ _ (outb_eq _ _ _)), (bind_Ret _ _ _ _ _ (inb_eq _ _)).
  rewrite logged_logged, crtc_answers, (u8_small r) by done.
  assert (crtc start (ioevents (logged [EOut CRTPORT r] k)) = (r, (crtc start (ioevents k)).2)) as ->; [|done].
  change (ioevents (logged [EOut CRTPORT r] k)) with (ioevents k ++ [EOut CRTPORT r]).
  unfold crtc. by rewrite foldl_app.
Qed.

Lemma crt_write pos h :
  0 <= pos < 2 ^ 16 ->
  crt_cursor start (h ++ [EOut CRTPORT (u8 14); EOut (CRTPORT + 1) (u8 (Z.shiftr pos 8));
                          EOut CRTPORT (u8 15); EOut (CRTPORT + 1) (u8 pos)]) = pos.
Proof. intros Hp. unfold crt_cursor, crtc. rewrite foldl_app. simpl. by apply word_of_bytes. Qed.

Lemma crtc_select a q b h : (crtc start (h ++ [EOut CRTPORT a; EIn q b])).2 = (crtc start h).2.
Proof. unfold crtc. by rewrite foldl_app. Qed.

Lemma cgaputc_eq c k pos :
  crt_cursor start (ioevents k) = pos -> 0 <= pos < 24 * 80 ->
  exists evs, cgaputc c k = Ret tt (logged evs (upd_mem (cga_mem c pos) k)) /\
    sent evs = [] /\ crt_cursor start (ioevents k ++ evs) = cga_pos (cga_advance c pos).
Proof.
  intros Hpos Hr. pose proof (cga_advance_range c pos Hr) as Ha. unfold cgaputc.
  rewrite crtc_read by lia. rewrite crtc_read by lia.
  change (ioevents (logged [EOut ?p ?a; EIn ?q ?b] k)) with (ioevents k ++ [EOut p a; EIn q b]).
  rewrite crtc_select, logged_logged. fold (crt_cursor start (ioevents k)). rewrite Hpos. cbn [app].
  set (evs := [_; _; _; _]).
  erewrite bind_Ret; cycle 1.
  { instantiate (1 := logged evs (upd_mem (cga_place c pos) k)). instantiate (1 := cga_advance c pos).
    unfold cga_place, cga_advance. destruct (c =? 10), (c =? BACKSPACE); done. }
  destruct (Z.ltb_spec (cga_advance c pos) 0), (Z.ltb_spec (25 * 80) (cga_advance c pos)); try lia. cbn [orb].
  erewrite bind_Ret; cycle 1.
  { instantiate (1 := logged evs (upd_mem (fun m => cga_scroll (cga_advance c pos) (cga_place c pos m)) k)).
    instantiate (1 := cga_pos (cga_advance c pos)). unfold cga_scroll, cga_pos.
    replace (24 <=? cga_advance c pos / 80) with (24 * 80 <=? cga_advance c pos).
    - by destruct (24 * 80 <=? cga_advance c pos).
    - apply Bool.eq_iff_eq_true. rewrite !Z.leb_le. split; intros; Z.div_mod_to_equations; lia. }
  eexists. do 4 rewrite (bind_Ret _ _ _ _ _ (outb_eq _ _ _)), ?logged_logged. split_and!; [reflexivity|reflexivity|].
  rewrite <- !app_assoc. cbn [app]. rewrite app_assoc. apply crt_write.
  pose proof (cga_pos_range c pos Hr). lia.
Qed.

(** The serial port is another device. *)
Lemma uart_wait n i k :
  (i + n = 129)%nat -> (i <= 128)%nat ->
  exists evs, (Forall elsewhere evs /\ sent evs = []) /\
    iter n (fun i =>
      if (i <? 128)%nat then
        let* st := inb (COM1 + 5) in
        if Z.land st 0x20 =? 0 then microdelay 10 ;; ret (inl (S i)) else ret (inr tt)
      else ret (inr tt)) i k = Ret tt (logged evs k).
Proof.
  revert i k. induction n as [|n IH]; intros i k Hn Hi; [lia|]. cbn [iter].
  destruct (Nat.ltb_spec i 128) as [Hlt|].
  - rewrite bind_assoc, (bind_Ret _ _ _ _ _ (inb_eq _ _)). case_bool.
    + destruct (IH (S i) (logged [EIn (COM1 + 5) (u8 (port_in (ioevents k) (COM1 + 5)))] k)) as (evs & HF & E); [lia|lia|].
      eexists. split; [|rewrite bind_assoc; etransitivity; [exact E|]; by rewrite logged_logged].
      by split; [constructor; [|apply HF]|apply HF].
    + eexists. split; [|reflexivity]. by repeat constructor.
  - exists []. split; [by repeat constructor|]. by rewrite logged_nil.
Qed.

(** The bytes for a character. *)
Definition serial (c : Z) : list Z := if c =? BACKSPACE then [8; 32; 8] else [u8 c].

Lemma uartputc_eq c k :
  exists evs, (Forall elsewhere evs /\ sent evs = if uart k =? 0 then [] else [u8 c]) /\
    uartputc c k = Ret tt (logged evs k).
Proof.
  unfold uartputc. rewrite bind_gets. case_bool.
  - exists []. split; [by repeat constructor|]. by rewrite logged_nil.
  - destruct (uart_wait 129 0 k) as (evs & [HF Hs] & E); [lia|lia|]. rewrite (bind_Ret _ _ _ _ _ E), outb_eq, logged_logged.
    eexists. split; [|reflexivity]. rewrite sent_app, Hs. split; [|done].
    apply list.Forall_app. split; [done|]. by repeat constructor.
Qed.

Lemma serial_eq c k :
  exists evs, (Forall elsewhere evs /\ sent evs = if uart k =? 0 then [] else serial c) /\
    (if c =? BACKSPACE then uartputc 8 ;; uartputc 32 ;; uartputc 8 else uartputc c) k = Ret tt (logged evs k).
Proof.
  unfold serial. destruct (c =? BACKSPACE); [|apply uartputc_eq].
  destruct (uartputc_eq 8 k) as (e1 & [F1 S1] & E1). destruct (uartputc_eq 32 (logged e1 k)) as (e2 & [F2 S2] & E2).
  destruct (uartputc_eq 8 (logged e2 (logged e1 k))) as (e3 & [F3 S3] & E3).
  exists (e1 ++ e2 ++ e3). rewrite (bind_Ret _ _ _ _ _ E1), (bind_Ret _ _ _ _ _ E2), E3, !logged_logged.
  split; [|done]. rewrite !list.Forall_app, !sent_app, S1, S2, S3. split; [done|].
  change (uart (logged _ _)) with (uart k). by destruct (uart k =? 0).
Qed.

(** What the devices have to do with the terminal. *)
Definition displays (t : terminal) (k : kernel) : Prop :=
  t_ok t /\ mem_ok (mem k) /\ shows (mem k) t /\ crt_cursor start (ioevents k) = t_cursor t.

Lemma consputc_devices_eq c t k :
  panicked k = 0 -> displays t k ->
  exists evs m, consputc_devices c k = Ret tt (logged evs (upd_mem (fun _ => m) k)) /\
    displays (t_putc t c) (logged evs (upd_mem (fun _ => m) k)) /\
    sent evs = (if uart k =? 0 then [] else serial c) /\ (forall x, ~ on_screen x -> m x = mem k x).
Proof.
  intros Hp (Ht & Hm & Hs & Hc). unfold consputc_devices. rewrite bind_gets, Hp. change (truthy 0) with false. cbn iota.
  destruct (serial_eq c k) as (e1 & [F1 S1] & E1). rewrite (bind_Ret _ _ _ _ _ E1).
  assert (crt_cursor start (ioevents (logged e1 k)) = t_cursor t) as Hc1.
  { change (ioevents (logged e1 k)) with (ioevents k ++ e1). unfold crt_cursor. by rewrite crtc_elsewhere. }
  destruct (cgaputc_eq c (logged e1 k) _ Hc1 Ht) as (e2 & E2 & S2 & Hc2). rewrite E2.
  exists (e1 ++ e2), (cga_mem c (t_cursor t) (mem k)). unfold displays. split_and!.
  - rewrite <- logged_logged. done.
  - by apply t_putc_ok.
  - by apply cga_mem_ok.
  - by apply cga_mem_shows.
  - rewrite t_putc_cursor, <- Hc2 by done. change (ioevents (logged e1 k)) with (ioevents k ++ e1). by rewrite <- app_assoc.
  - by rewrite sent_app, S1, S2, app_nil_r.
  - intros x Hx. by apply cga_mem_other.
Qed.

(** C28: the console is a terminal.  Whatever is written, the position of the
    cursor stays on the screen, so that [cgaputc] does not panic, and when the
    screen shows the end of a text with the cursor behind it, then after more
    characters (new lines and backspaces among them) it shows the end of the
    text with them, 24 lines of 80 at most; the serial port has been sent the
    same characters, and no other memory has changed.  The characters are those
    that [putchars] appends to the history of the console. *)
Theorem console_is_terminal l t k :
  panicked k = 0 -> displays t k ->
  exists evs m, for_each l consputc_devices k = Ret tt (logged evs (upd_mem (fun _ => m) k)) /\
    displays (foldl t_putc t l) (logged evs (upd_mem (fun _ => m) k)) /\
    sent evs = (if uart k =? 0 then [] else flat_map serial l) /\
    (forall x, ~ on_screen x -> m x = mem k x) /\
    putchars l k = Ret tt (upd_console (fun s => s ++ l) k).
Proof.
  intros Hp Hd. pose proof (putchars_eq l k Hp) as Hput. revert t k Hp Hd Hput.
  induction l as [|c l IH]; intros t k Hp Hd Hput.
  - exists [], (mem k). assert (logged [] (upd_mem (fun _ => mem k) k) = k) as -> by (rewrite logged_nil; kernel_eq).
    split_and!; try done. by destruct (uart k =? 0).
  - destruct (consputc_devices_eq c t k Hp Hd) as (e1 & m1 & E1 & Hd1 & S1 & O1).
    set (k1 := logged e1 (upd_mem (fun _ => m1) k)) in *.
    destruct (IH (t_putc t c) k1 Hp Hd1 (putchars_eq l k1 Hp)) as (e2 & m2 & E2 & Hd2 & S2 & O2 & _).
    exists (e1 ++ e2), m2. simpl for_each. rewrite (bind_Ret _ _ _ _ _ E1), E2.
    assert (logged e2 (upd_mem (fun _ => m2) k1) = logged (e1 ++ e2) (upd_mem (fun _ => m2) k)) as Ek.
    { unfold k1. rewrite <- logged_logged. unfold logged. kernel_eq. }
    rewrite <- Ek. split_and!; try done.
    + rewrite sent_app, S1, S2. change (uart k1) with (uart k). by destruct (uart k =? 0).
    + intros x Hx. rewrite O2, <- O1 by done. done.
Qed.
End controller.

(** *** A concrete instance: a serial port that is ready, a cleared screen, and
    the alphabet with one letter on a line. *)

#[local] Instance pc : Ports := {
  port_in h p := if p =? CRTPORT + 1 then (crtc (0, fun _ => 0) h).2 (crtc (0, fun _ => 0) h).1 else 0x20;
  port_ins _ _ _ := [];
  reg_in _ _ := 0;
  POLLS := 1
}.

Definition letters : list Z := flat_map (fun i => [65 + i; 10]) (seqZ 0 26).

Lemma console_is_terminal_witness :
  exists evs m, for_each letters consputc_devices (upd_uart (fun _ => 1) boot)
      = Ret tt (logged evs (upd_mem (fun _ => m) (upd_uart (fun _ => 1) boot))) /\
    sent evs = letters /\ looks (cell m 0) 68 /\ looks (cell m (80 * 22)) 90.
Proof.
  destruct (@console_is_terminal pc (0, fun _ => 0) (fun h => eq_refl) letters (Terminal [] 0)
    (upd_uart (fun _ => 1) boot)) as (evs & m & E & (_ & _ & Hs & _) & Hsent & _).
  - reflexivity.
  - split_and!; [split; [discriminate|reflexivity]|intros x; split; [discriminate|reflexivity]| |reflexivity].
    intros i _. right. split; reflexivity.
  - exists evs, m. split_and!; [exact E|exact Hsent|exact (Hs 0 ltac:(lia))|exact (Hs (80 * 22) ltac:(lia))].
Defined.
