(* ===== verification/Trap.v ===== *)
(** trap.c: the interrupt descriptor table and the handler of system calls,
    interrupts and exceptions. *)

From S2P Require Import Prelude Memory KString Kernel Spinlock Boot Io Lapic Cprintf Kalloc Vm Proc Sched Sleeplock Bio Log Fs Pipe File Fork Args Sysproc Exec Sysfile Syscall.

(** ** traps.h, SETGATE of mmu.h *)

Definition T_SYSCALL : Z := 64.
Definition STS_IG32 : Z := 14.
Definition STS_TG32 : Z := 15.

Definition SETGATE (istrap : bool) (sel off d : Z) : gatedesc :=
  {| off_15_0 := Z.land off 0xffff; gd_cs := sel; gd_args := 0; gd_rsv1 := 0;
     gd_type := if istrap then STS_TG32 else STS_IG32; gd_s := 0; gd_dpl := d; gd_p := 1;
     off_31_16 := Z.shiftr off 16 |}.

(** The handlers of the disk, the keyboard and the serial port. *)
Class Interrupts := {
  ideintr : M unit;
  kbdintr : M unit;
  uartintr : M unit;
}.

Section trap.
Context `{Machine} `{Ports} `{BlockDriver} `{DevOps} `{Interrupts}.

Definition set_gate (i : nat) (gd : gatedesc) : M unit :=
  put_slot "idt" idt upd_idt i (fun _ => gd).

Definition tvinit : M unit :=
  for_each (seq 0 256) (fun i => set_gate i (SETGATE false (Z.shiftl SEG_KCODE 3) (vectors i) 0)) ;;
  set_gate (Z.to_nat T_SYSCALL)
    (SETGATE true (Z.shiftl SEG_KCODE 3) (vectors (Z.to_nat T_SYSCALL)) DPL_USER) ;;
  initlock L_ticks "time".

Definition idtinit : M unit := modify (upd_hw (upd_idtr (fun _ => 8 * 256 - 1))).

Definition timer_tick : M unit :=
  acquire L_ticks ;;
  modify (upd_ticks (fun t => u32 (t + 1))) ;;
  countprocs ;;
  wakeup CTicks ;;
  release L_ticks.

(** The three conditions on the current process, evaluated as the code does:
    the fields only when there is one. *)
Definition killed_in_user (tf0 : Z) : M bool :=
  let* p := myproc in
  match p with
  | None => ret false
  | Some p =>
      let* pr := get_proc p in
      let* cs := ld16 (tf0 + TF_CS) in
      ret (truthy (killed pr) && (Z.land cs 3 =? DPL_USER))
  end.

Definition is_running : M bool :=
  let* p := myproc in
  match p with
  | None => ret false
  | Some p => let* pr := get_proc p in ret (bool_decide (state pr = RUNNING))
  end.

Definition trap (tf0 : Z) : M unit :=
  let* trapno := ld32 (tf0 + TF_TRAPNO) in
  if trapno =? T_SYSCALL then
    let* dead := am_killed in
    when dead exit ;;
    let* p := curproc in
    set_proc p (upd_tf (fun _ => tf0)) ;;
    syscall ;;
    let* dead := am_killed in
    when dead exit
  else
  (if trapno =? T_IRQ0 + IRQ_TIMER then
     let* c := cpuid in
     when (c =? 0)%nat timer_tick ;;
     lapiceoi
   else if trapno =? T_IRQ0 + IRQ_IDE then ideintr ;; lapiceoi
   else if trapno =? T_IRQ0 + IRQ_IDE + 1 then ret tt
   else if trapno =? T_IRQ0 + IRQ_KBD then kbdintr ;; lapiceoi
   else if trapno =? T_IRQ0 + IRQ_COM1 then uartintr ;; lapiceoi
   else if (trapno =? T_IRQ0 + 7) || (trapno =? T_IRQ0 + IRQ_SPURIOUS) then
     let* c := cpuid in
     let* cs := ld16 (tf0 + TF_CS) in
     let* eip := ld32 (tf0 + TF_EIP) in
     cprintf (chars "cpu%d: spurious interrupt at %x:%x" ++ [10])
       [AInt (Z.of_nat c); AInt cs; AInt eip] ;;
     lapiceoi
   else
     let* p := myproc in
     let* cs := ld16 (tf0 + TF_CS) in
     let* eip := ld32 (tf0 + TF_EIP) in
     let* err := ld32 (tf0 + TF_ERR) in
     let* va := gets (fun k => cr2 (hw k)) in
     match p with
     | Some p =>
         if Z.land cs 3 =? 0 then
           let* c := cpuid in
           cprintf (chars "unexpected trap %d from cpu %d eip %x (cr2=0x%x)" ++ [10])
             [AInt trapno; AInt (Z.of_nat c); AInt eip; AInt va] ;;
           panic "trap"
         else
           let* pr := get_proc p in
           let* c := cpuid in
           cprintf (chars "pid %d %s: trap %d err %d on cpu %d eip 0x%x addr 0x%x--kill proc" ++ [10])
             [AInt (pid pr); AStr (Some (name pr)); AInt trapno; AInt err; AInt (Z.of_nat c);
              AInt eip; AInt va] ;;
           set_proc p (upd_killed (fun _ => 1))
     | None =>
         let* c := cpuid in
         cprintf (chars "unexpected trap %d from cpu %d eip %x (cr2=0x%x)" ++ [10])
           [AInt trapno; AInt (Z.of_nat c); AInt eip; AInt va] ;;
         panic "trap"
     end) ;;
  let* dead := killed_in_user tf0 in
  when dead exit ;;
  let* running := is_running in
  when (running && (trapno =? T_IRQ0 + IRQ_TIMER)) yield ;;
  let* dead := killed_in_user tf0 in
  when dead exit.
End trap.

(** ** The clock *)

Section clock.
Context (c : nat).

Lemma timer_tick_eq k :
  cpu_ok c k -> lock_free L_ticks k -> lock_free L_ptable k -> ptable_ok k ->
  timer_tick k =
    Ret tt (upd_ptable (fmap (fun p => wake CTicks (tick p)))
      (upd_ticks (fun t => u32 (t + 1)) (touch c k))).
Proof.
  intros Hok Hlt Hl Hk. unfold timer_tick. mcall (acquire_eq c).
  pose proof (acq_ok c L_ticks k Hok) as Hok1. pose proof (acq_depth c L_ticks k Hok) as Hd1.
  pose proof (depth_nonneg _ _ Hok) as Hd.
  set (k1 := upd_ticks _ _). assert (cpu_ok c k1) as Hok2 by exact Hok1.
  assert (depth c k1 = depth c k + 1) as Hd2 by exact Hd1.
  assert (lock_free L_ptable k1) as Hl1 by exact Hl.
  mcall (countprocs_eq c). rewrite touch_deep by (done || lia).
  mcall (wakeup_eq c) by (first [exact Hok2 | exact Hl1 | unfold ptable_ok; rec_simpl; by rewrite length_fmap]).
  change (touch c (upd_ptable (fmap tick) k1)) with (upd_ptable (fmap tick) (touch c k1)).
  rewrite touch_deep by (done || lia).
  set (f := fun k => upd_ptable (fmap (wake CTicks)) (upd_ptable (fmap tick) (upd_ticks (fun t => u32 (t + 1)) k))).
  change (upd_ptable (fmap (wake CTicks)) (upd_ptable (fmap tick) k1)) with (f (acq L_ticks c k)).
  rewrite (unrelated_release f ltac:(done)) by done.
  change (rel L_ticks c (f (acq L_ticks c k))) with (f (rel L_ticks c (acq L_ticks c k))).
  rewrite rel_acq by done. unfold f. f_equal. kernel_eq. by rewrite <- list_fmap_compose.
Qed.

(** The clock interrupt of the first CPU counts the tick, adds it to the time
    of the state every process is in, and makes runnable exactly the processes
    that sleep until a tick. *)
Theorem timer_tick_advances k :
  cpu_ok c k -> lock_free L_ticks k -> lock_free L_ptable k -> ptable_ok k ->
  exists k', timer_tick k = Ret tt k' /\ ticks k' = u32 (ticks k + 1) /\
    lock_free L_ticks k' /\ lock_free L_ptable k' /\
    forall i p, ptable k !! i = Some p -> exists p', ptable k' !! i = Some p' /\
      state p' = (if bool_decide (state p = SLEEPING) && bool_decide (chan_ p = CTicks)
                  then RUNNABLE else state p) /\
      (stime p', retime p', rutime p') =
        (match state p with
         | SLEEPING => (s32 (stime p + 1), retime p, rutime p)
         | RUNNABLE => (stime p, s32 (retime p + 1), rutime p)
         | RUNNING => (stime p, retime p, s32 (rutime p + 1))
         | _ => (stime p, retime p, rutime p)
         end).
Proof.
  intros Hok Hlt Hl Hk. eexists. split; [by apply timer_tick_eq|].
  split_and!; [done | exact Hlt | exact Hl |]. intros i p Hp. rec_simpl.
  rewrite list_lookup_fmap. change (ptable (touch c k)) with (ptable k). rewrite Hp. eexists.
  split; [done|]. unfold wake, tick. destruct (state p) eqn:E; rec_simpl; rewrite ?E; cbn; try done.
  by destruct (bool_decide (chan_ p = CTicks)).
Qed.

(** C37: the two locks are taken in opposite orders.  [trap] takes the table lock
    while it holds the tick lock; the PRIORITY scheduler reads the clock, under
    the tick lock, at every step of its walk over the table, which it makes with
    the table lock held.  When the clock interrupt comes to one CPU while another
    one is on that walk, each waits for the lock that the other holds, and
    neither ever releases it. *)
Theorem tick_deadlock `{Machine} c' k :
  c' <> c -> cpu_ok c k -> lock_free L_ticks k -> lock_mine L_ptable c' k ->
  exists k1, timer_tick k = Spin L_ptable k1 /\ lock_mine L_ticks c k1 /\ lock_mine L_ptable c' k1 /\
    forall k2 i, locks k2 = locks k1 -> cpu_ok c' k2 ->
      exists k3, priority_step c' i k2 = Spin L_ticks k3 /\ locks k3 = locks k2.
Proof.
  intros Hne Hok Hlt [Hl Hlc]. unfold timer_tick. mcall (acquire_eq c). mrun.
  set (k1 := upd_ticks _ (acq L_ticks c k)).
  assert (cpu_ok c k1) as Hok1 by exact (acq_ok c L_ticks k Hok).
  assert (acquire L_ptable k1 = Spin L_ptable (push c k1)) as Hspin.
  { apply acquire_spin; [done | |].
    - change (lk_locked (locks k L_ptable) <> 0). lia.
    - change (lk_cpu (locks k L_ptable) <> Some c). rewrite Hlc. congruence. }
  exists (push c k1). split_and!.
  - unfold countprocs, bind. by rewrite Hspin.
  - exact (acq_mine c L_ticks k).
  - by split.
  - intros k2 i Hk2 Hok2. exists (push c' k2). split; [|done]. unfold priority_step, curr_time, bind.
    rewrite (acquire_spin c'); [done | done | |]; rewrite Hk2.
    + exact (fun E : 1 = 0 => ltac:(lia)).
    + change (Some c <> Some c'). congruence.
Qed.
End clock.

(** *** On concrete states *)

Lemma timer_tick_advances_witness :
  exists k', timer_tick trio = Ret tt k' /\ ticks k' = 1 /\ rutime <$> ptable k' !! 0%nat = Some 1.
Proof.
  destruct (timer_tick_advances 0 trio boot_cpu_ok (boot_free _) (boot_free _) eq_refl)
    as (k' & Hrun & Ht & _ & _ & Hp).
  exists k'. split_and!; [exact Hrun | exact Ht |]. destruct (Hp 0%nat _ eq_refl) as (p' & -> & _ & E).
  simpl fmap. apply (f_equal snd) in E. exact (f_equal Some E).
Defined.

(** CPU 1 holds the table lock. *)
Definition contended : kernel := upd_lock L_ptable (fun lk => Spinlock 1 (lk_name lk) (Some 1%nat)) boot.

Lemma tick_deadlock_witness :
  exists k1, timer_tick contended = Spin L_ptable k1 /\ lock_mine L_ticks 0 k1 /\ lock_mine L_ptable 1 k1.
Proof.
  destruct (@tick_deadlock 0 (alone PRIORITY) 1 contended ltac:(done) boot_cpu_ok (boot_free L_ticks) (conj eq_refl eq_refl))
    as (k1 & Hrun & Hm & Hm' & _).
  exists k1. split_and!; [exact Hrun | exact Hm | exact Hm'].
Defined.
