(* ===== verification/Main.v ===== *)
(** main.c: the start of the kernel, which initialises every part in its order
    and ends in the scheduler, and of the other CPUs. *)

From S2P Require Import Prelude Memory KString Kernel Spinlock Boot Io Lapic Mp Cprintf Ioapic Kalloc Vm Proc Rand Sched Sleeplock Bio Cache Ide Log Fs Pipe File Fork Args Sysproc Exec Sysfile Syscall Console Kbd Trap.

(** The linked image of entryother.S and the symbols [startothers] stores, and
    what another CPU does from its start until it has called [mpenter] and set
    [started]. *)
Class Others := {
  entryother : list Z;
  ld_mpenter : Z;
  ld_entrypgdir : Z;
  ap_runs : nat -> kernel -> kernel;
}.

(** The disk of this configuration, the console as a device and the handlers of
    its interrupts. *)
#[export] Instance ide_disk `{Machine} `{Ports} : BlockDriver := ide.

#[export] Instance console_ops `{Machine} `{Ports} : DevOps :=
  {| dev_read := fun d ip n => match d with DEV_console => consoleread ip n end;
     dev_write := fun d ip src n => match d with DEV_console => consolewrite ip src n end |}.

#[export] Instance device_interrupts `{Machine} `{Ports} : Interrupts :=
  {| Trap.ideintr := Ide.ideintr; Trap.kbdintr := Kbd.kbdintr; Trap.uartintr := Kbd.uartintr |}.

Section main.
Context `{Machine} `{Ports} `{Others}.

Definition MB4 : Z := 4 * 1024 * 1024.

(** The scheduler runs for ever; [fuel] and [rounds] bound the model of it. *)
Definition mpmain (fuel rounds : nat) : M unit :=
  let* c := cpuid in
  cprintf (chars "cpu%d: starting %d" ++ [10]) [AInt (Z.of_nat c); AInt (Z.of_nat c)] ;;
  idtinit ;;
  let* i := mycpu in
  set_cpu i (upd_started (fun _ => 1)) ;;
  scheduler fuel rounds.

Definition mpenter (fuel rounds : nat) : M unit :=
  switchkvm ;;
  seginit ;;
  lapicinit ;;
  mpmain fuel rounds.

Definition CODE : Z := P2V 0x7000.

(** Starts CPU [i] and waits until it is up. *)
Definition start_cpu (i : nat) : M unit :=
  let* stack := kalloc in
  st32 (CODE - 4) (stack + KSTACKSIZE) ;;
  st32 (CODE - 8) ld_mpenter ;;
  st32 (CODE - 12) (V2P ld_entrypgdir) ;;
  let* c := get_cpu i in
  lapicstartap (apicid c) (V2P CODE) ;;
  modify (ap_runs i) ;;
  let* c := get_cpu i in
  if started c =? 0 then (fun k => Diverge k) else ret tt.

Definition startothers : M unit :=
  modify (upd_mem (put_bytes CODE entryother)) ;;
  let* n := gets ncpu in
  for_each (seq 0 n) (fun i =>
    let* me := mycpu in
    if (i =? me)%nat then ret tt else start_cpu i).

Definition main (fuel rounds : nat) : M unit :=
  kinit1 ld_end (P2V MB4) ;;
  kvmalloc ;;
  mpinit ;;
  lapicinit ;;
  seginit ;;
  picinit ;;
  ioapicinit ;;
  consoleinit ;;
  uartinit ;;
  pinit ;;
  tvinit ;;
  binit ;;
  fileinit ;;
  ideinit ;;
  startothers ;;
  kinit2 (P2V MB4) (P2V PHYSTOP) ;;
  userinit ;;
  mpmain fuel rounds.
End main.
