(* ===== verification/Asm.v ===== *)
(** The assembly of the kernel (bootasm.S, entry.S, entryother.S, swtch.S,
    trapasm.S, vectors.pl and initcode.S) as lists of instructions, run by an
    interpreter of the part of the x86 they use, and sign.pl. *)

From S2P Require Import Prelude Memory Kernel Spinlock Boot Kalloc Vm Paging Fork Syscall Trap Main.

(** ** The processor *)

Inductive reg := EAX | ECX | EDX | EBX | ESP | EBP | ESI | EDI.
Inductive sreg := CS | DS | ES | FS | GS | SS.
Inductive creg := CR0 | CR3 | CR4.

(** The general registers, the segment registers and the control registers. *)
Record gpr := Gpr { g_eax : Z; g_ecx : Z; g_edx : Z; g_ebx : Z; g_esp : Z; g_ebp : Z; g_esi : Z; g_edi : Z }.
Record sel := Sel { s_cs : Z; s_ds : Z; s_es : Z; s_fs : Z; s_gs : Z; s_ss : Z }.
Record ctl := Ctl { c_cr0 : Z; c_cr3 : Z; c_cr4 : Z }.

Definition get_gpr (r : reg) (g : gpr) : Z :=
  match r with
  | EAX => g_eax g | ECX => g_ecx g | EDX => g_edx g | EBX => g_ebx g
  | ESP => g_esp g | EBP => g_ebp g | ESI => g_esi g | EDI => g_edi g
  end.

Definition put_gpr (r : reg) (v : Z) '(Gpr a c d b sp bp si di) : gpr :=
  match r with
  | EAX => Gpr v c d b sp bp si di | ECX => Gpr a v d b sp bp si di
  | EDX => Gpr a c v b sp bp si di | EBX => Gpr a c d v sp bp si di
  | ESP => Gpr a c d b v bp si di | EBP => Gpr a c d b sp v si di
  | ESI => Gpr a c d b sp bp v di | EDI => Gpr a c d b sp bp si v
  end.

Definition get_sel (r : sreg) (g : sel) : Z :=
  match r with CS => s_cs g | DS => s_ds g | ES => s_es g | FS => s_fs g | GS => s_gs g | SS => s_ss g end.

Definition put_sel (r : sreg) (v : Z) '(Sel cs ds es fs gs ss) : sel :=
  match r with
  | CS => Sel v ds es fs gs ss | DS => Sel cs v es fs gs ss | ES => Sel cs ds v fs gs ss
  | FS => Sel cs ds es v gs ss | GS => Sel cs ds es fs v ss | SS => Sel cs ds es fs gs v
  end.

Definition get_ctl (r : creg) (g : ctl) : Z := match r with CR0 => c_cr0 g | CR3 => c_cr3 g | CR4 => c_cr4 g end.

Definition put_ctl (r : creg) (v : Z) '(Ctl c0 c3 c4) : ctl :=
  match r with CR0 => Ctl v c3 c4 | CR3 => Ctl c0 v c4 | CR4 => Ctl c0 c3 v end.

(** [ins]: what the next reads of ports give; [outs]: the ports written, with
    the values, last first; [tss]: where the processor takes the stack of the
    kernel from when it leaves user mode. *)
Record x86 := X86 {
  gprs : gpr;
  sels : sel;
  ctls : ctl;
  eflags : Z;
  gdt_reg : Z * Z;
  tss : Z * Z;
  ram : memory;
  ins : list Z;
  outs : list (Z * Z);
}.

Definition regs (s : x86) (r : reg) : Z := get_gpr r (gprs s).
Definition segs (s : x86) (r : sreg) : Z := get_sel r (sels s).
Definition crs (s : x86) (r : creg) : Z := get_ctl r (ctls s).

Definition set_reg (r : reg) (v : Z) '(X86 g sl cl fl gd ts m i o) : x86 :=
  X86 (put_gpr r (u32 v) g) sl cl fl gd ts m i o.
Definition set_seg (r : sreg) (v : Z) '(X86 g sl cl fl gd ts m i o) : x86 :=
  X86 g (put_sel r (u16 v) sl) cl fl gd ts m i o.
Definition set_cr (r : creg) (v : Z) '(X86 g sl cl fl gd ts m i o) : x86 :=
  X86 g sl (put_ctl r (u32 v) cl) fl gd ts m i o.
Definition set_eflags (v : Z) '(X86 g sl cl fl gd ts m i o) : x86 :=
  X86 g sl cl (u32 v) gd ts m i o.
Definition set_gdtr (v : Z * Z) '(X86 g sl cl fl gd ts m i o) : x86 := X86 g sl cl fl v ts m i o.
Definition set_ram (f : memory -> memory) '(X86 g sl cl fl gd ts m i o) : x86 :=
  X86 g sl cl fl gd ts (f m) i o.
Definition set_ins (l : list Z) '(X86 g sl cl fl gd ts m i o) : x86 := X86 g sl cl fl gd ts m l o.
Definition out (port v : Z) '(X86 g sl cl fl gd ts m i o) : x86 :=
  X86 g sl cl fl gd ts m i ((port, v) :: o).

(** Of the flags that arithmetic sets, the code tests the zero flag only. *)
Definition FL_ZF : Z := 0x40.
Definition zf (s : x86) : bool := negb (Z.land (eflags s) FL_ZF =? 0).
Definition set_zf (b : bool) (s : x86) : x86 :=
  set_eflags (if b then Z.lor (eflags s) FL_ZF else Z.land (eflags s) (Z.lnot FL_ZF)) s.

(** The low half of %eax. *)
Definition set_ax (v : Z) (s : x86) : x86 :=
  set_reg EAX (2 ^ 16 * (regs s EAX / 2 ^ 16) + u16 v) s.
Definition set_al (v : Z) (s : x86) : x86 :=
  set_reg EAX (2 ^ 8 * (regs s EAX / 2 ^ 8) + u8 v) s.

Definition push32 (v : Z) (s : x86) : x86 :=
  let sp := u32 (regs s ESP - 4) in
  set_ram (store32 sp v) (set_reg ESP sp s).
Definition top (s : x86) : Z := load32 (ram s) (regs s ESP).
Definition drop4 (n : Z) (s : x86) : x86 := set_reg ESP (regs s ESP + n) s.

(** ** Instructions *)

Inductive operand :=
  | R (r : reg)
  | Imm (v : Z)
  | Mem (base : option reg) (disp : Z).

Definition address (base : option reg) (disp : Z) (s : x86) : Z :=
  u32 (match base with Some r => regs s r + disp | None => disp end).

Definition value (o : operand) (s : x86) : Z :=
  match o with
  | R r => regs s r
  | Imm v => u32 v
  | Mem base disp => load32 (ram s) (address base disp s)
  end.

(** The operands are in the order of the assembler: the source first. [Call]
    names the place that it returns to. *)
Inductive instr :=
  | Movl (src dst : operand)
  | Movw (v : Z)
  | Movw_sreg (dst : sreg)
  | Movw_dx
  | Xorw_ax
  | Movb (v : Z)
  | Mov_from_cr (src : creg) (dst : reg)
  | Mov_to_cr (src : reg) (dst : creg)
  | Orl (v : Z) (dst : reg)
  | Addl (v : Z) (dst : reg)
  | Pushl (src : operand)
  | Pushl_sreg (src : sreg)
  | Pushal
  | Popl (dst : reg)
  | Popl_sreg (dst : sreg)
  | Popal
  | Cli
  | Inb (port : Z)
  | Outb (port : Z)
  | Outw
  | Testb (v : Z)
  | Jnz (l : string)
  | Jmp (l : string)
  | Jmp_ind (src : operand)
  | Ljmp (sel : Z) (l : string)
  | Call (l : string) (back : string)
  | Call_ind (src : operand) (back : string)
  | Lgdt (limit base : Z)
  | Int (n : Z) (back : string)
  | Ret
  | Iret.

(** What an instruction leads to: the next one, a label, or an address outside
    the file; [Trap] is a software interrupt, with the address after it. *)
Inductive next :=
  | Fall (s : x86)
  | Goto (l : string) (s : x86)
  | Leave (a : Z) (s : x86)
  | Trap (n back : Z) (s : x86)
  | Hang.

Definition pushal (s : x86) : x86 :=
  let sp := regs s ESP in
  push32 (regs s EDI) (push32 (regs s ESI) (push32 (regs s EBP) (push32 sp
    (push32 (regs s EBX) (push32 (regs s EDX) (push32 (regs s ECX) (push32 (regs s EAX) s))))))).

Definition pop32 (r : reg) (s : x86) : x86 := let v := top s in set_reg r v (drop4 4 s).
Definition pop_sreg (r : sreg) (s : x86) : x86 := let v := top s in set_seg r v (drop4 4 s).

(** The saved stack pointer is skipped. *)
Definition popal (s : x86) : x86 :=
  pop32 EAX (pop32 ECX (pop32 EDX (pop32 EBX (drop4 4 (pop32 EBP (pop32 ESI (pop32 EDI s))))))).

(** Return from an interrupt: the stack pointer and segment are popped when
    the code segment returned to is less privileged. *)
Definition iret (s : x86) : next :=
  let eip := top s in
  let s := drop4 4 s in
  let cs := u16 (top s) in
  let cpl := Z.land (segs s CS) 3 in
  let s := drop4 4 s in
  let fl := top s in
  let s := set_eflags fl (drop4 4 s) in
  if Z.land cs 3 =? cpl then Leave eip (set_seg CS cs s) else
  let sp := top s in
  let s := drop4 4 s in
  let ss := u16 (top s) in
  Leave eip (set_reg ESP sp (set_seg SS ss (set_seg CS cs s))).

(** The exceptions for which the processor pushes an error code. *)
Definition error_code (n : Z) : bool := existsb (Z.eqb n) [8; 10; 11; 12; 13; 14; 17].

Definition gate_offset (g : gatedesc) : Z := off_15_0 g + 2 ^ 16 * off_31_16 g.

(** The processor takes trap [n] through its gate: from user mode to the stack
    of the kernel, with interrupts off unless it is a trap gate. *)
Definition deliver (g : gatedesc) (n back err : Z) (s : x86) : next :=
  let s1 := if Z.land (segs s CS) 3 =? 3
            then push32 (regs s ESP) (push32 (segs s SS) (set_seg SS (snd (tss s)) (set_reg ESP (fst (tss s)) s)))
            else s in
  let s2 := push32 back (push32 (segs s CS) (push32 (eflags s) s1)) in
  let s3 := if error_code n then push32 err s2 else s2 in
  let s4 := if gd_type g =? STS_IG32 then set_eflags (Z.land (eflags s) (Z.lnot FL_IF)) s3 else s3 in
  Leave (gate_offset g) (set_seg CS (gd_cs g) s4).

Section exec.
(** The addresses that the linker gives to the symbols. *)
Variable sym : string -> Z.

Definition step (i : instr) (s : x86) : next :=
  match i with
  | Movl src (R r) => Fall (set_reg r (value src s) s)
  | Movl src (Mem base disp) => Fall (set_ram (store32 (address base disp s) (value src s)) s)
  | Movl _ (Imm _) => Hang
  | Movw v => Fall (set_ax v s)
  | Movw_sreg dst => Fall (set_seg dst (regs s EAX) s)
  | Movw_dx => Fall (set_reg EDX (2 ^ 16 * (regs s EDX / 2 ^ 16) + u16 (regs s EAX)) s)
  | Xorw_ax => Fall (set_zf true (set_ax 0 s))
  | Movb v => Fall (set_al v s)
  | Mov_from_cr src dst => Fall (set_reg dst (crs s src) s)
  | Mov_to_cr src dst => Fall (set_cr dst (regs s src) s)
  | Orl v dst => Fall (set_zf (u32 (Z.lor (regs s dst) v) =? 0) (set_reg dst (Z.lor (regs s dst) v) s))
  | Addl v dst => Fall (set_zf (u32 (regs s dst + v) =? 0) (set_reg dst (regs s dst + v) s))
  | Pushl src => Fall (push32 (value src s) s)
  | Pushl_sreg src => Fall (push32 (segs s src) s)
  | Pushal => Fall (pushal s)
  | Popl dst => Fall (pop32 dst s)
  | Popl_sreg dst => Fall (pop_sreg dst s)
  | Popal => Fall (popal s)
  | Cli => Fall (set_eflags (Z.land (eflags s) (Z.lnot FL_IF)) s)
  | Inb port => match ins s with [] => Hang | v :: l => Fall (set_ins l (set_al v s)) end
  | Outb port => Fall (out port (u8 (regs s EAX)) s)
  | Outw => Fall (out (u16 (regs s EDX)) (u16 (regs s EAX)) s)
  | Testb v => Fall (set_zf (Z.land (u8 (regs s EAX)) v =? 0) s)
  | Jnz l => if zf s then Fall s else Goto l s
  | Jmp l => Goto l s
  | Jmp_ind src => Leave (value src s) s
  | Ljmp sel l => Goto l (set_seg CS sel s)
  | Call l back => Goto l (push32 (sym back) s)
  | Call_ind src back => let a := value src s in Leave a (push32 (sym back) s)
  | Lgdt limit base => Fall (set_gdtr (limit, base) s)
  | Int n back => Trap n (sym back) s
  | Ret => Leave (top s) (drop4 4 s)
  | Iret => iret s
  end.

(** A file: its labels in order, each with the instructions up to the next. *)
Definition code := list (string * list instr).

Fixpoint from (l : string) (c : code) : option (list instr) :=
  match c with
  | [] => None
  | (l', body) :: c' => if String.eqb l l' then Some (body ++ concat (map snd c')) else from l c'
  end.

(** A jump to a label that is not in the file leaves it. *)
Fixpoint exec (fuel : nat) (c : code) (body : list instr) (s : x86) : next :=
  match fuel, body with
  | S fuel, i :: body =>
      match step i s with
      | Fall s => exec fuel c body s
      | Goto l s => match from l c with Some body => exec fuel c body s | None => Leave (sym l) s end
      | n => n
      end
  | _, _ => Hang
  end.

Definition start_at (fuel : nat) (c : code) (l : string) (s : x86) : next :=
  match from l c with Some body => exec fuel c body s | None => Hang end.
End exec.

(** ** The files *)

(** swtch.S *)
Definition swtch_S : code :=
  [("swtch"%string,
    [Movl (Mem (Some ESP) 4) (R EAX);
     Movl (Mem (Some ESP) 8) (R EDX);
     Pushl (R EBP);
     Pushl (R EBX);
     Pushl (R ESI);
     Pushl (R EDI);
     Movl (R ESP) (Mem (Some EAX) 0);
     Movl (R EDX) (R ESP);
     Popl EDI;
     Popl ESI;
     Popl EBX;
     Popl EBP;
     Ret])].

(** trapasm.S; the call of [trap] returns to the label after it. *)
Definition trapasm_S : code :=
  [("alltraps",
    [Pushl_sreg DS;
     Pushl_sreg ES;
     Pushl_sreg FS;
     Pushl_sreg GS;
     Pushal;
     Movw (Z.shiftl SEG_KDATA 3);
     Movw_sreg DS;
     Movw_sreg ES;
     Pushl (R ESP);
     Call "trap" "alltraps_ret"]);
   ("alltraps_ret", [Addl 4 ESP]);
   ("trapret",
    [Popal;
     Popl_sreg GS;
     Popl_sreg FS;
     Popl_sreg ES;
     Popl_sreg DS;
     Addl 8 ESP;
     Iret])]%string.

(** The handler that vectors.pl prints for trap [i]. *)
Definition vector (i : Z) : list instr :=
  (if negb ((i =? 8) || ((10 <=? i) && (i <=? 14)) || (i =? 17)) then [Pushl (Imm 0)] else []) ++
  [Pushl (Imm i); Jmp "alltraps"].

(** asm.h *)
Definition SEG_NULLASM : list Z := [0; 0; 0; 0; 0; 0; 0; 0].

Definition word (v : Z) : list Z := [u8 v; u8 (v / 2 ^ 8)].

Definition SEG_ASM (type base lim : Z) : list Z :=
  word (Z.land (Z.shiftr lim 12) 0xffff) ++ word (Z.land base 0xffff) ++
  [Z.land (Z.shiftr base 16) 0xff; Z.lor 0x90 type;
   Z.lor 0xC0 (Z.land (Z.shiftr lim 28) 0xf); Z.land (Z.shiftr base 24) 0xff].

Definition CR0_PE : Z := 0x1.
Definition CR0_WP : Z := 0x10000.
Definition CR0_PG : Z := 0x80000000.
Definition CR4_PSE : Z := 0x10.

Section files.
Variable sym : string -> Z.

(** The bootstrap GDT of bootasm.S and entryother.S. *)
Definition gdt_asm : list Z :=
  SEG_NULLASM ++ SEG_ASM (Z.lor STA_X STA_R) 0 0xffffffff ++ SEG_ASM STA_W 0 0xffffffff.
Definition lgdt_gdtdesc : instr := Lgdt (Z.of_nat (length gdt_asm) - 1) (sym "gdt").

(** sign.pl: the boot code becomes a sector of the disk, if it fits with the
    two bytes by which the BIOS knows a boot sector. *)
Definition sign (file : list Z) : option (list Z) :=
  let buf := take 1000 file in
  let n := length buf in
  if (510 <? n)%nat then None else Some (buf ++ replicate (510 - n) 0 ++ [0x55; 0xAA]).

(** bootasm.S *)
Definition bootasm_S : code :=
  [("start",
    [Cli;
     Xorw_ax;
     Movw_sreg DS;
     Movw_sreg ES;
     Movw_sreg SS]);
   ("seta20.1",
    [Inb 0x64;
     Testb 0x2;
     Jnz "seta20.1";
     Movb 0xd1;
     Outb 0x64]);
   ("seta20.2",
    [Inb 0x64;
     Testb 0x2;
     Jnz "seta20.2";
     Movb 0xdf;
     Outb 0x60;
     lgdt_gdtdesc;
     Mov_from_cr CR0 EAX;
     Orl CR0_PE EAX;
     Mov_to_cr EAX CR0;
     Ljmp (Z.shiftl SEG_KCODE 3) "start32"]);
   ("start32",
    [Movw (Z.shiftl SEG_KDATA 3);
     Movw_sreg DS;
     Movw_sreg ES;
     Movw_sreg SS;
     Movw 0;
     Movw_sreg FS;
     Movw_sreg GS;
     Movl (Imm (sym "start")) (R ESP);
     Call "bootmain" "bootmain_ret"]);
   ("bootmain_ret",
    [Movw 0x8a00;
     Movw_dx;
     Outw;
     Movw 0x8ae0;
     Outw]);
   ("spin", [Jmp "spin"])]%string.

(** entry.S *)
Definition entry_S : code :=
  [("entry",
    [Mov_from_cr CR4 EAX;
     Orl CR4_PSE EAX;
     Mov_to_cr EAX CR4;
     Movl (Imm (sym "entrypgdir" - KERNBASE)) (R EAX);
     Mov_to_cr EAX CR3;
     Mov_from_cr CR0 EAX;
     Orl (Z.lor CR0_PG CR0_WP) EAX;
     Mov_to_cr EAX CR0;
     Movl (Imm (sym "stack" + KSTACKSIZE)) (R ESP);
     Movl (Imm (sym "main")) (R EAX);
     Jmp_ind (R EAX)])]%string.

(** entryother.S *)
Definition entryother_S : code :=
  [("start",
    [Cli;
     Xorw_ax;
     Movw_sreg DS;
     Movw_sreg ES;
     Movw_sreg SS;
     lgdt_gdtdesc;
     Mov_from_cr CR0 EAX;
     Orl CR0_PE EAX;
     Mov_to_cr EAX CR0;
     Ljmp (Z.shiftl SEG_KCODE 3) "start32"]);
   ("start32",
    [Movw (Z.shiftl SEG_KDATA 3);
     Movw_sreg DS;
     Movw_sreg ES;
     Movw_sreg SS;
     Movw 0;
     Movw_sreg FS;
     Movw_sreg GS;
     Mov_from_cr CR4 EAX;
     Orl CR4_PSE EAX;
     Mov_to_cr EAX CR4;
     Movl (Mem None (sym "start" - 12)) (R EAX);
     Mov_to_cr EAX CR3;
     Mov_from_cr CR0 EAX;
     Orl (Z.lor (Z.lor CR0_PE CR0_PG) CR0_WP) EAX;
     Mov_to_cr EAX CR0;
     Movl (Mem None (sym "start" - 4)) (R ESP);
     Call_ind (Mem None (sym "start" - 8)) "mpenter_ret"]);
   ("mpenter_ret",
    [Movw 0x8a00;
     Movw_dx;
     Outw;
     Movw 0x8ae0;
     Outw]);
   ("spin", [Jmp "spin"])]%string.

(** initcode.S: the code, and the data after it. *)
Definition initcode_S : code :=
  [("start",
    [Pushl (Imm (sym "argv"));
     Pushl (Imm (sym "init"));
     Pushl (Imm 0);
     Movl (Imm 7) (R EAX);
     Int T_SYSCALL "exit"]);
   ("exit",
    [Movl (Imm 2) (R EAX);
     Int T_SYSCALL "exit_ret"]);
   ("exit_ret", [Jmp "exit"])]%string.

Definition initcode_init : list Z := chars "/init" ++ [0; 0].
Definition initcode_argv : list Z := [sym "init"; 0].
End files.

(** The page directory the kernel starts with (main.c): 4 Mbyte pages. *)
Definition PTE_PS : Z := 0x80.
Definition entrypgdir : list Z :=
  <[Z.to_nat (Z.shiftr KERNBASE PDXSHIFT) := Z.lor (Z.lor (Z.lor 0 PTE_P) PTE_W) PTE_PS]>
    (<[0%nat := Z.lor (Z.lor (Z.lor 0 PTE_P) PTE_W) PTE_PS]> (repeat 0 NPDENTRIES)).

(** ** Running the code *)

(** Registers hold their width. *)
Record x86_ok (s : x86) : Prop := {
  ok_regs r : 0 <= regs s r < 2 ^ 32;
  ok_segs r : 0 <= segs s r < 2 ^ 16;
  ok_crs r : 0 <= crs s r < 2 ^ 32;
  ok_eflags : 0 <= eflags s < 2 ^ 32;
  ok_ram : mem_ok (ram s);
}.

(** Runs the code on a state whose registers are known. *)
Ltac xproj := cbn [regs segs crs get_gpr get_sel get_ctl gprs sels ctls eflags gdt_reg tss ram ins outs
  g_eax g_ecx g_edx g_ebx g_esp g_ebp g_esi g_edi s_cs s_ds s_es s_fs s_gs s_ss c_cr0 c_cr3 c_cr4] in *.
Ltac xrun := cbv beta iota zeta delta [start_at exec step from value address top drop4 pop32 pop_sreg push32 pushal popal iret
  regs segs crs get_gpr get_sel get_ctl set_reg set_seg set_cr set_eflags set_zf zf set_gdtr set_ram set_ins out set_ax set_al
  put_gpr put_sel put_ctl gprs sels ctls eflags gdt_reg tss ram ins outs
  g_eax g_ecx g_edx g_ebx g_esp g_ebp g_esi g_edi s_cs s_ds s_es s_fs s_gs s_ss c_cr0 c_cr3 c_cr4
  swtch_S trapasm_S bootasm_S entry_S entryother_S initcode_S lgdt_gdtdesc String.eqb Ascii.eqb Bool.eqb map concat app snd fst].

Lemma u16_small x : 0 <= x < 2 ^ 16 -> u16 x = x.
Proof. apply Z.mod_small. Qed.

Lemma store32_eq a a' v v' m m' : a = a' -> v = v' -> m = m' -> store32 a v m = store32 a' v' m'.
Proof. by intros -> -> ->. Qed.

Lemma ax_low a v : 0 <= v < 2 ^ 16 -> u16 (u32 (2 ^ 16 * (a / 2 ^ 16) + u16 v)) = v.
Proof.
  intros Hv. rewrite (u16_small v) by done. unfold u16, u32. change (2 ^ 32) with (2 ^ 16 * 2 ^ 16).
  rewrite Z.rem_mul_r, (Z.mul_comm (2 ^ 16) (_ mod _)), Z.mod_add, Z.mod_mod by done.
  rewrite Z.add_comm, Z.mul_comm, Z.mod_add by done. by apply Z.mod_small.
Qed.

(** Sums that stay inside 32 bits. *)
Ltac usmall :=
  repeat match goal with
    | |- context [u32 ?x] => lazymatch x with context [u32 _] => fail | _ => rewrite (u32_small x) by lia end
    | |- context [u16 ?x] => lazymatch x with context [u16 _] => fail | _ => rewrite (u16_small x) by lia end
    end.

Ltac usum :=
  repeat match goal with |- context [u32 (?a + ?b)] =>
    lazymatch a with context [u32 _] => fail | _ => rewrite (u32_small (a + b)) by lia end end.
Ltac consts :=
  repeat match goal with |- context [Zpos ?a + Zpos ?b] =>
    let c := eval vm_compute in (Zpos a + Zpos b) in change (Zpos a + Zpos b) with c end.

(** Words on a stack whose places are known. *)
Ltac loads := repeat first [rewrite load32_store32 | rewrite load32_store32_ne by lia].

(** ** swtch *)

Section swtch.
Variable sym : string -> Z.

(** The registers of struct context, and the address it resumes at. *)
Record saved (m : memory) (ctx : Z) (s : x86) (eip : Z) : Prop := {
  sv_edi : load32 m ctx = regs s EDI;
  sv_esi : load32 m (ctx + 4) = regs s ESI;
  sv_ebx : load32 m (ctx + 8) = regs s EBX;
  sv_ebp : load32 m (ctx + 12) = regs s EBP;
  sv_eip : load32 m (ctx + CTX_EIP) = eip;
}.

(** A call of [swtch(old, new)]: the return address and the arguments are on
    the stack, with room below; [old] is not on the part that is written. *)
Record swtch_call (s : x86) (old new : Z) : Prop := {
  sc_ok : x86_ok s;
  sc_room : 16 <= regs s ESP /\ regs s ESP + 12 <= 2 ^ 32;
  sc_old : load32 (ram s) (regs s ESP + 4) = old;
  sc_new : load32 (ram s) (regs s ESP + 8) = new;
  sc_fits : old + 4 <= 2 ^ 32 /\ new + sizeof_context < 2 ^ 32;
  sc_apart : old + 4 <= regs s ESP - 16 \/ regs s ESP + 4 <= old;
}.

Definition swtch_ram (s : x86) (old : Z) : memory :=
  let sp := regs s ESP in
  store32 old (sp - 16) (store32 (sp - 16) (regs s EDI) (store32 (sp - 12) (regs s ESI)
    (store32 (sp - 8) (regs s EBX) (store32 (sp - 4) (regs s EBP) (ram s))))).

Lemma swtch_run s old new :
  swtch_call s old new ->
  let m := swtch_ram s old in
  start_at sym 13 swtch_S "swtch" s =
    Leave (load32 m (new + CTX_EIP))
      (X86 (Gpr old (regs s ECX) new (load32 m (new + 8)) (new + sizeof_context) (load32 m (new + 12)) (load32 m (new + 4)) (load32 m new))
         (sels s) (ctls s) (eflags s) (gdt_reg s) (tss s) m (ins s) (outs s)).
Proof.
  intros [Hok [Hr1 Hr2] Ho Hn [Hf1 Hf2] _]. unfold sizeof_context, CTX_EIP in *. pose proof (ok_ram s Hok) as Hr. clear Hok.
  destruct s as [[a c d b sp bp si di] sl cl fl gd ts r i o]. unfold swtch_ram. xproj.
  pose proof (load32_range _ (sp + 4) Hr) as Bo. pose proof (load32_range _ (sp + 8) Hr) as Bn. rewrite Ho in Bo. rewrite Hn in Bn.
  xrun. rewrite (u32_small (sp + 4)), (u32_small (sp + 8)), Ho, Hn by lia. rewrite Z.add_0_r. usmall.
  replace (sp - 4 - 4) with (sp - 8) by lia. replace (sp - 8 - 4) with (sp - 12) by lia. replace (sp - 12 - 4) with (sp - 16) by lia.
  replace (new + 4 + 4) with (new + 8) by lia. replace (new + 8 + 4) with (new + 12) by lia.
  replace (new + 12 + 4) with (new + 16) by lia. replace (new + 16 + 4) with (new + 20) by lia.
  set (m := store32 old _ _). assert (mem_ok m) as Hm by (unfold m; do 5 apply store32_ok; done).
  rewrite !(u32_small (load32 m _)) by (by apply load32_range). done.
Qed.

Lemma swtch_saves s old new :
  swtch_call s old new ->
  let m := swtch_ram s old in
  let sp := regs s ESP in
  load32 m old = sp - 16 /\ saved m (sp - 16) s (load32 (ram s) sp) /\
  forall x, x < sp - 16 \/ sp <= x -> x < old \/ old + 4 <= x -> m x = ram s x.
Proof.
  intros [Hok [Hr1 Hr2] Ho Hn [Hf1 Hf2] Hap] m sp. fold sp in Hr1, Hr2, Hap. pose proof (fun r => ok_regs s Hok r) as Hreg.
  unfold m, swtch_ram. fold sp. split_and!.
  - rewrite load32_store32. apply u32_small. lia.
  - replace (sp - 12) with (sp - 16 + 4) by lia. replace (sp - 8) with (sp - 16 + 8) by lia. replace (sp - 4) with (sp - 16 + 12) by lia.
    split; unfold CTX_EIP; loads; try (apply u32_small, Hreg). by rewrite Z.sub_add.
  - intros x H1 H2. rewrite !store32_other by lia. done.
Qed.

(** C13: [swtch(old, new)] stores the callee-saved registers and the return
    address of its caller as a struct context whose address it puts in [*old],
    writes nothing else, and goes on at the saved address of [new] with the
    registers and the stack saved there. When any other thread, which has left
    that context as it is, later calls [swtch] with it as [new], the first
    call returns: to its caller, with the caller's registers and stack. *)
Theorem swtch_roundtrip s old new :
  swtch_call s old new ->
  let sp := regs s ESP in
  exists e s', start_at sym 13 swtch_S "swtch" s = Leave e s' /\
    load32 (ram s') old = sp - 16 /\ saved (ram s') (sp - 16) s (load32 (ram s) sp) /\
    saved (ram s') new s' e /\ regs s' ESP = new + sizeof_context /\
    (forall x, x < sp - 16 \/ sp <= x -> x < old \/ old + 4 <= x -> ram s' x = ram s x) /\
    (forall t old', swtch_call t old' (sp - 16) ->
       (forall x, sp - 16 <= x < sp + 4 -> ram t x = ram s' x) ->
       regs t ESP <= sp - 16 \/ sp + 20 <= regs t ESP -> old' + 4 <= sp - 16 \/ sp + 4 <= old' ->
       exists t', start_at sym 13 swtch_S "swtch" t = Leave (load32 (ram s) sp) t' /\
         regs t' ESP = sp + 4 /\ (forall r, r ∈ [EBX; ESI; EDI; EBP] -> regs t' r = regs s r)).
Proof.
  intros Hc sp. pose proof (swtch_run s old new Hc) as Hrun. destruct (swtch_saves s old new Hc) as (Hold & Hsv & Hout).
  fold sp in Hold, Hsv, Hout. set (m := swtch_ram s old) in *. destruct Hc as [Hok [Hr1 Hr2] _ _ [Hf1 Hf2] Hap]. fold sp in Hr1, Hr2, Hap.
  eexists _, _. split; [exact Hrun|]. cbn [ram]. split_and!; try done.
  intros t old' Ht Hkeep Hst Ho'. pose proof (swtch_run t old' (sp - 16) Ht) as Hrun'.
  destruct (swtch_saves t old' (sp - 16) Ht) as (_ & _ & Hout'). set (m' := swtch_ram t old') in *.
  assert (forall a, sp - 16 <= a <= sp -> load32 m' a = load32 m a) as Hsame.
  { intros a Ha. apply load32_ext. intros x Hx. rewrite Hout' by lia. apply Hkeep. lia. }
  unfold CTX_EIP, sizeof_context in *. destruct Hsv as [V1 V2 V3 V4 V5]. unfold CTX_EIP in V5.
  rewrite <- (Hsame (sp - 16)) in V1 by (clear; lia). rewrite <- (Hsame (sp - 16 + 4)) in V2 by (clear; lia).
  rewrite <- (Hsame (sp - 16 + 8)) in V3 by (clear; lia). rewrite <- (Hsame (sp - 16 + 12)) in V4 by (clear; lia).
  rewrite <- (Hsame (sp - 16 + 16)) in V5 by (clear; lia). rewrite V1, V2, V3, V4, V5 in Hrun'.
  eexists. split; [exact Hrun'|]. split; [cbn; lia|].
  intros r Hr. rewrite !list.elem_of_cons, list.elem_of_nil in Hr. by destruct Hr as [->|[->|[->|[->|[]]]]].
Qed.
End swtch.

(** ** Traps *)

(** Words pushed below [k], in order, and words that lie at [a]. *)
Fixpoint push_words (k : Z) (l : list Z) (m : memory) : memory :=
  match l with
  | [] => m
  | w :: l => push_words (k - 4) l (store32 (k - 4) w m)
  end.

Definition words (m : memory) (a : Z) (l : list Z) : Prop :=
  forall i w, l !! i = Some w -> load32 m (a + 4 * Z.of_nat i) = w.

Lemma push_words_out k l m x : x < k - 4 * Z.of_nat (length l) \/ k <= x -> push_words k l m x = m x.
Proof.
  revert k m. induction l as [|w l IH]; intros k m Hx; [done|]. cbn [push_words length] in *.
  rewrite IH by lia. apply store32_other. lia.
Qed.

Lemma push_words_load k l m i w :
  l !! i = Some w -> load32 (push_words k l m) (k - 4 * (Z.of_nat i + 1)) = u32 w.
Proof.
  revert k m i. induction l as [|v l IH]; intros k m i; [done|]. destruct i as [|i]; cbn [push_words lookup list_lookup].
  - intros [= ->]. rewrite (load32_ext _ (store32 (k - 4) w m)).
    + replace (k - 4 * (Z.of_nat 0 + 1)) with (k - 4) by lia. apply load32_store32.
    + intros x Hx. apply push_words_out. lia.
  - intros Hi. rewrite <- (IH (k - 4) (store32 (k - 4) v m) i Hi). f_equal. lia.
Qed.

(** What has been pushed is read from the top of the stack on. *)
Lemma push_words_words k l m :
  Forall (fun w => 0 <= w < 2 ^ 32) l -> words (push_words k l m) (k - 4 * Z.of_nat (length l)) (reverse l).
Proof.
  intros Hl i w Hi. apply reverse_lookup_Some in Hi as [Hi' Hlt].
  rewrite <- (u32_small w) by (by apply (list.Forall_lookup_1 _ _ _ _ Hl Hi')).
  rewrite <- (push_words_load k l m _ w Hi'). f_equal. lia.
Qed.

(** The words of struct trapframe. *)
Definition frame_words (g : gpr) (sl : sel) (oesp trapno err eip fl : Z) : list Z :=
  [g_edi g; g_esi g; g_ebp g; oesp; g_ebx g; g_edx g; g_ecx g; g_eax g;
   s_gs sl; s_fs sl; s_es sl; s_ds sl; trapno; err; eip; s_cs sl; fl; g_esp g; s_ss sl].

(** vectors.pl pushes a zero where the processor pushes no error code. *)
Lemma vector_eq n : vector n = (if error_code n then [] else [Pushl (Imm 0)]) ++ [Pushl (Imm n); Jmp "alltraps"].
Proof.
  unfold vector, error_code. cbn [existsb]. f_equal.
  destruct (Z.eqb_spec n 8), (Z.eqb_spec n 17), (Z.leb_spec 10 n), (Z.leb_spec n 14), (Z.eqb_spec n 10), (Z.eqb_spec n 11),
    (Z.eqb_spec n 12), (Z.eqb_spec n 13), (Z.eqb_spec n 14); cbn; done || lia.
Qed.

Lemma exec_Fall sym n c i body s s' : step sym i s = Fall s' -> exec sym (S n) c (i :: body) s = exec sym n c body s'.
Proof. intros E. cbn [exec]. by rewrite E. Qed.

Lemma exec_Leave sym n c i body s a s' : step sym i s = Leave a s' -> exec sym (S n) c (i :: body) s = Leave a s'.
Proof. intros E. cbn [exec]. by rewrite E. Qed.

Lemma exec_Goto sym n c i body l body' s s' :
  step sym i s = Goto l s' -> from l c = Some body' -> exec sym (S n) c (i :: body) s = exec sym n c body' s'.
Proof. intros E F. cbn [exec]. by rewrite E, F. Qed.

Lemma exec_out sym n c i body l s s' :
  step sym i s = Goto l s' -> from l c = None -> exec sym (S n) c (i :: body) s = Leave (sym l) s'.
Proof. intros E F. cbn [exec]. by rewrite E, F. Qed.

Section traps.
Variable sym : string -> Z.

(** What [trap] finds below the top [k] of the kernel stack. *)
Definition trap_words (s : x86) (k n e eip : Z) : list Z :=
  [segs s SS; regs s ESP; eflags s; segs s CS; eip; e; n; segs s DS; segs s ES; segs s FS; segs s GS;
   regs s EAX; regs s ECX; regs s EDX; regs s EBX; k - 44; regs s EBP; regs s ESI; regs s EDI;
   k - 76; sym "alltraps_ret"].

Lemma trap_run g n err eip s :
  x86_ok s -> Z.land (segs s CS) 3 = 3 -> 84 <= fst (tss s) < 2 ^ 32 -> 0 <= n < 256 ->
  exists s1 s2, deliver g n eip err s = Leave (gate_offset g) s1 /\
    exec sym 14 trapasm_S (vector n) s1 = Leave (sym "trap") s2 /\
    regs s2 ESP = fst (tss s) - 84 /\ segs s2 CS = u16 (gd_cs g) /\
    segs s2 DS = Z.shiftl SEG_KDATA 3 /\ segs s2 ES = Z.shiftl SEG_KDATA 3 /\
    ram s2 = push_words (fst (tss s)) (trap_words s (fst (tss s)) n (if error_code n then err else 0) eip) (ram s).
Proof.
  intros Hok Hcpl Hk Hn. unfold deliver. rewrite Hcpl, vector_eq. change (3 =? 3) with true.
  destruct s as [[a c d b sp bp si di] [cs ds es fs gs ss] cl fl gd [k ss0] r i o]. xproj. cbn [fst snd] in *. unfold trap_words. xproj.
  destruct (error_code n), (gd_type g =? STS_IG32); eexists _, _; (split; [reflexivity|]); (split; [xrun; reflexivity|]); xproj.
  all: clear Hok; rewrite !ax_low by done; usmall.
  all: split_and!; [lia | done | done | done|]; cbn [push_words]; repeat (apply store32_eq; [lia | lia|]); reflexivity.
Qed.

(** The registers that a trap frame says. *)
Lemma popal_eq t di si bp oesp b d c a :
  words (ram t) (regs t ESP) [di; si; bp; oesp; b; d; c; a] -> 0 <= regs t ESP -> regs t ESP + 32 < 2 ^ 32 ->
  Forall (fun w => 0 <= w < 2 ^ 32) [di; si; bp; b; d; c; a] ->
  popal t = X86 (Gpr a c d b (regs t ESP + 32) bp si di) (sels t) (ctls t) (eflags t) (gdt_reg t) (tss t) (ram t) (ins t) (outs t).
Proof.
  intros Hw H0 Hsp Hr. destruct t as [[a' c' d' b' k bp' si' di'] sl cl fl' gd ts m i o]. xproj.
  xrun. usum. rewrite <- !Z.add_assoc. consts.
  pose proof (Hw 0%nat _ eq_refl) as L0. rewrite Z.mul_0_r, Z.add_0_r in L0.
  pose proof (Hw 1%nat _ eq_refl : load32 m (k + 4) = _) as L1. pose proof (Hw 2%nat _ eq_refl : load32 m (k + 8) = _) as L2.
  pose proof (Hw 4%nat _ eq_refl : load32 m (k + 16) = _) as L4. pose proof (Hw 5%nat _ eq_refl : load32 m (k + 20) = _) as L5.
  pose proof (Hw 6%nat _ eq_refl : load32 m (k + 24) = _) as L6. pose proof (Hw 7%nat _ eq_refl : load32 m (k + 28) = _) as L7.
  rewrite L0, L1, L2, L4, L5, L6, L7. rewrite !list.Forall_cons in Hr. destruct Hr as (? & ? & ? & ? & ? & ? & ? & _).
  by rewrite !u32_small by done.
Qed.

Lemma words_drop m a l n : words m a l -> words m (a + 4 * Z.of_nat n) (drop n l).
Proof. intros Hw i w Hi. rewrite lookup_drop in Hi. rewrite <- (Hw _ _ Hi). f_equal. lia. Qed.

Lemma words_take m a l n : words m a l -> words m a (take n l).
Proof. intros Hw i w Hi. apply lookup_take_Some in Hi as [Hi _]. by apply Hw. Qed.

Lemma trapret_run t g sl oesp n e eip fl :
  words (ram t) (regs t ESP) (frame_words g sl oesp n e eip fl) ->
  0 <= regs t ESP -> regs t ESP + sizeof_trapframe < 2 ^ 32 -> Z.land (segs t CS) 3 = 0 -> Z.land (s_cs sl) 3 = 3 ->
  (forall r, 0 <= get_gpr r g < 2 ^ 32) -> (forall r, 0 <= get_sel r sl < 2 ^ 16) -> 0 <= fl < 2 ^ 32 ->
  start_at sym 8 trapasm_S "trapret" t =
    Leave eip (X86 g sl (ctls t) fl (gdt_reg t) (tss t) (ram t) (ins t) (outs t)).
Proof.
  intros Hw H0 Hsp Hk Hu Hg Hs Hfl. unfold sizeof_trapframe in *.
  unfold start_at. change (from "trapret" trapasm_S) with (Some [Popal; Popl_sreg GS; Popl_sreg FS; Popl_sreg ES; Popl_sreg DS; Addl 8 ESP; Iret]).
  cbv iota. rewrite (exec_Fall _ _ _ Popal _ _ (popal t)) by done.
  destruct g as [a c d b sp bp si di], sl as [cs ds es fs gs ss]. unfold frame_words in Hw. xproj.
  rewrite (popal_eq t di si bp oesp b d c a); [|exact (words_take _ _ _ 8 Hw) | done | xproj; lia|].
  2:{ repeat (apply list.Forall_cons; split; [first [exact (Hg EAX) | exact (Hg ECX) | exact (Hg EDX) | exact (Hg EBX) | exact (Hg EBP) | exact (Hg ESI) | exact (Hg EDI)]|]).
      constructor. }
  apply (words_drop _ _ _ 8) in Hw. change (4 * Z.of_nat 8) with 32 in Hw. cbn [drop] in Hw.
  destruct t as [[a' c' d' b' k0 bp' si' di'] [cs' ds' es' fs' gs' ss'] cl fl' gd ts m i o]. xproj.
  assert (0 <= k0 + 32 /\ k0 + 32 + 44 < 2 ^ 32) as [H0' Hsp'] by lia. clear H0 Hsp. set (k := k0 + 32) in *. clearbody k.
  pose proof (Hw 0%nat _ eq_refl) as L0. rewrite Z.mul_0_r, Z.add_0_r in L0.
  pose proof (Hw 1%nat _ eq_refl : load32 m (k + 4) = _) as L1. pose proof (Hw 2%nat _ eq_refl : load32 m (k + 8) = _) as L2.
  pose proof (Hw 3%nat _ eq_refl : load32 m (k + 12) = _) as L3. pose proof (Hw 6%nat _ eq_refl : load32 m (k + 24) = _) as L6.
  pose proof (Hw 7%nat _ eq_refl : load32 m (k + 28) = _) as L7. pose proof (Hw 8%nat _ eq_refl : load32 m (k + 32) = _) as L8.
  pose proof (Hw 9%nat _ eq_refl : load32 m (k + 36) = _) as L9. pose proof (Hw 10%nat _ eq_refl : load32 m (k + 40) = _) as L10. clear Hw.
  pose proof (Hs CS) as Bcs. pose proof (Hs DS) as Bds. pose proof (Hs ES) as Bes. pose proof (Hs FS) as Bfs. pose proof (Hs GS) as Bgs.
  pose proof (Hs SS) as Bss. pose proof (Hg ESP) as Bsp. xproj. clear Hg Hs.
  do 5 (erewrite exec_Fall; [|xrun; usum; rewrite ?L0, ?L1, ?L2, ?L3, ?u16_small by done; rewrite <- ?Z.add_assoc; consts; reflexivity]).
  erewrite exec_Leave; [reflexivity|]. xrun. usum. rewrite <- ?Z.add_assoc. consts.
  rewrite L6, L7, L8, L9, L10, !(u16_small cs), !(u16_small ss), !u32_small, Hk, Hu by done. reflexivity.
Qed.

Lemma trap_words_range s k n e eip :
  x86_ok s -> 76 <= k < 2 ^ 32 -> 0 <= n < 2 ^ 32 -> 0 <= e < 2 ^ 32 -> 0 <= eip < 2 ^ 32 -> 0 <= sym "alltraps_ret" < 2 ^ 32 ->
  Forall (fun w => 0 <= w < 2 ^ 32) (trap_words s k n e eip).
Proof.
  intros Hok Hk Hn He Heip Hsym. pose proof (fun r => ok_regs s Hok r) as Hr. pose proof (ok_eflags s Hok) as Hfl.
  assert (forall r, 0 <= segs s r < 2 ^ 32) as Hs by (intros r; pose proof (ok_segs s Hok r); lia).
  unfold trap_words. repeat (apply list.Forall_cons; split; [done || lia|]). constructor.
Qed.

Lemma alltraps_ret_run t :
  0 <= regs t ESP -> regs t ESP + 4 < 2 ^ 32 ->
  start_at sym 9 trapasm_S "alltraps_ret" t =
    start_at sym 8 trapasm_S "trapret" (set_zf (regs t ESP + 4 =? 0) (set_reg ESP (regs t ESP + 4) t)).
Proof.
  intros H0 H1. unfold start_at.
  change (from "alltraps_ret" trapasm_S) with (Some (Addl 4 ESP :: [Popal; Popl_sreg GS; Popl_sreg FS; Popl_sreg ES; Popl_sreg DS; Addl 8 ESP; Iret])).
  change (from "trapret" trapasm_S) with (Some [Popal; Popl_sreg GS; Popl_sreg FS; Popl_sreg ES; Popl_sreg DS; Addl 8 ESP; Iret]).
  cbv iota. apply exec_Fall. cbn [step]. by rewrite (u32_small (regs t ESP + 4)) by lia.
Qed.

Lemma SETGATE_offset b sel off d : 0 <= off < 2 ^ 32 -> gate_offset (SETGATE b sel off d) = off.
Proof.
  intros Hoff. unfold gate_offset, SETGATE. cbn [off_15_0 off_31_16]. change 0xffff with (Z.ones 16).
  rewrite Z.land_ones, Z.shiftr_div_pow2 by lia. pose proof (Z.div_mod off (2 ^ 16) ltac:(done)). lia.
Qed.

(** A frame in which only the word of %eax may have changed. *)
Lemma frame_eax m m' tf g sl oesp n e eip fl :
  words m tf (frame_words g sl oesp n e eip fl) ->
  (forall x, tf <= x < tf + sizeof_trapframe -> x < tf + TF_EAX \/ tf + TF_EAX + 4 <= x -> m' x = m x) ->
  words m' tf (frame_words (put_gpr EAX (load32 m' (tf + TF_EAX)) g) sl oesp n e eip fl).
Proof.
  intros Hw Hm i w Hi. unfold TF_EAX, sizeof_trapframe in *. destruct (decide (i = 7%nat)) as [->|Hne].
  - destruct g. cbn in Hi. by injection Hi as <-.
  - assert (frame_words g sl oesp n e eip fl !! i = Some w) as Hi'.
    { destruct g. revert Hi. do 7 (destruct i as [|i]; [done|]). destruct i as [|i]; [done|]. done. }
    rewrite <- (Hw i w Hi'). apply lookup_lt_Some in Hi'. change (length (frame_words _ _ _ _ _ _ _)) with 19%nat in Hi'.
    apply load32_ext. intros x Hx. apply Hm; lia.
Qed.

(** C8: A trap is transparent to the program. Whatever the trap and the user
    registers, the processor, the handler of vectors.pl and [alltraps] call
    [trap] with the address of a struct trapframe on the kernel stack, which
    holds every register of the program, the number of the trap and the error
    code or 0, and write nothing outside that part of the stack. When [trap]
    returns with at most the frame's %eax changed, as a system call leaves it,
    [trapret] resumes the program where it was, with every register, segment
    and flag as before and %eax from the frame. *)
Theorem trap_transparent b off d n err eip s :
  let k := fst (tss s) in
  let tf := k - sizeof_trapframe in
  x86_ok s -> Z.land (segs s CS) 3 = 3 -> 84 <= k < 2 ^ 32 -> 0 <= n < 256 -> 0 <= off < 2 ^ 32 ->
  0 <= err < 2 ^ 32 -> 0 <= eip < 2 ^ 32 -> 0 <= sym "alltraps_ret" < 2 ^ 32 ->
  exists s1 s2, deliver (SETGATE b (Z.shiftl SEG_KCODE 3) off d) n eip err s = Leave off s1 /\
    exec sym 14 trapasm_S (vector n) s1 = Leave (sym "trap") s2 /\
    regs s2 ESP = tf - 8 /\ words (ram s2) (tf - 8) [sym "alltraps_ret"; tf] /\
    words (ram s2) tf (frame_words (gprs s) (sels s) (tf + 32) n (if error_code n then err else 0) eip (eflags s)) /\
    segs s2 DS = Z.shiftl SEG_KDATA 3 /\ segs s2 ES = Z.shiftl SEG_KDATA 3 /\
    (forall x, x < tf - 8 \/ k <= x -> ram s2 x = ram s x) /\
    forall t, regs t ESP = tf - 4 -> segs t CS = segs s2 CS -> mem_ok (ram t) ->
      (forall x, tf <= x < k -> x < tf + TF_EAX \/ tf + TF_EAX + 4 <= x -> ram t x = ram s2 x) ->
      exists t', start_at sym 9 trapasm_S "alltraps_ret" t = Leave eip t' /\
        gprs t' = put_gpr EAX (load32 (ram t) (tf + TF_EAX)) (gprs s) /\ sels t' = sels s /\ eflags t' = eflags s /\ ram t' = ram t.
Proof.
  intros k tf Hok Hu Hk Hn Hoff Herr Heip Hsym. set (g := SETGATE b _ off d).
  destruct (trap_run g n err eip s Hok Hu Hk Hn) as (s1 & s2 & Hd & Hx & Hsp & Hcs & Hds & Hes & Hram). fold k in Hsp, Hram.
  set (e := if error_code n then err else 0) in *. assert (0 <= e < 2 ^ 32) as He by (unfold e; case_match; lia).
  assert (words (ram s2) (tf - 8) (sym "alltraps_ret" :: tf :: frame_words (gprs s) (sels s) (tf + 32) n e eip (eflags s))) as Hw.
  { rewrite Hram. replace (tf - 8) with (k - 4 * Z.of_nat (length (trap_words s k n e eip))) by (unfold tf, sizeof_trapframe; cbn; lia).
    replace (tf + 32) with (k - 44) by (unfold tf, sizeof_trapframe; lia). apply (push_words_words k (trap_words s k n e eip)).
    apply trap_words_range; done || lia. }
  exists s1, s2. rewrite <- (SETGATE_offset b (Z.shiftl SEG_KCODE 3) off d) at 1 by done. fold g.
  assert (words (ram s2) tf (frame_words (gprs s) (sels s) (tf + 32) n e eip (eflags s))) as Hf.
  { pose proof (words_drop _ _ _ 2 Hw) as Hf. replace (tf - 8 + 4 * Z.of_nat 2) with tf in Hf by lia. exact Hf. }
  split_and!; try done; [unfold tf, sizeof_trapframe; lia | exact (words_take _ _ _ 2 Hw) | |].
  - intros x Hx'. rewrite Hram. apply push_words_out. change (length (trap_words s k n e eip)) with 21%nat. unfold tf, sizeof_trapframe in Hx'. lia.
  - intros t Htsp Htcs Hm Hsame. rewrite alltraps_ret_run by (rewrite Htsp; unfold tf, sizeof_trapframe; lia).
    set (t1 := set_zf _ _). assert (regs t1 ESP = tf /\ segs t1 CS = segs t CS /\ ram t1 = ram t) as (E1 & E2 & E3).
    { unfold t1. destruct t as [[] [] cl fl gd ts m i o]. xproj. subst g_esp0. xrun. split_and!; try done.
      rewrite u32_small; unfold tf, sizeof_trapframe; lia. }
    eexists. split; [apply (trapret_run t1 (put_gpr EAX (load32 (ram t) (tf + TF_EAX)) (gprs s)) (sels s) (tf + 32) n e eip (eflags s))|]; try done.
    + rewrite E1, E3. apply (frame_eax (ram s2)); [exact Hf|]. intros x Hx' Hx2. apply Hsame; [|done]. unfold tf, sizeof_trapframe in *. lia.
    + rewrite E1. unfold tf, sizeof_trapframe. lia.
    + rewrite E1. unfold tf, sizeof_trapframe. lia.
    + rewrite E2, Htcs, Hcs. done.
    + intros r. pose proof (load32_range _ (tf + TF_EAX) Hm). pose proof (ok_regs s Hok r). unfold regs in *. by destruct (gprs s), r.
    + intros r. exact (ok_segs s Hok r).
    + exact (ok_eflags s Hok).
Qed.

(** C19: The first switch to a process that [allocproc] has made: [swtch] goes
    to [forkret] with the word below the trap frame on top of the stack, so
    that [forkret] returns to [trapret], and the process starts in user mode
    with the registers of its trap frame. *)
Theorem embryo_enters_user t old ctx tf g sl oesp n e eip fl :
  swtch_call t old ctx -> ctx + sizeof_context = tf - 4 -> tf + sizeof_trapframe < 2 ^ 32 ->
  load32 (ram t) (ctx + CTX_EIP) = sym "forkret" -> load32 (ram t) (tf - 4) = sym "trapret" ->
  words (ram t) tf (frame_words g sl oesp n e eip fl) ->
  regs t ESP <= ctx \/ tf + sizeof_trapframe + 16 <= regs t ESP -> old + 4 <= ctx \/ tf + sizeof_trapframe <= old ->
  Z.land (s_cs sl) 3 = 3 -> (forall r, 0 <= get_gpr r g < 2 ^ 32) -> (forall r, 0 <= get_sel r sl < 2 ^ 16) -> 0 <= fl < 2 ^ 32 ->
  exists t1, start_at sym 13 swtch_S "swtch" t = Leave (sym "forkret") t1 /\ regs t1 ESP = tf - 4 /\
    forall u, regs u ESP = tf - 4 -> Z.land (segs u CS) 3 = 0 ->
      (forall x, tf - 4 <= x < tf + sizeof_trapframe -> ram u x = ram t1 x) ->
      exists u1 u2, step sym Ret u = Leave (sym "trapret") u1 /\
        start_at sym 8 trapasm_S "trapret" u1 = Leave eip u2 /\ gprs u2 = g /\ sels u2 = sl /\ eflags u2 = fl.
Proof.
  intros Hc Hctx Htf Hfork Hret Hw Hsp Hold Hu Hg Hs Hfl. pose proof (swtch_run sym t old ctx Hc) as Hrun.
  destruct (swtch_saves t old ctx Hc) as (_ & _ & Hout). unfold sizeof_trapframe, sizeof_context, CTX_EIP in *.
  pose proof (sc_ok _ _ _ Hc) as Hok. pose proof (load32_range _ (regs t ESP + 8) (ok_ram t Hok)) as Hctx0. rewrite (sc_new _ _ _ Hc) in Hctx0.
  assert (forall x, ctx <= x < tf + 76 -> swtch_ram t old x = ram t x) as Hsame by (intros x Hx; apply Hout; lia). clear Hout.
  assert (forall a, ctx <= a -> a + 4 <= tf + 76 -> load32 (swtch_ram t old) a = load32 (ram t) a) as Hl.
  { intros a H1 H2. apply load32_ext. intros x Hx. apply Hsame. lia. }
  rewrite (Hl (ctx + 16)), Hfork in Hrun by lia. eexists. split; [exact Hrun|]. split; [cbn; lia|].
  intros u Hus Huc Hur. cbn [ram] in Hur.
  assert (forall a, tf - 4 <= a -> a + 4 <= tf + 76 -> load32 (ram u) a = load32 (ram t) a) as Hlu.
  { intros a H1 H2. rewrite <- Hl by lia. apply load32_ext. intros x Hx. apply Hur. lia. }
  exists (drop4 4 u), (X86 g sl (ctls u) fl (gdt_reg u) (tss u) (ram u) (ins u) (outs u)).
  assert (regs (drop4 4 u) ESP = tf /\ segs (drop4 4 u) CS = segs u CS /\ ram (drop4 4 u) = ram u) as (E1 & E2 & E3).
  { destruct u as [[] [] cl' fl' gd' ts' m' i' o']. xproj. subst g_esp0. xrun. split_and!; try done. rewrite u32_small; lia. }
  assert (X86 g sl (ctls u) fl (gdt_reg u) (tss u) (ram u) (ins u) (outs u) =
    X86 g sl (ctls (drop4 4 u)) fl (gdt_reg (drop4 4 u)) (tss (drop4 4 u)) (ram (drop4 4 u)) (ins (drop4 4 u)) (outs (drop4 4 u))) as Eu.
  { by destruct u as [[] [] cl' fl' gd' ts' m' i' o']. }
  split_and!; [| | done | done | done].
  - cbn [step]. unfold top. rewrite Hus, Hlu, Hret by lia. done.
  - rewrite Eu. apply (trapret_run (drop4 4 u) g sl oesp n e eip fl); rewrite ?E1, ?E2, ?E3; try done; [| lia].
    intros i w Hi. rewrite <- (Hw i w Hi). apply lookup_lt_Some in Hi. change (length (frame_words _ _ _ _ _ _ _)) with 19%nat in Hi. apply Hlu; lia.
Qed.
End traps.

(** ** Starting up *)

Definition busy (v : Z) : bool := negb (Z.land (u8 v) 0x2 =? 0).

Section boot_code.
Variable sym : string -> Z.

Lemma al_low a v : u8 (u32 (2 ^ 8 * (a / 2 ^ 8) + u8 v)) = u8 v.
Proof.
  unfold u8, u32. change (2 ^ 32) with (2 ^ 8 * 2 ^ 24). rewrite Z.rem_mul_r, (Z.mul_comm (2 ^ 8) (_ mod _)), Z.mod_add, Z.mod_mod by done.
  rewrite Z.add_comm, Z.mul_comm, Z.mod_add by done. by rewrite Z.mod_mod.
Qed.

Lemma land_pow2_bit x n : 0 <= n -> (Z.land x (2 ^ n) =? 0) = negb (Z.testbit x n).
Proof.
  intros Hn. destruct (Z.testbit x n) eqn:E; cbn.
  - apply Z.eqb_neq. intros H0. assert (Z.testbit (Z.land x (2 ^ n)) n = true) as Ht by (by rewrite Z.land_spec, E, Z.pow2_bits_true by done).
    by rewrite H0, Z.bits_0 in Ht.
  - apply Z.eqb_eq, Z.bits_inj'. intros i Hi. rewrite Z.land_spec, Z.pow2_bits_eqb, Z.bits_0 by done.
    destruct (Z.eqb_spec n i) as [->|]; [by rewrite E | apply andb_false_r].
Qed.

Lemma u32_bit x n : 0 <= n < 32 -> Z.testbit (u32 x) n = Z.testbit x n.
Proof. intros Hn. unfold u32. by rewrite Z.mod_pow2_bits_low by lia. Qed.

(** The bits of the flags after a test. *)
Lemma set_zf_bit b s n :
  0 <= n < 32 -> Z.testbit (eflags (set_zf b s)) n = if n =? 6 then b else Z.testbit (eflags s) n.
Proof.
  intros Hn. destruct s as [g sl cl fl gd ts m i o]. unfold set_zf, set_eflags, FL_ZF. cbn [eflags]. rewrite u32_bit by done.
  change 0x40 with (2 ^ 6). destruct b.
  - rewrite Z.lor_spec, Z.pow2_bits_eqb, (Z.eqb_sym 6) by lia. destruct (n =? 6); [apply orb_true_r | apply orb_false_r].
  - rewrite Z.land_spec, Z.lnot_spec, Z.pow2_bits_eqb, (Z.eqb_sym 6) by lia. destruct (n =? 6); [apply andb_false_r | apply andb_true_r].
Qed.

Lemma zf_set b s : zf (set_zf b s) = b.
Proof.
  unfold zf. change FL_ZF with (2 ^ 6). rewrite land_pow2_bit, negb_involutive, set_zf_bit by lia. done.
Qed.

(** The state but for %eax, the zero flag and the ports that have been read. *)
Record alike (s s' : x86) : Prop := {
  al_sels : sels s' = sels s;
  al_ctls : ctls s' = ctls s;
  al_gdt : gdt_reg s' = gdt_reg s;
  al_ram : ram s' = ram s;
  al_outs : outs s' = outs s;
  al_if : Z.testbit (eflags s') 9 = Z.testbit (eflags s) 9;
}.

Lemma alike_trans s1 s2 s3 : alike s1 s2 -> alike s2 s3 -> alike s1 s3.
Proof. intros [] []. split; congruence. Qed.

(** Reading a port until it is not busy. *)
Lemma poll_loop c l rest b r more fuel s :
  from l c = Some (Inb 0x64 :: Testb 0x2 :: Jnz l :: rest) ->
  ins s = b ++ r :: more -> Forall (fun v => busy v = true) b -> busy r = false ->
  exists s', exec sym (3 * length b + 3 + fuel) c (Inb 0x64 :: Testb 0x2 :: Jnz l :: rest) s = exec sym fuel c rest s' /\
    ins s' = more /\ alike s s'.
Proof.
  intros Hf. revert s. induction b as [|v b IH]; intros s Hin Hb Hr.
  - set (s1 := set_zf true (set_ins more (set_al r s))). exists s1. split; [|split].
    + cbn [length Nat.mul Nat.add exec step]. rewrite Hin. cbn [app].
      assert (u8 (regs (set_ins more (set_al r s)) EAX) = u8 r) as -> by (destruct s as [[] ? ? ? ? ? ? ? ?]; apply al_low).
      assert ((Z.land (u8 r) 0x2 =? 0) = true) as -> by (unfold busy in Hr; by apply negb_false_iff in Hr). fold s1.
      assert (zf s1 = true) as -> by apply zf_set. done.
    + by destruct s as [[] ? ? ? ? ? ? ? ?].
    + split; try (by destruct s as [[] ? ? ? ? ? ? ? ?]). unfold s1. rewrite set_zf_bit by lia. by destruct s as [[] ? ? ? ? ? ? ? ?].
  - apply list.Forall_cons in Hb as [Hv Hb]. set (s1 := set_zf false (set_ins (b ++ r :: more) (set_al v s))).
    destruct (IH s1) as (s' & Hrun & Hmore & Hal); [by destruct s as [[] ? ? ? ? ? ? ? ?] | done | done |]. exists s'. split; [|split; [done|]].
    + rewrite <- Hrun. replace (3 * length (v :: b) + 3 + fuel)%nat with (S (S (S (3 * length b + 3 + fuel))))%nat by (cbn [length]; lia).
      cbn [exec step]. rewrite Hin. cbn [app].
      assert (u8 (regs (set_ins (b ++ r :: more) (set_al v s)) EAX) = u8 v) as -> by (destruct s as [[] ? ? ? ? ? ? ? ?]; apply al_low).
      assert ((Z.land (u8 v) 0x2 =? 0) = false) as -> by (unfold busy in Hv; by apply negb_true_iff in Hv). fold s1.
      assert (zf s1 = false) as -> by apply zf_set. by rewrite Hf.
    + apply (alike_trans s s1); [|done]. split; try (by destruct s as [[] ? ? ? ? ? ? ? ?]).
      unfold s1. rewrite set_zf_bit by lia. by destruct s as [[] ? ? ? ? ? ? ? ?].
Qed.

(** From the second wait on. *)
Definition protect : list instr :=
  [Movb 0xdf; Outb 0x60; lgdt_gdtdesc sym; Mov_from_cr CR0 EAX; Orl CR0_PE EAX; Mov_to_cr EAX CR0; Ljmp (Z.shiftl SEG_KCODE 3) "start32"].

Lemma protect_run s rest fuel :
  5 <= sym "start" < 2 ^ 32 ->
  exists s', exec sym (16 + fuel) (bootasm_S sym) (protect ++ rest) s = Leave (sym "bootmain") s' /\
    sels s' = Sel 8 16 16 0 0 16 /\ Z.testbit (crs s' CR0) 0 = true /\ gdt_reg s' = (23, sym "gdt") /\
    regs s' ESP = sym "start" - 4 /\ ram s' = store32 (sym "start" - 4) (sym "bootmain_ret") (ram s) /\
    outs s' = (0x60, 0xdf) :: outs s /\ ins s' = ins s /\ Z.testbit (eflags s') 9 = Z.testbit (eflags s) 9.
Proof.
  intros Hst. destruct s as [[a c d b sp bp si di] sl cl fl gd ts m i o]. destruct cl as [c0 c3 c4], sl as [cs ds es fs gs ss].
  unfold protect. cbn [app]. change (16 + fuel)%nat with (S (S (S (S (S (S (S (9 + fuel)))))))).
  do 6 (erewrite exec_Fall; [|xrun; rewrite ?al_low; reflexivity]).
  erewrite exec_Goto; [|xrun; reflexivity | xrun; reflexivity]. change (9 + fuel)%nat with (S (S (S (S (S (S (S (S (S fuel))))))))).
  do 8 (erewrite exec_Fall; [|xrun; rewrite ?ax_low by done; reflexivity]).
  erewrite exec_out; [|xrun; rewrite ?(u32_small (sym "start")), ?(u32_small (sym "start" - 4)) by lia; reflexivity | reflexivity].
  eexists. split; [reflexivity|]. xproj. split_and!; try done.
  - rewrite !u32_bit, Z.lor_spec by lia. apply orb_true_r.
  - pose proof (set_zf_bit (u32 (Z.lor (u32 c0) CR0_PE) =? 0) (X86 (Gpr a c d b sp bp si di) (Sel cs ds es fs gs ss) (Ctl c0 c3 c4) fl gd ts m i o) 9 ltac:(lia)) as E.
    exact E.
Qed.

(** The base, the limit and the type of a segment descriptor. *)
Definition segment (l : list Z) : option (Z * Z * Z) :=
  match l with
  | [l0; l1; b0; b1; b2; t; f; b3] =>
      let lim := l0 + 2 ^ 8 * l1 + 2 ^ 16 * Z.land f 0xf in
      Some (b0 + 2 ^ 8 * b1 + 2 ^ 16 * b2 + 2 ^ 24 * b3,
            if Z.testbit f 7 then PGSIZE * lim + (PGSIZE - 1) else lim, Z.land t 0xf)
  | _ => None
  end.

(** A signed boot block is one sector with the code at its start and the mark
    at its end; code that does not fit is refused. *)
Lemma sign_sector file :
  match sign file with
  | Some buf => length buf = 512%nat /\ take (length file) buf = file /\ drop 510 buf = [0x55; 0xAA]
  | None => (510 < length file)%nat
  end.
Proof.
  unfold sign. rewrite length_take. destruct (Nat.ltb_spec 510 (1000 `min` length file)); [lia|].
  rewrite take_ge, Nat.min_r by lia. split_and!.
  - rewrite !length_app, length_replicate. simpl. lia.
  - by rewrite take_app_length.
  - rewrite app_assoc. apply drop_app_length'. rewrite length_app, length_replicate. lia.
Qed.

(** C26: However long the keyboard controller is busy, the boot sector opens
    address line 20 with the two commands, in order, and calls [bootmain] in
    protected mode: with interrupts off, the stack below the boot sector, and
    segments that make all 4 Gbyte addressable at base 0, code executable and
    data writable. *)
Theorem bootasm_enters_bootmain s busy1 r1 busy2 r2 more :
  5 <= sym "start" < 2 ^ 32 -> ins s = busy1 ++ r1 :: busy2 ++ r2 :: more ->
  Forall (fun v => busy v = true) busy1 -> busy r1 = false -> Forall (fun v => busy v = true) busy2 -> busy r2 = false ->
  (exists s', start_at sym (29 + 3 * length busy1 + 3 * length busy2) (bootasm_S sym) "start" s = Leave (sym "bootmain") s' /\
     outs s' = [(0x60, 0xdf); (0x64, 0xd1)] ++ outs s /\ ins s' = more /\ Z.testbit (eflags s') 9 = false /\
     Z.testbit (crs s' CR0) 0 = true /\ regs s' ESP = sym "start" - 4 /\
     ram s' = store32 (sym "start" - 4) (sym "bootmain_ret") (ram s) /\
     sels s' = Sel 8 16 16 0 0 16 /\ gdt_reg s' = (Z.of_nat (length gdt_asm) - 1, sym "gdt")) /\
  segment (take 8 (drop 8 gdt_asm)) = Some (0, 0xffffffff, Z.lor STA_X STA_R) /\
  segment (take 8 (drop 16 gdt_asm)) = Some (0, 0xffffffff, STA_W).
Proof.
  intros Hst Hin Hb1 Hr1 Hb2 Hr2. split; [|done]. unfold start_at.
  assert (exists rest2, from "seta20.2" (bootasm_S sym) = Some (Inb 0x64 :: Testb 0x2 :: Jnz "seta20.2" :: (protect ++ rest2)) /\
    from "seta20.1" (bootasm_S sym) = Some (Inb 0x64 :: Testb 0x2 :: Jnz "seta20.1" :: Movb 0xd1 :: Outb 0x64 :: Inb 0x64 :: Testb 0x2 :: Jnz "seta20.2" :: (protect ++ rest2)) /\
    from "start" (bootasm_S sym) = Some (Cli :: Xorw_ax :: Movw_sreg DS :: Movw_sreg ES :: Movw_sreg SS ::
      Inb 0x64 :: Testb 0x2 :: Jnz "seta20.1" :: Movb 0xd1 :: Outb 0x64 :: Inb 0x64 :: Testb 0x2 :: Jnz "seta20.2" :: (protect ++ rest2))) as (rest2 & F2 & F1 & F0).
  { eexists. split_and!; reflexivity. }
  rewrite F0. cbv iota.
  set (f2 := (3 * length busy2 + 3 + (16 + 0))%nat).
  replace (29 + 3 * length busy1 + 3 * length busy2)%nat with (5 + (3 * length busy1 + 3 + (2 + f2)))%nat by (unfold f2; lia).
  cbn [Nat.add]. do 5 (erewrite exec_Fall; [|reflexivity]). set (s1 := set_seg SS _ _).
  assert (ins s1 = ins s /\ outs s1 = outs s /\ ram s1 = ram s /\ Z.testbit (eflags s1) 9 = false) as (I1 & O1 & M1 & E1).
  { unfold s1. destruct s as [[a c d b sp bp si di] [] [] fl gd ts m i o]. split_and!; try done. xrun.
    rewrite u32_bit, Z.lor_spec, u32_bit, Z.land_spec, Z.lnot_spec by lia. change (Z.testbit FL_IF 9) with true. change (Z.testbit FL_ZF 9) with false.
    by rewrite andb_false_r. }
  clearbody s1. rewrite Hin in I1.
  destruct (poll_loop (bootasm_S sym) "seta20.1" (Movb 0xd1 :: Outb 0x64 :: Inb 0x64 :: Testb 0x2 :: Jnz "seta20.2" :: (protect ++ rest2))
    busy1 r1 (busy2 ++ r2 :: more) (S (S f2)) s1 F1 I1 Hb1 Hr1) as (s2 & Hrun2 & I2 & A2). rewrite Hrun2.
  do 2 (erewrite exec_Fall; [|reflexivity]). set (s3 := out _ _ _).
  assert (ins s3 = ins s2 /\ outs s3 = (0x64, 0xd1) :: outs s2 /\ ram s3 = ram s2 /\ eflags s3 = eflags s2) as (I3 & O3 & M3 & E3).
  { unfold s3. destruct s2 as [[] ? ? ? ? ? ? ? ?]. split_and!; try done. cbn -[u8 u32 Z.mul Z.div Z.add Z.pow]. by rewrite al_low. }
  clearbody s3. rewrite I2 in I3.
  destruct (poll_loop (bootasm_S sym) "seta20.2" (protect ++ rest2) busy2 r2 more (16 + 0) s3 F2 I3 Hb2 Hr2) as (s4 & Hrun4 & I4 & A4).
  unfold f2. rewrite Hrun4. destruct (protect_run s4 rest2 0 Hst) as (s5 & Hrun5 & H1 & H2 & H3 & H4 & H5 & H6 & H7 & H8).
  destruct A2 as [_ _ _ M2 O2 E2], A4 as [_ _ _ M4 O4 E4]. exists s5. rewrite Hrun5. split_and!; try done; cbn [app]; congruence.
Qed.

(** Translation with 4 Mbyte pages. *)
Definition translate_4M (dir : list Z) (x : Z) : option Z :=
  match dir !! Z.to_nat (PDX x) with
  | Some e => if present e && Z.testbit e 7 then Some (2 ^ 22 * (e / 2 ^ 22) + x mod 2 ^ 22) else None
  | None => None
  end.

Lemma lookup_repeat {A} (v : A) n i : (i < n)%nat -> repeat v n !! i = Some v.
Proof. revert i. induction n as [|n IH]; intros i Hi; [lia|]. destruct i as [|i]; [done|]. apply IH. lia. Qed.

Lemma entrypgdir_translates x :
  0 <= x < 2 ^ 32 ->
  translate_4M entrypgdir x =
    if x <? MB4 then Some x else if (KERNBASE <=? x) && (x <? KERNBASE + MB4) then Some (x - KERNBASE) else None.
Proof.
  intros Hx. unfold translate_4M. pose proof (PDX_range x) as Hr. rewrite PDX_eq in * by done.
  change MB4 with (2 ^ 22). unfold KERNBASE. pose proof (Z.div_mod x (2 ^ 22) ltac:(done)) as D. pose proof (Z.mod_pos_bound x (2 ^ 22) ltac:(done)) as B.
  set (q := x / 2 ^ 22) in *. clearbody q.
  assert (entrypgdir !! Z.to_nat q = Some (if (q =? 0) || (q =? 512) then 0x83 else 0)) as ->.
  { unfold entrypgdir. change (Z.to_nat (Z.shiftr KERNBASE PDXSHIFT)) with 512%nat. change (Z.lor _ PTE_PS) with 0x83.
    assert (length (repeat 0 NPDENTRIES) = 1024%nat) as Hlen by apply repeat_length.
    destruct (Z.eqb_spec q 512) as [->|H1]; [rewrite orb_true_r; apply list_lookup_insert_eq; rewrite length_insert, Hlen; lia|].
    rewrite list_lookup_insert_ne by lia. destruct (Z.eqb_spec q 0) as [->|H2]; [apply list_lookup_insert_eq; lia|].
    rewrite list_lookup_insert_ne by lia. apply lookup_repeat. unfold NPDENTRIES. lia. }
  destruct (Z.eqb_spec q 0) as [H1|H1], (Z.eqb_spec q 512) as [H2|H2]; cbn [orb]; try lia.
  - rewrite (proj2 (Z.ltb_lt _ _)) by lia. change (present 0x83 && Z.testbit 0x83 7) with true. change (0x83 / 2 ^ 22) with 0. cbv iota. f_equal. lia.
  - rewrite (proj2 (Z.ltb_ge x _)), (proj2 (Z.leb_le _ _)), (proj2 (Z.ltb_lt _ _)) by lia. change (present 0x83 && Z.testbit 0x83 7) with true.
    change (0x83 / 2 ^ 22) with 0. cbn [andb]. cbv iota. f_equal. lia.
  - rewrite (proj2 (Z.ltb_ge _ _)) by lia. destruct (Z.leb_spec 2147483648 x), (Z.ltb_spec x (2147483648 + 2 ^ 22)); try done. lia.
Qed.

(** The bits of a control register after some have been set. *)
Lemma or_bits v w n : 0 <= n < 32 -> Z.testbit (u32 (u32 (Z.lor (u32 v) w))) n = Z.testbit v n || Z.testbit w n.
Proof. intros Hn. by rewrite !u32_bit, Z.lor_spec, u32_bit by done. Qed.

(** What a CPU needs before it runs the kernel at its linked addresses. *)
Record paged (s s' : x86) (dir bits : Z) : Prop := {
  pg_cr3 : crs s' CR3 = dir;
  pg_on n : 0 <= n < 32 -> Z.testbit (crs s' CR0) n = Z.testbit (crs s CR0) n || Z.testbit bits n;
  pg_pse n : 0 <= n < 32 -> Z.testbit (crs s' CR4) n = Z.testbit (crs s CR4) n || (n =? 4);
}.

Lemma flags_if (b : bool) f : Z.testbit (u32 (if b then Z.lor f FL_ZF else Z.land f (Z.lnot FL_ZF))) 9 = Z.testbit f 9.
Proof.
  rewrite u32_bit by lia. destruct b; [rewrite Z.lor_spec | rewrite Z.land_spec, Z.lnot_spec by lia];
    change (Z.testbit FL_ZF 9) with false; [apply orb_false_r | apply andb_true_r].
Qed.

Lemma entry_run s :
  0 <= sym "main" < 2 ^ 32 -> KERNBASE <= sym "entrypgdir" < 2 ^ 32 -> 0 <= sym "stack" < 2 ^ 32 - KSTACKSIZE ->
  exists s', start_at sym 11 (entry_S sym) "entry" s = Leave (sym "main") s' /\
    paged s s' (sym "entrypgdir" - KERNBASE) (Z.lor CR0_PG CR0_WP) /\ regs s' ESP = sym "stack" + KSTACKSIZE /\ ram s' = ram s.
Proof.
  intros Hmain Hdir Hstack. destruct s as [[a c d b sp bp si di] sl [c0 c3 c4] fl gd ts m i o].
  unfold start_at, entry_S. cbn [from String.eqb Ascii.eqb Bool.eqb map concat app].
  do 10 (erewrite exec_Fall; [|xrun; reflexivity]). erewrite exec_Leave; [|xrun; reflexivity].
  rewrite !(u32_small (sym "main")) by lia. eexists. split; [reflexivity|]. split_and!; [split| |]; xproj.
  - by rewrite !(u32_small (sym "entrypgdir" - KERNBASE)) by (unfold KERNBASE in *; lia).
  - intros n Hn. by apply or_bits.
  - intros n Hn. rewrite or_bits by done. f_equal. change CR4_PSE with (2 ^ 4). by rewrite Z.pow2_bits_eqb, Z.eqb_sym by lia.
  - by rewrite !(u32_small (sym "stack" + KSTACKSIZE)) by (unfold KSTACKSIZE in *; lia).
  - done.
Qed.

Lemma entryother_run s :
  x86_ok s -> 16 <= sym "start" < 2 ^ 32 -> 4 <= load32 (ram s) (sym "start" - 4) ->
  exists s', start_at sym 27 (entryother_S sym) "start" s = Leave (load32 (ram s) (sym "start" - 8)) s' /\
    paged s s' (load32 (ram s) (sym "start" - 12)) (Z.lor (Z.lor CR0_PE CR0_PG) CR0_WP) /\
    regs s' ESP = load32 (ram s) (sym "start" - 4) - 4 /\ sels s' = Sel 8 16 16 0 0 16 /\ Z.testbit (eflags s') 9 = false /\
    ram s' = store32 (load32 (ram s) (sym "start" - 4) - 4) (sym "mpenter_ret") (ram s).
Proof.
  intros Hok Hst Hsp. pose proof (ok_ram s Hok) as Hm. clear Hok. destruct s as [[a c d b sp bp si di] [] [c0 c3 c4] fl gd ts m i o]. xproj.
  pose proof (load32_range m (sym "start" - 4) Hm). pose proof (load32_range m (sym "start" - 12) Hm).
  unfold start_at, entryother_S. cbn [from String.eqb Ascii.eqb Bool.eqb map concat app].
  do 9 (erewrite exec_Fall; [|xrun; rewrite ?ax_low by done; reflexivity]).
  erewrite exec_Goto; [|xrun; reflexivity | xrun; reflexivity].
  do 16 (erewrite exec_Fall; [|xrun; rewrite ?ax_low by done; reflexivity]).
  erewrite exec_Leave; [|xrun; reflexivity].
  rewrite !(u32_small (sym "start" - _)) by lia. eexists. split; [reflexivity|]. split_and!; [split| | | |]; xproj.
  - by rewrite !(u32_small (load32 m _)) by done.
  - intros n Hn. rewrite !u32_bit, Z.lor_spec, !u32_bit, Z.lor_spec, u32_bit, !Z.lor_spec by done. by destruct (Z.testbit c0 n), (Z.testbit CR0_PE n).
  - intros n Hn. rewrite or_bits by done. f_equal. change CR4_PSE with (2 ^ 4). by rewrite Z.pow2_bits_eqb, Z.eqb_sym by lia.
  - rewrite (u32_small (load32 m _)) by done. by rewrite !(u32_small (_ - 4)) by lia.
  - done.
  - rewrite !flags_if. rewrite u32_bit, Z.lor_spec, u32_bit, Z.land_spec, Z.lnot_spec by lia.
    change (Z.testbit FL_IF 9) with true. change (Z.testbit FL_ZF 9) with false. by rewrite andb_false_r.
  - rewrite (u32_small (load32 m _)) by done. by rewrite !(u32_small (_ - 4)) by lia.
Qed.

(** [entry] turns on paging with [entrypgdir] and jumps to [main] on the
    kernel's stack, writing no memory; with that directory the instructions
    at the low addresses it runs at and [main] at its high address are both
    the physical memory they were loaded to. [entryother] brings another CPU
    from real mode to the same state and calls the function, on the stack and
    with the directory that [startothers] has put below it. *)
Theorem entry_enters_main s :
  x86_ok s -> 0 <= sym "main" < 2 ^ 32 -> KERNBASE <= sym "entrypgdir" < 2 ^ 32 -> 0 <= sym "stack" < 2 ^ 32 - KSTACKSIZE ->
  16 <= sym "start" < 2 ^ 32 -> 4 <= load32 (ram s) (sym "start" - 4) ->
  (exists s', start_at sym 11 (entry_S sym) "entry" s = Leave (sym "main") s' /\ paged s s' (sym "entrypgdir" - KERNBASE) (Z.lor CR0_PG CR0_WP) /\
     regs s' ESP = sym "stack" + KSTACKSIZE /\ ram s' = ram s) /\
  (exists s', start_at sym 27 (entryother_S sym) "start" s = Leave (load32 (ram s) (sym "start" - 8)) s' /\
     paged s s' (load32 (ram s) (sym "start" - 12)) (Z.lor (Z.lor CR0_PE CR0_PG) CR0_WP) /\
     regs s' ESP = load32 (ram s) (sym "start" - 4) - 4 /\ sels s' = Sel 8 16 16 0 0 16 /\ Z.testbit (eflags s') 9 = false /\
     ram s' = store32 (load32 (ram s) (sym "start" - 4) - 4) (sym "mpenter_ret") (ram s)) /\
  forall x, 0 <= x < 2 ^ 32 -> translate_4M entrypgdir x =
    if x <? MB4 then Some x else if (KERNBASE <=? x) && (x <? KERNBASE + MB4) then Some (x - KERNBASE) else None.
Proof.
  intros Hok Hmain Hdir Hstack Hst Hsp. split_and!; [by apply entry_run | by apply entryother_run | exact entrypgdir_translates].
Qed.
End boot_code.

(** [initcode] asks for exec(init, argv), and should that return for exit,
    again and again. *)
Lemma initcode_execs sym s :
  x86_ok s -> 12 <= regs s ESP -> 0 <= sym "argv" < 2 ^ 32 -> 0 <= sym "init" < 2 ^ 32 ->
  (exists s', start_at sym 5 (initcode_S sym) "start" s = Trap T_SYSCALL (sym "exit") s' /\ regs s' EAX = 7 /\
     regs s' ESP = regs s ESP - 12 /\ words (ram s') (regs s' ESP) [0; sym "init"; sym "argv"]) /\
  (exists s', start_at sym 2 (initcode_S sym) "exit" s = Trap T_SYSCALL (sym "exit_ret") s' /\ regs s' EAX = 2) /\
  (exists s', start_at sym 3 (initcode_S sym) "exit_ret" s = Trap T_SYSCALL (sym "exit_ret") s' /\ regs s' EAX = 2).
Proof.
  intros Hok Hsp Ha Hi. pose proof (ok_regs s Hok ESP). clear Hok. destruct s as [[a c d b sp bp si di] sl cl fl gd ts m i o]. xproj.
  split_and!; [|by eexists..].
  eexists. split; [reflexivity|]. xrun. rewrite !(u32_small (sym "argv")), !(u32_small (sym "init")), !(u32_small 0) by lia.
  usmall. split_and!; [done | lia|]. replace (sp - 4 - 4) with (sp - 8) by lia. replace (sp - 8 - 4) with (sp - 12) by lia.
  intros [|[|[|]]] w; cbn; intros [= <-]; rewrite ?Z.add_0_r.
  - replace (sp - 12 + 4 * Z.of_nat 0) with (sp - 12) by lia. loads. done.
  - replace (sp - 12 + 4 * Z.of_nat 1) with (sp - 8) by lia. loads. by apply u32_small.
  - replace (sp - 12 + 4 * Z.of_nat 2) with (sp - 4) by lia. loads. by apply u32_small.
Qed.

(** ** Examples *)

Definition sym0 (l : string) : Z := if String.eqb l "start" then 0x7c00 else 0x80100000.

Definition x86_0 (cs esp esp0 : Z) (m : memory) (i : list Z) : x86 :=
  X86 (Gpr 1 2 3 4 esp 5 6 7) (Sel cs 35 35 0 0 35) (Ctl 0x11 0 0) 0x202 (0, 0) (esp0, 16) m i [].

Lemma x86_0_ok cs esp esp0 m i : 0 <= cs < 2 ^ 16 -> 0 <= esp < 2 ^ 32 -> mem_ok m -> x86_ok (x86_0 cs esp esp0 m i).
Proof. intros Hcs Hesp Hm. split; try done; intros []; cbn; lia. Qed.

(** A call of swtch(0x3000, 0x2000) with the stack at 0x1000. *)
Definition swtch_m (m : memory) : memory := store32 0x1004 0x3000 (store32 0x1008 0x2000 m).
Definition swtch_s (m : memory) : x86 := x86_0 8 0x1000 0 (swtch_m m) [].

Lemma swtch_s_call m : mem_ok m -> swtch_call (swtch_s m) 0x3000 0x2000.
Proof.
  intros Hm. unfold swtch_s, swtch_m. split; cbn [x86_0 regs get_gpr gprs g_esp ram]; try done.
  - by apply x86_0_ok; [..|do 2 apply store32_ok].
  - lia.
Qed.

Lemma swtch_roundtrip_witness :
  exists e s', start_at sym0 13 swtch_S "swtch" (swtch_s (fun _ => 0)) = Leave e s' /\ load32 (ram s') 0x3000 = 0xff0.
Proof.
  destruct (swtch_roundtrip sym0 (swtch_s (fun _ => 0)) 0x3000 0x2000) as (e & s' & Hrun & Hold & _);
    [by apply swtch_s_call|]. exists e, s'. split; [exact Hrun | exact Hold].
Defined.

Lemma trap_transparent_witness :
  exists s1 s2, deliver (SETGATE true (Z.shiftl SEG_KCODE 3) 0x80106000 3) 64 0x40 0 (x86_0 27 0x2fc0 0x9000 (fun _ => 0) []) = Leave 0x80106000 s1 /\
    exec sym0 14 trapasm_S (vector 64) s1 = Leave (sym0 "trap") s2 /\ regs s2 ESP = 0x8fac.
Proof.
  destruct (trap_transparent sym0 true 0x80106000 3 64 0 0x40 (x86_0 27 0x2fc0 0x9000 (fun _ => 0) [])) as (s1 & s2 & H1 & H2 & H3 & _);
    try done; [by apply x86_0_ok|]. exists s1, s2. split_and!; [exact H1 | exact H2 | exact H3].
Defined.

Lemma bootasm_enters_bootmain_witness :
  exists s', start_at sym0 38 (bootasm_S sym0) "start" (x86_0 0 0 0 (fun _ => 0) [2; 2; 0; 0xff; 0x1c]) = Leave (sym0 "bootmain") s' /\
    regs s' ESP = 0x7bfc.
Proof.
  destruct (bootasm_enters_bootmain sym0 (x86_0 0 0 0 (fun _ => 0) [2; 2; 0; 0xff; 0x1c]) [2; 2] 0 [0xff] 0x1c [])
    as [(s' & H1 & _ & _ & _ & _ & H2 & _) _]; [done | reflexivity | by repeat constructor | reflexivity | by repeat constructor | reflexivity |]. exists s'. split; [exact H1 | exact H2].
Defined.

Lemma entry_enters_main_witness :
  exists s', start_at sym0 11 (entry_S sym0) "entry" (x86_0 8 0 0 (store32 0x7bfc 0x9000 (fun _ => 0)) []) = Leave 0x80100000 s' /\
    regs s' ESP = 0x80101000.
Proof.
  destruct (entry_enters_main sym0 (x86_0 8 0 0 (store32 0x7bfc 0x9000 (fun _ => 0)) [])) as [(s' & H1 & _ & H2 & _) _]; try done.
  - by apply x86_0_ok; [..|apply store32_ok].
  - exists s'. split; [exact H1 | exact H2].
Defined.

(** A new process with its context at 0x2000, to start at address 0. *)
Definition embryo_words : list Z :=
  [0; 0; 0; 0; 0x80100000; 0x80100000] ++ frame_words (Gpr 0 0 0 0 0x1000 0 0 0) (Sel 27 35 35 0 0 35) 0 0 0 0 0x200.
Definition embryo_m : memory := push_words (0x2000 + 100) (reverse embryo_words) (fun _ => 0).

Lemma words_ext m m' a l :
  words m a l -> (forall x, a <= x < a + 4 * Z.of_nat (length l) -> m' x = m x) -> words m' a l.
Proof.
  intros Hw Hm i w Hi. rewrite <- (Hw i w Hi). apply lookup_lt_Some in Hi. apply load32_ext. intros x Hx. apply Hm. lia.
Qed.

Lemma push_words_ok k l m : mem_ok m -> mem_ok (push_words k l m).
Proof. revert k m. induction l as [|w l IH]; intros k m Hm; [done|]. by apply IH, store32_ok. Qed.

Lemma embryo_s_words : words (ram (swtch_s embryo_m)) 0x2000 embryo_words.
Proof.
  apply (words_ext embryo_m).
  - pose proof (push_words_words (0x2000 + 100) (reverse embryo_words) (fun _ => 0)) as Hw. rewrite reverse_involutive in Hw. apply Hw.
    apply list.Forall_reverse. unfold embryo_words, frame_words. cbn [app]. xproj. repeat (apply list.Forall_cons; split; [lia|]). constructor.
  - intros x Hx. cbn [swtch_s x86_0 ram]. unfold swtch_m. rewrite !store32_other by lia. done.
Qed.

Lemma embryo_enters_user_witness :
  exists t1, start_at sym0 13 swtch_S "swtch" (swtch_s embryo_m) = Leave 0x80100000 t1 /\ regs t1 ESP = 0x2014.
Proof.
  pose proof embryo_s_words as Hw.
  destruct (embryo_enters_user sym0 (swtch_s embryo_m) 0x3000 0x2000 0x2018 (Gpr 0 0 0 0 0x1000 0 0 0) (Sel 27 35 35 0 0 35) 0 0 0 0 0x200)
    as (t1 & H1 & H2 & _).
  - apply swtch_s_call, push_words_ok. done.
  - done.
  - done.
  - exact (Hw 4%nat _ eq_refl).
  - exact (Hw 5%nat _ eq_refl).
  - exact (words_drop _ _ _ 6 Hw).
  - left. cbn. lia.
  - right. unfold sizeof_trapframe. lia.
  - done.
  - intros []; cbn; lia.
  - intros []; cbn; lia.
  - lia.
  - exists t1. split; [exact H1 | exact H2].
Defined.
