(* ===== verification/Typed.v ===== *)
(** A typing invariant of the whole kernel, and the logic in which every
    routine is shown to keep it.

    [typed k] says that every table has the size the C arrays have, that every
    index stored in place of a pointer is an index of its table, and that the
    integers of the process table are [int]s.  [keeps m Q] says that [m],
    started in a typed state, ends in one (also when it panics, spins or
    blocks), returns a result with [Q], and takes no exception but the few listed,
    among which an access outside an array is not. *)

From S2P Require Import Prelude Memory KString Kernel Spinlock Cprintf Kalloc Vm Rand Proc Sched Sleeplock Bio.

Definition int32 (x : Z) : Prop := - 2 ^ 31 <= x < 2 ^ 31.

(** A pointer into a table of [n] slots, or null. *)
Definition opt_lt (n : nat) (o : option nat) : Prop := forall i, o = Some i -> (i < n)%nat.

Record cpu_typed (c : cpu) : Prop := {
  ct_gdt : length (gdt c) = 6%nat;
  ct_proc : opt_lt NPROC (c_proc c);
}.

Record proc_typed (p : proc) : Prop := {
  pt_parent : opt_lt NPROC (parent p);
  pt_ofile : length (ofile p) = NOFILE;
  pt_files : Forall (opt_lt NFILE) (ofile p);
  pt_cwd : opt_lt NINODE (cwd p);
  pt_name : length (name p) = 16%nat;
  pt_pid : int32 (pid p);
  pt_killed : int32 (killed p);
  pt_traceflag : int32 (traceflag p);
  pt_counter : int32 (counter p);
  pt_timeslice : int32 (timeslice p);
  pt_tickets : int32 (tickets p);
  pt_retime : int32 (retime p);
  pt_stime : int32 (stime p);
  pt_rutime : int32 (rutime p);
  pt_ctime : int32 (ctime p);
  pt_total_time : int32 (total_time p);
  pt_max_time : int32 (max_time p);
  pt_init_time : int32 (init_time p);
  pt_priority : int32 (priority p);
}.

Record buf_typed (b : buf) : Prop := {
  bt_prev : (b_prev b <= NBUF)%nat;
  bt_next : (b_next b <= NBUF)%nat;
  bt_qnext : opt_lt NBUF (b_qnext b);
  bt_data : Z.of_nat (length (b_data b)) = BSIZE;
}.

Record file_typed (f : file) : Prop := {
  ft_ip : opt_lt NINODE (f_ip f);
  ft_off : 0 <= f_off f;
}.

(** A table with [n] slots, each of which satisfies [P]. *)
Definition table {A} (n : nat) (P : A -> Prop) (t : list A) : Prop := length t = n /\ Forall P t.

Record typed (k : kernel) : Prop := {
  t_cpus : table NCPU cpu_typed (cpus k);
  t_ncpu : (ncpu k <= NCPU)%nat;
  t_ptable : table NPROC proc_typed (ptable k);
  t_nextpid : int32 (nextpid k);
  t_initproc : opt_lt NPROC (initproc k);
  t_mem : mem_ok (mem k);
  t_mt : mt_ok k;
  t_ftable : table NFILE file_typed (ftable k);
  t_pipes : forall p, Z.of_nat (length (data (pipes k p))) = PIPESIZE;
  t_bcache : table (S NBUF) buf_typed (bcache k);
  t_idequeue : opt_lt NBUF (idequeue k);
  t_klog : Z.of_nat (length (lh_block (klog k))) = LOGSIZE;
  t_lh_n : lh_n (klog k) <= LOGSIZE;
  t_icache : table NINODE (fun i => length (i_addrs i) = 13%nat) (icache k);
  t_devsw : length (devsw k) = NDEV;
  t_disk : forall x, Z.of_nat (length (disk k x)) = BSIZE;
  t_input : length (in_buf (input k)) = 128%nat;
  t_idt : length (idt k) = 256%nat;
}.

(** The exceptions that remain possible: code that needs a process runs on a
    CPU without one, a pointer is null, a division by zero ([set_max_time],
    [random_at_most]), an address of the process is not mapped, a log header on
    the disk that counts more blocks than the log has ([read_head]), and the
    name of an unknown system call that is traced ([name_of_call]).  These last
    two are accesses outside an array ([log.lh.block], [syscallnames]); every
    other access outside an array of the kernel, reading or writing, is a fault
    of another name and not among them; nor is an argument list of [cprintf]
    that does not fit its format. *)
Definition exceptions : list string :=
  ["null process"; "null pointer"; "divide error"; "page fault"; "inituvm: null page"; "uva2ka: null pte";
   "log header"; "syscallnames"].

Definition keeps {A} (m : M A) (Q : A -> Prop) : Prop :=
  forall k, typed k ->
  match m k with
  | Ret a k' => Q a /\ typed k'
  | Panic _ k' | Spin _ k' | Blocked k' | Diverge k' => typed k'
  | Fault msg _ => msg ∈ exceptions
  end.

(** ** The rules *)

Lemma keeps_mono {A} (m : M A) (Q R : A -> Prop) : keeps m Q -> (forall a, Q a -> R a) -> keeps m R.
Proof. intros Hm HQR k Hk. specialize (Hm k Hk). destruct (m k); naive_solver. Qed.

Lemma keeps_ret {A} (a : A) (Q : A -> Prop) : Q a -> keeps (ret a) Q.
Proof. intros Ha k Hk. by split. Qed.

Lemma keeps_bind {A B} (m : M A) (f : A -> M B) (Q : A -> Prop) (R : B -> Prop) :
  keeps m Q -> (forall a, Q a -> keeps (f a) R) -> keeps (bind m f) R.
Proof.
  intros Hm Hf k Hk. specialize (Hm k Hk). unfold bind. destruct (m k) as [a k'| | | | |]; try done.
  destruct Hm as [Ha Hk']. exact (Hf a Ha k' Hk').
Qed.

Lemma keeps_assoc {A B C} (m : M A) (f : A -> M B) (g : B -> M C) (Q : C -> Prop) :
  keeps (bind (bind m f) g) Q -> keeps (bind m (fun a => bind (f a) g)) Q.
Proof. intros Hm k Hk. specialize (Hm k Hk). by rewrite bind_assoc in Hm. Qed.

Lemma keeps_panic {A} msg (Q : A -> Prop) : keeps (panic msg) Q.
Proof. intros k Hk. done. Qed.

Lemma keeps_fault {A} msg (Q : A -> Prop) : msg ∈ exceptions -> keeps (fault msg) Q.
Proof. intros Hm k Hk. done. Qed.

Lemma keeps_spin {A} l (Q : A -> Prop) : keeps (fun k => Spin l k) Q.
Proof. intros k Hk. done. Qed.

Lemma keeps_diverge {A} (Q : A -> Prop) : keeps (fun k => Diverge k) Q.
Proof. intros k Hk. done. Qed.

Lemma keeps_gets {A} (f : kernel -> A) : keeps (gets f) (fun a => exists k, typed k /\ a = f k).
Proof. intros k Hk. split; [by exists k | done]. Qed.

Lemma keeps_modify f : (forall k, typed k -> typed (f k)) -> keeps (modify f) (fun _ => True).
Proof. intros Hf k Hk. split; [done | by apply Hf]. Qed.

Lemma keeps_when b m : (b = true -> keeps m (fun _ => True)) -> keeps (when b m) (fun _ => True).
Proof. destruct b; intros Hm; [by apply Hm | by apply keeps_ret]. Qed.

Lemma keeps_slot {A} what (t : kernel -> list A) (P : A -> Prop) n i :
  (forall k, typed k -> table n P (t k)) -> (i < n)%nat -> keeps (slot what t i) P.
Proof.
  intros Ht Hi k Hk. destruct (Ht k Hk) as [Hl HP]. unfold slot.
  destruct (lookup_lt_is_Some_2 (t k) i) as [a Ha]; [by rewrite Hl|]. rewrite Ha.
  split; [|done]. by apply (Forall_lookup_1 _ _ _ _ HP Ha).
Qed.

Lemma keeps_put_slot {A} what (t : kernel -> list A) upd n i f :
  (forall k, typed k -> length (t k) = n) -> (i < n)%nat -> (forall k, typed k -> typed (upd (alter f i) k)) ->
  keeps (put_slot what t upd i f) (fun _ => True).
Proof. intros Ht Hi Hf k Hk. rewrite put_slot_eq by (by rewrite Ht). split; [done | by apply Hf]. Qed.

Lemma keeps_elem_at {A} what (l : list A) i :
  0 <= i < Z.of_nat (length l) -> keeps (elem_at what l i) (fun a => a ∈ l).
Proof.
  intros Hi k Hk. destruct (lookup_lt_is_Some_2 l (Z.to_nat i)) as [a Ha]; [lia|].
  rewrite (elem_at_eq _ _ _ a) by (done || lia). split; [by eapply list_elem_of_lookup_2 | done].
Qed.

Lemma keeps_in_array {A} what (l : list A) i :
  0 <= i < Z.of_nat (length l) -> keeps (in_array what l i) (fun _ => True).
Proof.
  intros [H1 H2]. unfold in_array. rewrite (proj2 (Z.leb_le _ _) H1), (proj2 (Z.ltb_lt _ _) H2). by apply keeps_ret.
Qed.

Lemma keeps_for_each {I} (l : list I) (body : I -> M unit) :
  (forall i, i ∈ l -> keeps (body i) (fun _ => True)) -> keeps (for_each l body) (fun _ => True).
Proof.
  induction l as [|i l IH]; intros Hb; simpl; [by apply keeps_ret|].
  eapply keeps_bind; [apply Hb; left|]. intros _ _. apply IH. intros j Hj. apply Hb. by right.
Qed.

Lemma keeps_for_find {I B} (l : list I) (body : I -> M (option B)) (Q : B -> Prop) :
  (forall i, i ∈ l -> keeps (body i) (fun r => forall b, r = Some b -> Q b)) ->
  keeps (for_find l body) (fun r => forall b, r = Some b -> Q b).
Proof.
  induction l as [|i l IH]; intros Hb; simpl; [by apply keeps_ret|].
  eapply keeps_bind; [apply Hb; left|]. intros [b|] Hr; [by apply keeps_ret|].
  apply IH. intros j Hj. apply Hb. by right.
Qed.

Lemma keeps_for_fold {I S} (l : list I) (body : I -> S -> M S) (J : S -> Prop) s :
  (forall i s, i ∈ l -> J s -> keeps (body i s) J) -> J s -> keeps (for_fold l body s) J.
Proof.
  revert s. induction l as [|i l IH]; intros s Hb Hs; simpl; [by apply keeps_ret|].
  eapply keeps_bind; [by apply Hb; [left|]|]. intros s' Hs'. apply IH; [|done].
  intros j s'' Hj. apply Hb. by right.
Qed.

Lemma keeps_for_return {I S B} (l : list I) (body : I -> S -> M (S + B)) (J : S -> Prop) (Q : B -> Prop) s :
  (forall i s, i ∈ l -> J s -> keeps (body i s) (fun r => match r with inl s => J s | inr b => Q b end)) ->
  J s -> keeps (for_return l body s) (fun r => match r with inl s => J s | inr b => Q b end).
Proof.
  revert s. induction l as [|i l IH]; intros s Hb Hs; simpl; [by apply keeps_ret|].
  eapply keeps_bind; [by apply Hb; [left|]|]. intros [s'|b] Hr; [|by apply keeps_ret].
  apply IH; [|done]. intros j s'' Hj. apply Hb. by right.
Qed.

Lemma keeps_iter {S B} fuel (body : S -> M (S + B)) (J : S -> Prop) (Q : B -> Prop) s :
  (forall s, J s -> keeps (body s) (fun r => match r with inl s => J s | inr b => Q b end)) ->
  J s -> keeps (iter fuel body s) Q.
Proof.
  intros Hb. revert s. induction fuel as [|fuel IH]; intros s Hs; simpl; [apply keeps_diverge|].
  eapply keeps_bind; [by apply Hb|]. intros [s'|b] Hr; [by apply IH | by apply keeps_ret].
Qed.

Lemma keeps_sleep_loop {B} (body : M (option B)) (Q : B -> Prop) :
  keeps body (fun r => forall b, r = Some b -> Q b) -> keeps (sleep_loop body) Q.
Proof.
  intros Hb. unfold sleep_loop. eapply keeps_bind; [apply keeps_gets|]. intros n _.
  apply (keeps_iter _ _ (fun _ => True)); [|done]. intros _ _.
  eapply keeps_bind; [exact Hb|]. intros [b|] Hr; apply keeps_ret; [by apply Hr | done].
Qed.

Lemma keeps_for_lt fuel bound body m :
  keeps bound (fun n => n <= m) -> (forall i, 0 <= i < m -> keeps (body i) (fun _ => True)) ->
  keeps (for_lt fuel bound body) (fun _ => True).
Proof.
  intros Hn Hb. unfold for_lt. apply (keeps_iter _ _ (fun i => 0 <= i)); [|done]. intros i Hi.
  eapply keeps_bind; [exact Hn|]. intros n Hm. cbv beta in Hm. destruct (Z.ltb_spec i n); [|by apply keeps_ret].
  eapply keeps_bind; [apply Hb; lia|]. intros _ _. apply keeps_ret. cbv iota. lia.
Qed.

(** ** Updates of the state *)

Lemma table_alter {A} n (P : A -> Prop) f i t :
  table n P t -> (forall x, P x -> P (f x)) -> table n P (alter f i t).
Proof.
  intros [Hl HP] Hf. split; [by rewrite length_alter|]. apply Forall_lookup. intros j x Hx.
  destruct (decide (j = i)) as [->|Hne].
  - rewrite list_lookup_alter_eq in Hx. destruct (t !! i) as [y|] eqn:Hy; [|done]. simplify_eq/=.
    apply Hf. by apply (Forall_lookup_1 _ _ _ _ HP Hy).
  - rewrite list_lookup_alter_ne in Hx by done. by apply (Forall_lookup_1 _ _ _ _ HP Hx).
Qed.

Lemma int32_s32 x : int32 (s32 x).
Proof. unfold int32, s32. Z.div_mod_to_equations. lia. Qed.

Lemma int32_small x : - 2 ^ 31 <= x < 2 ^ 31 -> int32 x.
Proof. done. Qed.

Lemma opt_lt_None n : opt_lt n None.
Proof. by intros i [=]. Qed.

Lemma opt_lt_Some n i : (i < n)%nat -> opt_lt n (Some i).
Proof. by intros Hi j [= <-]. Qed.

Lemma opt_lt_inv n i : opt_lt n (Some i) -> (i < n)%nat.
Proof. intros H. by apply H. Qed.

Lemma opt_lt_le n i : opt_lt n (Some i) -> (i <= n)%nat.
Proof. intros H. by apply Nat.lt_le_incl, H. Qed.

Lemma u32_nonneg x : 0 <= u32 x.
Proof. apply u32_range. Qed.

Create HintDb keeps discriminated.
#[export] Hint Constants Opaque : keeps.
#[export] Hint Resolve int32_s32 opt_lt_None opt_lt_Some opt_lt_inv opt_lt_le u32_nonneg I : keeps.
#[export] Hint Resolve t_cpus t_ncpu t_ptable t_nextpid t_initproc t_mem t_mt t_ftable t_pipes t_bcache
  t_idequeue t_klog t_lh_n t_icache t_devsw t_disk t_input t_idt : keeps.
#[export] Hint Resolve ct_gdt ct_proc pt_parent pt_ofile pt_files pt_cwd pt_name pt_pid pt_killed pt_traceflag
  pt_counter pt_timeslice pt_tickets pt_retime pt_stime pt_rutime pt_ctime pt_total_time pt_max_time
  pt_init_time pt_priority bt_prev bt_next bt_qnext bt_data ft_ip ft_off : keeps.
#[export] Hint Extern 5 (int32 _) => (apply int32_small; lia) : keeps.
#[export] Hint Extern 5 (0 <= _)%Z => lia : keeps.
#[export] Hint Extern 5 (_ < _)%nat => lia : keeps.
#[export] Hint Extern 5 (_ <= _)%nat => lia : keeps.

(** A record whose components are typed stays so when one of them is set to a
    typed value: the others are unchanged by computation. *)
Ltac retype H := destruct H; split; first [assumption | rec_simpl; solve [auto with keeps] | rec_simpl].

Lemma keeps_set_proc i f : (i < NPROC)%nat ->
  (forall p, proc_typed p -> proc_typed (f p)) -> keeps (set_proc i f) (fun _ => True).
Proof.
  intros Hi Hf. apply keeps_put_slot with NPROC; [apply t_ptable | done |].
  intros k Hk. retype Hk. by apply table_alter.
Qed.

Lemma keeps_set_cpu i f : (i < NCPU)%nat ->
  (forall c, cpu_typed c -> cpu_typed (f c)) -> keeps (set_cpu i f) (fun _ => True).
Proof.
  intros Hi Hf. apply keeps_put_slot with NCPU; [apply t_cpus | done |].
  intros k Hk. retype Hk. by apply table_alter.
Qed.

Lemma keeps_set_buf i f : (i <= NBUF)%nat ->
  (forall b, buf_typed b -> buf_typed (f b)) -> keeps (set_buf i f) (fun _ => True).
Proof.
  intros Hi Hf. apply keeps_put_slot with (S NBUF); [apply t_bcache | lia |].
  intros k Hk. retype Hk. by apply table_alter.
Qed.

Lemma keeps_get_proc i : (i < NPROC)%nat -> keeps (get_proc i) proc_typed.
Proof. by apply keeps_slot, t_ptable. Qed.

Lemma keeps_get_cpu i : (i < NCPU)%nat -> keeps (get_cpu i) cpu_typed.
Proof. by apply keeps_slot, t_cpus. Qed.

Lemma keeps_get_buf b : (b <= NBUF)%nat -> keeps (get_buf b) buf_typed.
Proof. intros Hb. apply (keeps_slot _ _ _ (S NBUF)); [apply t_bcache | lia]. Qed.

Lemma keeps_gets_any {A} (f : kernel -> A) : keeps (gets f) (fun _ => True).
Proof. intros k Hk. done. Qed.
#[export] Hint Resolve keeps_get_proc keeps_get_cpu keeps_get_buf : keeps.

Lemma in_procs i : i ∈ procs -> (i < NPROC)%nat.
Proof. intros Hi. apply elem_of_seq in Hi. lia. Qed.

(** ** Proof search

    [keep] walks over the code: known routines are found in the hint database
    [keeps], branches are split, updates are retyped; what it leaves are the
    side conditions it cannot decide. *)

Ltac known_exception := unfold exceptions; repeat first [apply list_elem_of_here | apply list_elem_of_further].

Ltac kside := solve [auto with keeps | lia | eauto with keeps | intros; simplify_eq; auto with keeps].

(** An index of an array: the length of the array from its type, the bounds
    from the tests made before. *)
Ltac krange :=
  repeat match goal with
  | H : proc_typed ?p |- context [length (ofile ?p)] => rewrite (pt_ofile _ H)
  | H : typed ?k |- context [length (lh_block (klog ?k))] => rewrite (t_klog _ H)
  | H : typed ?k |- context [length (in_buf (input ?k))] => rewrite (t_input _ H)
  | H : typed ?k |- context [length (data (pipes ?k ?p))] => rewrite (t_pipes _ H p)
  | |- context [?a mod ?b] =>
      lazymatch goal with
      | _ : 0 <= a mod b < b |- _ => fail
      | _ => pose proof (Z.mod_pos_bound a b ltac:(done))
      end
  end; lia.

Ltac kintro :=
  let a := fresh "a" in let Ha := fresh "Ha" in
  intros a Ha; cbv beta in Ha;
  lazymatch type of Ha with
  | exists k, typed k /\ _ => let k := fresh "k" in let Hk := fresh "Hk" in destruct Ha as (k & Hk & ->)
  | _ => idtac
  end.

Ltac kupdate :=
  lazymatch goal with
  | |- keeps (set_proc _ _) _ => let H := fresh in apply keeps_set_proc; [try kside | intros ? H; retype H]
  | |- keeps (set_cpu _ _) _ => let H := fresh in apply keeps_set_cpu; [try kside | intros ? H; retype H]
  | |- keeps (set_buf _ _) _ => let H := fresh in apply keeps_set_buf; [try kside | intros ? H; retype H]
  | |- keeps (elem_at _ _ _) _ =>
      first [apply keeps_elem_at; try krange | eapply keeps_mono; [apply keeps_elem_at; try krange | done]]
  | |- keeps (in_array _ _ _) _ => apply keeps_in_array; try krange
  | |- keeps (modify _) _ => let H := fresh in apply keeps_modify; intros ? H; retype H
  | |- keeps (gets _) _ => first [apply keeps_gets | apply keeps_gets_any]
  end.

Ltac kindex H :=
  first [apply in_procs in H | apply elem_of_seq in H | apply elem_of_seqZ in H | idtac].

Ltac keep1 :=
  lazymatch goal with
  | |- keeps (bind _ _) _ =>
      first [ eapply keeps_bind; [solve [eauto with keeps]|]; kintro
            | eapply keeps_bind; [kupdate|kintro]
            | eapply (keeps_bind _ _ (fun _ => True)); [|intros ? _] ]
  | |- keeps (ret _) _ => apply keeps_ret; cbv beta iota; try kside
  | |- keeps (panic _) _ => apply keeps_panic
  | |- keeps (fault _) _ => apply keeps_fault; known_exception
  | |- keeps (fun k => Spin _ k) _ => apply keeps_spin
  | |- keeps (fun k => Diverge k) _ => apply keeps_diverge
  | |- keeps (when _ _) _ => apply keeps_when; intros _
  | |- keeps (for_each _ _) _ => let H := fresh "Hin" in apply keeps_for_each; intros ? H; kindex H
  | |- keeps (iter _ _ _) _ => apply (keeps_iter _ _ (fun _ => True)); [intros ? _ | done]
  | |- keeps (sleep_loop _) _ => apply keeps_sleep_loop
  | |- keeps (for_find _ _) (fun _ => True) =>
      let H := fresh "Hin" in
      eapply keeps_mono; [apply (keeps_for_find _ _ (fun _ => True)); intros ? H; kindex H | done]
  | |- keeps (for_return _ _ _) (fun _ => True) =>
      let H := fresh "Hin" in
      eapply keeps_mono;
        [apply (keeps_for_return _ _ (fun _ => True) (fun _ => True)); [intros ? ? H _; kindex H | done] | done]
  | |- keeps (for_fold _ _ _) (fun _ => True) =>
      let H := fresh "Hin" in
      apply (keeps_for_fold _ _ (fun _ => True)); [intros ? ? H _; kindex H | done]
  | |- keeps (if ?b then _ else _) _ => destruct b eqn:?
  | |- keeps (match ?x with _ => _ end) _ => destruct x eqn:?
  | |- keeps _ _ =>
      first [ solve [eauto with keeps] | kupdate
            | eapply keeps_mono; [solve [eauto with keeps]|]; try done ]
  end.

Ltac keep := repeat keep1.

(** *** spinlock.c *)

Lemma readeflags_keeps : keeps readeflags (fun _ => True).
Proof. apply keeps_gets_any. Qed.
Lemma cli_keeps : keeps cli (fun _ => True).
Proof. unfold cli. keep. Qed.
Lemma sti_keeps : keeps sti (fun _ => True).
Proof. unfold sti. keep. Qed.
#[export] Hint Resolve readeflags_keeps cli_keeps sti_keeps : keeps.

Lemma mycpu_keeps : keeps mycpu (fun i => (i < NCPU)%nat).
Proof.
  unfold mycpu. do 4 keep1.
  eapply keeps_bind; [apply (keeps_for_find _ _ (fun i => i < NCPU)%nat)|].
  - intros i Hi. apply elem_of_seq in Hi. pose proof (t_ncpu _ Hk0). keep. intros b Hb. destruct (_ =? _); simplify_eq; lia.
  - intros [i|] Hi; keep.
Qed.
#[export] Hint Resolve mycpu_keeps : keeps.

Lemma initlock_keeps l nm : keeps (initlock l nm) (fun _ => True).
Proof. unfold initlock, set_lock. keep. Qed.
Lemma pushcli_keeps : keeps pushcli (fun _ => True).
Proof. unfold pushcli. keep. Qed.
Lemma popcli_keeps : keeps popcli (fun _ => True).
Proof. unfold popcli. keep. Qed.
#[export] Hint Resolve initlock_keeps pushcli_keeps popcli_keeps : keeps.
Lemma holding_keeps l : keeps (holding l) (fun _ => True).
Proof. unfold holding. keep. Qed.
#[export] Hint Resolve holding_keeps : keeps.
Lemma acquire_keeps l : keeps (acquire l) (fun _ => True).
Proof. unfold acquire, set_lock. keep. Qed.
Lemma release_keeps l : keeps (release l) (fun _ => True).
Proof. unfold release, set_lock. keep. Qed.
Lemma myproc_keeps : keeps myproc (opt_lt NPROC).
Proof. unfold myproc. keep. Qed.
#[export] Hint Resolve acquire_keeps release_keeps myproc_keeps : keeps.

(** *** proc.c *)

(** What the other processes do to the state at a switch keeps it typed. *)
Class TypedWorld `{Machine} := interfere_typed : forall n k, typed k -> typed (interfere n k).

Section proc.
Context `{TypedWorld}.

Lemma swtch_keeps : keeps swtch (fun _ => True).
Proof.
  intros k Hk. unfold swtch. destruct (budget k); [done|]. split; [done|].
  pose proof (interfere_typed n k Hk) as Hk'. retype Hk'.
Qed.

Lemma curproc_keeps : keeps curproc (fun p => (p < NPROC)%nat).
Proof. unfold curproc. keep. Qed.
Lemma curr_time_keeps : keeps curr_time int32.
Proof. unfold curr_time. keep. Qed.
Lemma countprocs_keeps : keeps countprocs (fun _ => True).
Proof. unfold countprocs. keep. Qed.
Lemma wakeup1_keeps ch : keeps (wakeup1 ch) (fun _ => True).
Proof. unfold wakeup1. keep. Qed.
#[local] Hint Resolve swtch_keeps curproc_keeps wakeup1_keeps : keeps.
Lemma sched_keeps : keeps sched (fun _ => True).
Proof. unfold sched. keep. Qed.
#[local] Hint Resolve sched_keeps : keeps.
Lemma yield_keeps : keeps yield (fun _ => True).
Proof. unfold yield. keep. Qed.
Lemma sleep_steps_keeps ch lk p : (p < NPROC)%nat -> keeps (run_steps (sleep_steps ch lk p)) (fun _ => True).
Proof. intros Hp. unfold run_steps, sleep_steps. destruct (bool_decide _); cbn [app for_each]; keep. Qed.
#[local] Hint Resolve sleep_steps_keeps : keeps.
Lemma sleep_keeps ch lk : keeps (sleep ch lk) (fun _ => True).
Proof. unfold sleep. keep. Qed.
Lemma wakeup_keeps ch : keeps (wakeup ch) (fun _ => True).
Proof. unfold wakeup. keep. Qed.
Lemma set_priority_keeps pid0 priority0 : int32 priority0 -> int32 pid0 -> keeps (set_priority pid0 priority0) int32.
Proof.
  intros Hp Hpid. unfold set_priority. do 2 keep1.
  { eapply keeps_mono; [apply (keeps_for_find _ _ (fun _ => True))|done]. intros i Hin. kindex Hin. keep. }
  keep.
Qed.
Lemma kill_keeps pid0 : keeps (kill pid0) int32.
Proof.
  unfold kill. keep1. eapply keeps_bind; [apply (keeps_for_find _ _ int32)|].
  - intros i Hin. kindex Hin. keep.
  - intros [v|] Hv; keep.
Qed.
Lemma set_max_time_keeps : keeps set_max_time int32.
Proof.
  unfold set_max_time. eapply keeps_bind; [apply (keeps_for_fold _ _ (fun '(q, _) => int32 q)); [|kside]|].
  - intros i [q s] Hin Hq. kindex Hin. keep. destruct (truthy _); kside.
  - intros [q s] Hq. keep.
Qed.
End proc.
#[export] Hint Resolve swtch_keeps curproc_keeps curr_time_keeps countprocs_keeps wakeup1_keeps sched_keeps yield_keeps
  sleep_keeps wakeup_keeps set_priority_keeps kill_keeps set_max_time_keeps : keeps.

(** *** Memory and kalloc.c *)

Lemma put_bytes_ok a l m : mem_ok m -> mem_ok (put_bytes a l m).
Proof. intros H x. unfold put_bytes. repeat case_match; [apply u8_range | apply H..]. Qed.

#[export] Hint Resolve store8_ok store16_ok store32_ok memset_ok put_bytes_ok copy_bytes_ok : keeps.

Lemma st32_keeps a v : keeps (st32 a v) (fun _ => True).
Proof. unfold st32. keep. Qed.
Lemma st16_keeps a v : keeps (st16 a v) (fun _ => True).
Proof. unfold st16. keep. Qed.
Lemma ld32_keeps a : keeps (ld32 a) (fun _ => True).
Proof. apply keeps_gets_any. Qed.
Lemma ld16_keeps a : keeps (ld16 a) (fun _ => True).
Proof. apply keeps_gets_any. Qed.
#[export] Hint Resolve st32_keeps st16_keeps ld32_keeps ld16_keeps : keeps.

Section memory.
Context `{Machine}.

Lemma kfree_keeps v : keeps (kfree v) (fun _ => True).
Proof. unfold kfree. keep. Qed.
Lemma kalloc_keeps : keeps kalloc (fun _ => True).
Proof. unfold kalloc. keep. Qed.
#[local] Hint Resolve kfree_keeps kalloc_keeps : keeps.
Lemma freerange_keeps a b : keeps (freerange a b) (fun _ => True).
Proof. unfold freerange. keep. Qed.
#[local] Hint Resolve freerange_keeps : keeps.
Lemma kinit1_keeps a b : keeps (kinit1 a b) (fun _ => True).
Proof. unfold kinit1. keep. Qed.
Lemma kinit2_keeps a b : keeps (kinit2 a b) (fun _ => True).
Proof. unfold kinit2. keep. Qed.
End memory.
#[export] Hint Resolve kfree_keeps kalloc_keeps kinit1_keeps kinit2_keeps : keeps.

(** *** vm.c *)

Section vm.
Context `{Machine}.

Lemma set_gdt_keeps c seg f : (c < NCPU)%nat -> keeps (set_gdt c seg f) (fun _ => True).
Proof. intros Hc. unfold set_gdt. keep. by rewrite length_alter. Qed.
#[local] Hint Resolve set_gdt_keeps : keeps.
Lemma seginit_keeps : keeps seginit (fun _ => True).
Proof. unfold seginit, cpuid, lgdt. keep. Qed.
Lemma switchkvm_keeps : keeps switchkvm (fun _ => True).
Proof. unfold switchkvm, lcr3. keep. Qed.
Lemma switchuvm_keeps p : opt_lt NPROC p -> keeps (switchuvm p) (fun _ => True).
Proof. intros Hp. unfold switchuvm, ltr, lcr3. keep. Qed.
Lemma walkpgdir_keeps pg va alloc : keeps (walkpgdir pg va alloc) (fun _ => True).
Proof. unfold walkpgdir. keep. Qed.
#[local] Hint Resolve walkpgdir_keeps : keeps.
Lemma mappages_keeps pg va size pa perm : keeps (mappages pg va size pa perm) (fun _ => True).
Proof. unfold mappages. keep. Qed.
Lemma deallocuvm_keeps pg old new : keeps (deallocuvm pg old new) (fun _ => True).
Proof. unfold deallocuvm. keep. Qed.
#[local] Hint Resolve mappages_keeps deallocuvm_keeps : keeps.
Lemma freevm_keeps pg : keeps (freevm pg) (fun _ => True).
Proof. unfold freevm. keep. Qed.
#[local] Hint Resolve freevm_keeps : keeps.
Lemma setupkvm_keeps : keeps setupkvm (fun _ => True).
Proof. unfold setupkvm. keep. Qed.
#[local] Hint Resolve setupkvm_keeps switchkvm_keeps : keeps.
Lemma kvmalloc_keeps : keeps kvmalloc (fun _ => True).
Proof. unfold kvmalloc. keep. Qed.
Lemma inituvm_keeps pg init : keeps (inituvm pg init) (fun _ => True).
Proof. unfold inituvm. keep. Qed.
Lemma clearpteu_keeps pg va : keeps (clearpteu pg va) (fun _ => True).
Proof. unfold clearpteu. keep. Qed.
Lemma copyuvm_keeps pg sz0 : keeps (copyuvm pg sz0) (fun _ => True).
Proof. unfold copyuvm. keep. by apply memmove_ok. Qed.
Lemma copyout_keeps pg va l : keeps (copyout pg va l) (fun _ => True).
Proof. unfold copyout, uva2ka. keep. Qed.
Lemma user_addr_keeps va wr : keeps (user_addr va wr) (fun _ => True).
Proof. unfold user_addr. keep. Qed.
#[local] Hint Resolve user_addr_keeps : keeps.
Lemma ldu8_keeps va : keeps (ldu8 va) (fun _ => True).
Proof. unfold ldu8. keep. Qed.
Lemma stu8_keeps va v : keeps (stu8 va v) (fun _ => True).
Proof. unfold stu8. keep. Qed.
#[local] Hint Resolve ldu8_keeps stu8_keeps : keeps.
Lemma ldu32_keeps va : keeps (ldu32 va) (fun _ => True).
Proof. unfold ldu32. keep. Qed.
Lemma stu32_keeps va v : keeps (stu32 va v) (fun _ => True).
Proof. unfold stu32. keep. Qed.
Lemma ldu_bytes_keeps va n : keeps (ldu_bytes va n) (fun _ => True).
Proof. revert va. induction n; intros va; simpl; keep. Qed.
Lemma stu_bytes_keeps va l : keeps (stu_bytes va l) (fun _ => True).
Proof. revert va. induction l; intros va; simpl; keep. Qed.
End vm.
#[export] Hint Resolve seginit_keeps switchkvm_keeps switchuvm_keeps walkpgdir_keeps mappages_keeps deallocuvm_keeps
  freevm_keeps setupkvm_keeps kvmalloc_keeps inituvm_keeps clearpteu_keeps copyuvm_keeps copyout_keeps
  ldu8_keeps stu8_keeps ldu32_keeps stu32_keeps ldu_bytes_keeps stu_bytes_keeps : keeps.

(** *** console.c, output *)

(** The arguments a format takes. *)
Fixpoint fits (fmt : list Z) (args : list arg) : bool :=
  match fmt with
  | [] => true
  | c :: fmt =>
      if c =? 0 then true else
      if negb (c =? 37) then fits fmt args else
      match fmt with
      | [] => true
      | c :: fmt =>
          if c =? 0 then true else
          if c =? 100 then match args with AInt _ :: args => fits fmt args | _ => false end
          else if (c =? 120) || (c =? 112) then match args with AInt _ :: args => fits fmt args | _ => false end
          else if c =? 115 then match args with AStr _ :: args => fits fmt args | _ => false end
          else fits fmt args
      end
  end.

Lemma consputc_keeps c : keeps (consputc c) (fun _ => True).
Proof. unfold consputc. keep. Qed.
#[export] Hint Resolve consputc_keeps : keeps.
Lemma putchars_keeps l : keeps (putchars l) (fun _ => True).
Proof. unfold putchars. keep. Qed.
#[export] Hint Resolve putchars_keeps : keeps.
Lemma printint_keeps x base sign : keeps (printint x base sign) (fun _ => True).
Proof. unfold printint. keep. Qed.
#[export] Hint Resolve printint_keeps : keeps.

Lemma format_keeps fmt args : fits fmt args = true -> keeps (format fmt args) (fun _ => True).
Proof.
  remember (length fmt) as n eqn:Hn. revert fmt args Hn.
  induction (lt_wf n) as [n _ IH]. intros fmt args -> Hf.
  assert (Hrec : forall fmt' args', (length fmt' < length fmt)%nat -> fits fmt' args' = true ->
    keeps (format fmt' args') (fun _ => True)) by (intros; by eapply IH).
  clear IH. destruct fmt as [|c fmt]; [by apply keeps_ret|]. cbn [format fits] in *.
  destruct (c =? 0); [by apply keeps_ret|]. destruct (negb (c =? 37)).
  { keep1. apply Hrec; [simpl; lia | done]. }
  destruct fmt as [|d fmt]; [by apply keeps_ret|]. destruct (d =? 0); [by apply keeps_ret|].
  assert (Hrest : forall args', fits fmt args' = true -> keeps (format fmt args') (fun _ => True))
    by (intros args' H; apply Hrec; [simpl; lia | done]).
  repeat case_match; try done; keep; by apply Hrest.
Qed.

Lemma cprintf_keeps fmt args : fits fmt args = true -> keeps (cprintf fmt args) (fun _ => True).
Proof. intros Hf. pose proof (format_keeps fmt args Hf). unfold cprintf. keep. Qed.
#[export] Hint Extern 1 (keeps (cprintf _ _) _) => (apply cprintf_keeps; reflexivity) : keeps.

Lemma allocuvm_keeps `{Machine} pg old new : keeps (allocuvm pg old new) (fun _ => True).
Proof. unfold allocuvm. keep. Qed.
#[export] Hint Resolve allocuvm_keeps : keeps.

(** *** rand.c *)

Lemma genrand_keeps : keeps genrand (fun _ => True).
Proof.
  intros k Hk. destruct (genrand_ok k (t_mt _ Hk)) as (r & k' & Hrun & Hmt & Honly & _). rewrite Hrun.
  split; [done|]. rewrite Honly in Hmt |- *. retype Hk.
Qed.
#[export] Hint Resolve genrand_keeps : keeps.
Lemma random_at_most_keeps fuel max : keeps (random_at_most fuel max) (fun _ => True).
Proof. unfold random_at_most, draw. keep. by case_match. Qed.
#[export] Hint Resolve random_at_most_keeps : keeps.

(** *** The schedulers *)

Section sched.
Context `{TypedWorld}.

Lemma count_tickets_keeps : keeps count_tickets (fun _ => True).
Proof. unfold count_tickets. keep. Qed.
Lemma leave_keeps c : (c < NCPU)%nat -> keeps (leave c) (fun _ => True).
Proof. intros Hc. unfold leave. keep. Qed.
Lemma int32_INTERV : int32 INTERV.
Proof. by split. Qed.
#[local] Hint Resolve int32_INTERV : keeps.
Lemma lottery_enter_keeps c i : (c < NCPU)%nat -> (i < NPROC)%nat -> keeps (lottery_enter c i) (fun _ => True).
Proof. intros Hc Hi. unfold lottery_enter. keep. Qed.
Lemma priority_enter_keeps c i : (c < NCPU)%nat -> (i < NPROC)%nat -> keeps (priority_enter c i) (fun _ => True).
Proof. intros Hc Hi. unfold priority_enter. keep. Qed.
#[local] Hint Resolve count_tickets_keeps leave_keeps lottery_enter_keeps priority_enter_keeps : keeps.

Lemma lottery_walk_keeps c w : (c < NCPU)%nat -> keeps (lottery_walk c w) (fun _ => True).
Proof. intros Hc. unfold lottery_walk. keep. Qed.
#[local] Hint Resolve lottery_walk_keeps : keeps.
Lemma lottery_round_keeps fuel c f : (c < NCPU)%nat -> keeps (lottery_round fuel c f) (fun _ => True).
Proof. intros Hc. unfold lottery_round. keep. Qed.

Lemma find_highP_keeps i : (i < NPROC)%nat -> keeps (find_highP i) (fun j => (j < NPROC)%nat).
Proof.
  intros Hi. unfold find_highP. apply keeps_for_fold; [|done]. intros j h Hin Hh. kindex Hin. keep.
  destruct (_ <? _); lia.
Qed.
#[local] Hint Resolve lottery_round_keeps find_highP_keeps : keeps.

Lemma priority_step_keeps c i : (c < NCPU)%nat -> (i < NPROC)%nat -> keeps (priority_step c i) (fun _ => True).
Proof. intros Hc Hi. unfold priority_step. keep. Qed.

Lemma priority_round_keeps c : (c < NCPU)%nat -> keeps (priority_round c) (fun _ => True).
Proof.
  intros Hc. unfold priority_round. keep. apply Nat.ltb_lt in Heqb.
  eapply keeps_mono; [by apply priority_step_keeps|]. by intros [|].
Qed.
#[local] Hint Resolve priority_round_keeps : keeps.

Lemma scheduler_keeps fuel rounds : keeps (scheduler fuel rounds) (fun _ => True).
Proof. unfold scheduler. keep. Qed.
End sched.
#[export] Hint Resolve scheduler_keeps : keeps.

(** *** sleeplock.c *)

Section sleeplock.
Context `{TypedWorld}.

Lemma initsleeplock_keeps s nm : keeps (initsleeplock s nm) (fun _ => True).
Proof. unfold initsleeplock, set_sleeplock. keep. Qed.
Lemma mypid_keeps : keeps mypid int32.
Proof. unfold mypid. keep. Qed.
#[local] Hint Resolve mypid_keeps : keeps.
Lemma acquiresleep_keeps s : keeps (acquiresleep s) (fun _ => True).
Proof. unfold acquiresleep, set_sleeplock. keep. Qed.
Lemma releasesleep_keeps s : keeps (releasesleep s) (fun _ => True).
Proof. unfold releasesleep, set_sleeplock. keep. Qed.
Lemma holdingsleep_keeps s : keeps (holdingsleep s) (fun _ => True).
Proof. unfold holdingsleep. keep. Qed.
End sleeplock.
#[export] Hint Resolve initsleeplock_keeps mypid_keeps acquiresleep_keeps releasesleep_keeps holdingsleep_keeps : keeps.

(** *** bio.c and memide.c *)

(** What bio.c relies on in its driver. *)
Class TypedDriver `{BlockDriver} := iderw_keeps : forall b, (b < NBUF)%nat -> keeps (iderw b) (fun _ => True).
#[export] Hint Resolve iderw_keeps : keeps.

#[export] Instance memide_typed `{TypedWorld} : @TypedDriver memide.
Proof.
  intros b Hb. cbn [iderw memide]. unfold memide_iderw. keep.
  intros x. case_match; auto with keeps.
Qed.

Lemma HEAD_le : (HEAD <= NBUF)%nat.
Proof. done. Qed.
#[export] Hint Resolve HEAD_le : keeps.

Section bio.
Context `{TypedWorld} `{TypedDriver}.

Lemma binit_keeps : keeps binit (fun _ => True).
Proof. unfold binit. keep. Qed.

Lemma scan_keeps step p :
  (forall bf, buf_typed bf -> (step bf <= NBUF)%nat) -> keeps (scan step p) (opt_lt NBUF).
Proof.
  intros Hs. unfold scan. keep1. apply (keeps_iter _ _ (fun b => b <= NBUF)%nat); [|by apply Hs].
  intros b Hb. destruct (Nat.eqb_spec b HEAD); keep. unfold HEAD in *. intros i [= <-]. lia.
Qed.

Lemma bget_keeps dev blockno : keeps (bget dev blockno) (fun b => (b < NBUF)%nat).
Proof.
  unfold bget. keep1. eapply keeps_bind; [apply scan_keeps, bt_next|].
  intros [b|] Hb; [keep|]. eapply keeps_bind; [apply scan_keeps, bt_prev|]. intros [b|] Hb'; keep.
Qed.
#[local] Hint Resolve bget_keeps : keeps.

Lemma bread_keeps dev blockno : keeps (bread dev blockno) (fun b => (b < NBUF)%nat).
Proof. unfold bread. keep. Qed.
Lemma bwrite_keeps b : (b < NBUF)%nat -> keeps (bwrite b) (fun _ => True).
Proof. intros Hb. unfold bwrite. keep. Qed.
Lemma to_front_keeps b : (b < NBUF)%nat -> keeps (to_front b) (fun _ => True).
Proof. intros Hb. unfold to_front. keep. Qed.
#[local] Hint Resolve to_front_keeps : keeps.
Lemma brelse_keeps b : (b < NBUF)%nat -> keeps (brelse b) (fun _ => True).
Proof. intros Hb. unfold brelse. keep. Qed.
End bio.
#[export] Hint Resolve binit_keeps bread_keeps bwrite_keeps brelse_keeps : keeps.
