(* ===== verification/TypedFs.v ===== *)
(** The typing invariant of Typed.v, for the log, the file system, pipes and
    open files. *)

From S2P Require Import Prelude Memory KString Kernel Spinlock Cprintf Kalloc Vm Rand Proc Sched Sleeplock Observe Bio Log Fs Pipe File Typed.

(** ** log.c *)

Lemma put_word_len n i v l : Z.of_nat (length l) = n -> Z.of_nat (length (put_word i v l)) = n.
Proof. by rewrite put_word_length. Qed.
Lemma empty_log : 0 <= LOGSIZE.
Proof. done. Qed.
#[export] Hint Resolve put_word_len empty_log : keeps.

Section log.
Context `{TypedWorld} `{TypedDriver}.

Lemma readsb_keeps dev : keeps (readsb dev) (fun _ => True).
Proof. unfold readsb. keep. Qed.
Lemma get_lhblock_keeps i : 0 <= i < LOGSIZE -> keeps (get_lhblock i) (fun _ => True).
Proof. intros Hi. unfold get_lhblock. keep. Qed.
Lemma for_log_keeps body : (forall i, 0 <= i < LOGSIZE -> keeps (body i) (fun _ => True)) -> keeps (for_log body) (fun _ => True).
Proof.
  intros Hb. apply keeps_for_lt with LOGSIZE; [|done].
  eapply keeps_mono; [apply keeps_gets|]. intros n (k & Hk & ->). by apply t_lh_n.
Qed.
#[local] Hint Resolve get_lhblock_keeps for_log_keeps : keeps.

(** The count in the header on the disk may be any; a larger one than the log
    has is found when a block number is stored. *)
Definition reset_n (k : kernel) : kernel := upd_klog (upd_lh_n (fun _ => 0)) k.

Lemma read_loop_keeps g n i fuel k :
  typed (reset_n k) -> lh_n (klog k) = n -> 0 <= i <= LOGSIZE -> LOGSIZE < i + Z.of_nat fuel ->
  match iter fuel (fun i =>
      let* n := gets (fun k => lh_n (klog k)) in
      if i <? n then set_lhblock "log header" i (g i) ;; ret (inl (i + 1)) else ret (inr tt)) i k with
  | Ret _ k' => typed k'
  | Fault msg _ => msg ∈ exceptions
  | _ => False
  end.
Proof.
  revert i k. induction fuel as [|fuel IH]; intros i k Hk Hn Hi Hf; [lia|]. cbn [iter]. rewrite bind_assoc, bind_gets, Hn.
  destruct (Z.ltb_spec i n) as [Hlt|Hge].
  - unfold set_lhblock. rewrite !bind_assoc, bind_gets. destruct (Z.eq_dec i LOGSIZE) as [->|Hne].
    + unfold in_array. pose proof (t_klog _ Hk) as Hl. change (lh_block (klog (reset_n k))) with (lh_block (klog k)) in Hl.
      rewrite Hl, Z.ltb_irrefl, andb_false_r. unfold fault, bind. known_exception.
    + rewrite bind_assoc, bind_in_array by (pose proof (t_klog _ Hk) as Hl; change (lh_block (klog (reset_n k))) with (lh_block (klog k)) in Hl; lia).
      rewrite ?bind_assoc, bind_modify, bind_ret. apply IH; [|done|lia|lia].
      unfold reset_n in *. retype Hk. by rewrite length_insert.
  - unfold ret, bind, reset_n in *. retype Hk. lia.
Qed.

Lemma read_header_keeps n g :
  keeps (modify (upd_klog (upd_lh_n (fun _ => n))) ;; for_log (fun i => set_lhblock "log header" i (g i))) (fun _ => True).
Proof.
  intros k Hk. rewrite bind_modify. unfold for_log, for_lt.
  assert (typed (reset_n (upd_klog (upd_lh_n (fun _ => n)) k))) as Hr by (unfold reset_n; retype Hk; done).
  pose proof (read_loop_keeps g n 0 (S (S (Z.to_nat LOGSIZE))) (upd_klog (upd_lh_n (fun _ => n)) k)
    Hr eq_refl ltac:(done) ltac:(done)) as Hl.
  match type of Hl with match ?m with _ => _ end => destruct m end; done.
Qed.

Lemma install_trans_keeps : keeps install_trans (fun _ => True).
Proof. unfold install_trans. apply for_log_keeps. intros. keep. Qed.
Lemma read_head_keeps : keeps read_head (fun _ => True).
Proof.
  unfold read_head. do 3 keep1.
  apply (keeps_assoc _ (fun _ => for_log (fun i => set_lhblock "log header" i (s32 (word_at (b_data a0) (4 + 4 * Z.to_nat i))))) (fun _ => brelse a)).
  eapply keeps_bind; [apply (read_header_keeps _ (fun i => s32 (word_at (b_data a0) (4 + 4 * Z.to_nat i))))|]. intros _ _. keep.
Qed.
Lemma write_head_keeps : keeps write_head (fun _ => True).
Proof. unfold write_head. keep. apply for_log_keeps. intros. keep. Qed.
Lemma write_log_keeps : keeps write_log (fun _ => True).
Proof. unfold write_log. apply for_log_keeps. intros. keep. Qed.
#[local] Hint Resolve readsb_keeps install_trans_keeps read_head_keeps write_head_keeps write_log_keeps : keeps.
Lemma recover_from_log_keeps : keeps recover_from_log (fun _ => True).
Proof. unfold recover_from_log. keep. Qed.
Lemma commit_keeps : keeps commit (fun _ => True).
Proof. unfold commit. keep. Qed.
#[local] Hint Resolve recover_from_log_keeps commit_keeps : keeps.
Lemma initlog_keeps dev : keeps (initlog dev) (fun _ => True).
Proof. unfold initlog. keep. Qed.
Lemma begin_op_keeps : keeps begin_op (fun _ => True).
Proof. unfold begin_op. keep. Qed.
Lemma end_op_keeps : keeps end_op (fun _ => True).
Proof. unfold end_op. keep. Qed.

#[local] Instance log_blind : Blind klog.
Proof. by split. Qed.

Lemma log_slot_range lg blockno : lh_n lg < LOGSIZE -> 0 <= log_slot lg blockno <= Z.max 0 (lh_n lg).
Proof.
  intros Hn. unfold log_slot. destruct (find_index _ _) as [i|] eqn:E; [|lia].
  apply find_index_lt in E. rewrite length_take in E. lia.
Qed.

(** The slot of a block is one of the log, since the transaction is not too big. *)
Lemma log_write_keeps b : (b < NBUF)%nat -> keeps (log_write b) (fun _ => True).
Proof.
  intros Hb k Hk. unfold log_write. rewrite bind_gets.
  destruct (_ || _) eqn:Eg; [done|]. apply orb_false_iff in Eg as [Hn%Z.leb_gt _].
  destruct (_ <? 1); [done|]. pose proof (acquire_keeps L_log k Hk) as Ha.
  pose proof (acquire_moves klog eq L_log k) as Hm. unfold bind at 1. destruct (acquire L_log k) as [[] k1| | | | |]; try done.
  destruct Ha as [_ Hk1]. simpl in Hm. destruct (lookup_lt_is_Some_2 (bcache k1) b) as [bf Hbf].
  { rewrite (proj1 (t_bcache _ Hk1)). lia. }
  rewrite (bind_Ret _ _ _ bf k1) by (by apply slot_eq). rewrite bind_gets, <- Hm.
  pose proof (log_slot_range (klog k) (b_blockno bf) Hn) as Hs. set (i := log_slot (klog k) (b_blockno bf)) in *.
  pose proof (t_klog _ Hk1) as Hl. unfold set_lhblock. rewrite !bind_assoc, bind_gets, bind_assoc, bind_in_array, bind_modify
    by (unfold LOGSIZE, MAXOPBLOCKS in *; lia).
  set (k2 := upd_klog _ k1).
  assert (typed k2) as Hk2 by (unfold k2; retype Hk1; by rewrite length_insert).
  assert (forall k3, typed k3 -> match (set_buf b (upd_b_flags (fun fl => Z.lor fl B_DIRTY)) ;; release L_log) k3 with
    | Ret _ k' => True /\ typed k' | Panic _ k' | Spin _ k' | Blocked k' | Diverge k' => typed k' | Fault msg _ => msg ∈ exceptions end) as Hrest.
  { change (keeps (set_buf b (upd_b_flags (fun fl => Z.lor fl B_DIRTY)) ;; release L_log) (fun _ => True)). keep. }
  destruct (Z.eqb_spec i (lh_n (klog k))) as [Ei|_]; cbn [when]; [rewrite bind_modify | rewrite bind_ret]; apply Hrest; [|done].
  assert (lh_n (klog k2) = lh_n (klog k)) as En by (unfold k2; simpl; by rewrite <- Hm).
  retype Hk2. rewrite En. lia.
Qed.
End log.
#[export] Hint Resolve readsb_keeps initlog_keeps begin_op_keeps end_op_keeps log_write_keeps : keeps.

(** ** fs.c *)

(** What fs.c relies on in the drivers of device files. *)
Class TypedDevices `{DevOps} := {
  dev_read_keeps d ip n : opt_lt NINODE ip -> keeps (dev_read d ip n) (fun _ => True);
  dev_write_keeps d ip src n : opt_lt NINODE ip -> keeps (dev_write d ip src n) (fun _ => True);
}.
#[export] Hint Resolve dev_read_keeps dev_write_keeps : keeps.

Definition inode_typed (i : inode) : Prop := length (i_addrs i) = 13%nat.

Lemma write_dinode_len n ip o l : Z.of_nat (length l) = n -> Z.of_nat (length (write_dinode ip o l)) = n.
Proof. unfold write_dinode. by rewrite put_words_length, put_word_length, !put_short_length. Qed.

Lemma set_bit_len n bi l : Z.of_nat (length l) = n -> Z.of_nat (length (set_bit bi l)) = n.
Proof. unfold set_bit. by rewrite length_alter. Qed.

Lemma clear_bit_len n bi l : Z.of_nat (length l) = n -> Z.of_nat (length (clear_bit bi l)) = n.
Proof. unfold clear_bit. by rewrite length_alter. Qed.
#[export] Hint Resolve write_dinode_len set_bit_len clear_bit_len : keeps.

Lemma deref_keeps {A} (p : option A) : keeps (deref p) (fun a => p = Some a).
Proof. unfold deref. keep. Qed.
#[export] Hint Resolve deref_keeps : keeps.

Lemma keeps_slot_inode i : (i < NINODE)%nat -> keeps (slot "icache.inode" icache i) inode_typed.
Proof. by apply keeps_slot, t_icache. Qed.
#[export] Hint Resolve keeps_slot_inode : keeps.

Lemma get_inode_keeps ip : opt_lt NINODE ip -> keeps (get_inode ip) inode_typed.
Proof. intros Hip. unfold get_inode. keep1. subst ip. keep. Qed.
#[export] Hint Resolve get_inode_keeps : keeps.

Lemma keeps_set_inode ip f : opt_lt NINODE ip ->
  (forall i, inode_typed i -> inode_typed (f i)) -> keeps (set_inode ip f) (fun _ => True).
Proof.
  intros Hip Hf. unfold set_inode. keep1. subst ip. apply keeps_put_slot with NINODE; [apply t_icache | kside |].
  intros k Hk. retype Hk. by apply table_alter.
Qed.
#[export] Hint Extern 2 (keeps (set_inode _ _) _) =>
  (apply keeps_set_inode; [auto with keeps | intros ? ?; first [assumption | unfold inode_typed; reflexivity]]) : keeps.

(** A pair whose first component is an index. *)
Definition fst_lt {A} (n : nat) (o : option (nat * A)) : Prop := forall p, o = Some p -> (p.1 < n)%nat.

Lemma fst_lt_None {A} n : @fst_lt A n None.
Proof. by intros p [=]. Qed.
Lemma fst_lt_Some {A} n i (a : A) : (i < n)%nat -> fst_lt n (Some (i, a)).
Proof. by intros Hi p [= <-]. Qed.
Lemma fst_lt_inv {A} n i (a : A) : fst_lt n (Some (i, a)) -> (i < n)%nat.
Proof. intros H. by apply (H (i, a)). Qed.
#[export] Hint Resolve fst_lt_None fst_lt_Some fst_lt_inv : keeps.

Section fs.
Context `{TypedWorld} `{TypedDriver} `{TypedDevices}.

Lemma bzero_keeps dev bno : keeps (bzero dev bno) (fun _ => True).
Proof. unfold bzero. keep. Qed.
#[local] Hint Resolve bzero_keeps : keeps.
Lemma balloc_keeps dev : keeps (balloc dev) (fun _ => True).
Proof. unfold balloc. keep. Qed.
Lemma bfree_keeps dev b : keeps (bfree dev b) (fun _ => True).
Proof. unfold bfree. keep. Qed.
#[local] Hint Resolve balloc_keeps bfree_keeps : keeps.

Lemma iinit_keeps dev : keeps (iinit dev) (fun _ => True).
Proof. unfold iinit. keep. Qed.

Lemma iget_keeps dev inum : keeps (iget dev inum) (opt_lt NINODE).
Proof.
  unfold iget. keep1. eapply keeps_bind; [apply (keeps_for_return _ _ (opt_lt NINODE) (fun i => i < NINODE)%nat); [|kside]|].
  - intros i e Hin He. kindex Hin. keep. repeat case_match; kside.
  - intros [[i|]|i] Hi; keep.
Qed.
Lemma idup_keeps ip : opt_lt NINODE ip -> keeps (idup ip) (opt_lt NINODE).
Proof. intros Hip. unfold idup. keep. Qed.
#[local] Hint Resolve iget_keeps idup_keeps : keeps.

Lemma ialloc_keeps dev type : keeps (ialloc dev type) (opt_lt NINODE).
Proof.
  unfold ialloc. keep1. eapply keeps_bind; [apply (keeps_for_find _ _ (opt_lt NINODE))|].
  - intros inum _. keep. rewrite put_short_length, splice_len; [done|]. rewrite repeat_length. unfold dinode_off, IPB, BSIZE in *.
    Z.div_mod_to_equations. lia.
  - intros [ip|] Hip; keep.
Qed.
Lemma iupdate_keeps ip : opt_lt NINODE ip -> keeps (iupdate ip) (fun _ => True).
Proof. intros Hip. unfold iupdate. keep. Qed.
Lemma ilock_keeps ip : opt_lt NINODE ip -> keeps (ilock ip) (fun _ => True).
Proof. intros Hip. unfold ilock. keep. Qed.
Lemma iunlock_keeps ip : opt_lt NINODE ip -> keeps (iunlock ip) (fun _ => True).
Proof. intros Hip. unfold iunlock. keep. Qed.
#[local] Hint Resolve ialloc_keeps iupdate_keeps ilock_keeps iunlock_keeps : keeps.

Lemma get_addr_keeps ip i : opt_lt NINODE ip -> 0 <= i <= NDIRECT -> keeps (get_addr ip i) (fun _ => True).
Proof. intros Hip Hi. unfold get_addr. keep. unfold inode_typed, NDIRECT in *. lia. Qed.
Lemma set_addr_keeps ip i v : opt_lt NINODE ip -> 0 <= i <= NDIRECT -> keeps (set_addr ip i v) (fun _ => True).
Proof.
  intros Hip Hi. unfold set_addr. do 2 keep1; [unfold inode_typed, NDIRECT in *; lia|].
  apply keeps_set_inode; [done|]. intros n Hn. unfold inode_typed. rec_simpl. by rewrite length_insert.
Qed.
#[local] Hint Resolve get_addr_keeps set_addr_keeps : keeps.
#[local] Hint Extern 5 (_ <= _ <= _)%Z => (unfold NDIRECT in *; lia) : keeps.
#[local] Hint Extern 5 (_ <= _)%Z => lia : keeps.

Lemma bmap_keeps ip bn : opt_lt NINODE ip -> 0 <= bn -> keeps (bmap ip bn) (fun _ => True).
Proof. intros Hip Hbn. unfold bmap. keep. Qed.
#[local] Hint Resolve bmap_keeps : keeps.
Lemma itrunc_keeps ip : opt_lt NINODE ip -> keeps (itrunc ip) (fun _ => True).
Proof. intros Hip. unfold itrunc. keep. Qed.
#[local] Hint Resolve itrunc_keeps : keeps.
Lemma iput_keeps ip : opt_lt NINODE ip -> keeps (iput ip) (fun _ => True).
Proof. intros Hip. unfold iput. keep. Qed.
#[local] Hint Resolve iput_keeps : keeps.
Lemma iunlockput_keeps ip : opt_lt NINODE ip -> keeps (iunlockput ip) (fun _ => True).
Proof. intros Hip. unfold iunlockput. keep. Qed.
Lemma stati_keeps ip : opt_lt NINODE ip -> keeps (stati ip) (fun _ => True).
Proof. intros Hip. unfold stati. keep. Qed.
#[local] Hint Resolve iunlockput_keeps stati_keeps : keeps.

Lemma driver_keeps major : keeps (driver major) (fun _ => True).
Proof.
  unfold driver. keep1; [keep|]. apply orb_false_iff in Heqb as [Hlo Hhi].
  eapply keeps_bind; [apply (keeps_slot _ _ (fun _ => True) NDEV)|intros; keep].
  - intros k Hk. split; [by apply t_devsw | by apply Forall_true].
  - lia.
Qed.
#[local] Hint Resolve driver_keeps : keeps.
Lemma readi_keeps ip off n : opt_lt NINODE ip -> 0 <= off -> keeps (readi ip off n) (fun _ => True).
Proof.
  intros Hip Hoff. unfold readi. keep1. do 2 (keep1; [keep|]).
  apply (keeps_iter _ _ (fun '(_, off, _) => 0 <= off)); [|done]. intros [[tot off'] acc] Hoff'.
  pose proof (Z.mod_pos_bound off' BSIZE ltac:(done)).
  pose proof (Z.div_pos off' BSIZE Hoff' ltac:(done)). keep.
Qed.

Lemma chunk_len off n tot (src d : list Z) :
  Z.of_nat (length d) = BSIZE ->
  Z.of_nat (length (splice (Z.to_nat (off mod BSIZE))
    (take (Z.to_nat (Z.min (n - tot) (BSIZE - off mod BSIZE))) (drop (Z.to_nat tot) src)) d)) = BSIZE.
Proof.
  intros Hd. rewrite splice_len; [done|]. rewrite length_take. pose proof (Z.mod_pos_bound off BSIZE ltac:(done)). lia.
Qed.
#[local] Hint Resolve chunk_len : keeps.
Lemma writei_keeps ip src off n : opt_lt NINODE ip -> 0 <= off -> keeps (writei ip src off n) (fun _ => True).
Proof.
  intros Hip Hoff. unfold writei. keep1. do 3 (keep1; [keep|]).
  eapply (keeps_bind _ _ (fun _ => True)); [|intros; keep].
  apply (keeps_iter _ _ (fun '(_, off) => 0 <= off)); [|done]. intros [tot off'] Hoff'.
  pose proof (Z.mod_pos_bound off' BSIZE ltac:(done)).
  pose proof (Z.div_pos off' BSIZE Hoff' ltac:(done)). keep.
Qed.
#[local] Hint Resolve readi_keeps writei_keeps : keeps.

Lemma for_dirents_keeps {B} dp what start (body : Z -> list Z -> M (option B)) (Q : B -> Prop) :
  opt_lt NINODE dp -> 0 <= start ->
  (forall off de, 0 <= off -> keeps (body off de) (fun r => forall b, r = Some b -> Q b)) ->
  keeps (for_dirents dp what start body) (fun r => match r with inl off => 0 <= off | inr b => Q b end).
Proof.
  intros Hdp Hs Hb. unfold for_dirents. keep1. apply (keeps_iter _ _ (fun off => 0 <= off)); [|done].
  intros off Hoff. keep1. keep1; [|keep]. do 2 keep1. keep1; [keep|].
  eapply keeps_bind; [by apply Hb|]. intros [b|] Hr; keep.
Qed.

(** An inode and the offset of its directory entry. *)
Definition entry_lt (o : option (nat * Z)) : Prop := forall p, o = Some p -> (p.1 < NINODE)%nat /\ 0 <= p.2.

Lemma entry_lt_None : entry_lt None.
Proof. by intros p [=]. Qed.
Lemma entry_lt_inode i off : entry_lt (Some (i, off)) -> (i < NINODE)%nat.
Proof. intros H'. by apply (H' (i, off)). Qed.
Lemma entry_lt_off i off : entry_lt (Some (i, off)) -> 0 <= off.
Proof. intros H'. by apply (H' (i, off)). Qed.
#[local] Hint Resolve entry_lt_None entry_lt_inode entry_lt_off : keeps.

Lemma dirlookup_keeps dp nm : opt_lt NINODE dp -> keeps (dirlookup dp nm) entry_lt.
Proof.
  intros Hdp. unfold dirlookup. do 2 keep1; [keep|].
  eapply keeps_bind; [apply (for_dirents_keeps _ _ _ _ (fun '(ip, off) => opt_lt NINODE ip /\ 0 <= off)); [done | done |]|].
  - intros off de Hoff. keep.
  - intros [x|[[ip|] off]] Hr; keep. intros p [= <-]. destruct Hr. split; [kside | done].
Qed.
#[local] Hint Resolve dirlookup_keeps : keeps.

Lemma dirlink_keeps dp nm inum : opt_lt NINODE dp -> keeps (dirlink dp nm inum) (fun _ => True).
Proof.
  intros Hdp. unfold dirlink. keep1. keep1; [keep|].
  eapply keeps_bind; [apply (for_dirents_keeps _ _ _ _ (fun off => 0 <= off)); [done | done |]|].
  - intros off de Hoff. keep. intros b. case_match; by intros [= <-].
  - intros r Hr. eapply (keeps_bind _ _ (fun _ => True)); [apply writei_keeps; [done | by destruct r]|]. intros. keep.
Qed.

Lemma namex_keeps path parent0 : keeps (namex path parent0) (fst_lt NINODE).
Proof.
  unfold namex. eapply (keeps_bind _ _ (opt_lt NINODE)); [keep|]. intros ip Hip.
  apply (keeps_iter _ _ (fun '(ip, _, _) => opt_lt NINODE ip)); [|done].
  intros [[ip' path'] nm] Hip'. keep; subst; kside.
Qed.
#[local] Hint Resolve namex_keeps : keeps.
Lemma namei_keeps path : keeps (namei path) (opt_lt NINODE).
Proof.
  unfold namei. keep1. apply keeps_ret. destruct a as [[n nm]|]; simpl; kside.
Qed.
Lemma nameiparent_keeps path : keeps (nameiparent path) (fst_lt NINODE).
Proof. apply namex_keeps. Qed.
End fs.
#[export] Hint Resolve iinit_keeps iget_keeps idup_keeps ialloc_keeps iupdate_keeps ilock_keeps iunlock_keeps iput_keeps
  iunlockput_keeps stati_keeps readi_keeps writei_keeps entry_lt_None entry_lt_inode entry_lt_off dirlookup_keeps dirlink_keeps namei_keeps nameiparent_keeps : keeps.

(** ** pipe.c *)

Section pipe.
Context `{TypedWorld}.

Lemma set_pipe_keeps p f :
  (forall pp, Z.of_nat (length (data pp)) = PIPESIZE -> Z.of_nat (length (data (f pp))) = PIPESIZE) ->
  keeps (set_pipe p f) (fun _ => True).
Proof. intros Hf. apply keeps_modify. intros k Hk. retype Hk. intros x. case_match; auto. Qed.

Lemma pipe_put_len b pp :
  Z.of_nat (length (data pp)) = PIPESIZE -> Z.of_nat (length (data (pipe_put b pp))) = PIPESIZE.
Proof. intros Hd. unfold pipe_put. rec_simpl. by rewrite length_insert. Qed.
#[local] Hint Extern 2 (keeps (set_pipe _ _) _) =>
  (apply set_pipe_keeps; first [apply pipe_put_len | intros ? ?; assumption]) : keeps.

Lemma am_killed_keeps : keeps am_killed (fun _ => True).
Proof. unfold am_killed. keep. Qed.
#[local] Hint Resolve am_killed_keeps : keeps.
Lemma pipeclose_keeps p w : keeps (pipeclose p w) (fun _ => True).
Proof. unfold pipeclose, get_pipe. keep. Qed.
Lemma pipe_room_keeps p : keeps (pipe_room p) (fun _ => True).
Proof. unfold pipe_room, get_pipe. keep. Qed.
Lemma pipe_wait_keeps p : keeps (pipe_wait p) (fun _ => True).
Proof. unfold pipe_wait, get_pipe. keep. Qed.
Lemma put_byte_keeps p b : keeps (put_byte p b) (fun _ => True).
Proof. unfold put_byte, get_pipe. keep. Qed.
#[local] Hint Resolve put_byte_keeps : keeps.
Lemma pipe_copy_keeps p n : keeps (pipe_copy p n) (fun _ => True).
Proof. induction n; simpl; unfold get_pipe; keep. Qed.
#[local] Hint Resolve pipe_room_keeps pipe_wait_keeps pipe_copy_keeps : keeps.
Lemma pipewrite_keeps p l n : keeps (pipewrite p l n) (fun _ => True).
Proof. unfold pipewrite. keep. Qed.
Lemma piperead_keeps p n : keeps (piperead p n) (fun _ => True).
Proof. unfold piperead. keep. Qed.
End pipe.
#[export] Hint Resolve am_killed_keeps pipeclose_keeps pipewrite_keeps piperead_keeps : keeps.
#[export] Hint Extern 2 (keeps (set_pipe _ _) _) => (apply set_pipe_keeps; intros ? ?; assumption) : keeps.

(** ** file.c *)

Section file.
Context `{TypedWorld} `{TypedDriver} `{TypedDevices}.

Lemma keeps_get_file f : (f < NFILE)%nat -> keeps (get_file f) file_typed.
Proof. by apply keeps_slot, t_ftable. Qed.
Lemma keeps_set_file f g : (f < NFILE)%nat ->
  (forall fl, file_typed fl -> file_typed (g fl)) -> keeps (set_file f g) (fun _ => True).
Proof.
  intros Hf Hg. apply keeps_put_slot with NFILE; [apply t_ftable | done |]. intros k Hk. retype Hk. by apply table_alter.
Qed.
#[local] Hint Resolve keeps_get_file : keeps.
#[local] Hint Extern 2 (keeps (set_file _ _) _) =>
  (apply keeps_set_file; [auto with keeps | let H := fresh in intros ? H; solve [retype H]]) : keeps.

Lemma filealloc_keeps : keeps filealloc (opt_lt NFILE).
Proof.
  unfold filealloc. keep1. eapply keeps_bind; [apply (keeps_for_find _ _ (fun f => f < NFILE)%nat)|].
  - intros f Hin. kindex Hin. keep.
  - intros [f|] Hf; keep.
Qed.
Lemma filedup_keeps f : (f < NFILE)%nat -> keeps (filedup f) (fun f => f < NFILE)%nat.
Proof. intros Hf. unfold filedup. keep. Qed.
Lemma fileclose_keeps f : (f < NFILE)%nat -> keeps (fileclose f) (fun _ => True).
Proof. intros Hf. unfold fileclose. keep. Qed.
Lemma filestat_keeps f : (f < NFILE)%nat -> keeps (filestat f) (fun _ => True).
Proof. intros Hf. unfold filestat. keep. Qed.
Lemma fileread_keeps f n : (f < NFILE)%nat -> keeps (fileread f n) (fun _ => True).
Proof. intros Hf. unfold fileread. keep. Qed.
Lemma filewrite_keeps f l n : (f < NFILE)%nat -> keeps (filewrite f l n) (fun _ => True).
Proof. intros Hf. unfold filewrite. keep. Qed.
#[local] Hint Resolve filealloc_keeps fileclose_keeps : keeps.

Lemma pipealloc_keeps : keeps pipealloc (fun r => forall f0 f1, r = Some (f0, f1) -> (f0 < NFILE /\ f1 < NFILE)%nat).
Proof.
  unfold pipealloc. keep1. eapply (keeps_bind _ _ (opt_lt NFILE)); [keep|]. intros f1 Hf1.
  destruct a as [r|], f1 as [w|]; keep.
Qed.
End file.
#[export] Hint Resolve filealloc_keeps filedup_keeps fileclose_keeps filestat_keeps fileread_keeps filewrite_keeps
  pipealloc_keeps : keeps.
#[export] Hint Extern 2 (keeps (set_file _ _) _) =>
  (apply keeps_set_file; [auto with keeps | let H := fresh in intros ? H; solve [retype H]]) : keeps.
