(* ===== verification/TypedSys.v ===== *)
(** The typing invariant of Typed.v, for the life of processes, the system
    calls, the devices, the trap handler and the start of the kernel: the whole
    kernel keeps it. *)

From S2P Require Import Prelude Memory KString Kernel Spinlock Boot Io Lapic Mp Cprintf Ioapic Kalloc Vm Rand Proc Sched Sleeplock Bio Ide Log Fs Pipe File Fork Args Sysproc Exec Sysfile Syscall Console Kbd Trap Main Typed TypedFs.

(** ** proc.c: the life of a process *)

Lemma safestrcpy_len n s t len : length s = n -> length (safestrcpy_l s t len) = n.
Proof. intros <-. unfold safestrcpy_l, read_mem. by rewrite length_fmap, length_seq. Qed.
#[export] Hint Resolve safestrcpy_len : keeps.

Section fork.
Context `{TypedWorld} `{TypedDriver} `{TypedDevices}.

Lemma allocproc_keeps : keeps allocproc (opt_lt NPROC).
Proof.
  unfold allocproc. keep1. eapply keeps_bind; [apply (keeps_for_find _ _ (fun i => i < NPROC)%nat)|].
  - intros i Hin. kindex Hin. keep. destruct (bool_decide _); kside.
  - intros [p|] Hp; keep.
Qed.
#[local] Hint Resolve allocproc_keeps : keeps.

Lemma userinit_keeps : keeps userinit (fun _ => True).
Proof. unfold userinit. keep. Qed.
Lemma growproc_keeps n : keeps (growproc n) (fun _ => True).
Proof. unfold growproc. keep. Qed.

Lemma ofile_elem p f : proc_typed p -> Some f ∈ ofile p -> (f < NFILE)%nat.
Proof. intros Hp Hi. pose proof (proj1 (list.Forall_forall _ _) (pt_files _ Hp) _ Hi) as Hf. by apply Hf. Qed.
#[local] Hint Resolve ofile_elem : keeps.

(** Storing a file in a descriptor. *)
Lemma set_ofile_keeps p fd f :
  (p < NPROC)%nat -> 0 <= fd < Z.of_nat NOFILE -> opt_lt NFILE f -> keeps (set_ofile p fd f) (fun _ => True).
Proof.
  intros Hp Hfd Hf. unfold set_ofile. keep; [by rewrite length_insert|]. by apply list.Forall_insert.
Qed.
#[local] Hint Resolve set_ofile_keeps : keeps.
#[local] Hint Extern 5 (0 <= _ < Z.of_nat NOFILE) => lia : keeps.

Lemma fork_keeps : keeps fork int32.
Proof. unfold fork. keep. Qed.
Lemma exit_sched_keeps cur : (cur < NPROC)%nat -> keeps (exit_sched cur) (fun _ => True).
Proof. intros Hcur. unfold exit_sched. keep. Qed.
#[local] Hint Resolve exit_sched_keeps : keeps.
Lemma exit_keeps : keeps exit (fun _ => True).
Proof. unfold exit. keep. Qed.
Lemma reap_keeps i : (i < NPROC)%nat -> keeps (reap i) int32.
Proof. intros Hi. unfold reap. keep. by rewrite length_insert. Qed.
#[local] Hint Resolve reap_keeps : keeps.
Lemma wait_keeps : keeps wait (fun _ => True).
Proof. unfold wait. keep. Qed.
Lemma wait2_keeps a b c : keeps (wait2 a b c) (fun _ => True).
Proof. unfold wait2. keep. Qed.
Lemma forkret_keeps : keeps forkret (fun _ => True).
Proof. unfold forkret. keep. Qed.
Lemma procdump_keeps : keeps procdump (fun _ => True).
Proof. unfold procdump, getcallerpcs. keep. Qed.
End fork.
#[export] Hint Resolve ofile_elem set_ofile_keeps userinit_keeps growproc_keeps fork_keeps exit_keeps wait_keeps wait2_keeps
  forkret_keeps procdump_keeps : keeps.

#[export] Hint Extern 5 (0 <= _ < Z.of_nat NOFILE) => lia : keeps.

(** ** The arguments of system calls *)

Section args.
Context `{TypedWorld}.

Definition int_arg (r : option Z) : Prop := forall n, r = Some n -> int32 n.

Lemma int_arg_None : int_arg None.
Proof. by intros n [=]. Qed.
Lemma int_arg_Some n : int32 n -> int_arg (Some n).
Proof. by intros Hn m [= <-]. Qed.
Lemma int_arg_inv n : int_arg (Some n) -> int32 n.
Proof. intros Hn. by apply Hn. Qed.
#[local] Hint Resolve int_arg_None int_arg_Some int_arg_inv : keeps.

Lemma fetchint_keeps addr : keeps (fetchint addr) int_arg.
Proof. unfold fetchint. keep. Qed.
Lemma scan_nul_keeps n s ep acc : keeps (scan_nul n s ep acc) (fun _ => True).
Proof. revert s acc. induction n; intros s acc; simpl; keep. Qed.
#[local] Hint Resolve fetchint_keeps scan_nul_keeps : keeps.
Lemma fetchstr_keeps addr : keeps (fetchstr addr) (fun _ => True).
Proof. unfold fetchstr. keep. Qed.
Lemma argint_keeps n : keeps (argint n) int_arg.
Proof. unfold argint. keep. Qed.
#[local] Hint Resolve fetchstr_keeps argint_keeps : keeps.
Lemma argptr_keeps n size : keeps (argptr n size) (fun _ => True).
Proof. unfold argptr. keep. Qed.
Lemma argstr_keeps n : keeps (argstr n) (fun _ => True).
Proof. unfold argstr. keep. Qed.

Lemma with_arg_keeps {A} (m : M (option A)) (f : A -> M Z) (P : option A -> Prop) (Q : Z -> Prop) :
  keeps m P -> Q (-1) -> (forall a, P (Some a) -> keeps (f a) Q) -> keeps (with_arg m f) Q.
Proof. intros Hm Hq Hf. unfold with_arg. eapply keeps_bind; [exact Hm|]. intros [a|] Ha; [by apply Hf | by apply keeps_ret]. Qed.
End args.
#[export] Hint Resolve int_arg_None int_arg_Some int_arg_inv fetchint_keeps fetchstr_keeps argint_keeps argptr_keeps argstr_keeps : keeps.

Ltac karg := eapply with_arg_keeps; [solve [eauto with keeps] | done | intros ? ?].

(** ** sysproc.c *)

Section sysproc.
Context `{TypedWorld} `{TypedDriver} `{TypedDevices}.

Lemma sys_fork_keeps : keeps sys_fork (fun _ => True).
Proof. unfold sys_fork. keep. Qed.
Lemma sys_exit_keeps : keeps sys_exit (fun _ => True).
Proof. unfold sys_exit. keep. Qed.
Lemma sys_wait_keeps : keeps sys_wait (fun _ => True).
Proof. unfold sys_wait. keep. Qed.
Lemma sys_kill_keeps : keeps sys_kill (fun _ => True).
Proof. unfold sys_kill. karg. keep. Qed.
Lemma sys_wait2_keeps : keeps sys_wait2 (fun _ => True).
Proof. unfold sys_wait2. do 3 karg. keep. Qed.
Lemma sys_getpid_keeps : keeps sys_getpid (fun _ => True).
Proof. unfold sys_getpid. keep. Qed.
Lemma sys_sbrk_keeps : keeps sys_sbrk (fun _ => True).
Proof. unfold sys_sbrk. karg. keep. Qed.
Lemma sys_sleep_keeps : keeps sys_sleep (fun _ => True).
Proof. unfold sys_sleep. karg. keep. Qed.
Lemma sys_uptime_keeps : keeps sys_uptime (fun _ => True).
Proof. unfold sys_uptime. keep. Qed.
Lemma sys_trace_keeps : keeps sys_trace (fun _ => True).
Proof. unfold sys_trace. keep1. karg. keep. Qed.
Lemma sys_cs_keeps : keeps sys_cs (fun _ => True).
Proof. unfold sys_cs. keep. Qed.
Lemma sys_set_tickets_keeps : keeps sys_set_tickets (fun _ => True).
Proof. unfold sys_set_tickets. karg. keep. Qed.
Lemma sys_set_priority_keeps : keeps sys_set_priority (fun _ => True).
Proof. unfold sys_set_priority. do 2 karg. keep. Qed.
Lemma sys_yield_keeps : keeps sys_yield (fun _ => True).
Proof. unfold sys_yield. keep. Qed.

(** ** exec.c *)

Lemma loaduvm_keeps pg addr ip off sz0 : opt_lt NINODE ip -> keeps (loaduvm pg addr ip off sz0) (fun _ => True).
Proof. intros Hip. unfold loaduvm. keep. Qed.
Lemma exec_bad_keeps pg ip : opt_lt NINODE ip -> keeps (exec_bad pg ip) (fun _ => True).
Proof. intros Hip. unfold exec_bad. keep. Qed.
#[local] Hint Resolve loaduvm_keeps exec_bad_keeps : keeps.
Lemma load_segments_keeps pg ip a n : opt_lt NINODE ip -> keeps (load_segments pg ip a n) (fun _ => True).
Proof. intros Hip. unfold load_segments. keep. Qed.
Lemma ustack_room_keeps argc : 0 <= argc <= MAXARG -> keeps (ustack_room argc) (fun _ => True).
Proof.
  intros Ha. apply keeps_in_array. rewrite repeat_length. unfold MAXARG in *. lia.
Qed.

(** The arguments pushed fit into [ustack]. *)
Definition args_fit (r : option (Z * list Z)) : Prop := forall sp l, r = Some (sp, l) -> Z.of_nat (length l) <= MAXARG.

Lemma args_fit_inv sp l : args_fit (Some (sp, l)) -> 0 <= Z.of_nat (length l) <= MAXARG.
Proof. intros Hr. specialize (Hr _ _ eq_refl). lia. Qed.
#[local] Hint Resolve ustack_room_keeps args_fit_inv : keeps.

Lemma push_args_keeps pg sp l : keeps (push_args pg sp l) args_fit.
Proof.
  unfold push_args.
  eapply keeps_bind; [apply (keeps_for_return _ _ (fun '(_, us) => Z.of_nat (length us) <= MAXARG) (fun _ => True)); [|done]|].
  - intros s [sp' us] _ Hus. keep1; [by apply keeps_ret|]. apply Z.leb_gt in Heqb. do 2 keep1; [by apply keeps_ret|].
    eapply (keeps_bind _ _ (fun _ => True)); [apply ustack_room_keeps; lia|]. intros _ _. apply keeps_ret.
    rewrite length_app. simpl. lia.
  - intros [[sp' us]|[]] Hr; apply keeps_ret; intros ? ? [= <- <-]. exact Hr.
Qed.
#[local] Hint Resolve load_segments_keeps push_args_keeps : keeps.
Lemma exec_keeps path argv : keeps (exec path argv) (fun _ => True).
Proof. unfold exec. keep. Qed.
#[local] Hint Resolve exec_keeps : keeps.

(** ** sysfile.c *)

Definition file_arg (r : option (Z * nat)) : Prop :=
  forall a, r = Some a -> 0 <= a.1 < Z.of_nat NOFILE /\ (a.2 < NFILE)%nat.

Lemma file_arg_inv a : file_arg (Some a) -> (a.2 < NFILE)%nat.
Proof. intros Ha. by apply Ha. Qed.
Lemma file_arg_pair fd f : file_arg (Some (fd, f)) -> (f < NFILE)%nat.
Proof. intros Ha. by apply (Ha (fd, f)). Qed.
Lemma file_arg_fd fd f : file_arg (Some (fd, f)) -> 0 <= fd < Z.of_nat NOFILE.
Proof. intros Ha. by apply (Ha (fd, f)). Qed.
#[local] Hint Resolve file_arg_inv file_arg_pair file_arg_fd : keeps.

Lemma argfd_keeps n : keeps (argfd n) file_arg.
Proof. unfold argfd. keep; intros ? [= <-]. split; [simpl; lia | simpl; kside]. Qed.
Lemma fdalloc_keeps f : (f < NFILE)%nat -> keeps (fdalloc f) (opt_lt NOFILE).
Proof.
  intros Hf. unfold fdalloc. keep1. apply (keeps_for_find _ _ (fun fd => fd < NOFILE)%nat).
  intros fd Hin. kindex Hin. keep.
Qed.
Lemma opt_lt_range n i : opt_lt n (Some i) -> 0 <= Z.of_nat i < Z.of_nat n.
Proof. intros Hi%opt_lt_inv. lia. Qed.
#[local] Hint Resolve argfd_keeps fdalloc_keeps opt_lt_range : keeps.

Lemma sys_dup_keeps : keeps sys_dup (fun _ => True).
Proof. unfold sys_dup. do 2 karg. keep. Qed.
Lemma sys_read_keeps : keeps sys_read (fun _ => True).
Proof. unfold sys_read. do 3 karg. keep. Qed.
Lemma sys_write_keeps : keeps sys_write (fun _ => True).
Proof. unfold sys_write. do 3 karg. keep. Qed.
Lemma sys_close_keeps : keeps sys_close (fun _ => True).
Proof. unfold sys_close. karg. keep. Qed.
Lemma sys_fstat_keeps : keeps sys_fstat (fun _ => True).
Proof. unfold sys_fstat, stu16. do 3 karg. keep. Qed.
Lemma sys_link_keeps : keeps sys_link (fun _ => True).
Proof. unfold sys_link. do 2 karg. keep. Qed.
Lemma isdirempty_keeps dp : opt_lt NINODE dp -> keeps (isdirempty dp) (fun _ => True).
Proof.
  intros Hdp. unfold isdirempty. keep. eapply keeps_mono; [apply (for_dirents_keeps _ _ _ _ (fun _ => True)); [done | done |]|done].
  intros off de _. keep.
Qed.
#[local] Hint Resolve isdirempty_keeps : keeps.
Lemma sys_unlink_keeps : keeps sys_unlink (fun _ => True).
Proof. unfold sys_unlink. karg. keep. Qed.
Lemma create_keeps path type major minor : keeps (create path type major minor) (opt_lt NINODE).
Proof. unfold create. keep. Qed.
#[local] Hint Resolve create_keeps : keeps.
Lemma sys_open_keeps : keeps sys_open (fun _ => True).
Proof.
  unfold sys_open. do 2 karg. keep1. eapply (keeps_bind _ _ (opt_lt NINODE)); [keep|]. intros ip Hip. keep.
Qed.
Lemma sys_mkdir_keeps : keeps sys_mkdir (fun _ => True).
Proof.
  unfold sys_mkdir. do 2 keep1. eapply (keeps_bind _ _ (opt_lt NINODE)); [keep|]. intros ip Hip. keep.
Qed.
Lemma sys_mknod_keeps : keeps sys_mknod (fun _ => True).
Proof. unfold sys_mknod. keep. Qed.
Lemma sys_chdir_keeps : keeps sys_chdir (fun _ => True).
Proof.
  unfold sys_chdir. do 3 keep1. eapply (keeps_bind _ _ (opt_lt NINODE)); [keep|]. intros ip Hip. keep.
Qed.
Lemma sys_exec_keeps : keeps sys_exec (fun _ => True).
Proof. unfold sys_exec. do 2 karg. keep. Qed.
Lemma sys_pipe_keeps : keeps sys_pipe (fun _ => True).
Proof.
  unfold sys_pipe. karg. eapply with_arg_keeps; [apply pipealloc_keeps | done|]. intros [rf wf] Hab.
  destruct (Hab _ _ eq_refl). keep.
Qed.

(** ** syscall.c *)

Lemma syscalls_keeps s : keeps (syscalls s) (fun _ => True).
Proof.
  destruct s; simpl; auto using sys_fork_keeps, sys_exit_keeps, sys_wait_keeps, sys_pipe_keeps, sys_read_keeps,
    sys_kill_keeps, sys_exec_keeps, sys_fstat_keeps, sys_chdir_keeps, sys_dup_keeps, sys_getpid_keeps, sys_sbrk_keeps,
    sys_sleep_keeps, sys_uptime_keeps, sys_open_keeps, sys_write_keeps, sys_mknod_keeps, sys_unlink_keeps, sys_link_keeps,
    sys_mkdir_keeps, sys_close_keeps, sys_trace_keeps, sys_cs_keeps, sys_set_tickets_keeps, sys_set_priority_keeps,
    sys_wait2_keeps, sys_yield_keeps.
Qed.
#[local] Hint Resolve syscalls_keeps : keeps.

Lemma syscalls_entry_keeps num : 0 <= num < NSYSCALLS -> keeps (syscalls_entry num) (fun _ => True).
Proof.
  intros [H1' H2']. unfold syscalls_entry. rewrite (proj2 (Z.leb_le _ _) H1'), (proj2 (Z.ltb_lt _ _) H2'). by apply keeps_ret.
Qed.

Lemma name_of_call_keeps num : keeps (name_of_call num) (fun a => exists s, a = AStr s).
Proof. unfold name_of_call. keep. Qed.

Lemma syscall_keeps : keeps syscall (fun _ => True).
Proof.
  unfold syscall. do 3 keep1.
  eapply (keeps_bind _ _ (fun _ => True)); [keep; apply syscalls_entry_keeps; lia|]. intros f _. keep1; [keep|]. do 2 keep1.
  eapply keeps_bind; [apply name_of_call_keeps|]. intros nm [s ->]. keep.
Qed.
End sysproc.
#[export] Hint Resolve syscall_keeps : keeps.

(** ** Devices *)

(** A string read from a port has the length that was asked for. *)
Class TypedPorts `{Ports} := port_ins_length : forall h port n, length (port_ins h port n) = n.

Lemma event_keeps e : keeps (event e) (fun _ => True).
Proof. unfold event. keep. Qed.
#[export] Hint Resolve event_keeps : keeps.
Lemma outb_keeps port v : keeps (outb port v) (fun _ => True).
Proof. unfold outb. keep. Qed.
Lemma outsl_keeps port l : keeps (outsl port l) (fun _ => True).
Proof. unfold outsl. keep. Qed.
Lemma reg_write_keeps a v : keeps (reg_write a v) (fun _ => True).
Proof. unfold reg_write. keep. Qed.
#[export] Hint Resolve outb_keeps outsl_keeps reg_write_keeps : keeps.
Lemma ioapicwrite_keeps reg v : keeps (ioapicwrite reg v) (fun _ => True).
Proof. unfold ioapicwrite. keep. Qed.
#[export] Hint Resolve ioapicwrite_keeps : keeps.
Lemma ioapicenable_keeps irq c : keeps (ioapicenable irq c) (fun _ => True).
Proof. unfold ioapicenable. keep. Qed.
Lemma picinit_keeps : keeps picinit (fun _ => True).
Proof. unfold picinit. keep. Qed.
Lemma microdelay_keeps us : keeps (microdelay us) (fun _ => True).
Proof. by apply keeps_ret. Qed.
#[export] Hint Resolve ioapicenable_keeps picinit_keeps microdelay_keeps : keeps.

Section devices.
Context `{TypedWorld} `{TypedPorts}.

Lemma inb_keeps port : keeps (inb port) (fun _ => True).
Proof. unfold inb. keep. Qed.
Lemma reg_read_keeps a : keeps (reg_read a) (fun _ => True).
Proof. unfold reg_read. keep. Qed.
Lemma insl_keeps port n : keeps (insl port n) (fun l => length l = (4 * n)%nat).
Proof. unfold insl. keep. Qed.
#[local] Hint Resolve inb_keeps reg_read_keeps insl_keeps : keeps.
Lemma poll_keeps m p : keeps m (fun _ => True) -> keeps (poll m p) (fun _ => True).
Proof. intros Hm. unfold poll. keep. Qed.
Lemma lapic_reg_keeps i : keeps (lapic_reg i) (fun _ => True).
Proof. unfold lapic_reg. keep. Qed.
Lemma lapicw_keeps i v : keeps (lapicw i v) (fun _ => True).
Proof. pose proof lapic_reg_keeps. unfold lapicw. keep. Qed.
#[local] Hint Resolve poll_keeps lapic_reg_keeps lapicw_keeps : keeps.
Lemma lapicinit_keeps : keeps lapicinit (fun _ => True).
Proof. unfold lapicinit. keep. Qed.
Lemma lapiceoi_keeps : keeps lapiceoi (fun _ => True).
Proof. unfold lapiceoi. keep. Qed.
Lemma lapicstartap_keeps a b : keeps (lapicstartap a b) (fun _ => True).
Proof. unfold lapicstartap. keep. Qed.
Lemma ioapicinit_keeps : keeps ioapicinit (fun _ => True).
Proof. unfold ioapicinit, ioapicread. keep. Qed.
#[local] Hint Resolve lapicinit_keeps lapiceoi_keeps lapicstartap_keeps ioapicinit_keeps : keeps.

(** A CPU is added while there is room in the table. *)
Lemma add_cpu_keeps {A} (id : Z) (a : A) :
  keeps (let* n := gets ncpu in
         when (n <? NCPU)%nat (set_cpu n (upd_apicid (fun _ => id)) ;; modify (upd_ncpu S)) ;;
         ret a) (fun _ => True).
Proof.
  intros k Hk. rewrite bind_gets. destruct (Nat.ltb_spec (ncpu k) NCPU) as [Hn|]; cbn [when]; [|done].
  unfold set_cpu. rewrite bind_assoc, bind_put_slot by (by rewrite (proj1 (t_cpus _ Hk))). rewrite bind_modify.
  split; [done|]. retype Hk. apply table_alter; [done|]. intros c Hc. retype Hc.
Qed.
#[local] Hint Resolve add_cpu_keeps : keeps.
Lemma entry_keeps p ismp : keeps (entry p ismp) (fun _ => True).
Proof. unfold entry. keep1. destruct (_ =? _); [apply add_cpu_keeps | keep]. Qed.
Lemma mpinit_keeps : keeps mpinit (fun _ => True).
Proof. pose proof entry_keeps. unfold mpinit, entries. keep. Qed.

(** *** ide.c *)

Lemma keeps_idequeue : keeps (gets idequeue) (opt_lt NBUF).
Proof. eapply keeps_mono; [apply keeps_gets|]. intros q (k & Hk & ->). by apply t_idequeue. Qed.
#[local] Hint Resolve keeps_idequeue : keeps.
Lemma idewait_keeps b : keeps (idewait b) (fun _ => True).
Proof. unfold idewait. keep. Qed.
#[local] Hint Resolve idewait_keeps : keeps.
Lemma ideinit_keeps : keeps ideinit (fun _ => True).
Proof. unfold ideinit. keep. Qed.
Lemma idestart_keeps b : opt_lt NBUF b -> keeps (idestart b) (fun _ => True).
Proof. intros Hb. unfold idestart. keep. Qed.
#[local] Hint Resolve idestart_keeps : keeps.
Lemma ideintr_keeps : keeps Ide.ideintr (fun _ => True).
Proof. unfold Ide.ideintr. keep. by rewrite Ha4. Qed.
Lemma enqueue_keeps b : (b < NBUF)%nat -> keeps (enqueue b) (fun _ => True).
Proof.
  intros Hb. unfold enqueue. do 2 keep1; [|keep].
  apply (keeps_iter _ _ (fun p => p < NBUF)%nat); [|kside]. intros p Hp. keep1.
  pose proof (bt_qnext _ Ha0) as Hq. destruct (b_qnext a0) eqn:E; keep.
Qed.
#[local] Hint Resolve enqueue_keeps : keeps.
#[export] Instance ide_typed : @TypedDriver ide.
Proof. intros b Hb. cbn [iderw ide]. unfold ide_iderw, submit. keep. Qed.
End devices.
#[export] Hint Resolve inb_keeps lapicinit_keeps lapiceoi_keeps lapicstartap_keeps ioapicinit_keeps mpinit_keeps ideinit_keeps
  ideintr_keeps : keeps.

(** *** console.c, kbd.c, uart.c *)

Section console.
Context `{TypedWorld} `{TypedPorts} `{TypedDriver} `{TypedDevices}.

Lemma set_input_keeps f :
  (forall i, length (in_buf i) = 128%nat -> length (in_buf (f i)) = 128%nat) -> keeps (set_input f) (fun _ => True).
Proof. intros Hf. apply keeps_modify. intros k Hk. retype Hk. Qed.
#[local] Hint Extern 2 (keeps (set_input _) _) =>
  (apply set_input_keeps; intros ? ?; rec_simpl; rewrite ?length_insert; assumption) : keeps.

Lemma input_range k x : typed k -> 0 <= x mod INPUT_BUF < Z.of_nat (length (in_buf (input k))).
Proof. intros Hk. rewrite (t_input _ Hk). by apply Z.mod_pos_bound. Qed.

Lemma kill_line_keeps : keeps kill_line (fun _ => True).
Proof. unfold kill_line. keep. by apply input_range. Qed.
Lemma store_char_keeps c : keeps (store_char c) (fun _ => True).
Proof. unfold store_char. keep. by apply input_range. Qed.
#[local] Hint Resolve kill_line_keeps store_char_keeps : keeps.
Lemma consoleintr_keeps getc : keeps getc (fun _ => True) -> keeps (consoleintr getc) (fun _ => True).
Proof. intros Hg. unfold consoleintr. keep. Qed.
Lemma input_wait_keeps : keeps input_wait (fun _ => True).
Proof. unfold input_wait. keep. Qed.
#[local] Hint Resolve consoleintr_keeps input_wait_keeps : keeps.
Lemma consoleread_keeps ip n : opt_lt NINODE ip -> keeps (consoleread ip n) (fun _ => True).
Proof. intros Hip. unfold consoleread. keep. by apply input_range. Qed.
Lemma consolewrite_keeps ip l n : opt_lt NINODE ip -> keeps (consolewrite ip l n) (fun _ => True).
Proof. intros Hip. unfold consolewrite. keep. Qed.
Lemma consoleinit_keeps : keeps consoleinit (fun _ => True).
Proof.
  unfold consoleinit. keep. apply keeps_put_slot with NDEV; [apply t_devsw | unfold CONSOLE, NDEV; lia |].
  intros k Hk. retype Hk. by rewrite length_alter.
Qed.

Lemma kbdgetc_keeps : keeps kbdgetc (fun _ => True).
Proof. unfold kbdgetc. keep. Qed.
Lemma uartputc_keeps c : keeps (uartputc c) (fun _ => True).
Proof. unfold uartputc. keep. Qed.
Lemma uartgetc_keeps : keeps uartgetc (fun _ => True).
Proof. unfold uartgetc. keep. Qed.
#[local] Hint Resolve kbdgetc_keeps uartputc_keeps uartgetc_keeps : keeps.
Lemma uartinit_keeps : keeps uartinit (fun _ => True).
Proof. unfold uartinit. keep. Qed.
Lemma kbdintr_keeps : keeps Kbd.kbdintr (fun _ => True).
Proof. apply consoleintr_keeps, kbdgetc_keeps. Qed.
Lemma uartintr_keeps : keeps Kbd.uartintr (fun _ => True).
Proof. apply consoleintr_keeps, uartgetc_keeps. Qed.
End console.
#[export] Hint Resolve consoleinit_keeps uartinit_keeps : keeps.

(** ** trap.c *)

(** What the trap handler relies on in the interrupt routines. *)
Class TypedInterrupts `{Interrupts} := {
  ideintr_typed : keeps Trap.ideintr (fun _ => True);
  kbdintr_typed : keeps Trap.kbdintr (fun _ => True);
  uartintr_typed : keeps Trap.uartintr (fun _ => True);
}.

Section trap.
Context `{TypedWorld} `{TypedPorts} `{TypedDriver} `{TypedDevices} `{TypedInterrupts}.

Lemma timer_tick_keeps : keeps timer_tick (fun _ => True).
Proof. unfold timer_tick. keep. Qed.
Lemma killed_in_user_keeps tf0 : keeps (killed_in_user tf0) (fun _ => True).
Proof. unfold killed_in_user. keep. Qed.
Lemma is_running_keeps : keeps is_running (fun _ => True).
Proof. unfold is_running. keep. Qed.
#[local] Hint Resolve timer_tick_keeps killed_in_user_keeps is_running_keeps ideintr_typed kbdintr_typed uartintr_typed : keeps.

Lemma set_gate_keeps i gd : (i < 256)%nat -> keeps (set_gate i gd) (fun _ => True).
Proof.
  intros Hi. apply keeps_put_slot with 256%nat; [apply t_idt | done |]. intros k Hk. retype Hk. by rewrite length_alter.
Qed.
#[local] Hint Resolve set_gate_keeps : keeps.
Lemma tvinit_keeps : keeps tvinit (fun _ => True).
Proof. unfold tvinit. keep. apply set_gate_keeps. unfold T_SYSCALL. lia. Qed.
Lemma trap_keeps tf0 : keeps (trap tf0) (fun _ => True).
Proof. unfold trap, cpuid. keep. Qed.
End trap.
#[export] Hint Resolve tvinit_keeps trap_keeps : keeps.

(** ** main.c *)

(** Another CPU, on its way to the scheduler, keeps the state typed. *)
Class TypedOthers `{Others} := ap_runs_typed : forall i k, typed k -> typed (ap_runs i k).

(** The ways into the kernel: the boot CPU and the others start in [main] and
    [mpenter], a new process in [forkret], everything else in [trap]. *)
Inductive entry_point :=
| E_main (fuel rounds : nat)
| E_mpenter (fuel rounds : nat)
| E_forkret
| E_trap (tf0 : Z).

Section main.
Context `{TypedWorld} `{TypedPorts} `{TypedOthers}.

#[export] Instance ide_disk_typed : @TypedDriver ide_disk := ide_typed.

#[export] Instance console_typed : @TypedDevices console_ops.
Proof.
  split; intros d; destruct d; cbn [dev_read dev_write console_ops]; intros.
  - by apply consoleread_keeps.
  - by apply consolewrite_keeps.
Qed.

#[export] Instance device_interrupts_typed : @TypedInterrupts device_interrupts.
Proof. split; [apply ideintr_keeps | apply kbdintr_keeps | apply uartintr_keeps]. Qed.

Definition enter (e : entry_point) : M unit :=
  match e with
  | E_main fuel rounds => main fuel rounds
  | E_mpenter fuel rounds => mpenter fuel rounds
  | E_forkret => forkret
  | E_trap tf0 => trap tf0
  end.

Lemma mpmain_keeps fuel rounds : keeps (mpmain fuel rounds) (fun _ => True).
Proof. unfold mpmain, cpuid, idtinit. keep. Qed.
#[local] Hint Resolve mpmain_keeps : keeps.
Lemma ap_runs_keeps i : keeps (modify (ap_runs i)) (fun _ => True).
Proof. apply keeps_modify, ap_runs_typed. Qed.
#[local] Hint Resolve ap_runs_keeps : keeps.
Lemma start_cpu_keeps i : (i < NCPU)%nat -> keeps (start_cpu i) (fun _ => True).
Proof. intros Hi. unfold start_cpu. keep. Qed.
#[local] Hint Resolve start_cpu_keeps : keeps.
Lemma startothers_keeps : keeps startothers (fun _ => True).
Proof.
  unfold startothers. do 2 keep1. pose proof (t_ncpu _ Hk). keep.
Qed.
#[local] Hint Resolve startothers_keeps : keeps.

Lemma enter_keeps e : keeps (enter e) (fun _ => True).
Proof.
  pose proof ide_disk_typed. pose proof console_typed. pose proof device_interrupts_typed.
  destruct e; simpl; [unfold main, pinit, fileinit | unfold mpenter |..]; keep.
Qed.

End main.

(** *** On a concrete machine *)

Lemma table_repeat {A} n (P : A -> Prop) a : P a -> table n P (repeat a n).
Proof.
  intros Ha. split; [by rewrite repeat_length|]. induction n; simpl; by constructor.
Qed.

Lemma boot_typed : typed boot.
Proof.
  split; try done.
  - apply (table_repeat NCPU). by split.
  - simpl. unfold NCPU. lia.
  - apply table_repeat. split; try done; try by intros i. by apply (table_repeat NOFILE).
  - apply boot_mt_ok.
  - by apply table_repeat.
  - apply (table_repeat (S NBUF)). split; simpl; try lia; done.
  - by apply table_repeat.
Qed.

Definition quiet_ports : Ports :=
  {| port_in := fun _ _ => 0; port_ins := fun _ _ n => repeat 0 n; reg_in := fun _ _ => 0; POLLS := 1 |}.
Definition no_others : Others :=
  {| entryother := []; ld_mpenter := 0; ld_entrypgdir := 0; ap_runs := fun _ k => k |}.

