(* ===== verification/User.v ===== *)
(** The user side: programs as trees of system calls, with the library of
    ulib.c and printf.c.

    A program is a [prog]: it returns, exits, faults on an access outside an
    object, or makes a system call and goes on with the reply.  The calls are
    those of user.h, which usys.S turns into traps; a reply carries what the
    call stores through its pointer arguments.  [fork] needs no special
    treatment: the tree below it has a branch for the child, which sees 0,
    and one for the parent.  Loops that the data alone bounds carry fuel. *)

From S2P Require Import Prelude Memory.

Declare Scope user_scope.
Delimit Scope user_scope with user.

(** ** System calls *)

(** struct stat of stat.h *)
Record stat_t := Stat { st_type : Z; st_dev : Z; st_ino : Z; st_nlink : Z; st_size : Z }.

Definition T_DIR : Z := 1.
Definition T_FILE : Z := 2.
Definition T_DEV : Z := 3.

Definition O_RDONLY : Z := 0x000.
Definition O_WRONLY : Z := 0x001.
Definition O_RDWR : Z := 0x002.
Definition O_CREATE : Z := 0x200.

(** Strings are given by their characters before the NUL; [SRead] replies
    with the result and the bytes stored in the buffer.  The last five are
    accesses to bytes of memory whose fate the system decides, calls with a
    pointer that need not be valid, and the trap of a system call with another
    stack pointer. *)
Inductive sys : Type -> Type :=
| SFork : sys Z
| SWait : sys Z
| SPipe : sys (Z * (Z * Z))
| SWrite (fd : Z) (bs : list Z) : sys Z
| SRead (fd n : Z) : sys (Z * list Z)
| SClose (fd : Z) : sys Z
| SKill (pid : Z) : sys Z
| SExec (path : list Z) (argv : list (list Z)) : sys Z
| SOpen (path : list Z) (mode : Z) : sys Z
| SMknod (path : list Z) (major minor : Z) : sys Z
| SUnlink (path : list Z) : sys Z
| SFstat (fd : Z) : sys (Z * stat_t)
| SLink (old new : list Z) : sys Z
| SMkdir (path : list Z) : sys Z
| SChdir (path : list Z) : sys Z
| SDup (fd : Z) : sys Z
| SGetpid : sys Z
| SSbrk (n : Z) : sys Z
| SSleep (n : Z) : sys Z
| SUptime : sys Z
| STrace (on : Z) : sys Z
| SCs : sys Z
| SSetTickets (n : Z) : sys Z
| SSetPriority (pid priority : Z) : sys Z
| SWait2 : sys (Z * (Z * Z * Z))
| SYield : sys Z
| SLoad (addr : Z) : sys Z
| SStore (addr v : Z) : sys Z
| SLinkAt (old : list Z) (new : Z) : sys Z
| SReadAt (fd addr n : Z) : sys Z
| SInt (eax esp : Z) : sys Z.

Inductive prog (A : Type) : Type :=
| Done (a : A)
| Exit
| Fault
| NoFuel
| Call {X : Type} (s : sys X) (k : X -> prog A).
Arguments Done {A} a.
Arguments Exit {A}.
Arguments Fault {A}.
Arguments NoFuel {A}.
Arguments Call {A X} s k.

Fixpoint pbind {A B} (m : prog A) (f : A -> prog B) : prog B :=
  match m with
  | Done a => f a
  | Exit => Exit
  | Fault => Fault
  | NoFuel => NoFuel
  | Call s k => Call s (fun x => pbind (k x) f)
  end.

Definition call {X} (s : sys X) : prog X := Call s Done.

Notation "'let*' x ':=' m 'in' f" := (pbind m (fun x => f))
  (at level 10, x name, m at level 100, f at level 200) : user_scope.
Notation "'let*' ' p ':=' m 'in' f" := (pbind m (fun x => match x with p => f end))
  (at level 10, p pattern, m at level 100, f at level 200) : user_scope.
Notation "m1 ';;' m2" := (pbind m1 (fun _ => m2))
  (at level 100, m2 at level 200, right associativity) : user_scope.
Open Scope user_scope.

Definition pwhen (b : bool) (m : prog unit) : prog unit := if b then m else Done tt.

Fixpoint pfor {X} (l : list X) (body : X -> prog unit) : prog unit :=
  match l with
  | [] => Done tt
  | x :: l => body x ;; pfor l body
  end.

(** A loop with fuel: [inl] goes round again, [inr] leaves it. *)
Fixpoint ploop {S A} (fuel : nat) (body : S -> prog (S + A)) (s : S) : prog A :=
  match fuel with
  | O => NoFuel
  | S fuel => let* r := body s in
              match r with
              | inl s => ploop fuel body s
              | inr a => Done a
              end
  end.

(** ** ulib.c, over memory *)

(** [while(( *s++ = *t++ ) != 0) ;] *)
Fixpoint strcpy (fuel : nat) (s t : Z) (m : memory) : option memory :=
  match fuel with
  | O => None
  | S fuel => let b := m t in
              let m := store8 s b m in
              if truthy b then strcpy fuel (s + 1) (t + 1) m else Some m
  end.

Fixpoint strcmp (fuel : nat) (p q : Z) (m : memory) : option Z :=
  match fuel with
  | O => None
  | S fuel => if truthy (m p) && (m p =? m q) then strcmp fuel (p + 1) (q + 1) m
              else Some (m p - m q)
  end.

Fixpoint strlen_at (fuel : nat) (s n : Z) (m : memory) : option Z :=
  match fuel with
  | O => None
  | S fuel => if truthy (m (s + n)) then strlen_at fuel s (s32 (n + 1)) m else Some (u32 n)
  end.
Definition strlen (fuel : nat) (s : Z) (m : memory) : option Z := strlen_at fuel s 0 m.

Definition memset (dst c n : Z) (m : memory) : memory := stosb dst c n m.

Fixpoint strchr (fuel : nat) (s c : Z) (m : memory) : option (option Z) :=
  match fuel with
  | O => None
  | S fuel => if truthy (m s) then (if m s =? c then Some (Some s) else strchr fuel (s + 1) c m)
              else Some None
  end.

(** [n = n*10 + *s++ - '0'] *)
Fixpoint atoi_at (fuel : nat) (s n : Z) (m : memory) : option Z :=
  match fuel with
  | O => None
  | S fuel => if (48 <=? m s) && (m s <=? 57) then atoi_at fuel (s + 1) (s32 (s32 (s32 (n * 10) + m s) - 48)) m
              else Some n
  end.
Definition atoi (fuel : nat) (s : Z) (m : memory) : option Z := atoi_at fuel s 0 m.

(** [while(n-- > 0) *dst++ = *src++;] *)
Fixpoint copy_up (dst src : Z) (n : nat) (m : memory) : memory :=
  match n with
  | O => m
  | S n => copy_up (dst + 1) (src + 1) n (store8 dst (m src) m)
  end.
Definition memmove (dst src n : Z) (m : memory) : memory := copy_up dst src (Z.to_nat n) m.

(** *** The same routines on the characters of a string

    The programs below keep their strings as lists; [cstring] says what a
    list is in memory. *)

Definition cstring (m : memory) (s : Z) (l : list Z) : Prop :=
  (forall i, (i < length l)%nat -> l !! i = Some (m (s + Z.of_nat i)) /\ m (s + Z.of_nat i) <> 0) /\
  m (s + Z.of_nat (length l)) = 0.

Definition lstrchr (l : list Z) (c : Z) : option nat := find_index (fun x => x =? c) l.
Definition has_char (l : list Z) (c : Z) : bool := existsb (fun x => x =? c) l.
Arguments has_char : simpl never.

Fixpoint lstrcmp (p q : list Z) : Z :=
  match p, q with
  | [], [] => 0
  | [], c :: _ => 0 - c
  | c :: _, [] => c - 0
  | c :: p, d :: q => if c =? d then lstrcmp p q else c - d
  end.

Fixpoint latoi_at (l : list Z) (n : Z) : Z :=
  match l with
  | c :: l => if (48 <=? c) && (c <=? 57) then latoi_at l (s32 (s32 (s32 (n * 10) + c) - 48)) else n
  | [] => n
  end.
Definition latoi (l : list Z) : Z := latoi_at l 0.

Lemma cstring_nil m s : cstring m s [] <-> m s = 0.
Proof. unfold cstring. simpl. rewrite Z.add_0_r. split; [tauto|]. intros H. split; [intros; lia|done]. Qed.

Lemma cstring_cons m s c l : cstring m s (c :: l) <-> m s = c /\ c <> 0 /\ cstring m (s + 1) l.
Proof.
  unfold cstring. split.
  - intros [H Hz]. destruct (H 0%nat ltac:(simpl; lia)) as [H0 H0']. rewrite Z.add_0_r in H0, H0'. injection H0 as H0.
    split_and!; [done|congruence| |].
    + intros i Hi. destruct (H (S i) ltac:(simpl; lia)) as [H1 H2].
      replace (s + 1 + Z.of_nat i) with (s + Z.of_nat (S i)) by lia. done.
    + replace (s + 1 + Z.of_nat (length l)) with (s + Z.of_nat (length (c :: l))) by (simpl length; lia). done.
  - intros (H0 & Hc & H & Hz). split.
    + intros [|i] Hi; [rewrite Z.add_0_r; by subst|]. simpl in Hi. destruct (H i ltac:(lia)) as [H1 H2].
      replace (s + Z.of_nat (S i)) with (s + 1 + Z.of_nat i) by lia. done.
    + replace (s + Z.of_nat (length (c :: l))) with (s + 1 + Z.of_nat (length l)) by (simpl length; lia). done.
Qed.

Lemma strlen_at_cstring m s l n fuel :
  cstring m (s + n) l -> (length l < fuel)%nat -> 0 <= n -> n + Z.of_nat (length l) < 2 ^ 31 ->
  strlen_at fuel s n m = Some (n + Z.of_nat (length l)).
Proof.
  revert n fuel. induction l as [|c l IH]; intros n [|fuel] Hs Hf Hn Hb; try (simpl in Hf; lia); cbn [strlen_at].
  - apply cstring_nil in Hs. rewrite Hs. simpl. rewrite u32_small by (simpl in Hb; lia). f_equal. lia.
  - apply cstring_cons in Hs as (-> & Hc & Hs). rewrite (proj2 (truthy_spec c)) by done. cbn [length] in *.
    rewrite s32_small by lia. rewrite IH; [f_equal; lia| |lia..]. by rewrite Z.add_assoc.
Qed.

Lemma strcmp_cstring m p q l1 l2 fuel :
  cstring m p l1 -> cstring m q l2 -> (length l1 < fuel)%nat -> strcmp fuel p q m = Some (lstrcmp l1 l2).
Proof.
  revert p q l2 fuel. induction l1 as [|c l1 IH]; intros p q l2 [|fuel] Hp Hq Hf; try (simpl in Hf; lia); cbn [strcmp].
  - apply cstring_nil in Hp. rewrite Hp. simpl. destruct l2 as [|d l2].
    + apply cstring_nil in Hq. by rewrite Hq.
    + apply cstring_cons in Hq as (-> & _ & _). done.
  - apply cstring_cons in Hp as (-> & Hc & Hp). rewrite (proj2 (truthy_spec c)) by done. simpl. destruct l2 as [|d l2].
    + apply cstring_nil in Hq. rewrite Hq. by destruct (Z.eqb_spec c 0).
    + apply cstring_cons in Hq as (-> & Hd & Hq). destruct (Z.eqb_spec c d); [|done]. apply IH; [done..|simpl in Hf; lia].
Qed.

Lemma strchr_cstring m s l c fuel :
  cstring m s l -> (length l < fuel)%nat ->
  strchr fuel s c m = Some ((fun i => s + Z.of_nat i) <$> lstrchr l c).
Proof.
  revert s fuel. induction l as [|d l IH]; intros s [|fuel] Hs Hf; try (simpl in Hf; lia); cbn [strchr].
  - apply cstring_nil in Hs. by rewrite Hs.
  - apply cstring_cons in Hs as (-> & Hd & Hs). rewrite (proj2 (truthy_spec d)) by done. unfold lstrchr. simpl.
    destruct (d =? c); [by simpl; rewrite Z.add_0_r|]. rewrite (IH (s + 1)) by (try done; simpl in Hf; lia). unfold lstrchr.
    f_equal. destruct (find_index _ l) as [i|]; simpl; [f_equal; lia|done].
Qed.

Lemma atoi_at_cstring m s l n fuel :
  cstring m s l -> (length l < fuel)%nat -> atoi_at fuel s n m = Some (latoi_at l n).
Proof.
  revert s n fuel. induction l as [|c l IH]; intros s n [|fuel] Hs Hf; try (simpl in Hf; lia); cbn [atoi_at latoi_at].
  - apply cstring_nil in Hs. by rewrite Hs.
  - apply cstring_cons in Hs as (-> & _ & Hs). destruct ((48 <=? c) && (c <=? 57)); [|done]. apply IH; [done|simpl in Hf; lia].
Qed.

(** The routines on lists, which the programs use, are those of ulib.c. *)
Theorem ulib_strings m s l t l' :
  cstring m s l -> cstring m t l' -> Z.of_nat (length l) < 2 ^ 31 ->
  let fuel := S (length l) in
  strlen fuel s m = Some (Z.of_nat (length l)) /\ strcmp fuel s t m = Some (lstrcmp l l') /\
  atoi fuel s m = Some (latoi l) /\
  forall c, strchr fuel s c m = Some ((fun i => s + Z.of_nat i) <$> lstrchr l c).
Proof.
  intros Hs Ht Hb fuel. split_and!.
  - unfold strlen. rewrite (strlen_at_cstring m s l 0); [done| by rewrite Z.add_0_r|unfold fuel; lia..].
  - apply strcmp_cstring; [done..|unfold fuel; lia].
  - apply atoi_at_cstring; [done|unfold fuel; lia].
  - intros c. apply strchr_cstring; [done|unfold fuel; lia].
Qed.

(** [strcpy] copies the string with its NUL when the copy does not reach the
    original; everything else stays. *)
Lemma strcpy_copies l m s t fuel :
  cstring m t l -> mem_ok m -> (length l < fuel)%nat -> s + Z.of_nat (length l) < t \/ t + Z.of_nat (length l) < s ->
  exists m', strcpy fuel s t m = Some m' /\ cstring m' s l /\
    forall x, x < s \/ s + Z.of_nat (length l) < x -> m' x = m x.
Proof.
  revert m s t fuel. induction l as [|c l IH]; intros m s t [|fuel] Ht Hm Hf Hd; try (simpl in Hf; lia); cbn [strcpy].
  - apply cstring_nil in Ht. rewrite Ht. simpl. eexists. split; [done|]. split.
    + apply cstring_nil. by rewrite store8_eq.
    + intros x Hx. apply store8_ne. simpl in Hx. lia.
  - pose proof Ht as (Hc & Hnz & Ht')%cstring_cons. rewrite Hc, (proj2 (truthy_spec c)) by done. cbn [length] in *.
    destruct (IH (store8 s c m) (s + 1) (t + 1) fuel) as (m' & E & Hs & Hx).
    + destruct Ht' as [H1 H2]. split.
      * intros i Hi. rewrite store8_ne by lia. by apply H1.
      * rewrite store8_ne by lia. done.
    + by apply store8_ok.
    + lia.
    + lia.
    + exists m'. split; [done|]. split.
      * apply cstring_cons. rewrite Hx by lia. rewrite store8_eq, u8_small by (specialize (Hm t); lia). done.
      * intros x Hx'. rewrite Hx by lia. apply store8_ne. lia.
Qed.

(** ** gets and stat *)

(** [buf[i++] = c] for each character read, up to the end of the line. *)
Fixpoint gets_loop (room : nat) (acc : list Z) : prog (list Z) :=
  match room with
  | O => Done acc
  | S room =>
      let* ' (cc, bs) := call (SRead 0 1) in
      if cc <? 1 then Done acc else
      match bs with
      | [c] => if (c =? 10) || (c =? 13) then Done (acc ++ [c]) else gets_loop room (acc ++ [c])
      | _ => Fault
      end
  end.

(** The buffer up to and with its NUL; the loop runs while [i+1 < max]. *)
Definition gets (max : Z) : prog (list Z) :=
  let* l := gets_loop (Z.to_nat (max - 1)) [] in
  Done (l ++ [0]).

Definition stat (n : list Z) : prog (Z * stat_t) :=
  let* fd := call (SOpen n O_RDONLY) in
  if fd <? 0 then Done (-1, Stat 0 0 0 0 0) else
  let* ' (r, st) := call (SFstat fd) in
  call (SClose fd) ;;
  Done (r, st).

(** ** printf.c *)

Definition putc (fd c : Z) : prog unit := call (SWrite fd [u8 c]) ;; Done tt.

Definition udigit (d : Z) : Z := nth (Z.to_nat d) (chars "0123456789ABCDEF") 0.

(** [do{ buf[i++] = digits[x % base]; }while((x /= base) != 0);] into a buffer
    of sixteen bytes. *)
Fixpoint udigits (fuel : nat) (x base : Z) : list Z :=
  match fuel with
  | O => []
  | S fuel => udigit (x mod base) :: if x / base =? 0 then [] else udigits fuel (x / base) base
  end.

Definition printint (fd xx base : Z) (sgn : bool) : prog unit :=
  let neg := sgn && (xx <? 0) in
  let x := if neg then u32 (- xx) else u32 xx in
  let buf := udigits 16 x base in
  let buf := if neg then buf ++ chars "-" else buf in
  pfor (rev buf) (putc fd).

(** An argument: a word, or a pointer to a string, or the null pointer. *)
Inductive parg :=
| PInt (x : Z)
| PStr (s : option (list Z)).

(** The loop over the format, [state] being whether a percent sign has just
    been read. *)
Fixpoint printf_loop (fd : Z) (fmt : list Z) (state : bool) (ap : list parg) : prog unit :=
  match fmt with
  | [] => Done tt
  | c :: fmt =>
      if negb state then
        if c =? 37 then printf_loop fd fmt true ap
        else putc fd c ;; printf_loop fd fmt false ap
      else if c =? 100 then
        match ap with
        | PInt x :: ap => printint fd (s32 x) 10 true ;; printf_loop fd fmt false ap
        | _ => Fault
        end
      else if (c =? 120) || (c =? 112) then
        match ap with
        | PInt x :: ap => printint fd (s32 x) 16 false ;; printf_loop fd fmt false ap
        | _ => Fault
        end
      else if c =? 115 then
        match ap with
        | PStr s :: ap =>
            pfor (match s with Some s => s | None => chars "(null)" end) (putc fd) ;;
            printf_loop fd fmt false ap
        | _ => Fault
        end
      else if c =? 99 then
        match ap with
        | PInt x :: ap => putc fd x ;; printf_loop fd fmt false ap
        | _ => Fault
        end
      else if c =? 37 then putc fd c ;; printf_loop fd fmt false ap
      else putc fd 37 ;; putc fd c ;; printf_loop fd fmt false ap
  end.

Definition printf (fd : Z) (fmt : string) (ap : list parg) : prog unit :=
  printf_loop fd (chars fmt) false ap.

(** The characters of a newline-terminated constant. *)
Definition line (s : string) : list Z := chars s ++ [10].
Definition printl (fd : Z) (fmt : string) (ap : list parg) : prog unit :=
  printf_loop fd (line fmt) false ap.

(** ** Reasoning about programs *)

(** [safe Q m]: whatever the system replies, [m] does not fault and does not
    run out of fuel, and if it returns, [Q] holds of what it returns. *)
Fixpoint safe {A} (Q : A -> Prop) (m : prog A) : Prop :=
  match m with
  | Done a => Q a
  | Exit => True
  | Fault => False
  | NoFuel => False
  | Call _ k => forall x, safe Q (k x)
  end.

Lemma safe_mono {A} (Q Q' : A -> Prop) m : safe Q m -> (forall a, Q a -> Q' a) -> safe Q' m.
Proof. induction m; simpl; auto. Qed.

Lemma safe_bind {A B} (m : prog A) (f : A -> prog B) P Q :
  safe P m -> (forall a, P a -> safe Q (f a)) -> safe Q (pbind m f).
Proof. induction m; simpl; auto. Qed.

(** Loops: the measure bounds the rounds. *)
Lemma ploop_safe {S A} (I : S -> Prop) (mu : S -> nat) (Q : A -> Prop) body fuel s :
  (forall s, I s -> safe (fun r => match r with inl s' => I s' /\ (mu s' < mu s)%nat | inr a => Q a end) (body s)) ->
  I s -> (mu s < fuel)%nat -> safe Q (ploop fuel body s).
Proof.
  intros Hbody. revert s. induction fuel as [|fuel IH]; intros s HI Hmu; [lia|]. simpl.
  eapply safe_bind; [by apply Hbody|]. intros [s'|a] H'; [|exact H']. apply IH; [tauto | lia].
Qed.

Lemma pfor_safe {X} (l : list X) body : (forall x, safe (fun _ => True) (body x)) -> safe (fun _ => True) (pfor l body).
Proof. intros Hb. induction l as [|x l IH]; simpl; [done|]. by eapply safe_bind. Qed.

Lemma putc_safe fd c : safe (fun _ => True) (putc fd c).
Proof. done. Qed.

Lemma has_char_spec l c : has_char l c = true <-> c ∈ l.
Proof.
  unfold has_char. rewrite existsb_exists. split.
  - intros (x & Hin & ->%Z.eqb_eq). by apply list_elem_of_In.
  - intros Hin%list_elem_of_In. exists c. split; [done | apply Z.eqb_refl].
Qed.

Lemma safe_seq {A B} (m : prog A) (f : A -> prog B) Q :
  safe (fun _ => True) m -> (forall a, safe Q (f a)) -> safe Q (pbind m f).
Proof. intros Hm Hf. by eapply safe_bind. Qed.

(** The arguments a format asks for. *)
Fixpoint matches (fmt : list Z) (state : bool) (ap : list parg) : bool :=
  match fmt with
  | [] => true
  | c :: fmt =>
      if negb state then matches fmt (c =? 37) ap
      else if has_char (chars "dxpc") c then
        match ap with PInt _ :: ap => matches fmt false ap | _ => false end
      else if c =? 115 then
        match ap with PStr _ :: ap => matches fmt false ap | _ => false end
      else matches fmt false ap
  end.

Lemma printint_safe fd xx base sgn : safe (fun _ => True) (printint fd xx base sgn).
Proof. apply pfor_safe. intros. apply putc_safe. Qed.

(** [printf] with the arguments its format asks for does not fault. *)
Lemma printf_loop_safe fd fmt state ap : matches fmt state ap = true -> safe (fun _ => True) (printf_loop fd fmt state ap).
Proof.
  revert state ap. induction fmt as [|c fmt IH]; intros state ap Hm; [done|]. simpl in *.
  destruct state; cbn [negb] in *.
  - destruct (has_char (chars "dxpc") c) eqn:Hd.
    + destruct ap as [|[x|s] ap]; [done| |done]. apply has_char_spec in Hd.
      change (chars "dxpc") with [100; 120; 112; 99] in Hd. rewrite !elem_of_cons, elem_of_nil in Hd.
      destruct_or! Hd; subst; cbn -[printint putc]; [| | |by intros; apply IH];
        (apply safe_seq; [apply printint_safe | intros; by apply IH]).
    + assert (forall d, In d (chars "dxpc") -> (c =? d) = false) as Hne.
      { intros d Hin. apply Z.eqb_neq. intros ->. apply list_elem_of_In, has_char_spec in Hin. congruence. }
      rewrite (Hne 100), (Hne 120), (Hne 112), (Hne 99) by (simpl; tauto). cbn [orb].
      destruct (c =? 115).
      * destruct ap as [|[x|s] ap]; [done|done|]. apply safe_seq; [apply pfor_safe; intros; apply putc_safe | intros; by apply IH].
      * destruct (c =? 37); cbn; intros; by apply IH.
  - destruct (c =? 37); [by apply IH|]. cbn. intros. by apply IH.
Qed.

Lemma safe_call {A X} (s : sys X) (f : X -> prog A) Q : (forall x, safe Q (f x)) -> safe Q (pbind (call s) f).
Proof. done. Qed.

(** A message before the end. *)
Lemma print_exit {A} fd fmt ap (Q : A -> Prop) :
  matches (line fmt) false ap = true -> safe Q (printl fd fmt ap ;; Exit).
Proof. intros Hm. apply safe_seq; [by apply printf_loop_safe | done]. Qed.

(** ** Running programs *)

Inductive result (W A : Type) : Type :=
| Returned (a : A) (w : W)
| Exited (w : W)
| Faulted
| OutOfFuel.
Arguments Returned {W A}.
Arguments Exited {W A}.
Arguments Faulted {W A}.
Arguments OutOfFuel {W A}.

Section run.
Context {W : Type} (os : forall X, sys X -> W -> X * W).

Fixpoint run {A} (m : prog A) (w : W) : result W A :=
  match m with
  | Done a => Returned a w
  | Exit => Exited w
  | Fault => Faulted
  | NoFuel => OutOfFuel
  | Call s k => let '(x, w) := os _ s w in run (k x) w
  end.

Lemma run_bind {A B} (m : prog A) (f : A -> prog B) w :
  run (pbind m f) w =
  match run m w with
  | Returned a w => run (f a) w
  | Exited w => Exited w
  | Faulted => Faulted
  | OutOfFuel => OutOfFuel
  end.
Proof.
  revert w. induction m as [a| | | |X s k IH]; intros w; simpl; try done. destruct (os X s w) as [x w']. apply IH.
Qed.

Lemma run_call {A X} (s : sys X) (f : X -> prog A) w :
  run (pbind (call s) f) w = run (f (os X s w).1) (os X s w).2.
Proof. simpl. by destruct (os X s w). Qed.
End run.

(** *** A system with one input and one output

    Each [read] gives the next of the [chunks], as much of it as is asked
    for; every [write] goes to [output]. *)

Record world := World { chunks : list (list Z); output : list Z }.

Definition feed (n : Z) (w : world) : (Z * list Z) * world :=
  match chunks w with
  | [] => ((0, []), w)
  | c :: cs =>
      let bs := take (Z.to_nat n) c in
      ((Z.of_nat (length bs), bs),
       World (match drop (Z.to_nat n) c with [] => cs | r => r :: cs end) (output w))
  end.

Definition pipe_os (X : Type) (s : sys X) : world -> X * world :=
  match s in sys X return world -> X * world with
  | SRead _ n => feed n
  | SWrite _ bs => fun w => (Z.of_nat (length bs), World (chunks w) (output w ++ bs))
  | SPipe => fun w => ((-1, (0, 0)), w)
  | SFstat _ => fun w => ((-1, Stat 0 0 0 0 0), w)
  | SWait2 => fun w => ((-1, (0, 0, 0)), w)
  | SOpen _ _ => fun w => (3, w)
  | SClose _ => fun w => (0, w)
  | _ => fun w => (-1, w)
  end.

Lemma feed_whole n c cs out :
  Z.of_nat (length c) <= n -> feed n (World (c :: cs) out) = ((Z.of_nat (length c), c), World cs out).
Proof.
  intros Hn. unfold feed. simpl. rewrite take_ge by lia. by rewrite drop_ge by lia.
Qed.

(** What is printed comes out. *)
Lemma run_pfor_putc fd l w :
  run pipe_os (pfor l (putc fd)) w = Returned tt (World (chunks w) (output w ++ (u8 <$> l))).
Proof.
  revert w. induction l as [|c l IH]; intros w; simpl.
  - rewrite app_nil_r. by destruct w.
  - rewrite IH. simpl. by rewrite <- app_assoc.
Qed.
