(* ===== verification/System.v ===== *)
(** The system: user programs running on the kernel.

    A program is a tree of system calls (User.v); the kernel serves a call in
    [trap] (Trap.v).  In between is usys.S: a stub loads the number of the call
    into %eax and traps, with the arguments where the C calling convention has
    put them. *)

From S2P Require Import Prelude Memory KString Kernel Spinlock Boot Io Vm Proc Bio Log Fs File Fork Syscall Console Trap Main Typed TypedFs TypedSys User.

(** traps.h *)
Definition T_GPFLT : Z := 13.
Definition T_PGFLT : Z := 14.

(** Where the program keeps its stack pointer, strings and buffers. *)
Definition U_ESP : Z := 0x10.
Definition U_STR1 : Z := 0x100.
Definition U_STR2 : Z := 0x200.
Definition U_ARGV : Z := 0x300.
Definition U_BUF : Z := 0x1000.

Section system.
Context `{Machine} `{Ports} `{BlockDriver} `{DevOps} `{Interrupts}.

Local Open Scope xv6_scope.

Fixpoint stu_words (va : Z) (l : list Z) : M unit :=
  match l with
  | [] => ret tt
  | w :: l => stu32 va w ;; stu_words (va + 4) l
  end.

(** What the hardware and trapasm.S leave in the trap frame when the program
    traps: the number of the trap, the error code and the user registers. *)
Definition enter_trap (trapno err eax esp : Z) : M Z :=
  let* p := curproc in
  let* pr := get_proc p in
  st32 (tf pr + TF_ESP) esp ;;
  st32 (tf pr + TF_EAX) eax ;;
  st16 (tf pr + TF_CS) (Z.lor (Z.shiftl SEG_UCODE 3) DPL_USER) ;;
  st32 (tf pr + TF_ERR) err ;;
  st32 (tf pr + TF_TRAPNO) trapno ;;
  trap (tf pr) ;;
  let* eax := ld32 (tf pr + TF_EAX) in
  ret (s32 eax).

(** SYSCALL(name) of usys.S: [movl $SYS_name, %eax; int $T_SYSCALL; ret]. *)
Definition SYSCALL (num : Z) (args : list Z) : M Z :=
  stu_words (U_ESP + 4) args ;;
  enter_trap T_SYSCALL 0 num U_ESP.

(** An access of the program to its memory: the page has to be present, and
    for the user.  Otherwise the program traps, and does not go on. *)
Definition user_page (va : Z) (wr : bool) : M (option Z) :=
  let bits := Z.lor (Z.lor PTE_P PTE_U) (if wr then PTE_W else 0) in
  let* root := Kernel.gets (fun k => P2V (cr3 (hw k))) in
  let* pde := ld32 (root + 4 * PDX va) in
  if negb (Z.land pde bits =? bits) then ret None else
  let* pte := ld32 (P2V (PTE_ADDR pde) + 4 * PTX va) in
  if negb (Z.land pte bits =? bits) then ret None else
  ret (Some (P2V (PTE_ADDR pte) + va mod PGSIZE)).

Definition user_fault {X} (trapno err va : Z) : M (option X) :=
  modify (upd_hw (upd_cr2 (fun _ => va))) ;;
  enter_trap trapno err 0 U_ESP ;;
  ret None.

Definition stu_str (va : Z) (s : list Z) : M unit := stu_bytes va (s ++ [0]).

(** The strings of an argument vector, and their addresses. *)
Fixpoint stu_strs (va : Z) (l : list (list Z)) : M (list Z) :=
  match l with
  | [] => ret []
  | s :: l =>
      stu_str va s ;;
      let* r := stu_strs (va + Z.of_nat (length s) + 1) l in
      ret (va :: r)
  end.

(** A reply to the program. *)
Definition reply {X} (m : M X) : M (option X) :=
  let* x := m in ret (Some x).

(** [None] when the program does not go on: [exec] has replaced it, or the
    access it made has ended it. *)
Definition system {X} (s : sys X) : M (option X) :=
  match s in sys X return M (option X) with
  | SFork => reply (SYSCALL 1 [])
  | SWait => reply (SYSCALL 3 [])
  | SPipe => reply (
      let* r := SYSCALL 4 [U_BUF] in
      let* fd0 := ldu32 U_BUF in
      let* fd1 := ldu32 (U_BUF + 4) in
      ret (r, (s32 fd0, s32 fd1)))
  | SWrite fd bs => reply (
      stu_bytes U_BUF bs ;;
      SYSCALL 16 [fd; U_BUF; Z.of_nat (length bs)])
  | SRead fd n => reply (
      let* r := SYSCALL 5 [fd; U_BUF; n] in
      let* bs := ldu_bytes U_BUF (Z.to_nat r) in
      ret (r, bs))
  | SClose fd => reply (SYSCALL 21 [fd])
  | SKill pid => reply (SYSCALL 6 [pid])
  | SExec path argv =>
      stu_str U_STR1 path ;;
      let* av := stu_strs U_BUF argv in
      stu_words U_ARGV (av ++ [0]) ;;
      let* r := SYSCALL 7 [U_STR1; U_ARGV] in
      ret (if r =? 0 then None else Some r)
  | SOpen path mode => reply (
      stu_str U_STR1 path ;;
      SYSCALL 15 [U_STR1; mode])
  | SMknod path major minor => reply (
      stu_str U_STR1 path ;;
      SYSCALL 17 [U_STR1; major; minor])
  | SUnlink path => reply (
      stu_str U_STR1 path ;;
      SYSCALL 18 [U_STR1])
  | SFstat fd => reply (
      let* r := SYSCALL 8 [fd; U_BUF] in
      let* st := ldu_bytes U_BUF 20 in
      ret (r, Stat (short_at st 0) (s32 (word_at st 4)) (word_at st 8) (short_at st 12) (word_at st 16)))
  | SLink old new => reply (
      stu_str U_STR1 old ;;
      stu_str U_STR2 new ;;
      SYSCALL 19 [U_STR1; U_STR2])
  | SMkdir path => reply (
      stu_str U_STR1 path ;;
      SYSCALL 20 [U_STR1])
  | SChdir path => reply (
      stu_str U_STR1 path ;;
      SYSCALL 9 [U_STR1])
  | SDup fd => reply (SYSCALL 10 [fd])
  | SGetpid => reply (SYSCALL 11 [])
  | SSbrk n => reply (SYSCALL 12 [n])
  | SSleep n => reply (SYSCALL 13 [n])
  | SUptime => reply (SYSCALL 14 [])
  | STrace on => reply (SYSCALL 22 [on])
  | SCs => reply (SYSCALL 23 [])
  | SSetTickets n => reply (SYSCALL 24 [n])
  | SSetPriority pid priority => reply (SYSCALL 25 [pid; priority])
  | SWait2 => reply (
      let* r := SYSCALL 26 [U_BUF; U_BUF + 4; U_BUF + 8] in
      let* a := ldu32 U_BUF in
      let* b := ldu32 (U_BUF + 4) in
      let* c := ldu32 (U_BUF + 8) in
      ret (r, (s32 a, s32 b, s32 c)))
  | SYield => reply (SYSCALL 27 [])
  | SLoad addr =>
      let* a := user_page (u32 addr) false in
      match a with
      | Some a => reply (Kernel.gets (fun k => mem k a))
      | None => user_fault T_PGFLT 4 (u32 addr)
      end
  | SStore addr v =>
      let* a := user_page (u32 addr) true in
      match a with
      | Some a => modify (upd_mem (store8 a v)) ;; ret (Some 0)
      | None => user_fault T_PGFLT 6 (u32 addr)
      end
  | SLinkAt old new => reply (
      stu_str U_STR1 old ;;
      SYSCALL 19 [U_STR1; new])
  | SReadAt fd addr n => reply (SYSCALL 5 [fd; addr; n])
  | SInt eax esp => reply (enter_trap T_SYSCALL 0 eax (u32 esp))
  end.

(** A program on the kernel: [Some] result when it returns, [None] when it has
    ended.  A forbidden instruction is a general protection fault. *)
Fixpoint execute {A} (m : prog A) : M (option A) :=
  match m with
  | Done a => ret (Some a)
  | Exit => SYSCALL 2 [] ;; ret None
  | User.Fault => user_fault T_GPFLT 0 0
  | NoFuel => fun k => Diverge k
  | Call s f =>
      let* x := system s in
      match x with
      | Some x => execute (f x)
      | None => ret None
      end
  end.
End system.

(** ** No program breaks the kernel *)

Section typed.
Context `{TypedWorld} `{TypedPorts} `{TypedDriver} `{TypedDevices} `{TypedInterrupts}.

Lemma stu_words_keeps va l : keeps (stu_words va l) (fun _ => True).
Proof. revert va. induction l as [|w l IH]; intros va; simpl; keep. Qed.
#[local] Hint Resolve stu_words_keeps : keeps.
Lemma enter_trap_keeps trapno err eax esp : keeps (enter_trap trapno err eax esp) (fun _ => True).
Proof. unfold enter_trap. keep. Qed.
#[local] Hint Resolve enter_trap_keeps : keeps.
Lemma SYSCALL_keeps num args : keeps (SYSCALL num args) (fun _ => True).
Proof. unfold SYSCALL. keep. Qed.
Lemma user_page_keeps va wr : keeps (user_page va wr) (fun _ => True).
Proof. unfold user_page. keep. Qed.
Lemma user_fault_keeps {X} trapno err va : keeps (@user_fault _ _ _ _ _ X trapno err va) (fun _ => True).
Proof. unfold user_fault. keep. Qed.
Lemma stu_str_keeps va s : keeps (stu_str va s) (fun _ => True).
Proof. unfold stu_str. keep. Qed.
#[local] Hint Resolve SYSCALL_keeps user_page_keeps user_fault_keeps stu_str_keeps : keeps.
Lemma stu_strs_keeps va l : keeps (stu_strs va l) (fun _ => True).
Proof. revert va. induction l as [|w l IH]; intros va; simpl; keep. Qed.
#[local] Hint Resolve stu_strs_keeps : keeps.

Lemma system_keeps {X} (s : sys X) : keeps (system s) (fun _ => True).
Proof. destruct s; simpl; unfold reply; keep. Qed.

Lemma execute_keeps {A} (m : prog A) : keeps (execute m) (fun _ => True).
Proof.
  pose proof @system_keeps. induction m as [a| | | |X s f IH]; simpl; keep.
Qed.

End typed.

(** A program with a bad file descriptor, a bad pointer and a bad stack. *)
Definition unruly : prog unit :=
  (call (SWrite 77 [1; 2; 3]) ;; call (SReadAt 0 0xffffffff (-1)) ;; call (SInt 13 0xfffffffc) ;; call (SLoad 0x80000000) ;;
   Done tt)%user.

