(* ===== verification/Sh.v ===== *)
(** sh.c: the shell.  Pointers into the command line are offsets into its
    buffer; a command is the tree of the structs of sh.c, whose type tags are
    the constructors.  [argv] and [eargv] keep their ten slots.  The memory for
    the structs is taken to be available: [malloc] does not fail here. *)

From stdpp Require Import sets.
From S2P Require Import Prelude Memory User.

Definition MAXARGS : nat := 10.

Inductive cmd :=
| EXEC (argv eargv : list (option nat))
| REDIR (c : cmd) (file efile : nat) (mode fd : Z)
| PIPE (left_ right_ : cmd)
| LIST (left_ right_ : cmd)
| BACK (c : cmd).

Definition panic {A} (s : string) : prog A :=
  printl 2 "%s" [PStr (Some (chars s))] ;;
  Exit.

(** ** Constructors *)

Definition execcmd : cmd := EXEC (repeat None MAXARGS) (repeat None MAXARGS).
Definition redircmd (subcmd : cmd) (file efile : nat) (mode fd : Z) : cmd := REDIR subcmd file efile mode fd.
Definition pipecmd (l r : cmd) : cmd := PIPE l r.
Definition listcmd (l r : cmd) : cmd := LIST l r.
Definition backcmd (subcmd : cmd) : cmd := BACK subcmd.

(** ** Parsing *)

(** Space, tab, return, newline and vertical tab. *)
Definition whitespace : list Z := [32; 9; 13; 10; 11].
Definition symbols : list Z := chars "<|>&;()".

(** [cmd->argv[i] = q; cmd->eargv[i] = eq;] in [parseexec], where [cmd] is the
    [execcmd] and [ret] what [parseredirs] has wrapped around it. *)
Fixpoint set_arg (i : nat) (q eq : option nat) (ret : cmd) : prog cmd :=
  match ret with
  | EXEC argv eargv =>
      if (i <? length argv)%nat && (i <? length eargv)%nat
      then Done (EXEC (<[i := q]> argv) (<[i := eq]> eargv)) else Fault
  | REDIR c file efile mode fd =>
      let* c := set_arg i q eq c in
      Done (REDIR c file efile mode fd)
  | _ => Fault
  end.

Section parser.
Variables (buf : list Z) (es : nat).

Definition char_at (s : nat) : prog Z :=
  match buf !! s with Some c => Done c | None => Fault end.

(** [while(s < es && p( *s ) ) s++;] *)
Fixpoint skip_while (p : Z -> bool) (n s : nat) : prog nat :=
  match n with
  | O => Done s
  | S n => if (s <? es)%nat then
             let* c := char_at s in
             if p c then skip_while p n (S s) else Done s
           else Done s
  end.
Definition skip (p : Z -> bool) (s : nat) : prog nat := skip_while p (es - s) s.
Definition blank (c : Z) : bool := has_char whitespace c.
Definition plain (c : Z) : bool := negb (has_char whitespace c) && negb (has_char symbols c).

(** The token, its start, its end, and where the next one starts. *)
Definition gettoken (s : nat) : prog (Z * nat * nat * nat) :=
  let* s := skip blank s in
  let q := s in
  let* c := char_at s in
  let* ' (ret, s) := (
    if c =? 0 then Done (c, s)
    else if has_char (chars "|();&<") c then Done (c, S s)
    else if c =? 62 then
      let* c2 := char_at (S s) in
      if c2 =? 62 then Done (43, S (S s)) else Done (c, S s)
    else
      let* s := skip plain s in
      Done (97, s)) in
  let eq := s in
  let* s := skip blank s in
  Done (ret, q, eq, s).

Definition peek (s : nat) (toks : list Z) : prog (bool * nat) :=
  let* s := skip blank s in
  let* c := char_at s in
  Done (truthy c && has_char toks c, s).

(** [while(peek(ps, es, "<>")){ ... }] *)
Definition parseredirs (fuel : nat) (c : cmd) (s : nat) : prog (cmd * nat) :=
  ploop fuel (fun '(c, s) =>
    let* ' (more, s) := peek s (chars "<>") in
    if negb more then Done (inr (c, s)) else
    let* ' (tok, _, _, s) := gettoken s in
    let* ' (tok2, q, eq, s) := gettoken s in
    if negb (tok2 =? 97) then panic "missing file for redirection" else
    Done (inl (
      if tok =? 60 then redircmd c q eq O_RDONLY 0
      else if tok =? 62 then redircmd c q eq (Z.lor O_WRONLY O_CREATE) 1
      else if tok =? 43 then redircmd c q eq (Z.lor O_WRONLY O_CREATE) 1
      else c, s))) (c, s).

(** The loop of [parseexec] over the words, and its body. *)
Definition parsearg (fuel : nat) (st : cmd * nat * nat) : prog ((cmd * nat * nat) + (cmd * nat * nat)) :=
  let '(ret, argc, s) := st in
  let* ' (stop, s) := peek s (chars "|)&;") in
  if stop then Done (inr (ret, argc, s)) else
  let* ' (tok, q, eq, s) := gettoken s in
  if tok =? 0 then Done (inr (ret, argc, s)) else
  if negb (tok =? 97) then panic "syntax" else
  let* ret := set_arg argc (Some q) (Some eq) ret in
  let argc := S argc in
  if (MAXARGS <=? argc)%nat then panic "too many args" else
  let* ' (ret, s) := parseredirs fuel ret s in
  Done (inl (ret, argc, s)).

Definition parseargs (fuel : nat) (ret : cmd) (s : nat) : prog (cmd * nat * nat) :=
  ploop fuel (parsearg fuel) (ret, 0%nat, s).

(** [while(peek(ps, es, "&")){ gettoken(ps, es, 0, 0); cmd = backcmd(cmd); }] *)
Definition parsebacks (fuel : nat) (c : cmd) (s : nat) : prog (cmd * nat) :=
  ploop fuel (fun '(c, s) =>
    let* ' (more, s) := peek s (chars "&") in
    if negb more then Done (inr (c, s)) else
    let* ' (_, _, _, s) := gettoken s in
    Done (inl (backcmd c, s))) (c, s).

Fixpoint parseline (fuel : nat) (s : nat) : prog (cmd * nat) :=
  match fuel with
  | O => NoFuel
  | S fuel =>
      let* ' (c, s) := parsepipe fuel s in
      let* ' (c, s) := parsebacks (S es) c s in
      let* ' (more, s) := peek s (chars ";") in
      if more then
        let* ' (_, _, _, s) := gettoken s in
        let* ' (r, s) := parseline fuel s in
        Done (listcmd c r, s)
      else Done (c, s)
  end
with parsepipe (fuel : nat) (s : nat) : prog (cmd * nat) :=
  match fuel with
  | O => NoFuel
  | S fuel =>
      let* ' (c, s) := parseexec fuel s in
      let* ' (more, s) := peek s (chars "|") in
      if more then
        let* ' (_, _, _, s) := gettoken s in
        let* ' (r, s) := parsepipe fuel s in
        Done (pipecmd c r, s)
      else Done (c, s)
  end
with parseexec (fuel : nat) (s : nat) : prog (cmd * nat) :=
  match fuel with
  | O => NoFuel
  | S fuel =>
      let* ' (block, s) := peek s (chars "(") in
      if block then parseblock fuel s else
      let* ' (ret, s) := parseredirs (S es) execcmd s in
      let* ' (ret, argc, s) := parseargs (S es) ret s in
      let* ret := set_arg argc None None ret in
      Done (ret, s)
  end
with parseblock (fuel : nat) (s : nat) : prog (cmd * nat) :=
  match fuel with
  | O => NoFuel
  | S fuel =>
      let* ' (open, s) := peek s (chars "(") in
      if negb open then panic "parseblock" else
      let* ' (_, _, _, s) := gettoken s in
      let* ' (c, s) := parseline fuel s in
      let* ' (close, s) := peek s (chars ")") in
      if negb close then panic "syntax - missing )" else
      let* ' (_, _, _, s) := gettoken s in
      parseredirs (S es) c s
  end.
(** The unfolding equations of the four. *)
Lemma parseline_S fuel s :
  parseline (S fuel) s =
  let* ' (c, s) := parsepipe fuel s in
  let* ' (c, s) := parsebacks (S es) c s in
  let* ' (more, s) := peek s (chars ";") in
  if more then
    let* ' (_, _, _, s) := gettoken s in
    let* ' (r, s) := parseline fuel s in
    Done (listcmd c r, s)
  else Done (c, s).
Proof. reflexivity. Qed.

Lemma parsepipe_S fuel s :
  parsepipe (S fuel) s =
  let* ' (c, s) := parseexec fuel s in
  let* ' (more, s) := peek s (chars "|") in
  if more then
    let* ' (_, _, _, s) := gettoken s in
    let* ' (r, s) := parsepipe fuel s in
    Done (pipecmd c r, s)
  else Done (c, s).
Proof. reflexivity. Qed.

Lemma parseexec_S fuel s :
  parseexec (S fuel) s =
  let* ' (block, s) := peek s (chars "(") in
  if block then parseblock fuel s else
  let* ' (ret, s) := parseredirs (S es) execcmd s in
  let* ' (ret, argc, s) := parseargs (S es) ret s in
  let* ret := set_arg argc None None ret in
  Done (ret, s).
Proof. reflexivity. Qed.

Lemma parseblock_S fuel s :
  parseblock (S fuel) s =
  let* ' (open, s) := peek s (chars "(") in
  if negb open then panic "parseblock" else
  let* ' (_, _, _, s) := gettoken s in
  let* ' (c, s) := parseline fuel s in
  let* ' (close, s) := peek s (chars ")") in
  if negb close then panic "syntax - missing )" else
  let* ' (_, _, _, s) := gettoken s in
  parseredirs (S es) c s.
Proof. reflexivity. Qed.
End parser.

(** The characters from [s] up to the NUL. *)
Definition str_at (buf : list Z) (s : nat) : list Z :=
  match find_index (fun c => c =? 0) (drop s buf) with
  | Some n => take n (drop s buf)
  | None => drop s buf
  end.

(** [*p = 0] *)
Definition store_nul (p : nat) (buf : list Z) : prog (list Z) :=
  if (p <? length buf)%nat then Done (<[p := 0]> buf) else Fault.

(** [for(i=0; ecmd->argv[i]; i++) *ecmd->eargv[i] = 0;] *)
Fixpoint nul_args (argv eargv : list (option nat)) (buf : list Z) : prog (list Z) :=
  match argv, eargv with
  | Some _ :: argv, Some e :: eargv =>
      let* buf := store_nul e buf in
      nul_args argv eargv buf
  | None :: _, _ => Done buf
  | _, _ => Fault
  end.

Fixpoint nulterminate (c : cmd) (buf : list Z) : prog (list Z) :=
  match c with
  | EXEC argv eargv => nul_args argv eargv buf
  | REDIR c _ efile _ _ =>
      let* buf := nulterminate c buf in
      store_nul efile buf
  | PIPE l r =>
      let* buf := nulterminate l buf in
      nulterminate r buf
  | LIST l r =>
      let* buf := nulterminate l buf in
      nulterminate r buf
  | BACK c => nulterminate c buf
  end.

(** Each character of the line is at most four calls of the parser deep. *)
Definition parse_fuel (es : nat) : nat := 4 * es + 4.

(** [buf] holds the command line with its NUL. *)
Definition parsecmd (buf : list Z) : prog (cmd * list Z) :=
  let es := length (str_at buf 0) in
  let* ' (c, s) := parseline buf es (parse_fuel es) 0 in
  let* ' (_, s) := peek buf es s [] in
  if negb (s =? es)%nat then
    printl 2 "leftovers: %s" [PStr (Some (str_at buf s))] ;;
    panic "syntax"
  else
    let* buf := nulterminate c buf in
    Done (c, buf).

(** ** Running *)

(** The strings [exec] is given: those of [argv] up to its null pointer. *)
Fixpoint arg_strings (argv : list (option nat)) (buf : list Z) : list (list Z) :=
  match argv with
  | Some q :: argv => str_at buf q :: arg_strings argv buf
  | _ => []
  end.

Definition fork1 : prog Z :=
  let* pid := call SFork in
  if pid =? -1 then panic "fork" else Done pid.

(** Never returns. *)
Fixpoint runcmd (buf : list Z) (c : cmd) : prog unit :=
  match c with
  | EXEC argv _ =>
      match argv with
      | Some a0 :: _ =>
          call (SExec (str_at buf a0) (arg_strings argv buf)) ;;
          printl 2 "exec %s failed" [PStr (Some (str_at buf a0))] ;;
          Exit
      | _ => Exit
      end
  | REDIR c file _ mode fd =>
      call (SClose fd) ;;
      let* r := call (SOpen (str_at buf file) mode) in
      if r <? 0 then
        printl 2 "open %s failed" [PStr (Some (str_at buf file))] ;;
        Exit
      else
        runcmd buf c ;;
        Exit
  | LIST l r =>
      let* pid := fork1 in
      pwhen (pid =? 0) (runcmd buf l) ;;
      call SWait ;;
      runcmd buf r ;;
      Exit
  | PIPE l r =>
      let* ' (res, (p0, p1)) := call SPipe in
      if res <? 0 then panic "pipe" else
      let* pid := fork1 in
      pwhen (pid =? 0) (
        call (SClose 1) ;;
        call (SDup p1) ;;
        call (SClose p0) ;;
        call (SClose p1) ;;
        runcmd buf l) ;;
      let* pid := fork1 in
      pwhen (pid =? 0) (
        call (SClose 0) ;;
        call (SDup p0) ;;
        call (SClose p0) ;;
        call (SClose p1) ;;
        runcmd buf r) ;;
      call (SClose p0) ;;
      call (SClose p1) ;;
      call SWait ;;
      call SWait ;;
      Exit
  | BACK c =>
      let* pid := fork1 in
      pwhen (pid =? 0) (runcmd buf c) ;;
      Exit
  end.

(** The buffer after [getcmd], and whether there was a line. *)
Definition getcmd (nbuf : Z) : prog (bool * list Z) :=
  printf 2 "$ " [] ;;
  let* l := gets nbuf in
  let buf := l ++ repeat 0 (Z.to_nat nbuf - length l) in
  Done (negb (nth 0 buf 0 =? 0), buf).

(** Opens the console until three descriptors are in use. *)
Definition open_console (fuel : nat) : prog unit :=
  ploop fuel (fun _ : unit =>
    let* fd := call (SOpen (chars "console") O_RDWR) in
    if fd <? 0 then Done (inr tt) else
    if 3 <=? fd then call (SClose fd) ;; Done (inr tt) else Done (inl tt)) tt.

Definition cd_prefix (buf : list Z) : bool :=
  (nth 0 buf 0 =? 99) && (nth 1 buf 0 =? 100) && (nth 2 buf 0 =? 32).

Definition main (fuel : nat) : prog unit :=
  open_console fuel ;;
  ploop fuel (fun _ : unit =>
    let* ' (more, buf) := getcmd 100 in
    if negb more then Done (inr tt) else
    if cd_prefix buf then
      let* buf := store_nul (length (str_at buf 0) - 1) buf in
      let* r := call (SChdir (str_at buf 3)) in
      pwhen (r <? 0) (printl 2 "cannot cd %s" [PStr (Some (str_at buf 3))]) ;;
      Done (inl tt)
    else
      let* pid := fork1 in
      pwhen (pid =? 0) (
        let* ' (c, buf) := parsecmd buf in
        runcmd buf c) ;;
      call SWait ;;
      Done (inl tt)) tt ;;
  Exit.

(** ** The parser stays inside the line and terminates *)

Section bounds.
Variables (buf : list Z) (es : nat).
Hypothesis Hnz : forall i c, (i < es)%nat -> buf !! i = Some c -> c <> 0.
Hypothesis Hnul : buf !! es = Some 0.

Lemma char_safe s : (s <= es)%nat -> exists c, buf !! s = Some c /\ char_at buf s = Done c.
Proof.
  intros Hs. pose proof (lookup_lt_Some _ _ _ Hnul).
  destruct (lookup_lt_is_Some_2 buf s) as [c Hc]; [lia|]. exists c. unfold char_at. by rewrite Hc.
Qed.

Lemma skip_while_eq p n s :
  (s <= es)%nat -> exists s', skip_while buf es p n s = Done s' /\ (s <= s' <= es)%nat /\
    (es - s <= n -> s' = es \/ exists c, buf !! s' = Some c /\ p c = false)%nat /\
    (forall c, (s < es)%nat -> (0 < n)%nat -> buf !! s = Some c -> p c = true -> (s < s')%nat) /\
    (forall c, buf !! s = Some c -> p c = false -> s' = s).
Proof.
  revert s. induction n as [|n IH]; intros s Hs; simpl.
  - exists s. split_and!; try done; try lia. 
  - destruct (Nat.ltb_spec s es) as [Hlt|Hge].
    + destruct (char_safe s Hs) as (c & Hc & ->). simpl. destruct (p c) eqn:Hp.
      * destruct (IH (S s)) as (s' & -> & Hb & Hst & _); [lia|]. exists s'. split_and!; try done; try lia.
        -- intros. apply Hst. lia.
        -- intros c' Hc' Hp'. congruence.
      * exists s. split_and!; try done; try lia.
        -- intros _. right. by exists c.
        -- intros c' _ _ Hc' Hp'. congruence.
    + exists s. split_and!; try done; try lia.
Qed.

Lemma skip_eq p s :
  (s <= es)%nat -> exists s', skip buf es p s = Done s' /\ (s <= s' <= es)%nat /\
    (s' = es \/ exists c, buf !! s' = Some c /\ p c = false) /\
    (forall c, (s < es)%nat -> buf !! s = Some c -> p c = true -> (s < s')%nat) /\
    (forall c, buf !! s = Some c -> p c = false -> s' = s).
Proof.
  intros Hs. destruct (skip_while_eq p (es - s) s Hs) as (s' & H1 & H2 & H3 & H4 & H5). exists s'.
  split_and!; try done; try lia.
  - by apply H3.
  - intros c Hlt. apply H4; lia.
Qed.

Lemma nonzero_lt s c : (s <= es)%nat -> buf !! s = Some c -> c <> 0 -> (s < es)%nat.
Proof. intros Hs Hc Hne. destruct (decide (s = es)) as [->|]; [congruence | lia]. Qed.

Lemma plain_cases c : c <> 0 -> blank c = false -> has_char (chars "|();&<") c = false -> c <> 62 -> plain c = true.
Proof.
  unfold plain, blank. intros H0 -> Hs Hg. destruct (has_char symbols c) eqn:E; [|done].
  apply has_char_spec in E. change symbols with [60; 124; 62; 38; 59; 40; 41] in E.
  rewrite !elem_of_cons, elem_of_nil in E. destruct_or! E; subst; done.
Qed.

Lemma gettoken_eq s :
  (s <= es)%nat -> exists ret q eq s', gettoken buf es s = Done (ret, q, eq, s') /\
    (s <= q <= eq)%nat /\ (eq <= s' <= es)%nat /\ ((s < es)%nat -> (s < s')%nat) /\ (ret <> 0 -> (q < eq)%nat).
Proof.
  intros Hs. unfold gettoken.
  destruct (skip_eq blank s Hs) as (q & -> & Hq & Hst & Hadv & _). simpl.
  destruct (char_safe q ltac:(lia)) as (c & Hc & ->). simpl.
  assert (forall ret eq, (q <= eq <= es)%nat -> (c <> 0 -> (q < eq)%nat) -> (ret <> 0 -> c <> 0) ->
    exists r q' eq' s', pbind (skip buf es blank eq) (fun s => Done (ret, q, eq, s)) = Done (r, q', eq', s') /\
    (s <= q' <= eq')%nat /\ (eq' <= s' <= es)%nat /\ ((s < es)%nat -> (s < s')%nat) /\ (r <> 0 -> (q' < eq')%nat)) as Hfin.
  { intros ret eq Heq Hprog Hret. destruct (skip_eq blank eq ltac:(lia)) as (s' & -> & Hs' & _).
    exists ret, q, eq, s'. split; [done|]. split; [lia|]. split; [lia|]. split; [|auto]. intros Hlt.
    destruct (decide (s = q)) as [->|]; [|lia]. enough (q < eq)%nat by lia. apply Hprog.
    by eapply Hnz. }
  assert (c <> 0 -> (q < es)%nat) as Hqlt by (intros; eapply nonzero_lt; try done; lia).
  destruct (Z.eqb_spec c 0) as [->|Hc0]; [apply Hfin; [lia | done | done]|].
  specialize (Hqlt Hc0). destruct (has_char (chars "|();&<") c) eqn:Hsym; [apply Hfin; [lia.. | done]|].
  destruct (Z.eqb_spec c 62) as [->|Hg].
  - destruct (char_safe (S q) ltac:(lia)) as (c2 & Hc2 & ->). simpl.
    destruct (Z.eqb_spec c2 62) as [->|]; apply Hfin; try lia.
    pose proof (nonzero_lt (S q) 62 ltac:(lia) Hc2 ltac:(done)). lia.
  - assert (blank c = false) as Hb.
    { destruct Hst as [->|(c' & Hc' & Hb)]; [|congruence]. congruence. }
    destruct (skip_eq plain q ltac:(lia)) as (eq & -> & Heq & _ & Hadv2 & _). simpl.
    specialize (Hadv2 c Hqlt Hc (plain_cases c Hc0 Hb Hsym Hg)). apply Hfin; [lia.. | done].
Qed.

Lemma peek_eq s toks :
  (s <= es)%nat -> exists b s', peek buf es s toks = Done (b, s') /\ (s <= s' <= es)%nat /\ (b = true -> (s' < es)%nat).
Proof.
  intros Hs. unfold peek. destruct (skip_eq blank s Hs) as (s' & -> & Hs' & _). simpl.
  destruct (char_safe s' ltac:(lia)) as (c & Hc & ->). simpl. eexists _, s'. split_and!; try done; try lia.
  intros [Ht _]%andb_true_iff. apply truthy_spec in Ht. eapply nonzero_lt; try done. lia.
Qed.

(** *** Commands whose pointers are inside the line *)

Definition args_ok (n : nat) (argv eargv : list (option nat)) : Prop :=
  length argv = MAXARGS /\ length eargv = MAXARGS /\
  forall i, (i < MAXARGS)%nat ->
    if decide (i < n)%nat
    then exists q e, argv !! i = Some (Some q) /\ eargv !! i = Some (Some e) /\ (e <= es)%nat
    else argv !! i = Some None.

Fixpoint cmd_ok (c : cmd) : Prop :=
  match c with
  | EXEC argv eargv => exists n, (n < MAXARGS)%nat /\ args_ok n argv eargv
  | REDIR c _ efile _ _ => cmd_ok c /\ (efile <= es)%nat
  | PIPE l r => cmd_ok l /\ cmd_ok r
  | LIST l r => cmd_ok l /\ cmd_ok r
  | BACK c => cmd_ok c
  end.

(** A simple command under construction, with [n] words so far. *)
Fixpoint chain_ok (n : nat) (c : cmd) : Prop :=
  match c with
  | EXEC argv eargv => args_ok n argv eargv
  | REDIR c _ efile _ _ => chain_ok n c /\ (efile <= es)%nat
  | _ => False
  end.

Lemma chain_cmd n c : (n < MAXARGS)%nat -> chain_ok n c -> cmd_ok c.
Proof. intros Hn. induction c; simpl; try done; [eauto | tauto]. Qed.

Lemma execcmd_ok : chain_ok 0 execcmd.
Proof.
  simpl. split_and!; try done. intros i Hi. rewrite decide_False by lia.
  unfold MAXARGS in Hi. do 10 (destruct i as [|i]; [done|]). lia.
Qed.

Lemma set_arg_ok n q e c :
  chain_ok n c -> (n < MAXARGS)%nat -> (e <= es)%nat ->
  exists c', set_arg n (Some q) (Some e) c = Done c' /\ chain_ok (S n) c'.
Proof.
  intros Hc Hn He. induction c as [argv eargv|c IH file efile mode fd| | |]; simpl in Hc; try done; simpl.
  - destruct Hc as (H1 & H2 & Hi). rewrite H1, H2. rewrite (proj2 (Nat.ltb_lt _ _) Hn). simpl. eexists. split; [done|].
    simpl. split_and!; [by rewrite length_insert.. |]. intros i Hi'. destruct (decide (i = n)) as [->|Hne].
    + rewrite decide_True by lia. rewrite !list_lookup_insert_eq by lia. eauto.
    + rewrite !list_lookup_insert_ne by done. specialize (Hi i Hi'). repeat case_decide; try done; lia.
  - destruct Hc as [Hc Hef]. destruct (IH Hc) as (c' & -> & Hc'). simpl. eexists. split; [done|]. done.
Qed.

Lemma set_arg_end n c :
  chain_ok n c -> (n < MAXARGS)%nat -> exists c', set_arg n None None c = Done c' /\ cmd_ok c'.
Proof.
  intros Hc Hn. induction c as [argv eargv|c IH file efile mode fd| | |]; simpl in Hc; try done; simpl.
  - destruct Hc as (H1 & H2 & Hi). rewrite H1, H2. rewrite (proj2 (Nat.ltb_lt _ _) Hn). simpl. eexists. split; [done|].
    simpl. exists n. split; [done|]. split_and!; [by rewrite length_insert.. |]. intros i Hi'. destruct (decide (i = n)) as [->|Hne].
    + rewrite decide_False by lia. by rewrite list_lookup_insert_eq by lia.
    + rewrite !list_lookup_insert_ne by done. by apply Hi.
  - destruct Hc as [Hc Hef]. destruct (IH Hc) as (c' & -> & Hc'). simpl. eexists. split; [done|]. done.
Qed.
(** *** The functions of the parser *)

Definition result_ok (P : cmd -> Prop) (s : nat) (r : cmd * nat) : Prop := P r.1 /\ (s <= r.2 <= es)%nat.

Lemma panic_safe {A} msg (Q : A -> Prop) : safe Q (panic msg).
Proof.
  apply safe_seq; [by apply printf_loop_safe | done].
Qed.

Lemma parseredirs_safe P fuel c s :
  (forall c q e m fd, P c -> (e <= es)%nat -> P (REDIR c q e m fd)) ->
  P c -> (s <= es)%nat -> (es - s < fuel)%nat ->
  safe (result_ok P s) (parseredirs buf es fuel c s).
Proof.
  intros HP Hc Hs Hf. unfold parseredirs.
  apply (ploop_safe (fun '(c', s') => P c' /\ (s <= s' <= es)%nat) (fun '(_, s') => es - s')%nat); [|by split; [|lia] | done].
  intros [c' s'] [Hc' Hs']. simpl.
  destruct (peek_eq s' (chars "<>")) as (more & s1 & -> & Hs1 & Hlt1); [lia|]. simpl.
  destruct more; simpl; [|by split; simpl; [|lia]]. specialize (Hlt1 eq_refl).
  destruct (gettoken_eq s1) as (tok & q1 & e1 & s2 & -> & _ & Hs2 & Hp2 & _); [lia|]. specialize (Hp2 Hlt1). simpl.
  destruct (gettoken_eq s2) as (tok2 & q & e & s3 & -> & Hq & Hs3 & _ & _); [lia|]. simpl.
  destruct (negb (tok2 =? 97)); [apply panic_safe|]. simpl. split; [split; [|lia]|lia].
  repeat case_match; try done; apply HP; try done; lia.
Qed.

Lemma parsebacks_safe fuel c s :
  cmd_ok c -> (s <= es)%nat -> (es - s < fuel)%nat -> safe (result_ok cmd_ok s) (parsebacks buf es fuel c s).
Proof.
  intros Hc Hs Hf. unfold parsebacks.
  apply (ploop_safe (fun '(c', s') => cmd_ok c' /\ (s <= s' <= es)%nat) (fun '(_, s') => es - s')%nat); [|by split; [|lia] | done].
  intros [c' s'] [Hc' Hs']. simpl.
  destruct (peek_eq s' (chars "&")) as (more & s1 & -> & Hs1 & Hlt1); [lia|]. simpl.
  destruct more; simpl; [|by split; simpl; [|lia]]. specialize (Hlt1 eq_refl).
  destruct (gettoken_eq s1) as (tok & q1 & e1 & s2 & -> & _ & Hs2 & Hp2 & _); [lia|]. specialize (Hp2 Hlt1). simpl.
  split; [split; [done | lia] | lia].
Qed.

Lemma parseargs_safe fuel ret s :
  chain_ok 0 ret -> (s <= es)%nat -> (es - s < fuel)%nat ->
  safe (fun '(c, n, s') => chain_ok n c /\ (n < MAXARGS)%nat /\ (s <= s' <= es)%nat) (parseargs buf es fuel ret s).
Proof.
  intros Hc Hs Hf. unfold parseargs.
  apply (ploop_safe (fun '(c', n, s') => chain_ok n c' /\ (n < MAXARGS)%nat /\ (s <= s' <= es)%nat) (fun '(_, _, s') => es - s')%nat);
    [|split_and!; [done | unfold MAXARGS; lia | lia | lia] | done].
  intros [[c' n] s'] (Hc' & Hn & Hs'). unfold parsearg.
  destruct (peek_eq s' (chars "|)&;")) as (stop & s1 & -> & Hs1 & _); [lia|]. cbn [pbind].
  destruct stop; [simpl; split_and!; try done; lia|].
  destruct (gettoken_eq s1) as (tok & q & e & s2 & -> & Hq & Hs2 & _ & Hp2); [lia|]. cbn [pbind].
  destruct (Z.eqb_spec tok 0) as [->|Ht]; [simpl; split_and!; try done; lia|]. specialize (Hp2 Ht).
  destruct (negb (tok =? 97)); [apply panic_safe|].
  destruct (set_arg_ok n q e c' Hc' Hn ltac:(lia)) as (c1 & -> & Hc1). cbn [pbind].
  destruct (Nat.leb_spec MAXARGS (S n)) as [Hmax|Hmax]; [apply panic_safe|].
  eapply safe_bind; [apply (parseredirs_safe (chain_ok (S n)) fuel c1 s2); [by simpl | done | lia | lia]|].
  intros [c2 s3] [Hc2 Hs3]. simpl in *. split_and!; try done; lia.
Qed.

(** Every function returns within its fuel: the four of them use at most four
    levels per character. *)
Lemma parse_safe fuel :
  (forall s, (s <= es)%nat -> (4 * (es - s) + 4 <= fuel)%nat -> safe (result_ok cmd_ok s) (parseline buf es fuel s)) /\
  (forall s, (s <= es)%nat -> (4 * (es - s) + 3 <= fuel)%nat -> safe (result_ok cmd_ok s) (parsepipe buf es fuel s)) /\
  (forall s, (s <= es)%nat -> (4 * (es - s) + 2 <= fuel)%nat -> safe (result_ok cmd_ok s) (parseexec buf es fuel s)) /\
  (forall s, (s < es)%nat -> (4 * (es - s) + 1 <= fuel)%nat -> safe (result_ok cmd_ok s) (parseblock buf es fuel s)).
Proof.
  induction fuel as [|fuel (IHl & IHp & IHe & IHb)]; [split_and!; intros; lia|]. split_and!; intros s Hs Hf; cbn [parseline parsepipe parseexec parseblock].
  - eapply safe_bind; [apply (IHp s); lia|]. intros [c1 s1] [Hc1 Hs1]. simpl in Hc1, Hs1.
    eapply safe_bind; [apply (parsebacks_safe (S es) c1 s1); try done; lia|]. intros [c2 s2] [Hc2 Hs2]. simpl in Hc2, Hs2.
    destruct (peek_eq s2 (chars ";")) as (more & s3 & -> & Hs3 & Hlt3); [lia|]. cbn [pbind].
    destruct more; [|by split; simpl; [|lia]]. specialize (Hlt3 eq_refl).
    destruct (gettoken_eq s3) as (tok & q1 & e1 & s4 & -> & _ & Hs4 & Hp4 & _); [lia|]. specialize (Hp4 Hlt3). cbn [pbind].
    eapply safe_bind; [apply (IHl s4); lia|]. intros [c5 s5] [Hc5 Hs5]. simpl in *. split; simpl; [done | lia].
  - eapply safe_bind; [apply (IHe s); lia|]. intros [c1 s1] [Hc1 Hs1]. simpl in Hc1, Hs1.
    destruct (peek_eq s1 (chars "|")) as (more & s3 & -> & Hs3 & Hlt3); [lia|]. cbn [pbind].
    destruct more; [|by split; simpl; [|lia]]. specialize (Hlt3 eq_refl).
    destruct (gettoken_eq s3) as (tok & q1 & e1 & s4 & -> & _ & Hs4 & Hp4 & _); [lia|]. specialize (Hp4 Hlt3). cbn [pbind].
    eapply safe_bind; [apply (IHp s4); lia|]. intros [c5 s5] [Hc5 Hs5]. simpl in *. split; simpl; [done | lia].
  - destruct (peek_eq s (chars "(")) as (block & s1 & -> & Hs1 & Hlt1); [lia|]. cbn [pbind].
    destruct block.
    { eapply safe_mono; [apply (IHb s1); [by apply Hlt1 | lia]|]. intros r [Hc Hr]. split; [done | lia]. }
    eapply safe_bind; [apply (parseredirs_safe (chain_ok 0) (S es) execcmd s1); [by simpl | apply execcmd_ok | lia | lia]|].
    intros [c2 s2] [Hc2 Hs2]. simpl in Hc2, Hs2.
    eapply safe_bind; [apply (parseargs_safe (S es) c2 s2); [done | lia | lia]|]. intros [[c3 n] s3] (Hc3 & Hn & Hs3).
    destruct (set_arg_end n c3 Hc3 Hn) as (c4 & -> & Hc4). split; simpl; [done | lia].
  - destruct (peek_eq s (chars "(")) as (open & s1 & -> & Hs1 & Hlt1); [lia|]. cbn [pbind].
    destruct open; cbn [negb]; [|apply panic_safe]. specialize (Hlt1 eq_refl).
    destruct (gettoken_eq s1) as (tok & q1 & e1 & s2 & -> & _ & Hs2 & Hp2 & _); [lia|]. specialize (Hp2 Hlt1). cbn [pbind].
    eapply safe_bind; [apply (IHl s2); lia|]. intros [c3 s3] [Hc3 Hs3]. simpl in Hc3, Hs3.
    destruct (peek_eq s3 (chars ")")) as (close & s4 & -> & Hs4 & Hlt4); [lia|]. cbn [pbind].
    destruct close; cbn [negb]; [|apply panic_safe]. specialize (Hlt4 eq_refl).
    destruct (gettoken_eq s4) as (tok2 & q2 & e2 & s5 & -> & Hq5 & Hs5 & _ & _); [lia|]. cbn [pbind].
    eapply safe_mono; [apply (parseredirs_safe cmd_ok (S es) c3 s5); [by simpl | done | lia | lia]|].
    intros r [Hc Hr]. split; [done | lia].
Qed.

Lemma store_nul_eq e (b : list Z) : (e < length b)%nat -> store_nul e b = Done (<[e := 0]> b).
Proof. intros He. unfold store_nul. by rewrite (proj2 (Nat.ltb_lt _ _)). Qed.

Lemma nul_args_safe n argv eargv (b : list Z) :
  length argv = length eargv -> (n < length argv)%nat ->
  (forall i, (i < length argv)%nat ->
    if decide (i < n)%nat then exists q e, argv !! i = Some (Some q) /\ eargv !! i = Some (Some e) /\ (e <= es)%nat
    else argv !! i = Some None) ->
  (es < length b)%nat ->
  exists b', nul_args argv eargv b = Done b' /\ length b' = length b.
Proof.
  revert n eargv b. induction argv as [|a argv IH]; intros n eargv b Hl Hn Hargs Hb; [simpl in Hn; lia|].
  destruct eargv as [|e eargv]; [done|]. injection Hl as Hl. pose proof (Hargs 0%nat ltac:(simpl; lia)) as H0.
  destruct n as [|n].
  - rewrite decide_False in H0 by lia. injection H0 as ->. by exists b.
  - rewrite decide_True in H0 by lia. destruct H0 as (q & e' & [= ->] & [= ->] & He). simpl.
    rewrite store_nul_eq by lia. cbn [pbind]. destruct (IH n eargv (<[e' := 0]> b)) as (b' & -> & Hb'); try done.
    + simpl in Hn. lia.
    + intros i Hi. specialize (Hargs (S i) ltac:(simpl; lia)). repeat case_decide; try lia; exact Hargs.
    + by rewrite length_insert.
    + exists b'. split; [done|]. by rewrite Hb', length_insert.
Qed.

Lemma nulterminate_safe c (b : list Z) :
  cmd_ok c -> (es < length b)%nat -> exists b', nulterminate c b = Done b' /\ length b' = length b.
Proof.
  revert b. induction c as [argv eargv|c IH q e m fd|l IHl r IHr|l IHl r IHr|c IH]; intros b Hc Hb; simpl in *.
  - destruct Hc as (n & Hn & H1 & H2 & Hargs). eapply (nul_args_safe n); rewrite ?H1; done.
  - destruct Hc as [Hc He]. destruct (IH b Hc Hb) as (b1 & -> & Hb1). simpl. rewrite store_nul_eq by lia.
    eexists. split; [done|]. by rewrite length_insert.
  - destruct Hc as [Hl Hr]. destruct (IHl b Hl Hb) as (b1 & -> & Hb1). simpl.
    destruct (IHr b1 Hr ltac:(lia)) as (b2 & -> & Hb2). exists b2. split; [done | lia].
  - destruct Hc as [Hl Hr]. destruct (IHl b Hl Hb) as (b1 & -> & Hb1). simpl.
    destruct (IHr b1 Hr ltac:(lia)) as (b2 & -> & Hb2). exists b2. split; [done | lia].
  - by apply IH.
Qed.
End bounds.

(** The line that a buffer with a NUL holds. *)
Lemma str_at_line buf es :
  0 ∈ buf -> es = length (str_at buf 0) ->
  buf !! es = Some 0 /\ (forall i c, (i < es)%nat -> buf !! i = Some c -> c <> 0).
Proof.
  intros Hin ->. unfold str_at. rewrite drop_0. destruct (find_index (fun c => c =? 0) buf) as [n|] eqn:E.
  - pose proof (find_index_lt _ _ _ E) as Hlt. apply find_index_Some in E as [(x & Hx & ->%Z.eqb_eq) Hb].
    rewrite length_take, Nat.min_l by lia. split; [done|]. intros i c Hi Hc ->.
    specialize (Hb i 0 Hi Hc). done.
  - apply find_index_None in E. rewrite list.Forall_forall in E. specialize (E 0 Hin). done.
Qed.

Lemma main_parse_safe buf : 0 ∈ buf ->
  safe (fun '(c, buf') => cmd_ok (length (str_at buf 0)) c /\ length buf' = length buf) (parsecmd buf).
Proof.
  intros Hin. destruct (str_at_line buf _ Hin eq_refl) as [Hnul Hnz]. unfold parsecmd. set (es := length (str_at buf 0)) in *.
  pose proof (lookup_lt_Some _ _ _ Hnul) as Hes.
  eapply safe_bind; [apply (proj1 (parse_safe buf es Hnz Hnul (parse_fuel es))); unfold parse_fuel; lia|].
  intros [c s] [Hc Hs]. simpl in Hc, Hs. destruct (peek_eq buf es Hnul s []) as (b & s' & -> & Hs' & _); [lia|]. cbn [pbind].
  destruct (Nat.eqb_spec s' es) as [->|Hne]; cbn [negb].
  - destruct (nulterminate_safe es c buf Hc Hes) as (b' & -> & Hb'). by cbn.
  - apply safe_seq; [by apply printf_loop_safe | intros; apply panic_safe].
Qed.

Lemma pwhen_never b m : safe (fun _ => False) m -> safe (fun _ : unit => True) (pwhen b m).
Proof. intros Hm. destruct b; [|done]. by eapply safe_mono. Qed.

Lemma fork1_safe : safe (fun _ => True) fork1.
Proof. apply safe_call. intros x. destruct (x =? -1); [apply panic_safe | done]. Qed.

(** [runcmd] never returns. *)
Lemma runcmd_never buf c : safe (fun _ => False) (runcmd buf c).
Proof.
  induction c as [argv eargv|c IH q e m fd|l IHl r IHr|l IHl r IHr|c IH].
  - destruct argv as [|[a0|] argv]; [exact I| |exact I]. apply safe_call. intros x. by apply print_exit.
  - apply safe_call. intros x. apply safe_call. intros r. destruct (r <? 0); [by apply print_exit|].
    by eapply safe_bind.
  - apply safe_call. intros [res [p0 p1]]. destruct (res <? 0); [apply panic_safe|].
    apply safe_seq; [apply fork1_safe|]. intros pid.
    apply safe_seq; [apply pwhen_never; do 4 (apply safe_call; intros ?); apply IHl|]. intros _.
    apply safe_seq; [apply fork1_safe|]. intros pid2.
    apply safe_seq; [apply pwhen_never; do 4 (apply safe_call; intros ?); apply IHr|]. intros _.
    do 4 (apply safe_call; intros ?). exact I.
  - apply safe_seq; [apply fork1_safe|]. intros pid.
    apply safe_seq; [by apply pwhen_never|]. intros _. apply safe_call. intros x. by eapply safe_bind.
  - apply safe_seq; [apply fork1_safe|]. intros pid.
    apply safe_seq; [by apply pwhen_never|]. intros _. exact I.
Qed.

(** ** What is parsed *)

(** *** Command lines *)

Inductive redir :=
| RIn (w : list Z)
| ROut (w : list Z)
| RApp (w : list Z).

(** A simple command is words with redirections before, between and after
    them; [bg] counts the ampersands after a pipeline. *)
Inductive cline :=
| LEnd (p : cpipe) (bg : nat)
| LSeq (p : cpipe) (bg : nat) (l : cline)
with cpipe :=
| POne (x : cexec)
| PBar (x : cexec) (p : cpipe)
with cexec :=
| Simple (rs : list redir) (ws : list (list Z * list redir))
| Block (l : cline) (rs : list redir).

Scheme cline_mut := Induction for cline Sort Prop
with cpipe_mut := Induction for cpipe Sort Prop
with cexec_mut := Induction for cexec Sort Prop.
Combined Scheme syntax_ind from cline_mut, cpipe_mut, cexec_mut.

(** What a command line means. *)
Inductive tree :=
| TExec (args : list (list Z))
| TRedir (t : tree) (file : list Z) (mode fd : Z)
| TPipe (l r : tree)
| TList (l r : tree)
| TBack (t : tree).

Definition redirect (t : tree) (r : redir) : tree :=
  match r with
  | RIn w => TRedir t w O_RDONLY 0
  | ROut w => TRedir t w (Z.lor O_WRONLY O_CREATE) 1
  | RApp w => TRedir t w (Z.lor O_WRONLY O_CREATE) 1
  end.

Fixpoint denote_line (l : cline) : tree :=
  match l with
  | LEnd p bg => Nat.iter bg TBack (denote_pipe p)
  | LSeq p bg l => TList (Nat.iter bg TBack (denote_pipe p)) (denote_line l)
  end
with denote_pipe (p : cpipe) : tree :=
  match p with
  | POne x => denote_exec x
  | PBar x p => TPipe (denote_exec x) (denote_pipe p)
  end
with denote_exec (x : cexec) : tree :=
  match x with
  | Simple rs ws => foldl redirect (TExec (fst <$> ws)) (rs ++ concat (snd <$> ws))
  | Block l rs => foldl redirect (denote_line l) rs
  end.

(** *** Their text: the tokens, each followed by any number of blanks *)

Inductive token :=
| TWord (w : list Z)
| TSym (c : Z)
| TApp.

Definition text (t : token) : list Z :=
  match t with TWord w => w | TSym c => [c] | TApp => [62; 62] end.

Definition enc (ts : list (token * list Z)) : list Z := concat ((fun t => text t.1 ++ t.2) <$> ts).

(** Two tokens that would be read as one, or as others, without a blank between
    them: two words, and a [>] before another. *)
Definition clash (t u : token) : bool :=
  match t, u with
  | TWord _, TWord _ => true
  | TSym c, TSym d => (c =? 62) && (d =? 62)
  | TSym c, TApp => c =? 62
  | _, _ => false
  end.

Definition blanks (g : list Z) : Prop := Forall (fun c => blank c = true) g.

Fixpoint spaced (ts : list (token * list Z)) : Prop :=
  match ts with
  | [] => True
  | (t, g) :: ts => blanks g /\ (g = [] -> match ts with (u, _) :: _ => clash t u = false | [] => True end) /\ spaced ts
  end.

Definition redir_toks (r : redir) : list token :=
  match r with
  | RIn w => [TSym 60; TWord w]
  | ROut w => [TSym 62; TWord w]
  | RApp w => [TApp; TWord w]
  end.
Definition redirs_toks (rs : list redir) : list token := concat (redir_toks <$> rs).
Definition group_toks (g : list Z * list redir) : list token := TWord g.1 :: redirs_toks g.2.

Fixpoint line_toks (l : cline) : list token :=
  match l with
  | LEnd p bg => pipe_toks p ++ repeat (TSym 38) bg
  | LSeq p bg l => pipe_toks p ++ repeat (TSym 38) bg ++ TSym 59 :: line_toks l
  end
with pipe_toks (p : cpipe) : list token :=
  match p with
  | POne x => exec_toks x
  | PBar x p => exec_toks x ++ TSym 124 :: pipe_toks p
  end
with exec_toks (x : cexec) : list token :=
  match x with
  | Simple rs ws => redirs_toks rs ++ concat (group_toks <$> ws)
  | Block l rs => TSym 40 :: line_toks l ++ TSym 41 :: redirs_toks rs
  end.

Definition word_ok (w : list Z) : Prop := w <> [] /\ Forall (fun c => plain c = true /\ c <> 0) w.
Definition redir_ok (r : redir) : Prop :=
  match r with RIn w => word_ok w | ROut w => word_ok w | RApp w => word_ok w end.

Fixpoint line_ok (l : cline) : Prop :=
  match l with
  | LEnd p bg => pipe_ok p
  | LSeq p bg l => pipe_ok p /\ line_ok l
  end
with pipe_ok (p : cpipe) : Prop :=
  match p with
  | POne x => exec_ok x
  | PBar x p => exec_ok x /\ pipe_ok p
  end
with exec_ok (x : cexec) : Prop :=
  match x with
  | Simple rs ws => Forall redir_ok rs /\ (length ws < MAXARGS)%nat /\
      Forall (fun g => word_ok g.1 /\ Forall redir_ok g.2) ws
  | Block l rs => line_ok l /\ Forall redir_ok rs
  end.

(** What a parsed command says, its strings read from the buffer. *)
Fixpoint resolve (buf : list Z) (c : cmd) : tree :=
  match c with
  | EXEC argv _ => TExec (arg_strings argv buf)
  | REDIR c file _ mode fd => TRedir (resolve buf c) (str_at buf file) mode fd
  | PIPE l r => TPipe (resolve buf l) (resolve buf r)
  | LIST l r => TList (resolve buf l) (resolve buf r)
  | BACK c => TBack (resolve buf c)
  end.

(** *** The parser on the text of tokens *)

Lemma enc_cons t g ts : enc ((t, g) :: ts) = text t ++ g ++ enc ts.
Proof. unfold enc. simpl. by rewrite <- app_assoc. Qed.

Lemma enc_app ts1 ts2 : enc (ts1 ++ ts2) = enc ts1 ++ enc ts2.
Proof. unfold enc. by rewrite fmap_app, concat_app. Qed.

Lemma spaced_suffix ts1 ts2 : spaced (ts1 ++ ts2) -> spaced ts2.
Proof. induction ts1 as [|[t g] ts1 IH]; simpl; [done|]. intros (_ & _ & Hs). by apply IH. Qed.

Definition token_ok (t : token) : Prop :=
  match t with TWord w => word_ok w | TSym c => c ∈ symbols | TApp => True end.

(** The first character of a token. *)
Definition first (t : token) : Z := match text t with c :: _ => c | [] => 0 end.

Definition kind (t : token) : Z := match t with TWord _ => 97 | TSym c => c | TApp => 43 end.

Lemma text_first t : token_ok t -> exists r, text t = first t :: r.
Proof. destruct t as [w|c|]; [|by eexists..]. intros [Hw _]. unfold first. simpl. destruct w; [done | by eexists]. Qed.

Lemma symbol_cases c : c ∈ symbols -> c = 60 \/ c = 124 \/ c = 62 \/ c = 38 \/ c = 59 \/ c = 40 \/ c = 41.
Proof. change symbols with [60; 124; 62; 38; 59; 40; 41]. rewrite !elem_of_cons, elem_of_nil. tauto. Qed.

Lemma plain_blank c : plain c = true -> blank c = false.
Proof. unfold plain, blank. intros [H _]%andb_true_iff. by apply negb_true_iff in H. Qed.

Lemma first_blank t : token_ok t -> blank (first t) = false /\ first t <> 0.
Proof.
  destruct t as [w|c|]; simpl; [| |by split].
  - intros [Hw Hp]. unfold first. simpl. destruct w as [|c w]; [done|]. apply list.Forall_cons in Hp as [[Hc Hn] _].
    split; [by apply plain_blank | done].
  - intros Hc%symbol_cases. unfold first. simpl. destruct_or! Hc; subst; done.
Qed.

(** A character that ends a word. *)
Definition stop (c : Z) : bool := negb (plain c) || (c =? 0).

Lemma blank_stop c : blank c = true -> plain c = false /\ c <> 0 /\ c <> 62.
Proof.
  unfold blank. intros Hc. split_and!; [unfold plain; by rewrite Hc | |]; intros ->; done.
Qed.

Lemma symbol_first t : token_ok t -> match t with TWord _ => False | _ => True end ->
  plain (first t) = false.
Proof.
  destruct t as [w|c|]; try done. intros Hc%symbol_cases _. unfold first. simpl. destruct_or! Hc; subst; done.
Qed.

Section text.
Variables (ts0 : list (token * list Z)) (lead rest : list Z).
Hypothesis Hok : Forall (fun t => token_ok t.1) ts0.
Hypothesis Hsp : spaced ts0.
Hypothesis Hlead : blanks lead.

Let line : list Z := lead ++ enc ts0.
Let es : nat := length line.
Let buf : list Z := line ++ 0 :: rest.

(** At [s], [ts] is still to come, after some blanks. *)
Definition at_ (s : nat) (ts : list token) : Prop :=
  exists pre sts w, ts0 = pre ++ sts /\ ts = sts.*1 /\ drop s line = w ++ enc sts /\ blanks w /\ (s <= es)%nat.

(** At [q], [ts] is next. *)
Definition sharp (q : nat) (ts : list token) : Prop :=
  exists pre sts, ts0 = pre ++ sts /\ ts = sts.*1 /\ drop q line = enc sts /\ (q <= es)%nat.

Lemma sharp_at q ts : sharp q ts -> at_ q ts.
Proof. intros (pre & sts & Hts & -> & Hd & Hq). exists pre, sts, []. by split_and!; [..|constructor|]. Qed.

Lemma drop_line s l : (s <= es)%nat -> drop s line = l -> drop s buf = l ++ 0 :: rest.
Proof. intros Hs <-. unfold buf. by rewrite drop_app_le. Qed.

Lemma drop_length s w r : (s <= es)%nat -> drop s line = w ++ r -> (s + length w <= es)%nat /\ drop (s + length w) line = r.
Proof.
  intros Hs Hd. split.
  - assert (length (drop s line) = length w + length r)%nat as E by (by rewrite Hd, length_app).
    rewrite length_drop in E. fold es in E. lia.
  - by rewrite <- drop_drop, Hd, drop_app_length.
Qed.

(** Behind the next token there are blanks. *)
Lemma sharp_after q t ts : sharp q (t :: ts) -> at_ (q + length (text t)) ts.
Proof.
  intros (pre & [|[t' g] sts] & Hts & [= -> ->] & Hd & Hq). rewrite enc_cons in Hd.
  destruct (drop_length q _ _ Hq Hd) as [Hle Hd']. exists (pre ++ [(t', g)]), sts, g. split_and!; try done.
  - by rewrite <- app_assoc.
  - pose proof Hsp as Hs. rewrite Hts in Hs. apply spaced_suffix in Hs. apply Hs.
Qed.

Lemma at_start : at_ 0 (ts0.*1).
Proof. exists [], ts0, lead. split_and!; [done | done | by rewrite drop_0 | done | lia]. Qed.

(** The position where the next token starts. *)
Lemma at_sharp s ts : at_ s ts -> exists w q, blanks w /\ q = (s + length w)%nat /\ (q <= es)%nat /\
  drop s line = w ++ drop q line /\ sharp q ts.
Proof.
  intros (pre & sts & w & Hts & -> & Hd & Hw & Hs). exists w, (s + length w)%nat.
  destruct (drop_length s _ _ Hs Hd) as [Hle Hd']. split_and!; try done; [by rewrite Hd'|].
  by exists pre, sts.
Qed.

Lemma at_le s ts : at_ s ts -> (s <= es)%nat.
Proof. by intros (? & ? & ? & _ & _ & _ & _ & ?). Qed.

Lemma sharp_token q t ts : sharp q (t :: ts) -> token_ok t.
Proof.
  intros (pre & [|[t' g] sts] & Hts & [= -> ->] & _). rewrite Hts, Forall_app in Hok. destruct Hok as [_ H].
  by apply list.Forall_cons in H as [? _].
Qed.

Lemma sharp_first q t ts : sharp q (t :: ts) -> exists r, drop q buf = text t ++ r /\ (q + length (text t) <= es)%nat.
Proof.
  intros (pre & [|[t' g] sts] & Hts & [= -> ->] & Hd & Hq). rewrite enc_cons in Hd.
  destruct (drop_length q _ _ Hq Hd) as [Hle _]. eexists. split; [|done].
  rewrite (drop_line q _ Hq Hd), <- !app_assoc. done.
Qed.

Lemma sharp_nil q : sharp q [] -> q = es.
Proof.
  intros (pre & [|[] ?] & _ & Hn & Hd & Hq); [|done]. assert (length (drop q line) = 0)%nat as E by (by rewrite Hd).
  rewrite length_drop in E. fold es in E. lia.
Qed.

Lemma buf_end : buf !! es = Some 0.
Proof. unfold buf, es. by rewrite lookup_app_r, Nat.sub_diag by done. Qed.

(** What follows a token: for a word the end of the line or a character that
    ends it, for [>] none that would make it [>>]. *)
Lemma sharp_next q t ts :
  sharp q (t :: ts) -> let e := (q + length (text t))%nat in
  exists c, buf !! e = Some c /\
    match t with
    | TWord _ => stop c = true /\ (e = es \/ plain c = false)
    | TSym s => s = 62 -> c <> 62
    | TApp => True
    end.
Proof.
  intros Hsh e. pose proof Hsh as (pre & [|[t' g] sts] & Hts & [= -> ->] & Hd & Hq).
  pose proof Hsp as Hs. rewrite Hts in Hs. apply spaced_suffix in Hs as (Hg & Hcl & _).
  rewrite enc_cons in Hd. destruct (drop_length q _ _ Hq Hd) as [Hle Hd']. fold e in Hle, Hd'.
  pose proof (drop_line e _ Hle Hd') as Hb. rewrite <- (Nat.add_0_r e), <- lookup_drop, Hb.
  destruct g as [|c g].
  - destruct sts as [|[u g'] sts].
    + simpl. exists 0. split; [done|]. assert (e + 0 = es)%nat as ->.
      { rewrite Nat.add_0_r. apply sharp_nil. exists (pre ++ [(t', [])]), []. rewrite <- app_assoc. by split_and!. }
      destruct t'; [split; [done | by left] | done | done].
    + specialize (Hcl eq_refl). assert (token_ok u) as Hu.
      { rewrite Hts, Forall_app in Hok. destruct Hok as [_ H]. apply list.Forall_cons in H as [_ [H _]%list.Forall_cons]. done. }
      destruct (text_first u Hu) as [r Hr]. simpl. rewrite enc_cons, Hr. simpl. exists (first u). split; [done|].
      destruct t' as [w|c|]; [| |done].
      * assert (plain (first u) = false) as Hp by (apply symbol_first; [done | by destruct u]).
        split; [by unfold stop; rewrite Hp | by right].
      * intros ->. destruct u as [w|d|]; simpl in Hcl; try done.
        -- destruct Hu as [Hne Hp]. unfold first. simpl. destruct w as [|x w]; [done|].
           apply list.Forall_cons in Hp as [[Hx _] _]. by intros ->.
        -- by apply Z.eqb_neq.
  - simpl. exists c. split; [done|]. apply list.Forall_cons in Hg as [Hc _]. destruct (blank_stop c Hc) as (Hp & _ & Hn).
    destruct t'; [split; [by unfold stop; rewrite Hp | by right] | done | done].
Qed.

Lemma drop_lookup (l : list Z) s i x : drop s l !! i = Some x -> l !! (s + i)%nat = Some x.
Proof. by rewrite lookup_drop. Qed.

Lemma skip_run p w r s n :
  drop s buf = w ++ r -> Forall (fun c => p c = true) w -> (s + length w <= es)%nat -> (length w <= n)%nat ->
  ((s + length w)%nat = es \/ exists c r', r = c :: r' /\ p c = false) ->
  skip_while buf es p n s = Done (s + length w)%nat.
Proof.
  revert s n. induction w as [|c w IH]; intros s n Hd Hw Hle Hn Hstop; simpl in *.
  - rewrite Nat.add_0_r in *. destruct n as [|n]; [done|]. simpl. destruct Hstop as [->|(c & r' & -> & Hp)].
    + by rewrite Nat.ltb_irrefl.
    + case_match; [|done]. unfold char_at. assert (buf !! s = Some c) as ->.
      { rewrite <- (Nat.add_0_r s). apply drop_lookup. by rewrite Hd. }
      simpl. by rewrite Hp.
  - apply list.Forall_cons in Hw as [Hc Hw]. destruct n as [|n]; [lia|]. simpl.
    rewrite (proj2 (Nat.ltb_lt s es)) by lia. unfold char_at. assert (buf !! s = Some c) as ->.
    { rewrite <- (Nat.add_0_r s). apply drop_lookup. by rewrite Hd. }
    simpl. rewrite Hc, IH.
    + f_equal. lia.
    + assert (S s = s + 1)%nat as -> by lia. by rewrite <- drop_drop, Hd.
    + done.
    + lia.
    + lia.
    + destruct Hstop as [Hs|Hs]; [left; lia | by right].
Qed.

(** Skipping the blanks before the next token. *)
Lemma skip_blank s ts : at_ s ts -> exists q, skip buf es blank s = Done q /\ (s <= q <= es)%nat /\ sharp q ts.
Proof.
  intros Hat. pose proof (at_le _ _ Hat) as Hs. destruct (at_sharp _ _ Hat) as (w & q & Hw & -> & Hq & Hd & Hsh).
  exists (s + length w)%nat. split_and!; try done; try lia. unfold skip.
  eapply skip_run; [by rewrite (drop_line s _ Hs Hd), <- app_assoc | done | lia | lia |].
  destruct ts as [|t ts]; [left; by apply sharp_nil|]. right. pose proof (sharp_token _ _ _ Hsh) as Ht.
  destruct (sharp_first _ _ _ Hsh) as (r & Hb & _). destruct (text_first t Ht) as [r' Hr].
  rewrite <- (drop_line _ _ Hq eq_refl), Hb, Hr. eexists _, _. split; [done|]. by apply first_blank.
Qed.

Lemma sharp_char q t ts : sharp q (t :: ts) -> buf !! q = Some (first t).
Proof.
  intros Hsh. destruct (text_first t (sharp_token _ _ _ Hsh)) as [r Hr]. destruct (sharp_first _ _ _ Hsh) as (r' & Hd & _).
  rewrite <- (Nat.add_0_r q). apply drop_lookup. by rewrite Hd, Hr.
Qed.

Lemma peek_at s t ts toks :
  at_ s (t :: ts) -> exists q, peek buf es s toks = Done (has_char toks (first t), q) /\ sharp q (t :: ts) /\ (s <= q < es)%nat.
Proof.
  intros Hat. destruct (skip_blank s _ Hat) as (q & Hs & Hq & Hsh). pose proof (sharp_token _ _ _ Hsh) as Ht.
  destruct (first_blank t Ht) as [_ Hnz]. pose proof (sharp_char _ _ _ Hsh) as Hc.
  exists q. unfold peek. rewrite Hs. simpl. unfold char_at. rewrite Hc. simpl.
  rewrite (proj2 (truthy_spec (first t)) Hnz). simpl. split_and!; try done; [lia|].
  destruct (decide (q = es)) as [->|]; [|lia]. rewrite buf_end in Hc. congruence.
Qed.

Lemma peek_end s toks : at_ s [] -> peek buf es s toks = Done (false, es).
Proof.
  intros Hat. destruct (skip_blank s _ Hat) as (q & Hs & Hq & ->%sharp_nil).
  unfold peek. rewrite Hs. simpl. unfold char_at. by rewrite buf_end.
Qed.

Lemma at_end : at_ es [].
Proof. apply sharp_at. exists ts0, []. split_and!; [by rewrite app_nil_r | done | by apply drop_all | done]. Qed.

Lemma peek_done s toks : at_ s [] -> exists q, peek buf es s toks = Done (false, q) /\ at_ q [] /\ (s <= q <= es)%nat.
Proof.
  intros Hat. exists es. pose proof (at_le _ _ Hat). split_and!; try lia; [by apply peek_end | apply at_end].
Qed.

(** The rest of [gettoken], once the end of the token is known. *)
Lemma token_end s q t ts (ret : Z) :
  sharp q (t :: ts) -> (s <= q)%nat -> exists s',
    pbind (skip buf es blank (q + length (text t))) (fun s => Done (ret, q, (q + length (text t))%nat, s)) =
      Done (ret, q, (q + length (text t))%nat, s') /\ at_ s' ts /\ (s <= q /\ q + length (text t) <= s' <= es)%nat.
Proof.
  intros Hsh Hs. destruct (skip_blank _ _ (sharp_after _ _ _ Hsh)) as (s' & -> & Hs' & Hsh').
  exists s'. split_and!; try done; try lia. by apply sharp_at.
Qed.

Definition word_at (q : nat) (w : list Z) : Prop :=
  word_ok w /\ exists c r, drop q buf = w ++ c :: r /\ stop c = true.

Lemma sharp_word q w ts : sharp q (TWord w :: ts) -> word_at q w.
Proof.
  intros Hsh. split; [exact (sharp_token _ _ _ Hsh)|]. destruct (sharp_first _ _ _ Hsh) as (r & Hd & _).
  destruct (sharp_next _ _ _ Hsh) as (c & Hc & Hst & _). simpl text in *. rewrite <- lookup_drop, Hd in Hc.
  rewrite lookup_app_r, Nat.sub_diag in Hc by done. destruct r as [|c' r]; [done|]. injection Hc as ->. by exists c, r.
Qed.

Lemma gettoken_at s t ts :
  at_ s (t :: ts) -> exists q s',
    gettoken buf es s = Done (kind t, q, (q + length (text t))%nat, s') /\ at_ s' ts /\
    (s <= q /\ q + length (text t) <= s' <= es)%nat /\ (forall w, t = TWord w -> word_at q w).
Proof.
  intros Hat. destruct (skip_blank s _ Hat) as (q & Hs & Hq & Hsh). pose proof (sharp_token _ _ _ Hsh) as Ht.
  destruct (first_blank t Ht) as [Hb Hnz].
  destruct (sharp_first _ _ _ Hsh) as (r & Hd & Hend'). destruct (sharp_next _ _ _ Hsh) as (nc & Hnext & Hst).
  destruct (token_end s q t ts (kind t) Hsh ltac:(lia)) as (s' & Hend & Hat' & Hle).
  exists q, s'. split; [|split; [done|]; split; [lia | intros w ->; by eapply sharp_word]].
  unfold gettoken. rewrite Hs. cbn [pbind]. unfold char_at at 1. rewrite (sharp_char _ _ _ Hsh).
  cbn [pbind]. rewrite (proj2 (Z.eqb_neq _ _) Hnz). destruct t as [w|c|].
  - destruct Ht as [Hw Hp]. unfold first in *. simpl text in *. destruct w as [|c w]; [done|].
    pose proof Hp as [[Hc Hc0] _]%list.Forall_cons.
    pose proof Hc as [_ Hsym%negb_true_iff]%andb_true_iff.
    assert (forall d, d ∈ symbols -> c <> d) as Hne.
    { intros d Hd' ->. apply has_char_spec in Hd'. congruence. }
    assert (has_char (chars "|();&<") c = false) as ->.
    { destruct (has_char (chars "|();&<") c) eqn:E; [|done]. apply has_char_spec in E.
      change (chars "|();&<") with [124; 40; 41; 59; 38; 60] in E. rewrite !elem_of_cons, elem_of_nil in E.
      exfalso. destruct_or! E; (by destruct (Hne c)) || (subst; by specialize (Hne _ ltac:(by apply has_char_spec) eq_refl)). }
    rewrite (proj2 (Z.eqb_neq c 62)) by (apply Hne; by apply has_char_spec).
    unfold skip at 1. rewrite (skip_run plain (c :: w) r); [exact Hend | exact Hd | | lia | simpl in *; lia |].
    + eapply Forall_impl; [|exact Hp]. by intros x [? _].
    + destruct Hst as [_ [He|Hpl]]; [by left|]. right. rewrite <- lookup_drop, Hd, lookup_app_r, Nat.sub_diag in Hnext by done.
      destruct r as [|c' r]; [done|]. injection Hnext as ->. by exists nc, r.
  - unfold first in *. simpl text in *. simpl in Ht. apply symbol_cases in Ht. simpl kind in Hend. simpl length in Hend, Hnext.
    rewrite Nat.add_1_r in *. destruct (Z.eqb_spec c 62) as [->|Hg].
    + unfold char_at. rewrite Hnext. cbn -[skip buf]. rewrite (proj2 (Z.eqb_neq nc 62)) by (by apply Hst). exact Hend.
    + assert (has_char (chars "|();&<") c = true) as -> by (destruct_or! Ht; subst; done). exact Hend.
  - assert (buf !! S q = Some 62) as Hgt.
    { replace (S q) with (q + 1)%nat by lia. apply drop_lookup. by rewrite Hd. }
    change (first TApp) with 62. unfold char_at. cbn -[skip buf]. rewrite Hgt. cbn -[skip buf].
    simpl text in *. simpl length in *. replace (q + 2)%nat with (S (S q)) in * by lia. exact Hend.
Qed.

Lemma gettoken_end s : at_ s [] -> gettoken buf es s = Done (0, es, es, es).
Proof.
  intros Hat. destruct (skip_blank s _ Hat) as (q & Hs & Hq & ->%sharp_nil).
  unfold gettoken. rewrite Hs. cbn [pbind]. unfold char_at at 1. rewrite buf_end.
  cbn [pbind]. rewrite Z.eqb_refl. cbn [pbind]. unfold skip. by rewrite Nat.sub_diag.
Qed.

(** *** Commands located in the text *)

Definition pad (l : list nat) : list (option nat) := (Some <$> l) ++ repeat None (MAXARGS - length l).
Definition ends (qs : list nat) (ws : list (list Z)) : list nat := zip_with (fun q w => q + length w)%nat qs ws.

Fixpoint located (c : cmd) (t : tree) : Prop :=
  match c, t with
  | EXEC argv eargv, TExec ws =>
      exists qs, (length ws < MAXARGS)%nat /\ argv = pad qs /\ eargv = pad (ends qs ws) /\ Forall2 word_at qs ws
  | REDIR c file efile mode fd, TRedir t w mode' fd' =>
      located c t /\ word_at file w /\ efile = (file + length w)%nat /\ mode = mode' /\ fd = fd'
  | PIPE l r, TPipe l' r' => located l l' /\ located r r'
  | LIST l r, TList l' r' => located l l' /\ located r r'
  | BACK c, TBack t => located c t
  | _, _ => False
  end.

(** A simple command with its redirections, and its words. *)
Fixpoint args_of (t : tree) : option (list (list Z)) :=
  match t with TExec ws => Some ws | TRedir t _ _ _ => args_of t | _ => None end.
Fixpoint add_word (w : list Z) (t : tree) : tree :=
  match t with
  | TExec ws => TExec (ws ++ [w])
  | TRedir t f m fd => TRedir (add_word w t) f m fd
  | t => t
  end.
Definition add_group (t : tree) (g : list Z * list redir) : tree := foldl redirect (add_word g.1 t) g.2.

Lemma pad_snoc l q : (length l < MAXARGS)%nat -> <[length l := Some q]> (pad l) = pad (l ++ [q]).
Proof.
  intros Hl. unfold pad. rewrite fmap_app, length_app, <- app_assoc. simpl.
  replace (MAXARGS - length l)%nat with (S (MAXARGS - (length l + 1)))%nat by lia. simpl.
  rewrite <- (length_fmap Some l) at 1. rewrite <- (Nat.add_0_r (length (Some <$> l))). by rewrite insert_app_r.
Qed.

Lemma pad_end l : (length l < MAXARGS)%nat -> <[length l := None]> (pad l) = pad l.
Proof.
  intros Hl. apply list_insert_id. unfold pad. rewrite lookup_app_r by (by rewrite length_fmap).
  rewrite length_fmap, Nat.sub_diag. replace (MAXARGS - length l)%nat with (S (MAXARGS - length l - 1))%nat by lia. done.
Qed.

Lemma pad_length l : (length l < MAXARGS)%nat -> length (pad l) = MAXARGS.
Proof. intros Hl. unfold pad. rewrite length_app, length_fmap, repeat_length. lia. Qed.

Lemma ends_snoc qs ws q w : length qs = length ws -> ends (qs ++ [q]) (ws ++ [w]) = ends qs ws ++ [(q + length w)%nat].
Proof. intros Hl. unfold ends. by rewrite zip_with_app. Qed.

Lemma ends_length qs ws : length qs = length ws -> length (ends qs ws) = length ws.
Proof. intros Hl. unfold ends. rewrite length_zip_with. lia. Qed.

Lemma set_arg_word c t ws q w :
  located c t -> args_of t = Some ws -> (S (length ws) < MAXARGS)%nat -> word_at q w ->
  exists c', set_arg (length ws) (Some q) (Some (q + length w)%nat) c = Done c' /\ located c' (add_word w t).
Proof.
  revert t. induction c as [argv eargv|c IH f e m fd| | |]; intros [ws'|t f' m' fd'| | |] Hc Ha Hn Hw; simpl in *; try done.
  - injection Ha as ->. destruct Hc as (qs & Hl & -> & -> & HF). pose proof (Forall2_length HF) as Hql.
    rewrite !pad_length by (rewrite ?ends_length; lia). rewrite (proj2 (Nat.ltb_lt _ _)) by lia. simpl.
    eexists. split; [done|]. exists (qs ++ [q]). split_and!.
    + rewrite length_app. simpl. lia.
    + rewrite <- Hql. apply pad_snoc. lia.
    + rewrite ends_snoc by done. rewrite <- (ends_length qs ws) at 1 by done. apply pad_snoc. rewrite ends_length; lia.
    + apply Forall2_app; [done|]. by constructor.
  - destruct Hc as (Hc & Hf & He & Hm & Hfd). destruct (IH t Hc Ha Hn Hw) as (c' & -> & Hc'). simpl. eexists. split; [done|].
    simpl. done.
Qed.

Lemma set_arg_id c t ws :
  located c t -> args_of t = Some ws -> (length ws < MAXARGS)%nat -> set_arg (length ws) None None c = Done c.
Proof.
  revert t. induction c as [argv eargv|c IH f e m fd| | |]; intros [ws'|t f' m' fd'| | |] Hc Ha Hn; simpl in *; try done.
  - injection Ha as ->. destruct Hc as (qs & Hl & -> & -> & HF). pose proof (Forall2_length HF) as Hql.
    rewrite !pad_length by (rewrite ?ends_length; lia). rewrite (proj2 (Nat.ltb_lt _ _)) by lia. simpl.
    rewrite <- Hql at 1. rewrite pad_end by lia. rewrite <- (ends_length qs ws) at 1 by done. rewrite pad_end by (rewrite ends_length; lia).
    done.
  - destruct Hc as (Hc & _). by rewrite (IH t Hc Ha Hn).
Qed.

Lemma args_of_redirect t rs : args_of (foldl redirect t rs) = args_of t.
Proof. revert t. induction rs as [|r rs IH]; intros t; simpl; [done|]. rewrite IH. by destruct r. Qed.

Lemma args_of_add w t ws : args_of t = Some ws -> args_of (add_word w t) = Some (ws ++ [w]).
Proof. induction t; simpl; try done. by intros [= ->]. Qed.

(** *** What may follow *)

Definition away (toks : list Z) (ts : list token) : Prop :=
  match ts with [] => True | t :: _ => has_char toks (first t) = false end.
Definition follow (toks : list Z) (ts : list token) : Prop :=
  match ts with [] => True | t :: _ => has_char toks (first t) = true end.

Lemma follow_away F G ts : Forall (fun c => has_char G c = false) F -> follow F ts -> away G ts.
Proof. destruct ts as [|t ts]; [done|]. simpl. intros HF Ht%has_char_spec. rewrite list.Forall_forall in HF. by apply HF. Qed.

Lemma follow_sub F G ts : Forall (fun c => has_char G c = true) F -> follow F ts -> follow G ts.
Proof. destruct ts as [|t ts]; [done|]. simpl. intros HF Ht%has_char_spec. rewrite list.Forall_forall in HF. by apply HF. Qed.

Lemma peek_away s ts toks :
  at_ s ts -> away toks ts -> exists q, peek buf es s toks = Done (false, q) /\ at_ q ts /\ (s <= q <= es)%nat.
Proof.
  destruct ts as [|t ts]; intros Hat Ha; [by apply peek_done|]. simpl in Ha.
  destruct (peek_at s t ts toks Hat) as (q & Hp & Hsh & Hq). exists q. rewrite Hp, Ha. split; [done|].
  split; [by apply sharp_at | lia].
Qed.

Lemma peek_hit s t ts toks :
  at_ s (t :: ts) -> has_char toks (first t) = true ->
  exists q, peek buf es s toks = Done (true, q) /\ at_ q (t :: ts) /\ (s <= q < es)%nat.
Proof.
  intros Hat Ht. destruct (peek_at s t ts toks Hat) as (q & Hp & Hsh & Hq). exists q. rewrite Hp, Ht. split; [done|].
  split; [by apply sharp_at | lia].
Qed.

Lemma redirs_cons r rs ts : redirs_toks (r :: rs) ++ ts = redir_toks r ++ redirs_toks rs ++ ts.
Proof. unfold redirs_toks. simpl. by rewrite <- app_assoc. Qed.

(** One redirection: its symbol and its file. *)
Lemma redir_shape r : redir_ok r -> exists t w m fd, redir_toks r = [t; TWord w] /\ word_ok w /\
  has_char (chars "<>") (first t) = true /\ (forall c, redirect c r = TRedir c w m fd) /\
  forall c q e s, (if kind t =? 60 then redircmd c q e O_RDONLY 0
    else if kind t =? 62 then redircmd c q e (Z.lor O_WRONLY O_CREATE) 1
    else if kind t =? 43 then redircmd c q e (Z.lor O_WRONLY O_CREATE) 1 else c, s : nat) = (REDIR c q e m fd, s).
Proof. destruct r as [w|w|w]; intros Hw; simpl in Hw; eexists _, w, _, _; by split_and!. Qed.

Lemma parseredirs_at fuel c t rs s ts :
  located c t -> Forall redir_ok rs -> at_ s (redirs_toks rs ++ ts) -> away (chars "<>") ts -> (es - s < fuel)%nat ->
  exists c' s', parseredirs buf es fuel c s = Done (c', s') /\ located c' (foldl redirect t rs) /\ at_ s' ts /\ (s <= s' <= es)%nat.
Proof.
  unfold parseredirs. revert fuel c t s. induction rs as [|r rs IH]; intros fuel c t s Hc Hrs Hat Haw Hf; (destruct fuel as [|fuel]; [lia|]).
  - simpl in Hat. destruct (peek_away s ts _ Hat Haw) as (q & Hp & Hq & Hle). exists c, q. cbn [ploop]. rewrite Hp. by cbn.
  - apply list.Forall_cons in Hrs as [Hr Hrs]. rewrite redirs_cons in Hat.
    destruct (redir_shape r Hr) as (tk & w & m & fd & Htk & Hw & Hfirst & Hred & Hcmd). rewrite Htk in Hat. simpl in Hat.
    destruct (peek_hit s tk _ _ Hat Hfirst) as (s1 & Hp & Hat1 & Hs1).
    destruct (gettoken_at s1 _ _ Hat1) as (q1 & s2 & Hg1 & Hat2 & Hs2 & _).
    destruct (gettoken_at s2 _ _ Hat2) as (q & s3 & Hg2 & Hat3 & Hs3 & Hd3).
    pose proof (proj1 Hw) as Hne. assert (0 < length w)%nat as Hwl by (destruct w; [done | simpl; lia]).
    destruct (IH fuel (REDIR c q (q + length w) m fd) (TRedir t w m fd) s3) as (c' & s' & Hrun & Hc' & Hat' & Hle'); try done.
    + simpl. split_and!; try done. by apply Hd3.
    + simpl in Hs3. lia.
    + exists c', s'. cbn [ploop]. rewrite Hp. cbn [pbind negb]. rewrite Hg1. cbn [pbind]. rewrite Hg2.
      cbn [pbind kind negb]. rewrite Z.eqb_refl. cbn [pbind negb]. rewrite Hcmd.
      split; [exact Hrun|]. simpl. rewrite Hred. split_and!; try done; simpl in Hs3; lia.
Qed.

Lemma parsebacks_at fuel c t n s ts :
  located c t -> at_ s (repeat (TSym 38) n ++ ts) -> away (chars "&") ts -> (es - s < fuel)%nat ->
  exists c' s', parsebacks buf es fuel c s = Done (c', s') /\ located c' (Nat.iter n TBack t) /\ at_ s' ts /\ (s <= s' <= es)%nat.
Proof.
  unfold parsebacks. revert fuel c t s. induction n as [|n IH]; intros fuel c t s Hc Hat Haw Hf; (destruct fuel as [|fuel]; [lia|]).
  - simpl in Hat. destruct (peek_away s ts _ Hat Haw) as (q & Hp & Hq & Hle). exists c, q. cbn [ploop]. rewrite Hp. by cbn.
  - simpl in Hat. destruct (peek_hit s _ _ (chars "&") Hat eq_refl) as (s1 & Hp & Hat1 & Hs1).
    destruct (gettoken_at s1 _ _ Hat1) as (q1 & s2 & Hg1 & Hat2 & Hs2 & _). simpl in Hs2.
    destruct (IH fuel (BACK c) (TBack t) s2) as (c' & s' & Hrun & Hc' & Hat' & Hle'); try done; [lia|].
    exists c', s'. cbn [ploop]. rewrite Hp. cbn [pbind negb]. rewrite Hg1. cbn [pbind].
    split; [exact Hrun|]. rewrite <- Nat.iter_succ_r in Hc'. split_and!; try done; lia.
Qed.

Lemma groups_cons g gs ts :
  concat (group_toks <$> g :: gs) ++ ts = TWord g.1 :: redirs_toks g.2 ++ concat (group_toks <$> gs) ++ ts.
Proof. simpl. by rewrite <- app_assoc. Qed.

Lemma away_groups gs ts : Forall (fun g => word_ok g.1 /\ Forall redir_ok g.2) gs ->
  away (chars "<>") ts -> away (chars "<>") (concat (group_toks <$> gs) ++ ts).
Proof.
  destruct gs as [|[w rs] gs]; [done|]. intros [[[Hne Hp] _] _]%list.Forall_cons _. simpl in *. unfold first. simpl.
  destruct w as [|c w]; [done|]. apply list.Forall_cons in Hp as [[Hc _] _].
  apply andb_true_iff in Hc as [_ Hs%negb_true_iff]. destruct (has_char (chars "<>") c) eqn:E; [|done].
  apply has_char_spec in E. change (chars "<>") with [60; 62] in E. rewrite !elem_of_cons, elem_of_nil in E.
  destruct_or! E; subst; done.
Qed.

Lemma parseargs_at fuel c t ws gs s ts :
  located c t -> args_of t = Some ws -> (length ws + length gs < MAXARGS)%nat ->
  Forall (fun g => word_ok g.1 /\ Forall redir_ok g.2) gs ->
  at_ s (concat (group_toks <$> gs) ++ ts) -> follow (chars "|)&;") ts -> (es - s < fuel)%nat ->
  exists c' s', ploop fuel (parsearg buf es (S es)) (c, length ws, s) = Done (c', (length ws + length gs)%nat, s') /\
    located c' (foldl add_group t gs) /\ at_ s' ts /\ (s <= s' <= es)%nat.
Proof.
  revert fuel c t ws s. induction gs as [|[w rs] gs IH]; intros fuel c t ws s Hc Ha Hn Hgs Hat Hfo Hf; (destruct fuel as [|fuel]; [lia|]).
  - simpl in Hat. rewrite Nat.add_0_r. cbn [ploop]. unfold parsearg at 1. destruct ts as [|tk ts].
    + destruct (peek_done s (chars "|)&;") Hat) as (s1 & Hp & Hat1 & Hs1). rewrite Hp. cbn [pbind].
      rewrite (gettoken_end s1 Hat1). cbn [pbind]. rewrite Z.eqb_refl. cbn [pbind]. eexists _, _. split; [done|].
      split; [done|]. split; [apply at_end | lia].
    + destruct (peek_hit s _ _ _ Hat Hfo) as (s1 & Hp & Hat1 & Hs1). rewrite Hp. cbn [pbind].
      eexists _, _. split; [done|]. split_and!; try done; lia.
  - rewrite groups_cons in Hat. apply list.Forall_cons in Hgs as [[Hw Hrs] Hgs]. simpl in Hw, Hrs, Hn.
    pose proof Hw as [Hne Hpl]. assert (0 < length w)%nat as Hwl by (destruct w; [done | simpl; lia]).
    assert (has_char (chars "|)&;") (first (TWord w)) = false) as Hnf.
    { unfold first. simpl. destruct w as [|x w]; [done|]. apply list.Forall_cons in Hpl as [[Hx _] _].
      apply andb_true_iff in Hx as [_ Hs%negb_true_iff]. destruct (has_char (chars "|)&;") x) eqn:E; [|done].
      apply has_char_spec in E. change (chars "|)&;") with [124; 41; 38; 59] in E. rewrite !elem_of_cons, elem_of_nil in E.
      destruct_or! E; subst; done. }
    destruct (peek_away s _ (chars "|)&;") Hat Hnf) as (s1 & Hp & Hat1 & Hs1).
    destruct (gettoken_at s1 _ _ Hat1) as (q & s2 & Hg1 & Hat2 & Hs2 & Hd2). simpl in Hs2.
    destruct (set_arg_word c t ws q w Hc Ha ltac:(lia)) as (c1 & Hset & Hc1); [by apply Hd2|].
    destruct (parseredirs_at (S es) c1 (add_word w t) rs s2 _ Hc1 Hrs Hat2) as (c2 & s3 & Hred & Hc2 & Hat3 & Hs3);
      [apply away_groups; [done|]; eapply follow_away, Hfo; by repeat constructor | lia |].
    destruct (IH fuel c2 (add_group t (w, rs)) (ws ++ [w]) s3) as (c' & s' & Hrun & Hc' & Hat' & Hs'); try done.
    + unfold add_group. rewrite args_of_redirect. by apply args_of_add.
    + rewrite length_app. simpl. lia.
    + lia.
    + exists c', s'. cbn [ploop]. unfold parsearg at 1. rewrite Hp. cbn [pbind]. rewrite Hg1. cbn [pbind kind]. cbn [Z.eqb Pos.eqb negb].
      simpl text. rewrite Hset. cbn [pbind]. rewrite (proj2 (Nat.leb_gt _ _)) by lia. rewrite Hred. cbn [pbind].
      rewrite length_app in Hrun. simpl length in Hrun. rewrite Nat.add_1_r in Hrun.
      split; [etransitivity; [exact Hrun|]; do 3 f_equal; simpl; lia|]. split_and!; try done; lia.
Qed.

Lemma away_exec gs rs ts F :
  Forall redir_ok rs -> Forall (fun g => word_ok g.1 /\ Forall redir_ok g.2) gs -> follow F ts ->
  Forall (fun c => has_char (chars "(") c = false) F ->
  away (chars "(") (redirs_toks rs ++ concat (group_toks <$> gs) ++ ts).
Proof.
  intros Hrs Hgs Hfo HF. destruct rs as [|r rs].
  - destruct gs as [|[w rs'] gs]; [by eapply follow_away|]. rewrite groups_cons. simpl.
    apply list.Forall_cons in Hgs as [[[Hne Hp] _] _]. simpl in Hp, Hne. unfold first. simpl. destruct w as [|c w]; [done|].
    apply list.Forall_cons in Hp as [[Hc _] _]. apply andb_true_iff in Hc as [_ Hs%negb_true_iff].
    destruct (has_char (chars "(") c) eqn:E; [|done]. apply has_char_spec in E.
    change (chars "(") with [40] in E. rewrite list_elem_of_singleton in E. by subst.
  - rewrite redirs_cons. by destruct r.
Qed.

Lemma add_word_redirect w t rs : add_word w (foldl redirect t rs) = foldl redirect (add_word w t) rs.
Proof. revert t. induction rs as [|r rs IH]; intros t; simpl; [done|]. rewrite IH. by destruct r. Qed.

(** Redirections between the words are as good as redirections after them. *)
Lemma groups_denote a rs gs :
  foldl add_group (foldl redirect (TExec a) rs) gs = foldl redirect (TExec (a ++ (fst <$> gs))) (rs ++ concat (snd <$> gs)).
Proof.
  revert a rs. induction gs as [|[w rs'] gs IH]; intros a rs; simpl.
  - by rewrite !app_nil_r.
  - unfold add_group at 2. simpl. rewrite add_word_redirect. simpl. rewrite <- foldl_app, IH, <- !app_assoc. done.
Qed.

Lemma exec_start : located execcmd (TExec []).
Proof. exists []. split_and!; try done. unfold MAXARGS. simpl. lia. Qed.

Lemma follow_bg n ts : follow (chars ")&;") ts -> follow (chars ")&;") (repeat (TSym 38) n ++ ts).
Proof. by destruct n. Qed.

Lemma parse_simple fuel rs gs s ts :
  Forall redir_ok rs -> (length gs < MAXARGS)%nat -> Forall (fun g => word_ok g.1 /\ Forall redir_ok g.2) gs ->
  at_ s (redirs_toks rs ++ concat (group_toks <$> gs) ++ ts) -> follow (chars "|)&;") ts -> (2 <= fuel)%nat ->
  exists c s', parseexec buf es fuel s = Done (c, s') /\
    located c (foldl redirect (TExec (fst <$> gs)) (rs ++ concat (snd <$> gs))) /\ at_ s' ts /\ (s <= s' <= es)%nat.
Proof.
  intros Hrs Hn Hgs Hat Hfo Hf. destruct fuel as [|fuel]; [lia|]. rewrite ?parseline_S, ?parsepipe_S, ?parseexec_S.
  destruct (peek_away s _ (chars "(") Hat) as (s1 & -> & Hat1 & Hs1);
    [eapply away_exec; try done; by repeat constructor|]. cbn [pbind].
  destruct (parseredirs_at (S es) execcmd (TExec []) rs s1 _ exec_start Hrs Hat1) as (c2 & s2 & -> & Hc2 & Hat2 & Hs2);
    [apply away_groups; [done|]; eapply follow_away, Hfo; by repeat constructor | lia |]. cbn [pbind].
  assert (args_of (foldl redirect (TExec []) rs) = Some []) as Ha by (by rewrite args_of_redirect).
  destruct (parseargs_at (S es) c2 _ [] gs s2 ts Hc2 Ha ltac:(simpl; lia) Hgs Hat2 Hfo ltac:(lia))
    as (c3 & s3 & Hrun & Hc3 & Hat3 & Hs3).
  unfold parseargs. simpl length in Hrun. rewrite Hrun. cbn [pbind]. rewrite groups_denote in Hc3. simpl in Hc3.
  assert (args_of (foldl redirect (TExec (fst <$> gs)) (rs ++ concat (snd <$> gs))) = Some (fst <$> gs)) as Ha3
    by (by rewrite args_of_redirect).
  pose proof (set_arg_id c3 _ _ Hc3 Ha3) as Hid. rewrite length_fmap in Hid. simpl. rewrite Hid by done. cbn [pbind].
  eexists _, _. split; [done|]. split_and!; try done; lia.
Qed.

Lemma parse_at :
  (forall l, line_ok l -> forall fuel s ts, at_ s (line_toks l ++ ts) -> follow (chars ")") ts -> (4 * (es - s) + 4 <= fuel)%nat ->
    exists c s', parseline buf es fuel s = Done (c, s') /\ located c (denote_line l) /\ at_ s' ts /\ (s <= s' <= es)%nat) /\
  (forall p, pipe_ok p -> forall fuel s ts, at_ s (pipe_toks p ++ ts) -> follow (chars ")&;") ts -> (4 * (es - s) + 3 <= fuel)%nat ->
    exists c s', parsepipe buf es fuel s = Done (c, s') /\ located c (denote_pipe p) /\ at_ s' ts /\ (s <= s' <= es)%nat) /\
  (forall x, exec_ok x -> forall fuel s ts, at_ s (exec_toks x ++ ts) -> follow (chars "|)&;") ts -> (4 * (es - s) + 2 <= fuel)%nat ->
    exists c s', parseexec buf es fuel s = Done (c, s') /\ located c (denote_exec x) /\ at_ s' ts /\ (s <= s' <= es)%nat).
Proof.
  apply syntax_ind.
  - intros p IHp bg Hl fuel s ts Hat Hfo Hf. simpl in Hat. rewrite <- app_assoc in Hat. destruct fuel as [|fuel]; [lia|]. rewrite ?parseline_S, ?parsepipe_S, ?parseexec_S.
    destruct (IHp Hl fuel s _ Hat) as (c1 & s1 & -> & Hc1 & Hat1 & Hs1);
      [apply follow_bg; eapply follow_sub, Hfo; by repeat constructor | lia |]. cbn [pbind].
    destruct (parsebacks_at (S es) c1 _ bg s1 ts Hc1 Hat1) as (c2 & s2 & -> & Hc2 & Hat2 & Hs2);
      [eapply follow_away, Hfo; by repeat constructor | lia |]. cbn [pbind].
    destruct (peek_away s2 ts (chars ";") Hat2) as (s3 & -> & Hat3 & Hs3); [eapply follow_away, Hfo; by repeat constructor|]. cbn [pbind].
    eexists _, _. split; [done|]. split_and!; try done; lia.
  - intros p IHp bg l IHl [Hp Hl] fuel s ts Hat Hfo Hf. simpl in Hat. rewrite <- !app_assoc in Hat. simpl in Hat.
    destruct fuel as [|fuel]; [lia|]. rewrite ?parseline_S, ?parsepipe_S, ?parseexec_S.
    destruct (IHp Hp fuel s _ Hat) as (c1 & s1 & -> & Hc1 & Hat1 & Hs1); [by apply follow_bg | lia |]. cbn [pbind].
    destruct (parsebacks_at (S es) c1 _ bg s1 _ Hc1 Hat1) as (c2 & s2 & -> & Hc2 & Hat2 & Hs2); [done | lia |]. cbn [pbind].
    destruct (peek_hit s2 _ _ (chars ";") Hat2 eq_refl) as (s3 & -> & Hat3 & Hs3). cbn [pbind].
    destruct (gettoken_at s3 _ _ Hat3) as (q & s4 & -> & Hat4 & Hs4 & _). simpl in Hs4. cbn [pbind].
    destruct (IHl Hl fuel s4 ts Hat4 Hfo ltac:(lia)) as (c5 & s5 & -> & Hc5 & Hat5 & Hs5). cbn [pbind].
    eexists _, _. split; [done|]. split; [done|]. split; [done | lia].
  - intros x IHx Hx fuel s ts Hat Hfo Hf. simpl in Hat. destruct fuel as [|fuel]; [lia|]. rewrite ?parseline_S, ?parsepipe_S, ?parseexec_S.
    destruct (IHx Hx fuel s _ Hat) as (c1 & s1 & -> & Hc1 & Hat1 & Hs1);
      [eapply follow_sub, Hfo; by repeat constructor | lia |]. cbn [pbind].
    destruct (peek_away s1 ts (chars "|") Hat1) as (s3 & -> & Hat3 & Hs3); [eapply follow_away, Hfo; by repeat constructor|]. cbn [pbind].
    eexists _, _. split; [done|]. split_and!; try done; lia.
  - intros x IHx p IHp [Hx Hp] fuel s ts Hat Hfo Hf. simpl in Hat. rewrite <- app_assoc in Hat. simpl in Hat.
    destruct fuel as [|fuel]; [lia|]. rewrite ?parseline_S, ?parsepipe_S, ?parseexec_S.
    destruct (IHx Hx fuel s _ Hat) as (c1 & s1 & -> & Hc1 & Hat1 & Hs1); [done | lia |]. cbn [pbind].
    destruct (peek_hit s1 _ _ (chars "|") Hat1 eq_refl) as (s3 & -> & Hat3 & Hs3). cbn [pbind].
    destruct (gettoken_at s3 _ _ Hat3) as (q & s4 & -> & Hat4 & Hs4 & _). simpl in Hs4. cbn [pbind].
    destruct (IHp Hp fuel s4 ts Hat4 Hfo ltac:(lia)) as (c5 & s5 & -> & Hc5 & Hat5 & Hs5). cbn [pbind].
    eexists _, _. split; [done|]. split; [done|]. split; [done | lia].
  - intros rs gs (Hrs & Hn & Hgs) fuel s ts Hat Hfo Hf. simpl in Hat. rewrite <- app_assoc in Hat.
    apply parse_simple; try done. lia.
  - intros l IHl rs [Hl Hrs] fuel s ts Hat Hfo Hf. simpl in Hat. rewrite <- app_assoc in Hat. simpl in Hat.
    destruct fuel as [|[|fuel]]; [lia | lia |]. rewrite ?parseline_S, ?parsepipe_S, ?parseexec_S.
    destruct (peek_hit s _ _ (chars "(") Hat eq_refl) as (s1 & -> & Hat1 & Hs1). cbn [pbind]. rewrite parseblock_S.
    destruct (peek_hit s1 _ _ (chars "(") Hat1 eq_refl) as (s2 & -> & Hat2 & Hs2). cbn [pbind negb].
    destruct (gettoken_at s2 _ _ Hat2) as (q & s3 & -> & Hat3 & Hs3 & _). simpl in Hs3. cbn [pbind].
    destruct (IHl Hl fuel s3 _ Hat3 eq_refl ltac:(lia)) as (c4 & s4 & -> & Hc4 & Hat4 & Hs4). cbn [pbind].
    destruct (peek_hit s4 _ _ (chars ")") Hat4 eq_refl) as (s5 & -> & Hat5 & Hs5). cbn [pbind negb].
    destruct (gettoken_at s5 _ _ Hat5) as (q' & s6 & -> & Hat6 & Hs6 & _). simpl in Hs6. cbn [pbind].
    destruct (parseredirs_at (S es) c4 _ rs s6 ts Hc4 Hrs Hat6) as (c7 & s7 & -> & Hc7 & Hat7 & Hs7);
      [eapply follow_away, Hfo; by repeat constructor | lia |].
    eexists _, _. split; [done|]. split; [done|]. split; [done | lia].
Qed.

(** *** The strings after nulterminate *)

(** The positions [nulterminate] writes to, in order. *)
Fixpoint cmd_ends (c : cmd) : list nat :=
  match c with
  | EXEC _ eargv => omap id eargv
  | REDIR c _ efile _ _ => cmd_ends c ++ [efile]
  | PIPE l r => cmd_ends l ++ cmd_ends r
  | LIST l r => cmd_ends l ++ cmd_ends r
  | BACK c => cmd_ends c
  end.

Definition punch (es : list nat) (b : list Z) : list Z := foldl (fun b e => <[e := 0]> b) b es.

Lemma punch_app es1 es2 b : punch (es1 ++ es2) b = punch es2 (punch es1 b).
Proof. unfold punch. by rewrite foldl_app. Qed.

Lemma punch_length E b : length (punch E b) = length b.
Proof. revert b. induction E as [|e E IH]; intros b; simpl; [done|]. by rewrite IH, length_insert. Qed.

Lemma punch_in E b i : i ∈ E -> (i < length b)%nat -> punch E b !! i = Some 0.
Proof.
  induction E as [|e E IH] using rev_ind; [by intros ?%not_elem_of_nil|]. intros Hin Hi. rewrite punch_app. simpl.
  destruct (decide (i = e)) as [->|Hne]; [apply list_lookup_insert_eq; by rewrite punch_length|].
  rewrite list_lookup_insert_ne by done. apply IH; [|done]. apply elem_of_app in Hin as [?|?%list_elem_of_singleton]; done.
Qed.

Lemma punch_out E b i : i ∉ E -> punch E b !! i = b !! i.
Proof.
  revert b. induction E as [|e E IH]; intros b Hi; simpl; [done|]. apply not_elem_of_cons in Hi as [Hne Hi].
  rewrite IH by done. by rewrite list_lookup_insert_ne.
Qed.

Lemma omap_pad l : omap id (pad l) = l.
Proof.
  unfold pad. rewrite omap_app. assert (omap id (repeat (@None nat) (MAXARGS - length l)) = []) as ->.
  { induction (MAXARGS - length l)%nat as [|n IH]; simpl; [done|]. exact IH. }
  rewrite app_nil_r. induction l as [|x l IH]; simpl; [done|]. f_equal. exact IH.
Qed.

Lemma nul_args_eq qs E n b :
  length qs = length E -> Forall (fun e => e < length b)%nat E ->
  nul_args ((Some <$> qs) ++ repeat None (S n)) ((Some <$> E) ++ repeat None (S n)) b = Done (punch E b).
Proof.
  revert E b. induction qs as [|q qs IH]; intros [|e E] b Hl HE; try done. simpl.
  apply list.Forall_cons in HE as [He HE]. rewrite store_nul_eq by done. cbn [pbind]. apply IH; [by injection Hl|].
  by rewrite length_insert.
Qed.

(** Where a word ends there is a character that no word has. *)
Definition breaks (e : nat) : Prop := exists c, buf !! e = Some c /\ stop c = true.

Lemma word_end q w : word_at q w -> breaks (q + length w).
Proof.
  intros [_ (c & r & Hd & Hc)]. exists c. split; [|done]. apply drop_lookup. by rewrite Hd, lookup_app_r, Nat.sub_diag by done.
Qed.

Lemma breaks_lt e : breaks e -> (e < length buf)%nat.
Proof. intros (c & Hc & _). by eapply lookup_lt_Some. Qed.

Lemma ends_breaks qs ws : Forall2 word_at qs ws -> Forall breaks (ends qs ws).
Proof. intros HF. induction HF as [|q w qs ws Hw HF IH]; simpl; constructor; [by apply word_end | done]. Qed.

Lemma located_ends c t : located c t -> Forall breaks (cmd_ends c).
Proof.
  revert t. induction c as [argv eargv|c IH f e m fd|l IHl r IHr|l IHl r IHr|c IH]; intros [ws|t w m' fd'|l' r'|l' r'|t] Hc; simpl in *; try done.
  - destruct Hc as (qs & _ & _ & -> & HF). rewrite omap_pad. by apply ends_breaks.
  - destruct Hc as (Hc & Hw & -> & _). apply Forall_app. split; [by eapply IH|]. constructor; [by apply word_end | done].
  - destruct Hc as [Hl Hr]. apply Forall_app. eauto.
  - destruct Hc as [Hl Hr]. apply Forall_app. eauto.
  - eauto.
Qed.

Lemma nulterminate_eq c t b :
  located c t -> length b = length buf -> nulterminate c b = Done (punch (cmd_ends c) b).
Proof.
  revert t b. induction c as [argv eargv|c IH f e m fd|l IHl r IHr|l IHl r IHr|c IH]; intros [ws|t w m' fd'|l' r'|l' r'|t] b Hc Hb; simpl in *; try done.
  - destruct Hc as (qs & Hl & -> & -> & HF). rewrite omap_pad. pose proof (Forall2_length HF) as Hq.
    pose proof (ends_length qs ws Hq) as He. unfold pad. rewrite He, Hq.
    destruct (MAXARGS - length ws)%nat as [|n] eqn:E; [lia|]. apply nul_args_eq; [congruence|].
    eapply Forall_impl; [|by apply ends_breaks]. intros e He'%breaks_lt. lia.
  - destruct Hc as (Hc & Hw & -> & _). rewrite (IH t b Hc Hb). simpl. rewrite punch_app. apply store_nul_eq.
    rewrite punch_length. apply word_end, breaks_lt in Hw. lia.
  - destruct Hc as [Hl Hr]. rewrite (IHl l' b Hl Hb). simpl. rewrite punch_app. apply (IHr r'); [done|]. by rewrite punch_length.
  - destruct Hc as [Hl Hr]. rewrite (IHl l' b Hl Hb). simpl. rewrite punch_app. apply (IHr r'); [done|]. by rewrite punch_length.
  - by apply (IH t).
Qed.

(** With its end punched, a word is a string. *)
Lemma str_at_word E q w :
  word_at q w -> Forall breaks E -> (q + length w)%nat ∈ E -> str_at (punch E buf) q = w.
Proof.
  intros Hw HE Hin. pose proof (word_end _ _ Hw) as Hend. destruct Hw as [[_ Hp] (c0 & r & Hd & _)].
  pose proof (breaks_lt _ Hend) as Hlt.
  assert (take (length w) (drop q (punch E buf)) = w) as Htk.
  { apply list_eq. intros i. destruct (decide (i < length w)%nat) as [Hi|Hi].
    - rewrite lookup_take_lt, lookup_drop by done. destruct (lookup_lt_is_Some_2 w i Hi) as [x Hx].
      assert (buf !! (q + i)%nat = Some x) as Hbx by (apply drop_lookup; by rewrite Hd, lookup_app_l).
      rewrite punch_out, Hbx; [done|]. intros HinE. rewrite list.Forall_forall in HE. destruct (HE _ HinE) as (y & Hy & Hst).
      assert (y = x) as -> by congruence. pose proof (Forall_lookup_1 _ _ _ _ Hp Hx) as [Hpl Hnz].
      unfold stop in Hst. rewrite Hpl, (proj2 (Z.eqb_neq _ _) Hnz) in Hst. done.
    - rewrite lookup_take_ge by lia. symmetry. apply lookup_ge_None. lia. }
  unfold str_at. assert (find_index (fun c => c =? 0) (drop q (punch E buf)) = Some (length w)) as ->; [|done].
  apply find_index_Some. split.
  - exists 0. split; [|done]. rewrite lookup_drop. by apply punch_in.
  - intros j y Hj Hy. assert (w !! j = Some y) as Hwj.
    { rewrite <- Htk. by rewrite lookup_take_lt. }
    pose proof (Forall_lookup_1 _ _ _ _ Hp Hwj) as [_ Hnz]. simpl in Hnz. by apply Z.eqb_neq.
Qed.

Lemma arg_strings_pad E qs ws :
  Forall2 word_at qs ws -> Forall breaks E -> ends qs ws ⊆ E -> (length qs < MAXARGS)%nat ->
  arg_strings (pad qs) (punch E buf) = ws.
Proof.
  intros HF HE. unfold pad. generalize (MAXARGS - length qs)%nat as n. intros n Hsub _. induction HF as [|q w qs ws Hw HF IH].
  - simpl. by destruct n.
  - simpl in *. f_equal; [|apply IH; set_solver]. apply str_at_word; try done. set_solver.
Qed.

Lemma resolve_located c t E :
  located c t -> Forall breaks E -> cmd_ends c ⊆ E -> resolve (punch E buf) c = t.
Proof.
  revert t. induction c as [argv eargv|c IH f e m fd|l IHl r IHr|l IHl r IHr|c IH]; intros [ws|t w m' fd'|l' r'|l' r'|t] Hc HE Hsub; simpl in *; try done.
  - destruct Hc as (qs & Hl & -> & -> & HF). rewrite omap_pad in Hsub. f_equal. eapply arg_strings_pad; try done.
    rewrite (Forall2_length HF). done.
  - destruct Hc as (Hc & Hw & -> & -> & ->). rewrite (IH t) by (done || set_solver). f_equal.
    apply str_at_word; try done. set_solver.
  - destruct Hc as [Hl Hr]. rewrite (IHl l'), (IHr r') by (done || set_solver). done.
  - destruct Hc as [Hl Hr]. rewrite (IHl l'), (IHr r') by (done || set_solver). done.
  - by rewrite (IH t).
Qed.

Lemma blanks_nonzero g : blanks g -> Forall (fun c => c <> 0) g.
Proof. intros Hg. eapply Forall_impl; [|exact Hg]. intros c Hc. by apply blank_stop. Qed.

Lemma enc_nonzero ts : Forall (fun t => token_ok t.1) ts -> spaced ts -> Forall (fun c => c <> 0) (enc ts).
Proof.
  intros HF. induction HF as [|[t g] ts Ht HF IH]; [constructor|]. intros (Hg & _ & Hs). rewrite enc_cons. rewrite !Forall_app.
  split_and!; [|by apply blanks_nonzero | by apply IH]. simpl in Ht. destruct t as [w|c|]; simpl.
  - destruct Ht as [_ Hp]. eapply Forall_impl; [|exact Hp]. by intros x [_ ?].
  - constructor; [|done]. apply symbol_cases in Ht. destruct_or! Ht; subst; done.
  - by repeat constructor.
Qed.

Lemma str_at_enc : str_at buf 0 = line.
Proof.
  unfold str_at. rewrite drop_0.
  assert (Forall (fun c => c <> 0) line) as Hnz.
  { apply Forall_app. split; [by apply blanks_nonzero | by apply enc_nonzero]. }
  assert (find_index (fun c => c =? 0) buf = Some es) as ->.
  - apply find_index_Some. split.
    + exists 0. split; [apply buf_end | done].
    + intros j y Hj Hy. unfold buf in Hy. rewrite lookup_app_l in Hy by done. apply Z.eqb_neq. by apply (Forall_lookup_1 _ _ _ _ Hnz Hy).
  - unfold buf, es. apply take_app_length.
Qed.
End text.

Lemma redirs_toks_ok rs : Forall redir_ok rs -> Forall token_ok (redirs_toks rs).
Proof.
  intros HF. induction HF as [|r rs Hr HF IH]; [constructor|]. unfold redirs_toks. simpl. apply Forall_app. split; [|done].
  destruct r; simpl in *; (constructor; [|by constructor]); simpl; try done; by apply has_char_spec.
Qed.

Lemma toks_ok :
  (forall l, line_ok l -> Forall token_ok (line_toks l)) /\
  (forall p, pipe_ok p -> Forall token_ok (pipe_toks p)) /\
  (forall x, exec_ok x -> Forall token_ok (exec_toks x)).
Proof.
  assert (forall c ts, has_char symbols c = true -> Forall token_ok ts -> Forall token_ok (TSym c :: ts)) as Hsym.
  { intros c ts Hc Hts. constructor; [by apply has_char_spec | done]. }
  assert (forall n ts, Forall token_ok ts -> Forall token_ok (repeat (TSym 38) n ++ ts)) as Hbg.
  { intros n ts Hts. induction n as [|n IH]; simpl; [done | by apply Hsym]. }
  apply syntax_ind; simpl.
  - intros p IHp bg Hp. apply Forall_app. split; [auto|]. rewrite <- (app_nil_r (repeat _ _)). by apply Hbg.
  - intros p IHp bg l IHl [Hp Hl]. apply Forall_app. split; [auto|]. apply Hbg, Hsym; [done | auto].
  - auto.
  - intros x IHx p IHp [Hx Hp]. apply Forall_app. split; [auto|]. apply Hsym; [done | auto].
  - intros rs gs (Hrs & _ & Hgs). apply Forall_app. split; [by apply redirs_toks_ok|].
    induction Hgs as [|[w rs'] gs [Hw Hr] Hgs IH]; simpl; [constructor|]. constructor; [done|].
    apply Forall_app. split; [by apply redirs_toks_ok | done].
  - intros l IHl rs [Hl Hrs]. apply Hsym; [done|]. apply Forall_app. split; [auto|]. apply Hsym; [done|].
    by apply redirs_toks_ok.
Qed.

(** ** Properties *)

(** C33: on any line, however malformed, the child that the shell forks
    for it never reads or writes outside the buffer, terminates (the fuel of
    the parser is enough), and never returns from [runcmd]: it ends in an
    [exec] or in [exit]; what [parsecmd] returns has all its pointers inside
    the line. *)
Theorem sh_child_terminates buf :
  0 ∈ buf ->
  safe (fun '(c, buf') => cmd_ok (length (str_at buf 0)) c /\ length buf' = length buf) (parsecmd buf) /\
  safe (fun _ => False) (let* ' (c, buf') := parsecmd buf in runcmd buf' c).
Proof.
  intros Hin. split; [by apply main_parse_safe|]. eapply safe_bind; [by apply main_parse_safe|].
  intros [c buf'] _. apply runcmd_never.
Qed.

Lemma sh_child_terminates_witness :
  safe (fun _ => False) (let* ' (c, buf') := parsecmd (chars "ls | (wc" ++ [10; 0]) in runcmd buf' c).
Proof. apply sh_child_terminates. apply elem_of_app. right. right. left. Defined.

(** C23: the shell understands what is written.  Take a command line (words,
    redirections, pipelines, lists, background commands and blocks, nested in
    any way, fewer than ten words to a command) and write its tokens one after
    the other, with any blanks before the first and after each, none where
    the tokens do not run into each other (two words, or [>] before [>]): this
    text is parsed to the command it stands for, with every string terminated
    where its word ends.  A redirection with [>>] stands for the same as one
    with [>]: the file is opened without being truncated, but nothing moves to
    its end. *)
Theorem parsecmd_roundtrip l ts lead rest :
  line_ok l -> ts.*1 = line_toks l -> spaced ts -> blanks lead ->
  exists c buf', parsecmd (lead ++ enc ts ++ 0 :: rest) = Done (c, buf') /\ resolve buf' c = denote_line l.
Proof.
  intros Hl Hts Hsp Hlead. pose proof (proj1 toks_ok l Hl) as Hok0.
  assert (Forall (fun t => token_ok t.1) ts) as Hok by (by rewrite <- Hts, list.Forall_fmap in Hok0).
  rewrite app_assoc. unfold parsecmd. rewrite (str_at_enc ts lead rest Hok Hsp Hlead).
  set (buf := (lead ++ enc ts) ++ 0 :: rest). set (es := length (lead ++ enc ts)).
  assert (at_ ts lead 0 (line_toks l ++ [])) as Hat by (rewrite app_nil_r, <- Hts; by apply at_start).
  destruct (proj1 (parse_at ts lead rest Hok Hsp) l Hl (parse_fuel es) 0%nat [] Hat I) as (c & s & Hrun & Hc & Hat' & Hs);
    [unfold parse_fuel, es; lia|].
  exists c, (punch (cmd_ends c) buf). fold buf es in Hrun. rewrite Hrun. cbn [pbind].
  pose proof (peek_end ts lead rest Hok s [] Hat') as Hpk. fold buf es in Hpk. rewrite Hpk. cbn [pbind]. rewrite Nat.eqb_refl.
  cbn [negb]. rewrite (nulterminate_eq ts lead rest c (denote_line l) buf Hc) by done. cbn [pbind]. split; [done|].
  apply (resolve_located ts lead rest); [exact Hok | exact Hsp | exact Hlead | exact Hc | | done]. by apply (located_ends ts lead rest) with (t := denote_line l).
Qed.

(** [ (cat<in|wc	-l >out;echo done)&], with a space in front, a tab and a newline. *)
Definition example_line : cline :=
  LEnd (POne (Block (LSeq (PBar (Simple [] [(chars "cat", [RIn (chars "in")])])
      (POne (Simple [] [(chars "wc", []); (chars "-l", [ROut (chars "out")])]))) 0
    (LEnd (POne (Simple [] [(chars "echo", []); (chars "done", [])])) 0)) [])) 1.

Definition example_text : list (token * list Z) :=
  [(TSym 40, []); (TWord (chars "cat"), []); (TSym 60, []); (TWord (chars "in"), []); (TSym 124, []);
   (TWord (chars "wc"), [9]); (TWord (chars "-l"), [32]); (TSym 62, []); (TWord (chars "out"), []); (TSym 59, []);
   (TWord (chars "echo"), [32]); (TWord (chars "done"), []); (TSym 41, []); (TSym 38, [10])].

Lemma parsecmd_roundtrip_witness :
  exists c buf', parsecmd ([32] ++ enc example_text ++ [0]) = Done (c, buf') /\
    resolve buf' c = TBack (TList
      (TPipe (TRedir (TExec [chars "cat"]) (chars "in") 0 0)
             (TRedir (TExec [chars "wc"; chars "-l"]) (chars "out") 0x201 1))
      (TExec [chars "echo"; chars "done"])).
Proof.
  apply (parsecmd_roundtrip example_line example_text [32] []);
    [| reflexivity | unfold example_text; cbn -[blank]; split_and!; try done; repeat constructor | repeat constructor].
  assert (forall w, w <> [] -> forallb (fun c => plain c && negb (c =? 0)) w = true -> word_ok w) as Hw.
  { intros w Hne Hf. split; [done|]. apply list.Forall_forall. intros c Hin%list_elem_of_In.
    eapply forallb_forall in Hf as [Hp Hz]%andb_true_iff; [|exact Hin]. split; [done|].
    by apply negb_true_iff, Z.eqb_neq in Hz. }
  cbn -[word_ok MAXARGS]. split_and!; repeat constructor; try (by apply Hw); unfold MAXARGS; lia.
Defined.
