(* ===== verification/Grep.v ===== *)
(** grep.c: the matcher of Kernighan and Pike for the operators [^ . * $], and
    the loop that looks for lines.  [match_] is proved equal to a declarative
    reading of patterns. *)

From S2P Require Import Prelude Memory User.

(** ** The matcher *)

(** [do{ if(matchhere(re, text)) return 1; }while(...)], [here] being
    [matchhere(re, .)] *)
Fixpoint matchstar (here : list Z -> bool) (c : Z) (text : list Z) : bool :=
  here text ||
  match text with
  | t :: text => ((t =? c) || (c =? 46)) && matchstar here c text
  | [] => false
  end.

Fixpoint matchhere (re text : list Z) : bool :=
  match re with
  | [] => true
  | c :: re1 =>
      match re1 with
      | 42 :: re2 => matchstar (matchhere re2) c text
      | _ =>
          if (c =? 36) && (match re1 with [] => true | _ => false end) then
            match text with [] => true | _ => false end
          else match text with
               | t :: text => ((c =? 46) || (c =? t)) && matchhere re1 text
               | [] => false
               end
      end
  end.

(** [do{ if(matchhere(re, text)) return 1; }while( *text++ != 0 );] *)
Fixpoint match_all (re text : list Z) : bool :=
  matchhere re text ||
  match text with
  | _ :: text => match_all re text
  | [] => false
  end.

Definition match_ (re text : list Z) : bool :=
  match re with
  | 94 :: re => matchhere re text
  | _ => match_all re text
  end.

(** ** The loop over the lines *)

(** The characters before the first NUL. *)
Definition until_nul (l : list Z) : list Z :=
  match lstrchr l 0 with Some n => take n l | None => l end.

(** [while((q = strchr(p, 10)) != 0){ ... p = q+1; }], from [p] on; the rest
    of the buffer behind the last newline is what remains. *)
Fixpoint grep_lines (fuel : nat) (pattern p : list Z) : prog (list Z) :=
  match fuel with
  | O => NoFuel
  | S fuel =>
      match lstrchr (until_nul p) 10 with
      | None => Done p
      | Some i =>
          pwhen (match_ pattern (take i p)) (call (SWrite 1 (take (S i) p)) ;; Done tt) ;;
          grep_lines fuel pattern (drop (S i) p)
      end
  end.

(** [buf] holds [m] bytes of a line that is not complete yet. *)
Definition grep_step (pattern : list Z) (fd : Z) (held : list Z) : prog (list Z + unit) :=
  let m := Z.of_nat (length held) in
  let* ' (n, bs) := call (SRead fd (1024 - m - 1)) in
  if n <=? 0 then Done (inr tt) else
  if negb (Z.of_nat (length bs) =? n) || (1024 - m - 1 <? n) then Fault else
  let buf := held ++ bs in
  let* p := grep_lines (S (length buf)) pattern buf in
  Done (inl (if (length p =? length buf)%nat then [] else p)).

Definition grep (fuel : nat) (pattern : list Z) (fd : Z) : prog unit :=
  ploop fuel (grep_step pattern fd) [].

Definition main (fuel : nat) (argv : list (list Z)) : prog unit :=
  match argv with
  | _ :: pattern :: [] => grep fuel pattern 0 ;; Exit
  | _ :: pattern :: files =>
      pfor files (fun f =>
        let* fd := call (SOpen f 0) in
        if fd <? 0 then printl 1 "grep: cannot open %s" [PStr (Some f)] ;; Exit else
        grep fuel pattern fd ;;
        call (SClose fd) ;;
        Done tt) ;;
      Exit
  | _ => printl 2 "usage: grep pattern [file ...]" [] ;; Exit
  end.

(** ** What a pattern means *)

Inductive atom :=
| Any
| Lit (c : Z).
Inductive item :=
| One (a : atom)
| Star (a : atom).

Definition atom_of (c : Z) : atom := if c =? 46 then Any else Lit c.
Definition fits (a : atom) (x : Z) : Prop := match a with Any => True | Lit c => x = c end.

(** The items of a pattern, and whether it is anchored at the end: a dollar
    sign that is the last character and not starred. *)
Fixpoint items (re : list Z) : list item * bool :=
  match re with
  | [] => ([], false)
  | c :: re1 =>
      match re1 with
      | 42 :: re2 => let '(l, e) := items re2 in (Star (atom_of c) :: l, e)
      | [] => if c =? 36 then ([], true) else ([One (atom_of c)], false)
      | _ => let '(l, e) := items re1 in (One (atom_of c) :: l, e)
      end
  end.

(** The strings a list of items stands for. *)
Inductive lang : list item -> list Z -> Prop :=
| lang_nil : lang [] []
| lang_one a l x s : fits a x -> lang l s -> lang (One a :: l) (x :: s)
| lang_star a l s1 s2 : Forall (fits a) s1 -> lang l s2 -> lang (Star a :: l) (s1 ++ s2).

(** [re] is found at the start of [text]. *)
Definition found_here (re text : list Z) : Prop :=
  exists s rest, text = s ++ rest /\ lang (items re).1 s /\ ((items re).2 = true -> rest = []).

(** [re] is found in [text]. *)
Definition found (re text : list Z) : Prop :=
  match re with
  | 94 :: re => found_here re text
  | _ => exists pre text', text = pre ++ text' /\ found_here re text'
  end.

Lemma fits_atom c x : fits (atom_of c) x <-> (c =? 46) || (c =? x) = true.
Proof.
  unfold atom_of. destruct (Z.eqb_spec c 46); simpl; [tauto|]. rewrite Z.eqb_eq. split; congruence.
Qed.

(** The cases of [matchhere] and [items], by the first two characters. *)
Lemma re_ind (P : list Z -> Prop) :
  P [] ->
  (forall c re, P re -> P (c :: 42 :: re)) ->
  P [36] ->
  (forall c re, (forall re', re <> 42 :: re') -> (c = 36 -> re <> []) -> P re -> P (c :: re)) ->
  forall re, P re.
Proof.
  intros H0 Hstar Hend Hone re. remember (length re) as n eqn:Hn. revert re Hn.
  induction n as [n IH] using lt_wf_ind. intros re ->.
  destruct re as [|c [|d re]]; [done| |].
  - destruct (decide (c = 36)) as [->|Hc]; [done|]. by apply Hone.
  - destruct (decide (d = 42)) as [->|Hd].
    + apply Hstar, (IH (length re)); simpl; [lia | done].
    + apply Hone; [congruence | done |]. apply (IH (length (d :: re))); simpl; [lia | done].
Qed.

Lemma not_star {A} (re : list Z) (f : list Z -> A) (g : A) :
  (forall re', re <> 42 :: re') -> match re with 42 :: re2 => f re2 | _ => g end = g.
Proof.
  intros Hne. destruct re as [|d re]; [done|]. destruct d as [|q|q]; try done.
  repeat (destruct q as [q|q|]; try done). by destruct (Hne re).
Qed.

Lemma matchhere_one c re text :
  (forall re', re <> 42 :: re') -> (c = 36 -> re <> []) ->
  matchhere (c :: re) text = match text with t :: text => ((c =? 46) || (c =? t)) && matchhere re text | [] => false end.
Proof.
  intros Hs He. simpl. rewrite (not_star re (fun re2 => matchstar (matchhere re2) c text)) by done.
  destruct ((c =? 36) && match re with [] => true | _ => false end) eqn:E; [|done].
  apply andb_true_iff in E as [->%Z.eqb_eq E]. destruct re; [|done]. by destruct (He eq_refl).
Qed.

Lemma items_one c re :
  (forall re', re <> 42 :: re') -> (c = 36 -> re <> []) ->
  items (c :: re) = (One (atom_of c) :: (items re).1, (items re).2).
Proof.
  intros Hs He. simpl. destruct re as [|d re].
  - destruct (Z.eqb_spec c 36) as [->|]; [by destruct (He eq_refl) | done].
  - destruct (items (d :: re)) as [l e] eqn:E. destruct d as [|q|q]; try done.
    repeat (destruct q as [q|q|]; try done). by destruct (Hs re).
Qed.

Lemma matchstar_spec (here : list Z -> bool) (P : list Z -> Prop) c text :
  (forall text, here text = true <-> P text) ->
  matchstar here c text = true <->
  exists s1 s2, text = s1 ++ s2 /\ Forall (fits (atom_of c)) s1 /\ P s2.
Proof.
  intros Hh. induction text as [|t text IH]; simpl; rewrite orb_true_iff, Hh.
  - split.
    + intros [HP|]; [|done]. by exists [], [].
    + intros (s1 & s2 & E & _ & HP). symmetry in E. apply app_nil in E as [-> ->]. by left.
  - rewrite andb_true_iff, IH. split.
    + intros [HP|[Ht (s1 & s2 & -> & Hs1 & HP)]]; [by exists [], (t :: text)|].
      exists (t :: s1), s2. split_and!; try done. constructor; [|done]. apply fits_atom.
      by rewrite orb_comm, Z.eqb_sym.
    + intros ([|x s1] & s2 & E & Hs1 & HP); [left; by simpl in E; rewrite E|]. injection E as <- ->.
      apply list.Forall_cons in Hs1 as [Hx Hs1]. right. split; [|by exists s1, s2].
      apply fits_atom in Hx. by rewrite orb_comm, (Z.eqb_sym t).
Qed.

Lemma matchhere_spec re text : matchhere re text = true <-> found_here re text.
Proof.
  revert text. induction re as [|c re IH| |c re Hs He IH] using re_ind; intros text.
  - split; [|done]. intros _. exists [], text. split_and!; [done | constructor | done].
  - assert (items (c :: 42 :: re) = (Star (atom_of c) :: (items re).1, (items re).2)) as Hit by (simpl; by destruct (items re)).
    change (matchhere (c :: 42 :: re) text) with (matchstar (matchhere re) c text).
    rewrite (matchstar_spec _ (found_here re)) by done. unfold found_here. rewrite Hit. simpl. split.
    + intros (s1 & ? & -> & Hs1 & s & rest & -> & Hl & He). exists (s1 ++ s), rest. split_and!; [by rewrite app_assoc | by constructor | done].
    + intros (s & rest & -> & Hl & He). inversion Hl as [| |a l s1 s2 Hs1 Hl2]; subst. exists s1, (s2 ++ rest).
      split_and!; [by rewrite app_assoc | done | by exists s2, rest].
  - split.
    + destruct text; [|done]. intros _. exists [], []. split_and!; [done | constructor | done].
    + intros (s & rest & -> & Hl & He). simpl in *. inversion Hl; subst. by rewrite He.
  - rewrite (matchhere_one c re text Hs He). unfold found_here. rewrite (items_one c re Hs He). simpl. destruct text as [|t text].
    + split; [done|]. intros (s & rest & E & Hl & _). symmetry in E. apply app_nil in E as [-> ->]. by inversion Hl.
    + rewrite andb_true_iff, <- fits_atom, IH. split.
      * intros [Hf (s & rest & -> & Hl & Hr)]. exists (t :: s), rest. split_and!; [done | by constructor | done].
      * intros (s & rest & E & Hl & Hr). inversion Hl as [|a l x s' Hf Hl'|]; subst. injection E as -> ->.
        split; [done | by exists s', rest].
Qed.

Lemma match_all_spec re text :
  match_all re text = true <-> exists pre text', text = pre ++ text' /\ found_here re text'.
Proof.
  induction text as [|t text IH]; simpl; rewrite orb_true_iff, matchhere_spec.
  - split; [intros [Hf|]; [by exists [], [] | done]|]. intros (pre & text' & E & Hf). symmetry in E. apply app_nil in E as [-> ->]. by left.
  - rewrite IH. split.
    + intros [Hf|(pre & text' & -> & Hf)]; [by exists [], (t :: text) | by exists (t :: pre), text'].
    + intros ([|x pre] & text' & E & Hf); [left; simpl in E; by rewrite E|]. injection E as -> ->. right. by exists pre, text'.
Qed.

(** ** The lines *)

Definition nonl (l : list Z) : Prop := 10 ∉ l /\ 0 ∉ l.

(** The text of lines, each with its newline. *)
Definition unlines (ls : list (list Z)) : list Z := concat ((fun l => l ++ [10]) <$> ls).

Lemma unlines_cons l ls : unlines (l :: ls) = l ++ 10 :: unlines ls.
Proof. unfold unlines. simpl. by rewrite <- app_assoc. Qed.

Lemma unlines_app ls ls' : unlines (ls ++ ls') = unlines ls ++ unlines ls'.
Proof. unfold unlines. by rewrite fmap_app, concat_app. Qed.

Lemma unlines_nul ls : Forall nonl ls -> 0 ∉ unlines ls.
Proof.
  intros HF. induction HF as [|l ls [_ Hl] HF IH]; [apply not_elem_of_nil|].
  rewrite unlines_cons, elem_of_app, elem_of_cons. by intros [?|[?|?]].
Qed.

Lemma lstrchr_first c l r : c ∉ l -> lstrchr (l ++ c :: r) c = Some (length l).
Proof.
  intros Hc. apply find_index_Some. split.
  - exists c. split; [by rewrite lookup_app_r, Nat.sub_diag | apply Z.eqb_refl].
  - intros j y Hj Hy. rewrite lookup_app_l in Hy by done. apply Z.eqb_neq. intros ->. apply Hc. by eapply list_elem_of_lookup_2.
Qed.

Lemma lstrchr_none c l : c ∉ l -> lstrchr l c = None.
Proof.
  intros Hc. apply find_index_None, list.Forall_forall. intros x Hx. apply Z.eqb_neq. by intros ->.
Qed.

Lemma until_nul_id l : 0 ∉ l -> until_nul l = l.
Proof. intros Hl. unfold until_nul. by rewrite lstrchr_none. Qed.

(** The writes of a list of lines. *)
Fixpoint put_lines (pattern : list Z) (ls : list (list Z)) (rest : prog (list Z)) : prog (list Z) :=
  match ls with
  | [] => rest
  | l :: ls => if match_ pattern l then Call (SWrite 1 (l ++ [10])) (fun _ => put_lines pattern ls rest)
               else put_lines pattern ls rest
  end.

Lemma grep_lines_eq fuel pattern ls tail :
  Forall nonl ls -> nonl tail -> (length ls < fuel)%nat ->
  grep_lines fuel pattern (unlines ls ++ tail) = put_lines pattern ls (Done tail).
Proof.
  revert fuel. induction ls as [|l ls IH]; intros fuel HF [Ht Ht0] Hf; (destruct fuel as [|fuel]; [simpl in Hf; lia|]).
  - simpl. by rewrite until_nul_id, lstrchr_none.
  - simpl in Hf. pose proof HF as [[Hl Hl0] HF']%list.Forall_cons. cbn [grep_lines].
    rewrite until_nul_id.
    2:{ rewrite elem_of_app. intros [Hin|Hin]; [|done]. by apply (unlines_nul (l :: ls) HF). }
    rewrite unlines_cons, <- app_assoc. simpl app. rewrite lstrchr_first by done.
    rewrite take_app_length. assert (take (S (length l)) (l ++ 10 :: unlines ls ++ tail) = l ++ [10]) as ->.
    { rewrite take_app_ge by lia. by replace (S (length l) - length l)%nat with 1%nat by lia. }
    assert (drop (S (length l)) (l ++ 10 :: unlines ls ++ tail) = unlines ls ++ tail) as ->.
    { rewrite drop_app_ge by lia. by replace (S (length l) - length l)%nat with 1%nat by lia. }
    rewrite IH by (done || lia). cbn [put_lines]. by destruct (match_ pattern l).
Qed.

(** The complete lines of a text, and what is left over. *)
Fixpoint lines_of (l : list Z) : list (list Z) * list Z :=
  match l with
  | [] => ([], [])
  | c :: l => let '(ls, t) := lines_of l in
              if c =? 10 then ([] :: ls, t)
              else match ls with
                   | [] => ([], c :: t)
                   | x :: ls => ((c :: x) :: ls, t)
                   end
  end.

Lemma lines_of_eq l : let '(ls, t) := lines_of l in
  l = unlines ls ++ t /\ Forall (fun x => 10 ∉ x) ls /\ 10 ∉ t /\ (ls = [] <-> 10 ∉ l).
Proof.
  induction l as [|c l IH]; simpl.
  { split; [done|]. split; [constructor|]. split; [apply not_elem_of_nil|]. split; [intros _; apply not_elem_of_nil | done]. }
  destruct (lines_of l) as [ls t]. destruct IH as (-> & HF & Ht & Hnil). destruct (Z.eqb_spec c 10) as [->|Hc].
  - rewrite unlines_cons. split; [done|]. split; [constructor; [apply not_elem_of_nil | done]|]. split; [done|].
    split; [done|]. intros Hn. destruct Hn. left.
  - destruct ls as [|x ls].
    + split; [done|]. split; [constructor|]. split; [rewrite not_elem_of_cons; naive_solver|].
      rewrite not_elem_of_cons. naive_solver.
    + apply list.Forall_cons in HF as [Hx HF]. rewrite !unlines_cons. split; [done|].
      split; [constructor; [rewrite not_elem_of_cons; naive_solver | done]|]. split; [done|].
      rewrite unlines_cons in Hnil. rewrite not_elem_of_cons. naive_solver.
Qed.

Lemma lines_of_unique ls t :
  Forall (fun x => 10 ∉ x) ls -> 10 ∉ t -> lines_of (unlines ls ++ t) = (ls, t).
Proof.
  intros HF Ht. assert (lines_of t = ([], t)) as Htl.
  { clear HF. induction t as [|c t IH]; [done|]. apply not_elem_of_cons in Ht as [Hc Ht]. simpl.
    rewrite (IH Ht). by rewrite (proj2 (Z.eqb_neq _ _)). }
  induction HF as [|x ls Hx HF IH]; [done|]. rewrite unlines_cons, <- app_assoc. simpl.
  induction x as [|c x IHx]; simpl.
  - by rewrite IH.
  - apply not_elem_of_cons in Hx as [Hc Hx]. rewrite (IHx Hx). by rewrite (proj2 (Z.eqb_neq _ _)).
Qed.

(** A chunk after what was held. *)
Lemma lines_of_app a b :
  lines_of (a ++ b) = ((lines_of a).1 ++ (lines_of ((lines_of a).2 ++ b)).1, (lines_of ((lines_of a).2 ++ b)).2).
Proof.
  pose proof (lines_of_eq a) as Ha. destruct (lines_of a) as [ls t]. destruct Ha as (-> & HF & Ht & _). simpl.
  pose proof (lines_of_eq (t ++ b)) as Hb. destruct (lines_of (t ++ b)) as [ls' t'] eqn:E.
  destruct Hb as (Hb & HF' & Ht' & _). simpl. rewrite <- app_assoc, Hb, app_assoc, <- unlines_app.
  apply lines_of_unique; [by apply Forall_app | done].
Qed.

Definition put (pattern : list Z) (ls : list (list Z)) : list Z := unlines (filter (fun l => match_ pattern l = true) ls).

Lemma run_put_lines pattern ls rest w :
  run pipe_os (put_lines pattern ls rest) w = run pipe_os rest (World (chunks w) (output w ++ put pattern ls)).
Proof.
  revert w. induction ls as [|l ls IH]; intros w; simpl.
  - unfold put. simpl. rewrite app_nil_r. by destruct w.
  - unfold put. rewrite filter_cons. destruct (match_ pattern l) eqn:E; simpl.
    + rewrite IH. simpl. rewrite unlines_cons, <- !app_assoc. done.
    + apply IH.
Qed.

(** One round of the loop. *)
Lemma grep_step_eq pattern fd held c cs out :
  0 ∉ held ++ c -> c <> [] -> Z.of_nat (length (held ++ c)) <= 1023 ->
  run pipe_os (grep_step pattern fd held) (World (c :: cs) out) =
    let '(ls, t) := lines_of (held ++ c) in
    Returned (inl (if decide (10 ∈ held ++ c) then t else [])) (World cs (out ++ put pattern ls)).
Proof.
  intros H0 Hne Hlen. rewrite length_app in Hlen. unfold grep_step. rewrite run_call. cbn [pipe_os].
  rewrite feed_whole by lia. cbn [fst snd]. rewrite (proj2 (Z.leb_gt _ _)) by (destruct c; [done | simpl; lia]).
  rewrite Z.eqb_refl. rewrite (proj2 (Z.ltb_ge _ _)) by lia. cbn [negb orb]. rewrite run_bind.
  pose proof (lines_of_eq (held ++ c)) as Hl. destruct (lines_of (held ++ c)) as [ls t]. destruct Hl as (E & HF & Ht & Hnil).
  rewrite E in H0. rewrite elem_of_app in H0. rewrite E at 2. rewrite grep_lines_eq.
  - rewrite run_put_lines. cbn [run chunks output]. do 2 f_equal.
    destruct (decide (10 ∈ held ++ c)) as [Hin|Hin].
    + rewrite (proj2 (Nat.eqb_neq _ _)); [done|]. rewrite E, length_app. destruct ls as [|l ls]; [by apply Hnil in Hin|].
      rewrite unlines_cons, length_app. simpl. lia.
    + rewrite E. apply Hnil in Hin as ->. simpl. by rewrite Nat.eqb_refl.
  - apply list.Forall_forall. intros l Hl. split; [rewrite list.Forall_forall in HF; by apply HF|].
    intros Hl0. apply H0. left. apply list_elem_of_split in Hl as (l1 & l2 & ->).
    rewrite unlines_app, unlines_cons, !elem_of_app. tauto.
  - split; [done|]. tauto.
  - assert (length ls <= length (unlines ls))%nat.
    { clear. induction ls as [|l ls IH]; simpl; [lia|]. rewrite unlines_cons, length_app. simpl. lia. }
    rewrite E, length_app. lia.
Qed.

(** The chunks [grep] can digest: no NULs, a newline in each, and room in the
    buffer for the rest of the last line. *)
Fixpoint digestible (held : list Z) (cs : list (list Z)) : Prop :=
  match cs with
  | [] => True
  | c :: cs => 0 ∉ c /\ 10 ∈ c /\ Z.of_nat (length (held ++ c)) <= 1023 /\ digestible (lines_of (held ++ c)).2 cs
  end.

Lemma grep_loop_eq pattern fd cs held fuel out :
  0 ∉ held -> 10 ∉ held -> digestible held cs -> (length cs < fuel)%nat ->
  run pipe_os (ploop fuel (grep_step pattern fd) held) (World cs out) =
    Returned tt (World [] (out ++ put pattern (lines_of (held ++ concat cs)).1)).
Proof.
  revert held fuel out. induction cs as [|c cs IH]; intros held fuel out H0 H10 Hd Hf; (destruct fuel as [|fuel]; [simpl in Hf; lia|]); cbn [ploop]; rewrite run_bind.
  - unfold grep_step. rewrite run_call. cbn -[Z.sub]. rewrite app_nil_r.
    pose proof (lines_of_unique [] held (List.Forall_nil _) H10) as E. simpl in E. rewrite E. cbn. by rewrite app_nil_r.
  - simpl in Hf, Hd. destruct Hd as (Hc0 & Hc10 & Hl & Hd). rewrite grep_step_eq.
    + pose proof (lines_of_app (held ++ c) (concat cs)) as Happ. rewrite <- app_assoc in Happ. simpl concat. rewrite Happ.
      pose proof (lines_of_eq (held ++ c)) as Hlo. destruct (lines_of (held ++ c)) as [ls t]. destruct Hlo as (E & HF & Ht & _).
      rewrite decide_True by (apply elem_of_app; by right). cbn [fst snd] in *. rewrite IH; try done; [|clear -E H0 Hc0|lia].
      * unfold put. by rewrite list.filter_app, unlines_app, app_assoc.
      * intros Hin. assert (0 ∈ held ++ c) as Hin'; [rewrite E; apply elem_of_app; by right|].
        apply elem_of_app in Hin'. tauto.
    + rewrite elem_of_app. tauto.
    + intros ->. by apply not_elem_of_nil in Hc10.
    + done.
Qed.

(** ** Properties *)

(** C31: the matcher decides the declarative meaning of patterns: [match_]
    finds a pattern in a text exactly if some part of the text (the start of
    it for a pattern that begins with [^]; up to its end for one that ends in
    [$]) is a string of the items of the pattern, a dot standing for any
    character and a star for any number of its item. *)
Theorem match_decides re text : match_ re text = true <-> found re text.
Proof.
  assert (match_all re text = true <-> exists pre text', text = pre ++ text' /\ found_here re text') as Hall by apply match_all_spec.
  unfold match_, found. destruct re as [|[|q|q] re]; try exact Hall.
  repeat (destruct q as [q|q|]; try exact Hall). apply matchhere_spec.
Qed.

(** [grep] prints exactly the complete lines of its input that match, in
    order, however the input is cut into chunks that each contain a newline
    and fit the buffer. *)
Theorem grep_prints_matches pattern fd cs out fuel :
  digestible [] cs -> (length cs < fuel)%nat ->
  run pipe_os (grep fuel pattern fd) (World cs out) =
    Returned tt (World [] (out ++ unlines (filter (fun l => match_ pattern l = true) (lines_of (concat cs)).1))).
Proof. intros Hd Hf. apply grep_loop_eq; [apply not_elem_of_nil.. | done | done]. Qed.

Lemma grep_prints_matches_witness :
  run pipe_os (grep 3 (chars "^a.*c$") 0) (World [chars "abc" ++ 10 :: chars "xb"; chars "c" ++ 10 :: chars "ac" ++ [10]] []) =
    Returned tt (World [] (chars "abc" ++ 10 :: chars "ac" ++ [10])).
Proof.
  rewrite grep_prints_matches; [by vm_compute | | simpl; lia].
  assert (forall c l, has_char l c = true -> c ∈ l) as Hin by (intros c l; apply has_char_spec).
  assert (forall c l, has_char l c = false -> c ∉ l) as Hnin by (intros c l Hf Hi%has_char_spec; congruence).
  do 2 (split; [by apply Hnin|]; split; [by apply Hin|]; split; [by vm_compute|]). exact I.
Defined.

(** A chunk without a newline is forgotten together with the part of the
    line before it: a line that arrives in two reads, as from a pipe, is not
    found. *)
Theorem grep_forgets_partial_line pattern fd held c cs out :
  0 ∉ held ++ c -> c <> [] -> 10 ∉ held ++ c -> Z.of_nat (length (held ++ c)) <= 1023 ->
  run pipe_os (grep_step pattern fd held) (World (c :: cs) out) = Returned (inl []) (World cs out).
Proof.
  intros H0 Hne H10 Hl. rewrite grep_step_eq by done.
  pose proof (lines_of_eq (held ++ c)) as Hlo. destruct (lines_of (held ++ c)) as [ls t]. destruct Hlo as (_ & _ & _ & Hnil).
  rewrite decide_False by done. rewrite (proj2 Hnil H10). unfold put. simpl. by rewrite app_nil_r.
Qed.

Lemma grep_forgets_partial_line_witness :
  run pipe_os (grep_step (chars "abc") 0 []) (World [chars "ab"; chars "c" ++ [10]] []) = Returned (inl []) (World [chars "c" ++ [10]] []) /\
  run pipe_os (grep 5 (chars "abc") 0) (World [chars "ab"; chars "c" ++ [10]] []) = Returned tt (World [] []) /\
  match_ (chars "abc") (chars "abc") = true.
Proof.
  split; [|by split].
  assert (forall c l, has_char l c = false -> c ∉ l) as Hnin by (intros c l Hf Hi%has_char_spec; congruence).
  apply grep_forgets_partial_line; [by apply Hnin | done | by apply Hnin | simpl; lia].
Defined.
