(* ===== verification/Utils.v ===== *)
(** The small user programs: cat.c, wc.c, echo.c, kill.c, ln.c, mkdir.c, rm.c,
    ls.c, init.c, zombie.c, forktest.c, stressfs.c, testCS.c, testSysCall.c,
    sanity.c and test.c, each its [main] over the arguments. *)

From S2P Require Import Prelude Memory User.

(** ** cat.c *)
Module Cat.

Definition cat (fuel : nat) (fd : Z) : prog unit :=
  ploop fuel (fun _ : unit =>
    let* ' (n, bs) := call (SRead fd 512) in
    if 0 <? n then
      let* r := call (SWrite 1 (take (Z.to_nat n) bs)) in
      if negb (r =? n) then printl 1 "cat: write error" [] ;; Exit else
      Done (inl tt)
    else if n <? 0 then printl 1 "cat: read error" [] ;; Exit
    else Done (inr tt)) tt.

Definition main (fuel : nat) (argv : list (list Z)) : prog unit :=
  match argv with
  | _ :: _ :: _ =>
      pfor (tail argv) (fun f =>
        let* fd := call (SOpen f 0) in
        if fd <? 0 then printl 1 "cat: cannot open %s" [PStr (Some f)] ;; Exit else
        cat fuel fd ;;
        call (SClose fd) ;;
        Done tt) ;;
      Exit
  | _ => cat fuel 0 ;; Exit
  end.
End Cat.

(** ** wc.c *)
Module Wc.

(** Lines, words, characters, and whether a word is under way. *)
Record counts := Counts { cl : Z; cw : Z; cc : Z; inword : bool }.

(** Space, return, tab, newline and vertical tab. *)
Definition seps : list Z := [32; 13; 9; 10; 11].

Definition count1 (k : counts) (b : Z) : counts :=
  let c := s32 (cc k + 1) in
  let l := if b =? 10 then s32 (cl k + 1) else cl k in
  if has_char seps b then Counts l (cw k) c false
  else if negb (inword k) then Counts l (s32 (cw k + 1)) c true
  else Counts l (cw k) c true.

Definition wc (fuel : nat) (fd : Z) (name : list Z) : prog unit :=
  let* k := ploop fuel (fun k =>
    let* ' (n, bs) := call (SRead fd 512) in
    if 0 <? n then Done (inl (foldl count1 k (take (Z.to_nat n) bs)))
    else if n <? 0 then printl 1 "wc: read error" [] ;; Exit
    else Done (inr k)) (Counts 0 0 0 false) in
  printl 1 "%d %d %d %s" [PInt (cl k); PInt (cw k); PInt (cc k); PStr (Some name)].

Definition main (fuel : nat) (argv : list (list Z)) : prog unit :=
  match argv with
  | _ :: _ :: _ =>
      pfor (tail argv) (fun f =>
        let* fd := call (SOpen f 0) in
        if fd <? 0 then printl 1 "wc: cannot open %s" [PStr (Some f)] ;; Exit else
        wc fuel fd f ;;
        call (SClose fd) ;;
        Done tt) ;;
      Exit
  | _ => wc fuel 0 [] ;; Exit
  end.
End Wc.

(** ** echo.c *)
Module Echo.

Fixpoint echo_args (args : list (list Z)) : prog unit :=
  match args with
  | [] => Done tt
  | a :: rest =>
      printf 1 "%s%s" [PStr (Some a); PStr (Some (match rest with [] => [10] | _ => [32] end))] ;;
      echo_args rest
  end.
Definition main (argv : list (list Z)) : prog unit := echo_args (tail argv) ;; Exit.
End Echo.

(** ** kill.c *)
Module Kill.

Definition main (argv : list (list Z)) : prog unit :=
  if (length argv <? 2)%nat then printl 2 "usage: kill pid..." [] ;; Exit else
  pfor (tail argv) (fun a => call (SKill (latoi a)) ;; Done tt) ;;
  Exit.
End Kill.

(** ** ln.c *)
Module Ln.

Definition main (argv : list (list Z)) : prog unit :=
  match argv with
  | [_; old; new] =>
      let* r := call (SLink old new) in
      pwhen (r <? 0) (printl 2 "link %s %s: failed" [PStr (Some old); PStr (Some new)]) ;;
      Exit
  | _ => printl 2 "Usage: ln old new" [] ;; Exit
  end.
End Ln.

(** ** mkdir.c and rm.c: the loop ends at the first failure *)
Fixpoint each_file (op : list Z -> sys Z) (fmt : string) (files : list (list Z)) : prog unit :=
  match files with
  | [] => Done tt
  | f :: files =>
      let* r := call (op f) in
      if r <? 0 then printl 2 fmt [PStr (Some f)] else each_file op fmt files
  end.

Module Mkdir.
Definition main (argv : list (list Z)) : prog unit :=
  if (length argv <? 2)%nat then printl 2 "Usage: mkdir files..." [] ;; Exit else
  each_file SMkdir "mkdir: %s failed to create" (tail argv) ;;
  Exit.
End Mkdir.

Module Rm.
Definition main (argv : list (list Z)) : prog unit :=
  if (length argv <? 2)%nat then printl 2 "Usage: rm files..." [] ;; Exit else
  each_file SUnlink "rm: %s failed to delete" (tail argv) ;;
  Exit.
End Rm.

(** ** ls.c *)
Module Ls.

Definition DIRSIZ : nat := 14.

(** What follows the last slash. *)
Definition after_slash (path : list Z) : list Z :=
  match lstrchr (rev path) 47 with
  | Some i => drop (length path - i) path
  | None => path
  end.

(** The name, blank-padded in the static buffer unless it is too long. *)
Definition fmtname (path : list Z) : list Z :=
  let p := after_slash path in
  if (DIRSIZ <=? length p)%nat then p else p ++ repeat 32 (DIRSIZ - length p).

(** struct dirent in sixteen bytes *)
Definition de_inum (de : list Z) : Z := nth 0 de 0 + 2 ^ 8 * nth 1 de 0.
Definition de_name (de : list Z) : list Z :=
  let n := take DIRSIZ (drop 2 de) in
  match lstrchr n 0 with Some i => take i n | None => n end.

Definition show (path : list Z) (st : stat_t) : prog unit :=
  printl 1 "%s %d %d %d" [PStr (Some (fmtname path)); PInt (st_type st); PInt (st_ino st); PInt (st_size st)].

(** [while(read(fd, &de, sizeof(de)) == sizeof(de)){ ... }] *)
Definition ls_entries (fuel : nat) (fd : Z) (path : list Z) : prog unit :=
  ploop fuel (fun _ : unit =>
    let* ' (n, de) := call (SRead fd 16) in
    if negb (n =? 16) then Done (inr tt) else
    if de_inum de =? 0 then Done (inl tt) else
    let buf := path ++ [47] ++ de_name de in
    let* ' (r, st) := stat buf in
    if r <? 0 then printl 1 "ls: cannot stat %s" [PStr (Some buf)] ;; Done (inl tt) else
    show buf st ;;
    Done (inl tt)) tt.

Definition ls (fuel : nat) (path : list Z) : prog unit :=
  let* fd := call (SOpen path 0) in
  if fd <? 0 then printl 2 "ls: cannot open %s" [PStr (Some path)] else
  let* ' (r, st) := call (SFstat fd) in
  if r <? 0 then
    printl 2 "ls: cannot stat %s" [PStr (Some path)] ;;
    call (SClose fd) ;;
    Done tt
  else
    (if st_type st =? T_FILE then show path st
     else if st_type st =? T_DIR then
       if 512 <? Z.of_nat (length path) + 1 + Z.of_nat DIRSIZ + 1
       then printl 1 "ls: path too long" []
       else ls_entries fuel fd path
     else Done tt) ;;
    call (SClose fd) ;;
    Done tt.

Definition main (fuel : nat) (argv : list (list Z)) : prog unit :=
  match argv with
  | _ :: _ :: _ => pfor (tail argv) (ls fuel) ;; Exit
  | _ => ls fuel (chars ".") ;; Exit
  end.
End Ls.

(** ** init.c *)
Module Init.

(** [while((wpid=wait()) >= 0 && wpid != pid) printf(...);] *)
Definition reap (fuel : nat) (pid : Z) : prog unit :=
  ploop fuel (fun _ : unit =>
    let* wpid := call SWait in
    if (0 <=? wpid) && negb (wpid =? pid) then printl 1 "zombie!" [] ;; Done (inl tt)
    else Done (inr tt)) tt.

Definition spawn (fuel : nat) : prog unit :=
  printl 1 "init: starting sh" [] ;;
  let* pid := call SFork in
  if pid <? 0 then printl 1 "init: fork failed" [] ;; Exit else
  if pid =? 0 then
    call (SExec (chars "sh") [chars "sh"]) ;;
    printl 1 "init: exec sh failed" [] ;;
    Exit
  else reap fuel pid.

(** The first [n] rounds of the endless loop. *)
Definition main (fuel n : nat) : prog unit :=
  let* fd := call (SOpen (chars "console") O_RDWR) in
  pwhen (fd <? 0) (
    call (SMknod (chars "console") 1 1) ;;
    call (SOpen (chars "console") O_RDWR) ;;
    Done tt) ;;
  call (SDup 0) ;;
  call (SDup 0) ;;
  ploop n (fun _ : unit => spawn fuel ;; Done (inl tt)) tt.
End Init.

(** ** zombie.c *)
Module Zombie.
Definition main : prog unit :=
  let* pid := call SFork in
  pwhen (0 <? pid) (call (SSleep 5) ;; Done tt) ;;
  Exit.
End Zombie.

(** ** forktest.c: its own [printf] writes the format *)
Module Forktest.

Definition N : nat := 1000.
Definition print (fd : Z) (s : string) : prog unit := call (SWrite fd (line s)) ;; Done tt.

(** The number of children; a child exits at once. *)
Fixpoint forks (left_ n : nat) : prog nat :=
  match left_ with
  | O => Done n
  | S left_ =>
      let* pid := call SFork in
      if pid <? 0 then Done n else
      if pid =? 0 then Exit else forks left_ (S n)
  end.

Fixpoint waits (n : nat) : prog unit :=
  match n with
  | O => Done tt
  | S n =>
      let* r := call SWait in
      if r <? 0 then print 1 "wait stopped early" ;; Exit else waits n
  end.

Definition forktest : prog unit :=
  print 1 "fork test" ;;
  let* n := forks N 0 in
  if (n =? N)%nat then print 1 "fork claimed to work N times!" ;; Exit else
  waits n ;;
  let* r := call SWait in
  if negb (r =? -1) then print 1 "wait got too many" ;; Exit else
  print 1 "fork test OK".

Definition main : prog unit := forktest ;; Exit.
End Forktest.

(** ** stressfs.c *)
Module Stressfs.

(** [for(i = 0; i < 4; i++) if(fork() > 0) break;] *)
Fixpoint spread (left_ i : nat) : prog nat :=
  match left_ with
  | O => Done i
  | S left_ =>
      let* pid := call SFork in
      if 0 <? pid then Done i else spread left_ (S i)
  end.

Definition main : prog unit :=
  printl 1 "stressfs starting" [] ;;
  let data := repeat 97 512 in
  let* i := spread 4 0 in
  printl 1 "write %d" [PInt (Z.of_nat i)] ;;
  let path := chars "stressfs" ++ [u8 (48 + Z.of_nat i)] in
  let* fd := call (SOpen path (Z.lor O_CREATE O_RDWR)) in
  pfor (seq 0 20) (fun _ => call (SWrite fd data) ;; Done tt) ;;
  call (SClose fd) ;;
  printl 1 "read" [] ;;
  let* fd := call (SOpen path O_RDONLY) in
  pfor (seq 0 20) (fun _ => call (SRead fd 512) ;; Done tt) ;;
  call (SClose fd) ;;
  call SWait ;;
  Exit.
End Stressfs.

(** ** testCS.c: context switches around two sleeps *)
Module TestCS.
Definition main : prog unit :=
  let* cs1 := call SCs in
  let* cs2 := call SCs in
  call (SSleep 4) ;;
  let* cs3 := call SCs in
  call (SSleep 6) ;;
  let* cs4 := call SCs in
  printl 1 "context switch counts = %d, %d, %d, %d" [PInt cs1; PInt cs2; PInt cs3; PInt cs4] ;;
  Exit.
End TestCS.

(** ** testSysCall.c: tracing turned on and off *)
Module TestSysCall.
Definition main : prog unit :=
  call SGetpid ;;
  call (STrace 1) ;;
  call SGetpid ;;
  call (STrace 0) ;;
  call SGetpid ;;
  call (STrace 1) ;;
  call SUptime ;;
  call SWait ;;
  call SGetpid ;;
  call (STrace 0) ;;
  call SGetpid ;;
  Exit.
End TestSysCall.

(** ** sanity.c: the times of three kinds of children *)
Module Sanity.

(** [record]: for each kind the sums of the ready, running and sleeping times. *)
Definition times : Type := (Z * Z * Z)%type.
Definition add_times (r t : times) : times :=
  let '(a, b, c) := r in let '(x, y, z) := t in (s32 (a + x), s32 (b + y), s32 (c + z)).

(** The kind of a process, [(pid - 4) % 3]. *)
Definition kind (pid : Z) : Z := Z.rem (s32 (pid - 4)) 3.

(** A child; the loops of the first two kinds only use the CPU. *)
Definition child : prog unit :=
  let* pid := call SGetpid in
  let j := kind pid in
  (if j =? 1 then pfor (seq 0 100) (fun _ => call SYield ;; Done tt)
   else if j =? 2 then pfor (seq 0 100) (fun _ => call (SSleep 1) ;; Done tt)
   else Done tt) ;;
  Exit.

Definition label (j : Z) : string :=
  if j =? 0 then "CPU-bound" else if j =? 1 then "SCPU bound" else "I/O bound".

Definition tally (r : list times) (pid : Z) (t : times) : list times :=
  if (0 <=? kind pid) then alter (fun x => add_times x t) (Z.to_nat (kind pid)) r else r.

(** One child collected: its line, and its times added to those of its kind. *)
Definition collect (r : list times) : prog (list times) :=
  let* ' (pid, (re, ru, st)) := call SWait2 in
  pwhen (0 <=? kind pid)
    (printf_loop 1 (chars (label (kind pid)) ++ line ", pid: %d, ready: %d, running: %d, sleeping: %d, turnaround: %d")
       false [PInt pid; PInt re; PInt ru; PInt st; PInt (s32 (re + ru + st))]) ;;
  Done (tally r pid (re, ru, st)).

Fixpoint collects (n : nat) (r : list times) : prog (list times) :=
  match n with
  | O => Done r
  | S n => let* r := collect r in collects n r
  end.

(** [record[i][j] /= n], a divide error for 0. *)
Definition averages (n : Z) (r : list times) : prog (list times) :=
  if n =? 0 then Fault
  else Done ((fun '(a, b, c) => (Z.quot a n, Z.quot b n, Z.quot c n)) <$> r).

Definition summary (before name : list Z) (t : times) : prog unit :=
  let '(re, ru, st) := t in
  printf_loop 1
    (before ++ name ++ chars " BOUND - Average sleeping time: %d - Average ready time: %d - Average turnaround time: %d" ++ [10; 10])
    false [PInt st; PInt re; PInt (s32 (re + ru + st))].

Definition main (argv : list (list Z)) : prog unit :=
  match argv with
  | [_; a] =>
      let n := s32 (latoi a * 3) in
      pfor (seq 0 (Z.to_nat n)) (fun _ =>
        let* pid := call SFork in
        if pid =? 0 then child else Done tt) ;;
      let* r := collects (Z.to_nat n) (repeat (0, 0, 0) 3) in
      let* r := averages n r in
      summary [10] (chars "CPU") (nth 0 r (0, 0, 0)) ;;
      summary [] (chars "SCPU") (nth 1 r (0, 0, 0)) ;;
      summary [] (chars "I/O") (nth 2 r (0, 0, 0)) ;;
      Exit
  | _ => printl 1 "Usage: sanity [n]" [] ;; Exit
  end.
End Sanity.

(** ** test.c: processes with different numbers of tickets *)
Module Test.

(** The four nested forks: the letter the process prints. *)
Fixpoint descend (c : Z) (tickets : list Z) : prog Z :=
  match tickets with
  | [] => Done c
  | t :: tickets =>
      let* pid := call SFork in
      if pid =? 0 then call (SSetTickets t) ;; descend (c + 1) tickets else Done c
  end.

(** One round of the inner loop, on [aux1] and [aux2]. *)
Definition churn (j : Z) (aux : Z * Z) : Z * Z :=
  let aux1 := s32 (aux.1 + 1) in
  let aux2 := s32 (aux.2 + 1) in
  if Z.rem j 10000 =? 0 then (Z.quot aux1 aux2, Z.rem aux2 25) else (aux1, aux2).

(** The inner loop for [j] from [j0] on, [n] rounds. *)
Fixpoint churns (n : nat) (j0 : Z) (aux : Z * Z) : Z * Z :=
  match n with
  | O => aux
  | S n => churns n (j0 + 1) (churn j0 aux)
  end.

Definition INNER : nat := Z.to_nat 10000000.

(** [aux1] and [aux2] after the last round of the outer loop, which starts both
    of them at 99; the rounds before leave nothing behind but their output. *)
Definition busy : Z * Z := churns INNER 0 (99, 99).

Definition main : prog unit :=
  let* c := descend 48 [1; 100; 1; 1] in
  pfor (seq 0 100) (fun _ => printf_loop 0 (chars "%c ") false [PInt c]) ;;
  if busy.1 <? busy.2 then Exit else
  let* ' (_, (re, ru, st)) := call SWait2 in
  printf_loop 0 ([10] ++ line "%d, %d, %d") false [PInt re; PInt ru; PInt st] ;;
  Exit.
End Test.

(** ** What cat and wc do *)

(** Each read gives a piece of the first chunk; pieces are not empty. *)
Lemma feed_piece n c cs out :
  0 < n -> c <> [] -> exists bs w, feed n (World (c :: cs) out) = ((Z.of_nat (length bs), bs), w) /\
    bs <> [] /\ output w = out /\ bs ++ concat (chunks w) = c ++ concat cs /\
    (Forall (fun c => c <> []) cs -> Forall (fun c => c <> []) (chunks w)).
Proof.
  intros Hn Hc. unfold feed. simpl. eexists (take (Z.to_nat n) c), _. split; [done|]. split_and!.
  - destruct c as [|x c]; [done|]. by destruct (Z.to_nat n) eqn:E; [lia|].
  - done.
  - simpl. rewrite <- (take_drop (Z.to_nat n) c) at 3. rewrite <- app_assoc. f_equal. by destruct (drop (Z.to_nat n) c).
  - simpl. intros Hcs. destruct (drop (Z.to_nat n) c) eqn:E; [done|]. by constructor.
Qed.

(** A loop that reads to the end and folds what it reads. *)
Lemma read_loop {S} (step : S -> list Z -> S) (put : list Z -> list Z)
    (body : S -> prog (S + S)) fuel s w :
  (forall s bs w w', feed 512 w = ((Z.of_nat (length bs), bs), w') -> bs <> [] ->
     run pipe_os (body s) w = Returned (inl (step s bs)) (World (chunks w') (output w' ++ put bs))) ->
  (forall s out, run pipe_os (body s) (World [] out) = Returned (inr s) (World [] out)) ->
  (forall s bs bs', step s (bs ++ bs') = step (step s bs) bs') ->
  (forall bs bs', put (bs ++ bs') = put bs ++ put bs') ->
  step s [] = s -> put [] = [] ->
  Forall (fun c => c <> []) (chunks w) -> (length (concat (chunks w)) < fuel)%nat ->
  run pipe_os (ploop fuel body s) w = Returned (step s (concat (chunks w))) (World [] (output w ++ put (concat (chunks w)))).
Proof.
  intros Hread Hend Hstep Hput Hs0 Hp0. revert s w Hs0. induction fuel as [|fuel IH]; intros s [cs out] Hs0 Hne Hf; [lia|].
  cbn [ploop]. rewrite run_bind. destruct cs as [|c cs].
  - rewrite Hend. simpl. by rewrite Hs0, Hp0, app_nil_r.
  - apply list.Forall_cons in Hne as [Hc Hne].
    destruct (feed_piece 512 c cs out ltac:(lia) Hc) as (bs & w' & Hfeed & Hbs & Hout & Hcat & Hw').
    rewrite (Hread s bs _ _ Hfeed Hbs). cbn [chunks output concat]. rewrite IH.
    + cbn [chunks output]. rewrite Hout, <- Hstep, <- app_assoc, <- Hput, Hcat. done.
    + by rewrite <- Hstep, app_nil_r.
    + by apply Hw'.
    + cbn [chunks concat] in *. apply (f_equal length) in Hcat. rewrite !length_app in Hcat. rewrite length_app in Hf.
      destruct bs; [done|]. simpl in Hcat. lia.
Qed.

Lemma take_all (bs : list Z) : take (Z.to_nat (Z.of_nat (length bs))) bs = bs.
Proof. rewrite Nat2Z.id. apply firstn_all. Qed.

Lemma length_pos {A} (l : list A) : l <> [] -> 0 < Z.of_nat (length l).
Proof. destruct l; [done | simpl; lia]. Qed.

(** [cat] copies its input to its output, whatever pieces it arrives in,
    and stops at its end. *)
Theorem cat_copies fd fuel cs out :
  Forall (fun c => c <> []) cs -> (length (concat cs) < fuel)%nat ->
  run pipe_os (Cat.cat fuel fd) (World cs out) = Returned tt (World [] (out ++ concat cs)).
Proof.
  intros Hne Hf. unfold Cat.cat. etransitivity; [apply (read_loop (fun _ _ => tt) (fun bs => bs)); try done|done]; [|by intros []].
  intros [] bs w w' Hfeed Hbs. rewrite run_call. cbn [pipe_os]. rewrite Hfeed. cbn [fst snd].
  rewrite (proj2 (Z.ltb_lt _ _) (length_pos _ Hbs)), take_all. rewrite run_call. cbn [pipe_os fst snd]. by rewrite Z.eqb_refl.
Qed.

Lemma cat_copies_witness :
  run pipe_os (Cat.cat 10 0) (World [chars "ab"; chars "c"] []) = Returned tt (World [] (chars "abc")).
Proof. apply (cat_copies 0 10 [chars "ab"; chars "c"] []); [by repeat constructor | simpl; lia]. Defined.

(** *** What wc counts *)

Definition sep (c : Z) : bool := has_char Wc.seps c.

(** The words of a text: its maximal runs of characters that are not separators;
    [cur] is the word under way. *)
Fixpoint words_from (cur l : list Z) : list (list Z) :=
  match l with
  | [] => match cur with [] => [] | _ => [cur] end
  | c :: l => if sep c then match cur with [] => words_from [] l | _ => cur :: words_from [] l end
              else words_from (cur ++ [c]) l
  end.
Definition words (l : list Z) : list (list Z) := words_from [] l.

Definition newlines (l : list Z) : nat := length (filter (fun c => c = 10) l).

(** The number of words that start in a text, [iw] saying that one is under
    way. *)
Fixpoint starts (iw : bool) (l : list Z) : nat :=
  match l with
  | [] => 0
  | c :: l => if sep c then starts false l else (if iw then 0 else 1) + starts true l
  end.

Lemma words_starts cur l : length (words_from cur l) = ((match cur with [] => 0 | _ => 1 end) + starts (match cur with [] => false | _ => true end) l)%nat.
Proof.
  revert cur. induction l as [|c l IH]; intros cur; simpl; [by destruct cur|].
  destruct (sep c); [destruct cur; simpl; by rewrite IH|]. rewrite IH. by destruct cur.
Qed.

Fixpoint last_in (iw : bool) (l : list Z) : bool :=
  match l with [] => iw | c :: l => last_in (negb (sep c)) l end.

Lemma count_fold l k :
  0 <= Wc.cl k -> 0 <= Wc.cw k -> 0 <= Wc.cc k ->
  Wc.cl k + Z.of_nat (length l) < 2 ^ 31 -> Wc.cw k + Z.of_nat (length l) < 2 ^ 31 -> Wc.cc k + Z.of_nat (length l) < 2 ^ 31 ->
  foldl Wc.count1 k l = Wc.Counts (Wc.cl k + Z.of_nat (newlines l)) (Wc.cw k + Z.of_nat (starts (Wc.inword k) l))
    (Wc.cc k + Z.of_nat (length l)) (last_in (Wc.inword k) l).
Proof.
  revert k. induction l as [|b l IH]; intros [cl cw cc iw] H1 H2 H3 H4 H5 H6; simpl in *.
  - by rewrite !Z.add_0_r.
  - unfold newlines in *. rewrite filter_cons. unfold Wc.count1. simpl. unfold sep in *.
    rewrite !s32_small by lia. destruct (has_char Wc.seps b) eqn:Hs.
    + destruct (Z.eqb_spec b 10) as [->|Hb]; [rewrite decide_True by done | rewrite decide_False by done];
        rewrite IH by (simpl; lia); simpl; f_equal; lia.
    + assert (b <> 10) as Hb by (by intros ->). rewrite (proj2 (Z.eqb_neq _ _) Hb), decide_False by done.
      destruct iw; simpl; rewrite IH by (simpl; lia); simpl; f_equal; lia.
Qed.

(** A number as [%d] prints it. *)
Definition decimal (x : Z) : list Z := rev (udigits 16 x 10).

Lemma run_bind_returned {A B} (m : prog A) (f : A -> prog B) w a w' :
  run pipe_os m w = Returned a w' -> run pipe_os (pbind m f) w = run pipe_os (f a) w'.
Proof. intros E. by rewrite run_bind, E. Qed.

Lemma udigits_u8 fuel x b : 0 < b -> u8 <$> udigits fuel x b = udigits fuel x b.
Proof.
  intros Hb. revert x. induction fuel as [|fuel IH]; intros x; simpl; [done|].
  assert (u8 (udigit (x mod b)) = udigit (x mod b)) as Hd.
  { unfold udigit. destruct (Z.to_nat (x mod b)) as [|n]; [done|]. do 16 (destruct n as [|n]; [done|]). done. }
  rewrite Hd. f_equal. destruct (x / b =? 0); [done | apply IH].
Qed.

Lemma run_printint fd x w :
  0 <= x < 2 ^ 31 -> run pipe_os (printint fd x 10 true) w = Returned tt (World (chunks w) (output w ++ decimal x)).
Proof.
  intros Hx. unfold printint. rewrite (proj2 (Z.ltb_ge x 0)) by lia. cbn [andb]. rewrite u32_small by lia.
  rewrite run_pfor_putc. unfold decimal. do 3 f_equal.
  rewrite <- (udigits_u8 16 x 10) at 2 by lia. apply map_rev.
Qed.

(** [wc] prints the number of newlines, of words (maximal runs of
    characters that are not separators) and of bytes of its input, whatever
    pieces it arrives in. *)
Theorem wc_counts fd fuel name cs out :
  Forall (fun c => c <> []) cs -> (length (concat cs) < fuel)%nat -> Z.of_nat (length (concat cs)) < 2 ^ 31 ->
  Forall (fun c => 0 <= c < 256) name ->
  run pipe_os (Wc.wc fuel fd name) (World cs out) =
    Returned tt (World [] (out ++ decimal (Z.of_nat (newlines (concat cs))) ++ [32] ++
      decimal (Z.of_nat (length (words (concat cs)))) ++ [32] ++
      decimal (Z.of_nat (length (concat cs))) ++ [32] ++ name ++ [10])).
Proof.
  intros Hne Hf Hlen Hname. unfold Wc.wc. erewrite run_bind_returned.
  2:{ apply (read_loop (fun k bs => foldl Wc.count1 k bs) (fun _ => [])); try done.
      - intros k bs w w' Hfeed Hbs. rewrite run_call. cbn [pipe_os]. rewrite Hfeed. cbn [fst snd].
        rewrite (proj2 (Z.ltb_lt _ _) (length_pos _ Hbs)), take_all. rewrite app_nil_r. by destruct w'.
      - intros. apply foldl_app. }
  cbn [chunks output]. rewrite app_nil_r, count_fold by (simpl; lia). simpl Wc.cl. simpl Wc.cw. simpl Wc.cc. rewrite !Z.add_0_l.
  assert (starts false (concat cs) = length (words (concat cs))) as -> by (unfold words; by rewrite words_starts).
  set (n := newlines (concat cs)). set (m := length (words (concat cs))).
  assert (Z.of_nat n < 2 ^ 31) as Hn.
  { unfold n, newlines. pose proof (length_filter (fun c => c = 10) (concat cs)). lia. }
  assert (Z.of_nat m < 2 ^ 31) as Hm.
  { enough (m <= length (concat cs))%nat by lia. unfold m, words. rewrite words_starts. simpl. clear.
    assert (forall l iw, starts iw l <= length l)%nat as H; [|apply H].
    induction l as [|c l IH]; intros iw; simpl; [done|]. pose proof (IH false). pose proof (IH true).
    destruct (sep c), iw; lia. }
  unfold printl, line. change (chars "%d %d %d %s" ++ [10]) with ([37; 100; 32; 37; 100; 32; 37; 100; 32; 37; 115; 10]).
  cbn -[printint pfor decimal]. rewrite !s32_small by lia.
  erewrite run_bind_returned by (apply run_printint; lia). cbn -[printint pfor decimal].
  erewrite run_bind_returned by (apply run_printint; lia). cbn -[printint pfor decimal].
  erewrite run_bind_returned by (apply run_printint; lia). cbn -[printint pfor decimal].
  erewrite run_bind_returned by (apply run_pfor_putc). cbn -[decimal].
  assert (u8 <$> name = name) as ->.
  { induction Hname as [|c l Hc Hl IH]; [done|]. rewrite fmap_cons, IH, u8_small by lia. done. }
  by rewrite <- !app_assoc.
Qed.

Lemma wc_counts_witness :
  run pipe_os (Wc.wc 20 0 (chars "f")) (World [chars "ab c"; 10 :: chars "d"] []) =
    Returned tt (World [] (chars "1 3 6 f" ++ [10])).
Proof.
  rewrite wc_counts; [by vm_compute | by repeat constructor | simpl; lia | simpl; lia | by repeat constructor].
Defined.

(** ** What the test programs of the schedulers do *)

(** The averages of sanity.c are taken over the [n] children of all kinds, a
    third of which are of each kind; an argument of 0 divides by zero. *)
Theorem sanity_zero : Sanity.main [chars "sanity"; chars "0"] = Fault.
Proof. reflexivity. Qed.

Lemma tally_kind r pid t :
  length r = 3%nat -> 0 <= Sanity.kind pid ->
  Sanity.tally r pid t = alter (fun x => Sanity.add_times x t) (Z.to_nat (Sanity.kind pid)) r.
Proof. intros Hr Hk. unfold Sanity.tally. by destruct (Z.leb_spec 0 (Sanity.kind pid)); [|lia]. Qed.

(** Three consecutive children, one of each kind, with the same times. *)
Lemma tally_three r pid re ru st a b c :
  4 <= pid < 2 ^ 30 -> Z.rem (pid - 4) 3 = 0 -> r = [(a, b, c); (a, b, c); (a, b, c)] ->
  Sanity.tally (Sanity.tally (Sanity.tally r pid (re, ru, st)) (pid + 1) (re, ru, st)) (pid + 2) (re, ru, st) =
  repeat (Sanity.add_times (a, b, c) (re, ru, st)) 3.
Proof.
  intros Hp Hk ->.
  assert (K0 : Sanity.kind pid = 0) by (unfold Sanity.kind; rewrite s32_small by lia; done).
  assert (K1 : Sanity.kind (pid + 1) = 1).
  { unfold Sanity.kind. rewrite s32_small by lia. rewrite Z.rem_mod_nonneg in Hk |- * by lia. Z.div_mod_to_equations. lia. }
  assert (K2 : Sanity.kind (pid + 2) = 2).
  { unfold Sanity.kind. rewrite s32_small by lia. rewrite Z.rem_mod_nonneg in Hk |- * by lia. Z.div_mod_to_equations. lia. }
  unfold Sanity.tally. rewrite K0, K1, K2. reflexivity.
Qed.

(** The sums after [m] triples of children. *)
Definition tallies (m : nat) (re ru st : Z) : list Sanity.times :=
  foldl (fun r i => let pid := 4 + 3 * Z.of_nat i in
    Sanity.tally (Sanity.tally (Sanity.tally r pid (re, ru, st)) (pid + 1) (re, ru, st)) (pid + 2) (re, ru, st))
    (repeat (0, 0, 0) 3) (seq 0 m).

(** When every child was ready, running and sleeping for the same times, the
    averages that sanity prints are a third of them. *)
Theorem sanity_average m re ru st :
  (0 < m)%nat -> 0 <= re -> 0 <= ru -> 0 <= st ->
  Z.of_nat m * (1 + re + ru + st) < 2 ^ 28 ->
  Sanity.averages (3 * Z.of_nat m) (tallies m re ru st) = Done (repeat (re / 3, ru / 3, st / 3) 3).
Proof.
  intros Hm H1 H2 H3 Hb.
  assert (Ht : forall j, (j <= m)%nat -> tallies j re ru st =
    repeat (Z.of_nat j * re, Z.of_nat j * ru, Z.of_nat j * st) 3).
  { induction j as [|j IH]; intros Hj; [done|]. unfold tallies. rewrite seq_S, foldl_app. fold (tallies j re ru st).
    rewrite IH by lia. cbn [foldl Nat.add]. rewrite (tally_three _ _ re ru st (Z.of_nat j * re) (Z.of_nat j * ru) (Z.of_nat j * st)).
    - unfold Sanity.add_times. rewrite !s32_small by nia. repeat f_equal; lia.
    - nia.
    - replace (4 + 3 * Z.of_nat j - 4) with (Z.of_nat j * 3) by lia. by rewrite Z.rem_mul.
    - done. }
  unfold Sanity.averages. destruct (Z.eqb_spec (3 * Z.of_nat m) 0); [lia|]. rewrite Ht by done. f_equal.
  assert (Hq : forall x, 0 <= x -> Z.quot (Z.of_nat m * x) (3 * Z.of_nat m) = x / 3).
  { intros x Hx. rewrite Z.quot_div_nonneg by lia. rewrite (Z.mul_comm 3), Z.div_mul_cancel_l by lia. done. }
  simpl. by rewrite !Hq.
Qed.

Lemma churns_app m n j aux :
  Test.churns (m + n) j aux = Test.churns n (j + Z.of_nat m) (Test.churns m j aux).
Proof.
  revert j aux. induction m as [|m IH]; intros j aux; [simpl Nat.add; by rewrite Z.add_0_r|].
  rewrite Nat.add_succ_l. cbn [Test.churns]. rewrite IH. f_equal. lia.
Qed.

(** Between two divisions both counters only go up. *)
Lemma churns_up n j a b :
  0 < j -> 0 <= a -> 0 <= b -> a + Z.of_nat n < 2 ^ 30 -> b + Z.of_nat n < 2 ^ 30 ->
  j mod 10000 <> 0 -> j mod 10000 + Z.of_nat n <= 10000 ->
  Test.churns n j (a, b) = (a + Z.of_nat n, b + Z.of_nat n).
Proof.
  revert j a b. induction n as [|n IH]; intros j a b Hj Ha Hb Hna Hnb Hm Hs.
  - cbn [Test.churns]. f_equal; lia.
  - cbn [Test.churns]. unfold Test.churn at 1. cbn [fst snd]. rewrite !s32_small by lia.
    rewrite Z.rem_mod_nonneg by lia. destruct (Z.eqb_spec (j mod 10000) 0); [done|].
    destruct (decide (n = 0%nat)) as [->|Hn0]; [cbn [Test.churns]; f_equal; lia|].
    rewrite IH; try lia; [f_equal; lia|Z.div_mod_to_equations; lia..].
Qed.

Definition BLOCK : nat := Z.to_nat 9999.

Lemma block_first : Test.churns (1 + BLOCK) 0 (99, 99) = (10000, 9999).
Proof.
  rewrite churns_app. change (Test.churns 1 0 (99, 99)) with (1, 0). unfold BLOCK.
  rewrite churns_up; rewrite ?Z2Nat.id by lia; done.
Qed.

Lemma block_next k : 0 < k < 2 ^ 20 -> Test.churns (1 + BLOCK) (10000 * k) (10000, 9999) = (10000, 9999).
Proof.
  intros Hk. rewrite churns_app. cbn [Test.churns]. unfold Test.churn. cbn [fst snd].
  rewrite Z.rem_mod_nonneg, (Z.mul_comm 10000), Z.mod_mul by lia.
  change (0 =? 0) with true. cbv iota. change (Z.quot (s32 (10000 + 1)) (s32 (9999 + 1)), Z.rem (s32 (9999 + 1)) 25) with (1, 0).
  unfold BLOCK. rewrite churns_up; rewrite ?Z2Nat.id by lia; try done; change (Z.of_nat 1) with 1;
    Z.div_mod_to_equations; lia.
Qed.

Lemma blocks_next n k : 0 < k -> k + Z.of_nat n < 2 ^ 20 ->
  Test.churns (n * (1 + BLOCK)) (10000 * k) (10000, 9999) = (10000, 9999).
Proof.
  revert k. induction n as [|n IH]; intros k Hk Hn; [reflexivity|].
  rewrite Nat.mul_succ_l, Nat.add_comm, churns_app, block_next by lia.
  replace (10000 * k + Z.of_nat (1 + BLOCK)) with (10000 * (k + 1)) by (unfold BLOCK; lia). apply IH; lia.
Qed.

(** Every process of test.c, the childless one among them, goes on to wait for
    a child: the comparison at the end never holds. *)
Theorem test_always_waits : Test.busy = (10000, 9999).
Proof.
  unfold Test.busy, Test.INNER.
  replace (Z.to_nat 10000000) with ((1 + BLOCK) + Z.to_nat 999 * (1 + BLOCK))%nat by (unfold BLOCK; lia).
  rewrite churns_app, block_first. replace (0 + Z.of_nat (1 + BLOCK)) with (10000 * 1) by (unfold BLOCK; lia).
  apply blocks_next; lia.
Qed.
