(* ===== verification/Umalloc.v ===== *)
(** umalloc.c: the allocator of Kernighan and Ritchie.  The headers are a map
    from their addresses; a header takes eight bytes, and sizes count units of
    that.  [BASE] is the address of the static [base]. *)

From S2P Require Import Prelude Memory User.

Record hdr := Hdr { h_ptr : Z; h_size : Z }.
Record arena := Arena { hdrs : Z -> hdr; freep : Z }.

Definition set_hdr (a : Z) (h : hdr) (m : Z -> hdr) : Z -> hdr := fun x => if x =? a then h else m x.
Definition set_ptr (a v : Z) (m : Z -> hdr) : Z -> hdr := set_hdr a (Hdr v (h_size (m a))) m.
Definition set_size (a v : Z) (m : Z -> hdr) : Z -> hdr := set_hdr a (Hdr (h_ptr (m a)) v) m.

(** [p + p->s.size] *)
Definition block_end (m : Z -> hdr) (p : Z) : Z := u32 (p + 8 * h_size (m p)).

Section umalloc.
Variable BASE : Z.

(** The search of [free] for the free block before [bp]. *)
Definition free_search (fuel : nat) (m : Z -> hdr) (bp p : Z) : prog Z :=
  ploop fuel (fun p =>
    let next := h_ptr (m p) in
    if (p <? bp) && (bp <? next) then Done (inr p) else
    if (next <=? p) && ((p <? bp) || (bp <? next)) then Done (inr p) else
    Done (inl next)) p.

Definition free (fuel : nat) (ap : Z) (A : arena) : prog arena :=
  let bp := u32 (ap - 8) in
  let* p := free_search fuel (hdrs A) bp (freep A) in
  let m := hdrs A in
  let m :=
    if block_end m bp =? h_ptr (m p) then
      let m := set_size bp (u32 (h_size (m bp) + h_size (m (h_ptr (m p))))) m in
      set_ptr bp (h_ptr (m (h_ptr (m p)))) m
    else set_ptr bp (h_ptr (m p)) m in
  let m :=
    if block_end m p =? bp then
      let m := set_size p (u32 (h_size (m p) + h_size (m bp))) m in
      set_ptr p (h_ptr (m bp)) m
    else set_ptr p bp m in
  Done (Arena m p).

(** The new value of [freep], or nothing. *)
Definition morecore (fuel : nat) (nu : Z) (A : arena) : prog (option Z * arena) :=
  let nu := if nu <? 4096 then 4096 else nu in
  let* p := call (SSbrk (s32 (u32 (nu * 8)))) in
  if p =? -1 then Done (None, A) else
  let* A := free fuel (u32 (p + 8)) (Arena (set_size p nu (hdrs A)) (freep A)) in
  Done (Some (freep A), A).

(** [(nbytes + sizeof(Header) - 1)/sizeof(Header) + 1] *)
Definition units (nbytes : Z) : Z := u32 (u32 (nbytes + 8 - 1) / 8 + 1).

(** One round of the loop of [malloc], at [p] behind [prevp]. *)
Definition malloc_step (fuel : nat) (nunits : Z) (st : Z * Z * arena) : prog ((Z * Z * arena) + (Z * arena)) :=
  let '(prevp, p, A) := st in
  let m := hdrs A in
  if nunits <=? h_size (m p) then
    let '(p, m) :=
      if h_size (m p) =? nunits then (p, set_ptr prevp (h_ptr (m p)) m)
      else
        let m := set_size p (u32 (h_size (m p) - nunits)) m in
        let p := block_end m p in
        (p, set_size p nunits m) in
    Done (inr (u32 (p + 8), Arena m prevp))
  else if p =? freep A then
    let* ' (r, A) := morecore fuel nunits A in
    match r with
    | None => Done (inr (0, A))
    | Some p => Done (inl (p, h_ptr (hdrs A p), A))
    end
  else Done (inl (p, h_ptr (m p), A)).

(** The block returned, 0 if there is none. *)
Definition malloc (fuel : nat) (nbytes : Z) (A : arena) : prog (Z * arena) :=
  let nunits := units nbytes in
  let A := if freep A =? 0 then Arena (set_size BASE 0 (set_ptr BASE BASE (hdrs A))) BASE else A in
  let prevp := freep A in
  ploop fuel (malloc_step fuel nunits) (prevp, h_ptr (hdrs A prevp), A).
End umalloc.

(** ** The free list

    The free blocks, in order of their addresses, each with its size. *)

Definition blocks := list (Z * Z).

(** The address of the first block, [z] if there is none. *)
Definition nxt (l : blocks) (z : Z) : Z := match l with [] => z | (a, _) :: _ => a end.

(** The headers of [l] link its blocks, the last one to [z]. *)
Fixpoint chain (m : Z -> hdr) (l : blocks) (z : Z) : Prop :=
  match l with
  | [] => True
  | (a, s) :: l => m a = Hdr (nxt l z) s /\ chain m l z
  end.

(** The blocks lie between [lo] and [hi], with a gap before each: neighbours
    are always merged. *)
Fixpoint spaced (lo : Z) (l : blocks) (hi : Z) : Prop :=
  match l with
  | [] => lo <= hi
  | (a, s) :: l => lo < a /\ 1 <= s /\ spaced (a + 8 * s) l hi
  end.

(** The bytes of the blocks. *)
Definition owns (l : blocks) (u : Z) : Prop := exists a s, (a, s) ∈ l /\ a <= u < a + 8 * s.

Lemma chain_app m l1 l2 z : chain m (l1 ++ l2) z <-> chain m l1 (nxt l2 z) /\ chain m l2 z.
Proof.
  induction l1 as [|[a s] l1 IH]; simpl; [tauto|]. rewrite IH.
  assert (nxt (l1 ++ l2) z = nxt l1 (nxt l2 z)) as -> by (by destruct l1 as [|[b t] l1]). tauto.
Qed.

Lemma chain_frame m m' l z : (forall a, a ∈ l.*1 -> m' a = m a) -> chain m l z -> chain m' l z.
Proof.
  induction l as [|[a s] l IH]; simpl; [done|]. intros Hm [Ha Hl]. split.
  - rewrite Hm by left. done.
  - apply IH; [|done]. intros b Hb. apply Hm. by right.
Qed.

Lemma chain_lookup m l1 a s l2 z : chain m (l1 ++ (a, s) :: l2) z -> m a = Hdr (nxt l2 z) s.
Proof. intros [_ [H _]]%chain_app. exact H. Qed.

Lemma spaced_lo_hi lo l hi : spaced lo l hi -> lo <= hi.
Proof. revert lo. induction l as [|[a s] l IH]; intros lo; simpl; [done|]. intros (? & ? & ?%IH). lia. Qed.

Lemma spaced_in lo l hi a s : spaced lo l hi -> (a, s) ∈ l -> lo < a /\ 1 <= s /\ a + 8 * s <= hi.
Proof.
  revert lo. induction l as [|[b t] l IH]; intros lo Hl Hin; [by apply not_elem_of_nil in Hin|]. simpl in Hl.
  destruct Hl as (H1 & H2 & H3). apply elem_of_cons in Hin as [[= -> ->]|Hin].
  - apply spaced_lo_hi in H3. lia.
  - destruct (IH _ H3 Hin). lia.
Qed.

Lemma spaced_addr lo l hi a : spaced lo l hi -> a ∈ l.*1 -> lo < a < hi.
Proof.
  intros Hl ([b s] & -> & Hin)%list_elem_of_fmap. simpl. destruct (spaced_in _ _ _ _ _ Hl Hin). lia.
Qed.

Lemma spaced_app lo l1 l2 hi : spaced lo (l1 ++ l2) hi <-> exists mid, spaced lo l1 mid /\
  match l2 with [] => mid <= hi | (a, s) :: l => mid < a /\ 1 <= s /\ spaced (a + 8 * s) l hi end.
Proof.
  revert lo. induction l1 as [|[a s] l1 IH]; intros lo; simpl.
  - destruct l2 as [|[a s] l2]; simpl; split.
    + intros H. exists lo. lia.
    + intros (mid & H1 & H2). lia.
    + intros H. exists lo. split; [lia | done].
    + intros (mid & H1 & H2 & H3 & H4). split; [lia | done].
  - rewrite IH. split.
    + intros (H1 & H2 & mid & H3 & H4). exists mid. done.
    + intros (mid & (H1 & H2 & H3) & H4). split; [done|]. split; [done|]. by exists mid.
Qed.

Lemma spaced_weaken lo lo' l hi hi' : spaced lo l hi -> lo' <= lo -> hi <= hi' -> spaced lo' l hi'.
Proof.
  revert lo lo'. induction l as [|[a s] l IH]; intros lo lo'; simpl; [lia|]. intros (H1 & H2 & H3) Hlo Hhi.
  split; [lia|]. split; [done|]. eapply IH; [done | lia | done].
Qed.

Lemma set_hdr_eq a h m : set_hdr a h m a = h.
Proof. unfold set_hdr. by rewrite Z.eqb_refl. Qed.

Lemma set_hdr_ne a h m x : x <> a -> set_hdr a h m x = m x.
Proof. intros Hx. unfold set_hdr. by rewrite (proj2 (Z.eqb_neq _ _)). Qed.

Section proofs.
Variable BASE : Z.

Lemma low_cases l1 pre a s v :
  (BASE, 0) :: l1 = pre ++ (a, s) :: v -> (a = BASE /\ s = 0 /\ l1 = v) \/ exists pre', l1 = pre' ++ (a, s) :: v.
Proof. destruct pre as [|x pre]; intros [= H1 H2]; subst; [by left | right; by eexists]. Qed.

(** The last block of a list. *)
Definition before (l : blocks) : Z * Z := List.last l (BASE, 0).

Lemma before_app pre x v : before (pre ++ x :: v) = before (x :: v).
Proof.
  unfold before. induction pre as [|y pre IH]; [done|]. rewrite <- IH. simpl.
  destruct (pre ++ x :: v) eqn:E; [|done]. by apply app_nil in E as [_ ?].
Qed.

(** ** The search of free *)

Section search.
Variables (m : Z -> hdr) (l1 l2 : blocks) (bp bs hi : Z).
Hypothesis Hchain : chain m ((BASE, 0) :: l1 ++ l2) BASE.
Hypothesis Hlow : spaced BASE l1 bp.
Hypothesis Hb : BASE < bp.
Hypothesis Hbs : 1 <= bs.
Hypothesis Hhigh : forall a s, (a, s) ∈ l2 -> bp + 8 * bs <= a.
Hypothesis Hup : forall u a s v, l2 = u ++ (a, s) :: v -> a < nxt v (a + 1).

Lemma search_low pre a s v fuel :
  (BASE, 0) :: l1 = pre ++ (a, s) :: v -> (length v < fuel)%nat ->
  free_search fuel m bp a = Done (before ((a, s) :: v)).1.
Proof.
  unfold free_search. revert pre a s fuel. induction v as [|[b t] v IH]; intros pre a s fuel Hl Hf; (destruct fuel as [|fuel]; [simpl in Hf; lia|]).
  - assert (m a = Hdr (nxt l2 BASE) s) as Ha.
    { apply (chain_lookup m pre a s l2 BASE). change (chain m (pre ++ ((a, s) :: []) ++ l2) BASE). by rewrite app_assoc, <- Hl. }
    assert (BASE <= a < bp) as [HB Hab].
    { destruct (low_cases _ _ _ _ _ Hl) as [(-> & _)|[pre' Hl']]; [lia|].
      assert ((a, s) ∈ l1) as Hin by (rewrite Hl', elem_of_app; right; left). destruct (spaced_in _ _ _ _ _ Hlow Hin). lia. }
    cbn [ploop]. rewrite Ha. simpl h_ptr. destruct l2 as [|[b t] l2'].
    + simpl. rewrite (proj2 (Z.ltb_lt _ _) Hab), (proj2 (Z.ltb_ge bp BASE)), (proj2 (Z.leb_le _ _)) by lia. done.
    + specialize (Hhigh b t ltac:(left)). simpl. rewrite (proj2 (Z.ltb_lt _ _) Hab), (proj2 (Z.ltb_lt bp b)) by lia. done.
  - assert (m a = Hdr b s) as Ha.
    { apply (chain_lookup m pre a s (((b, t) :: v) ++ l2) BASE).
      change (chain m (pre ++ ((a, s) :: (b, t) :: v) ++ l2) BASE). by rewrite app_assoc, <- Hl. }
    assert ((b, t) ∈ l1) as Hin.
    { destruct (low_cases _ _ _ _ _ Hl) as [(_ & _ & ->)|[pre' ->]]; [left|]. rewrite elem_of_app. right. right. left. }
    destruct (spaced_in _ _ _ _ _ Hlow Hin) as (Hb1 & Hb2 & Hb3).
    assert (a < b) as Hab.
    { destruct (low_cases _ _ _ _ _ Hl) as [(-> & _)|[pre' Hl']]; [lia|].
      rewrite Hl' in Hlow. apply spaced_app in Hlow as (mid & _ & H1 & H2 & H3 & _). lia. }
    cbn [ploop]. rewrite Ha. simpl h_ptr. rewrite (proj2 (Z.ltb_ge bp b)), (proj2 (Z.leb_gt b a)) by lia.
    rewrite andb_false_r. cbn [andb pbind]. rewrite (IH (pre ++ [(a, s)]) b t); [done | by rewrite <- app_assoc | simpl in Hf; lia].
Qed.

Lemma search_high u a s v fuel :
  l2 = u ++ (a, s) :: v -> (length l1 + length v + 1 < fuel)%nat ->
  free_search fuel m bp a = Done (before ((BASE, 0) :: l1)).1.
Proof.
  revert u a s fuel. induction v as [|[b t] v IH]; intros u a s fuel Hl Hf; (destruct fuel as [|fuel]; [lia|]).
  - assert (m a = Hdr BASE s) as Ha.
    { apply (chain_lookup m ((BASE, 0) :: l1 ++ u) a s [] BASE). simpl. rewrite <- app_assoc. by rewrite <- Hl. }
    assert (bp + 8 * bs <= a) as Hh by (apply (Hhigh a s); rewrite Hl, elem_of_app; right; left).
    unfold free_search. cbn [ploop]. rewrite Ha. simpl h_ptr.
    rewrite (proj2 (Z.ltb_ge a bp)), (proj2 (Z.ltb_ge bp BASE)) by lia. cbn [andb orb]. rewrite andb_false_r.
    cbn [pbind]. apply (search_low [] BASE 0 l1 fuel); [done | simpl in Hf; lia].
  - assert (m a = Hdr b s) as Ha.
    { apply (chain_lookup m ((BASE, 0) :: l1 ++ u) a s ((b, t) :: v) BASE). simpl. rewrite <- app_assoc. by rewrite <- Hl. }
    assert (bp + 8 * bs <= a) as Hh by (apply (Hhigh a s); rewrite Hl, elem_of_app; right; left).
    pose proof (Hup _ _ _ _ Hl) as Hab. simpl in Hab.
    unfold free_search. cbn [ploop]. rewrite Ha. simpl h_ptr.
    rewrite (proj2 (Z.ltb_ge a bp)), (proj2 (Z.leb_gt b a)) by lia. cbn [andb orb].
    cbn [pbind]. apply (IH (u ++ [(a, s)]) b t fuel); [by rewrite <- app_assoc | simpl in Hf; lia].
Qed.

Lemma search_eq p fuel :
  p ∈ ((BASE, 0) :: l1 ++ l2).*1 -> (length l1 + length l2 + 1 < fuel)%nat ->
  free_search fuel m bp p = Done (before ((BASE, 0) :: l1)).1.
Proof.
  intros ([a s] & -> & Hin)%list_elem_of_fmap Hf. rewrite app_comm_cons, elem_of_app in Hin. destruct Hin as [Hin|Hin].
  - apply list_elem_of_split in Hin as (pre & v & Hl). simpl.
    rewrite (search_low pre a s v); [by rewrite Hl, before_app | done |].
    apply (f_equal length) in Hl. rewrite length_app in Hl. simpl in Hl. lia.
  - apply list_elem_of_split in Hin as (u & v & Hl). simpl. apply (search_high u a s v); [done|].
    rewrite Hl, length_app in Hf. simpl in Hf. lia.
Qed.
End search.

(** ** free *)

(** [bp], a block of [bs] units, lies between the blocks of [l1] and those of
    [l2], which end below [hi]. *)
Definition gap_above (e : Z) (l2 : blocks) (hi : Z) : Prop :=
  match l2 with [] => e <= hi | (a, s) :: l => e <= a /\ 1 <= s /\ spaced (a + 8 * s) l hi end.
Definition gap_strict (e : Z) (l2 : blocks) (hi : Z) : Prop :=
  match l2 with [] => e <= hi | (a, s) :: l => e < a /\ 1 <= s /\ spaced (a + 8 * s) l hi end.

Lemma gap_spaced lo a s l hi : lo < a -> 1 <= s -> gap_strict (a + 8 * s) l hi -> spaced lo ((a, s) :: l) hi.
Proof. intros H1 H2 H3. split; [done|]. split; [done|]. by destruct l as [|[b t] l]. Qed.

Lemma owns_app l1 l2 u : owns (l1 ++ l2) u <-> owns l1 u \/ owns l2 u.
Proof. unfold owns. setoid_rewrite elem_of_app. naive_solver. Qed.

Lemma owns_cons a s l u : owns ((a, s) :: l) u <-> a <= u < a + 8 * s \/ owns l u.
Proof.
  unfold owns. setoid_rewrite elem_of_cons. split.
  - intros (b & t & [[= -> ->]|Hin] & Hu); [by left | right; eauto].
  - intros [Hu|(b & t & Hin & Hu)]; eauto 6.
Qed.

Lemma gap_above_in e l2 hi a s : gap_above e l2 hi -> (a, s) ∈ l2 -> e <= a /\ 1 <= s /\ a + 8 * s <= hi.
Proof.
  destruct l2 as [|[b t] l2]; [by intros _ ?%not_elem_of_nil|]. intros (H1 & H2 & H3) [[= -> ->]|Hin]%elem_of_cons.
  - apply spaced_lo_hi in H3. lia.
  - destruct (spaced_in _ _ _ _ _ H3 Hin). lia.
Qed.

Lemma gap_strict_above e l2 hi : gap_strict e l2 hi -> gap_above e l2 hi.
Proof. destruct l2 as [|[b t] l2]; [done|]. intros (H1 & H2 & H3). split; [lia | done]. Qed.

Lemma gap_above_le e l2 hi : gap_above e l2 hi -> e <= hi.
Proof. destruct l2 as [|[b t] l2]; [done|]. intros (H1 & H2 & H3%spaced_lo_hi). lia. Qed.

(** Joining with the block above. *)
Lemma join_above m l2 bp bs x hi :
  0 < BASE < bp -> 1 <= bs -> hi < 2 ^ 32 -> gap_above (bp + 8 * bs) l2 hi -> m bp = Hdr x bs -> chain m l2 BASE ->
  exists l2' bs', 1 <= bs' /\ gap_strict (bp + 8 * bs') l2' hi /\ bs <= bs' /\
    (forall u, owns l2' u \/ bp <= u < bp + 8 * bs' <-> owns l2 u \/ bp <= u < bp + 8 * bs) /\
    (forall z, z ∈ l2'.*1 -> z ∈ l2.*1) /\ (length l2' <= length l2)%nat /\ chain m l2' BASE /\
    forall p, h_ptr (m p) = nxt l2 BASE -> p <> bp ->
      let m1 := if block_end m bp =? h_ptr (m p) then
          let m := set_size bp (u32 (h_size (m bp) + h_size (m (h_ptr (m p))))) m in
          set_ptr bp (h_ptr (m (h_ptr (m p)))) m
        else set_ptr bp (h_ptr (m p)) m in
      m1 bp = Hdr (nxt l2' BASE) bs' /\ forall y, y <> bp -> m1 y = m y.
Proof.
  intros HB Hbs Hhi Hgap Hbp Hch. pose proof (gap_above_le _ _ _ Hgap) as Hle.
  assert (block_end m bp = bp + 8 * bs) as Hend by (unfold block_end; rewrite Hbp; simpl; apply u32_small; lia).
  assert ((exists s l, l2 = (bp + 8 * bs, s) :: l) \/ ~ exists s l, l2 = (bp + 8 * bs, s) :: l) as [(s & l & ->)|Hno].
  { destruct l2 as [|[a s] l]; [right; by intros (? & ? & ?)|].
    destruct (decide (a = bp + 8 * bs)) as [->|Hne]; [left; eauto | right; intros (? & ? & [= ? ? ?]); congruence]. }
  - destruct Hgap as (_ & Hs & Hsp), Hch as [Ha Hch]. pose proof (spaced_lo_hi _ _ _ Hsp).
    exists l, (bs + s). split_and!; try lia.
    + destruct l as [|[b t] l]; simpl in *; [lia|]. split; [lia|]. split; [lia|]. replace (b + 8 * t) with (b + 8 * t) by lia. tauto.
    + intros u. rewrite owns_cons.
      assert (bp <= u < bp + 8 * (bs + s) <-> bp <= u < bp + 8 * bs \/ bp + 8 * bs <= u < bp + 8 * bs + 8 * s) by lia. tauto.
    + intros z Hz. by right.
    + simpl. lia.
    + done.
    + intros p Hp Hpne. rewrite Hend, Hp. simpl nxt. rewrite Z.eqb_refl. simpl.
      unfold set_ptr, set_size. rewrite Hbp, Ha. simpl.
      rewrite (set_hdr_ne bp _ _ p) by done. rewrite Hp. simpl. rewrite (set_hdr_ne bp _ _ (bp + 8 * bs)) by lia. rewrite Ha. simpl.
      rewrite !set_hdr_eq. simpl. split; [f_equal; apply u32_small; lia|]. intros y Hy. by rewrite !set_hdr_ne.
  - exists l2, bs. split_and!; try done; try lia.
    + destruct l2 as [|[a s] l]; [done|]. destruct Hgap as (H1 & H2 & H3). split; [|done].
      destruct (decide (a = bp + 8 * bs)) as [->|]; [|lia]. destruct Hno. eauto.
    + intros p Hp Hpne. rewrite Hend, Hp. rewrite (proj2 (Z.eqb_neq _ _)).
      * unfold set_ptr. rewrite set_hdr_eq, Hbp. split; [done|]. intros y Hy. by rewrite set_hdr_ne.
      * destruct l2 as [|[a s] l]; simpl; [lia|]. intros <-. destruct Hno. eauto.
Qed.

Record inv (brk : Z) (A : arena) (l : blocks) : Prop := {
  inv_chain : chain (hdrs A) ((BASE, 0) :: l) BASE;
  inv_spaced : spaced BASE l brk;
  inv_freep : freep A ∈ ((BASE, 0) :: l).*1;
  inv_base : 0 < BASE < brk;
  inv_brk : brk < 2 ^ 32;
}.

(** The block before [bp], [(p, ps)], and those before it. *)
Lemma split_low l1 bp :
  spaced BASE l1 bp -> BASE < bp ->
  exists pre p ps, (BASE, 0) :: l1 = pre ++ [(p, ps)] /\ before ((BASE, 0) :: l1) = (p, ps) /\
    p < bp /\ p + 8 * ps <= bp /\ (forall a, a ∈ pre.*1 -> a < p) /\
    ((p = BASE /\ ps = 0 /\ pre = [] /\ l1 = []) \/
     exists pre', pre = (BASE, 0) :: pre' /\ l1 = pre' ++ [(p, ps)] /\ BASE < p /\ 1 <= ps /\
       exists mid, spaced BASE pre' mid /\ mid < p).
Proof.
  intros Hsp Hb. destruct l1 as [|x l _] using rev_ind.
  - exists [], BASE, 0. split_and!; try done; [lia | by intros a ?%not_elem_of_nil | by left].
  - destruct x as [p ps]. exists ((BASE, 0) :: l), p, ps. pose proof Hsp as (mid & H1 & H2 & H3 & H4)%spaced_app. simpl in H4.
    pose proof (spaced_lo_hi _ _ _ H1). split_and!; try done; try lia.
    + change (before (((BASE, 0) :: l) ++ [(p, ps)]) = (p, ps)). by rewrite before_app.
    + intros a Ha. simpl in Ha. apply elem_of_cons in Ha as [->|Ha]; [lia|]. apply (spaced_addr _ _ _ _ H1) in Ha. lia.
    + right. exists l. split_and!; try done; [lia|]. by exists mid.
Qed.

Lemma free_spec brk A l1 l2 bp bs x fuel :
  inv brk A (l1 ++ l2) -> hdrs A bp = Hdr x bs -> 1 <= bs -> BASE < bp -> spaced BASE l1 bp ->
  gap_above (bp + 8 * bs) l2 brk -> (length l1 + length l2 + 1 < fuel)%nat ->
  exists A' l', free fuel (bp + 8) A = Done A' /\ inv brk A' l' /\
    (forall u, owns l' u <-> owns (l1 ++ l2) u \/ bp <= u < bp + 8 * bs) /\
    (exists a s, (a, s) ∈ l' /\ bs <= s) /\ (length l' <= S (length (l1 ++ l2)))%nat.
Proof.
  intros [Hch Hsp Hfp HB Hbrk] Hbp Hbs Hb Hlow Hgap Hf. pose proof (gap_above_le _ _ _ Hgap) as Hle.
  set (m := hdrs A) in *.
  assert (free_search fuel m bp (freep A) = Done (before ((BASE, 0) :: l1)).1) as Hsearch.
  { apply (search_eq m l1 l2 bp bs); try done.
    - intros a s Hin. by destruct (gap_above_in _ _ _ _ _ Hgap Hin).
    - intros u a s v Hl. rewrite Hl in Hsp. apply spaced_app in Hsp as (mid & _ & Hsp).
      destruct u as [|[b t] u]; simpl in Hsp; [|destruct Hsp as (_ & _ & Hsp); apply spaced_app in Hsp as (mid' & _ & Hsp)];
        destruct Hsp as (_ & Hs & Hv); destruct v as [|[c t'] v]; simpl in *; lia. }
  destruct (split_low l1 bp Hlow Hb) as (pre & p & ps & Hpre & Hbef & Hp & Hpe & Hpa & Hcase).
  rewrite Hbef in Hsearch. simpl in Hsearch.
  pose proof Hch as Hch0. rewrite app_comm_cons, Hpre, <- app_assoc in Hch0.
  apply chain_app in Hch0 as [Hcpre [Hmp Hc2]]. simpl in Hcpre.
  change (chain m l2 BASE) in Hc2.
  destruct (join_above m l2 bp bs x brk ltac:(lia) Hbs Hbrk Hgap Hbp Hc2)
    as (l2' & bs' & Hbs' & Hgap' & Hbb & Hown & Hsub & Hlen2 & Hc2' & Hm1).
  specialize (Hm1 p ltac:(by rewrite Hmp) ltac:(lia)). pose proof (gap_above_le _ _ _ (gap_strict_above _ _ _ Hgap')) as Hle'.
  unfold free. replace (u32 (bp + 8 - 8)) with bp by (rewrite u32_small; lia). fold m. rewrite Hsearch. cbn [pbind].
  revert Hm1. set (m1 := if block_end m bp =? h_ptr (m p) then _ else _). intros [Hm1b Hm1o].
  assert (block_end m1 p = p + 8 * ps) as He1.
  { unfold block_end. rewrite Hm1o by lia. rewrite Hmp. simpl. apply u32_small.
    destruct Hcase as [(-> & -> & _)|(pre' & _ & _ & ? & ? & _)]; lia. }
  rewrite He1.
  assert (forall m2, (forall y, y <> p -> m2 y = m1 y) -> chain m2 pre p /\ chain m2 l2' BASE /\ m2 bp = Hdr (nxt l2' BASE) bs') as Hfr.
  { intros m2 Hm2. split_and!.
    - eapply chain_frame, Hcpre. intros a Ha%Hpa. rewrite Hm2, Hm1o by lia. done.
    - eapply chain_frame, Hc2'. intros a Ha%Hsub. apply list_elem_of_fmap in Ha as ([a' s'] & -> & Ha).
      destruct (gap_above_in _ _ _ _ _ Hgap Ha) as (? & ? & ?). simpl. rewrite Hm2, Hm1o by lia. done.
    - by rewrite Hm2 by lia. }
  destruct (Z.eqb_spec (p + 8 * ps) bp) as [Hj|Hj].
  - destruct Hcase as [(-> & -> & _)|(pre' & Hpre' & Hl1 & HBp & Hps & mid & Hmid & Hmp')]; [lia|].
    set (m2 := set_ptr p _ _).
    assert (m2 p = Hdr (nxt l2' BASE) (ps + bs')) as Hm2p.
    { unfold m2, set_ptr, set_size. rewrite (set_hdr_ne p _ _ bp) by lia. rewrite !set_hdr_eq, Hm1b. simpl.
      rewrite Hm1o by lia. rewrite Hmp. simpl. f_equal. apply u32_small. lia. }
    destruct (Hfr m2) as (Hf1 & Hf2 & _); [intros y Hy; unfold m2, set_ptr, set_size; by rewrite !set_hdr_ne|].
    eexists _, (pre' ++ (p, ps + bs') :: l2'). split; [done|]. split_and!; [split; try done| | |].
    + simpl. change (chain m2 (((BASE, 0) :: pre') ++ (p, ps + bs') :: l2') BASE). rewrite <- Hpre'. apply chain_app. by split_and!.
    + apply spaced_app. exists mid. split; [done|]. apply (gap_spaced mid); [done | lia |].
      replace (p + 8 * (ps + bs')) with (bp + 8 * bs') by lia. done.
    + simpl freep. change (p ∈ ((BASE, 0) :: pre' ++ (p, ps + bs') :: l2').*1). rewrite fmap_cons, fmap_app. simpl.
      right. apply elem_of_app. right. left.
    + intros u. rewrite Hl1, !owns_app, !owns_cons. specialize (Hown u).
      assert (p <= u < p + 8 * (ps + bs') <-> p <= u < p + 8 * ps \/ bp <= u < bp + 8 * bs') by lia.
      assert (owns [] u <-> False) by (split; [intros (? & ? & []%not_elem_of_nil & _) | done]). tauto.
    + exists p, (ps + bs'). split; [apply elem_of_app; right; left | lia].
    + rewrite Hl1, !length_app. simpl. lia.
  - set (m2 := set_ptr p bp m1).
    assert (m2 p = Hdr bp ps) as Hm2p.
    { unfold m2, set_ptr. rewrite set_hdr_eq. f_equal. rewrite Hm1o by lia. by rewrite Hmp. }
    destruct (Hfr m2) as (Hf1 & Hf2 & Hf3); [intros y Hy; unfold m2, set_ptr; by rewrite !set_hdr_ne|].
    eexists _, (l1 ++ (bp, bs') :: l2'). split; [done|]. split_and!; [split; try done| | |].
    + change (chain m2 (((BASE, 0) :: l1) ++ (bp, bs') :: l2') BASE). rewrite Hpre, <- app_assoc. apply chain_app. by split_and!.
    + apply spaced_app. destruct Hcase as [(-> & -> & _ & ->)|(pre' & Hpre' & Hl1 & HBp & Hps & mid & Hmid & Hmp')].
      * exists BASE. split; [simpl; lia|]. by apply (gap_spaced BASE).
      * exists (p + 8 * ps). split; [|apply (gap_spaced (p + 8 * ps)); [lia | done | done]]. rewrite Hl1. apply spaced_app.
        exists mid. split; [done|]. simpl. split; [lia|]. split; [lia | lia].
    + simpl freep. change (p ∈ (((BASE, 0) :: l1) ++ (bp, bs') :: l2').*1). rewrite Hpre, !fmap_app. simpl.
      apply elem_of_app. left. apply elem_of_app. right. left.
    + intros u. rewrite !owns_app, !owns_cons. specialize (Hown u). tauto.
    + exists bp, bs'. split; [apply elem_of_app; right; left | lia].
    + rewrite !length_app. simpl. lia.
Qed.

(** ** malloc *)

Lemma spaced_NoDup lo l hi : spaced lo l hi -> NoDup (lo :: l.*1).
Proof.
  revert lo. induction l as [|[a s] l IH]; intros lo Hl; simpl; [apply NoDup_singleton|]. destruct Hl as (H1 & H2 & H3).
  assert (forall x, x ∈ l.*1 -> a + 8 * s < x) as Hx by (intros x Hx; by destruct (spaced_addr _ _ _ _ H3 Hx)).
  apply IH in H3. apply list.NoDup_cons in H3 as [_ H3]. apply list.NoDup_cons. split.
  - intros [->|Hin%Hx]%elem_of_cons; lia.
  - apply list.NoDup_cons. split; [intros Hin%Hx; lia | done].
Qed.

Lemma inv_NoDup brk A l : inv brk A l -> NoDup ((BASE, 0) :: l).*1.
Proof. intros [_ Hsp _ _ _]. by eapply spaced_NoDup. Qed.

(** The list seen from another block. *)
Lemma chain_rotate m u v z : chain m (u ++ v) (nxt (u ++ v) z) -> chain m (v ++ u) (nxt (v ++ u) z).
Proof.
  assert (forall (a b : blocks) y, nxt (a ++ b) y = nxt a (nxt b y)) as Hn by (intros [|[] a] b y; done).
  rewrite !chain_app, !Hn. destruct u as [|[] u], v as [|[] v]; simpl; tauto.
Qed.

Definition small (n : Z) (b : Z * Z) : Prop := b.2 < n.

(** Walking past blocks that are too small. *)
Lemma scan fu k n A pre p s post z prev :
  chain (hdrs A) (pre ++ (p, s) :: post) z -> Forall (small n) pre -> freep A ∉ pre.*1 ->
  h_ptr (hdrs A prev) = nxt (pre ++ (p, s) :: post) z ->
  exists prev', ploop (length pre + k) (malloc_step fu n) (prev, nxt (pre ++ (p, s) :: post) z, A) =
      ploop k (malloc_step fu n) (prev', p, A) /\ (prev' = prev \/ prev' ∈ pre.*1) /\ h_ptr (hdrs A prev') = p.
Proof.
  revert prev. induction pre as [|[a t] pre IH]; intros prev Hch Hsm Hfp Hprev; simpl in *; [by exists prev; auto|].
  destruct Hch as [Ha Hch]. apply list.Forall_cons in Hsm as [Ht Hsm]. apply not_elem_of_cons in Hfp as [Hne Hfp].
  unfold small in Ht. simpl in Ht. rewrite Ha. simpl. rewrite (proj2 (Z.leb_gt n t)) by lia.
  rewrite (proj2 (Z.eqb_neq a (freep A))) by congruence. cbn [pbind].
  destruct (IH a Hch Hsm Hfp ltac:(by rewrite Ha)) as (prev' & -> & Hp & Hl). exists prev'. split; [done|]. split; [|done].
  right. destruct Hp as [->|Hp]; [left | by right].
Qed.

(** The block before the one found. *)
Lemma predecessor m l q p s :
  chain m ((BASE, 0) :: l) BASE -> q ∈ ((BASE, 0) :: l).*1 -> h_ptr (m q) = p -> h_size (m p) = s -> p <> BASE ->
  exists l1 pre sq y, l = l1 ++ (p, s) :: y /\ (BASE, 0) :: l1 = pre ++ [(q, sq)].
Proof.
  intros Hch ([a t] & -> & Hin)%list_elem_of_fmap Hp Hs Hne. apply list_elem_of_split in Hin as (u & v & Hl).
  rewrite Hl in Hch. pose proof (chain_lookup _ _ _ _ _ _ Hch) as Ha. simpl in Hp. rewrite Ha in Hp. simpl in Hp.
  destruct v as [|[b t'] v]; simpl in Hp; [by subst|]. subst b.
  assert (t' = s) as ->.
  { assert (chain m ((u ++ [(a, t)]) ++ (p, t') :: v) BASE) as Hch' by (by rewrite <- app_assoc).
    apply chain_lookup in Hch'. rewrite Hch' in Hs. done. }
  destruct u as [|x u]; injection Hl as H1 H2; subst.
  - exists [], [], 0, v. done.
  - exists (u ++ [(a, t)]), ((BASE, 0) :: u), t, v. by rewrite <- app_assoc.
Qed.

(** A list without one of its blocks, or with less of it. *)
Lemma spaced_shrink lo l1 p s y hi s' :
  spaced lo (l1 ++ (p, s) :: y) hi -> 1 <= s' <= s -> spaced lo (l1 ++ (p, s') :: y) hi.
Proof.
  intros (mid & H1 & H2 & H3 & H4)%spaced_app Hs. apply spaced_app. exists mid. split; [done|]. split; [done|]. split; [lia|].
  destruct y as [|[a t] y]; simpl in *; [lia|]. split; [lia | tauto].
Qed.

Lemma spaced_remove lo l1 p s y hi : spaced lo (l1 ++ (p, s) :: y) hi -> spaced lo (l1 ++ y) hi.
Proof.
  intros (mid & H1 & H2 & H3 & H4)%spaced_app. apply spaced_app. exists mid. split; [done|].
  destruct y as [|[a t] y]; simpl in *; [lia|]. split; [lia | tauto].
Qed.

Lemma spaced_apart lo l1 p s y hi a t :
  spaced lo (l1 ++ (p, s) :: y) hi -> (a, t) ∈ l1 \/ (a, t) ∈ y -> a + 8 * t <= p \/ p + 8 * s < a.
Proof.
  intros (mid & H1 & H2 & H3 & H4)%spaced_app [Hin|Hin].
  - destruct (spaced_in _ _ _ _ _ H1 Hin). lia.
  - destruct (spaced_in _ _ _ _ _ H4 Hin). lia.
Qed.

(** What [malloc] takes when it has found a block. *)
Definition taken (brk : Z) (l : blocks) (n : Z) (r : Z) (A' : arena) (l' : blocks) : Prop :=
  inv brk A' l' /\ h_size (hdrs A' (r - 8)) = n /\ 8 <= r < 2 ^ 32 /\
  (forall u, owns l u <-> owns l' u \/ r - 8 <= u < r - 8 + 8 * n) /\
  (forall u, r - 8 <= u < r - 8 + 8 * n -> ~ owns l' u).

Lemma take_spec fu brk A l n q p :
  inv brk A l -> 1 <= n -> q ∈ ((BASE, 0) :: l).*1 -> h_ptr (hdrs A q) = p -> n <= h_size (hdrs A p) ->
  exists r A' l', malloc_step fu n (q, p, A) = Done (inr (r, A')) /\ taken brk l n r A' l'.
Proof.
  intros Hinv Hn Hq Hp Hs. pose proof (inv_NoDup _ _ _ Hinv) as Hnd. destruct Hinv as [Hch Hsp Hfp HB Hbrk].
  assert (p <> BASE) as Hne by (intros E0; destruct Hch as [E _]; rewrite E0, E in Hs; simpl in Hs; lia).
  set (s := h_size (hdrs A p)) in *.
  destruct (predecessor _ _ _ _ s Hch Hq Hp eq_refl Hne) as (l1 & pre & sq & y & -> & Hpre).
  assert (hdrs A p = Hdr (nxt y BASE) s) as Hmp.
  { apply (chain_lookup _ ((BASE, 0) :: l1) p s y BASE). exact Hch. }
  assert ((p, s) ∈ l1 ++ (p, s) :: y) as Hin by (apply elem_of_app; right; left).
  pose proof (spaced_in _ _ _ _ _ Hsp Hin) as (Hp1 & Hp2 & Hp3).
  rewrite app_comm_cons, Hpre, <- app_assoc in Hch. apply chain_app in Hch as [Hcpre [Hcq [_ Hcy]]]. simpl in Hcpre, Hcq.
  rewrite app_comm_cons, Hpre, <- app_assoc, !fmap_app in Hnd. simpl in Hnd.
  apply list.NoDup_app in Hnd as (_ & Hd1 & [Hqn [Hpn _]%list.NoDup_cons]%list.NoDup_cons).
  unfold malloc_step. rewrite (proj2 (Z.leb_le n (h_size (hdrs A p)))) by done. rewrite Hmp. simpl.
  destruct (Z.eqb_spec s n) as [Hsn|Hsn].
  - set (m' := set_ptr q (nxt y BASE) (hdrs A)).
    assert (forall x, x <> q -> m' x = hdrs A x) as Hm' by (intros x Hx; unfold m', set_ptr; by rewrite set_hdr_ne).
    eexists _, _, (l1 ++ y). split; [done|]. unfold taken. rewrite u32_small by lia. replace (p + 8 - 8) with p by lia. simpl.
    split_and!; try lia; [split; simpl; try done| | |].
    + change (chain m' (((BASE, 0) :: l1) ++ y) BASE). rewrite Hpre, <- app_assoc. apply chain_app. simpl. split_and!.
      * eapply chain_frame, Hcpre. intros a Ha. apply Hm'. intros ->. apply (Hd1 q Ha). left.
      * unfold m', set_ptr. rewrite set_hdr_eq, Hcq. done.
      * eapply chain_frame, Hcy. intros a Ha. apply Hm'. intros ->. apply Hqn. by right.
    + by eapply spaced_remove.
    + change (q ∈ (((BASE, 0) :: l1) ++ y).*1). rewrite Hpre, !fmap_app. apply elem_of_app. left. apply elem_of_app. right. left.
    + rewrite Hm' by (intros ->; apply Hqn; left). by rewrite Hmp.
    + intros u. rewrite !owns_app, owns_cons, Hsn. tauto.
    + intros u Hu Hown. apply owns_app in Hown. assert (exists a t, ((a, t) ∈ l1 \/ (a, t) ∈ y) /\ a <= u < a + 8 * t) as (a & t & Hat & Hau).
      { destruct Hown as [(a & t & ? & ?)|(a & t & ? & ?)]; eauto. }
      destruct (spaced_apart _ _ _ _ _ _ _ _ Hsp Hat); lia.
  - set (m1 := set_size p (u32 (s - n)) (hdrs A)).
    assert (m1 p = Hdr (nxt y BASE) (s - n)) as Hm1p.
    { unfold m1, set_size. rewrite set_hdr_eq, Hmp. simpl. f_equal. apply u32_small. lia. }
    assert (block_end m1 p = p + 8 * (s - n)) as He.
    { unfold block_end. rewrite Hm1p. simpl. apply u32_small. lia. }
    rewrite He. set (r := p + 8 * (s - n)). set (m' := set_size r n m1).
    assert (forall x, x <> p -> x <> r -> m' x = hdrs A x) as Hm'.
    { intros x Hx Hx'. unfold m', m1, set_size. by rewrite !set_hdr_ne. }
    assert (forall a t, (a, t) ∈ l1 \/ (a, t) ∈ y -> a <> p /\ a <> r) as Hap.
    { intros a t Hat. assert ((a, t) ∈ l1 ++ (p, s) :: y) as Hin' by (rewrite elem_of_app, elem_of_cons; tauto).
      destruct (spaced_in _ _ _ _ _ Hsp Hin') as (? & ? & ?). destruct (spaced_apart _ _ _ _ _ _ _ _ Hsp Hat); unfold r; lia. }
    assert (forall a, a ∈ (pre ++ [(q, sq)]).*1 -> a <> p /\ a <> r) as Hax.
    { intros a ([a' t] & -> & Ha)%list_elem_of_fmap. simpl. rewrite <- Hpre in Ha. apply elem_of_cons in Ha as [[= -> ->]|Ha]; [unfold r; lia|].
      apply (Hap a' t). by left. }
    eexists _, _, (l1 ++ (p, s - n) :: y). split; [done|]. unfold taken. rewrite u32_small by (unfold r; lia). replace (r + 8 - 8) with r by lia. simpl.
    split_and!; try (unfold r; lia); [split; simpl; try done| | |].
    + change (chain m' (((BASE, 0) :: l1) ++ (p, s - n) :: y) BASE). rewrite Hpre, <- app_assoc. apply chain_app. simpl. split_and!.
      * eapply chain_frame, Hcpre. intros a Ha. apply Hm'; apply Hax; rewrite fmap_app; apply elem_of_app; by left.
      * rewrite Hm'; [exact Hcq | ..]; apply Hax; rewrite fmap_app; apply elem_of_app; right; left.
      * unfold m', set_size. rewrite set_hdr_ne by (unfold r; lia). done.
      * eapply chain_frame, Hcy. intros a ([a' t] & -> & Ha)%list_elem_of_fmap. simpl. apply Hm'; apply (Hap a' t); by right.
    + eapply spaced_shrink; [done|]. lia.
    + change (q ∈ (((BASE, 0) :: l1) ++ (p, s - n) :: y).*1). rewrite Hpre, !fmap_app. apply elem_of_app. left. apply elem_of_app. right. left.
    + unfold m', set_size. rewrite set_hdr_eq. done.
    + intros u. rewrite !owns_app, !owns_cons.
      assert (p <= u < p + 8 * s <-> p <= u < p + 8 * (s - n) \/ r <= u < r + 8 * n) by (unfold r; lia). tauto.
    + intros u Hu Hown. rewrite owns_app, owns_cons in Hown. destruct Hown as [Hown|[Hown|Hown]]; [|unfold r in Hu; lia|];
        destruct Hown as (a & t & Hat & Hau); destruct (spaced_apart _ _ _ _ _ _ a t Hsp); auto; unfold r in Hu; lia.
Qed.

(** *** With a system that grows the process's memory *)

Section os.
Context {W : Type} (os : forall X, sys X -> W -> X * W) (brk : W -> Z).

(** [sbrk] fails, or returns the old end of the memory, which moves up. *)
Definition sbrk_law : Prop := forall n w, 0 <= n ->
  let '(x, w') := os Z (SSbrk n) w in
  (x = -1 /\ brk w' = brk w) \/ (x = brk w /\ brk w' = brk w + n /\ brk w' < 2 ^ 32).
Hypothesis Hsbrk : sbrk_law.

Lemma inv_grow A l b b' nu :
  inv b A l -> b <= b' < 2 ^ 32 -> inv b' (Arena (set_size b nu (hdrs A)) (freep A)) l.
Proof.
  intros [Hch Hsp Hfp HB Hbrk] Hb. split; simpl; try done; try lia.
  - change (chain (set_size b nu (hdrs A)) ((BASE, 0) :: l) BASE). eapply chain_frame, Hch.
    intros a Ha. unfold set_size. apply set_hdr_ne. simpl in Ha. apply elem_of_cons in Ha as [->|Ha]; [lia|].
    apply (spaced_addr _ _ _ _ Hsp) in Ha. lia.
  - eapply spaced_weaken; [done | lia | lia].
Qed.

Lemma morecore_spec fu nu A l w :
  inv (brk w) A l -> 1 <= nu -> 8 * nu < 2 ^ 31 -> (length l + 1 < fu)%nat ->
  (exists w', run os (morecore fu nu A) w = Returned (None, A) w' /\ brk w' = brk w) \/
  (exists A' l' w', run os (morecore fu nu A) w = Returned (Some (freep A'), A') w' /\ inv (brk w') A' l' /\
     brk w <= brk w' /\ (forall u, owns l' u <-> owns l u \/ brk w <= u < brk w') /\
     (exists a s, (a, s) ∈ l' /\ nu <= s) /\ (length l' <= S (length l))%nat).
Proof.
  intros Hinv Hnu Hmax Hf. unfold morecore. set (n := if nu <? 4096 then 4096 else nu).
  assert (1 <= n /\ nu <= n /\ 8 * n < 2 ^ 31) as (Hn1 & Hn2 & Hn3) by (unfold n; case_bool; lia).
  rewrite u32_small, s32_small by lia. rewrite run_call. unfold sbrk_law in Hsbrk. specialize (Hsbrk (n * 8) w ltac:(lia)).
  destruct (os Z (SSbrk (n * 8)) w) as [x w']. cbn [fst snd]. pose proof (inv_base _ _ _ Hinv) as HB.
  destruct Hsbrk as [[-> Hb]|(-> & Hb & Hlt)]; [left; by exists w'|]. right.
  rewrite (proj2 (Z.eqb_neq (brk w) (-1))) by lia. rewrite u32_small by lia.
  assert (inv (brk w') (Arena (set_size (brk w) n (hdrs A)) (freep A)) (l ++ [])) as Hg.
  { rewrite app_nil_r. by apply inv_grow; [|lia]. }
  destruct (free_spec (brk w') _ l [] (brk w) n (h_ptr (hdrs A (brk w))) fu Hg) as (A' & l' & Hfree & Hinv' & Hown & Hbig & Hlen).
  - simpl. unfold set_size. by rewrite set_hdr_eq.
  - done.
  - lia.
  - apply Hinv.
  - simpl. lia.
  - simpl. lia.
  - exists A', l', w'. rewrite run_bind, Hfree. simpl. rewrite app_nil_r in Hown, Hlen. split_and!; try done; try lia.
    + intros u. rewrite Hown. assert (brk w <= u < brk w + 8 * n <-> brk w <= u < brk w') by lia. tauto.
    + destruct Hbig as (a & s & Hin & Hs). exists a, s. split; [done | lia].
Qed.

End os.

(** The blocks in the order in which [malloc] visits them: [freep] comes last. *)
Lemma visit_order b A l :
  inv b A l -> exists v fs, let R := v ++ [(freep A, fs)] in
    chain (hdrs A) R (nxt R 0) /\ Permutation R ((BASE, 0) :: l) /\ h_ptr (hdrs A (freep A)) = nxt R 0 /\
    freep A ∉ v.*1 /\ length v = length l.
Proof.
  intros Hinv. pose proof (inv_NoDup _ _ _ Hinv) as Hnd. pose proof Hinv as [Hch Hsp Hfp HB Hbrk].
  pose proof Hfp as ([f fs] & Hf & Hfin)%list_elem_of_fmap. simpl in Hf. apply list_elem_of_split in Hfin as (u & v & Hl).
  assert (chain (hdrs A) ((u ++ [(f, fs)]) ++ v) (nxt ((u ++ [(f, fs)]) ++ v) 0)) as Hrot.
  { rewrite <- app_assoc. simpl. rewrite <- Hl. exact Hch. }
  apply chain_rotate in Hrot. rewrite app_assoc in Hrot. exists (v ++ u), fs. rewrite Hf. cbn zeta.
  assert (Permutation ((v ++ u) ++ [(f, fs)]) ((BASE, 0) :: l)) as Hperm.
  { rewrite Hl, <- app_assoc, (Permutation_app_comm v), <- app_assoc. done. }
  split_and!; [done | done | | |].
  - assert (chain (hdrs A) (u ++ (f, fs) :: v) BASE) as Hc by (rewrite <- Hl; exact Hch). apply chain_lookup in Hc. rewrite Hc. simpl.
    assert (nxt (u ++ (f, fs) :: v) 0 = BASE) as HBa by (by rewrite <- Hl).
    destruct v as [|[c t'] v]; [|done]. simpl. destruct u as [|[c t'] u]; simpl in *; congruence.
  - rewrite <- Hperm, fmap_app in Hnd. apply list.NoDup_app in Hnd as (_ & Hd & _). intros Hin. apply (Hd _ Hin). left.
  - apply Permutation_length in Hperm. rewrite length_app in Hperm. simpl in Hperm. lia.
Qed.

(** The first block that is large enough, if there is one. *)
Lemma first_fit n (R : blocks) :
  Forall (small n) R \/ exists pre p t post, R = pre ++ (p, t) :: post /\ Forall (small n) pre /\ n <= t.
Proof.
  induction R as [|[b t] R IH]; [by left|]. destruct (decide (n <= t)) as [Hle|Hgt].
  - right. exists [], b, t, R. split_and!; try done. 
  - assert (small n (b, t)) as Hs by (unfold small; simpl; lia).
    destruct IH as [HF|(pre & p & t' & post & -> & Hsm & Ht)]; [left; by constructor|].
    right. exists ((b, t) :: pre), p, t', post. split_and!; try done. by constructor.
Qed.

(** The loop from its start: it takes the first block that fits, or comes to
    [freep] without one. *)
Lemma scan_round fu k n A l b :
  inv b A l -> 1 <= n -> (length l + 1 <= k)%nat ->
  (exists r A' l', ploop k (malloc_step fu n) (freep A, h_ptr (hdrs A (freep A)), A) = Done (r, A') /\ taken b l n r A' l') \/
  (Forall (small n) l /\ exists prev, h_size (hdrs A (freep A)) < n /\
     ploop k (malloc_step fu n) (freep A, h_ptr (hdrs A (freep A)), A) = ploop (k - length l) (malloc_step fu n) (prev, freep A, A)).
Proof.
  intros Hinv Hn Hk. destruct (visit_order _ _ _ Hinv) as (v & fs & Hch & Hperm & Hnext & Hnf & Hlen). set (R := v ++ [(freep A, fs)]) in *.
  assert (forall pre p t post, R = pre ++ (p, t) :: post -> Forall (small n) pre -> freep A ∉ pre.*1 ->
    exists prev, ploop k (malloc_step fu n) (freep A, h_ptr (hdrs A (freep A)), A) =
      ploop (k - length pre) (malloc_step fu n) (prev, p, A) /\ prev ∈ ((BASE, 0) :: l).*1 /\ h_ptr (hdrs A prev) = p /\
      h_size (hdrs A p) = t /\ (length pre < k)%nat) as Hscan.
  { intros pre p t post HR Hsm Hnp. rewrite HR in Hch, Hnext.
    assert (length pre < k)%nat as Hpk.
    { apply (f_equal length) in HR. unfold R in HR. rewrite !length_app in HR. simpl in HR. lia. }
    assert (nxt (pre ++ (p, t) :: post) (nxt (pre ++ (p, t) :: post) 0) = nxt (pre ++ (p, t) :: post) 0) as Hnn by (by destruct pre as [|[]]).
    destruct (scan fu (k - length pre) n A pre p t post _ (freep A) Hch Hsm Hnp) as (prev & Hrun & Hprev & Hptr); [by rewrite Hnn|].
    exists prev. rewrite Hnn, <- Hnext in Hrun. replace (length pre + (k - length pre))%nat with k in Hrun by lia.
    split_and!; try done.
    - rewrite <- Hperm. destruct Hprev as [->|Hprev]; [|rewrite HR, fmap_app; apply elem_of_app; by left].
      unfold R. rewrite fmap_app. apply elem_of_app. right. left.
    - apply chain_lookup in Hch. by rewrite Hch. }
  destruct (first_fit n R) as [Hall|(pre & p & t & post & HR & Hsm & Ht)].
  - right. split.
    { assert (Forall (small n) ((BASE, 0) :: l)) as Hall' by (by rewrite <- Hperm). by apply list.Forall_cons in Hall' as [_ ?]. }
    assert (Forall (small n) v) as Hv by (by apply Forall_app in Hall as [? _]).
    destruct (Hscan v (freep A) fs [] eq_refl Hv Hnf) as (prev & Hrun & _ & _ & Hsz & _). exists prev. rewrite Hrun, Hlen. split; [|done].
    rewrite Hsz. apply Forall_app in Hall as [_ Hall]. apply list.Forall_cons in Hall as [Hs _]. exact Hs.
  - left. assert (freep A ∉ pre.*1) as Hnp.
    { intros Hin. unfold R in HR. destruct post as [|x post _] using rev_ind.
      - apply app_inj_tail in HR as [-> _]. done.
      - rewrite app_comm_cons, app_assoc in HR. apply app_inj_tail in HR as [-> _]. apply Hnf. rewrite fmap_app. apply elem_of_app. by left. }
    destruct (Hscan pre p t post HR Hsm Hnp) as (prev & Hrun & Hprev & Hptr & Hsz & Hpk).
    destruct (take_spec fu b A l n prev p Hinv Hn Hprev Hptr ltac:(by rewrite Hsz)) as (r & A' & l' & Hstep & Htk).
    exists r, A', l'. split; [|done]. rewrite Hrun. destruct (k - length pre)%nat as [|k'] eqn:E; [lia|]. cbn [ploop]. by rewrite Hstep.
Qed.
End proofs.

Lemma units_eq nbytes : 0 <= nbytes < 2 ^ 31 - 16 -> units nbytes = (nbytes + 7) / 8 + 1.
Proof.
  intros Hn. unfold units. replace (nbytes + 8 - 1) with (nbytes + 7) by lia. rewrite (u32_small (nbytes + 7)) by lia.
  apply u32_small. Z.div_mod_to_equations. lia.
Qed.

(** ** Properties *)

Section properties.
Context (BASE : Z) {W : Type} (os : forall X, sys X -> W -> X * W) (brk : W -> Z).

(** The arena before the first [malloc], or later. *)
Definition ready (w : W) (A : arena) (l : blocks) : Prop :=
  inv BASE (brk w) A l \/ (freep A = 0 /\ l = [] /\ 0 < BASE < brk w /\ brk w < 2 ^ 32).

Lemma ready_start w A l :
  ready w A l -> let A := if freep A =? 0 then Arena (set_size BASE 0 (set_ptr BASE BASE (hdrs A))) BASE else A in
    inv BASE (brk w) A l.
Proof.
  intros [Hinv|(-> & -> & HB & Hb)]; simpl.
  - destruct (Z.eqb_spec (freep A) 0) as [E|]; [|done]. pose proof Hinv as [_ Hsp Hfp HB _]. exfalso. rewrite E in Hfp.
    simpl in Hfp. apply elem_of_cons in Hfp as [Hf|Hf]; [lia|]. apply (spaced_addr _ _ _ _ Hsp) in Hf. lia.
  - split; simpl; try done; [|lia|left]. split; [|done]. unfold set_size, set_ptr. rewrite !set_hdr_eq. done.
Qed.


(** [free] of an allocated block (one that overlaps no free block)
    terminates and returns exactly its bytes to the free list, which stays
    sorted and disjoint with neighbouring blocks merged. *)
Theorem free_returns w A l1 l2 ap n fuel :
  inv BASE (brk w) A (l1 ++ l2) -> h_size (hdrs A (ap - 8)) = n -> 1 <= n -> BASE < ap - 8 ->
  spaced BASE l1 (ap - 8) -> gap_above (ap - 8 + 8 * n) l2 (brk w) -> (length l1 + length l2 + 1 < fuel)%nat ->
  exists A' l', run os (free fuel ap A) w = Returned A' w /\ inv BASE (brk w) A' l' /\
    (forall u, owns l' u <-> owns (l1 ++ l2) u \/ ap - 8 <= u < ap - 8 + 8 * n).
Proof.
  intros Hinv Hsz Hn HB Hlow Hgap Hf.
  destruct (free_spec BASE (brk w) A l1 l2 (ap - 8) n (h_ptr (hdrs A (ap - 8))) fuel) as (A' & l' & Hrun & Hinv' & Hown & _); try done.
  { destruct (hdrs A (ap - 8)) as [q t] eqn:E. simpl in Hsz. by subst. }
  replace (ap - 8 + 8) with ap in Hrun by lia. exists A', l'. by rewrite Hrun.
Qed.
End properties.

(** A process of 20000 bytes that may grow to 2^20. *)
Definition grow_os (X : Type) (s : sys X) : Z -> X * Z :=
  match s in sys X return Z -> X * Z with
  | SSbrk n => fun w => if w + n <=? 2 ^ 20 then (w, w + n) else (-1, w)
  | SRead _ _ => fun w => ((-1, []), w)
  | SPipe => fun w => ((-1, (0, 0)), w)
  | SFstat _ => fun w => ((-1, Stat 0 0 0 0 0), w)
  | SWait2 => fun w => ((-1, (0, 0, 0)), w)
  | _ => fun w => (-1, w)
  end.

Lemma grow_law : sbrk_law grow_os (fun w => w).
Proof. intros n w Hn. simpl. destruct (Z.leb_spec (w + n) (2 ^ 20)); [right; lia | left; lia]. Qed.

Definition blank_arena : arena := Arena (fun _ => Hdr 0 0) 0.


(** A heap with one free block of 10 units at 20000 and one of 5 units in use
    behind it. *)
Definition small_arena : arena :=
  Arena (set_hdr 20080 (Hdr 0 5) (set_hdr 20000 (Hdr 0x2000 10) (set_hdr 0x2000 (Hdr 20000 0) (fun _ => Hdr 0 0)))) 0x2000.

Lemma free_returns_witness :
  exists A' l', run grow_os (free 10 20088 small_arena) 20120 = Returned A' 20120 /\ inv 0x2000 20120 A' l' /\
    (forall u, owns l' u <-> owns ([(20000, 10)] ++ []) u \/ 20088 - 8 <= u < 20088 - 8 + 8 * 5).
Proof.
  apply (free_returns 0x2000 grow_os (fun w => w) 20120 small_arena [(20000, 10)] [] 20088 5 10); try done; try (simpl; lia).
  split; simpl; try done; try lia. left.
Defined.

(** The size in units is computed in 32 bits: near the largest size it wraps,
    and [malloc] hands out a block without room for a single byte. *)
Theorem malloc_huge : units (2 ^ 32 - 1) = 1.
Proof. reflexivity. Qed.
