(* ===== verification/Usertests.v ===== *)
(** usertests.c: the test suite of the system calls.

    Each test is a program.  The tests share the global [buf], which they take
    and return where they use it; [name] is set before every use.  Loops whose
    length the replies of the system decide carry fuel, and [for(;;);] is a
    program without any. *)

From S2P Require Import Prelude Memory User Umalloc.

Definition stdout : Z := 1.
Definition MAXFILE : Z := 12 + 512 / 4.
Definition SIZEOF_BUF : Z := 8192.
Definition echoargv : list (list Z) := [chars "echo"; chars "ALL"; chars "TESTS"; chars "PASSED"].

(** [printf(fd, fmt, ...); exit();] with a newline at the end of the format *)
Definition die {A} (fd : Z) (fmt : string) (ap : list parg) : prog A := printl fd fmt ap ;; Exit.
Definition die_if (b : bool) (fd : Z) (fmt : string) (ap : list parg) : prog unit :=
  if b then die fd fmt ap else Done tt.

Fixpoint pfold {X S} (l : list X) (body : X -> S -> prog S) (s : S) : prog S :=
  match l with
  | [] => Done s
  | x :: l => let* s := body x s in pfold l body s
  end.

(** The first bytes of a buffer overwritten, as [read] and [memset] do. *)
Definition overwrite (bs buf : list Z) : list Z := bs ++ drop (length bs) buf.
Definition fill (c n : Z) (buf : list Z) : list Z := overwrite (repeat (u8 c) (Z.to_nat n)) buf.

(** [buf[i]], a signed [char] *)
Definition s8 (x : Z) : Z := (x + 2 ^ 7) mod 2 ^ 8 - 2 ^ 7.
Definition char_at (buf : list Z) (i : Z) : Z := s8 (nth (Z.to_nat i) buf 0).

(** [((int* )buf)[0]] *)
Definition int_of (buf : list Z) : Z :=
  s32 (nth 0 buf 0 + 2 ^ 8 * nth 1 buf 0 + 2 ^ 16 * nth 2 buf 0 + 2 ^ 24 * nth 3 buf 0).
Definition put_int (i : Z) (buf : list Z) : list Z :=
  overwrite [u8 i; u8 (i / 2 ^ 8); u8 (i / 2 ^ 16); u8 (i / 2 ^ 24)] buf.

(** A string in an array, up to its NUL. *)
Fixpoint until_nul (l : list Z) : list Z :=
  match l with
  | [] => []
  | c :: l => if c =? 0 then [] else c :: until_nul l
  end.

(** ** Tests of transactions around [iput] *)

Definition iputtest : prog unit :=
  printl stdout "iput test" [] ;;
  let* r := call (SMkdir (chars "iputdir")) in
  die_if (r <? 0) stdout "mkdir failed" [] ;;
  let* r := call (SChdir (chars "iputdir")) in
  die_if (r <? 0) stdout "chdir iputdir failed" [] ;;
  let* r := call (SUnlink (chars "../iputdir")) in
  die_if (r <? 0) stdout "unlink ../iputdir failed" [] ;;
  let* r := call (SChdir (chars "/")) in
  die_if (r <? 0) stdout "chdir / failed" [] ;;
  printl stdout "iput test ok" [].

Definition exitiputtest : prog unit :=
  printl stdout "exitiput test" [] ;;
  let* pid := call SFork in
  die_if (pid <? 0) stdout "fork failed" [] ;;
  (if pid =? 0 then
     let* r := call (SMkdir (chars "iputdir")) in
     die_if (r <? 0) stdout "mkdir failed" [] ;;
     let* r := call (SChdir (chars "iputdir")) in
     die_if (r <? 0) stdout "child chdir failed" [] ;;
     let* r := call (SUnlink (chars "../iputdir")) in
     die_if (r <? 0) stdout "unlink ../iputdir failed" [] ;;
     Exit
   else Done tt) ;;
  call SWait ;;
  printl stdout "exitiput test ok" [].

Definition openiputtest : prog unit :=
  printl stdout "openiput test" [] ;;
  let* r := call (SMkdir (chars "oidir")) in
  die_if (r <? 0) stdout "mkdir oidir failed" [] ;;
  let* pid := call SFork in
  die_if (pid <? 0) stdout "fork failed" [] ;;
  (if pid =? 0 then
     let* fd := call (SOpen (chars "oidir") O_RDWR) in
     die_if (0 <=? fd) stdout "open directory for write succeeded" [] ;;
     Exit
   else Done tt) ;;
  call (SSleep 1) ;;
  let* r := call (SUnlink (chars "oidir")) in
  die_if (negb (r =? 0)) stdout "unlink failed" [] ;;
  call SWait ;;
  printl stdout "openiput test ok" [].

(** ** Simple tests of the file system *)

Definition opentest : prog unit :=
  printl stdout "open test" [] ;;
  let* fd := call (SOpen (chars "echo") 0) in
  die_if (fd <? 0) stdout "open echo failed!" [] ;;
  call (SClose fd) ;;
  let* fd := call (SOpen (chars "doesnotexist") 0) in
  die_if (0 <=? fd) stdout "open doesnotexist succeeded!" [] ;;
  printl stdout "open test ok" [].

Definition writetest (buf : list Z) : prog (list Z) :=
  printl stdout "small file test" [] ;;
  let* fd := call (SOpen (chars "small") (Z.lor O_CREATE O_RDWR)) in
  (if 0 <=? fd then printl stdout "creat small succeeded; ok" []
   else die stdout "error: creat small failed!" []) ;;
  pfor (seqZ 0 100) (fun i =>
    let* r := call (SWrite fd (chars "aaaaaaaaaa")) in
    die_if (negb (r =? 10)) stdout "error: write aa %d new file failed" [PInt i] ;;
    let* r := call (SWrite fd (chars "bbbbbbbbbb")) in
    die_if (negb (r =? 10)) stdout "error: write bb %d new file failed" [PInt i]) ;;
  printl stdout "writes ok" [] ;;
  call (SClose fd) ;;
  let* fd := call (SOpen (chars "small") O_RDONLY) in
  (if 0 <=? fd then printl stdout "open small succeeded ok" []
   else die stdout "error: open small failed!" []) ;;
  let* ' (i, bs) := call (SRead fd 2000) in
  (if i =? 2000 then printl stdout "read succeeded ok" []
   else die stdout "read failed" []) ;;
  call (SClose fd) ;;
  let* r := call (SUnlink (chars "small")) in
  die_if (r <? 0) stdout "unlink small failed" [] ;;
  printl stdout "small file test ok" [] ;;
  Done (overwrite bs buf).

Definition writetest1 (fuel : nat) (buf : list Z) : prog (list Z) :=
  printl stdout "big files test" [] ;;
  let* fd := call (SOpen (chars "big") (Z.lor O_CREATE O_RDWR)) in
  die_if (fd <? 0) stdout "error: creat big failed!" [] ;;
  let* buf := pfold (seqZ 0 MAXFILE) (fun i buf =>
    let buf := put_int i buf in
    let* r := call (SWrite fd (take 512 buf)) in
    die_if (negb (r =? 512)) stdout "error: write big file failed" [PInt i] ;;
    Done buf) buf in
  call (SClose fd) ;;
  let* fd := call (SOpen (chars "big") O_RDONLY) in
  die_if (fd <? 0) stdout "error: open big failed!" [] ;;
  let* buf := ploop fuel (fun ' (n, buf) =>
    let* ' (i, bs) := call (SRead fd 512) in
    let buf := overwrite bs buf in
    if i =? 0 then
      (if n =? MAXFILE - 1 then printf stdout "read only %d blocks from big" [PInt n] ;; Exit
       else Done (inr buf))
    else
      die_if (negb (i =? 512)) stdout "read failed %d" [PInt i] ;;
      die_if (negb (int_of buf =? n)) stdout "read content of block %d is %d" [PInt n; PInt (int_of buf)] ;;
      Done (inl (s32 (n + 1), buf))) (0, buf) in
  call (SClose fd) ;;
  let* r := call (SUnlink (chars "big")) in
  die_if (r <? 0) stdout "unlink big failed" [] ;;
  printl stdout "big files ok" [] ;;
  Done buf.

Definition createtest : prog unit :=
  printl stdout "many creates, followed by unlink test" [] ;;
  pfor (seqZ 0 52) (fun i =>
    let* fd := call (SOpen [97; 48 + i] (Z.lor O_CREATE O_RDWR)) in
    call (SClose fd) ;;
    Done tt) ;;
  pfor (seqZ 0 52) (fun i => call (SUnlink [97; 48 + i]) ;; Done tt) ;;
  printl stdout "many creates, followed by unlink; ok" [].

Definition dirtest : prog unit :=
  printl stdout "mkdir test" [] ;;
  let* r := call (SMkdir (chars "dir0")) in
  die_if (r <? 0) stdout "mkdir failed" [] ;;
  let* r := call (SChdir (chars "dir0")) in
  die_if (r <? 0) stdout "chdir dir0 failed" [] ;;
  let* r := call (SChdir (chars "..")) in
  die_if (r <? 0) stdout "chdir .. failed" [] ;;
  let* r := call (SUnlink (chars "dir0")) in
  die_if (r <? 0) stdout "unlink dir0 failed" [] ;;
  printl stdout "mkdir test ok" [].

Definition exectest : prog unit :=
  printl stdout "exec test" [] ;;
  let* r := call (SExec (chars "echo") echoargv) in
  die_if (r <? 0) stdout "exec echo failed" [].

(** ** Processes and pipes *)

(** [for(;;);] *)
Definition forever {A} : prog A := NoFuel.

(** A loop that the body leaves with [return] when it gives [true]. *)
Fixpoint pfor_until {X} (l : list X) (body : X -> prog bool) : prog bool :=
  match l with
  | [] => Done false
  | x :: l => let* stop := body x in if stop then Done true else pfor_until l body
  end.

Definition pipe1 (fuel : nat) (buf : list Z) : prog (list Z) :=
  let* ' (r, (fd0, fd1)) := call SPipe in
  die_if (negb (r =? 0)) 1 "pipe() failed" [] ;;
  let* pid := call SFork in
  if pid =? 0 then
    call (SClose fd0) ;;
    pfold (seqZ 0 5) (fun _ ' (seq, buf) =>
      let buf := overwrite ((fun i => u8 (seq + i)) <$> seqZ 0 1033) buf in
      let* r := call (SWrite fd1 (take 1033 buf)) in
      die_if (negb (r =? 1033)) 1 "pipe1 oops 1" [] ;;
      Done (seq + 1033, buf)) (0, buf) ;;
    Exit
  else if 0 <? pid then
    call (SClose fd1) ;;
    let* ' (read_all, buf) := ploop fuel (fun ' (cc, total, seq, buf) =>
      let* ' (n, bs) := call (SRead fd0 cc) in
      let buf := overwrite bs buf in
      if 0 <? n then
        if forallb (fun i => Z.land (char_at buf i) 0xff =? Z.land (seq + i) 0xff) (seqZ 0 n) then
          let cc := s32 (cc * 2) in
          let cc := if SIZEOF_BUF <? u32 cc then SIZEOF_BUF else cc in
          Done (inl (cc, s32 (total + n), s32 (seq + n), buf))
        else
          printl 1 "pipe1 oops 2" [] ;;
          Done (inr (None, buf))
      else Done (inr (Some total, buf))) (1, 0, 0, buf) in
    match read_all with
    | None => Done buf
    | Some total =>
        die_if (negb (total =? 5 * 1033)) 1 "pipe1 oops 3 total %d" [PInt total] ;;
        call (SClose fd0) ;;
        call SWait ;;
        printl 1 "pipe1 ok" [] ;;
        Done buf
    end
  else die 1 "fork() failed" [].

Definition preempt (buf : list Z) : prog (list Z) :=
  printf 1 "preempt: " [] ;;
  let* pid1 := call SFork in
  pwhen (pid1 =? 0) forever ;;
  let* pid2 := call SFork in
  pwhen (pid2 =? 0) forever ;;
  let* ' (_, (pfd0, pfd1)) := call SPipe in
  let* pid3 := call SFork in
  pwhen (pid3 =? 0) (
    call (SClose pfd0) ;;
    let* r := call (SWrite pfd1 (chars "x")) in
    pwhen (negb (r =? 1)) (printf 1 "preempt write error" []) ;;
    call (SClose pfd1) ;;
    forever) ;;
  call (SClose pfd1) ;;
  let* ' (r, bs) := call (SRead pfd0 SIZEOF_BUF) in
  let buf := overwrite bs buf in
  if negb (r =? 1) then
    printf 1 "preempt read error" [] ;;
    Done buf
  else
    call (SClose pfd0) ;;
    printf 1 "kill... " [] ;;
    call (SKill pid1) ;;
    call (SKill pid2) ;;
    call (SKill pid3) ;;
    printf 1 "wait... " [] ;;
    call SWait ;;
    call SWait ;;
    call SWait ;;
    printl 1 "preempt ok" [] ;;
    Done buf.

Definition exitwait : prog unit :=
  let* stop := pfor_until (seqZ 0 100) (fun _ =>
    let* pid := call SFork in
    if pid <? 0 then
      printl 1 "fork failed" [] ;;
      Done true
    else if truthy pid then
      let* w := call SWait in
      if negb (w =? pid) then
        printl 1 "wait wrong pid" [] ;;
        Done true
      else Done false
    else Exit) in
  if stop then Done tt else printl 1 "exitwait ok" [].

(** [BASE] is the address of the allocator's static [base]; [next] holds the
    pointers stored in the blocks. *)
Definition mem (BASE : Z) (fuel : nat) : prog unit :=
  printl 1 "mem test" [] ;;
  let* ppid := call SGetpid in
  let* pid := call SFork in
  if pid =? 0 then
    let* ' (m1, next, A) := ploop fuel (fun ' (m1, next, A) =>
      let* ' (m2, A) := malloc BASE fuel 10001 A in
      if m2 =? 0 then Done (inr (m1, next, A))
      else Done (inl (m2, (fun x => if x =? m2 then m1 else next x), A)))
      (0, (fun _ => 0), Arena (fun _ => Hdr 0 0) 0) in
    let* A := ploop fuel (fun ' (m1, A) =>
      if m1 =? 0 then Done (inr A)
      else
        let m2 := next m1 in
        let* A := free fuel m1 A in
        Done (inl (m2, A))) (m1, A) in
    let* ' (m1, A) := malloc BASE fuel (1024 * 20) A in
    (if m1 =? 0 then
       printl 1 "couldn't allocate mem?!!" [] ;;
       call (SKill ppid) ;;
       Exit
     else Done tt) ;;
    free fuel m1 A ;;
    printl 1 "mem ok" [] ;;
    Exit
  else
    call SWait ;;
    Done tt.

(** ** More tests of the file system *)

Definition count_char (c : Z) (buf : list Z) : Z :=
  Z.of_nat (length (filter (fun b => b = c) buf)).

(** Every round counts the ten bytes of the buffer, read or not. *)
Definition sharedfd (fuel : nat) : prog unit :=
  printl 1 "sharedfd test" [] ;;
  call (SUnlink (chars "sharedfd")) ;;
  let* fd := call (SOpen (chars "sharedfd") (Z.lor O_CREATE O_RDWR)) in
  if fd <? 0 then printf 1 "fstests: cannot open sharedfd for writing" [] else
  let* pid := call SFork in
  let buf := repeat (if pid =? 0 then 99 else 112) 10 in
  pfor_until (seqZ 0 1000) (fun _ =>
    let* r := call (SWrite fd buf) in
    if negb (r =? 10) then
      printl 1 "fstests: write sharedfd failed" [] ;;
      Done true
    else Done false) ;;
  (if pid =? 0 then Exit else call SWait ;; Done tt) ;;
  call (SClose fd) ;;
  let* fd := call (SOpen (chars "sharedfd") 0) in
  if fd <? 0 then printl 1 "fstests: cannot open sharedfd for reading" [] else
  let* ' (nc, np) := ploop fuel (fun ' (nc, np, buf) =>
    let* ' (n, bs) := call (SRead fd 10) in
    let buf := overwrite bs buf in
    if 0 <? n then Done (inl (s32 (nc + count_char 99 buf), s32 (np + count_char 112 buf), buf))
    else Done (inr (nc, np))) (0, 0, buf) in
  call (SClose fd) ;;
  call (SUnlink (chars "sharedfd")) ;;
  if (nc =? 10000) && (np =? 10000) then printl 1 "sharedfd ok" []
  else die 1 "sharedfd oops %d %d" [PInt nc; PInt np].

Definition fourfiles (fuel : nat) (buf : list Z) : prog (list Z) :=
  let names := [chars "f0"; chars "f1"; chars "f2"; chars "f3"] in
  printl 1 "fourfiles test" [] ;;
  pfor (seqZ 0 4) (fun pi =>
    let fname := nth (Z.to_nat pi) names [] in
    call (SUnlink fname) ;;
    let* pid := call SFork in
    die_if (pid <? 0) 1 "fork failed" [] ;;
    pwhen (pid =? 0) (
      let* fd := call (SOpen fname (Z.lor O_CREATE O_RDWR)) in
      die_if (fd <? 0) 1 "create failed" [] ;;
      let buf := fill (48 + pi) 512 buf in
      pfor (seqZ 0 12) (fun _ =>
        let* n := call (SWrite fd (take 500 buf)) in
        die_if (negb (n =? 500)) 1 "write failed %d" [PInt n]) ;;
      Exit)) ;;
  pfor (seqZ 0 4) (fun _ => call SWait ;; Done tt) ;;
  let* buf := pfold (seqZ 0 2) (fun i buf =>
    let fname := nth (Z.to_nat i) names [] in
    let* fd := call (SOpen fname 0) in
    let* ' (total, buf) := ploop fuel (fun ' (total, buf) =>
      let* ' (n, bs) := call (SRead fd SIZEOF_BUF) in
      let buf := overwrite bs buf in
      if 0 <? n then
        die_if (negb (forallb (fun j => char_at buf j =? 48 + i) (seqZ 0 n))) 1 "wrong char" [] ;;
        Done (inl (s32 (total + n), buf))
      else Done (inr (total, buf))) (0, buf) in
    call (SClose fd) ;;
    die_if (negb (total =? 12 * 500)) 1 "wrong length %d" [PInt total] ;;
    call (SUnlink fname) ;;
    Done buf) buf in
  printl 1 "fourfiles ok" [] ;;
  Done buf.

(** The names are ['p' + pi] and ['0' + i]; the last loop writes ['p' + i]. *)
Definition createdelete : prog unit :=
  let N := 20 in
  printl 1 "createdelete test" [] ;;
  pfor (seqZ 0 4) (fun pi =>
    let* pid := call SFork in
    die_if (pid <? 0) 1 "fork failed" [] ;;
    pwhen (pid =? 0) (
      pfor (seqZ 0 N) (fun i =>
        let* fd := call (SOpen [112 + pi; 48 + i] (Z.lor O_CREATE O_RDWR)) in
        die_if (fd <? 0) 1 "create failed" [] ;;
        call (SClose fd) ;;
        pwhen ((0 <? i) && (i mod 2 =? 0)) (
          let* r := call (SUnlink [112 + pi; 48 + i / 2]) in
          die_if (r <? 0) 1 "unlink failed" [])) ;;
      Exit)) ;;
  pfor (seqZ 0 4) (fun _ => call SWait ;; Done tt) ;;
  pfor (seqZ 0 N) (fun i =>
    pfor (seqZ 0 4) (fun pi =>
      let name := [112 + pi; 48 + i] in
      let* fd := call (SOpen name 0) in
      (if ((i =? 0) || (N / 2 <=? i)) && (fd <? 0) then
         die 1 "oops createdelete %s didn't exist" [PStr (Some name)]
       else if ((1 <=? i) && (i <? N / 2)) && (0 <=? fd) then
         die 1 "oops createdelete %s did exist" [PStr (Some name)]
       else Done tt) ;;
      pwhen (0 <=? fd) (call (SClose fd) ;; Done tt))) ;;
  pfor (seqZ 0 N) (fun i =>
    pfor (seqZ 0 4) (fun _ => call (SUnlink [u8 (112 + i); 48 + i]) ;; Done tt)) ;;
  printl 1 "createdelete ok" [].

Definition unlinkread (buf : list Z) : prog (list Z) :=
  printl 1 "unlinkread test" [] ;;
  let* fd := call (SOpen (chars "unlinkread") (Z.lor O_CREATE O_RDWR)) in
  die_if (fd <? 0) 1 "create unlinkread failed" [] ;;
  call (SWrite fd (chars "hello")) ;;
  call (SClose fd) ;;
  let* fd := call (SOpen (chars "unlinkread") O_RDWR) in
  die_if (fd <? 0) 1 "open unlinkread failed" [] ;;
  let* r := call (SUnlink (chars "unlinkread")) in
  die_if (negb (r =? 0)) 1 "unlink unlinkread failed" [] ;;
  let* fd1 := call (SOpen (chars "unlinkread") (Z.lor O_CREATE O_RDWR)) in
  call (SWrite fd1 (chars "yyy")) ;;
  call (SClose fd1) ;;
  let* ' (r, bs) := call (SRead fd SIZEOF_BUF) in
  let buf := overwrite bs buf in
  (if negb (r =? 5) then printf 1 "unlinkread read failed" [] ;; Exit else Done tt) ;;
  die_if (negb (char_at buf 0 =? 104)) 1 "unlinkread wrong data" [] ;;
  let* r := call (SWrite fd (take 10 buf)) in
  die_if (negb (r =? 10)) 1 "unlinkread write failed" [] ;;
  call (SClose fd) ;;
  call (SUnlink (chars "unlinkread")) ;;
  printl 1 "unlinkread ok" [] ;;
  Done buf.

Definition linktest (buf : list Z) : prog (list Z) :=
  printl 1 "linktest" [] ;;
  call (SUnlink (chars "lf1")) ;;
  call (SUnlink (chars "lf2")) ;;
  let* fd := call (SOpen (chars "lf1") (Z.lor O_CREATE O_RDWR)) in
  die_if (fd <? 0) 1 "create lf1 failed" [] ;;
  let* r := call (SWrite fd (chars "hello")) in
  die_if (negb (r =? 5)) 1 "write lf1 failed" [] ;;
  call (SClose fd) ;;
  let* r := call (SLink (chars "lf1") (chars "lf2")) in
  die_if (r <? 0) 1 "link lf1 lf2 failed" [] ;;
  call (SUnlink (chars "lf1")) ;;
  let* r := call (SOpen (chars "lf1") 0) in
  die_if (0 <=? r) 1 "unlinked lf1 but it is still there!" [] ;;
  let* fd := call (SOpen (chars "lf2") 0) in
  die_if (fd <? 0) 1 "open lf2 failed" [] ;;
  let* ' (r, bs) := call (SRead fd SIZEOF_BUF) in
  die_if (negb (r =? 5)) 1 "read lf2 failed" [] ;;
  call (SClose fd) ;;
  let* r := call (SLink (chars "lf2") (chars "lf2")) in
  die_if (0 <=? r) 1 "link lf2 lf2 succeeded! oops" [] ;;
  call (SUnlink (chars "lf2")) ;;
  let* r := call (SLink (chars "lf2") (chars "lf1")) in
  die_if (0 <=? r) 1 "link non-existant succeeded! oops" [] ;;
  let* r := call (SLink (chars ".") (chars "lf1")) in
  die_if (0 <=? r) 1 "link . lf1 succeeded! oops" [] ;;
  printl 1 "linktest ok" [] ;;
  Done (overwrite bs buf).

Definition close_open (path : list Z) (mode : Z) : prog unit :=
  let* fd := call (SOpen path mode) in
  call (SClose fd) ;;
  Done tt.

(** One entry of the directory, in the local [de], against the names seen. *)
Definition concreate_entry (de : list Z) (n : Z) (fa : list bool) : prog (Z * list bool) :=
  let inum := nth 0 de 0 + 2 ^ 8 * nth 1 de 0 in
  let name := drop 2 de in
  if inum =? 0 then Done (n, fa)
  else if (nth 0 name 0 =? 67) && (nth 2 name 0 =? 0) then
    let i := char_at name 1 - 48 in
    die_if ((i <? 0) || (40 <=? i)) 1 "concreate weird file %s" [PStr (Some (until_nul name))] ;;
    die_if (nth (Z.to_nat i) fa false) 1 "concreate duplicate file %s" [PStr (Some (until_nul name))] ;;
    Done (s32 (n + 1), <[Z.to_nat i := true]> fa)
  else Done (n, fa).

(** [de] is the local entry before it is first read into. *)
Definition concreate (fuel : nat) (de : list Z) : prog unit :=
  printl 1 "concreate test" [] ;;
  pfor (seqZ 0 40) (fun i =>
    let file := [67; 48 + i] in
    call (SUnlink file) ;;
    let* pid := call SFork in
    (if truthy pid && (i mod 3 =? 1) then call (SLink (chars "C0") file) ;; Done tt
     else if (pid =? 0) && (i mod 5 =? 1) then call (SLink (chars "C0") file) ;; Done tt
     else
       let* fd := call (SOpen file (Z.lor O_CREATE O_RDWR)) in
       die_if (fd <? 0) 1 "concreate create %s failed" [PStr (Some file)] ;;
       call (SClose fd) ;;
       Done tt) ;;
    if pid =? 0 then Exit else call SWait ;; Done tt) ;;
  let* fd := call (SOpen (chars ".") 0) in
  let* n := ploop fuel (fun ' (n, fa, de) =>
    let* ' (r, bs) := call (SRead fd 16) in
    let de := overwrite bs de in
    if 0 <? r then
      let* ' (n, fa) := concreate_entry de n fa in
      Done (inl (n, fa, de))
    else Done (inr n)) (0, repeat false 40, de) in
  call (SClose fd) ;;
  die_if (negb (n =? 40)) 1 "concreate not enough files in directory listing" [] ;;
  pfor (seqZ 0 40) (fun i =>
    let file := [67; 48 + i] in
    let* pid := call SFork in
    die_if (pid <? 0) 1 "fork failed" [] ;;
    (if ((i mod 3 =? 0) && (pid =? 0)) || ((i mod 3 =? 1) && negb (pid =? 0)) then
       pfor (seq 0 4) (fun _ => close_open file 0)
     else pfor (seq 0 4) (fun _ => call (SUnlink file) ;; Done tt)) ;;
    if pid =? 0 then Exit else call SWait ;; Done tt) ;;
  printl 1 "concreate ok" [].

Definition linkunlink : prog unit :=
  printl 1 "linkunlink test" [] ;;
  call (SUnlink (chars "x")) ;;
  let* pid := call SFork in
  die_if (pid <? 0) 1 "fork failed" [] ;;
  pfold (seqZ 0 100) (fun _ x =>
    let x := u32 (x * 1103515245 + 12345) in
    (if x mod 3 =? 0 then close_open (chars "x") (Z.lor O_RDWR O_CREATE)
     else if x mod 3 =? 1 then call (SLink (chars "cat") (chars "x")) ;; Done tt
     else call (SUnlink (chars "x")) ;; Done tt) ;;
    Done x) (if truthy pid then 1 else 97) ;;
  (if truthy pid then call SWait ;; Done tt else Exit) ;;
  printl 1 "linkunlink ok" [].

Definition bigdir : prog unit :=
  printl 1 "bigdir test" [] ;;
  call (SUnlink (chars "bd")) ;;
  let* fd := call (SOpen (chars "bd") O_CREATE) in
  die_if (fd <? 0) 1 "bigdir create failed" [] ;;
  call (SClose fd) ;;
  pfor (seqZ 0 500) (fun i =>
    let* r := call (SLink (chars "bd") [120; 48 + i / 64; 48 + i mod 64]) in
    die_if (negb (r =? 0)) 1 "bigdir link failed" []) ;;
  call (SUnlink (chars "bd")) ;;
  pfor (seqZ 0 500) (fun i =>
    let* r := call (SUnlink [120; 48 + i / 64; 48 + i mod 64]) in
    if negb (r =? 0) then printf 1 "bigdir unlink failed" [] ;; Exit else Done tt) ;;
  printl 1 "bigdir ok" [].

(** The first part of [subdir]: two directories and their files. *)
Definition subdir_build (buf : list Z) : prog (list Z) :=
  printl 1 "subdir test" [] ;;
  call (SUnlink (chars "ff")) ;;
  let* r := call (SMkdir (chars "dd")) in
  die_if (negb (r =? 0)) 1 "subdir mkdir dd failed" [] ;;
  let* fd := call (SOpen (chars "dd/ff") (Z.lor O_CREATE O_RDWR)) in
  die_if (fd <? 0) 1 "create dd/ff failed" [] ;;
  call (SWrite fd (chars "ff")) ;;
  call (SClose fd) ;;
  let* r := call (SUnlink (chars "dd")) in
  die_if (0 <=? r) 1 "unlink dd (non-empty dir) succeeded!" [] ;;
  let* r := call (SMkdir (chars "/dd/dd")) in
  die_if (negb (r =? 0)) 1 "subdir mkdir dd/dd failed" [] ;;
  let* fd := call (SOpen (chars "dd/dd/ff") (Z.lor O_CREATE O_RDWR)) in
  die_if (fd <? 0) 1 "create dd/dd/ff failed" [] ;;
  call (SWrite fd (chars "FF")) ;;
  call (SClose fd) ;;
  let* fd := call (SOpen (chars "dd/dd/../ff") 0) in
  die_if (fd <? 0) 1 "open dd/dd/../ff failed" [] ;;
  let* ' (cc, bs) := call (SRead fd SIZEOF_BUF) in
  let buf := overwrite bs buf in
  die_if (negb (cc =? 2) || negb (char_at buf 0 =? 102)) 1 "dd/dd/../ff wrong content" [] ;;
  call (SClose fd) ;;
  let* r := call (SLink (chars "dd/dd/ff") (chars "dd/dd/ffff")) in
  die_if (negb (r =? 0)) 1 "link dd/dd/ff dd/dd/ffff failed" [] ;;
  let* r := call (SUnlink (chars "dd/dd/ff")) in
  die_if (negb (r =? 0)) 1 "unlink dd/dd/ff failed" [] ;;
  let* r := call (SOpen (chars "dd/dd/ff") O_RDONLY) in
  die_if (0 <=? r) 1 "open (unlinked) dd/dd/ff succeeded" [] ;;
  Done buf.

(** The second part: moving about with dots. *)
Definition subdir_move (buf : list Z) : prog (list Z) :=
  let* r := call (SChdir (chars "dd")) in
  die_if (negb (r =? 0)) 1 "chdir dd failed" [] ;;
  let* r := call (SChdir (chars "dd/../../dd")) in
  die_if (negb (r =? 0)) 1 "chdir dd/../../dd failed" [] ;;
  let* r := call (SChdir (chars "dd/../../../dd")) in
  die_if (negb (r =? 0)) 1 "chdir dd/../../dd failed" [] ;;
  let* r := call (SChdir (chars "./..")) in
  die_if (negb (r =? 0)) 1 "chdir ./.. failed" [] ;;
  let* fd := call (SOpen (chars "dd/dd/ffff") 0) in
  die_if (fd <? 0) 1 "open dd/dd/ffff failed" [] ;;
  let* ' (r, bs) := call (SRead fd SIZEOF_BUF) in
  let buf := overwrite bs buf in
  die_if (negb (r =? 2)) 1 "read dd/dd/ffff wrong len" [] ;;
  call (SClose fd) ;;
  Done buf.

(** The third part: what has to be refused. *)
Definition subdir_refused : prog unit :=
  let* r := call (SOpen (chars "dd/dd/ff") O_RDONLY) in
  die_if (0 <=? r) 1 "open (unlinked) dd/dd/ff succeeded!" [] ;;
  let* r := call (SOpen (chars "dd/ff/ff") (Z.lor O_CREATE O_RDWR)) in
  die_if (0 <=? r) 1 "create dd/ff/ff succeeded!" [] ;;
  let* r := call (SOpen (chars "dd/xx/ff") (Z.lor O_CREATE O_RDWR)) in
  die_if (0 <=? r) 1 "create dd/xx/ff succeeded!" [] ;;
  let* r := call (SOpen (chars "dd") O_CREATE) in
  die_if (0 <=? r) 1 "create dd succeeded!" [] ;;
  let* r := call (SOpen (chars "dd") O_RDWR) in
  die_if (0 <=? r) 1 "open dd rdwr succeeded!" [] ;;
  let* r := call (SOpen (chars "dd") O_WRONLY) in
  die_if (0 <=? r) 1 "open dd wronly succeeded!" [] ;;
  let* r := call (SLink (chars "dd/ff/ff") (chars "dd/dd/xx")) in
  die_if (r =? 0) 1 "link dd/ff/ff dd/dd/xx succeeded!" [] ;;
  let* r := call (SLink (chars "dd/xx/ff") (chars "dd/dd/xx")) in
  die_if (r =? 0) 1 "link dd/xx/ff dd/dd/xx succeeded!" [] ;;
  let* r := call (SLink (chars "dd/ff") (chars "dd/dd/ffff")) in
  die_if (r =? 0) 1 "link dd/ff dd/dd/ffff succeeded!" [] ;;
  let* r := call (SMkdir (chars "dd/ff/ff")) in
  die_if (r =? 0) 1 "mkdir dd/ff/ff succeeded!" [] ;;
  let* r := call (SMkdir (chars "dd/xx/ff")) in
  die_if (r =? 0) 1 "mkdir dd/xx/ff succeeded!" [] ;;
  let* r := call (SMkdir (chars "dd/dd/ffff")) in
  die_if (r =? 0) 1 "mkdir dd/dd/ffff succeeded!" [] ;;
  let* r := call (SUnlink (chars "dd/xx/ff")) in
  die_if (r =? 0) 1 "unlink dd/xx/ff succeeded!" [] ;;
  let* r := call (SUnlink (chars "dd/ff/ff")) in
  die_if (r =? 0) 1 "unlink dd/ff/ff succeeded!" [] ;;
  let* r := call (SChdir (chars "dd/ff")) in
  die_if (r =? 0) 1 "chdir dd/ff succeeded!" [] ;;
  let* r := call (SChdir (chars "dd/xx")) in
  die_if (r =? 0) 1 "chdir dd/xx succeeded!" [].

Definition subdir (buf : list Z) : prog (list Z) :=
  let* buf := subdir_build buf in
  let* buf := subdir_move buf in
  subdir_refused ;;
  let* r := call (SUnlink (chars "dd/dd/ffff")) in
  die_if (negb (r =? 0)) 1 "unlink dd/dd/ff failed" [] ;;
  let* r := call (SUnlink (chars "dd/ff")) in
  die_if (negb (r =? 0)) 1 "unlink dd/ff failed" [] ;;
  let* r := call (SUnlink (chars "dd")) in
  die_if (r =? 0) 1 "unlink non-empty dd succeeded!" [] ;;
  let* r := call (SUnlink (chars "dd/dd")) in
  die_if (r <? 0) 1 "unlink dd/dd failed" [] ;;
  let* r := call (SUnlink (chars "dd")) in
  die_if (r <? 0) 1 "unlink dd failed" [] ;;
  printl 1 "subdir ok" [] ;;
  Done buf.

(** The sizes of [bigwrite]: 499, 970, ... below [12 * 512]. *)
Definition bigwrite_sizes : list Z := (fun j => 499 + 471 * j) <$> seqZ 0 12.

Definition bigwrite (buf : list Z) : prog unit :=
  printl 1 "bigwrite test" [] ;;
  call (SUnlink (chars "bigwrite")) ;;
  pfor bigwrite_sizes (fun sz =>
    let* fd := call (SOpen (chars "bigwrite") (Z.lor O_CREATE O_RDWR)) in
    die_if (fd <? 0) 1 "cannot create bigwrite" [] ;;
    pfor (seqZ 0 2) (fun _ =>
      let* cc := call (SWrite fd (take (Z.to_nat sz) buf)) in
      die_if (negb (cc =? sz)) 1 "write(%d) ret %d" [PInt sz; PInt cc]) ;;
    call (SClose fd) ;;
    call (SUnlink (chars "bigwrite")) ;;
    Done tt) ;;
  printl 1 "bigwrite ok" [].

Definition bigfile (fuel : nat) (buf : list Z) : prog (list Z) :=
  printl 1 "bigfile test" [] ;;
  call (SUnlink (chars "bigfile")) ;;
  let* fd := call (SOpen (chars "bigfile") (Z.lor O_CREATE O_RDWR)) in
  (if fd <? 0 then printf 1 "cannot create bigfile" [] ;; Exit else Done tt) ;;
  let* buf := pfold (seqZ 0 20) (fun i buf =>
    let buf := fill i 600 buf in
    let* r := call (SWrite fd (take 600 buf)) in
    die_if (negb (r =? 600)) 1 "write bigfile failed" [] ;;
    Done buf) buf in
  call (SClose fd) ;;
  let* fd := call (SOpen (chars "bigfile") 0) in
  die_if (fd <? 0) 1 "cannot open bigfile" [] ;;
  let* ' (total, buf) := ploop fuel (fun ' (i, total, buf) =>
    let* ' (cc, bs) := call (SRead fd 300) in
    let buf := overwrite bs buf in
    die_if (cc <? 0) 1 "read bigfile failed" [] ;;
    if cc =? 0 then Done (inr (total, buf)) else
    die_if (negb (cc =? 300)) 1 "short read bigfile" [] ;;
    die_if (negb (char_at buf 0 =? Z.quot i 2) || negb (char_at buf 299 =? Z.quot i 2)) 1 "read bigfile wrong data" [] ;;
    Done (inl (s32 (i + 1), s32 (total + cc), buf))) (0, 0, buf) in
  call (SClose fd) ;;
  die_if (negb (total =? 20 * 600)) 1 "read bigfile wrong total" [] ;;
  call (SUnlink (chars "bigfile")) ;;
  printl 1 "bigfile test ok" [] ;;
  Done buf.

Definition fourteen : prog unit :=
  printl 1 "fourteen test" [] ;;
  let* r := call (SMkdir (chars "12345678901234")) in
  die_if (negb (r =? 0)) 1 "mkdir 12345678901234 failed" [] ;;
  let* r := call (SMkdir (chars "12345678901234/123456789012345")) in
  die_if (negb (r =? 0)) 1 "mkdir 12345678901234/123456789012345 failed" [] ;;
  let* fd := call (SOpen (chars "123456789012345/123456789012345/123456789012345") O_CREATE) in
  die_if (fd <? 0) 1 "create 123456789012345/123456789012345/123456789012345 failed" [] ;;
  call (SClose fd) ;;
  let* fd := call (SOpen (chars "12345678901234/12345678901234/12345678901234") 0) in
  die_if (fd <? 0) 1 "open 12345678901234/12345678901234/12345678901234 failed" [] ;;
  call (SClose fd) ;;
  let* r := call (SMkdir (chars "12345678901234/12345678901234")) in
  die_if (r =? 0) 1 "mkdir 12345678901234/12345678901234 succeeded!" [] ;;
  let* r := call (SMkdir (chars "123456789012345/12345678901234")) in
  die_if (r =? 0) 1 "mkdir 12345678901234/123456789012345 succeeded!" [] ;;
  printl 1 "fourteen ok" [].

Definition rmdot : prog unit :=
  printl 1 "rmdot test" [] ;;
  let* r := call (SMkdir (chars "dots")) in
  die_if (negb (r =? 0)) 1 "mkdir dots failed" [] ;;
  let* r := call (SChdir (chars "dots")) in
  die_if (negb (r =? 0)) 1 "chdir dots failed" [] ;;
  let* r := call (SUnlink (chars ".")) in
  die_if (r =? 0) 1 "rm . worked!" [] ;;
  let* r := call (SUnlink (chars "..")) in
  die_if (r =? 0) 1 "rm .. worked!" [] ;;
  let* r := call (SChdir (chars "/")) in
  die_if (negb (r =? 0)) 1 "chdir / failed" [] ;;
  let* r := call (SUnlink (chars "dots/.")) in
  die_if (r =? 0) 1 "unlink dots/. worked!" [] ;;
  let* r := call (SUnlink (chars "dots/..")) in
  die_if (r =? 0) 1 "unlink dots/.. worked!" [] ;;
  let* r := call (SUnlink (chars "dots")) in
  die_if (negb (r =? 0)) 1 "unlink dots failed!" [] ;;
  printl 1 "rmdot ok" [].

Definition dirfile : prog unit :=
  printl 1 "dir vs file" [] ;;
  let* fd := call (SOpen (chars "dirfile") O_CREATE) in
  die_if (fd <? 0) 1 "create dirfile failed" [] ;;
  call (SClose fd) ;;
  let* r := call (SChdir (chars "dirfile")) in
  die_if (r =? 0) 1 "chdir dirfile succeeded!" [] ;;
  let* fd := call (SOpen (chars "dirfile/xx") 0) in
  die_if (0 <=? fd) 1 "create dirfile/xx succeeded!" [] ;;
  let* fd := call (SOpen (chars "dirfile/xx") O_CREATE) in
  die_if (0 <=? fd) 1 "create dirfile/xx succeeded!" [] ;;
  let* r := call (SMkdir (chars "dirfile/xx")) in
  die_if (r =? 0) 1 "mkdir dirfile/xx succeeded!" [] ;;
  let* r := call (SUnlink (chars "dirfile/xx")) in
  die_if (r =? 0) 1 "unlink dirfile/xx succeeded!" [] ;;
  let* r := call (SLink (chars "README") (chars "dirfile/xx")) in
  die_if (r =? 0) 1 "link to dirfile/xx succeeded!" [] ;;
  let* r := call (SUnlink (chars "dirfile")) in
  die_if (negb (r =? 0)) 1 "unlink dirfile failed!" [] ;;
  let* fd := call (SOpen (chars ".") O_RDWR) in
  die_if (0 <=? fd) 1 "open . for writing succeeded!" [] ;;
  let* fd := call (SOpen (chars ".") 0) in
  let* r := call (SWrite fd (chars "x")) in
  die_if (0 <? r) 1 "write . succeeded!" [] ;;
  call (SClose fd) ;;
  printl 1 "dir vs file OK" [].

Definition iref : prog unit :=
  printl 1 "empty file name" [] ;;
  pfor (seqZ 0 (50 + 1)) (fun _ =>
    let* r := call (SMkdir (chars "irefd")) in
    die_if (negb (r =? 0)) 1 "mkdir irefd failed" [] ;;
    let* r := call (SChdir (chars "irefd")) in
    die_if (negb (r =? 0)) 1 "chdir irefd failed" [] ;;
    call (SMkdir []) ;;
    call (SLink (chars "README") []) ;;
    let* fd := call (SOpen [] O_CREATE) in
    pwhen (0 <=? fd) (call (SClose fd) ;; Done tt) ;;
    let* fd := call (SOpen (chars "xx") O_CREATE) in
    pwhen (0 <=? fd) (call (SClose fd) ;; Done tt) ;;
    call (SUnlink (chars "xx")) ;;
    Done tt) ;;
  call (SChdir (chars "/")) ;;
  printl 1 "empty file name OK" [].

(** ** Running out of processes and memory *)

(** [n] counts the children until [fork] fails. *)
Definition forktest : prog unit :=
  printl 1 "fork test" [] ;;
  let* n := ploop 1001 (fun n =>
    if n <? 1000 then
      let* pid := call SFork in
      if pid <? 0 then Done (inr n) else
      if pid =? 0 then Exit else
      Done (inl (n + 1))
    else Done (inr n)) 0 in
  die_if (n =? 1000) 1 "fork claimed to work 1000 times!" [] ;;
  pfor (seqZ 0 n) (fun _ =>
    let* r := call SWait in
    die_if (r <? 0) 1 "wait stopped early" []) ;;
  let* r := call SWait in
  die_if (negb (r =? -1)) 1 "wait got too many" [] ;;
  printl 1 "fork test OK" [].

Definition BIG : Z := 100 * 1024 * 1024.
Definition KERNBASE : Z := 0x80000000.

(** [sbrk(n)], whose result is a pointer *)
Definition sbrk (n : Z) : prog Z :=
  let* r := call (SSbrk (s32 n)) in
  Done (u32 r).

(** The first part of [sbrktest]: growing by one byte, then to 100 MB. *)
Definition sbrk_grow : prog unit :=
  let* a := sbrk 0 in
  let* a := pfold (seqZ 0 5000) (fun i a =>
    let* b := sbrk 1 in
    die_if (negb (b =? a)) stdout "sbrk test failed %d %x %x" [PInt i; PInt a; PInt b] ;;
    call (SStore b 1) ;;
    Done (u32 (b + 1))) a in
  let* pid := call SFork in
  die_if (pid <? 0) stdout "sbrk test fork failed" [] ;;
  sbrk 1 ;;
  let* c := sbrk 1 in
  die_if (negb (c =? u32 (a + 1))) stdout "sbrk test failed post-fork" [] ;;
  pwhen (pid =? 0) Exit ;;
  call SWait ;;
  let* a := sbrk 0 in
  let* p := sbrk (u32 (BIG - a)) in
  die_if (negb (p =? a)) stdout "sbrk test failed to grow big address space; enough phys mem?" [] ;;
  call (SStore (BIG - 1) 99) ;;
  Done tt.

(** The second part: giving memory back, and getting it again. *)
Definition sbrk_shrink (oldbrk : Z) : prog unit :=
  let* a := sbrk 0 in
  let* c := sbrk (-4096) in
  die_if (c =? 0xffffffff) stdout "sbrk could not deallocate" [] ;;
  let* c := sbrk 0 in
  die_if (negb (c =? u32 (a - 4096))) stdout "sbrk deallocation produced wrong address, a %x c %x" [PInt a; PInt c] ;;
  let* a := sbrk 0 in
  let* c := sbrk 4096 in
  let* wrong := (if negb (c =? a) then Done true
                 else let* top := sbrk 0 in Done (negb (top =? u32 (a + 4096)))) in
  die_if wrong stdout "sbrk re-allocation failed, a %x c %x" [PInt a; PInt c] ;;
  let* v := call (SLoad (BIG - 1)) in
  die_if (s8 v =? 99) stdout "sbrk de-allocation didn't really deallocate" [] ;;
  let* a := sbrk 0 in
  let* top := sbrk 0 in
  let* c := sbrk (- (top - oldbrk)) in
  die_if (negb (c =? a)) stdout "sbrk downsize failed, a %x c %x" [PInt a; PInt c].

(** The third part: the memory of the kernel cannot be read. *)
Definition sbrk_kernel : prog unit :=
  pfor (seqZ 0 40) (fun i =>
    let a := KERNBASE + 50000 * i in
    let* ppid := call SGetpid in
    let* pid := call SFork in
    die_if (pid <? 0) stdout "fork failed" [] ;;
    pwhen (pid =? 0) (
      let* v := call (SLoad a) in
      printl stdout "oops could read %x = %x" [PInt a; PInt (s8 v)] ;;
      call (SKill ppid) ;;
      Exit) ;;
    call SWait ;;
    Done tt).

(** The fourth part: failed allocations leave no memory behind. *)
Definition sbrk_leak (fuel : nat) : prog unit :=
  let* ' (r, (fd0, fd1)) := call SPipe in
  die_if (negb (r =? 0)) 1 "pipe() failed" [] ;;
  let* pids := pfold (seqZ 0 10) (fun _ pids =>
    let* pid := call SFork in
    pwhen (pid =? 0) (
      let* top := sbrk 0 in
      sbrk (u32 (BIG - top)) ;;
      call (SWrite fd1 (chars "x")) ;;
      ploop fuel (fun _ : unit => call (SSleep 1000) ;; Done (inl tt)) tt) ;;
    pwhen (negb (pid =? -1)) (call (SRead fd0 1) ;; Done tt) ;;
    Done (pids ++ [pid])) [] in
  let* c := sbrk 4096 in
  pfor pids (fun pid =>
    pwhen (negb (pid =? -1)) (
      call (SKill pid) ;;
      call SWait ;;
      Done tt)) ;;
  die_if (c =? 0xffffffff) stdout "failed sbrk leaked memory" [].

Definition sbrktest (fuel : nat) : prog unit :=
  printl stdout "sbrk test" [] ;;
  let* oldbrk := sbrk 0 in
  sbrk_grow ;;
  sbrk_shrink oldbrk ;;
  sbrk_kernel ;;
  sbrk_leak fuel ;;
  let* top := sbrk 0 in
  pwhen (oldbrk <? top) (
    let* top := sbrk 0 in
    sbrk (- (top - oldbrk)) ;;
    Done tt) ;;
  printl stdout "sbrk test OK" [].

(** The trap of [sleep] with the stack at [p]. *)
Definition validateint (p : Z) : prog unit :=
  call (SInt 13 p) ;;
  Done tt.

Definition validatetest : prog unit :=
  let hi := 1100 * 1024 in
  printl stdout "validate test" [] ;;
  pfor (seqZ 0 (hi / 4096 + 1)) (fun i =>
    let p := 4096 * i in
    let* pid := call SFork in
    pwhen (pid =? 0) (validateint p ;; Exit) ;;
    call (SSleep 0) ;;
    call (SSleep 0) ;;
    call (SKill pid) ;;
    call SWait ;;
    let* r := call (SLinkAt (chars "nosuchfile") p) in
    die_if (negb (r =? -1)) stdout "link should not succeed" []) ;;
  printl stdout "validate ok" [].

(** [uninit] is the array in the bss. *)
Definition bsstest (uninit : list Z) : prog unit :=
  printl stdout "bss test" [] ;;
  pfor uninit (fun c => die_if (negb (c =? 0)) stdout "bss test failed" []) ;;
  printl stdout "bss test ok" [].

Definition MAXARG : Z := 32.

Definition bigargtest : prog unit :=
  call (SUnlink (chars "bigarg-ok")) ;;
  let* pid := call SFork in
  (if pid =? 0 then
     let args := repeat (line "bigargs test: failed" ++ repeat 32 199) (Z.to_nat (MAXARG - 1)) in
     printl stdout "bigarg test" [] ;;
     call (SExec (chars "echo") args) ;;
     printl stdout "bigarg test ok" [] ;;
     let* fd := call (SOpen (chars "bigarg-ok") O_CREATE) in
     call (SClose fd) ;;
     Exit
   else die_if (pid <? 0) stdout "bigargtest: fork failed" []) ;;
  call SWait ;;
  let* fd := call (SOpen (chars "bigarg-ok") 0) in
  die_if (fd <? 0) stdout "bigarg test failed!" [] ;;
  call (SClose fd) ;;
  call (SUnlink (chars "bigarg-ok")) ;;
  Done tt.

Definition fsfull_name (nfiles : Z) : list Z :=
  [102; u8 (48 + nfiles / 1000); 48 + nfiles mod 1000 / 100; 48 + nfiles mod 100 / 10; 48 + nfiles mod 10].

Definition fsfull (fuel : nat) (buf : list Z) : prog unit :=
  printl 1 "fsfull test" [] ;;
  let* nfiles := ploop fuel (fun nfiles =>
    let name := fsfull_name nfiles in
    printl 1 "writing %s" [PStr (Some name)] ;;
    let* fd := call (SOpen name (Z.lor O_CREATE O_RDWR)) in
    if fd <? 0 then
      printl 1 "open %s failed" [PStr (Some name)] ;;
      Done (inr nfiles)
    else
      let* total := ploop fuel (fun total =>
        let* cc := call (SWrite fd (take 512 buf)) in
        if cc <? 512 then Done (inr total) else Done (inl (s32 (total + cc)))) 0 in
      printl 1 "wrote %d bytes" [PInt total] ;;
      call (SClose fd) ;;
      if total =? 0 then Done (inr nfiles) else Done (inl (s32 (nfiles + 1)))) 0 in
  pfor (rev (seqZ 0 (nfiles + 1))) (fun i => call (SUnlink (fsfull_name i)) ;; Done tt) ;;
  printl 1 "fsfull test finished" [].

(** The [outb] of the child is a forbidden instruction. *)
Definition uio : prog unit :=
  printl 1 "uio test" [] ;;
  let* pid := call SFork in
  (if pid =? 0 then Fault
   else die_if (pid <? 0) 1 "fork failed" []) ;;
  call SWait ;;
  printl 1 "uio test done" [].

Definition argptest : prog unit :=
  let* fd := call (SOpen (chars "init") O_RDONLY) in
  die_if (fd <? 0) 2 "open failed" [] ;;
  let* top := sbrk 0 in
  call (SReadAt fd (u32 (top - 1)) (-1)) ;;
  call (SClose fd) ;;
  printl 1 "arg test passed" [].

(** The new state is also the result. *)
Definition rand (randstate : Z) : Z := u32 (randstate * 1664525 + 1013904223).

(** The globals start out zero; [de] is the stack under [concreate]. *)
Definition main (BASE : Z) (fuel : nat) (de : list Z) : prog unit :=
  let buf := repeat 0 (Z.to_nat SIZEOF_BUF) in
  printl 1 "usertests starting" [] ;;
  let* r := call (SOpen (chars "usertests.ran") 0) in
  die_if (0 <=? r) 1 "already ran user tests -- rebuild fs.img" [] ;;
  close_open (chars "usertests.ran") O_CREATE ;;
  argptest ;;
  createdelete ;;
  linkunlink ;;
  concreate fuel de ;;
  let* buf := fourfiles fuel buf in
  sharedfd fuel ;;
  bigargtest ;;
  bigwrite buf ;;
  bigargtest ;;
  bsstest (repeat 0 10000) ;;
  sbrktest fuel ;;
  validatetest ;;
  opentest ;;
  let* buf := writetest buf in
  let* buf := writetest1 fuel buf in
  createtest ;;
  openiputtest ;;
  exitiputtest ;;
  iputtest ;;
  mem BASE fuel ;;
  let* buf := pipe1 fuel buf in
  let* buf := preempt buf in
  exitwait ;;
  rmdot ;;
  fourteen ;;
  let* buf := bigfile fuel buf in
  let* buf := subdir buf in
  let* buf := linktest buf in
  unlinkread buf ;;
  dirfile ;;
  iref ;;
  forktest ;;
  bigdir ;;
  uio ;;
  exectest ;;
  Exit.
