(* ===== verification/Mkfs.v ===== *)
(** mkfs.c: the program of the build host that lays out the file system image
    and copies the user programs into it.

    The image is the list of the sectors written so far.  A run ends in an
    [Abort] where the program exits with status 1 (a failed [assert], a read
    past the end of the image).  Memory of the host holds [uint]s in the byte
    order of the host, [big] for big-endian; the image is read by the kernel,
    with the functions of Fs.v, in the Intel order.  The files to copy are given
    by what the successive [read]s return. *)

From stdpp Require Import sets.
From S2P Require Import Prelude Memory KString Kernel Bio Log Fs.

Declare Scope mkfs_scope.
Delimit Scope mkfs_scope with mkfs.

(** ** The image and the runs of the program *)

Record image := Image {
  sectors : list (list Z);
  isb : superblock;
  freeinode : Z;
  freeblock : Z;
}.

Inductive result (A : Type) :=
| Ok (a : A) (s : image)
| Abort
| Fuel.
Arguments Ok {A} a s.
Arguments Abort {A}.
Arguments Fuel {A}.

Definition mk (A : Type) : Type := image -> result A.

Definition mret {A} (a : A) : mk A := fun s => Ok a s.
Definition mbind {A B} (m : mk A) (f : A -> mk B) : mk B := fun s =>
  match m s with Ok a s => f a s | Abort => Abort | Fuel => Fuel end.
Definition abort {A} : mk A := fun _ => Abort.

Notation "'let*' x ':=' m 'in' f" := (mbind m (fun x => f))
  (at level 10, x name, m at level 100, f at level 200) : mkfs_scope.
Notation "'let*' ' p ':=' m 'in' f" := (mbind m (fun x => match x with p => f end))
  (at level 10, p pattern, m at level 100, f at level 200) : mkfs_scope.
Notation "m1 ';;' m2" := (mbind m1 (fun _ => m2))
  (at level 100, m2 at level 200, right associativity) : mkfs_scope.
Open Scope mkfs_scope.

Definition assert (b : bool) : mk unit := if b then mret tt else abort.

Fixpoint mfor {X} (l : list X) (body : X -> mk unit) : mk unit :=
  match l with
  | [] => mret tt
  | x :: l => body x ;; mfor l body
  end.

Fixpoint mloop {S A} (fuel : nat) (body : S -> mk (S + A)) (s : S) : mk A :=
  match fuel with
  | O => fun _ => Fuel
  | S fuel =>
      let* r := body s in
      match r with
      | inl s => mloop fuel body s
      | inr a => mret a
      end
  end.

(** ** Sectors *)

Definition zeroes : list Z := repeat 0 (Z.to_nat BSIZE).

(** [lseek(fsfd, sec * BSIZE, 0)]: the product is a [uint]. *)
Definition position (sec : Z) : nat := Z.to_nat (u32 (sec * BSIZE) / BSIZE).

(** A write past the end leaves a hole, which reads as zeroes. *)
Definition put_sector (i : nat) (buf : list Z) (l : list (list Z)) : list (list Z) :=
  <[i := buf]> (l ++ repeat zeroes (S i - length l)).

Definition wsect (sec : Z) (buf : list Z) : mk unit := fun s =>
  Ok tt (Image (put_sector (position sec) buf (sectors s)) (isb s) (freeinode s) (freeblock s)).

Definition rsect (sec : Z) : mk (list Z) := fun s =>
  match sectors s !! position sec with
  | Some buf => Ok buf s
  | None => Abort
  end.

(** ** Byte order *)

(** struct dinode, fields as the host holds them *)
Record dinode := Dinode {
  d_type : Z; d_major : Z; d_minor : Z; d_nlink : Z;
  d_size : Z; d_addrs : list Z }.

Definition NINODES : Z := 200.
Definition nbitmap : Z := FSSIZE / (BSIZE * 8) + 1.
Definition ninodeblocks : Z := NINODES / IPB + 1.
Definition nlog : Z := LOGSIZE.
Definition nmeta : Z := 2 + nlog + ninodeblocks + nbitmap.
Definition nblocks : Z := FSSIZE - nmeta.

Section mkfs.
Context (big : bool).

(** The value that the host sees in memory that the Intel order reads as [v],
    and the other way round. *)
Definition host16 (v : Z) : Z := if big then u8 v * 2 ^ 8 + u8 (v / 2 ^ 8) else v.
Definition host32 (v : Z) : Z :=
  if big then u8 v * 2 ^ 24 + u8 (v / 2 ^ 8) * 2 ^ 16 + u8 (v / 2 ^ 16) * 2 ^ 8 + u8 (v / 2 ^ 24) else v.

Definition xshort (x : Z) : Z := host16 (u8 x + 2 ^ 8 * u8 (Z.shiftr x 8)).
Definition xint (x : Z) : Z :=
  host32 (word_at [u8 x; u8 (Z.shiftr x 8); u8 (Z.shiftr x 16); u8 (Z.shiftr x 24)] 0).

(** A [uint], a [short] of the host in the bytes of a buffer. *)
Definition get_uint (buf : list Z) (o : nat) : Z := host32 (word_at buf o).
Definition set_uint (o : nat) (v : Z) (buf : list Z) : list Z := put_word o (host32 v) buf.
Definition get_short (buf : list Z) (o : nat) : Z := s16 (host16 (u16 (short_at buf o))).
Definition set_short (o : nat) (v : Z) (buf : list Z) : list Z := put_short o (host16 (u16 v)) buf.

Definition get_dinode (buf : list Z) (o : nat) : dinode :=
  Dinode (get_short buf o) (get_short buf (o + 2)) (get_short buf (o + 4)) (get_short buf (o + 6))
    (get_uint buf (o + 8)) ((fun i => get_uint buf (o + 12 + 4 * i)) <$> seq 0 13).

Definition set_dinode (o : nat) (d : dinode) (buf : list Z) : list Z :=
  put_words (o + 12) (host32 <$> d_addrs d)
    (set_uint (o + 8) (d_size d) (set_short (o + 6) (d_nlink d)
      (set_short (o + 4) (d_minor d) (set_short (o + 2) (d_major d) (set_short o (d_type d) buf))))).

(** The super block in memory, copied to the buffer. *)
Definition superblock_bytes (s : superblock) : list Z :=
  put_words 0 (host32 <$> [sb_size s; sb_nblocks s; sb_ninodes s; sb_nlog s;
    sb_logstart s; sb_inodestart s; sb_bmapstart s]) (repeat 0 28).

(** ** Inodes *)

Definition rinode (inum : Z) : mk dinode :=
  let* bn := (fun s => Ok (IBLOCK inum (isb s)) s) in
  let* buf := rsect bn in
  mret (get_dinode buf (dinode_off inum)).

Definition winode (inum : Z) (ip : dinode) : mk unit :=
  let* bn := (fun s => Ok (IBLOCK inum (isb s)) s) in
  let* buf := rsect bn in
  wsect bn (set_dinode (dinode_off inum) ip buf).

Definition next_inode : mk Z := fun s =>
  Ok (freeinode s) (Image (sectors s) (isb s) (u32 (freeinode s + 1)) (freeblock s)).
Definition next_block : mk Z := fun s =>
  Ok (freeblock s) (Image (sectors s) (isb s) (freeinode s) (u32 (freeblock s + 1))).

Definition ialloc (type : Z) : mk Z :=
  let* inum := next_inode in
  winode inum (Dinode (s16 (xshort type)) 0 0 (s16 (xshort 1)) (xint 0) (repeat 0 13)) ;;
  mret inum.

(** ** The bitmap *)

Definition bitmap (used : nat) : list Z :=
  foldl (fun buf i => <[(i / 8)%nat := u8 (Z.lor (byte_at buf (i / 8)) (Z.shiftl 1 (Z.of_nat (i mod 8))))]> buf)
    zeroes (seq 0 used).

Definition balloc (used : Z) : mk unit :=
  assert (used <? BSIZE * 8) ;;
  let* b := (fun s => Ok (sb_bmapstart (isb s)) s) in
  wsect b (bitmap (Z.to_nat used)).

(** ** iappend *)

Definition addr_at (din : dinode) (i : Z) : Z := nth (Z.to_nat i) (d_addrs din) 0.
Definition set_addr_at (i v : Z) (din : dinode) : dinode :=
  Dinode (d_type din) (d_major din) (d_minor din) (d_nlink din) (d_size din)
    (<[Z.to_nat i := v]> (d_addrs din)).
Definition with_size (v : Z) (din : dinode) : dinode :=
  Dinode (d_type din) (d_major din) (d_minor din) (d_nlink din) v (d_addrs din).

(** The block of the file that holds its block [fbn], allocated if need be. *)
Definition file_block (din : dinode) (fbn : Z) : mk (Z * dinode) :=
  if fbn <? NDIRECT then
    let* din := (if xint (addr_at din fbn) =? 0 then
                   let* b := next_block in mret (set_addr_at fbn (xint b) din)
                 else mret din) in
    mret (xint (addr_at din fbn), din)
  else
    let* din := (if xint (addr_at din NDIRECT) =? 0 then
                   let* b := next_block in mret (set_addr_at NDIRECT (xint b) din)
                 else mret din) in
    let* indirect := rsect (xint (addr_at din NDIRECT)) in
    let o := (4 * Z.to_nat (fbn - NDIRECT))%nat in
    let* indirect := (if get_uint indirect o =? 0 then
                        let* b := next_block in
                        let indirect := set_uint o (xint b) indirect in
                        wsect (xint (addr_at din NDIRECT)) indirect ;;
                        mret indirect
                      else mret indirect) in
    mret (xint (get_uint indirect o), din).

Definition iappend_step (st : dinode * Z * list Z) : mk ((dinode * Z * list Z) + (dinode * Z)) :=
  let '(din, off, p) := st in
  if 0 <? Z.of_nat (length p) then
    let fbn := off / BSIZE in
    assert (fbn <? MAXFILE) ;;
    let* '(x, din) := file_block din fbn in
    let n1 := Z.min (Z.of_nat (length p)) (u32 ((fbn + 1) * BSIZE - off)) in
    let* buf := rsect x in
    wsect x (splice (Z.to_nat (off - fbn * BSIZE)) (take (Z.to_nat n1) p) buf) ;;
    mret (inl (din, u32 (off + n1), drop (Z.to_nat n1) p))
  else mret (inr (din, off)).

(** Every round takes at least one byte of [p]. *)
Definition iappend (inum : Z) (p : list Z) : mk unit :=
  let* din := rinode inum in
  let* '(din, off) := mloop (S (length p)) iappend_step (din, xint (d_size din), p) in
  winode inum (with_size (xint off) din).

(** ** main *)

(** [strncpy(de.name, name, DIRSIZ)] into a zeroed entry. *)
Definition de (inum : Z) (name : list Z) : list Z :=
  set_short 0 (xshort inum) [0; 0] ++ take (Z.to_nat DIRSIZ) (name ++ repeat 0 (Z.to_nat DIRSIZ)).

Definition underscore (name : list Z) : list Z :=
  match name with 95 :: rest => rest | _ => name end.

(** One file of the command line: its name and what [open] and [read] give. *)
Definition add_file (rootino : Z) (f : list Z * option (list (list Z))) : mk unit :=
  let '(name, fd) := f in
  assert (negb (existsb (fun c => c =? 47) name)) ;;
  match fd with
  | None => abort
  | Some reads =>
      let* inum := ialloc T_FILE in
      iappend rootino (de inum (underscore name)) ;;
      mfor reads (iappend inum)
  end.

Definition layout : superblock :=
  Superblock (xint FSSIZE) (xint nblocks) (xint NINODES) (xint nlog) (xint 2) (xint (2 + nlog))
    (xint (2 + nlog + ninodeblocks)).

(** The size of the root directory rounded up, then the bitmap. *)
Definition finish (rootino : Z) : mk unit :=
  let* din := rinode rootino in
  let off := xint (d_size din) in
  let off := u32 ((off / BSIZE + 1) * BSIZE) in
  winode rootino (with_size (xint off) din) ;;
  let* used := (fun s => Ok (freeblock s) s) in
  balloc (s32 used).

Definition main (files : list (list Z * option (list (list Z)))) : mk unit :=
  (fun s => Ok tt (Image (sectors s) layout (freeinode s) nmeta)) ;;
  mfor (Z.of_nat <$> seq 0 (Z.to_nat FSSIZE)) (fun i => wsect i zeroes) ;;
  wsect 1 (splice 0 (superblock_bytes layout) zeroes) ;;
  let* rootino := ialloc T_DIR in
  assert (rootino =? ROOTINO) ;;
  iappend rootino (de rootino [46]) ;;
  iappend rootino (de rootino [46; 46]) ;;
  mfor files (add_file rootino) ;;
  finish rootino.

(** [fsfd] is open and the file empty, the globals as they are initialised. *)
Definition mkfs (files : list (list Z * option (list (list Z)))) : result unit :=
  main files (Image [] (Superblock 0 0 0 0 0 0 0) 1 0).
End mkfs.

(** ** Fields of a block *)

Lemma xint_le x : xint false x = u32 x.
Proof.
  unfold xint, host32, word_at. simpl. rewrite !Z.shiftr_div_pow2 by lia.
  unfold u8, u32. Z.div_mod_to_equations. lia.
Qed.

Lemma xshort_le x : xshort false x = u16 x.
Proof.
  unfold xshort, host16. rewrite Z.shiftr_div_pow2 by lia. unfold u8, u16. Z.div_mod_to_equations. lia.
Qed.

(** The on-disk inode as the kernel reads it. *)
Definition dinode_ok (d : dinode) : Prop :=
  s16 (d_type d) = d_type d /\ s16 (d_major d) = d_major d /\ s16 (d_minor d) = d_minor d /\
  s16 (d_nlink d) = d_nlink d /\ u32 (d_size d) = d_size d /\
  length (d_addrs d) = 13%nat /\ Forall (fun a => u32 a = a) (d_addrs d).

Lemma set_dinode_length o d buf : length (set_dinode false o d buf) = length buf.
Proof.
  unfold set_dinode, set_uint, set_short.
  by rewrite put_words_length, put_word_length, !put_short_length.
Qed.

Lemma s16_u16 x : s16 (u16 x) = s16 x.
Proof. unfold s16, u16. Z.div_mod_to_equations. lia. Qed.

Lemma get_set_dinode o d buf :
  (o + 64 <= length buf)%nat -> dinode_ok d -> get_dinode false (set_dinode false o d buf) o = d.
Proof.
  intros Hl (H1 & H2 & H3 & H4 & H5 & H6 & H7). destruct d as [ty ma mi nl sz ad]; simpl in *.
  unfold get_dinode, set_dinode, get_short, get_uint, set_uint, set_short, host16, host32;
    cbn [d_type d_major d_minor d_nlink d_size d_addrs].
  rewrite !list_fmap_id.
  f_equal.
  1-4: rewrite short_at_words_ne by lia; rewrite short_at_word_ne by lia.
  - rewrite !short_at_put_ne by lia. rewrite short_at_put by (rewrite ?put_short_length; lia).
    rewrite !s16_u16. congruence.
  - rewrite !short_at_put_ne by lia. rewrite short_at_put by (rewrite ?put_short_length; lia).
    rewrite !s16_u16. congruence.
  - rewrite !short_at_put_ne by lia. rewrite short_at_put by (rewrite ?put_short_length; lia).
    rewrite !s16_u16. congruence.
  - rewrite short_at_put by (rewrite ?put_short_length; lia). rewrite !s16_u16. congruence.
  - rewrite word_at_words_ne by lia. rewrite word_at_put by (rewrite ?put_short_length; lia). done.
  - transitivity (u32 <$> ad); [|].
    + apply list_eq. intros k. rewrite !list_lookup_fmap. destruct (ad !! k) as [w|] eqn:E.
      * pose proof (lookup_lt_Some _ _ _ E). rewrite lookup_seq_lt by lia. simpl. f_equal.
        apply word_at_words; [done|]. rewrite put_word_length, !put_short_length. lia.
      * apply lookup_ge_None in E. by rewrite lookup_seq_ge by lia.
    + clear -H7. induction H7; simpl; [done|]. by f_equal.
Qed.

Lemma get_set_dinode_ne o o' d buf :
  (o' + 64 <= o \/ o + 64 <= o')%nat -> length (d_addrs d) = 13%nat ->
  get_dinode false (set_dinode false o d buf) o' = get_dinode false buf o'.
Proof.
  intros Ho H6. unfold get_dinode, set_dinode, get_short, get_uint, set_uint, set_short, host16, host32.
  f_equal.
  1-4: rewrite short_at_words_ne by (rewrite length_fmap; lia); rewrite short_at_word_ne by lia;
       by rewrite !short_at_put_ne by lia.
  - rewrite word_at_words_ne by (rewrite length_fmap; lia). rewrite word_at_put_ne by lia. by rewrite !word_at_short_ne by lia.
  - apply list_fmap_ext. intros ? k [-> Hk]%lookup_seq. rewrite word_at_words_ne by (rewrite length_fmap; lia).
    rewrite word_at_put_ne by lia. by rewrite !word_at_short_ne by lia.
Qed.

(** ** Sectors of a well-formed image *)

Definition sec (s : image) (b : Z) : list Z := nth (Z.to_nat b) (sectors s) [].

Record wf (s : image) : Prop := {
  wf_count : length (sectors s) = Z.to_nat FSSIZE;
  wf_length : Forall (fun l => length l = Z.to_nat BSIZE) (sectors s);
  wf_sb : isb s = layout false;
  wf_free : nmeta <= freeblock s <= FSSIZE;
}.

Definition with_sector (b : Z) (buf : list Z) (s : image) : image :=
  Image (<[Z.to_nat b := buf]> (sectors s)) (isb s) (freeinode s) (freeblock s).

Lemma position_small b : 0 <= b < FSSIZE -> position b = Z.to_nat b.
Proof.
  unfold FSSIZE. intros. unfold position, BSIZE. rewrite u32_small by lia. by rewrite Z.div_mul by lia.
Qed.

Lemma sec_length s b : wf s -> 0 <= b < FSSIZE -> length (sec s b) = 512%nat.
Proof.
  intros W Hb. unfold sec. rewrite nth_lookup.
  destruct (lookup_lt_is_Some_2 (sectors s) (Z.to_nat b)) as [l E]; [rewrite (wf_count s W); lia|].
  rewrite E. exact (proj1 (Forall_lookup _ _) (wf_length s W) _ _ E).
Qed.

Lemma rsect_spec s b : wf s -> 0 <= b < FSSIZE -> rsect b s = Ok (sec s b) s.
Proof.
  intros W Hb. unfold rsect, sec. rewrite position_small, nth_lookup by done.
  destruct (lookup_lt_is_Some_2 (sectors s) (Z.to_nat b)) as [l E]; [rewrite (wf_count s W); lia|].
  by rewrite E.
Qed.

Lemma wsect_spec s b buf :
  wf s -> 0 <= b < FSSIZE -> length buf = 512%nat ->
  wsect b buf s = Ok tt (with_sector b buf s) /\ wf (with_sector b buf s).
Proof.
  intros W Hb Hl. split.
  - unfold wsect, put_sector. rewrite position_small by done.
    replace (S (Z.to_nat b) - length (sectors s))%nat with 0%nat by (rewrite (wf_count s W); lia).
    by rewrite app_nil_r.
  - split; simpl; try apply W; [by rewrite length_insert; apply W|].
    apply Forall_insert; [apply W|done].
Qed.

Lemma sec_with s b b' buf :
  wf s -> 0 <= b < FSSIZE -> 0 <= b' -> sec (with_sector b buf s) b' = if b' =? b then buf else sec s b'.
Proof.
  intros W Hb Hb'. unfold sec; simpl. rewrite !nth_lookup. destruct (Z.eqb_spec b' b) as [->|].
  - rewrite list_lookup_insert_eq; [done|]. rewrite (wf_count s W). lia.
  - rewrite list_lookup_insert_ne; [done|lia].
Qed.

(** ** The blocks of a file *)

(** The address block [addrs] of an inode and, from the thirteenth block on,
    the indirect block [ind] give the list [blocks]; what is past its end is 0. *)
Record maps (s : image) (addrs : list Z) (blocks : list Z) (ind : Z) : Prop := {
  mp_addrs : length addrs = 13%nat;
  mp_direct : forall k, (k < 12)%nat -> nth k addrs 0 = nth k blocks 0;
  mp_ind : nth 12 addrs 0 = ind;
  mp_small : (length blocks <= 12)%nat -> ind = 0;
  mp_large : (12 < length blocks)%nat ->
    ind <> 0 /\ forall k, (k < 128)%nat -> word_at (sec s ind) (4 * k) = nth (12 + k) blocks 0;
}.

Definition foot (blocks : list Z) (ind : Z) : list Z := blocks ++ if ind =? 0 then [] else [ind].
Definition within (lo hi : Z) (l : list Z) : Prop := Forall (fun b => lo <= b < hi) l.

(** The sectors not handed out yet are as they were made. *)
Definition clean (s : image) : Prop := forall b, freeblock s <= b < FSSIZE -> sec s b = zeroes.

(** What finding or allocating block [k] of a file does. *)
Record grown (s : image) (din : dinode) (blocks : list Z) (ind : Z) (k : nat)
    (s' : image) (x : Z) (din' : dinode) (blocks' : list Z) (ind' : Z) : Prop := {
  gr_wf : wf s';
  gr_clean : clean s';
  gr_inode : freeinode s' = freeinode s;
  gr_maps : maps s' (d_addrs din') blocks' ind';
  gr_fields : din' = Dinode (d_type din) (d_major din) (d_minor din) (d_nlink din) (d_size din) (d_addrs din');
  gr_at : blocks' !! k = Some x;
  gr_blocks : blocks' = if (k <? length blocks)%nat then blocks else blocks ++ [x];
  gr_new : (length blocks <= k)%nat -> freeblock s <= x;
  gr_free : freeblock s' = freeblock s + Z.of_nat (length (foot blocks' ind')) - Z.of_nat (length (foot blocks ind));
  gr_nodup : NoDup (foot blocks' ind');
  gr_within : within nmeta (freeblock s') (foot blocks' ind');
  gr_old : forall b, b ∈ foot blocks' ind' -> b ∈ foot blocks ind \/ freeblock s <= b;
  gr_keep : forall b, b ∈ foot blocks ind -> b ∈ foot blocks' ind';
  gr_frame : forall b, 0 <= b < FSSIZE -> (ind' <> 0 -> b <> ind') -> sec s' b = sec s b;
}.

Lemma nth_snoc {A} (l : list A) x k d :
  nth k (l ++ [x]) d = if (k =? length l)%nat then x else nth k l d.
Proof.
  destruct (Nat.eqb_spec k (length l)) as [->|]; [by rewrite app_nth2, Nat.sub_diag by lia|].
  destruct (decide (k < length l)%nat); [by rewrite app_nth1 by lia|].
  rewrite !nth_overflow by (rewrite ?length_app; simpl; lia). done.
Qed.

Lemma nth_insert {A} (l : list A) i x k d :
  (i < length l)%nat -> nth k (<[i := x]> l) d = if (k =? i)%nat then x else nth k l d.
Proof.
  intros. rewrite !nth_lookup. destruct (Nat.eqb_spec k i) as [->|]; [by rewrite list_lookup_insert_eq|].
  by rewrite list_lookup_insert_ne by done.
Qed.

Lemma within_weaken lo hi hi' l : within lo hi l -> hi <= hi' -> within lo hi' l.
Proof. intros H ?. eapply list.Forall_impl; [exact H|]. simpl. lia. Qed.

Lemma within_elem lo hi l x : within lo hi l -> x ∈ l -> lo <= x < hi.
Proof. unfold within. rewrite list.Forall_forall. auto. Qed.

Lemma within_block s blocks ind k x :
  within nmeta (freeblock s) (foot blocks ind) -> wf s -> blocks !! k = Some x -> nmeta <= x < FSSIZE.
Proof.
  intros Hw W Hk. pose proof (within_elem _ _ _ x Hw) as Hx. pose proof (wf_free s W).
  unfold foot in Hx. rewrite elem_of_app in Hx. specialize (Hx (or_introl (list_elem_of_lookup_2 _ _ _ Hk))). lia.
Qed.

Lemma within_ind s blocks ind :
  within nmeta (freeblock s) (foot blocks ind) -> wf s -> ind <> 0 -> nmeta <= ind < FSSIZE.
Proof.
  intros Hw W Hi. pose proof (within_elem _ _ _ ind Hw) as Hx. pose proof (wf_free s W).
  unfold foot in Hx. destruct (Z.eqb_spec ind 0); [done|]. rewrite elem_of_app, list_elem_of_singleton in Hx. specialize (Hx (or_intror eq_refl)). lia.
Qed.

Lemma next_block_spec s :
  wf s -> clean s -> freeblock s < FSSIZE ->
  exists s', next_block s = Ok (freeblock s) s' /\ wf s' /\ clean s' /\
    freeblock s' = freeblock s + 1 /\ freeinode s' = freeinode s /\ sectors s' = sectors s.
Proof.
  intros W C Hf. pose proof (wf_free s W) as Hr. change FSSIZE with 1000 in *. change nmeta with 59 in *.
  eexists. split; [reflexivity|]. cbn [freeblock freeinode sectors]. 
  rewrite u32_small by lia. split_and!; try done.
  - split; try apply W. simpl. change FSSIZE with 1000. change nmeta with 59. lia.
  - intros b Hb. simpl in Hb. apply (C b). lia.
Qed.

Lemma mbind_Ok {A B} (m : mk A) (f : A -> mk B) s a s' : m s = Ok a s' -> mbind m f s = f a s'.
Proof. unfold mbind. by intros ->. Qed.

Arguments xint : simpl never.
Arguments xshort : simpl never.
Ltac consts := change FSSIZE with 1000 in *; change nmeta with 59 in *; change NINODES with 200 in *.
Ltac clia := consts; lia.

Section file_block.
Context (s : image) (din : dinode) (blocks : list Z) (ind : Z).
Context (W : wf s) (C : clean s) (HM : maps s (d_addrs din) blocks ind).
Context (ND : NoDup (foot blocks ind)) (HW : within nmeta (freeblock s) (foot blocks ind)).
Context (Hmax : (length blocks <= 140)%nat).

Lemma xint_addr a : a = 0 \/ nmeta <= a < FSSIZE -> xint false a = a.
Proof. intros H. rewrite xint_le, u32_small; [done|]. consts. lia. Qed.

Lemma file_block_old k :
  (k < length blocks)%nat ->
  exists x, file_block false din (Z.of_nat k) s = Ok (x, din) s /\ grown s din blocks ind k s x din blocks ind.
Proof.
  intros Hk. destruct (lookup_lt_is_Some_2 _ _ Hk) as [x Hx].
  pose proof (within_block _ _ _ _ _ HW W Hx) as Hr.
  exists x. split.
  - unfold file_block, addr_at. change NDIRECT with 12. destruct (Z.ltb_spec (Z.of_nat k) 12).
    + rewrite Nat2Z.id, (mp_direct _ _ _ _ HM), nth_lookup, Hx by lia. simpl. rewrite xint_addr by lia.
      consts. destruct (Z.eqb_spec x 0); [lia|]. unfold mbind, mret.
      rewrite (mp_direct _ _ _ _ HM), nth_lookup, Hx by lia. simpl. by rewrite xint_addr by (clia).
    + destruct (mp_large _ _ _ _ HM) as [Hi Hw]; [lia|].
      pose proof (within_ind _ _ _ HW W Hi) as Hir.
      change (Z.to_nat 12) with 12%nat. rewrite (mp_ind _ _ _ _ HM), xint_addr by lia.
      destruct (Z.eqb_spec ind 0); [done|]. unfold mbind, mret.
      rewrite (mp_ind _ _ _ _ HM), xint_addr, rsect_spec by (consts; try done; lia).
      unfold get_uint, host32. rewrite Hw by lia.
      replace (12 + Z.to_nat (Z.of_nat k - 12))%nat with k by lia. rewrite nth_lookup, Hx. change (default 0 (Some x)) with x.
      consts. destruct (Z.eqb_spec x 0); [lia|].
      rewrite Hw by lia. replace (12 + Z.to_nat (Z.of_nat k - 12))%nat with k by lia. rewrite nth_lookup, Hx. simpl.
      by rewrite xint_addr by (clia).
  - split; try done; [by destruct din| |lia|lia|auto].
    destruct (Nat.ltb_spec k (length blocks)); [done|lia].
Qed.

Lemma fresh_notin b : freeblock s <= b -> b ∉ foot blocks ind.
Proof. intros Hb Hin. pose proof (within_elem _ _ _ _ HW Hin). lia. Qed.

Lemma file_block_direct k :
  k = length blocks -> (k < 12)%nat -> freeblock s < FSSIZE ->
  exists s' x din', file_block false din (Z.of_nat k) s = Ok (x, din') s' /\
    grown s din blocks ind k s' x din' (blocks ++ [x]) ind.
Proof.
  intros Hk H12 Hf. destruct (next_block_spec s W C Hf) as (s' & Hs' & W' & C' & F' & I' & S').
  pose proof (wf_free s W) as Hr. pose proof (mp_small _ _ _ _ HM ltac:(lia)) as Hi.
  exists s', (freeblock s), (set_addr_at (Z.of_nat k) (freeblock s) din). split.
  - unfold file_block, addr_at. change NDIRECT with 12. destruct (Z.ltb_spec (Z.of_nat k) 12); [|lia].
    rewrite Nat2Z.id, (mp_direct _ _ _ _ HM) by lia. rewrite nth_overflow by lia. rewrite xint_addr by lia. simpl.
    unfold mbind. rewrite Hs'. unfold mret. simpl. rewrite (xint_addr (freeblock s)) by lia.
    rewrite Nat2Z.id, nth_insert by (rewrite (mp_addrs _ _ _ _ HM); lia). rewrite Nat.eqb_refl.
    by rewrite xint_addr by lia.
  - assert (Hfoot : foot (blocks ++ [freeblock s]) ind ≡ₚ freeblock s :: foot blocks ind).
    { unfold foot. rewrite <- app_assoc. symmetry. apply Permutation_middle. }
    split; try done.
    + split; simpl; rewrite ?length_insert; try apply HM.
      * intros j Hj. rewrite Nat2Z.id, nth_insert, nth_snoc by (rewrite (mp_addrs _ _ _ _ HM); lia).
        rewrite Hk. destruct (Nat.eqb_spec j (length blocks)); [done|]. by apply (mp_direct _ _ _ _ HM).
      * rewrite Nat2Z.id, nth_insert by (rewrite (mp_addrs _ _ _ _ HM); lia).
        destruct (Nat.eqb_spec 12 k); [lia|]. apply HM.
      * intros _. done.
      * rewrite length_app. simpl. lia.
    + rewrite Hk. apply list_lookup_middle. done.
    + destruct (Nat.ltb_spec k (length blocks)); [lia|done].
    + rewrite Hfoot, F'. simpl. lia.
    + rewrite Hfoot. constructor; [|done]. by apply fresh_notin.
    + unfold within. rewrite Hfoot. constructor; [clia|]. eapply within_weaken; [exact HW|lia].
    + intros b. rewrite Hfoot, elem_of_cons. intros [->|]; [right; lia|auto].
    + intros b ?. rewrite Hfoot. apply elem_of_cons. by right.
    + intros b _ _. unfold sec. by rewrite S'.
Qed.

Lemma word_at_zeroes o : word_at zeroes o = 0.
Proof.
  unfold word_at, zeroes.
  destruct (repeat 0 _ !! o) eqn:E1; [|done]. destruct (repeat 0 _ !! (o + 1)%nat) eqn:E2; [|done].
  destruct (repeat 0 _ !! (o + 2)%nat) eqn:E3; [|done]. destruct (repeat 0 _ !! (o + 3)%nat) eqn:E4; [|done].
  apply list_elem_of_lookup_2, list_elem_of_In, repeat_spec in E1, E2, E3, E4. by subst.
Qed.

(** The indirect block of the file, allocated for the thirteenth block. *)
Lemma indirect_alloc :
  (12 <= length blocks)%nat -> ind <> 0 \/ freeblock s < FSSIZE ->
  exists s1 din1 ind1,
    (if xint false (addr_at din NDIRECT) =? 0 then
       let* b := next_block in mret (set_addr_at NDIRECT (xint false b) din)
     else mret din) s = Ok din1 s1 /\
    wf s1 /\ clean s1 /\ freeinode s1 = freeinode s /\ sectors s1 = sectors s /\
    freeblock s1 = freeblock s + (if ind =? 0 then 1 else 0) /\
    ind1 = (if ind =? 0 then freeblock s else ind) /\ nmeta <= ind1 < freeblock s1 /\
    (forall j, (j < 12)%nat -> nth j (d_addrs din1) 0 = nth j blocks 0) /\
    length (d_addrs din1) = 13%nat /\ nth 12 (d_addrs din1) 0 = ind1 /\
    (forall k, (k < 128)%nat -> word_at (sec s1 ind1) (4 * k) = nth (12 + k) blocks 0) /\
    din1 = Dinode (d_type din) (d_major din) (d_minor din) (d_nlink din) (d_size din) (d_addrs din1) /\
    NoDup (foot blocks ind1) /\ within nmeta (freeblock s1) (foot blocks ind1) /\
    (forall b, b ∈ foot blocks ind1 -> b ∈ foot blocks ind \/ freeblock s <= b) /\
    (forall b, b ∈ foot blocks ind -> b ∈ foot blocks ind1).
Proof.
  intros H12 Hf. pose proof (wf_free s W) as Hr. unfold addr_at. change (Z.to_nat NDIRECT) with 12%nat.
  rewrite (mp_ind _ _ _ _ HM). destruct (Z.eqb_spec ind 0) as [Hi|Hi].
  - destruct Hf as [Hf|Hf]; [done|]. rewrite xint_addr by auto. rewrite Hi.
    destruct (next_block_spec s W C Hf) as (s' & Hs' & W' & C' & F' & I' & S').
    assert (Hl : length blocks = 12%nat).
    { destruct (decide (12 < length blocks)%nat) as [H|]; [|lia]. by destruct (mp_large _ _ _ _ HM H). }
    exists s', (set_addr_at NDIRECT (freeblock s) din), (freeblock s). unfold mbind. rewrite !Z.eqb_refl, Hs'.
    unfold mret. unfold set_addr_at; cbn [d_addrs d_type d_major d_minor d_nlink d_size]. rewrite xint_addr by lia. change (Z.to_nat NDIRECT) with 12%nat.
    assert (Hfoot : foot blocks (freeblock s) ≡ₚ freeblock s :: foot blocks ind).
    { unfold foot. rewrite Hi. simpl. consts. destruct (Z.eqb_spec (freeblock s) 0); [lia|].
      rewrite app_nil_r. symmetry. apply Permutation_cons_append. }
    rewrite length_insert. setoid_rewrite nth_insert; [|rewrite (mp_addrs _ _ _ _ HM); lia..].
    split_and!; try done; try lia; try apply HM.
    + intros j Hj. destruct (Nat.eqb_spec j 12); [lia|]. by apply HM.
    + intros k Hk. rewrite nth_overflow by lia. unfold sec. rewrite S'. fold (sec s (freeblock s)).
      rewrite C by lia. apply word_at_zeroes.
    + rewrite Hfoot. constructor; [|done]. by apply fresh_notin.
    + unfold within. rewrite Hfoot. constructor; [clia|]. eapply within_weaken; [exact HW|lia].
    + intros b. rewrite Hfoot, elem_of_cons. intros [->|]; [right; lia|]. left. by rewrite Hi in *.
    + intros b Hb. rewrite Hfoot, Hi. apply elem_of_cons. by right.
  - assert (Hl : (12 < length blocks)%nat).
    { destruct (decide (12 < length blocks)%nat); [done|]. destruct Hi. apply HM. lia. }
    pose proof (within_ind _ _ _ HW W Hi) as Hir. pose proof (within_elem _ _ _ ind HW) as Hin.
    exists s, din, ind. rewrite xint_addr by lia. destruct (Z.eqb_spec ind 0); [done|].
    assert (nmeta <= ind < freeblock s).
    { apply Hin. unfold foot. destruct (Z.eqb_spec ind 0); [done|]. apply elem_of_app. right. apply list_elem_of_singleton. done. }
    split_and!; try done; try lia; try apply HM; try done; auto. by destruct din.
Qed.

Lemma file_block_indirect k :
  k = length blocks -> (12 <= k < 140)%nat -> freeblock s + (if ind =? 0 then 1 else 0) < FSSIZE ->
  exists s' x din' ind', file_block false din (Z.of_nat k) s = Ok (x, din') s' /\
    grown s din blocks ind k s' x din' (blocks ++ [x]) ind'.
Proof.
  intros Hk H12 Hf.
  destruct indirect_alloc as (s1 & din1 & ind1 & E & W1 & C1 & I1 & S1 & F1 & Hi1 & Hr1 & HD & HL & HI & HI2 & Hd & ND1 & HW1 & HO & HK);
    [lia|destruct (Z.eqb_spec ind 0); [right; lia|by left]|].
  pose proof (wf_free s W) as Hr. pose proof (wf_free s1 W1) as Hr'.
  destruct (next_block_spec s1 W1 C1) as (s2 & Hs2 & W2 & C2 & F2 & I2 & S2); [lia|].
  set (x := freeblock s1). set (j := (k - 12)%nat).
  set (buf := put_word (4 * j) x (sec s1 ind1)).
  assert (Hb : length buf = 512%nat) by (unfold buf; rewrite put_word_length; apply sec_length; [done|clia]).
  destruct (wsect_spec s2 ind1 buf W2 ltac:(clia) Hb) as [E3 W3].
  assert (Hind1 : ind1 <> 0) by (clia).
  exists (with_sector ind1 buf s2), x, din1, ind1. split.
  - unfold file_block. destruct (Z.ltb_spec (Z.of_nat k) NDIRECT) as [H|_]; [change NDIRECT with 12 in H; lia|].
    unfold mbind at 1. rewrite E. unfold addr_at. change (Z.to_nat NDIRECT) with 12%nat.
    unfold mbind, mret. rewrite HI, xint_addr, rsect_spec by (try done; clia).
    unfold get_uint, set_uint, host32. change NDIRECT with 12.
    replace (Z.to_nat (Z.of_nat k - 12)) with j by (unfold j; lia).
    rewrite HI2, nth_overflow, Z.eqb_refl by (unfold j; lia). rewrite Hs2, (xint_addr (freeblock s1)) by lia.
    fold x. fold buf. rewrite E3. unfold buf at 1. rewrite word_at_put.
    + rewrite xint_le, u32_idemp, u32_small by (unfold x; clia). done.
    + unfold j. rewrite (sec_length s1 ind1) by (try done; clia). lia.
  - assert (Hfoot : foot (blocks ++ [x]) ind1 ≡ₚ x :: foot blocks ind1).
    { unfold foot. rewrite <- app_assoc. symmetry. apply Permutation_middle. }
    assert (Hsec : forall b, 0 <= b -> sec (with_sector ind1 buf s2) b = if b =? ind1 then buf else sec s b).
    { intros b ?. rewrite sec_with by (try done; clia). unfold sec at 1. by rewrite S2, S1. }
    split; try done; simpl.
    + intros b Hb'. simpl in Hb'. rewrite Hsec by (clia). destruct (Z.eqb_spec b ind1); [lia|].
      apply C. destruct (Z.eqb_spec ind 0); lia.
    + congruence.
    + split; try done.
      * intros i Hi. rewrite nth_snoc. destruct (Nat.eqb_spec i (length blocks)); [lia|]. by apply HD.
      * rewrite length_app. simpl. lia.
      * intros _. split; [done|]. intros i Hi. rewrite Hsec, Z.eqb_refl by (clia). rewrite nth_snoc. unfold buf.
        destruct (Nat.eqb_spec (12 + i) (length blocks)).
        -- replace i with j by (unfold j; lia). rewrite word_at_put; [apply u32_small; unfold x; clia|].
           rewrite (sec_length s1 ind1) by (try done; clia). unfold j. lia.
        -- rewrite word_at_put_ne by (unfold j; lia). by apply HI2.
    + rewrite Hk. by apply list_lookup_middle.
    + destruct (Nat.ltb_spec k (length blocks)); [lia|done].
    + intros _. unfold x. destruct (Z.eqb_spec ind 0); lia.
    + rewrite Hfoot, F2, F1. unfold foot. cbn [length]. rewrite !length_app. destruct (Z.eqb_spec ind1 0); [done|].
      destruct (Z.eqb_spec ind 0); cbn [length]; lia.
    + rewrite Hfoot. constructor; [|done]. intros Hin. pose proof (within_elem _ _ _ _ HW1 Hin). unfold x in *. lia.
    + unfold within. rewrite Hfoot. constructor; [unfold x; clia|]. eapply within_weaken; [exact HW1|lia].
    + intros b. rewrite Hfoot, elem_of_cons. intros [->|]; [|auto]. right. unfold x. destruct (Z.eqb_spec ind 0); lia.
    + intros b ?. rewrite Hfoot. apply elem_of_cons. auto.
    + intros b ? Hne. rewrite Hsec by lia. destruct (Z.eqb_spec b ind1); [by destruct (Hne Hind1)|done].
Qed.

(** The blocks a file of [n] blocks takes, its indirect block among them. *)
Definition cost (n : nat) : Z := Z.of_nat n + if (12 <? n)%nat then 1 else 0.

Lemma foot_cost : Z.of_nat (length (foot blocks ind)) = cost (length blocks).
Proof using HM.
  clear Hmax.
  unfold foot, cost. rewrite length_app. destruct (Nat.ltb_spec 12 (length blocks)) as [H|H].
  - destruct (mp_large _ _ _ _ HM H) as [Hi _]. destruct (Z.eqb_spec ind 0); [done|]. simpl. lia.
  - rewrite (mp_small _ _ _ _ HM H). simpl. lia.
Qed.

Lemma file_block_spec k :
  (k <= length blocks)%nat -> (k < 140)%nat -> freeblock s + cost (S k) <= FSSIZE + cost (length blocks) ->
  exists s' x din' blocks' ind', file_block false din (Z.of_nat k) s = Ok (x, din') s' /\
    grown s din blocks ind k s' x din' blocks' ind'.
Proof.
  intros Hk H140 Hf. unfold cost in Hf. destruct (decide (k < length blocks)%nat) as [H|H].
  - destruct (file_block_old k H) as (x & E & G). eauto 10.
  - assert (k = length blocks) as -> by lia. destruct (decide (length blocks < 12)%nat).
    + destruct (file_block_direct (length blocks)) as (s' & x & din' & E & G); [done..| |eauto 10].
      destruct (Nat.ltb_spec 12 (S (length blocks))), (Nat.ltb_spec 12 (length blocks)); lia.
    + destruct (file_block_indirect (length blocks)) as (s' & x & din' & ind' & E & G); [done|lia| |eauto 10].
      destruct (Z.eqb_spec ind 0) as [Hi|Hi].
      * destruct (Nat.ltb_spec 12 (length blocks)) as [H12|]; [by destruct (mp_large _ _ _ _ HM H12)|].
        destruct (Nat.ltb_spec 12 (S (length blocks))); lia.
      * destruct (Nat.ltb_spec 12 (length blocks)), (Nat.ltb_spec 12 (S (length blocks))); lia.
Qed.
End file_block.

(** ** Bytes in blocks *)

Definition nblk (n : nat) : nat := ((n + 511) / 512)%nat.

Lemma nblk_spec n : (n <= 512 * nblk n < n + 512)%nat.
Proof.
  unfold nblk. pose proof (Nat.div_mod_eq (n + 511) 512). pose proof (Nat.mod_upper_bound (n + 511) 512). lia.
Qed.

Lemma nblk_unique n b : (n <= 512 * b < n + 512)%nat -> nblk n = b.
Proof. pose proof (nblk_spec n). lia. Qed.

Lemma cost_mono m n : (m <= n)%nat -> cost m <= cost n.
Proof. intros. unfold cost. destruct (Nat.ltb_spec 12 m), (Nat.ltb_spec 12 n); lia. Qed.

Lemma splice_length o q l : (o + length q <= length l)%nat -> length (splice o q l) = length l.
Proof. intros. unfold splice. rewrite !length_app, length_take, length_drop. lia. Qed.

Lemma splice_app a o q l r :
  (o + length q <= length l)%nat -> a ++ splice o q l ++ r = splice (length a + o) q (a ++ l ++ r).
Proof.
  intros H. unfold splice. rewrite take_app_ge by lia. replace (length a + o - length a)%nat with o by lia.
  rewrite take_app_le by lia. rewrite drop_app_ge by lia.
  replace (length a + o + length q - length a)%nat with (o + length q)%nat by lia.
  rewrite drop_app_le by lia. by rewrite <- !app_assoc.
Qed.

Lemma splice_zeros d q m :
  (length q <= m)%nat -> splice (length d) q (d ++ repeat 0 m) = (d ++ q) ++ repeat 0 (m - length q).
Proof.
  intros H. unfold splice. rewrite take_app_length, drop_app_ge by lia.
  replace (length d + length q - length d)%nat with (length q) by lia.
  rewrite <- app_assoc. do 2 f_equal. rewrite <- (Nat.sub_add (length q) m) at 1 by lia.
  rewrite Nat.add_comm, repeat_app, drop_app_length'; [done|]. by rewrite repeat_length.
Qed.

Lemma concat_pieces {A} (f : A -> list Z) l n :
  (forall x, x ∈ l -> length (f x) = n) -> length (concat (f <$> l)) = (n * length l)%nat.
Proof.
  induction l as [|x l IH]; intros H; [simpl; lia|]. rewrite fmap_cons. cbn [concat length].
  rewrite length_app, IH, (H x).
  - lia.
  - apply elem_of_cons. by left.
  - intros y Hy. apply H. apply elem_of_cons. by right.
Qed.

(** Writing into one block writes into the file. *)
Lemma concat_splice (f g : Z -> list Z) l k x o q :
  NoDup l -> l !! k = Some x -> (forall y, y ∈ l -> length (f y) = 512%nat) -> (o + length q <= 512)%nat ->
  g x = splice o q (f x) -> (forall y, y ∈ l -> y <> x -> g y = f y) ->
  concat (g <$> l) = splice (512 * k + o) q (concat (f <$> l)).
Proof.
  intros ND Hk Hf Ho Hx Hg. rewrite <- (take_drop_middle l k x Hk) in *.
  set (a := take k l) in *. set (b := drop (S k) l) in *.
  assert (Ha : length a = k) by (unfold a; rewrite length_take; apply lookup_lt_Some in Hk; lia).
  apply list.NoDup_app in ND as (_ & NDx & NDb). apply list.NoDup_cons in NDb as [NDb _].
  assert (forall c : list Z, (forall y, y ∈ c -> y ∈ a ++ x :: b) -> x ∉ c -> g <$> c = f <$> c) as HE.
  { intros c Hc Hxc. apply list_fmap_ext. intros i y Hy%list_elem_of_lookup_2. apply Hg; [by apply Hc|congruence]. }
  rewrite !fmap_app, !fmap_cons, !concat_app. cbn [concat]. rewrite Hx, (HE a), (HE b); try done.
  - rewrite splice_app by (rewrite Hf; [done|set_solver]). rewrite (concat_pieces f a 512), Ha; [done|].
    intros y Hy. apply Hf. set_solver.
  - set_solver.
  - set_solver.
  - intros Hin. apply (NDx x Hin). set_solver.
Qed.

(** ** Files in the image *)

(** The blocks of a file hold its bytes, then zeroes. *)
Record stored (s : image) (addrs data blocks : list Z) (ind : Z) : Prop := {
  st_maps : maps s addrs blocks ind;
  st_nodup : NoDup (foot blocks ind);
  st_within : within nmeta (freeblock s) (foot blocks ind);
  st_count : length blocks = nblk (length data);
  st_data : concat (sec s <$> blocks) = data ++ repeat 0 (512 * length blocks - length data);
}.

(** What appending does to the image: only the blocks of the file change, and
    the new ones are taken from the free blocks. *)
Record appended (s s' : image) (foot0 foot1 : list Z) : Prop := {
  ap_wf : wf s';
  ap_clean : clean s';
  ap_inode : freeinode s' = freeinode s;
  ap_free : freeblock s' = freeblock s + Z.of_nat (length foot1) - Z.of_nat (length foot0);
  ap_old : forall b, b ∈ foot1 -> b ∈ foot0 \/ freeblock s <= b;
  ap_keep : forall b, b ∈ foot0 -> b ∈ foot1;
  ap_frame : forall b, 0 <= b < FSSIZE -> b ∉ foot1 -> sec s' b = sec s b;
}.

Lemma foot_block blocks ind b : b ∈ blocks -> b ∈ foot blocks ind.
Proof. intros. unfold foot. apply elem_of_app. by left. Qed.

Lemma foot_ind blocks ind : ind <> 0 -> ind ∈ foot blocks ind.
Proof.
  intros. unfold foot. apply elem_of_app. right. destruct (Z.eqb_spec ind 0); [done|].
  by apply list_elem_of_singleton.
Qed.

Lemma foot_block_ne blocks ind b : NoDup (foot blocks ind) -> b ∈ blocks -> ind <> 0 -> b <> ind.
Proof.
  unfold foot. intros (_ & H & _)%list.NoDup_app Hb Hi ->. apply (H ind Hb).
  destruct (Z.eqb_spec ind 0); [done|]. by apply list_elem_of_singleton.
Qed.

(** The block found or allocated for offset [length data], before the copy. *)
Lemma grown_data s din data blocks ind s' x din' blocks' ind' :
  wf s -> clean s -> stored s (d_addrs din) data blocks ind ->
  grown s din blocks ind (length data / 512) s' x din' blocks' ind' ->
  concat (sec s' <$> blocks') = data ++ repeat 0 (512 * length blocks' - length data).
Proof.
  intros W C S G.
  pose proof (st_data _ _ _ _ _ S) as HD. pose proof (st_count _ _ _ _ _ S) as Hc.
  pose proof (nblk_spec (length data)) as Hn. pose proof (gr_within _ _ _ _ _ _ _ _ _ _ G) as HW.
  assert (HE : forall l : list Z, (forall b, b ∈ l -> b ∈ blocks') -> sec s' <$> l = sec s <$> l).
  { intros l Hl. apply list_fmap_ext. intros i b Hb%list_elem_of_lookup_2. apply Hl in Hb.
    pose proof (within_elem _ _ _ b HW (foot_block _ _ _ Hb)) as Hr.
    pose proof (wf_free _ (gr_wf _ _ _ _ _ _ _ _ _ _ G)).
    apply (gr_frame _ _ _ _ _ _ _ _ _ _ G); [clia|].
    intros Hi. by apply (foot_block_ne blocks'); [apply G|..]. }
  pose proof (gr_blocks _ _ _ _ _ _ _ _ _ _ G) as Hb. pose proof (gr_new _ _ _ _ _ _ _ _ _ _ G) as Hnew.
  pose proof (gr_at _ _ _ _ _ _ _ _ _ _ G) as Hat. apply list_elem_of_lookup_2 in Hat.
  rewrite HE by done. destruct (Nat.ltb_spec (length data / 512) (length blocks)) as [Hlt|Hge]; subst blocks'; [done|].
  pose proof (Nat.div_mod_eq (length data) 512) as Hdm. pose proof (Nat.mod_upper_bound (length data) 512).
  pose proof (within_elem _ _ _ x HW (foot_block _ _ _ Hat)) as Hr.
  pose proof (wf_free _ (gr_wf _ _ _ _ _ _ _ _ _ _ G)).
  rewrite fmap_app, concat_app, HD. simpl. rewrite app_nil_r, C by (specialize (Hnew Hge); clia).
  rewrite <- app_assoc, length_app. f_equal. unfold zeroes. rewrite <- repeat_app. f_equal.
  change (Z.to_nat BSIZE) with 512%nat. simpl. lia.
Qed.

Definition taken (data p : list Z) : list Z := take (Nat.min (length p) (512 - length data mod 512)) p.

Lemma iappend_step_spec s din data blocks ind p :
  wf s -> clean s -> stored s (d_addrs din) data blocks ind -> p <> [] ->
  Z.of_nat (length data + length p) <= MAXFILE * BSIZE ->
  freeblock s + cost (nblk (length data + length p)) <= FSSIZE + cost (nblk (length data)) ->
  let q := taken data p in
  exists s' din' blocks' ind',
    iappend_step false (din, Z.of_nat (length data), p) s
      = Ok (inl (din', Z.of_nat (length (data ++ q)), drop (length q) p)) s' /\
    stored s' (d_addrs din') (data ++ q) blocks' ind' /\
    din' = Dinode (d_type din) (d_major din) (d_minor din) (d_nlink din) (d_size din) (d_addrs din') /\
    appended s s' (foot blocks ind) (foot blocks' ind').
Proof.
  intros W C S Hp Hmax Hroom q. change (MAXFILE * BSIZE) with 71680 in Hmax.
  pose proof (st_count _ _ _ _ _ S) as Hc. pose proof (nblk_spec (length data)) as Hn.
  pose proof (Nat.div_mod_eq (length data) 512) as Hdm. pose proof (Nat.mod_upper_bound (length data) 512 ltac:(lia)) as Hmb.
  assert (Hlp : (0 < length p)%nat) by (destruct p; simpl; [done|lia]).
  set (k := (length data / 512)%nat) in *. set (o := (length data mod 512)%nat) in *.
  assert (Hq : length q = Nat.min (length p) (512 - o)) by (unfold q, taken; fold o; rewrite length_take; lia).
  destruct (file_block_spec s din blocks ind W C (st_maps _ _ _ _ _ S) (st_nodup _ _ _ _ _ S) (st_within _ _ _ _ _ S) ltac:(lia) k)
    as (s1 & x & din1 & blocks1 & ind1 & E & G); [lia|lia| |].
  { pose proof (cost_mono (Datatypes.S k) (nblk (length data + length p))) as Hm.
    rewrite Hc. pose proof (nblk_spec (length data + length p)). lia. }
  pose proof (grown_data _ _ _ _ _ _ _ _ _ _ W C S G) as HD.
  pose proof (gr_wf _ _ _ _ _ _ _ _ _ _ G) as W1. pose proof (gr_within _ _ _ _ _ _ _ _ _ _ G) as HW.
  pose proof (gr_at _ _ _ _ _ _ _ _ _ _ G) as Hat. pose proof (gr_nodup _ _ _ _ _ _ _ _ _ _ G) as ND.
  pose proof (within_block _ _ _ _ _ HW W1 Hat) as Hx.
  pose proof (gr_maps _ _ _ _ _ _ _ _ _ _ G) as HM. pose proof (foot_block _ ind1 _ (list_elem_of_lookup_2 _ _ _ Hat)) as Hxf.
  set (buf := splice o q (sec s1 x)).
  assert (Hb : length buf = 512%nat).
  { unfold buf. rewrite splice_length; rewrite (sec_length s1 x); try done; try clia. }
  destruct (wsect_spec s1 x buf W1 ltac:(clia) Hb) as [E2 W2].
  assert (Hsec : forall b, 0 <= b -> sec (with_sector x buf s1) b = if b =? x then buf else sec s1 b)
    by (intros; by rewrite sec_with by (try done; clia)).
  exists (with_sector x buf s1), din1, blocks1, ind1. split_and!.
  - unfold iappend_step. destruct (Z.ltb_spec 0 (Z.of_nat (length p))); [|lia].
    change BSIZE with 512. replace (Z.of_nat (length data) / 512) with (Z.of_nat k) by (unfold k; apply Nat2Z.inj_div).
    unfold assert. change MAXFILE with 140. destruct (Z.ltb_spec (Z.of_nat k) 140); [|lia].
    unfold mbind, mret. rewrite E, rsect_spec by (try done; clia).
    rewrite (u32_small ((Z.of_nat k + 1) * 512 - _)) by lia.
    replace (Z.to_nat (Z.min _ _)) with (length q) by lia.
    replace (take (length q) p) with q by (rewrite Hq; reflexivity).
    replace (Z.to_nat (Z.of_nat (length data) - Z.of_nat k * 512)) with o by lia. fold buf. rewrite E2.
    rewrite u32_small by lia. do 4 f_equal. rewrite length_app. lia.
  - split.
    + destruct HM as [H1 H2 H3 H4 H5]. split; try done. intros H12. destruct (H5 H12) as [Hi Hw]. split; [done|].
      pose proof (within_ind _ _ _ HW W1 Hi). rewrite Hsec by clia. destruct (Z.eqb_spec ind1 x) as [->|]; [|done].
      exfalso. by apply (foot_block_ne blocks1 x x ND (list_elem_of_lookup_2 _ _ _ Hat)).
    + done.
    + exact HW.
    + rewrite (gr_blocks _ _ _ _ _ _ _ _ _ _ G), length_app. symmetry. apply nblk_unique.
      destruct (Nat.ltb_spec k (length blocks)); rewrite ?length_app; simpl; lia.
    + assert (HB : Z.of_nat (length blocks1) * 512 >= Z.of_nat (length (data ++ q))).
      { rewrite (gr_blocks _ _ _ _ _ _ _ _ _ _ G), length_app. destruct (Nat.ltb_spec k (length blocks)); rewrite ?length_app; simpl; lia. }
      rewrite length_app in *.
      rewrite (concat_splice (sec s1) _ blocks1 k x o q), HD.
      * replace (512 * k + o)%nat with (length data) by lia. rewrite splice_zeros by lia. do 2 f_equal. lia.
      * unfold foot in ND. apply list.NoDup_app in ND as (? & _ & _). done.
      * done.
      * intros y Hy. apply sec_length; [done|]. pose proof (within_elem _ _ _ _ HW (foot_block _ ind1 _ Hy)).
        pose proof (wf_free _ W1). clia.
      * lia.
      * rewrite Hsec, Z.eqb_refl by clia. done.
      * intros y Hy Hne. pose proof (within_elem _ _ _ _ HW (foot_block _ ind1 _ Hy)). rewrite Hsec by clia.
        by destruct (Z.eqb_spec y x).
  - apply G.
  - split; try done; try apply G.
    + intros b Hb'. simpl in Hb'. pose proof (within_elem _ _ _ _ HW Hxf). pose proof (wf_free _ W1).
      rewrite Hsec by clia. destruct (Z.eqb_spec b x); [lia|]. by apply (gr_clean _ _ _ _ _ _ _ _ _ _ G).
    + intros b ? Hnb. rewrite Hsec by lia. destruct (Z.eqb_spec b x) as [->|]; [done|].
      apply (gr_frame _ _ _ _ _ _ _ _ _ _ G); [done|]. intros Hi ->. by apply Hnb, foot_ind.
Qed.

Lemma appended_trans s1 s2 s3 f1 f2 f3 :
  freeblock s1 <= freeblock s2 ->
  appended s1 s2 f1 f2 -> appended s2 s3 f2 f3 -> appended s1 s3 f1 f3.
Proof.
  intros Hle A B. pose proof (ap_keep _ _ _ _ B) as Hsub. split; try apply B.
  - rewrite (ap_inode _ _ _ _ B). apply A.
  - rewrite (ap_free _ _ _ _ B), (ap_free _ _ _ _ A). lia.
  - intros b Hb. destruct (ap_old _ _ _ _ B b Hb) as [H|H]; [by apply (ap_old _ _ _ _ A)|]. right. lia.
  - intros b Hb. by apply Hsub, (ap_keep _ _ _ _ A).
  - intros b Hr Hb. rewrite (ap_frame _ _ _ _ B) by done. apply (ap_frame _ _ _ _ A); auto.
Qed.

Lemma stored_cost s addrs data blocks ind :
  stored s addrs data blocks ind -> Z.of_nat (length (foot blocks ind)) = cost (nblk (length data)).
Proof. intros S. rewrite <- (st_count _ _ _ _ _ S). apply (foot_cost s (Dinode 0 0 0 0 0 addrs)), S. Qed.

(** The loop of [iappend] copies all of [p]. *)
Lemma iappend_loop fuel s din data blocks ind p :
  wf s -> clean s -> stored s (d_addrs din) data blocks ind -> (length p < fuel)%nat ->
  Z.of_nat (length data + length p) <= MAXFILE * BSIZE ->
  freeblock s + cost (nblk (length data + length p)) <= FSSIZE + cost (nblk (length data)) ->
  exists s' din' blocks' ind',
    mloop fuel (iappend_step false) (din, Z.of_nat (length data), p) s
      = Ok (din', Z.of_nat (length (data ++ p))) s' /\
    stored s' (d_addrs din') (data ++ p) blocks' ind' /\
    din' = Dinode (d_type din) (d_major din) (d_minor din) (d_nlink din) (d_size din) (d_addrs din') /\
    appended s s' (foot blocks ind) (foot blocks' ind').
Proof.
  revert s din data blocks ind p. induction fuel as [|fuel IH]; intros s din data blocks ind p W C S Hf Hmax Hroom; [lia|].
  cbn [mloop]. unfold mbind. destruct (decide (p = [])) as [->|Hp].
  - exists s, din, blocks, ind. rewrite app_nil_r. split_and!; try done; [by destruct din|]. split; auto. lia.
  - destruct (iappend_step_spec s din data blocks ind p W C S Hp Hmax Hroom) as (s1 & din1 & b1 & i1 & E & S1 & D1 & A1).
    rewrite E. set (q := taken data p) in *.
    assert (Hq : (0 < length q)%nat).
    { unfold q, taken. rewrite length_take. pose proof (Nat.mod_upper_bound (length data) 512 ltac:(lia)). destruct p; [done|]. cbn [length]. lia. }
    assert (Hp' : p = q ++ drop (length q) p).
    { unfold q at 1, taken. rewrite <- (take_drop (Nat.min (length p) (512 - length data mod 512)) p) at 1. do 2 f_equal.
      unfold q, taken. rewrite length_take. lia. }
    assert (Hl : length p = (length q + length (drop (length q) p))%nat) by (rewrite Hp' at 1; apply length_app).
    pose proof (stored_cost _ _ _ _ _ S) as Hc0. pose proof (stored_cost _ _ _ _ _ S1) as Hc1.
    pose proof (ap_free _ _ _ _ A1) as HF. pose proof (cost_mono (nblk (length data)) (nblk (length (data ++ q)))) as Hm.
    pose proof (nblk_spec (length data)). pose proof (nblk_spec (length (data ++ q))). rewrite !length_app in *.
    destruct (IH s1 din1 (data ++ q) b1 i1 (drop (length q) p)) as (s2 & din2 & b2 & i2 & E2 & S2 & D2 & A2);
      [apply A1|apply A1|done|lia|rewrite length_app; lia| |].
    { rewrite length_app. replace (length data + length q + length (drop (length q) p))%nat with (length data + length p)%nat by lia. lia. }
    rewrite length_app in E2. rewrite E2. exists s2, din2, b2, i2. rewrite <- app_assoc in *. rewrite <- Hp' in *. split_and!; try done.
    + rewrite length_app. done.
    + rewrite D2, D1. done.
    + eapply appended_trans; [|exact A1|exact A2]. lia.
Qed.

(** ** Inodes in the image *)

Definition disk_dinode (s : image) (inum : Z) : dinode :=
  get_dinode false (sec s (IBLOCK inum (layout false))) (dinode_off inum).

Lemma iblock_range inum : 0 <= inum < NINODES -> IBLOCK inum (layout false) = inum / 8 + 32 /\ 32 <= inum / 8 + 32 < 58.
Proof.
  intros H. change NINODES with 200 in H. unfold IBLOCK. change IPB with 8.
  change (sb_inodestart (layout false)) with 32. rewrite u32_small; Z.div_mod_to_equations; lia.
Qed.

Lemma rinode_spec s inum : wf s -> 0 <= inum < NINODES -> rinode false inum s = Ok (disk_dinode s inum) s.
Proof.
  intros W H. pose proof (iblock_range _ H) as [E R]. unfold rinode, mbind, mret. rewrite (wf_sb s W), rsect_spec; [done..|].
  rewrite E. clia.
Qed.

Lemma winode_spec s inum d :
  wf s -> clean s -> 0 <= inum < NINODES -> dinode_ok d ->
  exists s', winode false inum d s = Ok tt s' /\ wf s' /\ clean s' /\
    freeblock s' = freeblock s /\ freeinode s' = freeinode s /\
    (forall j, 0 <= j < NINODES -> disk_dinode s' j = if j =? inum then d else disk_dinode s j) /\
    (forall b, 0 <= b < FSSIZE -> b < 32 \/ 58 <= b -> sec s' b = sec s b).
Proof.
  intros W C H Hd. pose proof (iblock_range _ H) as [E R]. set (b := IBLOCK inum (layout false)) in *.
  set (buf := set_dinode false (dinode_off inum) d (sec s b)).
  assert (Hs : length (sec s b) = 512%nat) by (apply sec_length; [done|clia]).
  destruct (wsect_spec s b buf W ltac:(clia)) as [E2 W2]; [unfold buf; by rewrite set_dinode_length|].
  exists (with_sector b buf s).
  assert (Hsec : forall b', 0 <= b' -> sec (with_sector b buf s) b' = if b' =? b then buf else sec s b')
    by (intros; by rewrite sec_with by (try done; clia)).
  split_and!; try done.
  - unfold winode, mbind. rewrite (wf_sb s W). fold b. rewrite rsect_spec by (try done; clia). exact E2.
  - intros b' Hb'. simpl in Hb'. pose proof (wf_free s W). rewrite Hsec by clia. destruct (Z.eqb_spec b' b); [clia|]. by apply C.
  - intros j Hj. pose proof (iblock_range _ Hj) as [Ej Rj]. unfold disk_dinode. rewrite Hsec by clia. rewrite Ej, E.
    destruct (Z.eqb_spec j inum) as [->|Hne].
    + rewrite Z.eqb_refl. unfold buf. apply get_set_dinode; [|done]. rewrite Hs. apply dinode_off_range.
    + destruct (Z.eqb_spec (j / 8 + 32) (inum / 8 + 32)) as [Eb|Eb]; [|done].
      unfold buf. rewrite get_set_dinode_ne; [by rewrite E, Eb| |apply Hd].
      unfold dinode_off. change IPB with 8. Z.div_mod_to_equations. lia.
  - intros b' ? Hb'. rewrite Hsec by lia. destruct (Z.eqb_spec b' b); [lia|done].
Qed.

(** ** The file system under construction *)

(** The files so far, in the order of their inodes, the first of number 1. *)
Record entry := Entry { e_type : Z; e_data : list Z; e_blocks : list Z; e_ind : Z }.

Definition e_foot (e : entry) : list Z := foot (e_blocks e) (e_ind e).
Definition feet (es : list entry) : list Z := concat (e_foot <$> es).

Definition on_disk (s : image) (inum : Z) (e : entry) : Prop :=
  exists addrs, disk_dinode s inum = Dinode (e_type e) 0 0 1 (Z.of_nat (length (e_data e))) addrs /\
    stored s addrs (e_data e) (e_blocks e) (e_ind e) /\
    Z.of_nat (length (e_data e)) <= MAXFILE * BSIZE /\ s16 (e_type e) = e_type e.

Record fs (s : image) (es : list entry) : Prop := {
  fs_wf : wf s;
  fs_clean : clean s;
  fs_inode : freeinode s = 1 + Z.of_nat (length es);
  fs_count : 1 + Z.of_nat (length es) <= NINODES;
  fs_files : forall i e, es !! i = Some e -> on_disk s (1 + Z.of_nat i) e;
  fs_nodup : NoDup (feet es);
  fs_free : freeblock s = nmeta + Z.of_nat (length (feet es));
  fs_unused : forall j, 1 + Z.of_nat (length es) <= j < NINODES -> d_type (disk_dinode s j) = 0;
}.

Lemma feet_insert es i e e' :
  es !! i = Some e ->
  exists rest, feet es ≡ₚ e_foot e ++ rest /\ feet (<[i := e']> es) ≡ₚ e_foot e' ++ rest /\
    forall j f b, es !! j = Some f -> j <> i -> b ∈ e_foot f -> b ∈ rest.
Proof.
  intros Hi. pose proof (lookup_lt_Some _ _ _ Hi) as Hlt. exists (feet (take i es ++ drop (S i) es)).
  unfold feet. rewrite <- (take_drop_middle es i e Hi) at 1. rewrite insert_take_drop by done.
  rewrite !fmap_app, !fmap_cons, !concat_app. cbn [concat]. split_and!.
  - apply Permutation_app_swap_app.
  - apply Permutation_app_swap_app.
  - intros j f b Hj Hne Hb. rewrite <- concat_app, <- fmap_app. rewrite list_elem_of_In, in_concat. exists (e_foot f).
    rewrite <- !list_elem_of_In. split; [|done]. apply list_elem_of_fmap. exists f. split; [done|].
    apply elem_of_app. destruct (decide (j < i)%nat).
    + left. apply (list_elem_of_lookup_2 _ j). rewrite lookup_take_lt; done.
    + right. apply (list_elem_of_lookup_2 _ (j - S i)). rewrite lookup_drop. rewrite <- Hj. f_equal. lia.
Qed.

Lemma stored_addrs s addrs data blocks ind :
  wf s -> stored s addrs data blocks ind -> length addrs = 13%nat /\ Forall (fun a => u32 a = a) addrs.
Proof.
  intros W S. pose proof (st_maps _ _ _ _ _ S) as HM. pose proof (st_within _ _ _ _ _ S) as HW. split; [apply HM|].
  apply Forall_lookup. intros k a Hk. pose proof (lookup_lt_Some _ _ _ Hk) as Hlt. rewrite (mp_addrs _ _ _ _ HM) in Hlt.
  assert (Ha : nth k addrs 0 = a) by (by rewrite nth_lookup, Hk).
  assert (a = 0 \/ nmeta <= a < FSSIZE) as Hr; [|apply u32_small; clia].
  rewrite <- Ha. destruct (decide (k = 12%nat)) as [->|].
  - rewrite (mp_ind _ _ _ _ HM). destruct (decide (ind = 0)); [by left|]. right. by eapply within_ind.
  - rewrite (mp_direct _ _ _ _ HM) by lia. rewrite nth_lookup. destruct (blocks !! k) eqn:E; [|by left].
    right. by eapply within_block.
Qed.

Lemma stored_frame s s' addrs data blocks ind :
  stored s addrs data blocks ind -> freeblock s <= freeblock s' ->
  (forall b, b ∈ foot blocks ind -> sec s' b = sec s b) -> stored s' addrs data blocks ind.
Proof.
  intros [M ND HW Hc HD] Hle Hs. split; try done.
  - destruct M as [H1 H2 H3 H4 H5]. split; try done. intros H12. destruct (H5 H12) as [Hi Hw]. split; [done|].
    rewrite (Hs ind) by (by apply foot_ind). done.
  - by eapply within_weaken.
  - rewrite <- HD. f_equal. apply list_fmap_ext. intros i b Hb%list_elem_of_lookup_2. by apply Hs, foot_block.
Qed.

Lemma on_disk_frame s s' inum e :
  on_disk s inum e -> freeblock s <= freeblock s' -> disk_dinode s' inum = disk_dinode s inum ->
  (forall b, b ∈ e_foot e -> sec s' b = sec s b) -> on_disk s' inum e.
Proof.
  intros (addrs & E & S & R) Hle Hd Hs. exists addrs. rewrite Hd. split_and!; try done; try apply R.
  by eapply stored_frame.
Qed.

Lemma fs_within s es i e b : fs s es -> es !! i = Some e -> b ∈ e_foot e -> nmeta <= b < freeblock s.
Proof.
  intros F Hi Hb. destruct (fs_files s es F i e Hi) as (addrs & _ & S & _).
  by apply (within_elem _ _ _ _ (st_within _ _ _ _ _ S)).
Qed.

(** One file replaced by a larger version of it, at the expense of free blocks. *)
Lemma fs_replace s s2 es i e e' :
  fs s es -> es !! i = Some e -> wf s2 -> clean s2 -> freeinode s2 = freeinode s ->
  freeblock s2 = freeblock s + Z.of_nat (length (e_foot e')) - Z.of_nat (length (e_foot e)) ->
  freeblock s <= freeblock s2 -> on_disk s2 (1 + Z.of_nat i) e' -> NoDup (e_foot e') ->
  (forall b, b ∈ e_foot e' -> b ∈ e_foot e \/ freeblock s <= b) ->
  (forall j, 0 <= j < NINODES -> j <> 1 + Z.of_nat i -> disk_dinode s2 j = disk_dinode s j) ->
  (forall b, nmeta <= b < freeblock s -> b ∉ e_foot e' -> sec s2 b = sec s b) ->
  fs s2 (<[i := e']> es).
Proof.
  intros F Hi W2 C2 I2 HF Hle He' ND' Hold Hdisk Hsec. pose proof (fs_count _ _ F) as HN.
  destruct (feet_insert es i e e' Hi) as (rest & P0 & P1 & Hrest).
  pose proof (fs_nodup _ _ F) as ND. rewrite P0 in ND. apply list.NoDup_app in ND as (_ & HND & NDr).
  split; try done.
  - rewrite length_insert, I2. apply F.
  - by rewrite length_insert.
  - intros j f Hj. pose proof (lookup_lt_Some _ _ _ Hj) as Hjl. rewrite length_insert in Hjl.
    destruct (decide (j = i)) as [->|Hne]; [by rewrite list_lookup_insert_eq in Hj by done; injection Hj as <-|].
    rewrite list_lookup_insert_ne in Hj by done. apply (on_disk_frame s); [by apply F|done|apply Hdisk; lia|].
    intros b Hb. pose proof (fs_within _ _ _ _ _ F Hj Hb) as Hr. apply Hsec; [done|]. intros Hin.
    destruct (Hold b Hin) as [Ho|]; [|lia]. by apply (HND b Ho), (Hrest j f).
  - rewrite P1. apply list.NoDup_app. split_and!; [done| |done]. intros b Hin Hr.
    destruct (Hold b Hin) as [Ho|Hge]; [by apply (HND b Ho)|].
    assert (Hbf : b ∈ feet es) by (rewrite P0; apply elem_of_app; by right).
    unfold feet in Hbf. rewrite list_elem_of_In, in_concat in Hbf. destruct Hbf as (l & Hl & Hbl).
    rewrite <- !list_elem_of_In in *. apply list_elem_of_fmap in Hl as (f & -> & [j Hj]%list_elem_of_lookup_1).
    pose proof (fs_within _ _ _ _ _ F Hj Hbl). lia.
  - rewrite P1, length_app. pose proof (fs_free _ _ F) as HFF. rewrite P0, length_app in HFF. lia.
  - pose proof (lookup_lt_Some _ _ _ Hi). intros j Hj. rewrite length_insert in Hj. rewrite Hdisk by lia. by apply F.
Qed.

(** What [iappend] leaves alone: the boot, super and log blocks and the bitmap. *)
Definition same_meta (s s' : image) : Prop := forall b, 0 <= b < 32 \/ b = 58 -> sec s' b = sec s b.

Lemma iappend_fs s es i e p :
  fs s es -> es !! i = Some e ->
  Z.of_nat (length (e_data e) + length p) <= MAXFILE * BSIZE ->
  freeblock s + cost (nblk (length (e_data e) + length p)) <= FSSIZE + cost (nblk (length (e_data e))) ->
  exists s' blocks' ind',
    iappend false (1 + Z.of_nat i) p s = Ok tt s' /\ same_meta s s' /\
    freeblock s' = freeblock s + cost (nblk (length (e_data e) + length p)) - cost (nblk (length (e_data e))) /\
    fs s' (<[i := Entry (e_type e) (e_data e ++ p) blocks' ind']> es).
Proof.
  intros F Hi Hmax Hroom. pose proof (fs_wf _ _ F) as W. pose proof (lookup_lt_Some _ _ _ Hi) as Hlt. pose proof (fs_count _ _ F) as HN.
  destruct (fs_files _ _ F i e Hi) as (addrs & Ed & S & He & Ht).
  destruct (iappend_loop (Datatypes.S (length p)) s (disk_dinode s (1 + Z.of_nat i)) (e_data e) (e_blocks e) (e_ind e) p)
    as (s1 & din1 & b1 & i1 & E1 & S1 & D1 & A1); [done|apply F|by rewrite Ed|lia|done|done|].
  pose proof (stored_cost _ _ _ _ _ S) as Hc0. pose proof (stored_cost _ _ _ _ _ S1) as Hc1. rewrite length_app in Hc1.
  pose proof (ap_free _ _ _ _ A1) as HF. pose proof (ap_wf _ _ _ _ A1) as W1.
  pose proof (cost_mono (nblk (length (e_data e))) (nblk (length (e_data e) + length p))) as Hm.
  pose proof (nblk_spec (length (e_data e))). pose proof (nblk_spec (length (e_data e) + length p)).
  set (e' := Entry (e_type e) (e_data e ++ p) b1 i1).
  rewrite Ed in D1. simpl in D1. change (MAXFILE * BSIZE) with 71680 in *.
  set (d := Dinode (e_type e) 0 0 1 (Z.of_nat (length (e_data e ++ p))) (d_addrs din1)).
  assert (Hd : dinode_ok d).
  { pose proof (stored_addrs _ _ _ _ _ W1 S1) as [Ha Hu]. unfold d. split_and!; simpl; try done.
    rewrite length_app. apply u32_small. lia. }
  destruct (winode_spec s1 (1 + Z.of_nat i) d W1 (ap_clean _ _ _ _ A1) ltac:(lia) Hd)
    as (s2 & E2 & W2 & C2 & F2 & I2 & D2 & Fr2).
  assert (Hlow : forall b, 0 <= b < 59 -> sec s1 b = sec s b).
  { intros b Hb. apply (ap_frame _ _ _ _ A1); [clia|]. intros Hin.
    pose proof (within_elem _ _ _ _ (st_within _ _ _ _ _ S1) Hin). clia. }
  assert (Hdisk : forall j, 0 <= j < NINODES -> disk_dinode s1 j = disk_dinode s j).
  { intros j Hj. pose proof (iblock_range _ Hj) as [Ej Rj]. unfold disk_dinode. by rewrite Hlow by lia. }
  exists s2, b1, i1. fold e'. split_and!.
  - unfold iappend, mbind. rewrite rinode_spec by (try done; lia). rewrite Ed at 2. simpl d_size.
    rewrite xint_le, u32_small by lia. rewrite E1. rewrite xint_le, u32_small by (rewrite length_app; lia).
    rewrite D1. exact E2.
  - intros b Hb. rewrite Fr2 by clia. apply Hlow. lia.
  - lia.
  - apply (fs_replace s s2 es i e e' F Hi); try done; try lia.
    + rewrite I2. apply A1.
    + unfold e_foot. simpl. lia.
    + exists (d_addrs din1). rewrite D2, Z.eqb_refl by lia. split_and!; [done| |simpl; rewrite length_app; done|done].
      eapply stored_frame; [exact S1|lia|]. intros b Hb.
      pose proof (within_elem _ _ _ _ (st_within _ _ _ _ _ S1) Hb). pose proof (wf_free _ W1). apply Fr2; clia.
    + apply S1.
    + apply A1.
    + intros j Hj Hne. rewrite D2 by done. destruct (Z.eqb_spec j (1 + Z.of_nat i)); [done|]. by apply Hdisk.
    + intros b Hb Hnb. pose proof (wf_free _ W). rewrite Fr2 by clia. apply (ap_frame _ _ _ _ A1); [clia|done].
Qed.

Lemma stored_nil s addrs : addrs = repeat 0 13 -> stored s addrs [] [] 0.
Proof.
  intros ->. split; try done.
  - split; try done; [|simpl; lia]. intros k Hk. rewrite nth_repeat. by destruct k.
  - constructor.
  - constructor.
Qed.

Lemma ialloc_fs s es type :
  fs s es -> 2 + Z.of_nat (length es) <= NINODES -> 0 <= type < 2 ^ 15 ->
  exists s', ialloc false type s = Ok (1 + Z.of_nat (length es)) s' /\ same_meta s s' /\
    freeblock s' = freeblock s /\ fs s' (es ++ [Entry type [] [] 0]).
Proof.
  intros F HN Ht. pose proof (fs_wf _ _ F) as W. pose proof (fs_inode _ _ F) as HI.
  assert (Ht' : s16 (xshort false type) = type).
  { rewrite xshort_le, s16_u16. unfold s16. rewrite Z.mod_small; lia. }
  set (d := Dinode type 0 0 1 0 (repeat 0 13)).
  set (s1 := Image (sectors s) (isb s) (u32 (freeinode s + 1)) (freeblock s)).
  assert (W1 : wf s1) by (split; apply W). assert (C1 : clean s1) by apply F.
  assert (Hd : dinode_ok d).
  { unfold d. split_and!; simpl; try done; [unfold s16; rewrite Z.mod_small; lia|]. repeat constructor. }
  destruct (winode_spec s1 (1 + Z.of_nat (length es)) d W1 C1 ltac:(lia) Hd) as (s2 & E2 & W2 & C2 & F2 & I2 & D2 & Fr2).
  exists s2. split_and!.
  - unfold ialloc, mbind, next_inode, mret. rewrite Ht', !HI. change (s16 (xshort false 1)) with 1. change (xint false 0) with 0.
    fold d. rewrite <- HI. fold s1. rewrite HI, E2. done.
  - intros b Hb. apply Fr2; clia.
  - exact F2.
  - split; try done.
    + rewrite I2. simpl. rewrite HI, length_app. simpl. rewrite u32_small by clia. lia.
    + rewrite length_app. simpl. clia.
    + intros i e Hi. apply lookup_app_Some in Hi as [Hi|[Hge Hi]].
      * pose proof (lookup_lt_Some _ _ _ Hi). apply (on_disk_frame s); [by apply F|by rewrite F2| |].
        -- rewrite D2 by clia. destruct (Z.eqb_spec (1 + Z.of_nat i) (1 + Z.of_nat (length es))); [lia|done].
        -- intros b Hb. pose proof (fs_within _ _ _ _ _ F Hi Hb). pose proof (wf_free _ W). apply Fr2; clia.
      * apply list_lookup_singleton_Some in Hi as [Hz <-]. exists (repeat 0 13).
        rewrite D2 by clia.
        destruct (Z.eqb_spec (1 + Z.of_nat i) (1 + Z.of_nat (length es))); [|lia]. split_and!; try done; [by apply stored_nil|].
        simpl. unfold s16. rewrite Z.mod_small; lia.
    + unfold feet. rewrite fmap_app, concat_app. simpl. rewrite app_nil_r. apply F.
    + rewrite F2. unfold feet. rewrite fmap_app, concat_app. simpl. rewrite app_nil_r. apply F.
    + intros j Hj. rewrite length_app in Hj. simpl length in Hj. rewrite D2 by clia.
      destruct (Z.eqb_spec j (1 + Z.of_nat (length es))); [lia|]. apply (fs_unused _ _ F j). clia.
Qed.

(** ** The files of the command line *)

Lemma same_meta_trans s1 s2 s3 : same_meta s1 s2 -> same_meta s2 s3 -> same_meta s1 s3.
Proof. intros H1 H2 b Hb. by rewrite H2, H1. Qed.

Lemma iappend_reads s es i e reads :
  fs s es -> es !! i = Some e ->
  Z.of_nat (length (e_data e) + length (concat reads)) <= MAXFILE * BSIZE ->
  freeblock s + cost (nblk (length (e_data e) + length (concat reads))) <= FSSIZE + cost (nblk (length (e_data e))) ->
  exists s' blocks' ind',
    mfor reads (iappend false (1 + Z.of_nat i)) s = Ok tt s' /\ same_meta s s' /\
    freeblock s' = freeblock s + cost (nblk (length (e_data e) + length (concat reads))) - cost (nblk (length (e_data e))) /\
    fs s' (<[i := Entry (e_type e) (e_data e ++ concat reads) blocks' ind']> es).
Proof.
  revert s es e. induction reads as [|p reads IH]; intros s es e F Hi Hmax Hroom.
  - exists s, (e_blocks e), (e_ind e). cbn [concat length]. rewrite app_nil_r, Nat.add_0_r.
    split_and!; [done|done|lia|]. rewrite list_insert_id; [done|]. by destruct e.
  - cbn [concat] in *. rewrite length_app in *. 
    pose proof (nblk_spec (length (e_data e) + length p)). pose proof (nblk_spec (length (e_data e) + (length p + length (concat reads)))).
    pose proof (cost_mono (nblk (length (e_data e) + length p)) (nblk (length (e_data e) + (length p + length (concat reads))))).
    destruct (iappend_fs s es i e p) as (s1 & b1 & i1 & E1 & M1 & F1 & FS1); [done|done|lia|lia|].
    destruct (IH s1 _ (Entry (e_type e) (e_data e ++ p) b1 i1) FS1) as (s2 & b2 & i2 & E2 & M2 & F2 & FS2).
    + apply list_lookup_insert_eq. by eapply lookup_lt_Some.
    + simpl. rewrite length_app. lia.
    + simpl. rewrite length_app, <- Nat.add_assoc. lia.
    + exists s2, b2, i2. simpl in F2, FS2. rewrite length_app, <- Nat.add_assoc in F2.
      rewrite list_insert_insert_eq, <- app_assoc in FS2. split_and!; try done; [|by eapply same_meta_trans|lia].
      cbn [mfor]. unfold mbind at 1. by rewrite E1.
Qed.

Definition view (es : list entry) : list (Z * list Z) := (fun e => (e_type e, e_data e)) <$> es.

(** An input: its name and what the reads of it return. *)
Definition input : Type := list Z * list (list Z).
Definition bytes (f : input) : list Z := concat f.2.
Definition argument (f : input) : list Z * option (list (list Z)) := (f.1, Some f.2).
Definition input_ok (f : input) : Prop := (47 ∉ f.1) /\ Z.of_nat (length (bytes f)) <= MAXFILE * BSIZE.

Lemma de_length inum name : length (de false inum name) = 16%nat.
Proof.
  unfold de, set_short. rewrite length_app, put_short_length, length_take, length_app, repeat_length. change (Z.to_nat DIRSIZ) with 14%nat. cbn [length]. lia.
Qed.

Lemma view_insert i es e e' :
  es !! i = Some e -> view (<[i := e']> es) = <[i := (e_type e', e_data e')]> (view es).
Proof. intros. unfold view. by rewrite list_fmap_insert. Qed.

Lemma no_slash name : 47 ∉ name -> existsb (fun c => c =? 47) name = false.
Proof.
  intros H. destruct (existsb _ name) eqn:E; [|done]. apply existsb_exists in E as (c & Hc & ->%Z.eqb_eq).
  by apply list_elem_of_In in Hc.
Qed.

Lemma add_file_spec s es d rest f :
  fs s es -> view es = (T_DIR, d) :: rest -> input_ok f -> 2 + Z.of_nat (length es) <= NINODES ->
  Z.of_nat (length d + 16) <= MAXFILE * BSIZE ->
  freeblock s + cost (nblk (length d + 16)) + cost (nblk (length (bytes f))) <= FSSIZE + cost (nblk (length d)) ->
  exists s' es', add_file false ROOTINO (argument f) s = Ok tt s' /\ same_meta s s' /\ fs s' es' /\
    view es' = (T_DIR, d ++ de false (2 + Z.of_nat (length rest)) (underscore f.1)) :: rest ++ [(T_FILE, bytes f)] /\
    freeblock s' = freeblock s + cost (nblk (length d + 16)) + cost (nblk (length (bytes f))) - cost (nblk (length d)).
Proof.
  intros F V [Hn Hsz] HN Hd Hroom.
  pose proof (cost_mono 0 (nblk (length (bytes f))) ltac:(lia)) as Hcp. change (cost 0) with 0 in Hcp.
  assert (Hl : length es = S (length rest)) by (unfold view in V; rewrite <- (length_fmap (fun e => (e_type e, e_data e)) es), V; done).
  destruct es as [|r es]; [done|]. injection V as Ht Hrd Hrest. 
  destruct (ialloc_fs s (r :: es) T_FILE F HN ltac:(unfold T_FILE; lia)) as (s1 & E1 & M1 & F1 & FS1).
  set (inum := 1 + Z.of_nat (length (r :: es))) in *.
  destruct (iappend_fs s1 _ 0 r (de false inum (underscore f.1)) FS1) as (s2 & b2 & i2 & E2 & M2 & F2 & FS2);
    [done|rewrite Hrd, de_length; lia..|].
  rewrite Hrd, Ht, de_length in *. rewrite <- app_comm_cons in FS2. cbn [insert list_insert] in FS2.
  set (r2 := Entry T_DIR _ b2 i2) in FS2.
  destruct (iappend_reads s2 _ (length (r :: es)) (Entry T_FILE [] [] 0) f.2 FS2) as (s3 & b3 & i3 & E3 & M3 & F3 & FS3).
  - simpl. by apply list_lookup_middle.
  - exact Hsz.
  - simpl. fold (bytes f). change (cost (nblk 0)) with 0. lia.
  - simpl length in *. fold (bytes f) in F3, FS3. simpl in F3. change (cost (nblk 0)) with 0 in F3.
    eexists s3, _. split_and!; [|by eapply same_meta_trans; [|eapply same_meta_trans]|exact FS3| |lia].
    + unfold add_file, argument, assert. rewrite no_slash by done. cbn [negb].
      rewrite (mbind_Ok (mret tt) _ s tt s eq_refl), (mbind_Ok _ _ _ _ _ E1).
      change (1 + Z.of_nat 0) with ROOTINO in E2. rewrite (mbind_Ok _ _ _ _ _ E2). exact E3.
    + simpl. rewrite insert_app_r_alt, Nat.sub_diag by lia. simpl. unfold view in *. rewrite fmap_app. simpl. rewrite Hrest.
      do 3 f_equal. rewrite <- Hrest, length_fmap. unfold inum. cbn [length]. f_equal. lia.
Qed.

(** The directory entries of the inputs, of inodes [inum] on. *)
Fixpoint dirents (inum : Z) (fs : list input) : list Z :=
  match fs with
  | [] => []
  | f :: fs => de false inum (underscore f.1) ++ dirents (inum + 1) fs
  end.

Definition costs (fs : list input) : Z := zsum ((fun f => cost (nblk (length (bytes f)))) <$> fs).

Lemma costs_nonneg fs : 0 <= costs fs.
Proof.
  apply zsum_nonneg, list.Forall_fmap, list.Forall_true. intros f. simpl. pose proof (cost_mono 0 (nblk (length (bytes f))) ltac:(lia)).
  exact H.
Qed.

Lemma add_files_spec inputs s es d rest :
  fs s es -> view es = (T_DIR, d) :: rest -> Forall input_ok inputs ->
  1 + Z.of_nat (length es + length inputs) <= NINODES ->
  Z.of_nat (length d + 16 * length inputs) <= MAXFILE * BSIZE ->
  freeblock s + cost (nblk (length d + 16 * length inputs)) + costs inputs <= FSSIZE + cost (nblk (length d)) ->
  exists s' es', mfor (argument <$> inputs) (add_file false ROOTINO) s = Ok tt s' /\ same_meta s s' /\ fs s' es' /\
    view es' = (T_DIR, d ++ dirents (2 + Z.of_nat (length rest)) inputs)
                 :: rest ++ ((fun f => (T_FILE, bytes f)) <$> inputs).
Proof.
  revert s es d rest. induction inputs as [|f inputs IH]; intros s es d rest F V Hok HN Hd Hroom.
  - exists s, es. simpl. rewrite !app_nil_r. done.
  - apply list.Forall_cons in Hok as [Hf Hok]. cbn [length] in *. unfold costs in Hroom. rewrite fmap_cons in Hroom.
    cbn [zsum foldr] in Hroom. fold (costs inputs) in Hroom. pose proof (costs_nonneg inputs) as Hcn.
    change (foldr Z.add 0 ((fun f0 : input => cost (nblk (length (bytes f0)))) <$> inputs)) with (costs inputs) in Hroom.
    pose proof (cost_mono (nblk (length d + 16)) (nblk (length d + 16 * S (length inputs)))) as Hm.
    pose proof (nblk_spec (length d + 16)). pose proof (nblk_spec (length d + 16 * S (length inputs))).
    destruct (add_file_spec s es d rest f) as (s1 & es1 & E1 & M1 & F1 & V1 & R1); [done..|lia|lia|lia|].
    pose proof (fs_inode _ _ F1) as HI1.
    assert (Hl : length es1 = S (length es)).
    { apply (f_equal length) in V, V1. unfold view in V, V1. rewrite length_fmap in V, V1. simpl in V, V1. rewrite length_app in V1. simpl in V1. lia. }
    assert (Hd1 : length (d ++ de false (2 + Z.of_nat (length rest)) (underscore f.1)) = (length d + 16)%nat)
      by (by rewrite length_app, de_length).
    destruct (IH s1 es1 _ _ F1 V1) as (s2 & es2 & E2 & M2 & F2 & V2); [done|lia|lia| |].
    + rewrite Hd1. replace (length d + 16 + 16 * length inputs)%nat with (length d + 16 * S (length inputs))%nat by lia. lia.
    + exists s2, es2. rewrite fmap_cons. cbn [mfor]. rewrite (mbind_Ok _ _ _ _ _ E1). split_and!; [done|by eapply same_meta_trans|done|].
      rewrite V2, <- app_assoc, length_app. cbn [length dirents]. rewrite <- app_assoc.
      replace (2 + Z.of_nat (length rest + 1)) with (2 + Z.of_nat (length rest) + 1) by lia. done.
Qed.

(** ** The image before the first inode *)

Definition blank_sectors : list (list Z) := repeat zeroes (Z.to_nat FSSIZE).
Definition start : image :=
  Image (<[1%nat := splice 0 (superblock_bytes false (layout false)) zeroes]> blank_sectors) (layout false) 1 nmeta.

Lemma sec_start b : 0 <= b < FSSIZE -> b <> 1 -> sec start b = zeroes.
Proof.
  intros Hb Hne. unfold sec, start. cbn [sectors]. rewrite nth_lookup, list_lookup_insert_ne by lia.
  unfold blank_sectors. rewrite <- nth_lookup. rewrite (nth_indep _ _ zeroes) by (rewrite repeat_length; lia).
  apply nth_repeat.
Qed.

Lemma start_fs : fs start [].
Proof.
  split; try done.
  - split; try done.
    unfold start. cbn [sectors]. apply Forall_insert; [|by vm_compute].
    apply list.Forall_forall. intros l Hl%list_elem_of_In%repeat_spec. by subst.
  - intros b Hb. change (freeblock start) with 59 in Hb. apply sec_start; clia.
  - constructor.
  - intros j Hj. pose proof (iblock_range j ltac:(simpl in Hj; lia)) as [E R]. unfold disk_dinode.
    rewrite E, sec_start by clia. simpl. unfold get_short, short_at, byte_at, zeroes. by rewrite !nth_repeat.
Qed.

Lemma blank_spec : mfor (Z.of_nat <$> seq 0 (Z.to_nat FSSIZE)) (fun i => wsect i zeroes)
  (Image [] (layout false) 1 nmeta) = Ok tt (Image blank_sectors (layout false) 1 nmeta).
Proof. vm_compute. reflexivity. Qed.

Lemma super_spec : wsect 1 (splice 0 (superblock_bytes false (layout false)) zeroes)
  (Image blank_sectors (layout false) 1 nmeta) = Ok tt start.
Proof. vm_compute. reflexivity. Qed.

(** ** The bitmap of the image *)

Lemma bitmap_S n : bitmap (S n) = <[(n / 8)%nat := u8 (Z.lor (byte_at (bitmap n) (n / 8)) (Z.shiftl 1 (Z.of_nat (n mod 8))))]> (bitmap n).
Proof. unfold bitmap. rewrite seq_S, foldl_app. done. Qed.

Lemma bitmap_length n : length (bitmap n) = 512%nat.
Proof. induction n; [done|]. by rewrite bitmap_S, length_insert. Qed.

Lemma bitmap_bit n k j :
  (n <= 4096)%nat -> (k < 512)%nat -> 0 <= j < 8 ->
  Z.testbit (byte_at (bitmap n) k) j = (8 * Z.of_nat k + j <? Z.of_nat n).
Proof.
  intros Hn Hk Hj. induction n as [|n IH].
  - unfold bitmap; cbn [seq foldl]. unfold byte_at, zeroes. rewrite nth_repeat, Z.testbit_0_l. symmetry. apply Z.ltb_ge. lia.
  - rewrite bitmap_S, byte_at_insert by (rewrite bitmap_length; lia).
    pose proof (Nat.div_mod_eq n 8) as Hdm. pose proof (Nat.mod_upper_bound n 8 ltac:(lia)) as Hmb.
    case_decide as E.
    + subst k. unfold u8. rewrite Z.mod_pow2_bits_low, Z.lor_spec, IH, Z.shiftl_1_l, Z.pow2_bits_eqb by lia.
      destruct (Z.ltb_spec (8 * Z.of_nat (n / 8) + j) (Z.of_nat n)), (Z.eqb_spec (Z.of_nat (n mod 8)) j),
        (Z.ltb_spec (8 * Z.of_nat (n / 8) + j) (Z.of_nat (S n))); simpl; lia.
    + rewrite IH by lia. destruct (Z.ltb_spec (8 * Z.of_nat k + j) (Z.of_nat n)), (Z.ltb_spec (8 * Z.of_nat k + j) (Z.of_nat (S n))); lia.
Qed.

(** The bitmap, as the kernel's [balloc] tests it, marks the first [n] blocks. *)
Lemma bitmap_spec n b : (n <= 4096)%nat -> 0 <= b < BPB -> bit_set (bitmap n) b = (b <? Z.of_nat n).
Proof.
  change BPB with 4096. intros Hn Hb. unfold bit_set. rewrite land_bit, bitmap_bit; try (Z.div_mod_to_equations; lia).
  f_equal. Z.div_mod_to_equations. lia.
Qed.

(** ** The image as the kernel reads it *)

Definition disk_inode (s : image) (inum : Z) : inode :=
  read_dinode (sec s (IBLOCK inum (superblock_of (sec s 1)))) (dinode_off inum)
    (Inode ROOTDEV inum 1 1 0 0 0 0 0 []).

(** The number of block [k] of a file, as [bmap] finds it, and its bytes; an
    address 0 stands for a block that is still to be allocated, of zeroes. *)
Definition block_no (s : image) (ip : inode) (k : nat) : Z :=
  if (k <? Z.to_nat NDIRECT)%nat then nth k (i_addrs ip) 0
  else word_at (sec s (nth (Z.to_nat NDIRECT) (i_addrs ip) 0)) (4 * (k - Z.to_nat NDIRECT)).
Definition block_bytes (s : image) (b : Z) : list Z := if b =? 0 then zeroes else sec s b.

Definition file_blocks (s : image) (ip : inode) : list Z := block_no s ip <$> seq 0 (nblk (Z.to_nat (i_size ip))).
Definition file_bytes (s : image) (ip : inode) : list Z :=
  take (Z.to_nat (i_size ip)) (concat (block_bytes s <$> file_blocks s ip)).

(** The blocks an inode owns. *)
Definition owned (s : image) (ip : inode) : list Z :=
  filter (fun b => b <> 0) (file_blocks s ip ++ [nth (Z.to_nat NDIRECT) (i_addrs ip) 0]).

Lemma disk_inode_view s inum d :
  superblock_of (sec s 1) = layout false -> disk_dinode s inum = d ->
  i_type (disk_inode s inum) = d_type d /\ i_nlink (disk_inode s inum) = d_nlink d /\
  i_size (disk_inode s inum) = d_size d /\ i_addrs (disk_inode s inum) = d_addrs d.
Proof.
  intros Hsb <-. unfold disk_inode, disk_dinode. rewrite Hsb. unfold get_dinode, get_short, host16, read_dinode.
  cbn [i_type i_nlink i_size i_addrs d_type d_nlink d_size d_addrs]. unfold din_type, short_at. rewrite !s16_u16.
  assert (Hs : forall x, s16 (s16 x) = s16 x) by (intros; unfold s16; Z.div_mod_to_equations; lia).
  by rewrite !Hs.
Qed.

Lemma file_blocks_stored s ip data blocks ind :
  stored s (i_addrs ip) data blocks ind -> 0 <= i_size ip ->
  (length data <= Z.to_nat (i_size ip))%nat ->
  Z.to_nat (i_size ip) = length data \/ (nblk (Z.to_nat (i_size ip)) <= 12)%nat ->
  (length blocks <= 140)%nat ->
  file_blocks s ip = blocks ++ repeat 0 (nblk (Z.to_nat (i_size ip)) - length blocks).
Proof.
  intros S Hs Hle Hor H140. pose proof (st_maps _ _ _ _ _ S) as HM. pose proof (st_count _ _ _ _ _ S) as Hc.
  set (n := Z.to_nat (i_size ip)) in *. pose proof (nblk_spec n). pose proof (nblk_spec (length data)).
  assert (Hb : (length blocks <= nblk n)%nat) by lia.
  apply list_eq. intros k. unfold file_blocks. fold n. rewrite list_lookup_fmap.
  destruct (decide (k < nblk n)%nat) as [Hk|Hk].
  - rewrite lookup_seq_lt by done. simpl. unfold block_no. change (Z.to_nat NDIRECT) with 12%nat.
    assert (E : nth k (blocks ++ repeat 0 (nblk n - length blocks)) 0 = nth k blocks 0).
    { destruct (decide (k < length blocks)%nat); [by rewrite app_nth1|].
      rewrite app_nth2, nth_repeat, nth_overflow by lia. done. }
    destruct (lookup_lt_is_Some_2 (blocks ++ repeat 0 (nblk n - length blocks)) k) as [b Hbk];
      [rewrite length_app, repeat_length; lia|].
    rewrite Hbk. f_equal. rewrite nth_lookup, Hbk in E. simpl in E. subst b.
    destruct (Nat.ltb_spec k 12) as [H12|H12]; [by apply (mp_direct _ _ _ _ HM)|].
    rewrite (mp_ind _ _ _ _ HM). destruct (mp_large _ _ _ _ HM) as [_ Hw]; [lia|]. rewrite Hw by lia. f_equal. lia.
  - rewrite lookup_seq_ge by lia. rewrite lookup_ge_None_2; [done|]. rewrite length_app, repeat_length. lia.
Qed.

Lemma concat_holes s m : concat (block_bytes s <$> repeat 0 m) = repeat 0 (512 * m).
Proof.
  induction m as [|m IH]; [done|]. change (repeat 0 (S m)) with (0 :: repeat 0 m).
  rewrite fmap_cons. cbn [concat]. rewrite IH, Nat.mul_succ_r, Nat.add_comm, repeat_app. done.
Qed.

Lemma file_view s ip data blocks ind :
  stored s (i_addrs ip) data blocks ind -> 0 <= i_size ip ->
  (length data <= Z.to_nat (i_size ip))%nat ->
  Z.to_nat (i_size ip) = length data \/ (nblk (Z.to_nat (i_size ip)) <= 12)%nat ->
  (length data <= 140 * 512)%nat ->
  file_bytes s ip = data ++ repeat 0 (Z.to_nat (i_size ip) - length data) /\ owned s ip = foot blocks ind.
Proof.
  intros S Hs Hle Hor Hmax. pose proof (st_count _ _ _ _ _ S) as Hc. pose proof (st_within _ _ _ _ _ S) as HW.
  pose proof (nblk_spec (Z.to_nat (i_size ip))) as Hn. pose proof (nblk_spec (length data)) as Hd.
  pose proof (file_blocks_stored s ip data blocks ind S Hs Hle Hor ltac:(lia)) as HB.
  set (n := Z.to_nat (i_size ip)) in *.
  assert (Hnz : forall b, b ∈ foot blocks ind -> b <> 0) by (intros b Hb; pose proof (within_elem _ _ _ _ HW Hb); clia).
  split.
  - unfold file_bytes. fold n. rewrite HB, fmap_app, concat_app.
    replace (block_bytes s <$> blocks) with (sec s <$> blocks).
    2:{ apply list_fmap_ext. intros i b Hb%list_elem_of_lookup_2. unfold block_bytes.
        destruct (Z.eqb_spec b 0); [|done]. by destruct (Hnz b (foot_block _ _ _ Hb)). }
    rewrite concat_holes.
    rewrite (st_data _ _ _ _ _ S), <- app_assoc, <- repeat_app, take_app_ge by lia. f_equal.
    match goal with |- take ?k (repeat 0 ?m) = _ =>
      replace (repeat 0 m) with (repeat 0 k ++ repeat 0 (m - k)) by (rewrite <- repeat_app; f_equal; lia) end.
    rewrite take_app_length'; [done|by rewrite repeat_length].
  - unfold owned. rewrite HB. change (Z.to_nat NDIRECT) with 12%nat. rewrite (mp_ind _ _ _ _ (st_maps _ _ _ _ _ S)).
    rewrite !list.filter_app, (filter_all _ blocks), (filter_none _ (repeat 0 _)), app_nil_r.
    + unfold foot. f_equal. rewrite filter_cons. destruct (Z.eqb_spec ind 0); [by rewrite decide_False by tauto|by rewrite decide_True].
    + intros b Hb%list_elem_of_In%repeat_spec. tauto.
    + intros b Hb. by apply Hnz, foot_block.
Qed.

(** What the kernel finds on the disk: the layout, an empty log, the root
    directory with its entries, every input with its bytes, the other inodes
    free, and a bitmap of exactly the blocks in use, none of them used twice. *)
Record image_of (inputs : list input) (s : image) : Prop := {
  im_sectors : length (sectors s) = Z.to_nat FSSIZE /\ Forall (fun l => length l = Z.to_nat BSIZE) (sectors s);
  im_super : superblock_of (sec s 1) = Superblock FSSIZE nblocks NINODES LOGSIZE 2 (2 + LOGSIZE) (2 + LOGSIZE + ninodeblocks);
  im_log : word_at (sec s 2) 0 = 0;
  im_root : let ip := disk_inode s ROOTINO in
    i_type ip = T_DIR /\ i_nlink ip = 1 /\
    exists n, file_bytes s ip
      = de false ROOTINO [46] ++ de false ROOTINO [46; 46] ++ dirents 2 inputs ++ repeat 0 n;
  im_file : forall i f, inputs !! i = Some f -> let ip := disk_inode s (2 + Z.of_nat i) in
    i_type ip = T_FILE /\ i_nlink ip = 1 /\ file_bytes s ip = bytes f;
  im_unused : forall j, 2 + Z.of_nat (length inputs) <= j < NINODES -> i_type (disk_inode s j) = 0;
  im_owned : NoDup (concat ((fun i => owned s (disk_inode s (1 + Z.of_nat i))) <$> seq 0 (1 + length inputs)));
  im_bitmap : forall b, 0 <= b < BPB ->
    bit_set (sec s (2 + LOGSIZE + ninodeblocks)) b = true <->
    b < nmeta \/ exists i, (i < 1 + length inputs)%nat /\ b ∈ owned s (disk_inode s (1 + Z.of_nat i));
}.

Lemma feet_all s es b : fs s es -> nmeta <= b < freeblock s -> b ∈ feet es.
Proof.
  intros F Hb. pose proof (fs_free _ _ F) as HF. rewrite list_elem_of_In.
  apply (NoDup_length_incl (l := feet es) (l' := seqZ nmeta (freeblock s - nmeta))).
  - apply NoDup_ListNoDup, F.
  - rewrite length_seqZ. lia.
  - intros x Hx%list_elem_of_In. apply list_elem_of_In, elem_of_seqZ. unfold feet in Hx.
    rewrite list_elem_of_In, in_concat in Hx. destruct Hx as (l & Hl & Hxl). rewrite <- !list_elem_of_In in *.
    apply list_elem_of_fmap in Hl as (f & -> & [j Hj]%list_elem_of_lookup_1).
    pose proof (fs_within _ _ _ _ _ F Hj Hxl). lia.
  - apply list_elem_of_In, elem_of_seqZ. lia.
Qed.

(** The end of [main]. *)
Lemma finish_spec s es r :
  fs s (r :: es) -> (length (e_data r) < 12 * 512)%nat ->
  exists s' addrs n, finish false ROOTINO s = Ok tt s' /\ wf s' /\ freeblock s' = freeblock s /\
    (forall b, 0 <= b < 32 -> sec s' b = sec s b) /\
    sec s' 58 = bitmap (Z.to_nat (freeblock s)) /\
    disk_dinode s ROOTINO = Dinode (e_type r) 0 0 1 (Z.of_nat (length (e_data r))) addrs /\
    disk_dinode s' ROOTINO = Dinode (e_type r) 0 0 1 (Z.of_nat n) addrs /\
    (length (e_data r) <= n <= 12 * 512)%nat /\
    (forall j, 0 <= j < NINODES -> j <> ROOTINO -> disk_dinode s' j = disk_dinode s j) /\
    (forall b, nmeta <= b < FSSIZE -> sec s' b = sec s b).
Proof.
  intros F Hlen. pose proof (fs_wf _ _ F) as W.
  destruct (fs_files _ _ F 0 r eq_refl) as (addrs & Ed & S & _ & Ht). change (1 + Z.of_nat 0) with ROOTINO in Ed.
  set (n := (512 * (length (e_data r) / 512 + 1))%nat).
  pose proof (Nat.div_mod_eq (length (e_data r)) 512) as Hdm.
  pose proof (Nat.mod_upper_bound (length (e_data r)) 512 ltac:(lia)) as Hmb.
  assert (Hn : (length (e_data r) <= n <= 12 * 512)%nat) by (unfold n; lia).
  set (d := Dinode (e_type r) 0 0 1 (Z.of_nat n) addrs).
  assert (Hd : dinode_ok d).
  { pose proof (stored_addrs _ _ _ _ _ W S) as [Ha Hu]. unfold d. split_and!; cbn -[n]; try done. apply u32_small. lia. }
  destruct (winode_spec s ROOTINO d W (fs_clean _ _ F) ltac:(unfold ROOTINO; clia) Hd)
    as (s1 & E1 & W1 & C1 & F1 & I1 & D1 & Fr1).
  pose proof (wf_free _ W) as Hf. set (u := Z.to_nat (freeblock s)).
  destruct (wsect_spec s1 58 (bitmap u) W1 ltac:(clia) (bitmap_length u)) as [E2 W2].
  assert (Hsec : forall b, 0 <= b -> sec (with_sector 58 (bitmap u) s1) b = if b =? 58 then bitmap u else sec s1 b)
    by (intros; by rewrite sec_with by (try done; clia)).
  exists (with_sector 58 (bitmap u) s1), addrs, n. split_and!; try done; try lia.
  - unfold finish. rewrite (mbind_Ok _ _ _ _ _ (rinode_spec s ROOTINO W ltac:(unfold ROOTINO; clia))). rewrite Ed. cbn [d_size].
    rewrite (xint_le (Z.of_nat _)), (u32_small (Z.of_nat _)) by lia.
    rewrite (u32_small (_ * _)) by (change BSIZE with 512; Z.div_mod_to_equations; lia).
    rewrite xint_le, u32_small by (change BSIZE with 512; Z.div_mod_to_equations; lia).
    replace ((Z.of_nat (length (e_data r)) / BSIZE + 1) * BSIZE) with (Z.of_nat n)
      by (change BSIZE with 512; unfold n; rewrite Nat2Z.inj_mul, Nat2Z.inj_add, Nat2Z.inj_div; lia).
    unfold with_size; cbn [d_type d_major d_minor d_nlink d_addrs]. fold d. rewrite (mbind_Ok _ _ _ _ _ E1).
    rewrite (mbind_Ok (fun s => Ok (freeblock s) s) _ s1 (freeblock s1) s1 eq_refl). unfold balloc, assert. rewrite s32_small, F1 by clia.
    change (BSIZE * 8) with 4096. destruct (Z.ltb_spec (freeblock s) 4096); [|clia].
    rewrite (mbind_Ok (mret tt) _ s1 tt s1 eq_refl), (mbind_Ok (fun s => Ok (sb_bmapstart (isb s)) s) _ s1 58 s1); [exact E2|].
    rewrite (wf_sb _ W1). reflexivity.
  - intros b Hb. rewrite Hsec by lia. destruct (Z.eqb_spec b 58); [lia|]. apply Fr1; clia.
  - rewrite Hsec by lia. done.
  - unfold disk_dinode. rewrite Hsec by done. exact (D1 ROOTINO ltac:(unfold ROOTINO; clia)).
  - intros j Hj Hne. pose proof (iblock_range _ Hj) as [Ej Rj]. pose proof (D1 j Hj) as H. destruct (Z.eqb_spec j ROOTINO); [done|].
    rewrite <- H. unfold disk_dinode. rewrite Hsec by lia. destruct (Z.eqb_spec (IBLOCK j (layout false)) 58); [lia|done].
  - intros b Hb. rewrite Hsec by clia. destruct (Z.eqb_spec b 58); [clia|]. apply Fr1; clia.
Qed.

(** What the kernel sees of each file of the construction after [finish]. *)
Lemma finish_view s s' es r addrs n i e :
  fs s (r :: es) -> (r :: es) !! i = Some e -> superblock_of (sec s' 1) = layout false ->
  freeblock s' = freeblock s ->
  disk_dinode s ROOTINO = Dinode (e_type r) 0 0 1 (Z.of_nat (length (e_data r))) addrs ->
  disk_dinode s' ROOTINO = Dinode (e_type r) 0 0 1 (Z.of_nat n) addrs ->
  (length (e_data r) <= n <= 12 * 512)%nat ->
  (forall j, 0 <= j < NINODES -> j <> ROOTINO -> disk_dinode s' j = disk_dinode s j) ->
  (forall b, nmeta <= b < FSSIZE -> sec s' b = sec s b) ->
  let ip := disk_inode s' (1 + Z.of_nat i) in
  i_type ip = e_type e /\ i_nlink ip = 1 /\ owned s' ip = e_foot e /\
  exists m, file_bytes s' ip = e_data e ++ repeat 0 m /\ (i <> 0%nat -> m = 0%nat).
Proof.
  intros F Hi Hsb Hf Ed Ed' Hn Hdisk Hsec ip. pose proof (lookup_lt_Some _ _ _ Hi) as Hlt.
  destruct (fs_files _ _ F i e Hi) as (a & Ea & S & Hmax & Ht). change (MAXFILE * BSIZE) with 71680 in Hmax.
  pose proof (wf_free _ (fs_wf _ _ F)) as Hr. pose proof (fs_count _ _ F) as HN.
  assert (S' : stored s' a (e_data e) (e_blocks e) (e_ind e)).
  { eapply stored_frame; [exact S|lia|]. intros b Hb. pose proof (within_elem _ _ _ _ (st_within _ _ _ _ _ S) Hb). apply Hsec. lia. }
  assert (exists m, disk_dinode s' (1 + Z.of_nat i) = Dinode (e_type e) 0 0 1 (Z.of_nat m) a /\ (length (e_data e) <= m)%nat /\
    (m = length (e_data e) \/ (m <= 12 * 512)%nat) /\ (i <> 0%nat -> m = length (e_data e))) as (m & Em & Hm & Hor & Hi0).
  { destruct i as [|i].
    - injection Hi as <-. change (1 + Z.of_nat 0) with ROOTINO in *. rewrite Ed in Ea. injection Ea as <-.
      exists n. split_and!; try done; lia.
    - exists (length (e_data e)). rewrite Hdisk by (unfold ROOTINO; lia). split_and!; try done; lia. }
  destruct (disk_inode_view s' (1 + Z.of_nat i) _ Hsb Em) as (V1 & V2 & V3 & V4). fold ip in V1, V2, V3, V4.
  cbn [d_type d_nlink d_size d_addrs] in *.
  destruct (file_view s' ip (e_data e) (e_blocks e) (e_ind e)) as [Hb Ho]; rewrite ?V3, ?V4, ?Nat2Z.id; try done; try lia.
  - destruct Hor; [by left|right]. pose proof (nblk_spec m). lia.
  - split_and!; try done. exists (m - length (e_data e))%nat. rewrite V3, Nat2Z.id in Hb. split; [done|]. intros H. rewrite Hi0 by done. lia.
Qed.

Lemma image_finish inputs s s' es r addrs n :
  fs s (r :: es) -> same_meta start s -> wf s' -> freeblock s' = freeblock s ->
  view (r :: es) = (T_DIR, de false ROOTINO [46] ++ de false ROOTINO [46; 46] ++ dirents 2 inputs)
                     :: ((fun f => (T_FILE, bytes f)) <$> inputs) ->
  (forall b, 0 <= b < 32 -> sec s' b = sec s b) ->
  sec s' 58 = bitmap (Z.to_nat (freeblock s)) ->
  disk_dinode s ROOTINO = Dinode (e_type r) 0 0 1 (Z.of_nat (length (e_data r))) addrs ->
  disk_dinode s' ROOTINO = Dinode (e_type r) 0 0 1 (Z.of_nat n) addrs ->
  (length (e_data r) <= n <= 12 * 512)%nat ->
  (forall j, 0 <= j < NINODES -> j <> ROOTINO -> disk_dinode s' j = disk_dinode s j) ->
  (forall b, nmeta <= b < FSSIZE -> sec s' b = sec s b) ->
  image_of inputs s'.
Proof.
  intros F M W' Hf V Hlow Hbm Ed Ed' Hn Hdisk Hsec.
  assert (Hsb : superblock_of (sec s' 1) = layout false) by (rewrite Hlow, M by lia; by vm_compute).
  assert (HV : forall i e, (r :: es) !! i = Some e -> _)
    by (intros i e Hi; exact (finish_view s s' es r addrs n i e F Hi Hsb Hf Ed Ed' Hn Hdisk Hsec)).
  assert (Hl : length es = length inputs).
  { apply (f_equal length) in V. unfold view in V. rewrite length_fmap in V. simpl in V. rewrite length_fmap in V. lia. }
  assert (HO : (fun i => owned s' (disk_inode s' (1 + Z.of_nat i))) <$> seq 0 (1 + length inputs) = e_foot <$> r :: es).
  { apply list_eq. intros i. rewrite !list_lookup_fmap. destruct ((r :: es) !! i) as [e|] eqn:Hi.
    - pose proof (lookup_lt_Some _ _ _ Hi) as Hlt. simpl in Hlt. rewrite lookup_seq_lt by lia. simpl. f_equal. apply (HV i e Hi).
    - apply lookup_ge_None in Hi. simpl in Hi. rewrite lookup_seq_ge by lia. done. }
  pose proof (fs_count _ _ F) as HN. cbn [length] in HN.
  split.
  - split; apply W'.
  - rewrite Hsb. reflexivity.
  - rewrite Hlow, M by lia. by vm_compute.
  - destruct (HV 0%nat r eq_refl) as (H1 & H2 & _ & m & H3 & _).
    pose proof (f_equal (fun l => (hd (0, []) l).1) V) as V1. change (e_type r = T_DIR) in V1.
    pose proof (f_equal (fun l => (hd (0, []) l).2) V) as V2.
    change (e_data r = de false ROOTINO [46] ++ de false ROOTINO [46; 46] ++ dirents 2 inputs) in V2.
    change (1 + Z.of_nat 0) with ROOTINO in *. rewrite V1 in H1. split_and!; [done|done|]. exists m.
    rewrite H3, V2, <- !app_assoc. done.
  - intros i f Hi. assert (exists e, es !! i = Some e /\ e_type e = T_FILE /\ e_data e = bytes f) as (e & He & Ht & Hb).
    { pose proof (f_equal tail V) as V'. change (view es = (fun f => (T_FILE, bytes f)) <$> inputs) in V'.
      clear V. rename V' into V. apply (f_equal (fun l => l !! i)) in V. unfold view in V. rewrite !list_lookup_fmap, Hi in V.
      destruct (es !! i) as [e|]; [|done]. injection V as Ht Hb. by exists e. }
    destruct (HV (S i) e He) as (H1 & H2 & _ & m & H3 & H4).
    replace (2 + Z.of_nat i) with (1 + Z.of_nat (S i)) by lia. rewrite H4, app_nil_r in H3 by done.
    split_and!; [congruence|done|congruence].
  - intros j Hj. destruct (disk_inode_view s' j _ Hsb eq_refl) as [-> _]. rewrite Hdisk by (unfold ROOTINO; lia).
    apply (fs_unused _ _ F). cbn [length]. lia.
  - rewrite HO. apply F.
  - intros b Hb. change (2 + LOGSIZE + ninodeblocks) with 58. rewrite Hbm. pose proof (wf_free _ (fs_wf _ _ F)) as Hr.
    rewrite bitmap_spec, Z.ltb_lt by (try done; clia). rewrite Z2Nat.id by clia. split.
    + intros Hlt. destruct (decide (b < nmeta)) as [|Hge]; [by left|]. right.
      assert (Hin : b ∈ feet (r :: es)) by (apply (feet_all s); [done|lia]).
      unfold feet in Hin. rewrite <- HO in Hin. rewrite list_elem_of_In, in_concat in Hin. destruct Hin as (l & Hin & Hbl).
      rewrite <- !list_elem_of_In in *. apply list_elem_of_fmap in Hin as (i & -> & Hi). exists i. split; [|done].
      apply elem_of_seq in Hi. lia.
    + intros [Hlt|(i & Hi & Hin)]; [lia|]. destruct (lookup_lt_is_Some_2 (r :: es) i) as [e He]; [simpl; lia|].
      destruct (HV i e He) as (_ & _ & Ho & _). rewrite Ho in Hin. pose proof (fs_within _ _ _ _ _ F He Hin). lia.
Qed.

(** C15: when the inputs have no slash in their names, each fits in a file, and
    inodes and blocks suffice, mkfs on a little-endian host succeeds, and what
    the kernel finds on the image is the file system of the inputs. *)
Theorem mkfs_builds inputs :
  Forall input_ok inputs -> 2 + Z.of_nat (length inputs) <= NINODES ->
  cost (nblk (16 * (2 + length inputs))) + costs inputs <= nblocks ->
  exists s, mkfs false (argument <$> inputs) = Ok tt s /\ image_of inputs s.
Proof.
  intros Hok HN Hroom. change nblocks with 941 in Hroom. pose proof (costs_nonneg inputs) as Hcn.
  assert (Hmono : forall m n, (m <= n)%nat -> cost (nblk m) <= cost (nblk n)).
  { intros m n Hmn. apply cost_mono. pose proof (nblk_spec m). pose proof (nblk_spec n). lia. }
  pose proof (Hmono 16%nat (16 * (2 + length inputs))%nat ltac:(lia)) as Hm1.
  pose proof (Hmono 32%nat (16 * (2 + length inputs))%nat ltac:(lia)) as Hm2.
  change (cost (nblk 16)) with 1 in *. change (cost (nblk 32)) with 1 in *.
  destruct (ialloc_fs start [] T_DIR start_fs ltac:(done) ltac:(done)) as (s1 & E1 & M1 & F1 & FS1).
  change (1 + Z.of_nat (length [])) with ROOTINO in E1.
  destruct (iappend_fs s1 _ 0 _ (de false ROOTINO [46]) FS1 eq_refl) as (s2 & b2 & i2 & E2 & M2 & F2 & FS2);
    [done|rewrite F1; by vm_compute|].
  rewrite de_length in F2. 
  destruct (iappend_fs s2 _ 0 _ (de false ROOTINO [46; 46]) FS2 eq_refl) as (s3 & b3 & i3 & E3 & M3 & F3 & FS3);
    [done|rewrite F2, F1; by vm_compute|].
  rewrite F2, F1 in F3. change (freeblock s3 = 60) in F3. change (1 + Z.of_nat 0) with ROOTINO in *.
  set (dots := de false ROOTINO [46] ++ de false ROOTINO [46; 46]).
  destruct (add_files_spec inputs s3 _ dots [] FS3) as (s4 & es4 & E4 & M4 & FS4 & V4);
    [done|done|cbn [length insert list_insert app]; clia|change (length dots) with 32%nat; change (MAXFILE * BSIZE) with 71680; clia| |].
  { change (length dots) with 32%nat. rewrite F3. change (cost (nblk 32)) with 1.
    replace (32 + 16 * length inputs)%nat with (16 * (2 + length inputs))%nat by lia. clia. }
  destruct es4 as [|r es]; [done|].
  pose proof (f_equal (fun l => (hd (0, []) l).2) V4) as V5. change (e_data r = dots ++ dirents 2 inputs) in V5.
  assert (Hdl : forall k fs, length (dirents k fs) = (16 * length fs)%nat).
  { intros k l. revert k. induction l as [|f l IH]; intros k; [done|]. cbn [dirents length]. rewrite length_app, de_length, IH. lia. }
  destruct (finish_spec s4 es r FS4) as (s5 & addrs & n & E5 & W5 & F5 & L5 & B5 & D5 & D5' & N5 & O5 & S5).
  { rewrite V5, length_app, Hdl. change (length dots) with 32%nat. clia. }
  exists s5. split.
  - unfold mkfs, main. etransitivity; [eapply mbind_Ok; reflexivity|]. cbn [sectors freeinode].
    rewrite (mbind_Ok _ _ _ _ _ blank_spec), (mbind_Ok _ _ _ _ _ super_spec), (mbind_Ok _ _ _ _ _ E1).
    rewrite (mbind_Ok (assert (ROOTINO =? ROOTINO)) _ _ tt s1 eq_refl).
    rewrite (mbind_Ok _ _ _ _ _ E2), (mbind_Ok _ _ _ _ _ E3), (mbind_Ok _ _ _ _ _ E4). exact E5.
  - apply (image_finish inputs s4 s5 es r addrs n); try done.
    + eapply same_meta_trans; [exact M1|]. eapply same_meta_trans; [exact M2|]. by eapply same_meta_trans.
Qed.

Lemma mkfs_builds_witness : exists s,
  mkfs false [([95; 97], Some [repeat 7 512; [1; 2; 3]]); ([98], Some [])] = Ok tt s /\
  file_bytes s (disk_inode s 2) = repeat 7 512 ++ [1; 2; 3].
Proof.
  destruct (mkfs_builds [([95; 97], [repeat 7 512; [1; 2; 3]]); ([98], [])]) as (s & E & H).
  - repeat constructor; try (vm_compute; discriminate); intros H; apply list_elem_of_In in H; simpl in H; lia.
  - vm_compute. discriminate.
  - vm_compute. discriminate.
  - exists s. split; [exact E|]. apply (im_file _ _ H 0%nat _ eq_refl).
Defined.

(** On a big-endian host the numbers in [sb] are used without being converted
    back: the super block is right, but the inodes and the bitmap go to other
    sectors and the kernel finds no root directory. *)
Theorem mkfs_big_endian : exists s, mkfs true [] = Ok tt s /\
  superblock_of (sec s 1) = layout false /\ i_type (disk_inode s ROOTINO) = 0 /\
  sec s (2 + LOGSIZE + ninodeblocks) = zeroes.
Proof.
  assert (H : match mkfs true [] with
              | Ok _ s => (superblock_of (sec s 1), i_type (disk_inode s ROOTINO), sec s (2 + LOGSIZE + ninodeblocks))
              | _ => (layout true, 1, [])
              end = (layout false, 0, zeroes)) by (vm_compute; reflexivity).
  destruct (mkfs true []) as [[] s| |]; [|discriminate H..]. exists s.
  split_and!; [reflexivity|exact (f_equal (fun p => p.1.1) H)|exact (f_equal (fun p => p.1.2) H)|exact (f_equal snd H)].
Qed.
