(* ===== verification/Integration.v ===== *)
(** The whole system on one machine: the kernel serving user programs from a
    file system that mkfs has made, with its disk in memory (memide.c).

    The definitions of the other files are executable, and so is the system:
    the tests of usertests.c that need one process run here on the model of the
    kernel, every character of their output a system call. *)

From Stdlib Require Import FunctionalExtensionality.
From S2P Require Import Prelude Memory KString Kernel Spinlock Boot Io Vm Proc Sleeplock Observe Bio Log Fs Pipe File Fork Exec Syscall Console Trap Main User System Utils Usertests Mkfs.

(** ** The machine *)

(** The image mkfs builds from a few files. *)
Definition image_files : list (list Z * option (list (list Z))) :=
  [(chars "README", Some [chars "xv6 is a re-implementation" ++ [10]]);
   (chars "_init", Some [chars "init"]); (chars "_cat", Some [chars "cat"]); (chars "_echo", Some [chars "echo"])].

Definition sectors_of (r : Mkfs.result unit) : list (list Z) :=
  match r with
  | Ok _ s => sectors s
  | _ => []
  end.
Definition built : list (list Z) := sectors_of (mkfs false image_files).

(** The image as a file: its sectors that are not zero. *)
Definition sparse (l : list (list Z)) : list (nat * list Z) :=
  filter (fun ' (_, b) => b <> zeroes) (imap (fun i b => (i, b)) l).
Definition fs_img : list (nat * list Z) := Eval vm_compute in sparse built.

Definition sector (n : nat) : list Z :=
  match List.find (fun ' (i, _) => (i =? n)%nat) fs_img with
  | Some (_, b) => b
  | None => zeroes
  end.

(** The disk holds what mkfs has written. *)
Lemma sector_built : sector <$> seq 0 (Z.to_nat FSSIZE) = built.
Proof. vm_compute. reflexivity. Qed.

(** A process with eight pages of memory. *)
Definition U_PGDIR : Z := P2V 0x110000.
Definition U_PGTAB : Z := P2V 0x111000.
Definition U_PAGES : list Z := [0; 1; 2; 3; 4; 5; 6; 7].

Definition pages : memory :=
  store32 U_PGDIR (Z.lor 0x111000 (Z.lor (Z.lor PTE_P PTE_W) PTE_U))
    (foldr (fun i m => store32 (U_PGTAB + 4 * i) (Z.lor (0x200000 + PGSIZE * i) (Z.lor (Z.lor PTE_P PTE_W) PTE_U)) m)
       (fun _ => 0) U_PAGES).

Definition process : proc :=
  upd_sz (fun _ => 8 * PGSIZE) (upd_pgdir (fun _ => U_PGDIR) (upd_kstack (fun _ => P2V 0x112000)
    (upd_state (fun _ => RUNNING) (upd_pid (fun _ => 1) (upd_tf (fun _ => P2V 0x112FB4) zero_proc))))).

Definition powered_on : kernel :=
  upd_disk (fun _ n => sector (Z.to_nat n))
    (upd_mem (fun _ => pages)
      (upd_hw (upd_cr3 (fun _ => V2P U_PGDIR))
        (upd_ptable (fun t => <[0%nat := process]> t) (on_cpu 0 0 boot)))).

Definition ready : Ports :=
  {| port_in := fun _ _ => 0x20; port_ins := fun _ _ n => repeat 0 n; reg_in := fun _ _ => 0; POLLS := 1 |}.

#[local] Existing Instance memide.
#[local] Instance machine : Machine := alone LOTTERY.
#[local] Existing Instance ready.

(** ** A session *)

(** What the kernel does before the first process is in user space: its tables
    initialised, the root as the working directory ([userinit]), the lock
    released and the log recovered ([forkret]). *)
Definition start : M unit :=
  (consoleinit ;;
   binit ;;
   fileinit ;;
   let* ip := namei (chars "/") in
   set_proc 0 (upd_cwd (fun _ => ip)) ;;
   acquire L_ptable ;;
   forkret)%xv6.

(** The first lines of init.c: the console as descriptors 0, 1 and 2. *)
Definition login : prog unit :=
  (let* fd := call (SOpen (chars "console") O_RDWR) in
   pwhen (fd <? 0) (
     call (SMknod (chars "console") 1 1) ;;
     call (SOpen (chars "console") O_RDWR) ;;
     Done tt) ;;
   call (SDup 0) ;;
   call (SDup 0) ;;
   Done tt)%user.

Definition session {A} (m : prog A) : outcome (option A) :=
  (start ;; execute (login ;; m)%user)%xv6 powered_on.

(** What [iinit] prints. *)
Definition banner : list Z :=
  line "sb: size 1000 nblocks 941 ninodes 200 nlog 30 logstart 2 inodestart 32 bmap start 58".

(** A program that returns, having printed [out]. *)
Definition returned {A} (out : list Z) (o : outcome (option A)) : bool :=
  match o with
  | Ret (Some _) k => bool_decide (console k = banner ++ out)
  | _ => false
  end.

(** A program that ends in [exit], having printed [out]. *)
Definition exited {A} (out : list Z) (o : outcome (option A)) : bool :=
  match o with
  | Blocked k => bool_decide (console k = banner ++ out)
  | _ => false
  end.

Definition zero_page : list Z := repeat 0 (Z.to_nat SIZEOF_BUF).

(** ** Evaluation

    The tables of the model that are functions grow with every update.  Before
    each system call they are tabulated where they are in use; the state stays
    the same, and a session takes seconds instead of minutes. *)

Definition tabulate_locks (f : lockid -> spinlock) : lockid -> spinlock :=
  let pt := f L_ptable in
  let ft := f L_ftable in
  let ic := f L_icache in
  let bc := f L_bcache in
  let lg := f L_log in
  let cn := f L_cons in
  let bufs := (fun i => f (L_sleep (SLbuf i))) <$> seq 0 31 in
  let inodes := (fun i => f (L_sleep (SLinode i))) <$> seq 0 50 in
  fun l =>
    match l with
    | L_ptable => pt
    | L_ftable => ft
    | L_icache => ic
    | L_bcache => bc
    | L_log => lg
    | L_cons => cn
    | L_sleep (SLbuf i) => match bufs !! i with Some lk => lk | None => f l end
    | L_sleep (SLinode i) => match inodes !! i with Some lk => lk | None => f l end
    | _ => f l
    end.

Definition tabulate_sleep (f : slid -> sleeplock) : slid -> sleeplock :=
  let bufs := (fun i => f (SLbuf i)) <$> seq 0 31 in
  let inodes := (fun i => f (SLinode i)) <$> seq 0 50 in
  fun s =>
    match s with
    | SLbuf i => match bufs !! i with Some lk => lk | None => f s end
    | SLinode i => match inodes !! i with Some lk => lk | None => f s end
    end.

(** A range of memory. *)
Definition tabulate_range (lo : Z) (n : nat) (m : memory) : memory :=
  let bytes := (fun i => m (lo + Z.of_nat i)) <$> seq 0 n in
  let hi := lo + Z.of_nat n in
  fun x => if (lo <=? x) && (x <? hi) then match bytes !! Z.to_nat (x - lo) with Some b => b | None => m x end else m x.

(** The page directory and table, the trap frame, and of the first two pages
    of the process its arguments, strings and a line of text. *)
Definition tabulate_mem (m : memory) : memory :=
  tabulate_range U_PGDIR 4 (tabulate_range U_PGTAB 32 (tabulate_range (P2V 0x112FB4) 76
    (tabulate_range 0x80200000 48 (tabulate_range 0x80200100 64 (tabulate_range 0x80200200 64
      (tabulate_range 0x80201000 32 m)))))).

Definition tidy (k : kernel) : kernel :=
  upd_locks tabulate_locks (upd_sleeplocks tabulate_sleep (upd_mem tabulate_mem k)).

Lemma lookup_fmap_seq {A} (f : nat -> A) n i :
  match (f <$> seq 0 n) !! i with Some a => a | None => f i end = f i.
Proof.
  rewrite list_lookup_fmap. destruct (seq 0 n !! i) as [j|] eqn:E; [|done].
  apply lookup_seq in E as [-> _]. done.
Qed.

Lemma tabulate_range_eq lo n m : tabulate_range lo n m = m.
Proof.
  extensionality x. unfold tabulate_range. destruct (Z.leb_spec lo x); [|done]. cbn [andb]. destruct (x <? _); [|done].
  pose proof (lookup_fmap_seq (fun i => m (lo + Z.of_nat i)) n (Z.to_nat (x - lo))) as E.
  cbv beta in E. rewrite Z2Nat.id in E by lia. replace (lo + (x - lo)) with x in E by lia. by case_match.
Qed.

Lemma tidy_eq k : tidy k = k.
Proof.
  unfold tidy. kernel_eq.
  - extensionality l. destruct l as [| | | | | | | | | |[i|i]]; try done.
    + exact (lookup_fmap_seq (fun i => locks k (L_sleep (SLinode i))) 50 i).
    + exact (lookup_fmap_seq (fun i => locks k (L_sleep (SLbuf i))) 31 i).
  - extensionality s. destruct s as [i|i].
    + exact (lookup_fmap_seq (fun i => sleeplocks k (SLinode i)) 50 i).
    + exact (lookup_fmap_seq (fun i => sleeplocks k (SLbuf i)) 31 i).
  - unfold tabulate_mem. by rewrite !tabulate_range_eq.
Qed.

Fixpoint execute' {A} (m : prog A) : M (option A) :=
  match m with
  | Call s f =>
      (modify tidy ;;
       let* x := system s in
       match x with
       | Some x => execute' (f x)
       | None => ret None
       end)%xv6
  | m => execute m
  end.

Lemma execute'_eq {A} (m : prog A) k : execute' m k = execute m k.
Proof.
  revert k. induction m as [a| | | |X s f IH]; intros k; try done. cbn [execute execute'].
  rewrite bind_modify, tidy_eq. unfold bind. by destruct (system s k) as [[x|] k'| | | | |].
Qed.

Definition session' {A} (m : prog A) : outcome (option A) :=
  (start ;; execute' (login ;; m)%user)%xv6 powered_on.

Lemma bind_execute' {A B} (m : M B) (p : prog A) k : (m ;; execute' p)%xv6 k = (m ;; execute p)%xv6 k.
Proof. unfold bind. destruct (m k); [apply execute'_eq | done..]. Qed.

Lemma session'_eq {A} (m : prog A) : session' m = session m.
Proof. unfold session', session. exact (bind_execute' start (login ;; m)%user powered_on). Qed.

Lemma evaluate {A} (m : prog A) (P : outcome (option A) -> bool) : P (session' m) = true -> P (session m) = true.
Proof. by rewrite session'_eq. Qed.

Lemma opentest_passes : returned (line "open test" ++ line "open test ok") (session opentest) = true.
Proof. apply evaluate. vm_cast_no_check (eq_refl true). Qed.
Lemma dirtest_passes : returned (line "mkdir test" ++ line "mkdir test ok") (session dirtest) = true.
Proof. apply evaluate. vm_cast_no_check (eq_refl true). Qed.
Lemma iputtest_passes : returned (line "iput test" ++ line "iput test ok") (session iputtest) = true.
Proof. apply evaluate. vm_cast_no_check (eq_refl true). Qed.
Lemma rmdot_passes : returned (line "rmdot test" ++ line "rmdot ok") (session rmdot) = true.
Proof. apply evaluate. vm_cast_no_check (eq_refl true). Qed.
Lemma dirfile_passes : returned (line "dir vs file" ++ line "dir vs file OK") (session dirfile) = true.
Proof. apply evaluate. vm_cast_no_check (eq_refl true). Qed.
Lemma fourteen_passes : returned (line "fourteen test" ++ line "fourteen ok") (session fourteen) = true.
Proof. apply evaluate. vm_cast_no_check (eq_refl true). Qed.
Lemma unlinkread_passes : returned (line "unlinkread test" ++ line "unlinkread ok") (session (unlinkread zero_page)) = true.
Proof. apply evaluate. vm_cast_no_check (eq_refl true). Qed.
Lemma linktest_passes : returned (line "linktest" ++ line "linktest ok") (session (linktest zero_page)) = true.
Proof. apply evaluate. vm_cast_no_check (eq_refl true). Qed.
Lemma argptest_passes : returned (line "arg test passed") (session argptest) = true.
Proof. apply evaluate. vm_cast_no_check (eq_refl true). Qed.

Lemma subdir_passes : returned (line "subdir test" ++ line "subdir ok") (session (subdir zero_page)) = true.
Proof. apply evaluate. vm_cast_no_check (eq_refl true). Qed.

Lemma echo_runs : exited (line "hello world") (session (Echo.main [chars "echo"; chars "hello"; chars "world"])) = true.
Proof. apply evaluate. vm_cast_no_check (eq_refl true). Qed.
Lemma cat_runs : exited (line "xv6 is a re-implementation") (session (Cat.main 10 [chars "cat"; chars "README"])) = true.
Proof. apply evaluate. vm_cast_no_check (eq_refl true). Qed.
Lemma ls_runs : exited (line "README         2 2 27") (session (Ls.main 10 [chars "ls"; chars "README"])) = true.
Proof. apply evaluate. vm_cast_no_check (eq_refl true). Qed.

(** The system passes its test suite, and runs its programs.  On the image
    that mkfs builds, with the kernel initialised by its own routines and the
    console opened as init.c does, each of these tests of usertests.c returns
    and prints its success message and nothing else: opening and not finding
    files, directories and dots, names of fourteen characters, links, reading
    an unlinked file, paths through subdirectories and the calls that have to
    be refused, the transactions around [iput], a bad buffer; and echo, cat and
    ls print what they should and exit.  Every call goes through the trap, the
    fetching of its arguments from the pages of the process, the file
    descriptors, the file system, the log, the buffer cache and the disk. *)
Theorem system_passes_usertests :
  returned (line "open test" ++ line "open test ok") (session opentest) = true /\
  returned (line "mkdir test" ++ line "mkdir test ok") (session dirtest) = true /\
  returned (line "iput test" ++ line "iput test ok") (session iputtest) = true /\
  returned (line "rmdot test" ++ line "rmdot ok") (session rmdot) = true /\
  returned (line "dir vs file" ++ line "dir vs file OK") (session dirfile) = true /\
  returned (line "fourteen test" ++ line "fourteen ok") (session fourteen) = true /\
  returned (line "unlinkread test" ++ line "unlinkread ok") (session (unlinkread zero_page)) = true /\
  returned (line "linktest" ++ line "linktest ok") (session (linktest zero_page)) = true /\
  returned (line "subdir test" ++ line "subdir ok") (session (subdir zero_page)) = true /\
  returned (line "arg test passed") (session argptest) = true /\
  exited (line "hello world") (session (Echo.main [chars "echo"; chars "hello"; chars "world"])) = true /\
  exited (line "xv6 is a re-implementation") (session (Cat.main 10 [chars "cat"; chars "README"])) = true /\
  exited (line "README         2 2 27") (session (Ls.main 10 [chars "ls"; chars "README"])) = true.
Proof.
  split_and!; [exact opentest_passes | exact dirtest_passes | exact iputtest_passes | exact rmdot_passes |
    exact dirfile_passes | exact fourteen_passes | exact unlinkread_passes | exact linktest_passes |
    exact subdir_passes | exact argptest_passes | exact echo_runs | exact cat_runs | exact ls_runs].
Qed.
